(* ===== verification/_CoqProject ===== *)
-Q . S2P
Prelude.v
Serialize.v
ValidationState.v
ArithUint256.v
Chain.v
Params.v
Pow.v
HeaderValidation.v
RandomXHash.v
Subsidy.v
Transaction.v
Script.v
TxCheck.v
Coins.v
TxVerify.v
Merkle.v
Sha256.v
Sha256Spec.v
Hash.v
Hash160.v
Block.v
Genesis.v
Interpreter.v
Sighash.v
VerifyScript.v
InterpreterSpec.v
InterpreterSafe.v
SighashSpec.v
SighashCache.v
SighashOld.v
VerifyScriptProps.v
Spending.v
CuckooCache.v
SigCache.v
ConnectBlock.v
ConnectBlockSpec.v
ChainstateProps.v
ConnectIsolation.v
Activation.v
ActivationSpec.v
ActivationNode.v
ActivationTip.v
ActivationProps.v
ActivationExample.v
ScriptCache.v
BlockScripts.v
Website.v
