(* ===== verification/Prelude.v ===== *)
(** * BitMinti: a verification development

    BitMinti is a proof-of-work currency node derived from Bitcoin Core: RandomX
    instead of double SHA-256 as the work function and a per-block difficulty
    adjustment (LWMA). This library models the consensus
    core of the node (C++, under src/src/) and the script of the project
    website (JavaScript, website/script.js) as executable functions and proves
    that they do what they mean to do. The user interface, the network, the
    wallet, the RPC server and the bundled libraries are not modelled.

    ** The program and its models

    - [Prelude]: machine integers as [Z] with explicit wrap-around, counted loops,
      little-endian bytes, the option monad for faults, automation.
    - [Serialize] (serialize.h): formats as a writer and a reader on byte lists;
      fixed-width integers, compact sizes, variable-length integers, vectors.
    - [ValidationState] (consensus/validation.h): the results of validation.
    - [ArithUint256] (arith_uint256.h, arith_uint256.cpp): 256-bit numbers as
      lists of eight 32-bit digits, with the loops of the source, and the
      compact encoding of targets.
    - [Chain] (chain.h, chain.cpp, node/blockstorage.cpp): the block index as a
      map from block hash to [CBlockIndex] (a pointer is the hash of the block it
      points to), skip list, ancestors, fork points, locators, median time,
      block proof, the active chain, [AddToBlockIndex].
    - [Params] (consensus/params.h, kernel/chainparams.cpp, deploymentstatus.h):
      the consensus parameters the code reads and those of the main network.
    - [Pow] (pow.cpp): [GetNextWorkRequired] with its 90-block loop, decoding of
      targets, the proof-of-work check.
    - [HeaderValidation] (validation.cpp): [ContextualCheckBlockHeader] with the
      seed rotation, [AcceptBlockHeader], [ProcessNewBlockHeaders] and
      [HasValidProofOfWork].
    - [RandomXHash] (primitives/block.cpp): [GetPoWHash], with the shared cache, the
      thread-local virtual machines and the locked regions as the steps of a
      machine in which any number of threads interleave.
    - [Subsidy] (consensus/amount.h, validation.cpp): money range and block subsidy.
    - [Transaction] (primitives/transaction.h, transaction.cpp): transactions
      and their two serialization formats.
    - [Script] (script/script.h, script/script.cpp): reading of opcodes, signature
      operation counts, script templates, script numbers.
    - [TxCheck] (consensus/tx_check.cpp): [CheckTransaction].
    - [Coins] (coins.h, coins.cpp): [CCoinsViewCache] over any backing view.
    - [TxVerify] (consensus/tx_verify.cpp): finality, relative lock times, signature
      operation costs, [CheckTxInputs].
    - [Merkle] (consensus/merkle.cpp): the Merkle root with its mutation flag and
      the one-pass computation of an inclusion path.
    - [Sha256] (crypto/sha256.cpp, crypto/common.h): the unrolled compression function
      and the unrolled double hash of 64 bytes, as lists of rounds with an
      interpreter, and the streaming hasher; [Sha256Spec] has the reference definition
      of SHA-256 and the proofs.
    - [Hash] (hash.h, primitives/block.cpp, primitives/transaction.cpp): the hashes of
      headers, transactions and Merkle nodes.
    - [Hash160] (crypto/ripemd160.cpp, crypto/sha1.cpp, hash.h): RIPEMD-160 and SHA-1 in
      the same way, with their reference definitions, and the hash of a public key.
    - [Interpreter] (script/interpreter.cpp, script/interpreter.h, script/script_error.h):
      [EvalScript] with every opcode, over any signature checker (a class). A result is
      a value, a script error, an exception or an abort.
    - [Sighash] (script/interpreter.cpp, pubkey.h, hash.cpp): the three signature hashes, the
      precomputed transaction data, the cache of midstates, and the checker for
      transactions as an instance of that class.
    - [VerifyScript] (script/interpreter.cpp): [VerifyScript], pay-to-script-hash, witness
      programs, taproot.
    - [InterpreterSpec], [InterpreterSafe], [SighashSpec], [SighashCache], [SighashOld],
      [VerifyScriptProps] and [Spending] have the lemmas and theorems about these;
      [SighashOld] also models the reference signature hash of the unit tests.
    - [Block] (validation.cpp, consensus/validation.h, primitives/block.h): blocks,
      [CheckBlock], [ContextualCheckBlock], the witness commitment.
    - [Genesis] (kernel/chainparams.cpp): the genesis block of the main network.
    - [ConnectBlock] (validation.cpp, undo.h, checkqueue.h): [ConnectBlock],
      [DisconnectBlock], [CheckInputScripts] and what they call; [ConnectBlockSpec] has
      the lemmas and [ChainstateProps] the theorems about them.
    - [Activation] (validation.cpp, node/blockstorage.cpp): the node, with its block index, active
      chain, candidates, coins and files; [ProcessNewBlock], [AcceptBlock], [ActivateBestChain],
      [FindMostWorkChain], [ConnectTip], [DisconnectTip], [FlushStateToDisk], the failure flags,
      the linking of blocks. [ConnectIsolation], [ActivationSpec], [ActivationNode] and
      [ActivationTip] have the lemmas, [ActivationProps] the theorems, and
      [ActivationExample] runs a node of the main network through a reorganization.
    - [CuckooCache] (cuckoocache.h, util/fastrange.h): the lossy set of the two
      validation caches, with its flags, epochs and displacements.
    - [SigCache] (script/sigcache.cpp, util/hasher.h): the signature cache, and the
      checker that uses it as another instance of the class of checkers.
    - [ScriptCache] (validation.cpp): the script execution cache and the calls that share it.
    - [BlockScripts] (validation.cpp, script/script_error.cpp): the check of one input, and
      the theorem about blocks that are connected with the interpreter and both caches.
    - [Website] (website/script.js): the handlers of the page, its timers and pending
      clipboard writes, and the event loop that runs them in any order.

    Headers enter through [HeaderValidation], which calls [Pow] on the ancestors
    that [Chain] finds and adds the header to the index of [Chain]; the work
    is checked with the hash that [RandomXHash] computes. Transactions are read by
    [Transaction], checked by [TxCheck] on their own and by [TxVerify] against the
    coins they spend and the block index, and their effect is kept in a stack of
    the caches of [Coins]. A block is checked on its own by [Block], with the hashes
    of [Hash] and the tree of [Merkle], and [ConnectBlock] then applies its
    transactions to a cache or, with the undo data, takes them back. [Activation] decides
    which blocks are connected and disconnected as they arrive. The scripts of its
    inputs are run by [Interpreter] through [VerifyScript] with the checker of [SigCache], which
    asks that of [Sighash] for what its cache does not hold; [BlockScripts] puts them
    together. [Website] stands alone.

    ** What the theorems show

    - Arithmetic: each digit loop is arithmetic modulo 2^256, division is exact, and
      targets survive the compact encoding up to its precision.
    - Block index: the skip list gives the same ancestors as following parents, adding a
      header keeps a well-formed tree, the two fork-point algorithms agree,
      loops end within the height of the block.
    - Difficulty: the digit-level rule is the numeric rule, its result is always
      a valid target within ten percent of the last one, and it is exact as long as the
      product fits 256 bits. Near the limit of the main network the product
      wraps, and the difficulty rises whatever the block times are.
    - Headers: every accepted header meets the contextual rules on its own
      branch, and the index stays valid; the batch check is exact. No header of height 2048
      is ever accepted, because the seed of that block is sought among its
      ancestors at its own height.
    - RandomX: with one seed all interleavings return the right hash; with two, a
      call may return the hash under the other seed or use a released
      cache; when no virtual machine can be created any header passes.
    - Serialization: compact sizes, variable-length integers and
      transactions have exactly one encoding, and decoding inverts encoding.
    - Coins: a cache, or a stack of them, behaves as a plain set of coins under
      every sequence of operations; a write back is complete; a dropped cache
      leaves no trace.
    - Money: subsidies never exceed the money range; output sums are exact; an
      accepted transaction spends existing mature coins and its outputs and fee
      add up to its inputs.
    - Lock times: relative locks are accepted exactly when every enabled lock
      of an input has elapsed on the branch of the block.
    - Scripts: every script number has exactly one minimal encoding. The interpreter keeps
      its values in their types and its limits, and the verification of a spend always
      ends with acceptance or a script error, so that no input can crash a node. The
      flags are soft forks. The cache of midstates and the in-place serializer change no
      signature hash. Multisignature, conditions, signature encodings and payments to the
      hash of a key mean what they are meant to mean.
    - Caches: the cuckoo cache never leaves its bounds and finds only what was inserted;
      within its load bound it keeps free slots. The signature cache and the script
      execution cache answer as the checks themselves, for every sequence of calls,
      unless SHA-256 collides.
    - Merkle trees: a computed path proves inclusion, and an unmutated root binds
      its leaves up to collisions of the hash.
    - Hashing: the unrolled routines and the streaming hasher compute SHA-256 as the
      standard defines it, for every message and every way of cutting it, and so do those
      of RIPEMD-160 and SHA-1; the genesis
      block that the code builds has the asserted hash and Merkle root.
    - Blocks: [CheckBlock] accepts exactly the well-formed blocks; coinbases of
      different heights differ; a generated witness commitment verifies.
    - Chain state: an accepted block does to the coins what its transactions say, creates no
      money beyond the subsidy, and has every script verified unless it is
      assumed valid: coins locked to the hash of a key move only with a signature of that
      key. [DisconnectBlock] takes it back exactly; worker threads do not
      change what is accepted.
    - The node: from its first start on, through every sequence of headers, blocks and
      reorganizations and whatever files and databases answer, the active chain is a
      branch of the index and the coins are those that the blocks of a branch leave: that of
      the tip, unless a fatal error was reported. They never exceed the
      subsidies, and two nodes with the coins of the same block have the same coins.
    - Website: after any sequence of events every element looks as the last relevant event
      says; a copied code block gets its background back unless two copies
      overlap, in which case the highlight stays; a click copies two commands
      as one line.

    ** Conventions, bounds and fuel

    A C++ integer is a [Z]; every operation that can leave its width is
    wrapped with [u8], [u32], [u64], [i32] or [i64]. [None] is a fault of the program (a
    failed assertion, a thrown exception, a null dereference, undefined behaviour);
    theorems state when it does not occur. Loops that are not structural take
    fuel: the height of the block for walks in the index, ten bytes for variable-length
    integers, the length of the stream for byte vectors, the length of a script for the
    loops over its opcodes. The
    lemmas show that this fuel is never exhausted, so that [None] is
    never an artefact of the model.

    Code that is not part of the source tree is a parameter: the RandomX hash is an
    arbitrary function, and the browser is a class of operations with the two laws that the
    script relies on. The operations of libsecp256k1, which is bundled, are parameters as well:
    the verification of a signature, the test for a low S and the tweak of a taproot
    key; the theorems about scripts hold whatever they answer. [HeaderValidation], [Chain] and [Merkle] are stated for any block
    or node hash, with the hypotheses a theorem needs (distinct headers in the index have
    distinct hashes) stated on it; [Block], [Genesis] and [ConnectBlock] use the hashes
    of [Hash]. [ConnectBlock] takes the check of an input, the script cache, the choice of the failure that
    the worker threads report and the outcome of file operations as arguments, and its
    theorems hold for all of them. The theorems about blocks assume that the names of
    the transactions of a block do not collide, and that BIP30 is enforced, which
    is the case on the main network, whose BIP34 hash is null. In [Activation] an environment answers
    for the operating system: it says at every step whether a file can be read or written,
    whether and how the state is flushed, what time it is and whether the
    node is interrupted; theorems hold for every environment. Its loops are bounded by the
    numbers of blocks and candidates; the theorems about them are about the states a node
    reaches.

    ** Not modelled

    Elliptic curve arithmetic, the memory pool, pruning, snapshots, recovery after a crash
    and operations that invalidate or prefer a block by hand, the
    peer-to-peer protocol, databases and file formats, the wallet, RPC, the graphical
    interface with its translation catalogues, the vector implementations of SHA-256,
    logging and tracing. *)

From stdpp Require Export base numbers list list_numbers option gmap.
From Stdlib Require Export ZArith Lia Zbitwise.

#[global] Open Scope Z_scope.

(** ** Machine integers

    A [w]-bit unsigned integer is a [Z] in [0, 2^w); the conversions below
    are the wrap-around that the C++ integer types perform. *)

Definition u8 (x : Z) : Z := x mod 2 ^ 8.
Definition u32 (x : Z) : Z := x mod 2 ^ 32.
Definition u64 (x : Z) : Z := x mod 2 ^ 64.

(** Two's complement reading of the low 64 bits. *)
Definition i64 (x : Z) : Z := (x + 2 ^ 63) mod 2 ^ 64 - 2 ^ 63.
Definition i32 (x : Z) : Z := (x + 2 ^ 31) mod 2 ^ 32 - 2 ^ 31.

Definition is_u8 (x : Z) : Prop := 0 <= x < 2 ^ 8.
Definition is_u32 (x : Z) : Prop := 0 <= x < 2 ^ 32.
Definition is_u64 (x : Z) : Prop := 0 <= x < 2 ^ 64.
Definition is_i64 (x : Z) : Prop := - 2 ^ 63 <= x < 2 ^ 63.
Definition is_i32 (x : Z) : Prop := - 2 ^ 31 <= x < 2 ^ 31.

(** ** Loops

    [for_up n f s] is [for (i = 0; i < n; i++) s = f(i, s)]. *)

Fixpoint for_from {T : Type} (i n : nat) (f : nat -> T -> T) (s : T) : T :=
  match n with
  | O => s
  | S n' => for_from (S i) n' f (f i s)
  end.

Definition for_up {T : Type} (n : nat) (f : nat -> T -> T) (s : T) : T :=
  for_from 0 n f s.

Lemma for_from_inv {T : Type} (P : nat -> T -> Prop) (f : nat -> T -> T) (n i : nat) (s : T) :
  P i s ->
  (forall j s', (i <= j < i + n)%nat -> P j s' -> P (S j) (f j s')) ->
  P (i + n)%nat (for_from i n f s).
Proof.
  revert i s; induction n as [|n IH]; intros i s H0 Hs; simpl.
  - by rewrite Nat.add_0_r.
  - replace (i + S n)%nat with (S i + n)%nat by lia.
    apply IH; [apply Hs; [lia|done] | intros; apply Hs; [lia|done]].
Qed.

(** The loop rule: an invariant indexed by the loop counter. *)
Lemma for_up_inv {T : Type} (P : nat -> T -> Prop) (f : nat -> T -> T) (n : nat) (s : T) :
  P 0%nat s ->
  (forall j s', (j < n)%nat -> P j s' -> P (S j) (f j s')) ->
  P n (for_up n f s).
Proof.
  intros H0 Hs. apply (for_from_inv P f n 0 s H0). intros; apply Hs; [lia|done].
Qed.

Lemma for_up_S {T : Type} (n : nat) (f : nat -> T -> T) (s : T) :
  for_up (S n) f s = f n (for_up n f s).
Proof.
  unfold for_up.
  assert (H : forall i s, for_from i (S n) f s = f (i + n)%nat (for_from i n f s)).
  { induction n as [|n IH]; intros i s'.
    - simpl. by rewrite Nat.add_0_r.
    - change (for_from i (S (S n)) f s')
        with (for_from (S i) (S n) f (f i s')).
      rewrite IH. simpl. f_equal; lia. }
  by rewrite H.
Qed.

(** ** Arithmetic *)

(** [lia] with quotients and remainders. *)
Ltac div_lia := Z.to_euclidean_division_equations; lia.

Lemma u32_range (x : Z) : is_u32 (u32 x).
Proof. apply Z.mod_pos_bound. lia. Qed.

Lemma u64_range (x : Z) : is_u64 (u64 x).
Proof. apply Z.mod_pos_bound. lia. Qed.

Lemma u32_small (x : Z) : is_u32 x -> u32 x = x.
Proof. apply Z.mod_small. Qed.

Lemma u64_small (x : Z) : is_u64 x -> u64 x = x.
Proof. apply Z.mod_small. Qed.

Lemma i64_small (x : Z) : is_i64 x -> i64 x = x.
Proof. unfold i64, is_i64. intros H. rewrite Z.mod_small; lia. Qed.

Lemma i64_range (x : Z) : is_i64 (i64 x).
Proof.
  unfold i64, is_i64. pose proof (Z.mod_pos_bound (x + 2 ^ 63) (2 ^ 64) eq_refl). lia.
Qed.

(** Bits at and above the width of a bounded number are clear. *)
Lemma testbit_ge_width (x w i : Z) : 0 <= x < 2 ^ w -> w <= i -> Z.testbit x i = false.
Proof.
  intros Hx Hi. destruct (decide (0 <= w)) as [Hw|Hw].
  - rewrite <- (Z.mod_small x (2 ^ w)) by done. by apply Z.mod_pow2_bits_high.
  - rewrite Z.pow_neg_r in Hx by lia. lia.
Qed.

(** Disjoint bit sets: disjunction is addition. *)
Lemma lor_add_disjoint (a b : Z) : Z.land a b = 0 -> Z.lor a b = a + b.
Proof. intros H. by rewrite <- Z.lxor_lor, <- Z.add_nocarry_lxor by done. Qed.

(** A number below [2^n] and a multiple of [2^n] have no bit in common. *)
Lemma land_low_high (a b n : Z) : 0 <= n -> 0 <= a < 2 ^ n -> Z.land a (b * 2 ^ n) = 0.
Proof.
  intros Hn Ha. apply Z.bits_inj'. intros i Hi. rewrite Z.land_spec, Z.bits_0.
  destruct (decide (i < n)).
  - rewrite Z.mul_pow2_bits_low by lia. by rewrite andb_false_r.
  - by rewrite (testbit_ge_width a n i) by lia.
Qed.

Lemma land_le_l (a b : Z) : 0 <= a -> Z.land a b <= a.
Proof.
  intros Ha. rewrite <- (Z.lor_ldiff_and a b) at 2. rewrite lor_add_disjoint.
  - assert (0 <= Z.ldiff a b) by (apply Z.ldiff_nonneg; lia). lia.
  - apply Z.bits_inj'. intros i Hi.
    rewrite !Z.land_spec, Z.ldiff_spec, Z.bits_0. by destruct (Z.testbit a i), (Z.testbit b i).
Qed.

(** Euclidean uniqueness in the form the refinement proofs use. *)
Lemma mod_unique_pos (a b q r : Z) : 0 <= r < b -> a = b * q + r -> a mod b = r.
Proof. intros. symmetry. by apply (Z.mod_unique_pos a b q r). Qed.

(** ** Little-endian byte strings *)

(** The little-endian number of a byte string. *)
Definition le_val (b : list Z) : Z := foldr (fun d acc => d + 2 ^ 8 * acc) 0 b.

(** The [n] low bytes of [x], least significant first. *)
Definition le_bytes (n : nat) (x : Z) : list Z :=
  map (fun i => u8 (Z.shiftr x (8 * Z.of_nat i))) (seq 0 n).

Lemma le_val_bytes (h : Z) (k n : nat) :
  le_val (map (fun i => u8 (Z.shiftr h (8 * Z.of_nat i))) (seq k n))
  = Z.shiftr h (8 * Z.of_nat k) mod 2 ^ (8 * Z.of_nat n).
Proof.
  revert k; induction n as [|n IH]; intros k; cbn [seq map]; [cbn; by rewrite Z.mod_1_r|].
  change (le_val (?x :: ?l)) with (x + 2 ^ 8 * le_val l). rewrite IH.
  replace (8 * Z.of_nat (S k)) with (8 * Z.of_nat k + 8) by lia.
  rewrite <- Z.shiftr_shiftr by lia. set (x := Z.shiftr h (8 * Z.of_nat k)).
  replace (8 * Z.of_nat (S n)) with (8 + 8 * Z.of_nat n) by lia.
  rewrite Z.pow_add_r by lia. unfold u8. rewrite Z.shiftr_div_pow2 by lia.
  by rewrite Z.rem_mul_r by lia.
Qed.


Lemma u8_range (x : Z) : is_u8 (u8 x).
Proof. apply Z.mod_pos_bound. lia. Qed.

Lemma length_le_bytes (n : nat) (x : Z) : length (le_bytes n x) = n.
Proof. unfold le_bytes. by rewrite length_map, length_seq. Qed.

Lemma le_bytes_u8 (n : nat) (x : Z) : Forall is_u8 (le_bytes n x).
Proof.
  apply Forall_forall. intros d Hd. apply list_elem_of_In, in_map_iff in Hd.
  destruct Hd as (i & <- & _). apply u8_range.
Qed.

Lemma le_val_le_bytes_mod (n : nat) (x : Z) : le_val (le_bytes n x) = x mod 2 ^ (8 * Z.of_nat n).
Proof. unfold le_bytes. by rewrite le_val_bytes, Z.shiftr_0_r. Qed.

Lemma le_val_le_bytes (n : nat) (x : Z) : 0 <= x < 2 ^ (8 * Z.of_nat n) -> le_val (le_bytes n x) = x.
Proof. intros Hx. rewrite le_val_le_bytes_mod. by apply Z.mod_small. Qed.

Lemma le_val_bound (b : list Z) : Forall is_u8 b -> 0 <= le_val b < 2 ^ (8 * Z.of_nat (length b)).
Proof.
  unfold is_u8. induction 1 as [|d b Hd _ IH]; cbn [le_val foldr length]; [lia|].
  change (foldr _ 0 b) with (le_val b).
  replace (8 * Z.of_nat (S (length b))) with (8 + 8 * Z.of_nat (length b)) by lia.
  rewrite Z.pow_add_r by lia. lia.
Qed.

(** Equal numbers of the same length have the same bytes. *)
Lemma le_val_inj (b1 b2 : list Z) :
  Forall is_u8 b1 -> Forall is_u8 b2 -> length b1 = length b2 -> le_val b1 = le_val b2 -> b1 = b2.
Proof.
  unfold is_u8. intros H1. revert b2. induction H1 as [|d b Hd _ IH]; intros [|d2 b2] H2 Hl E; try done.
  apply Forall_cons in H2 as [Hd2 H2]. cbn [le_val foldr] in E.
  change (foldr _ 0 b) with (le_val b) in E. change (foldr _ 0 b2) with (le_val b2) in E.
  assert (d = d2) as <- by lia. f_equal. apply IH; [done|by injection Hl|lia].
Qed.

Lemma le_bytes_le_val (b : list Z) : Forall is_u8 b -> le_bytes (length b) (le_val b) = b.
Proof.
  intros Hb. apply le_val_inj; [apply le_bytes_u8|done|apply length_le_bytes|].
  apply le_val_le_bytes. by apply le_val_bound.
Qed.

(** Sequencing in the option monad, as a rule: the first computation returns. *)
Lemma bind_eq {T U : Type} (x : option T) (f : T -> option U) (a : T) (r : option U) :
  x = Some a -> f a = r -> (x ≫= f) = r.
Proof. by intros -> <-. Qed.

Lemma bind_inv {T U : Type} (x : option T) (f : T -> option U) (r : U) :
  (x ≫= f) = Some r -> exists a, x = Some a /\ f a = Some r.
Proof. destruct x as [a|]; [|done]. intros H. by exists a. Qed.

(** Filters that keep everything or nothing. *)
Lemma filter_all {A : Type} (P : A -> Prop) `{forall x, Decision (P x)} (l : list A) :
  Forall P l -> filter P l = l.
Proof. induction 1; [done|]. rewrite filter_cons_True by done. by f_equal. Qed.

Lemma filter_none {A : Type} (P : A -> Prop) `{forall x, Decision (P x)} (l : list A) :
  Forall (fun x => ~ P x) l -> filter P l = [].
Proof. induction 1; [done|]. by rewrite filter_cons_False. Qed.

(** ** Sums *)

Definition zsum {A : Type} (f : A -> Z) (l : list A) : Z := foldr (fun x acc => f x + acc) 0 l.

Lemma zsum_cons {A : Type} (f : A -> Z) (x : A) (l : list A) : zsum f (x :: l) = f x + zsum f l.
Proof. done. Qed.

Lemma zsum_app {A : Type} (f : A -> Z) (a b : list A) : zsum f (a ++ b) = zsum f a + zsum f b.
Proof. induction a as [|x a IH]; [done|]. cbn [app]. rewrite !zsum_cons, IH. lia. Qed.

Lemma zsum_nonneg {A : Type} (f : A -> Z) (l : list A) : Forall (fun x => 0 <= f x) l -> 0 <= zsum f l.
Proof. induction 1 as [|x l Hx Hl IH]; [done|]. rewrite zsum_cons. lia. Qed.

Lemma zsum_concat {A : Type} (f : A -> Z) (ls : list (list A)) : zsum f (concat ls) = zsum (zsum f) ls.
Proof. induction ls as [|l ls IH]; [done|]. cbn [concat]. by rewrite zsum_app, zsum_cons, IH. Qed.

(** ** Hint databases *)

Create HintDb words discriminated.
#[export] Hint Resolve u32_range u64_range i64_range : words.

Lemma existsb_false_Forall {A : Type} (f : A -> bool) (l : list A) :
  existsb f l = false <-> Forall (fun x => f x = false) l.
Proof.
  induction l as [|x l IH]; cbn; [split; [constructor|done]|]. rewrite orb_false_iff, IH, Forall_cons. done.
Qed.
