(* ===== verification/Serialize.v ===== *)
(** * Serialization: src/src/serialize.h

    A stream is a list of bytes. Writing appends, so a writer is the list it
    writes; reading takes bytes from the front and [None] is a thrown
    [std::ios_base::failure]. A [format] pairs the two directions, as the
    [Serialize]/[Unserialize] overloads and formatters do, and [format_ok] is what
    the consumers rely on: reading back what was written gives the value, and
    nothing else reads as it. *)

From S2P Require Import Prelude.

Record format (A : Type) := mkFormat {
  ser : A -> list Z;
  unser : list Z -> option (A * list Z)
}.
Arguments mkFormat {A}.
Arguments ser {A}.
Arguments unser {A}.

(** ** Operations *)

Definition MAX_SIZE : Z := 0x02000000.

(** [Stream::read]: fails at the end of the data. *)
Definition read (n : nat) (s : list Z) : option (list Z * list Z) :=
  if (n <=? length s)%nat then Some (take n s, drop n s) else None.

(** [ser_writedata8 .. 64] and [ser_readdata8 .. 64]: little-endian integers of [n] bytes. *)
Definition ser_writedata (n : nat) (x : Z) : list Z := le_bytes n x.
Definition ser_readdata (n : nat) (s : list Z) : option (Z * list Z) :=
  '(b, s) ← read n s; Some (le_val b, s).

(** [ser_writedata32be], [ser_readdata32be] *)
Definition ser_writedata32be (x : Z) : list Z := reverse (le_bytes 4 x).
Definition ser_readdata32be (s : list Z) : option (Z * list Z) :=
  '(b, s) ← read 4 s; Some (le_val (reverse b), s).

Definition fmt_uint (n : nat) : format Z := mkFormat (ser_writedata n) (ser_readdata n).
Definition fmt_u8 : format Z := fmt_uint 1.
Definition fmt_u16 : format Z := fmt_uint 2.
Definition fmt_u32 : format Z := fmt_uint 4.
Definition fmt_u64 : format Z := fmt_uint 8.
Definition fmt_u32be : format Z := mkFormat ser_writedata32be ser_readdata32be.

(** Signed integers convert to the unsigned type of the same width and back. *)
Definition fmt_i32 : format Z :=
  mkFormat (fun x => ser_writedata 4 (u32 x)) (fun s => '(x, s) ← ser_readdata 4 s; Some (i32 x, s)).
Definition fmt_i64 : format Z :=
  mkFormat (fun x => ser_writedata 8 (u64 x)) (fun s => '(x, s) ← ser_readdata 8 s; Some (i64 x, s)).

(** [base_blob<256>], as the number its bytes are in little-endian order. *)
Definition fmt_uint256 : format Z := fmt_uint 32.

(** [Serialize(Stream&, bool)]: any non-zero byte reads as [true]. *)
Definition fmt_bool : format bool :=
  mkFormat (fun b : bool => ser_writedata 1 (if b then 1 else 0))
    (fun s => '(x, s) ← ser_readdata 1 s; Some (negb (x =? 0), s)).

(** [GetSizeOfCompactSize] *)
Definition GetSizeOfCompactSize (nSize : Z) : Z :=
  if nSize <? 253 then 1 else if nSize <=? 0xffff then 3 else if nSize <=? 0xffffffff then 5 else 9.

(** [WriteCompactSize] *)
Definition WriteCompactSize (nSize : Z) : list Z :=
  if nSize <? 253 then ser_writedata 1 nSize
  else if nSize <=? 0xffff then ser_writedata 1 253 ++ ser_writedata 2 nSize
  else if nSize <=? 0xffffffff then ser_writedata 1 254 ++ ser_writedata 4 nSize
  else ser_writedata 1 255 ++ ser_writedata 8 nSize.

(** [ReadCompactSize] *)
Definition ReadCompactSize (range_check : bool) (s : list Z) : option (Z * list Z) :=
  '(chSize, s) ← ser_readdata 1 s;
  '(nSizeRet, s) ←
    (if chSize <? 253 then Some (chSize, s)
     else if chSize =? 253 then
       '(n, s) ← ser_readdata 2 s; if n <? 253 then None else Some (n, s)
     else if chSize =? 254 then
       '(n, s) ← ser_readdata 4 s; if n <? 0x10000 then None else Some (n, s)
     else
       '(n, s) ← ser_readdata 8 s; if n <? 0x100000000 then None else Some (n, s));
  if range_check && (nSizeRet >? MAX_SIZE) then None else Some (nSizeRet, s).

(** Reading [nSize] bytes of a byte vector in blocks of at most 5,000,000; [fuel] blocks. *)
Fixpoint read_blocks (fuel : nat) (nSize i : Z) (v s : list Z) : option (list Z * list Z) :=
  match fuel with
  | O => None
  | S fuel' =>
      if i <? nSize then
        let blk := Z.min (nSize - i) (1 + 4999999) in
        '(b, s) ← read (Z.to_nat blk) s;
        read_blocks fuel' nSize (i + blk) (v ++ b) s
      else Some (v, s)
  end.

(** Byte vectors: [std::vector<unsigned char>], [prevector] of bytes. *)
Definition fmt_bytes : format (list Z) := mkFormat
  (fun v => WriteCompactSize (Z.of_nat (length v)) ++ v)
  (fun s => '(nSize, s) ← ReadCompactSize true s;
            read_blocks (S (Z.to_nat (nSize / 5000000 + 1))) nSize 0 [] s).

(** [VectorFormatter]: the allocation in batches is not observable. *)
Fixpoint read_many {A : Type} (f : format A) (n : nat) (s : list Z) : option (list A * list Z) :=
  match n with
  | O => Some ([], s)
  | S n' => '(a, s) ← unser f s; '(l, s) ← read_many f n' s; Some (a :: l, s)
  end.

Definition fmt_vector {A : Type} (f : format A) : format (list A) := mkFormat
  (fun v => WriteCompactSize (Z.of_nat (length v)) ++ concat (map (ser f) v))
  (fun s => '(size, s) ← ReadCompactSize true s; read_many f (Z.to_nat size) s).

(** Members one after the other, as [READWRITE] lists them. *)
Definition fmt_pair {A B : Type} (f : format A) (g : format B) : format (A * B) := mkFormat
  (fun x => ser f x.1 ++ ser g x.2)
  (fun s => '(a, s) ← unser f s; '(b, s) ← unser g s; Some ((a, b), s)).

(** A class whose members are those of a tuple. *)
Definition fmt_iso {A B : Type} (to : A -> B) (from : B -> A) (f : format A) : format B := mkFormat
  (fun x => ser f (from x)) (fun s => '(a, s) ← unser f s; Some (to a, s)).

(** [GetSizeOfVarInt]; [fuel] bounds the digits. *)
Fixpoint GetSizeOfVarInt_loop (fuel : nat) (n nRet : Z) : option Z :=
  match fuel with
  | O => None
  | S fuel' => if n <=? 0x7F then Some (nRet + 1) else GetSizeOfVarInt_loop fuel' (Z.shiftr n 7 - 1) (nRet + 1)
  end.
Definition GetSizeOfVarInt (n : Z) : option Z := GetSizeOfVarInt_loop 10 n 0.

(** The first loop of [WriteVarInt] fills [tmp]; the second writes it backwards, so
    [acc] holds the bytes in writing order. *)
Fixpoint WriteVarInt_loop (fuel : nat) (n : Z) (acc : list Z) : option (list Z) :=
  match fuel with
  | O => None
  | S fuel' =>
      let acc := Z.lor (Z.land n 0x7F) (match acc with [] => 0x00 | _ => 0x80 end) :: acc in
      if n <=? 0x7F then Some acc else WriteVarInt_loop fuel' (Z.shiftr n 7 - 1) acc
  end.

(** [WriteVarInt] for an unsigned type of at most 64 bits: ten digits are enough. *)
Definition WriteVarInt (n : Z) : option (list Z) := WriteVarInt_loop 10 n [].

(** [ReadVarInt] for an unsigned type with maximum [max]; one byte per round. *)
Fixpoint ReadVarInt_loop (max n : Z) (s : list Z) : option (Z * list Z) :=
  match s with
  | [] => None
  | chData :: s' =>
      if n >? Z.shiftr max 7 then None
      else
        let n := Z.lor (Z.shiftl n 7) (Z.land chData 0x7F) in
        if negb (Z.land chData 0x80 =? 0)
        then if n =? max then None else ReadVarInt_loop max (n + 1) s'
        else Some (n, s')
  end.
Definition ReadVarInt (max : Z) (s : list Z) : option (Z * list Z) := ReadVarInt_loop max 0 s.

(** ** What a format promises *)

Record format_ok {A : Type} (f : format A) (wf : A -> Prop) : Prop := mkFormatOk {
  fo_bytes : forall a, wf a -> Forall is_u8 (ser f a);
  fo_read : forall a rest, wf a -> unser f (ser f a ++ rest) = Some (a, rest);
  fo_only : forall s a rest, Forall is_u8 s -> unser f s = Some (a, rest) -> wf a /\ s = ser f a ++ rest
}.

Lemma read_spec (n : nat) (s b rest : list Z) : read n s = Some (b, rest) <-> s = b ++ rest /\ length b = n.
Proof.
  unfold read. destruct (Nat.leb_spec n (length s)) as [H|H]; split.
  - intros [= <- <-]. by rewrite take_drop, length_take, Nat.min_l.
  - intros [-> <-]. by rewrite take_app_length, drop_app_length.
  - done.
  - intros [-> <-]. rewrite length_app in H. lia.
Qed.

Lemma read_app (b rest : list Z) : read (length b) (b ++ rest) = Some (b, rest).
Proof. by apply read_spec. Qed.

Lemma ser_readdata_write (n : nat) (x : Z) (rest : list Z) :
  0 <= x < 2 ^ (8 * Z.of_nat n) -> ser_readdata n (ser_writedata n x ++ rest) = Some (x, rest).
Proof.
  intros Hx. unfold ser_readdata, ser_writedata. rewrite <- (length_le_bytes n x) at 1. rewrite read_app.
  cbn [mbind option_bind]. by rewrite le_val_le_bytes.
Qed.

Lemma ser_readdata_only (n : nat) (s : list Z) (x : Z) (rest : list Z) :
  Forall is_u8 s -> ser_readdata n s = Some (x, rest) ->
  0 <= x < 2 ^ (8 * Z.of_nat n) /\ s = ser_writedata n x ++ rest /\ Forall is_u8 rest.
Proof.
  intros Hs E. unfold ser_readdata in E. apply bind_inv in E as ([b s'] & Hb & E). injection E as <- <-.
  apply read_spec in Hb as [-> <-]. apply Forall_app in Hs as [Hb Hr].
  split; [by apply le_val_bound|]. unfold ser_writedata. by rewrite le_bytes_le_val.
Qed.

Lemma fmt_uint_ok (n : nat) : format_ok (fmt_uint n) (fun x => 0 <= x < 2 ^ (8 * Z.of_nat n)).
Proof.
  constructor; cbn [ser unser fmt_i32 fmt_i64 fmt_uint].
  - intros. apply le_bytes_u8.
  - intros. by apply ser_readdata_write.
  - intros s a rest Hs E. destruct (ser_readdata_only n s a rest Hs E) as (H1 & H2 & _). done.
Qed.

Lemma fmt_u32be_ok : format_ok fmt_u32be is_u32.
Proof.
  constructor; cbn [ser unser fmt_u32be]; unfold ser_writedata32be, ser_readdata32be.
  - intros. apply Forall_reverse. apply le_bytes_u8.
  - intros a rest Ha.
    assert (Hl : length (reverse (le_bytes 4 a)) = 4%nat) by by rewrite length_reverse, length_le_bytes.
    rewrite <- Hl at 1. rewrite read_app. cbn [mbind option_bind]. rewrite reverse_involutive.
    by rewrite le_val_le_bytes.
  - intros s a rest Hs E. apply bind_inv in E as ([b s'] & Hb & E). injection E as <- <-.
    apply read_spec in Hb as [-> Hl]. apply Forall_app in Hs as [Hb Hr]. apply Forall_reverse in Hb.
    assert (Hl' : length (reverse b) = 4%nat) by by rewrite length_reverse. split.
    + unfold is_u32. pose proof (le_val_bound _ Hb) as H. by rewrite Hl' in H.
    + rewrite <- Hl' at 1. rewrite le_bytes_le_val by done. by rewrite reverse_involutive.
Qed.

Lemma i32_u32 (x : Z) : is_i32 x -> i32 (u32 x) = x.
Proof.
  unfold is_i32, i32, u32. intros H. rewrite Zplus_mod_idemp_l. rewrite Z.mod_small by lia. lia.
Qed.

Lemma u32_i32 (x : Z) : is_u32 x -> u32 (i32 x) = x /\ is_i32 (i32 x).
Proof.
  unfold is_u32, is_i32, i32, u32. intros H. split.
  - rewrite Zminus_mod_idemp_l. rewrite Z.mod_small by lia. lia.
  - pose proof (Z.mod_pos_bound (x + 2 ^ 31) (2 ^ 32) eq_refl). lia.
Qed.

Lemma i64_u64 (x : Z) : is_i64 x -> i64 (u64 x) = x.
Proof.
  unfold is_i64, i64, u64. intros H. rewrite Zplus_mod_idemp_l. rewrite Z.mod_small by lia. lia.
Qed.

Lemma u64_i64 (x : Z) : is_u64 x -> u64 (i64 x) = x /\ is_i64 (i64 x).
Proof.
  unfold is_u64, is_i64, i64, u64. intros H. split.
  - rewrite Zminus_mod_idemp_l. rewrite Z.mod_small by lia. lia.
  - pose proof (Z.mod_pos_bound (x + 2 ^ 63) (2 ^ 64) eq_refl). lia.
Qed.

Lemma fmt_i32_ok : format_ok fmt_i32 is_i32.
Proof.
  constructor; cbn [ser unser fmt_i32 fmt_i64 fmt_uint].
  - intros. apply le_bytes_u8.
  - intros a rest Ha. rewrite (ser_readdata_write 4) by apply u32_range. cbn [mbind option_bind]. by rewrite i32_u32.
  - intros s a rest Hs E. apply bind_inv in E as ([x s'] & Hx & E). injection E as <- <-.
    destruct (ser_readdata_only 4 s x s' Hs Hx) as (H1 & -> & _). destruct (u32_i32 x H1) as [-> H]. done.
Qed.

Lemma fmt_i64_ok : format_ok fmt_i64 is_i64.
Proof.
  constructor; cbn [ser unser fmt_i32 fmt_i64 fmt_uint].
  - intros. apply le_bytes_u8.
  - intros a rest Ha. rewrite (ser_readdata_write 8) by apply u64_range. cbn [mbind option_bind]. by rewrite i64_u64.
  - intros s a rest Hs E. apply bind_inv in E as ([x s'] & Hx & E). injection E as <- <-.
    destruct (ser_readdata_only 8 s x s' Hs Hx) as (H1 & -> & _). destruct (u64_i64 x H1) as [-> H]. done.
Qed.

(** ** Compact sizes *)

Lemma WriteCompactSize_length (n : Z) : Z.of_nat (length (WriteCompactSize n)) = GetSizeOfCompactSize n.
Proof.
  unfold WriteCompactSize, GetSizeOfCompactSize, ser_writedata.
  destruct (n <? 253); [|destruct (n <=? 0xffff); [|destruct (n <=? 0xffffffff)]];
    rewrite ?length_app, !length_le_bytes; done.
Qed.

Lemma WriteCompactSize_bytes (n : Z) : Forall is_u8 (WriteCompactSize n).
Proof.
  unfold WriteCompactSize, ser_writedata.
  destruct (n <? 253); [|destruct (n <=? 0xffff); [|destruct (n <=? 0xffffffff)]];
    rewrite ?Forall_app; auto using le_bytes_u8.
Qed.

Lemma ReadCompactSize_write (range_check : bool) (n : Z) (rest : list Z) :
  is_u64 n -> (range_check = true -> n <= MAX_SIZE) ->
  ReadCompactSize range_check (WriteCompactSize n ++ rest) = Some (n, rest).
Proof.
  unfold is_u64. intros Hn Hr. unfold ReadCompactSize, WriteCompactSize.
  assert (Hrange : range_check && (n >? MAX_SIZE) = false).
  { destruct range_check; [|done]. rewrite Z.gtb_ltb, andb_true_l. apply Z.ltb_ge. auto. }
  destruct (Z.ltb_spec n 253) as [H1|H1]; [|destruct (Z.leb_spec n 0xffff) as [H2|H2];
    [|destruct (Z.leb_spec n 0xffffffff) as [H3|H3]]]; rewrite <- ?app_assoc;
    rewrite (ser_readdata_write 1) by lia; cbn [mbind option_bind].
  - rewrite (proj2 (Z.ltb_lt n 253)) by lia. cbn [mbind option_bind]. by rewrite Hrange.
  - cbn -[ser_readdata ser_writedata Z.gtb Z.ltb]. change (253 <? 253) with false. cbn -[ser_readdata ser_writedata Z.gtb Z.ltb].
    rewrite (ser_readdata_write 2) by lia. cbn [mbind option_bind].
    rewrite (proj2 (Z.ltb_ge n 253)) by lia. cbn [mbind option_bind]. by rewrite Hrange.
  - change (254 <? 253) with false. change (254 =? 253) with false. change (254 =? 254) with true. cbv iota.
    rewrite (ser_readdata_write 4) by lia. cbn [mbind option_bind].
    rewrite (proj2 (Z.ltb_ge n 0x10000)) by lia. cbn [mbind option_bind]. by rewrite Hrange.
  - change (255 <? 253) with false. change (255 =? 253) with false. change (255 =? 254) with false. cbv iota.
    rewrite (ser_readdata_write 8) by lia. cbn [mbind option_bind].
    rewrite (proj2 (Z.ltb_ge n 0x100000000)) by lia. cbn [mbind option_bind]. by rewrite Hrange.
Qed.

Lemma ReadCompactSize_only (range_check : bool) (s : list Z) (n : Z) (rest : list Z) :
  Forall is_u8 s -> ReadCompactSize range_check s = Some (n, rest) ->
  is_u64 n /\ (range_check = true -> n <= MAX_SIZE) /\ s = WriteCompactSize n ++ rest /\ Forall is_u8 rest.
Proof.
  unfold is_u64. intros Hs E. unfold ReadCompactSize in E.
  apply bind_inv in E as ([ch s1] & E1 & E). apply bind_inv in E as ([m s2] & E2 & E).
  destruct (range_check && (m >? MAX_SIZE)) eqn:Hr; [done|]. injection E as -> ->.
  assert (Hrc : range_check = true -> n <= MAX_SIZE).
  { intros ->. rewrite Z.gtb_ltb, andb_true_l in Hr. by apply Z.ltb_ge in Hr. }
  destruct (ser_readdata_only 1 s ch s1 Hs E1) as (Hch & -> & Hs1). change (2 ^ (8 * Z.of_nat 1)) with 256 in Hch.
  enough (0 <= n < 2 ^ 64 /\ ser_writedata 1 ch ++ s1 = WriteCompactSize n ++ rest /\ Forall is_u8 rest) by tauto.
  unfold WriteCompactSize. destruct (Z.ltb_spec ch 253) as [H|H].
  { injection E2 as <- <-. rewrite (proj2 (Z.ltb_lt ch 253)) by lia. split; [lia|done]. }
  destruct (Z.eqb_spec ch 253) as [->|H253]; [|destruct (Z.eqb_spec ch 254) as [->|H254]];
    apply bind_inv in E2 as ([k s3] & E3 & E2).
  - destruct (Z.ltb_spec k 253); [done|]. injection E2 as <- <-.
    destruct (ser_readdata_only 2 s1 k s3 Hs1 E3) as (Hk & -> & Hs3). change (2 ^ (8 * Z.of_nat 2)) with 65536 in Hk.
    rewrite (proj2 (Z.ltb_ge k 253)), (proj2 (Z.leb_le k 0xffff)) by lia. rewrite <- app_assoc. split; [lia|done].
  - destruct (Z.ltb_spec k 0x10000); [done|]. injection E2 as <- <-.
    destruct (ser_readdata_only 4 s1 k s3 Hs1 E3) as (Hk & -> & Hs3). change (2 ^ (8 * Z.of_nat 4)) with 4294967296 in Hk.
    rewrite (proj2 (Z.ltb_ge k 253)), (proj2 (Z.leb_gt k 0xffff)), (proj2 (Z.leb_le k 0xffffffff)) by lia.
    rewrite <- app_assoc. split; [lia|done].
  - destruct (Z.ltb_spec k 0x100000000); [done|]. injection E2 as <- <-.
    destruct (ser_readdata_only 8 s1 k s3 Hs1 E3) as (Hk & -> & Hs3). change (8 * Z.of_nat 8) with 64 in Hk.
    rewrite (proj2 (Z.ltb_ge k 253)), (proj2 (Z.leb_gt k 0xffff)), (proj2 (Z.leb_gt k 0xffffffff)) by lia.
    assert (ch = 255) as -> by lia. rewrite <- app_assoc. done.
Qed.

(** ** Vectors *)

(** Reading in blocks is reading at once. *)
Lemma read_blocks_spec (fuel : nat) (nSize i : Z) (v s : list Z) :
  i <= nSize -> nSize - i <= 5000000 * (Z.of_nat fuel - 1) -> (0 < fuel)%nat ->
  read_blocks fuel nSize i v s = '(b, s) ← read (Z.to_nat (nSize - i)) s; Some (v ++ b, s).
Proof.
  revert i v s; induction fuel as [|fuel IH]; intros i v s Hi Hf H0; [lia|]. cbn [read_blocks].
  destruct (Z.ltb_spec i nSize) as [Hlt|Hge].
  - set (blk := Z.min (nSize - i) (1 + 4999999)). unfold read at 1.
    destruct (Nat.leb_spec (Z.to_nat blk) (length s)) as [Hl|Hl].
    + cbn [mbind option_bind]. rewrite IH by lia. unfold read. rewrite length_drop.
      destruct (Nat.leb_spec (Z.to_nat (nSize - (i + blk))) (length s - Z.to_nat blk)) as [H1|H1].
      * rewrite (proj2 (Nat.leb_le _ _)) by lia. cbn [mbind option_bind]. rewrite drop_drop, <- app_assoc.
        replace (Z.to_nat blk + Z.to_nat (nSize - (i + blk)))%nat with (Z.to_nat (nSize - i)) by lia.
        do 3 f_equal. rewrite take_take_drop. f_equal. lia.
      * by rewrite (proj2 (Nat.leb_gt _ _)) by lia.
    + unfold read. by rewrite (proj2 (Nat.leb_gt _ _)) by lia.
  - assert (nSize - i = 0) as -> by lia. change (Z.to_nat 0) with O.
    change (read 0 s) with (Some (take 0 s, drop 0 s)). rewrite take_0, drop_0. cbn [mbind option_bind]. by rewrite app_nil_r.
Qed.

Definition bytes_ok (v : list Z) : Prop := Z.of_nat (length v) <= MAX_SIZE /\ Forall is_u8 v.

Lemma fmt_bytes_ok : format_ok fmt_bytes bytes_ok.
Proof.
  assert (Hblk : forall n s, 0 <= n -> read_blocks (S (Z.to_nat (n / 5000000 + 1))) n 0 [] s = read (Z.to_nat n) s).
  { intros n s Hn. pose proof (Z.div_pos n 5000000 Hn ltac:(lia)). rewrite read_blocks_spec; [|lia| |lia].
    - rewrite Z.sub_0_r. destruct (read (Z.to_nat n) s) as [[b s']|]; done.
    - pose proof (Z.div_mod n 5000000 ltac:(lia)). pose proof (Z.mod_pos_bound n 5000000 ltac:(lia)). lia. }
  constructor; cbn [ser unser fmt_bytes].
  - intros v [_ Hv]. apply Forall_app. split; [apply WriteCompactSize_bytes|done].
  - intros v rest [Hl Hv]. rewrite <- app_assoc, ReadCompactSize_write by (unfold is_u64, MAX_SIZE in *; lia).
    cbn [mbind option_bind]. rewrite Hblk, Nat2Z.id by lia. apply read_app.
  - intros s v rest Hs E. apply bind_inv in E as ([n s1] & E1 & E).
    destruct (ReadCompactSize_only true s n s1 Hs E1) as (Hn & Hmax & -> & Hs1). unfold is_u64 in Hn.
    rewrite Hblk in E by lia. apply read_spec in E as [-> Hl]. apply Forall_app in Hs1 as [Hv _].
    assert (Z.of_nat (length v) = n) as <- by lia. rewrite <- app_assoc. split; [|done]. split; [auto|done].
Qed.

Definition vector_ok {A : Type} (wf : A -> Prop) (v : list A) : Prop :=
  Z.of_nat (length v) <= MAX_SIZE /\ Forall wf v.

Section Combinators.

Context {A B : Type} (f : format A) (g : format B) (wfA : A -> Prop) (wfB : B -> Prop).
Context (Hf : format_ok f wfA) (Hg : format_ok g wfB).

Lemma read_many_write (v : list A) (rest : list Z) : Forall wfA v ->
  read_many f (length v) (concat (map (ser f) v) ++ rest) = Some (v, rest).
Proof.
  induction 1 as [|a v Ha _ IH]; [done|]. cbn [length map concat read_many].
  rewrite <- app_assoc, (fo_read _ _ Hf) by done. cbn [mbind option_bind]. by rewrite IH.
Qed.

Lemma read_many_only (n : nat) (s : list Z) (v : list A) (rest : list Z) :
  Forall is_u8 s -> read_many f n s = Some (v, rest) ->
  Forall wfA v /\ length v = n /\ s = concat (map (ser f) v) ++ rest.
Proof.
  revert s v; induction n as [|n IH]; intros s v Hs E; cbn [read_many] in E; [by injection E as <- <-|].
  apply bind_inv in E as ([a s1] & E1 & E). apply bind_inv in E as ([l s2] & E2 & E). injection E as <- <-.
  destruct (fo_only _ _ Hf s a s1 Hs E1) as [Ha ->]. apply Forall_app in Hs as [_ Hs1].
  destruct (IH s1 l Hs1 E2) as (Hl & <- & ->). cbn. rewrite <- app_assoc. auto.
Qed.

Lemma fmt_vector_ok : format_ok (fmt_vector f) (vector_ok wfA).
Proof.
  constructor; cbn [ser unser fmt_vector].
  - intros v [_ Hv]. apply Forall_app. split; [apply WriteCompactSize_bytes|].
    induction Hv as [|a v Ha _ IH]; cbn; [constructor|]. apply Forall_app. split; [by apply (fo_bytes _ _ Hf)|done].
  - intros v rest [Hl Hv]. rewrite <- app_assoc, ReadCompactSize_write by (unfold is_u64, MAX_SIZE in *; lia).
    cbn [mbind option_bind]. rewrite Nat2Z.id. by apply read_many_write.
  - intros s v rest Hs E. apply bind_inv in E as ([n s1] & E1 & E).
    destruct (ReadCompactSize_only true s n s1 Hs E1) as (Hn & Hmax & -> & Hs1). unfold is_u64 in Hn.
    destruct (read_many_only _ s1 v rest Hs1 E) as (Hv & Hl & ->).
    assert (Z.of_nat (length v) = n) as <- by lia. rewrite <- app_assoc. split; [|done]. split; [auto|done].
Qed.

Lemma fmt_pair_ok : format_ok (fmt_pair f g) (fun x => wfA x.1 /\ wfB x.2).
Proof.
  constructor; cbn [ser unser fmt_pair].
  - intros [a b] [Ha Hb]. apply Forall_app. split; [by apply (fo_bytes _ _ Hf)|by apply (fo_bytes _ _ Hg)].
  - intros [a b] rest [Ha Hb]. cbn [fst snd] in *. rewrite <- app_assoc, (fo_read _ _ Hf) by done.
    cbn [mbind option_bind]. by rewrite (fo_read _ _ Hg).
  - intros s [a b] rest Hs E. apply bind_inv in E as ([a' s1] & E1 & E). apply bind_inv in E as ([b' s2] & E2 & E).
    injection E as <- <- <-. destruct (fo_only _ _ Hf s a' s1 Hs E1) as [Ha ->]. apply Forall_app in Hs as [_ Hs1].
    destruct (fo_only _ _ Hg s1 b' s2 Hs1 E2) as [Hb ->]. cbn. by rewrite <- app_assoc.
Qed.

Lemma fmt_iso_ok (to : A -> B) (from : B -> A) (wf : B -> Prop) :
  (forall a, wfA a -> from (to a) = a /\ wf (to a)) -> (forall b, wf b -> wfA (from b) /\ to (from b) = b) ->
  format_ok (fmt_iso to from f) wf.
Proof.
  intros H1 H2. constructor; cbn [ser unser fmt_iso].
  - intros b Hb. apply (fo_bytes _ _ Hf). by apply H2.
  - intros b rest Hb. destruct (H2 b Hb) as [Ha Hto]. rewrite (fo_read _ _ Hf) by done. cbn [mbind option_bind]. by rewrite Hto.
  - intros s b rest Hs E. apply bind_inv in E as ([a s1] & E1 & E). injection E as <- <-.
    destruct (fo_only _ _ Hf s a s1 Hs E1) as [Ha ->]. destruct (H1 a Ha) as [-> Hw]. done.
Qed.

End Combinators.

(** ** Variable-length integers *)

Lemma land_7F (n : Z) : Z.land n 0x7F = n mod 128.
Proof. change 0x7F with (Z.ones 7). by rewrite Z.land_ones by lia. Qed.

Lemma lor_flag (d : Z) : 0 <= d < 128 -> Z.lor d 0x80 = d + 128.
Proof.
  intros Hd. apply lor_add_disjoint. change 0x80 with (1 * 2 ^ 7). apply land_low_high; lia.
Qed.

Lemma land_flag (d : Z) : 0 <= d < 256 -> (Z.land d 0x80 =? 0) = (d <? 128).
Proof.
  intros Hd. destruct (Z.ltb_spec d 128) as [H|H].
  - apply Z.eqb_eq. change 0x80 with (1 * 2 ^ 7). apply land_low_high; lia.
  - apply Z.eqb_neq. replace d with ((d - 128) + 1 * 2 ^ 7) by lia.
    rewrite <- lor_add_disjoint by (apply land_low_high; lia). change 0x80 with (1 * 2 ^ 7).
    rewrite Z.land_lor_distr_l, (land_low_high (d - 128)) by lia. intros E. vm_compute in E. discriminate.
Qed.

(** Appending a digit. *)
Lemma varint_append (k d : Z) : 0 <= k -> 0 <= d < 128 -> Z.lor (Z.shiftl k 7) d = k * 128 + d.
Proof.
  intros Hk Hd. rewrite Z.shiftl_mul_pow2 by lia. rewrite Z.lor_comm, lor_add_disjoint by (apply land_low_high; lia).
  change (2 ^ 7) with 128. lia.
Qed.

(** One round of the reader on a digit of [n]. *)
Lemma ReadVarInt_digit (max n k : Z) (more : bool) (s : list Z) :
  0 <= n <= max -> (more = true -> n < max) -> k = n / 128 ->
  ReadVarInt_loop max k (Z.lor (Z.land n 0x7F) (if more then 0x80 else 0x00) :: s)
  = if more then ReadVarInt_loop max (n + 1) s else Some (n, s).
Proof.
  intros Hn Hm ->. pose proof (Z.mod_pos_bound n 128 ltac:(lia)) as Hd. pose proof (Z.div_mod n 128 ltac:(lia)) as Hdm.
  assert (0 <= n / 128) by (apply Z.div_pos; lia). cbn [ReadVarInt_loop]. rewrite land_7F.
  rewrite Z.gtb_ltb, Z.shiftr_div_pow2 by lia. change (2 ^ 7) with 128.
  rewrite (proj2 (Z.ltb_ge _ _)) by (apply Z.div_le_mono; lia).
  destruct more.
  - rewrite lor_flag, land_7F by lia. rewrite land_flag by lia. rewrite (proj2 (Z.ltb_ge _ _)) by lia. cbn [negb].
    assert ((n mod 128 + 128) mod 128 = n mod 128) as -> by (apply (mod_unique_pos _ _ 1); lia).
    rewrite varint_append by lia. replace (n / 128 * 128 + n mod 128) with n by lia.
    rewrite (proj2 (Z.eqb_neq n max)) by (specialize (Hm eq_refl); lia). done.
  - rewrite Z.lor_0_r, land_7F, land_flag by lia. rewrite (proj2 (Z.ltb_lt _ _)) by lia. cbn [negb].
    rewrite Z.mod_mod, varint_append by lia. replace (n / 128 * 128 + n mod 128) with n by lia. done.
Qed.

Lemma WriteVarInt_loop_read (max : Z) (fuel : nat) (n : Z) (acc l rest : list Z) :
  0 <= n <= max -> (acc <> [] -> n < max) ->
  WriteVarInt_loop fuel n acc = Some l ->
  ReadVarInt_loop max 0 (l ++ rest)
  = match acc with [] => Some (n, rest) | _ => ReadVarInt_loop max (n + 1) (acc ++ rest) end.
Proof.
  revert n acc l; induction fuel as [|fuel IH]; intros n acc l Hn Hacc E; [done|]. cbn [WriteVarInt_loop] in E.
  set (more := match acc with [] => false | _ => true end).
  assert (Hd : match acc with [] => 0x00 | _ => 0x80 end = if more then 0x80 else 0x00) by by destruct acc.
  assert (Hm : more = true -> n < max) by (destruct acc; [done|intros _; by apply Hacc]).
  assert (Hres : (if more then ReadVarInt_loop max (n + 1) (acc ++ rest) else Some (n, acc ++ rest))
    = match acc with [] => Some (n, rest) | _ => ReadVarInt_loop max (n + 1) (acc ++ rest) end) by by destruct acc.
  rewrite Hd in E. destruct (Z.leb_spec n 0x7F) as [Hs|Hs].
  - injection E as <-. cbn [app]. rewrite ReadVarInt_digit; [done|lia|done|].
    symmetry. apply Z.div_small. lia.
  - rewrite Z.shiftr_div_pow2 in E by lia. change (2 ^ 7) with 128 in E.
    assert (1 <= n / 128) by (apply Z.div_le_lower_bound; lia).
    assert (n / 128 <= n) by (apply Z.div_le_upper_bound; lia).
    rewrite (IH (n / 128 - 1) (Z.lor (Z.land n 0x7F) (if more then 0x80 else 0x00) :: acc) l)
      by (done || lia). cbn [app]. rewrite Z.sub_add.
    rewrite ReadVarInt_digit by (done || lia). done.
Qed.

Lemma WriteVarInt_loop_total (fuel : nat) (n : Z) (acc : list Z) :
  (0 < fuel)%nat -> 0 <= n < 2 ^ (7 * Z.of_nat fuel) -> is_Some (WriteVarInt_loop fuel n acc).
Proof.
  revert n acc; induction fuel as [|fuel IH]; intros n acc Hf Hn; [lia|]. cbn [WriteVarInt_loop].
  destruct (Z.leb_spec n 0x7F) as [Hs|Hs]; [eauto|].
  replace (7 * Z.of_nat (S fuel)) with (7 * Z.of_nat fuel + 7) in Hn by lia. rewrite Z.pow_add_r in Hn by lia.
  destruct (decide (fuel = 0)%nat) as [->|]; [cbn in Hn; lia|].
  rewrite Z.shiftr_div_pow2 by lia. apply IH; [lia|].
  pose proof (Z.div_mod n (2 ^ 7) ltac:(lia)). pose proof (Z.mod_pos_bound n (2 ^ 7) ltac:(lia)). lia.
Qed.

(** The digits already read, in terms of the writer. *)
Definition varint_prefix (k : Z) (pre : list Z) : Prop :=
  (k = 0 /\ pre = []) \/
  (1 <= k /\ forall fuel acc, acc <> [] -> (0 < fuel)%nat -> k - 1 < 2 ^ (7 * Z.of_nat fuel) ->
     WriteVarInt_loop fuel (k - 1) acc = Some (pre ++ acc)).

Lemma varint_prefix_digit (k d : Z) (flag : Z) (pre acc : list Z) (fuel : nat) :
  varint_prefix k pre -> 0 <= k -> 0 <= d < 128 -> flag = match acc with [] => 0 | _ => 128 end ->
  (0 < fuel)%nat -> k * 128 + d < 2 ^ (7 * Z.of_nat fuel) ->
  WriteVarInt_loop fuel (k * 128 + d) acc = Some (pre ++ (d + flag) :: acc).
Proof.
  intros Hp Hk Hd Hflag Hf Hn. destruct fuel as [|fuel]; [lia|]. cbn [WriteVarInt_loop]. rewrite land_7F.
  assert ((k * 128 + d) mod 128 = d) as -> by (apply (mod_unique_pos _ _ k); lia).
  assert (Z.lor d (match acc with [] => 0x00 | _ => 0x80 end) = d + flag) as ->.
  { destruct acc; rewrite Hflag; [by rewrite Z.lor_0_r, Z.add_0_r|by apply lor_flag]. }
  destruct Hp as [[-> ->]|[Hk1 Hp]].
  - rewrite (proj2 (Z.leb_le _ _)) by lia. done.
  - rewrite (proj2 (Z.leb_gt _ _)) by lia. rewrite Z.shiftr_div_pow2 by lia.
    assert ((k * 128 + d) / 2 ^ 7 = k) as -> by (symmetry; apply (Z.div_unique_pos _ _ _ d); lia).
    replace (7 * Z.of_nat (S fuel)) with (7 * Z.of_nat fuel + 7) in Hn by lia. rewrite Z.pow_add_r in Hn by lia.
    apply Hp; [done| |lia]. destruct fuel; [cbn in Hn; lia|lia].
Qed.

Lemma ReadVarInt_loop_only (max : Z) (s : list Z) (k n : Z) (pre rest : list Z) :
  0 <= k -> max mod 128 = 127 -> 0 <= max < 2 ^ 70 -> Forall is_u8 s -> varint_prefix k pre ->
  ReadVarInt_loop max k s = Some (n, rest) ->
  exists ds, s = ds ++ rest /\ WriteVarInt n = Some (pre ++ ds) /\ 0 <= n <= max.
Proof.
  intros Hk Hmod Hmax Hs. revert k pre Hk. induction Hs as [|ch s Hch Hs IH]; intros k pre Hk Hp E; [done|].
  cbn [ReadVarInt_loop] in E. unfold is_u8 in Hch. rewrite Z.gtb_ltb, Z.shiftr_div_pow2 in E by lia.
  change (2 ^ 7) with 128 in E. destruct (Z.ltb_spec (max / 128) k) as [|Hle]; [done|].
  rewrite land_7F, land_flag in E by lia. pose proof (Z.mod_pos_bound ch 128 ltac:(lia)) as Hd.
  rewrite varint_append in E by lia. pose proof (Z.div_mod max 128 ltac:(lia)) as Hm.
  pose proof (Z.div_mod ch 128 ltac:(lia)) as Hc. set (d := ch mod 128) in *.
  assert (Hx : 0 <= k * 128 + d <= max) by lia.
  assert (H70 : forall y, y <= max -> y < 2 ^ (7 * Z.of_nat 10)) by (intros; change (7 * Z.of_nat 10) with 70; lia).
  destruct (Z.ltb_spec ch 128) as [Hsm|Hbig]; cbn [negb] in E.
  - injection E as <- <-. exists [ch]. split; [done|]. split; [|done]. unfold WriteVarInt.
    assert (ch / 128 = 0) by (apply Z.div_small; lia).
    rewrite (varint_prefix_digit k d 0 pre [] 10) by (done || lia || (apply H70; lia)). do 3 f_equal. lia.
  - destruct (Z.eqb_spec (k * 128 + d) max) as [|Hne]; [done|].
    assert (ch / 128 = 1) by (symmetry; apply (Z.div_unique_pos _ _ _ (ch - 128)); lia).
    destruct (IH (k * 128 + d + 1) (pre ++ [ch])) as (ds & -> & Hw & Hr); [lia| |done|].
    + right. split; [lia|]. intros fuel acc Hacc Hf Hlt. rewrite Z.add_simpl_r in *.
      rewrite (varint_prefix_digit k d 128 pre acc fuel) by (done || lia || by destruct acc).
      rewrite <- app_assoc. cbn. do 3 f_equal. lia.
    + exists (ch :: ds). rewrite <- app_assoc in Hw. done.
Qed.

Lemma GetSizeOfVarInt_loop_length (fuel : nat) (n : Z) (acc : list Z) :
  GetSizeOfVarInt_loop fuel n (Z.of_nat (length acc))
  = (fun l : list Z => Z.of_nat (length l)) <$> WriteVarInt_loop fuel n acc.
Proof.
  revert n acc; induction fuel as [|fuel IH]; intros n acc; [done|].
  cbn [GetSizeOfVarInt_loop WriteVarInt_loop]. set (d := Z.lor _ _).
  replace (Z.of_nat (length acc) + 1) with (Z.of_nat (length (d :: acc))) by (cbn [length]; lia).
  destruct (n <=? 0x7F); [done|]. apply IH.
Qed.

(** ** Properties *)

(** Compact sizes are a bijective encoding: what [WriteCompactSize] writes reads
    back, has the size [GetSizeOfCompactSize] says, and [ReadCompactSize]
    accepts nothing else for that number (no padded form). *)
Theorem CompactSize_bijective (range_check : bool) (n : Z) (rest : list Z) :
  is_u64 n -> (range_check = true -> n <= MAX_SIZE) -> Forall is_u8 rest ->
  Z.of_nat (length (WriteCompactSize n)) = GetSizeOfCompactSize n /\
  forall s, Forall is_u8 s ->
    ReadCompactSize range_check s = Some (n, rest) <-> s = WriteCompactSize n ++ rest.
Proof.
  intros Hn Hr Hrest. split; [apply WriteCompactSize_length|]. intros s Hs. split.
  - intros E. by destruct (ReadCompactSize_only range_check s n rest Hs E) as (_ & _ & -> & _).
  - intros ->. by apply ReadCompactSize_write.
Qed.

Lemma CompactSize_bijective_witness :
  ReadCompactSize true [253; 44; 1; 7] = Some (300, [7]).
Proof.
  destruct (CompactSize_bijective true 300 [7]) as [_ H].
  - unfold is_u64. lia.
  - intros _. unfold MAX_SIZE. lia.
  - repeat constructor; unfold is_u8; lia.
  - apply H; [repeat constructor; unfold is_u8; lia|reflexivity].
Defined.

(** [WriteVarInt] and [ReadVarInt] are inverse on every unsigned type: each number up
    to [max] has an encoding, of the length [GetSizeOfVarInt] says, that reads
    back as the number, and every byte string the reader accepts is the
    encoding of a number up to [max], so that no number has two encodings. *)
Theorem VarInt_bijective (max n : Z) (rest : list Z) :
  max mod 128 = 127 -> 0 <= n <= max -> max < 2 ^ 70 -> Forall is_u8 rest ->
  exists l, WriteVarInt n = Some l /\ GetSizeOfVarInt n = Some (Z.of_nat (length l)) /\
    ReadVarInt max (l ++ rest) = Some (n, rest) /\
    forall s, Forall is_u8 s -> ReadVarInt max s = Some (n, rest) -> s = l ++ rest.
Proof.
  intros Hmod Hn Hmax Hrest.
  destruct (WriteVarInt_loop_total 10 n []) as [l Hl]; [lia|change (7 * Z.of_nat 10) with 70; lia|].
  exists l. split; [done|]. split; [|split].
  - unfold GetSizeOfVarInt. pose proof (GetSizeOfVarInt_loop_length 10 n []) as H. by rewrite Hl in H.
  - unfold ReadVarInt. by rewrite (WriteVarInt_loop_read max 10 n [] l rest).
  - intros s Hs E. destruct (ReadVarInt_loop_only max s 0 n [] rest) as (ds & -> & Hw & _);
      [lia|done|lia|done|by left|done|]. unfold WriteVarInt in Hw. rewrite Hl in Hw. by injection Hw as <-.
Qed.

Lemma VarInt_bijective_witness :
  exists l, WriteVarInt 65535 = Some l /\ ReadVarInt (2 ^ 32 - 1) (l ++ [9]) = Some (65535, [9]).
Proof.
  destruct (VarInt_bijective (2 ^ 32 - 1) 65535 [9]) as (l & H1 & _ & H2 & _).
  - reflexivity.
  - lia.
  - lia.
  - repeat constructor; unfold is_u8; lia.
  - exists l. split; [exact H1|exact H2].
Defined.
