(* ===== verification/ValidationState.v ===== *)
(** * Validation results: src/src/consensus/validation.h

    [ValidationState], shared by block and transaction checks: the mode, the
    machine-readable result and the two texts, with the transitions [Invalid]
    and [Error]. A check returns its boolean together with the new state. *)

From stdpp Require Export strings.
From S2P Require Import Prelude.
#[local] Open Scope Z_scope.

(** [TxValidationResult] *)
Inductive TxValidationResult :=
  | TX_RESULT_UNSET
  | TX_CONSENSUS
  | TX_INPUTS_NOT_STANDARD
  | TX_NOT_STANDARD
  | TX_MISSING_INPUTS
  | TX_PREMATURE_SPEND
  | TX_WITNESS_MUTATED
  | TX_WITNESS_STRIPPED
  | TX_CONFLICT
  | TX_MEMPOOL_POLICY
  | TX_NO_MEMPOOL
  | TX_RECONSIDERABLE
  | TX_UNKNOWN.

(** [BlockValidationResult] *)
Inductive BlockValidationResult :=
  | BLOCK_RESULT_UNSET
  | BLOCK_CONSENSUS
  | BLOCK_CACHED_INVALID
  | BLOCK_INVALID_HEADER
  | BLOCK_MUTATED
  | BLOCK_MISSING_PREV
  | BLOCK_INVALID_PREV
  | BLOCK_TIME_FUTURE
  | BLOCK_HEADER_LOW_WORK.

(** [ModeState] *)
Inductive ModeState := M_VALID | M_INVALID | M_ERROR.

Record ValidationState (Result : Type) := mkState {
  m_mode : ModeState;
  m_result : Result;
  m_reject_reason : string;
  m_debug_message : string
}.

Arguments mkState {_}.
Arguments m_mode {_}.
Arguments m_result {_}.
Arguments m_reject_reason {_}.
Arguments m_debug_message {_}.

Abbreviation BlockValidationState := (ValidationState BlockValidationResult).
Abbreviation TxValidationState := (ValidationState TxValidationResult).

#[export] Instance TxValidationResult_eq_dec : EqDecision TxValidationResult.
Proof. solve_decision. Defined.
#[export] Instance BlockValidationResult_eq_dec : EqDecision BlockValidationResult.
Proof. solve_decision. Defined.
#[export] Instance ModeState_eq_dec : EqDecision ModeState.
Proof. solve_decision. Defined.

(** Freshly constructed states. *)
Definition block_state : BlockValidationState := mkState M_VALID BLOCK_RESULT_UNSET EmptyString EmptyString.
Definition tx_state : TxValidationState := mkState M_VALID TX_RESULT_UNSET EmptyString EmptyString.

(** [ValidationState::Invalid], with the returned [false]. *)
Definition Invalid {R : Type} (st : ValidationState R) (result : R) (reject_reason debug_message : string)
  : bool * ValidationState R :=
  (false, {| m_mode := match m_mode st with M_ERROR => M_ERROR | _ => M_INVALID end;
             m_result := result; m_reject_reason := reject_reason; m_debug_message := debug_message |}).

(** [ValidationState::Error] *)
Definition Error {R : Type} (st : ValidationState R) (reject_reason : string) : bool * ValidationState R :=
  (false, {| m_mode := M_ERROR; m_result := m_result st;
             m_reject_reason := match m_mode st with M_VALID => reject_reason | _ => m_reject_reason st end;
             m_debug_message := m_debug_message st |}).

Definition IsValidState {R : Type} (st : ValidationState R) : bool :=
  match m_mode st with M_VALID => true | _ => false end.
Definition IsInvalid {R : Type} (st : ValidationState R) : bool :=
  match m_mode st with M_INVALID => true | _ => false end.
Definition IsError {R : Type} (st : ValidationState R) : bool :=
  match m_mode st with M_ERROR => true | _ => false end.

(** [ToString] *)
Definition StateToString {R : Type} (st : ValidationState R) : string :=
  if IsValidState st then "Valid"
  else match m_debug_message st with
       | EmptyString => m_reject_reason st
       | d => (m_reject_reason st +:+ ", " +:+ d)%string
       end.

(** ** Hexadecimal texts in the messages *)

Definition hex_digit (d : Z) : Ascii.ascii :=
  Ascii.ascii_of_N (Z.to_N (if d <? 10 then 48 + d else 87 + d)).

(** The low [n] hexadecimal digits of [v], most significant first: [%0<n>x]. *)
Fixpoint hex_digits (n : nat) (v : Z) (tail : string) : string :=
  match n with
  | O => tail
  | S n' => hex_digits n' (Z.shiftr v 4) (String (hex_digit (Z.land v 15)) tail)
  end.

(** [strprintf("%08x", v)] for a 32-bit number. *)
Definition hex08 (v : Z) : string := hex_digits 8 (u32 v) EmptyString.

(** [uint256::ToString]: the bytes in reverse order. *)
Definition uint256_ToString (h : Z) : string := hex_digits 64 h EmptyString.
