(* ===== verification/ArithUint256.v ===== *)
(** * Big integers: src/src/arith_uint256.h and arith_uint256.cpp

    [base_uint<256>] is an array [pn] of [WIDTH] 32-bit digits, least
    significant first.  Every operator is translated as the digit loop of the
    source and proved to compute the operation on [val], the number the digits
    stand for, modulo [2^256].  [SetCompact] and [GetCompact] are the "compact"
    floating-point format of difficulty targets. *)

From S2P Require Import Prelude.

(** ** Data *)

Definition WIDTH : nat := 8.

(** The digits [pn] of a [base_uint]. *)
Abbreviation base_uint := (list Z).
Abbreviation arith_uint256 := (list Z).

(** ** Operations *)

(** [constexpr base_uint()] *)
Definition uint_zero : base_uint := replicate WIDTH 0.

(** [constexpr base_uint(uint64_t b)] and [operator=(uint64_t b)] *)
Definition of_u64 (b : Z) : base_uint :=
  <[1%nat := u32 (Z.shiftr b 32)]> (<[0%nat := u32 b]> uint_zero).

Definition uint_not (pn : base_uint) : base_uint :=
  for_up WIDTH (fun i ret => <[i := u32 (Z.lnot (pn !!! i))]> ret) uint_zero.

(** [operator++()]: [while (i < WIDTH && ++pn[i] == 0) i++]; the counter
    [n] is [WIDTH - i]. *)
Fixpoint uint_incr_loop (n i : nat) (pn : base_uint) : base_uint :=
  match n with
  | O => pn
  | S n' =>
      let pn := <[i := u32 (pn !!! i + 1)]> pn in
      if pn !!! i =? 0 then uint_incr_loop n' (S i) pn else pn
  end.

Definition uint_incr (pn : base_uint) : base_uint := uint_incr_loop WIDTH 0 pn.

(** [operator--()]: [while (i < WIDTH && --pn[i] == UINT32_MAX) i++] *)
Fixpoint uint_decr_loop (n i : nat) (pn : base_uint) : base_uint :=
  match n with
  | O => pn
  | S n' =>
      let pn := <[i := u32 (pn !!! i - 1)]> pn in
      if pn !!! i =? 2 ^ 32 - 1 then uint_decr_loop n' (S i) pn else pn
  end.

Definition uint_decr (pn : base_uint) : base_uint := uint_decr_loop WIDTH 0 pn.

(** Unary [operator-()]. *)
Definition uint_neg (pn : base_uint) : base_uint :=
  uint_incr (for_up WIDTH (fun i ret => <[i := u32 (Z.lnot (pn !!! i))]> ret) uint_zero).

(** [operator+=(const base_uint& b)] *)
Definition uint_add_step (b : base_uint) (i : nat) (st : base_uint * Z) : base_uint * Z :=
  let '(pn, carry) := st in
  let n := u64 (carry + pn !!! i + b !!! i) in
  (<[i := Z.land n 0xffffffff]> pn, Z.shiftr n 32).

Definition uint_add (pn b : base_uint) : base_uint :=
  fst (for_up WIDTH (uint_add_step b) (pn, 0)).

Definition uint_sub (pn b : base_uint) : base_uint := uint_add pn (uint_neg b).

(** [operator*=(uint32_t b32)] *)
Definition uint_mul32_step (b32 : Z) (i : nat) (st : base_uint * Z) : base_uint * Z :=
  let '(pn, carry) := st in
  let n := u64 (carry + b32 * pn !!! i) in
  (<[i := Z.land n 0xffffffff]> pn, Z.shiftr n 32).

Definition uint_mul32 (pn : base_uint) (b32 : Z) : base_uint :=
  fst (for_up WIDTH (uint_mul32_step b32) (pn, 0)).

(** [operator*=(const base_uint& b)]: schoolbook multiplication. *)
Definition uint_mul_step (pnj : Z) (b : base_uint) (j i : nat) (st : base_uint * Z)
  : base_uint * Z :=
  let '(a, carry) := st in
  let n := u64 (carry + a !!! (i + j)%nat + pnj * b !!! i) in
  (<[(i + j)%nat := Z.land n 0xffffffff]> a, Z.shiftr n 32).

Definition uint_mul (pn b : base_uint) : base_uint :=
  for_up WIDTH
    (fun j a => fst (for_up (WIDTH - j) (uint_mul_step (pn !!! j) b j) (a, 0)))
    uint_zero.

(** [operator<<=(unsigned int shift)] *)
Definition uint_shl_step (a : base_uint) (k : nat) (s : Z) (i : nat) (pn : base_uint)
  : base_uint :=
  let pn :=
    if (i + k + 1 <? WIDTH)%nat && negb (s =? 0) then
      <[(i + k + 1)%nat := Z.lor (pn !!! (i + k + 1)%nat) (Z.shiftr (a !!! i) (32 - s))]> pn
    else pn in
  if (i + k <? WIDTH)%nat then
    <[(i + k)%nat := Z.lor (pn !!! (i + k)%nat) (u32 (Z.shiftl (a !!! i) s))]> pn
  else pn.

Definition uint_shl (a : base_uint) (shift : Z) : base_uint :=
  for_up WIDTH (uint_shl_step a (Z.to_nat (shift / 32)) (shift mod 32)) uint_zero.

(** [operator>>=(unsigned int shift)] *)
Definition uint_shr_step (a : base_uint) (k : nat) (s : Z) (i : nat) (pn : base_uint)
  : base_uint :=
  let pn :=
    if (k + 1 <=? i)%nat && negb (s =? 0) then
      <[(i - k - 1)%nat := Z.lor (pn !!! (i - k - 1)%nat) (u32 (Z.shiftl (a !!! i) (32 - s)))]> pn
    else pn in
  if (k <=? i)%nat then
    <[(i - k)%nat := Z.lor (pn !!! (i - k)%nat) (Z.shiftr (a !!! i) s)]> pn
  else pn.

Definition uint_shr (a : base_uint) (shift : Z) : base_uint :=
  for_up WIDTH (uint_shr_step a (Z.to_nat (shift / 32)) (shift mod 32)) uint_zero.

(** [CompareTo]: from the most significant digit down. *)
Fixpoint CompareTo_loop (n : nat) (pn b : base_uint) : Z :=
  match n with
  | O => 0
  | S i =>
      if pn !!! i <? b !!! i then -1
      else if b !!! i <? pn !!! i then 1
      else CompareTo_loop i pn b
  end.

Definition CompareTo (pn b : base_uint) : Z := CompareTo_loop WIDTH pn b.

(** [operator<=>] through [CompareTo]. *)
Definition uint_ltb (a b : base_uint) : bool := CompareTo a b <? 0.
Definition uint_gtb (a b : base_uint) : bool := 0 <? CompareTo a b.
Definition uint_geb (a b : base_uint) : bool := 0 <=? CompareTo a b.

(** [EqualTo(uint64_t b)]: digits [WIDTH - 1] down to [2] must be zero. *)
Fixpoint EqualTo_high (n : nat) (pn : base_uint) : bool :=
  match n with
  | O => true
  | S n' => if pn !!! (n' + 2)%nat =? 0 then EqualTo_high n' pn else false
  end.

Definition EqualTo (pn : base_uint) (b : Z) : bool :=
  if EqualTo_high (WIDTH - 2) pn then
    if negb (pn !!! 1%nat =? Z.shiftr b 32) then false
    else if negb (pn !!! 0%nat =? Z.land b 0xffffffff) then false
    else true
  else false.

(** [bits()]: position of the highest set bit plus one. *)
Fixpoint bits_in_digit (nbits : nat) (d : Z) (pos : Z) : Z :=
  match nbits with
  | O => 32 * pos + 1
  | S n' =>
      if negb (Z.land d (Z.shiftl 1 (Z.of_nat nbits)) =? 0)
      then 32 * pos + Z.of_nat nbits + 1
      else bits_in_digit n' d pos
  end.

Fixpoint bits_loop (n : nat) (pn : base_uint) : Z :=
  match n with
  | O => 0
  | S pos =>
      if negb (pn !!! pos =? 0) then bits_in_digit 31 (pn !!! pos) (Z.of_nat pos)
      else bits_loop pos pn
  end.

Definition bits (pn : base_uint) : Z := bits_loop WIDTH pn.

Definition GetLow64 (pn : base_uint) : Z :=
  Z.lor (pn !!! 0%nat) (Z.shiftl (pn !!! 1%nat) 32).

(** [operator/=]: long division, one quotient bit per iteration; [n] is
    [shift + 1].  [None] is the exception [uint_error("Division by zero")]. *)
Fixpoint uint_div_loop (n : nat) (num div q : base_uint) : base_uint :=
  match n with
  | O => q
  | S shift =>
      let '(num, q) :=
        if uint_geb num div then
          (uint_sub num div,
           let w := Z.to_nat (Z.of_nat shift / 32) in
           <[w := Z.lor (q !!! w) (Z.shiftl 1 (Z.land (Z.of_nat shift) 31))]> q)
        else (num, q) in
      uint_div_loop shift num (uint_shr div 1) q
  end.

Definition uint_div (pn b : base_uint) : option base_uint :=
  let num_bits := bits pn in
  let div_bits := bits b in
  if div_bits =? 0 then None
  else if div_bits >? num_bits then Some uint_zero
  else
    let shift := num_bits - div_bits in
    Some (uint_div_loop (Z.to_nat (shift + 1)) pn (uint_shl b shift) uint_zero).

(** [SetCompact]: the value and the two output flags. *)
Definition SetCompact (nCompact : Z) : arith_uint256 * bool * bool :=
  let nSize := Z.shiftr nCompact 24 in
  let nWord := Z.land nCompact 0x007fffff in
  let '(v, nWord) :=
    if nSize <=? 3 then
      let nWord := Z.shiftr nWord (8 * (3 - nSize)) in (of_u64 nWord, nWord)
    else (uint_shl (of_u64 nWord) (8 * (nSize - 3)), nWord) in
  let fNegative := negb (nWord =? 0) && negb (Z.land nCompact 0x00800000 =? 0) in
  let fOverflow :=
    negb (nWord =? 0) &&
    ((nSize >? 34) || ((nWord >? 0xff) && (nSize >? 33)) || ((nWord >? 0xffff) && (nSize >? 32))) in
  (v, fNegative, fOverflow).

(** [GetCompact]; [None] is a failed assertion. *)
Definition GetCompact (pn : arith_uint256) (fNegative : bool) : option Z :=
  let nSize := (bits pn + 7) / 8 in
  let nCompact :=
    if nSize <=? 3 then u32 (u64 (Z.shiftl (GetLow64 pn) (8 * (3 - nSize))))
    else u32 (GetLow64 (uint_shr pn (8 * (nSize - 3)))) in
  let '(nCompact, nSize) :=
    if negb (Z.land nCompact 0x00800000 =? 0) then (Z.shiftr nCompact 8, nSize + 1)
    else (nCompact, nSize) in
  if negb (Z.land nCompact (u32 (Z.lnot 0x007fffff)) =? 0) then None
  else if negb (nSize <? 256) then None
  else
    let nCompact := Z.lor nCompact (u32 (Z.shiftl nSize 24)) in
    Some (Z.lor nCompact
            (if fNegative && negb (Z.land nCompact 0x007fffff =? 0) then 0x00800000 else 0)).

(** [WriteLE32] and [ReadLE32] at byte offset [4 * x] of a 32-byte blob. *)
Definition WriteLE32 (b : list Z) (x : nat) (v : Z) : list Z :=
  <[(4 * x + 3)%nat := u8 (Z.shiftr v 24)]>
    (<[(4 * x + 2)%nat := u8 (Z.shiftr v 16)]>
      (<[(4 * x + 1)%nat := u8 (Z.shiftr v 8)]>
        (<[(4 * x)%nat := u8 v]> b))).

Definition ReadLE32 (b : list Z) (x : nat) : Z :=
  Z.lor (b !!! (4 * x)%nat)
    (Z.lor (Z.shiftl (b !!! (4 * x + 1)%nat) 8)
      (Z.lor (Z.shiftl (b !!! (4 * x + 2)%nat) 16)
        (Z.shiftl (b !!! (4 * x + 3)%nat) 24))).

Definition ArithToUint256 (a : arith_uint256) : list Z :=
  for_up WIDTH (fun x b => WriteLE32 b x (a !!! x)) (replicate 32 0).

Definition UintToArith256 (a : list Z) : arith_uint256 :=
  for_up WIDTH (fun x b => <[x := ReadLE32 a x]> b) uint_zero.

(** ** The number the digits stand for *)

Definition val (l : base_uint) : Z := foldr (fun d acc => d + 2 ^ 32 * acc) 0 l.

(** Well-formed: [WIDTH] digits of 32 bits. *)
Definition uint_wf (l : base_uint) : Prop := length l = WIDTH /\ Forall is_u32 l.

#[export] Instance is_u32_dec (x : Z) : Decision (is_u32 x).
Proof. unfold is_u32. apply _. Defined.

#[export] Instance uint_wf_dec (l : base_uint) : Decision (uint_wf l).
Proof. unfold uint_wf. apply _. Defined.

(** Weight of digit [i]. *)
Definition pw (i : nat) : Z := 2 ^ (32 * Z.of_nat i).

Definition M256 : Z := pw WIDTH.

Lemma pw_0 : pw 0 = 1.
Proof. done. Qed.

Lemma pw_S (i : nat) : pw (S i) = 2 ^ 32 * pw i.
Proof. unfold pw. rewrite <- Z.pow_add_r by lia. f_equal. lia. Qed.

Lemma pw_pos (i : nat) : 0 < pw i.
Proof. unfold pw. lia. Qed.

Lemma pw_add (i j : nat) : pw (i + j) = pw i * pw j.
Proof. unfold pw. rewrite <- Z.pow_add_r by lia. f_equal. lia. Qed.

Lemma pw_le (i j : nat) : (i <= j)%nat -> pw i <= pw j.
Proof. intros. unfold pw. apply Z.pow_le_mono_r; lia. Qed.

Lemma val_nil : val [] = 0.
Proof. done. Qed.

Lemma val_cons (d : Z) (l : base_uint) : val (d :: l) = d + 2 ^ 32 * val l.
Proof. done. Qed.

Lemma val_app (l1 l2 : base_uint) : val (l1 ++ l2) = val l1 + pw (length l1) * val l2.
Proof.
  induction l1 as [|d l1 IH]; [cbn [app length]; rewrite val_nil, pw_0; lia|].
  cbn [app length]. rewrite !val_cons, IH, pw_S. ring.
Qed.

Lemma val_bound (l : base_uint) : Forall is_u32 l -> 0 <= val l < pw (length l).
Proof.
  induction 1 as [|d l Hd Hl IH]; [cbn [length]; rewrite val_nil, pw_0; lia|].
  cbn [length]. rewrite val_cons, pw_S. unfold is_u32 in Hd. lia.
Qed.

Lemma uint_val_bound (l : base_uint) : uint_wf l -> 0 <= val l < M256.
Proof. intros [H1 H]. unfold M256. rewrite <- H1. by apply val_bound. Qed.

Lemma val_replicate_0 (n : nat) : val (replicate n 0) = 0.
Proof. induction n as [|n IH]; [done|]. cbn [replicate]. rewrite val_cons, IH. done. Qed.

Lemma val_zero : val uint_zero = 0.
Proof. apply val_replicate_0. Qed.

Lemma val_take_S (l : base_uint) (i : nat) :
  (i < length l)%nat -> val (take (S i) l) = val (take i l) + l !!! i * pw i.
Proof.
  intros H. rewrite (take_S_r l i (l !!! i)) by by apply list_lookup_lookup_total_lt.
  rewrite val_app, length_take, val_cons, val_nil.
  replace (Nat.min i (length l)) with i by lia. ring.
Qed.

Lemma val_insert (l : base_uint) (i : nat) (x : Z) :
  (i < length l)%nat -> val (<[i := x]> l) = val l + (x - l !!! i) * pw i.
Proof.
  revert i; induction l as [|d l IH]; intros [|i] Hi; cbn [length] in Hi; try lia.
  - cbn [insert list_insert lookup_total list_lookup_total]. rewrite !val_cons, pw_0. lia.
  - change (<[S i := x]> (d :: l)) with (d :: <[i := x]> l).
    change ((d :: l) !!! S i) with (l !!! i).
    rewrite !val_cons, IH, pw_S by lia. ring.
Qed.

(** ** Well-formedness is preserved by digit updates *)

Lemma is_u32_0 : is_u32 0.
Proof. unfold is_u32. lia. Qed.

Lemma uint_zero_wf : uint_wf uint_zero.
Proof.
  split; [apply length_replicate|]. unfold uint_zero. apply Forall_replicate, is_u32_0.
Qed.

Lemma uint_wf_insert (l : base_uint) (i : nat) (x : Z) :
  uint_wf l -> is_u32 x -> uint_wf (<[i := x]> l).
Proof. intros [H1 H2] H3. split; [by rewrite length_insert | by apply Forall_insert]. Qed.

Lemma uint_wf_digit (l : base_uint) (i : nat) : uint_wf l -> is_u32 (l !!! i).
Proof.
  intros [H1 H2]. destruct (decide (i < length l)%nat) as [H|H].
  - rewrite Forall_lookup in H2. by apply (H2 i), list_lookup_lookup_total_lt.
  - rewrite list_lookup_total_alt, lookup_ge_None_2 by lia. cbn. unfold is_u32. lia.
Qed.

Lemma uint_wf_length (l : base_uint) : uint_wf l -> length l = WIDTH.
Proof. by intros []. Qed.

Lemma land_low32 (n : Z) : Z.land n 0xffffffff = n mod 2 ^ 32.
Proof. change 0xffffffff with (Z.ones 32). by apply Z.land_ones. Qed.

Lemma land_low32_u32 (n : Z) : is_u32 (Z.land n 0xffffffff).
Proof. rewrite land_low32. apply u32_range. Qed.

Lemma split32 (n : Z) : Z.land n 0xffffffff + 2 ^ 32 * Z.shiftr n 32 = n.
Proof. rewrite land_low32, Z.shiftr_div_pow2 by lia. pose proof (Z.div_mod n (2 ^ 32)). lia. Qed.

#[export] Hint Resolve uint_zero_wf uint_wf_insert uint_wf_digit land_low32_u32 is_u32_0 : words.

(** The value of a well-formed result is determined modulo [M256]. *)
Lemma val_mod_unique (l : base_uint) (x c : Z) :
  uint_wf l -> x = M256 * c + val l -> val l = x mod M256.
Proof. intros H ->. symmetry. eapply mod_unique_pos; [by apply uint_val_bound|]. done. Qed.

(** ** Carry propagation

    One iteration of a carry loop at digit [p]: the 64-bit intermediate [t]
    does not wrap, its low half becomes the digit and its high half the carry. *)
Lemma carry_step (a : base_uint) (p : nat) (c t : Z) :
  (p < length a)%nat -> is_u64 t ->
  val (<[p := Z.land (u64 t) 0xffffffff]> a) + Z.shiftr (u64 t) 32 * pw (S p)
  = val a + (t - a !!! p) * pw p.
Proof.
  intros Hp Ht. rewrite u64_small by done. rewrite val_insert, pw_S by done.
  pose proof (split32 t). nia.
Qed.

Lemma carry_bound (t : Z) : is_u64 t -> is_u32 (Z.shiftr (u64 t) 32).
Proof.
  intros Ht. rewrite u64_small by done. rewrite Z.shiftr_div_pow2 by lia.
  unfold is_u64, is_u32 in *. pose proof (Z.div_mod t (2 ^ 32)).
  pose proof (Z.mod_pos_bound t (2 ^ 32)). lia.
Qed.

Lemma lookup_total_insert_ne (l : list Z) (i j : nat) (x : Z) :
  i <> j -> <[i := x]> l !!! j = l !!! j.
Proof. intros. rewrite !list_lookup_total_alt. by rewrite list_lookup_insert_ne. Qed.

Lemma lookup_total_insert_eq (l : list Z) (i : nat) (x : Z) :
  (i < length l)%nat -> <[i := x]> l !!! i = x.
Proof. intros. rewrite list_lookup_total_alt. by rewrite list_lookup_insert_eq. Qed.

(** ** Addition *)

Lemma uint_add_inv (pn b : base_uint) :
  uint_wf pn -> uint_wf b ->
  let '(r, c) := for_up WIDTH (uint_add_step b) (pn, 0) in
  uint_wf r /\ is_u32 c /\ val r + c * M256 = val pn + val b.
Proof.
  intros Hpn Hb.
  pose (P := fun (i : nat) (st : base_uint * Z) =>
    let '(r, c) := st in
    uint_wf r /\ 0 <= c <= 1 /\ val r + c * pw i = val pn + val (take i b) /\
    forall j, (i <= j)%nat -> r !!! j = pn !!! j).
  assert (H : P WIDTH (for_up WIDTH (uint_add_step b) (pn, 0))).
  { apply for_up_inv; unfold P.
    - split; [done|]. split; [lia|]. rewrite take_0, val_nil. split; [lia|done].
    - intros i [r c] Hi (Hr & Hc & Hv & Hu). cbn [uint_add_step].
      pose proof (uint_wf_digit r i Hr) as Hri. pose proof (uint_wf_digit b i Hb) as Hbi.
      assert (Ht : is_u64 (c + r !!! i + b !!! i)) by (unfold is_u32, is_u64 in *; lia).
      split; [auto with words|]. split.
      + rewrite u64_small by done. rewrite Z.shiftr_div_pow2 by lia. unfold is_u32 in *.
        split; [apply Z.div_pos; lia|]. apply Z.lt_succ_r, Z.div_lt_upper_bound; lia.
      + split.
        * rewrite (carry_step r i c) by (rewrite ?(uint_wf_length r Hr); done).
          rewrite val_take_S by (rewrite (uint_wf_length b Hb); done). lia.
        * intros j Hj. rewrite lookup_total_insert_ne by lia. apply Hu. lia. }
  destruct (for_up WIDTH (uint_add_step b) (pn, 0)) as [r c].
  destruct H as (Hr & Hc & Hv & _). rewrite take_ge in Hv by (rewrite (uint_wf_length b Hb); done).
  split; [done|]. split; [unfold is_u32; lia|done].
Qed.

Lemma uint_add_wf (pn b : base_uint) : uint_wf pn -> uint_wf b -> uint_wf (uint_add pn b).
Proof.
  intros H1 H2. pose proof (uint_add_inv pn b H1 H2) as H. unfold uint_add.
  destruct (for_up _ _ _). by destruct H.
Qed.

Lemma val_add (pn b : base_uint) :
  uint_wf pn -> uint_wf b -> val (uint_add pn b) = (val pn + val b) mod M256.
Proof.
  intros H1 H2. pose proof (uint_add_inv pn b H1 H2) as H.
  pose proof (uint_add_wf pn b H1 H2) as Hw. unfold uint_add in *.
  destruct (for_up _ _ _) as [r c]. destruct H as (_ & _ & H). simpl in *.
  apply (val_mod_unique r _ c); [done|lia].
Qed.

(** ** Complement, increment, decrement and negation *)

Lemma u32_lnot (d : Z) : is_u32 d -> u32 (Z.lnot d) = 2 ^ 32 - 1 - d.
Proof.
  intros Hd. unfold u32, is_u32, Z.lnot in *.
  apply (mod_unique_pos _ _ (-1)); lia.
Qed.

Lemma uint_not_inv (pn : base_uint) (i : nat) :
  uint_wf pn -> (i <= WIDTH)%nat ->
  let r := for_up i (fun i ret => <[i := u32 (Z.lnot (pn !!! i))]> ret) uint_zero in
  uint_wf r /\ val r = pw i - 1 - val (take i pn) /\
  forall j, (i <= j < WIDTH)%nat -> r !!! j = 0.
Proof.
  intros Hpn Hi.
  apply (for_up_inv (fun i r => uint_wf r /\ val r = pw i - 1 - val (take i pn) /\
    forall j, (i <= j < WIDTH)%nat -> r !!! j = 0)).
  - split; [auto with words|]. split; [by rewrite take_0, val_zero, val_nil, pw_0|].
    intros j Hj. unfold uint_zero. rewrite list_lookup_total_alt, lookup_replicate_2 by lia. done.
  - intros k r Hk (Hr & Hv & Hz). split; [auto with words|]. split.
    + rewrite val_insert by (rewrite (uint_wf_length r Hr); lia).
      rewrite val_take_S by (rewrite (uint_wf_length pn Hpn); lia).
      rewrite Hv, Hz, pw_S, u32_lnot by (lia || by apply uint_wf_digit). ring.
    + intros j Hj. rewrite lookup_total_insert_ne by lia. apply Hz. lia.
Qed.

Lemma val_not (pn : base_uint) :
  uint_wf pn -> uint_wf (uint_not pn) /\ val (uint_not pn) = M256 - 1 - val pn.
Proof.
  intros H. destruct (uint_not_inv pn WIDTH H) as (Hr & Hv & _); [lia|].
  split; [exact Hr|]. unfold uint_not. rewrite Hv.
  rewrite take_ge by (rewrite (uint_wf_length pn H); done). done.
Qed.

Lemma uint_incr_loop_spec (n i : nat) (pn : base_uint) :
  uint_wf pn -> (i + n = WIDTH)%nat ->
  uint_wf (uint_incr_loop n i pn) /\ val (uint_incr_loop n i pn) = (val pn + pw i) mod M256.
Proof.
  revert i pn; induction n as [|n IH]; intros i pn Hpn Hi; cbn [uint_incr_loop].
  - split; [done|]. apply (val_mod_unique _ _ 1); [done|].
    unfold M256. replace WIDTH with i by lia. lia.
  - assert (Hl : (i < length pn)%nat) by (rewrite (uint_wf_length pn Hpn); lia).
    rewrite lookup_total_insert_eq by done.
    pose proof (uint_wf_digit pn i Hpn) as Hd. pose proof (val_insert pn i) as Hins.
    assert (Hw : uint_wf (<[i := u32 (pn !!! i + 1)]> pn)) by auto with words.
    destruct (decide (pn !!! i = 2 ^ 32 - 1)) as [E|E].
    + rewrite E. change (u32 (2 ^ 32 - 1 + 1)) with 0. rewrite E in Hw. cbn [Z.eqb].
      destruct (IH (S i) _ Hw ltac:(lia)) as [IH1 IH2]. split; [done|].
      change (u32 (2 ^ 32 - 1 + 1)) with 0 in IH2. change (0 =? 0) with true. cbv iota.
      rewrite IH2, Hins, pw_S, E by done. f_equal. ring.
    + rewrite u32_small in * by (unfold is_u32 in *; lia).
      rewrite (proj2 (Z.eqb_neq _ _)) by (unfold is_u32 in *; lia).
      split; [done|]. apply (val_mod_unique _ _ 0); [done|]. rewrite Hins by done. ring.
Qed.

Lemma val_incr (pn : base_uint) :
  uint_wf pn -> uint_wf (uint_incr pn) /\ val (uint_incr pn) = (val pn + 1) mod M256.
Proof. intros H. by apply (uint_incr_loop_spec WIDTH 0). Qed.

Lemma uint_decr_loop_spec (n i : nat) (pn : base_uint) :
  uint_wf pn -> (i + n = WIDTH)%nat ->
  uint_wf (uint_decr_loop n i pn) /\ val (uint_decr_loop n i pn) = (val pn - pw i) mod M256.
Proof.
  revert i pn; induction n as [|n IH]; intros i pn Hpn Hi; cbn [uint_decr_loop].
  - split; [done|]. apply (val_mod_unique _ _ (-1)); [done|].
    unfold M256. replace WIDTH with i by lia. lia.
  - assert (Hl : (i < length pn)%nat) by (rewrite (uint_wf_length pn Hpn); lia).
    rewrite lookup_total_insert_eq by done.
    pose proof (uint_wf_digit pn i Hpn) as Hd. pose proof (val_insert pn i) as Hins.
    assert (Hw : uint_wf (<[i := u32 (pn !!! i - 1)]> pn)) by auto with words.
    destruct (decide (pn !!! i = 0)) as [E|E].
    + rewrite E in *. change (u32 (0 - 1)) with (2 ^ 32 - 1) in *. rewrite Z.eqb_refl.
      destruct (IH (S i) _ Hw ltac:(lia)) as [IH1 IH2]. split; [done|].
      rewrite IH2, Hins, pw_S by done. f_equal. ring.
    + rewrite u32_small in * by (unfold is_u32 in *; lia).
      rewrite (proj2 (Z.eqb_neq _ _)) by (unfold is_u32 in *; lia).
      split; [done|]. apply (val_mod_unique _ _ 0); [done|]. rewrite Hins by done. ring.
Qed.

Lemma val_decr (pn : base_uint) :
  uint_wf pn -> uint_wf (uint_decr pn) /\ val (uint_decr pn) = (val pn - 1) mod M256.
Proof. intros H. by apply (uint_decr_loop_spec WIDTH 0). Qed.

Lemma val_neg (pn : base_uint) :
  uint_wf pn -> uint_wf (uint_neg pn) /\ val (uint_neg pn) = (- val pn) mod M256.
Proof.
  intros H. destruct (val_not pn H) as [H1 H2]. destruct (val_incr _ H1) as [H3 H4].
  change (uint_neg pn) with (uint_incr (uint_not pn)). split; [done|].
  rewrite H4, H2. replace (M256 - 1 - val pn + 1) with (- val pn + 1 * M256) by ring.
  apply Z_mod_plus_full.
Qed.

Lemma uint_sub_wf (pn b : base_uint) : uint_wf pn -> uint_wf b -> uint_wf (uint_sub pn b).
Proof. intros. apply uint_add_wf; [done|]. by apply val_neg. Qed.

Lemma val_sub (pn b : base_uint) :
  uint_wf pn -> uint_wf b -> val (uint_sub pn b) = (val pn - val b) mod M256.
Proof.
  intros H1 H2. destruct (val_neg b H2) as [H3 H4]. unfold uint_sub.
  rewrite val_add, H4, Zplus_mod_idemp_r by done. f_equal.
Qed.

(** ** Multiplication *)

Lemma is_u64_mac (c d x y : Z) :
  is_u32 c -> is_u32 d -> is_u32 x -> is_u32 y -> is_u64 (c + d + x * y).
Proof. unfold is_u32, is_u64. nia. Qed.

Lemma uint_mul32_inv (pn : base_uint) (b32 : Z) (i : nat) :
  uint_wf pn -> is_u32 b32 -> (i <= WIDTH)%nat ->
  let '(r, c) := for_up i (uint_mul32_step b32) (pn, 0) in
  uint_wf r /\ is_u32 c /\ val r + c * pw i = val pn + (b32 - 1) * val (take i pn) /\
  forall j, (i <= j)%nat -> r !!! j = pn !!! j.
Proof.
  intros Hpn Hb Hi.
  apply (for_up_inv (fun i st => let '(r, c) := st in
    uint_wf r /\ is_u32 c /\ val r + c * pw i = val pn + (b32 - 1) * val (take i pn) /\
    forall j, (i <= j)%nat -> r !!! j = pn !!! j)).
  - split; [done|]. split; [auto with words|]. rewrite take_0, val_nil. split; [lia|done].
  - intros k [r c] Hk (Hr & Hc & Hv & Hu). cbn [uint_mul32_step].
    assert (Ht : is_u64 (c + b32 * r !!! k)).
    { replace (c + b32 * r !!! k) with (c + 0 + b32 * r !!! k) by ring.
      apply is_u64_mac; auto with words. }
    split; [auto with words|]. split; [by apply carry_bound|]. split.
    + rewrite (carry_step r k c) by (rewrite ?(uint_wf_length r Hr); lia || done).
      rewrite val_take_S by (rewrite (uint_wf_length pn Hpn); lia).
      rewrite (Hu k) by lia. lia.
    + intros j Hj. rewrite lookup_total_insert_ne by lia. apply Hu. lia.
Qed.

Lemma val_mul32 (pn : base_uint) (b32 : Z) :
  uint_wf pn -> is_u32 b32 ->
  uint_wf (uint_mul32 pn b32) /\ val (uint_mul32 pn b32) = (val pn * b32) mod M256.
Proof.
  intros H1 H2. pose proof (uint_mul32_inv pn b32 WIDTH H1 H2 ltac:(lia)) as H.
  unfold uint_mul32. destruct (for_up _ _ _) as [r c]. destruct H as (Hr & _ & Hv & _).
  split; [done|]. rewrite take_ge in Hv by (rewrite (uint_wf_length pn H1); done).
  apply (val_mod_unique r _ c); [done|]. unfold M256. cbn [fst]. lia.
Qed.

(** Inner loop of the schoolbook product: adds [pnj * b] at digit [j]. *)
Lemma uint_mul_inner (pnj : Z) (a b : base_uint) (j i : nat) :
  uint_wf a -> uint_wf b -> is_u32 pnj -> (i + j <= WIDTH)%nat ->
  let '(r, c) := for_up i (uint_mul_step pnj b j) (a, 0) in
  uint_wf r /\ is_u32 c /\ val r + c * pw (i + j) = val a + pnj * val (take i b) * pw j.
Proof.
  intros Ha Hb Hp Hi.
  apply (for_up_inv (fun i st => let '(r, c) := st in
    uint_wf r /\ is_u32 c /\ val r + c * pw (i + j) = val a + pnj * val (take i b) * pw j)).
  - split; [done|]. split; [auto with words|]. rewrite take_0, val_nil. lia.
  - intros k [r c] Hk (Hr & Hc & Hv). cbn [uint_mul_step].
    assert (Ht : is_u64 (c + r !!! (k + j)%nat + pnj * b !!! k))
      by (apply is_u64_mac; auto with words).
    split; [auto with words|]. split; [by apply carry_bound|].
    rewrite (carry_step r (k + j) c) by (rewrite ?(uint_wf_length r Hr); lia || done).
    rewrite val_take_S by (rewrite (uint_wf_length b Hb); lia).
    rewrite (pw_add k j) in *. nia.
Qed.

Lemma val_take_drop (b : base_uint) (i : nat) :
  (i <= length b)%nat -> val b = val (take i b) + pw i * val (drop i b).
Proof.
  intros Hi. rewrite <- (take_drop i b) at 1. rewrite val_app, length_take.
  by replace (Nat.min i (length b)) with i by lia.
Qed.

Lemma uint_mul_inv (pn b : base_uint) (j : nat) :
  uint_wf pn -> uint_wf b -> (j <= WIDTH)%nat ->
  let a := for_up j
    (fun j a => fst (for_up (WIDTH - j) (uint_mul_step (pn !!! j) b j) (a, 0))) uint_zero in
  uint_wf a /\ exists q, val (take j pn) * val b = M256 * q + val a.
Proof.
  intros Hpn Hb Hj.
  apply (for_up_inv (fun j a => uint_wf a /\ exists q, val (take j pn) * val b = M256 * q + val a)).
  - split; [auto with words|]. exists 0. rewrite take_0, val_nil, val_zero. lia.
  - intros k a Hk (Ha & q & Hq).
    pose proof (uint_mul_inner (pn !!! k) a b k (WIDTH - k) Ha Hb
      (uint_wf_digit _ _ Hpn) ltac:(lia)) as Hin.
    destruct (for_up _ (uint_mul_step _ _ _) _) as [r c]. destruct Hin as (Hr & _ & Hv).
    cbn [fst]. split; [done|].
    rewrite val_take_S by (rewrite (uint_wf_length pn Hpn); lia).
    rewrite (val_take_drop b (WIDTH - k)) by (rewrite (uint_wf_length b Hb); lia).
    rewrite (val_take_drop b (WIDTH - k)) in Hq by (rewrite (uint_wf_length b Hb); lia).
    replace (WIDTH - k + k)%nat with WIDTH in Hv by lia.
    assert (HM : M256 = pw (WIDTH - k) * pw k).
    { unfold M256. rewrite <- pw_add. f_equal. lia. }
    exists (q + c + pn !!! k * val (drop (WIDTH - k) b)). unfold M256 in *. nia.
Qed.

Lemma val_mul (pn b : base_uint) :
  uint_wf pn -> uint_wf b ->
  uint_wf (uint_mul pn b) /\ val (uint_mul pn b) = (val pn * val b) mod M256.
Proof.
  intros H1 H2. destruct (uint_mul_inv pn b WIDTH H1 H2 ltac:(lia)) as (Hw & q & Hq).
  split; [done|]. apply (val_mod_unique _ _ q); [done|].
  by rewrite take_ge in Hq by (rewrite (uint_wf_length pn H1); done).
Qed.

(** ** Shifts *)

(** Writing the bits of [x] into digit [p], which shares no bit with it. *)
Lemma val_or_digit (l : base_uint) (p : nat) (x : Z) :
  (p < length l)%nat -> Z.land (l !!! p) x = 0 ->
  val (<[p := Z.lor (l !!! p) x]> l) = val l + x * pw p.
Proof. intros Hp Hd. rewrite val_insert, lor_add_disjoint by done. ring. Qed.

Lemma is_u32_lor (x y : Z) : is_u32 x -> is_u32 y -> is_u32 (Z.lor x y).
Proof.
  unfold is_u32. intros Hx Hy. split; [rewrite Z.lor_nonneg; lia|].
  destruct (decide (Z.lor x y = 0)) as [->|Hne]; [lia|].
  assert (0 <= Z.lor x y) by (rewrite Z.lor_nonneg; lia).
  apply Z.log2_lt_pow2; [lia|]. rewrite Z.log2_lor by lia.
  destruct (decide (x = 0)) as [->|]; destruct (decide (y = 0)) as [->|];
    rewrite ?(Z.log2_nonpos 0) by lia;
    apply Z.max_lub_lt; try lia; apply Z.log2_lt_pow2; lia.
Qed.

Lemma shl_low (d s : Z) : 0 <= s < 32 -> is_u32 d ->
  u32 (Z.shiftl d s) = (d mod 2 ^ (32 - s)) * 2 ^ s.
Proof.
  intros Hs Hd. unfold u32. rewrite Z.shiftl_mul_pow2 by lia.
  replace (2 ^ 32) with (2 ^ (32 - s) * 2 ^ s) by (rewrite <- Z.pow_add_r by lia; f_equal; lia).
  by rewrite Z.mul_mod_distr_r by lia.
Qed.

(** The two pieces of a digit shifted left by [s] make up the product. *)
Lemma shl_split (d s : Z) : 0 <= s < 32 -> is_u32 d ->
  d * 2 ^ s = 2 ^ 32 * Z.shiftr d (32 - s) + u32 (Z.shiftl d s).
Proof.
  intros Hs Hd. rewrite shl_low, Z.shiftr_div_pow2 by (done || lia).
  replace (2 ^ 32) with (2 ^ (32 - s) * 2 ^ s) by (rewrite <- Z.pow_add_r by lia; f_equal; lia).
  pose proof (Z.div_mod d (2 ^ (32 - s)) ltac:(lia)). nia.
Qed.

Lemma shr_high_bound (d s : Z) : 0 <= s < 32 -> is_u32 d -> 0 <= Z.shiftr d (32 - s) < 2 ^ s.
Proof.
  intros Hs Hd. rewrite Z.shiftr_div_pow2 by lia. unfold is_u32 in Hd.
  split; [apply Z.div_pos; lia|]. apply Z.div_lt_upper_bound; [lia|].
  rewrite <- Z.pow_add_r by lia. replace (32 - s + s) with 32 by lia. lia.
Qed.

Lemma pow2_is_u32 (d s : Z) : 0 <= s <= 32 -> 0 <= d < 2 ^ s -> is_u32 d.
Proof.
  intros Hs Hd. unfold is_u32. split; [lia|]. apply Z.lt_le_trans with (2 ^ s); [lia|].
  apply Z.pow_le_mono_r; lia.
Qed.

Definition shl_inv (a : base_uint) (k : nat) (s : Z) (i : nat) (pn : base_uint) : Prop :=
  uint_wf pn /\
  (exists q, val (take i a) * 2 ^ s * pw k = M256 * q + val pn) /\
  ((i + k < WIDTH)%nat -> 0 <= pn !!! (i + k)%nat < 2 ^ s) /\
  (forall j, (i + k < j < WIDTH)%nat -> pn !!! j = 0).

(** One iteration, the two writes as one sum. *)
Lemma shl_step_spec (a : base_uint) (k : nat) (s : Z) (i : nat) (pn : base_uint) :
  uint_wf a -> 0 <= s < 32 -> (i + k < WIDTH)%nat -> shl_inv a k s i pn ->
  let pn' := uint_shl_step a k s i pn in
  uint_wf pn' /\
  (exists q, val pn' + M256 * q = val pn + a !!! i * 2 ^ s * pw (i + k)) /\
  ((S i + k < WIDTH)%nat -> pn' !!! (S i + k)%nat = Z.shiftr (a !!! i) (32 - s)) /\
  (forall j, (S i + k < j < WIDTH)%nat -> pn' !!! j = 0).
Proof.
  intros Ha Hs Hik (Hw & _ & Hlow & Hz). pose proof (uint_wf_digit a i Ha) as Hd.
  pose proof (shr_high_bound _ s Hs Hd) as Hhi. pose proof (shl_split _ s Hs Hd) as Hsp.
  set (hi := Z.shiftr (a !!! i) (32 - s)) in *.
  set (pn1 := if (i + k + 1 <? WIDTH)%nat && negb (s =? 0) then
      <[(i + k + 1)%nat := Z.lor (pn !!! (i + k + 1)%nat) hi]> pn else pn).
  assert (H1 : uint_wf pn1 /\ pn1 !!! (i + k)%nat = pn !!! (i + k)%nat /\
     (exists q, val pn1 + M256 * q = val pn + hi * pw (S (i + k))) /\
     ((S i + k < WIDTH)%nat -> pn1 !!! (S i + k)%nat = hi) /\
     (forall j, (S i + k < j < WIDTH)%nat -> pn1 !!! j = 0)).
  { subst pn1. destruct (Nat.ltb_spec (i + k + 1) WIDTH) as [Hlt|Hge]; cbn [andb].
    - destruct (Z.eqb_spec s 0) as [->|Hs0]; cbn [negb].
      + assert (hi = 0) as -> by lia. split; [done|]. split; [done|].
        split; [exists 0; lia|]. split; intros; apply Hz; lia.
      + rewrite (Hz (i + k + 1)%nat), Z.lor_0_l by lia.
        split; [apply uint_wf_insert; [done|]; apply (pow2_is_u32 _ s); lia|].
        split; [by rewrite lookup_total_insert_ne by lia|]. split.
        * exists 0. rewrite val_insert, (Hz (i + k + 1)%nat) by (rewrite ?(uint_wf_length pn Hw); lia).
          replace (i + k + 1)%nat with (S (i + k)) by lia. ring.
        * replace (i + k + 1)%nat with (S i + k)%nat by lia. split.
          -- intros _. apply lookup_total_insert_eq. rewrite (uint_wf_length pn Hw). lia.
          -- intros j Hj. rewrite lookup_total_insert_ne by lia. apply Hz. lia.
    - split; [done|]. split; [done|]. split; [|split; intros; lia].
      exists hi. unfold M256. replace WIDTH with (S (i + k)) by lia. ring. }
  destruct H1 as (Hw1 & E1 & (q & Hq) & Hn1 & Hz1).
  change (uint_shl_step a k s i pn) with
    (if (i + k <? WIDTH)%nat then
       <[(i + k)%nat := Z.lor (pn1 !!! (i + k)%nat) (u32 (Z.shiftl (a !!! i) s))]> pn1 else pn1).
  rewrite (proj2 (Nat.ltb_lt _ _) Hik). cbv zeta.
  split; [apply uint_wf_insert; [done|]; apply is_u32_lor; auto with words|]. split.
  - exists q. rewrite val_or_digit.
    + rewrite pw_S in Hq. nia.
    + rewrite (uint_wf_length _ Hw1). lia.
    + rewrite E1, shl_low by (done || lia). apply land_low_high; [lia|by apply Hlow].
  - split; [intros H|intros j Hj]; rewrite lookup_total_insert_ne by lia; auto.
Qed.

Lemma shl_inv_step (a : base_uint) (k : nat) (s : Z) (i : nat) (pn : base_uint) :
  uint_wf a -> 0 <= s < 32 -> (i < WIDTH)%nat ->
  shl_inv a k s i pn -> shl_inv a k s (S i) (uint_shl_step a k s i pn).
Proof.
  intros Ha Hs Hi Hinv.
  assert (HT : val (take (S i) a) = val (take i a) + a !!! i * pw i)
    by (apply val_take_S; rewrite (uint_wf_length a Ha); lia).
  destruct (decide (i + k < WIDTH)%nat) as [Hik|Hik].
  - destruct (shl_step_spec a k s i pn Ha Hs Hik Hinv) as (Hw & (q & Hq) & Hn & Hz).
    destruct Hinv as (_ & (q' & Hq') & _ & _). split; [done|]. split; [|split].
    + exists (q' + q). rewrite HT. rewrite pw_add in Hq. nia.
    + intros H. rewrite Hn by done. apply shr_high_bound; auto with words.
    + done.
  - destruct Hinv as (Hw & (q & Hq) & _ & _). unfold uint_shl_step.
    rewrite (proj2 (Nat.ltb_ge (i + k + 1) _)) by lia. rewrite (proj2 (Nat.ltb_ge (i + k) _)) by lia.
    cbn [andb]. split; [done|]. split; [|split; intros; lia].
    exists (q + a !!! i * 2 ^ s * pw (i + k - WIDTH)). rewrite HT.
    assert (pw i * pw k = M256 * pw (i + k - WIDTH)) as E.
    { unfold M256. rewrite <- !pw_add. f_equal. lia. }
    transitivity (val (take i a) * 2 ^ s * pw k + a !!! i * 2 ^ s * (pw i * pw k)); [ring|].
    rewrite E, Hq. ring.
Qed.

Lemma shift_split (shift : Z) : 0 <= shift ->
  0 <= shift mod 32 < 32 /\ 2 ^ shift = 2 ^ (shift mod 32) * pw (Z.to_nat (shift / 32)).
Proof.
  intros H. pose proof (Z.mod_pos_bound shift 32 eq_refl). split; [done|].
  unfold pw. rewrite Z2Nat.id by (apply Z.div_pos; lia).
  rewrite <- Z.pow_add_r by (try apply Z.mul_nonneg_nonneg; try apply Z.div_pos; lia).
  f_equal. rewrite Z.add_comm. by apply Z_div_mod_eq_full.
Qed.

Lemma val_shl (a : base_uint) (shift : Z) :
  uint_wf a -> 0 <= shift ->
  uint_wf (uint_shl a shift) /\ val (uint_shl a shift) = (val a * 2 ^ shift) mod M256.
Proof.
  intros Ha Hs. destruct (shift_split shift Hs) as [Hm Hp]. unfold uint_shl.
  set (k := Z.to_nat (shift / 32)) in *. set (s := shift mod 32) in *.
  assert (H : shl_inv a k s WIDTH (for_up WIDTH (uint_shl_step a k s) uint_zero)).
  { apply for_up_inv.
    - split; [auto with words|]. split; [exists 0; rewrite take_0, val_nil, val_zero; lia|].
      assert (forall j, (j < WIDTH)%nat -> uint_zero !!! j = 0) as E.
      { intros j Hj. unfold uint_zero. by rewrite list_lookup_total_alt, lookup_replicate_2. }
      split; [intros; rewrite E by lia; lia|intros; apply E; lia].
    - intros i pn Hi. by apply shl_inv_step. }
  destruct H as (Hw & (q & Hq) & _). split; [done|]. apply (val_mod_unique _ _ q); [done|].
  rewrite take_ge in Hq by (rewrite (uint_wf_length a Ha); done). rewrite Hp, <- Hq. ring.
Qed.

Lemma uint_zero_digit (j : nat) : (j < WIDTH)%nat -> uint_zero !!! j = 0.
Proof. intros Hj. unfold uint_zero. by rewrite list_lookup_total_alt, lookup_replicate_2. Qed.

Lemma shr_low (d s : Z) : 0 < s < 32 -> is_u32 d ->
  u32 (Z.shiftl d (32 - s)) = (d mod 2 ^ s) * 2 ^ (32 - s).
Proof.
  intros Hs Hd. rewrite shl_low by (done || lia). by replace (32 - (32 - s)) with s by lia.
Qed.

Lemma shr_bound (d s : Z) : 0 <= s < 32 -> is_u32 d -> 0 <= Z.shiftr d s < 2 ^ (32 - s).
Proof.
  intros Hs Hd. rewrite Z.shiftr_div_pow2 by lia. unfold is_u32 in Hd.
  split; [apply Z.div_pos; lia|]. apply Z.div_lt_upper_bound; [lia|].
  rewrite <- Z.pow_add_r by lia. replace (s + (32 - s)) with 32 by lia. lia.
Qed.

Definition shr_inv (a : base_uint) (k : nat) (s : Z) (i : nat) (pn : base_uint) : Prop :=
  uint_wf pn /\
  val pn = val (take i a) / (2 ^ s * pw k) /\
  ((k < i)%nat -> 0 <= pn !!! (i - k - 1)%nat < 2 ^ (32 - s)) /\
  (forall j, (i - k <= j < WIDTH)%nat -> pn !!! j = 0).

(** The digits of [a] below position [i] stay below the weight of [i]. *)
Lemma val_take_bound (a : base_uint) (i : nat) :
  uint_wf a -> (i <= WIDTH)%nat -> 0 <= val (take i a) < pw i.
Proof.
  intros [Hl Hf] Hi. pose proof (val_bound (take i a) (Forall_take _ _ _ Hf)) as H.
  rewrite length_take, Hl in H. by replace (Nat.min i WIDTH) with i in H by lia.
Qed.

(** Adding digit [i > k] to the dividend adds an exact multiple of the divisor. *)
Lemma shr_div_step (v d s : Z) (i k : nat) :
  0 <= s < 32 -> (k < i)%nat ->
  (v + d * pw i) / (2 ^ s * pw k) = v / (2 ^ s * pw k) + d * 2 ^ (32 - s) * pw (i - k - 1).
Proof.
  intros Hs Hki.
  assert (E : pw i = 2 ^ (32 - s) * pw (i - k - 1) * (2 ^ s * pw k)).
  { replace i with ((i - k - 1) + S k)%nat at 1 by lia. rewrite pw_add, pw_S.
    replace (2 ^ 32) with (2 ^ (32 - s) * 2 ^ s) by (rewrite <- Z.pow_add_r by lia; f_equal; lia).
    ring. }
  rewrite E. rewrite <- Z.div_add by (pose proof (pw_pos k); nia). f_equal. ring.
Qed.

Lemma shr_inv_step_gt (a : base_uint) (k : nat) (s : Z) (i : nat) (pn : base_uint) :
  uint_wf a -> 0 <= s < 32 -> (k < i < WIDTH)%nat ->
  shr_inv a k s i pn -> shr_inv a k s (S i) (uint_shr_step a k s i pn).
Proof.
  intros Ha Hs Hi (Hw & Hv & Hlow & Hz). pose proof (uint_wf_digit a i Ha) as Hd.
  pose proof (shr_bound _ s Hs Hd) as Hb.
  assert (HT : val (take (S i) a) = val (take i a) + a !!! i * pw i)
    by (apply val_take_S; rewrite (uint_wf_length a Ha); lia).
  set (pn1 := if (k + 1 <=? i)%nat && negb (s =? 0) then
      <[(i - k - 1)%nat := Z.lor (pn !!! (i - k - 1)%nat) (u32 (Z.shiftl (a !!! i) (32 - s)))]> pn
    else pn).
  assert (H1 : uint_wf pn1 /\ (forall j, (i - k <= j < WIDTH)%nat -> pn1 !!! j = 0) /\
     val pn1 = val pn + ((a !!! i) mod 2 ^ s) * 2 ^ (32 - s) * pw (i - k - 1)).
  { subst pn1. rewrite (proj2 (Nat.leb_le _ _)) by lia. cbn [andb].
    destruct (Z.eqb_spec s 0) as [->|Hs0]; cbn [negb].
    - split; [done|]. split; [done|]. rewrite Z.pow_0_r, Z.mod_1_r. lia.
    - split; [apply uint_wf_insert; [done|]; apply is_u32_lor; auto with words|]. split.
      + intros j Hj. rewrite lookup_total_insert_ne by lia. by apply Hz.
      + rewrite val_or_digit; [by rewrite shr_low by (done || lia)| |].
        * rewrite (uint_wf_length pn Hw). lia.
        * rewrite shr_low by (done || lia). apply land_low_high; [lia|]. apply Hlow. lia. }
  destruct H1 as (Hw1 & Hz1 & Hv1).
  change (uint_shr_step a k s i pn) with
    (if (k <=? i)%nat then
      <[(i - k)%nat := Z.lor (pn1 !!! (i - k)%nat) (Z.shiftr (a !!! i) s)]> pn1 else pn1).
  rewrite (proj2 (Nat.leb_le _ _)) by lia. rewrite Hz1, Z.lor_0_l by lia.
  split; [apply uint_wf_insert; [done|]; apply (pow2_is_u32 _ (32 - s)); lia|]. split.
  - rewrite val_insert by (rewrite (uint_wf_length _ Hw1); lia). rewrite Hz1 by lia.
    rewrite HT, shr_div_step by lia. rewrite Hv1, <- Hv.
    replace (i - k)%nat with (S (i - k - 1)) by lia. rewrite pw_S, Z.shiftr_div_pow2 by lia.
    pose proof (Z.div_mod (a !!! i) (2 ^ s) ltac:(lia)) as Hdm.
    replace (2 ^ 32) with (2 ^ (32 - s) * 2 ^ s) by (rewrite <- Z.pow_add_r by lia; f_equal; lia).
    rewrite Hdm at 3. replace (S (i - k - 1) - 1)%nat with (i - k - 1)%nat by lia. ring.
  - replace (S i - k - 1)%nat with (i - k)%nat by lia. split.
    + intros _. rewrite lookup_total_insert_eq by (rewrite (uint_wf_length _ Hw1); lia). done.
    + intros j Hj. rewrite lookup_total_insert_ne by lia. apply Hz1. lia.
Qed.

Lemma shr_inv_step_le (a : base_uint) (k : nat) (s : Z) (i : nat) (pn : base_uint) :
  uint_wf a -> 0 <= s < 32 -> (i < WIDTH)%nat -> (i <= k)%nat ->
  shr_inv a k s i pn -> shr_inv a k s (S i) (uint_shr_step a k s i pn).
Proof.
  intros Ha Hs Hi Hik (Hw & Hv & Hlow & Hz). pose proof (uint_wf_digit a i Ha) as Hd.
  pose proof (shr_bound _ s Hs Hd) as Hb. unfold uint_shr_step.
  rewrite (proj2 (Nat.leb_gt (k + 1) _)) by lia. cbn [andb].
  assert (HT : val (take (S i) a) = val (take i a) + a !!! i * pw i)
    by (apply val_take_S; rewrite (uint_wf_length a Ha); lia).
  pose proof (val_take_bound a i Ha ltac:(lia)) as Hti. pose proof (pw_pos k) as Hpk.
  assert (Hv0 : val pn = 0).
  { rewrite Hv. apply Z.div_small. split; [lia|]. pose proof (pw_le i k Hik). nia. }
  destruct (Nat.leb_spec k i) as [Hki|Hki].
  - assert (k = i) as -> by lia. rewrite Nat.sub_diag.
    rewrite (Hz 0%nat), Z.lor_0_l by lia.
    split; [apply uint_wf_insert; [done|]; apply (pow2_is_u32 _ (32 - s)); lia|]. split.
    + rewrite val_insert by (rewrite (uint_wf_length _ Hw); lia).
      rewrite (Hz 0%nat), Hv0, HT, pw_0, Z.shiftr_div_pow2 by lia.
      rewrite (Z.mul_comm (2 ^ s)), <- Z.div_div by lia.
      rewrite Z.div_add by lia. rewrite (Z.div_small (val _)) by lia. rewrite !Z.add_0_l. ring.
    + replace (S i - i - 1)%nat with 0%nat by lia. split.
      * intros _. rewrite lookup_total_insert_eq by (rewrite (uint_wf_length _ Hw); lia). done.
      * intros j Hj. rewrite lookup_total_insert_ne by lia. apply Hz. lia.
  - split; [done|]. split; [|split; [lia|intros j Hj; apply Hz; lia]].
    rewrite Hv0. symmetry. apply Z.div_small.
    pose proof (val_take_bound a (S i) Ha ltac:(lia)) as Hts.
    split; [lia|]. pose proof (pw_le (S i) k ltac:(lia)). nia.
Qed.

Lemma val_shr (a : base_uint) (shift : Z) :
  uint_wf a -> 0 <= shift ->
  uint_wf (uint_shr a shift) /\ val (uint_shr a shift) = val a / 2 ^ shift.
Proof.
  intros Ha Hs. destruct (shift_split shift Hs) as [Hm Hp]. unfold uint_shr.
  set (k := Z.to_nat (shift / 32)) in *. set (s := shift mod 32) in *.
  assert (H : shr_inv a k s WIDTH (for_up WIDTH (uint_shr_step a k s) uint_zero)).
  { apply for_up_inv.
    - split; [auto with words|]. rewrite take_0, val_nil, val_zero, Z.div_0_l
        by (pose proof (pw_pos k); nia).
      split; [done|]. split; [lia|]. intros j Hj. apply uint_zero_digit. lia.
    - intros i pn Hi Hinv. destruct (decide (i <= k)%nat).
      + by apply shr_inv_step_le.
      + apply shr_inv_step_gt; [done|done|lia|done]. }
  destruct H as (Hw & Hv & _). split; [done|].
  rewrite take_ge in Hv by (rewrite (uint_wf_length a Ha); done). by rewrite Hp, Hv.
Qed.

(** ** Comparison *)

Lemma CompareTo_loop_spec (n : nat) (pn b : base_uint) :
  uint_wf pn -> uint_wf b -> (n <= WIDTH)%nat ->
  CompareTo_loop n pn b =
    match val (take n pn) ?= val (take n b) with Lt => -1 | Eq => 0 | Gt => 1 end.
Proof.
  intros Hp Hb. induction n as [|i IH]; intros Hn; cbn [CompareTo_loop]; [done|].
  rewrite !val_take_S by (rewrite ?(uint_wf_length pn Hp), ?(uint_wf_length b Hb); lia).
  pose proof (val_take_bound pn i Hp ltac:(lia)). pose proof (val_take_bound b i Hb ltac:(lia)).
  destruct (Z.ltb_spec (pn !!! i) (b !!! i)) as [H1|H1].
  { rewrite (proj2 (Z.compare_lt_iff _ _)) by nia. done. }
  destruct (Z.ltb_spec (b !!! i) (pn !!! i)) as [H2|H2].
  { rewrite (proj2 (Z.compare_gt_iff _ _)) by nia. done. }
  rewrite IH by lia. replace (b !!! i) with (pn !!! i) by lia.
  by rewrite !(Z.add_comm _ (pn !!! i * pw i)), Z.add_compare_mono_l.
Qed.

Lemma CompareTo_spec (pn b : base_uint) :
  uint_wf pn -> uint_wf b ->
  CompareTo pn b = match val pn ?= val b with Lt => -1 | Eq => 0 | Gt => 1 end.
Proof.
  intros Hp Hb. unfold CompareTo. rewrite CompareTo_loop_spec by done.
  by rewrite !take_ge by (rewrite ?(uint_wf_length pn Hp), ?(uint_wf_length b Hb); done).
Qed.

Lemma uint_ltb_spec (a b : base_uint) :
  uint_wf a -> uint_wf b -> uint_ltb a b = (val a <? val b).
Proof. intros. unfold uint_ltb. rewrite CompareTo_spec by done. unfold Z.ltb. by destruct (val a ?= val b). Qed.

Lemma uint_gtb_spec (a b : base_uint) :
  uint_wf a -> uint_wf b -> uint_gtb a b = (val b <? val a).
Proof.
  intros. unfold uint_gtb. rewrite CompareTo_spec by done. unfold Z.ltb.
  rewrite (Z.compare_antisym (val a) (val b)). by destruct (val a ?= val b).
Qed.

Lemma uint_geb_spec (a b : base_uint) :
  uint_wf a -> uint_wf b -> uint_geb a b = (val b <=? val a).
Proof.
  intros. unfold uint_geb. rewrite CompareTo_spec by done. unfold Z.leb at 2.
  rewrite (Z.compare_antisym (val a) (val b)). by destruct (val a ?= val b).
Qed.

(** ** Digits of the value *)

Lemma digit_val (l : base_uint) (i : nat) :
  uint_wf l -> (i < WIDTH)%nat -> l !!! i = (val l / pw i) mod 2 ^ 32.
Proof.
  intros Hl Hi. symmetry. pose proof (uint_wf_digit l i Hl) as Hd.
  rewrite (val_take_drop l i) by (rewrite (uint_wf_length l Hl); lia).
  rewrite Z.mul_comm, Z.div_add by (pose proof (pw_pos i); lia).
  rewrite (Z.div_small (val (take i l))) by (apply val_take_bound; [done|lia]).
  rewrite (drop_S l (l !!! i) i)
    by (apply list_lookup_lookup_total_lt; rewrite (uint_wf_length l Hl); lia).
  rewrite val_cons, Z.add_0_l. by apply (mod_unique_pos _ _ (val (drop (S i) l))); [|lia].
Qed.

Lemma testbit_digit (l : base_uint) (i : nat) (r : Z) :
  uint_wf l -> (i < WIDTH)%nat -> 0 <= r < 32 ->
  Z.testbit (l !!! i) r = Z.testbit (val l) (32 * Z.of_nat i + r).
Proof.
  intros Hl Hi Hr. rewrite (digit_val l i) by done. rewrite Z.mod_pow2_bits_low by lia.
  unfold pw. rewrite Z.div_pow2_bits by lia. f_equal. lia.
Qed.

(** ** [of_u64], [GetLow64] and [EqualTo] *)

Lemma of_u64_wf (b : Z) : uint_wf (of_u64 b).
Proof. unfold of_u64. auto with words. Qed.

Lemma val_of_u64 (b : Z) : is_u64 b -> val (of_u64 b) = b.
Proof.
  intros Hb. unfold of_u64, uint_zero, WIDTH.
  cbn -[u32 Z.mul Z.add Z.pow Z.shiftr]. unfold u32, is_u64 in *.
  rewrite Z.shiftr_div_pow2 by lia.
  rewrite (Z.mod_small (b / 2 ^ 32))
    by (split; [apply Z.div_pos; lia | apply Z.div_lt_upper_bound; lia]).
  pose proof (Z.div_mod b (2 ^ 32)). lia.
Qed.

Lemma GetLow64_spec (pn : base_uint) : uint_wf pn -> GetLow64 pn = val pn mod 2 ^ 64.
Proof.
  intros H. unfold GetLow64. pose proof (uint_wf_digit pn 0 H) as H0.
  pose proof (uint_wf_digit pn 1 H) as H1. rewrite Z.shiftl_mul_pow2 by lia.
  rewrite lor_add_disjoint by (apply land_low_high; [lia|done]). symmetry.
  destruct pn as [|d0 [|d1 l]]; try (destruct H as [H _]; unfold WIDTH in H; cbn in H; lia).
  cbn [lookup_total list_lookup_total] in *. rewrite !val_cons.
  apply (mod_unique_pos _ _ (val l)); unfold is_u32 in *; [lia|ring].
Qed.

Lemma EqualTo_high_spec (n : nat) (pn : base_uint) :
  uint_wf pn -> (n + 2 <= WIDTH)%nat ->
  EqualTo_high n pn = (val (take (n + 2) pn) =? val (take 2 pn)).
Proof.
  intros H. induction n as [|n IH]; intros Hn; cbn [EqualTo_high]; [by rewrite Z.eqb_refl|].
  change (S n + 2)%nat with (S (n + 2)).
  rewrite val_take_S by (rewrite (uint_wf_length pn H); lia).
  pose proof (pw_pos (n + 2)). pose proof (uint_wf_digit pn (n + 2) H) as Hd.
  pose proof (val_take_bound pn (n + 2) H ltac:(lia)) as Hb1.
  pose proof (val_take_bound pn 2 H ltac:(lia)) as Hb2.
  pose proof (pw_le 2 (n + 2) ltac:(lia)). unfold is_u32 in Hd.
  destruct (Z.eqb_spec (pn !!! (n + 2)%nat) 0) as [->|E]; [rewrite IH by lia; f_equal; ring|].
  symmetry. apply Z.eqb_neq. nia.
Qed.

Lemma EqualTo_spec (pn : base_uint) (b : Z) :
  uint_wf pn -> is_u64 b -> EqualTo pn b = (val pn =? b).
Proof.
  intros H Hb. unfold EqualTo. rewrite EqualTo_high_spec by (done || (unfold WIDTH; lia)).
  rewrite (take_ge pn) by (rewrite (uint_wf_length pn H); unfold WIDTH; lia).
  pose proof (uint_wf_digit pn 0 H) as H0. pose proof (uint_wf_digit pn 1 H) as H1.
  assert (Hv : val (take 2 pn) = pn !!! 0%nat + 2 ^ 32 * pn !!! 1%nat).
  { rewrite !val_take_S by (rewrite (uint_wf_length pn H); unfold WIDTH; lia).
    rewrite take_0, val_nil, pw_S, pw_0. ring. }
  pose proof (split32 b) as Hs. pose proof (land_low32_u32 b) as Hl.
  assert (0 <= Z.shiftr b 32 < 2 ^ 32) as Hh.
  { rewrite Z.shiftr_div_pow2 by lia. unfold is_u64 in Hb.
    split; [apply Z.div_pos; lia | apply Z.div_lt_upper_bound; lia]. }
  pose proof (val_take_drop pn 2 ltac:(rewrite (uint_wf_length pn H); unfold WIDTH; lia)) as Hd.
  assert (0 <= val (drop 2 pn)) as Hd0.
  { apply val_bound, Forall_drop. by destruct H. }
  assert (pw 2 = 2 ^ 64) as E2 by done. unfold is_u64, is_u32 in *.
  destruct (Z.eqb_spec (val pn) (val (take 2 pn))) as [E|E].
  - destruct (Z.eqb_spec (pn !!! 1%nat) (Z.shiftr b 32)); cbn [negb];
      [destruct (Z.eqb_spec (pn !!! 0%nat) (Z.land b 0xffffffff)); cbn [negb]|];
      symmetry; rewrite ?Z.eqb_eq, ?Z.eqb_neq; nia.
  - symmetry. apply Z.eqb_neq. nia.
Qed.

#[export] Hint Resolve of_u64_wf uint_add_wf uint_sub_wf : words.

(** ** Bit length *)

(** Number of bits of a natural number. *)
Definition bitlen (v : Z) : Z := if v =? 0 then 0 else Z.log2 v + 1.

Lemma bitlen_pos (v : Z) : 0 < v -> 2 ^ (bitlen v - 1) <= v < 2 ^ bitlen v.
Proof.
  intros Hv. unfold bitlen. rewrite (proj2 (Z.eqb_neq v 0)) by lia.
  replace (Z.log2 v + 1 - 1) with (Z.log2 v) by lia.
  by apply Z.log2_spec.
Qed.

Lemma bitlen_nonneg (v : Z) : 0 <= bitlen v.
Proof. unfold bitlen. destruct (v =? 0); [lia|]. pose proof (Z.log2_nonneg v). lia. Qed.

Lemma bitlen_0_iff (v : Z) : bitlen v = 0 <-> v = 0.
Proof.
  unfold bitlen. destruct (Z.eqb_spec v 0); [done|]. pose proof (Z.log2_nonneg v). lia.
Qed.

Lemma bitlen_upper (v w : Z) : 0 <= v < 2 ^ w -> 0 <= w -> bitlen v <= w.
Proof.
  intros Hv Hw. unfold bitlen. destruct (Z.eqb_spec v 0); [done|].
  pose proof (Z.log2_lt_pow2 v w ltac:(lia)). lia.
Qed.

Lemma bitlen_lt (v : Z) : 0 <= v -> v < 2 ^ bitlen v.
Proof.
  intros Hv. destruct (decide (v = 0)) as [->|]; [done|]. by apply bitlen_pos; lia.
Qed.

Lemma bits_in_digit_spec (n : nat) (d pos : Z) :
  0 < d < 2 ^ (Z.of_nat n + 1) -> bits_in_digit n d pos = 32 * pos + bitlen d.
Proof.
  induction n as [|n IH]; intros Hd; cbn [bits_in_digit].
  - by assert (d = 1) as -> by lia.
  - assert (Ht : negb (Z.land d (Z.shiftl 1 (Z.of_nat (S n))) =? 0) = Z.testbit d (Z.of_nat (S n))).
    { rewrite Z.shiftl_1_l. destruct (Z.testbit d (Z.of_nat (S n))) eqn:E.
      - apply negb_true_iff, Z.eqb_neq. intros H0.
        assert (Z.testbit (Z.land d (2 ^ Z.of_nat (S n))) (Z.of_nat (S n)) = true) as H1.
        { rewrite Z.land_spec, E, Z.pow2_bits_true by lia. done. }
        by rewrite H0, Z.bits_0 in H1.
      - apply negb_false_iff, Z.eqb_eq, Z.bits_inj'. intros i Hi.
        rewrite Z.land_spec, Z.bits_0. destruct (decide (i = Z.of_nat (S n))) as [->|Hne].
        + by rewrite E.
        + by rewrite Z.pow2_bits_false, andb_false_r by lia. }
    rewrite Ht. destruct (decide (2 ^ Z.of_nat (S n) <= d)) as [Hge|Hlt].
    + assert (Z.log2 d = Z.of_nat (S n)) as El
        by (apply Z.log2_unique; rewrite ?Z.add_1_r in *; lia).
      rewrite <- El, Z.bit_log2, El by lia. unfold bitlen.
      rewrite (proj2 (Z.eqb_neq d 0)), El by lia. lia.
    + rewrite (testbit_ge_width d (Z.of_nat (S n))) by lia. apply IH.
      replace (Z.of_nat n + 1) with (Z.of_nat (S n)) by lia. lia.
Qed.

Lemma bitlen_shift (v d : Z) (i : nat) :
  0 <= v < pw i -> 0 < d -> bitlen (v + d * pw i) = 32 * Z.of_nat i + bitlen d.
Proof.
  intros Hv Hd. pose proof (bitlen_pos d Hd) as Hb. pose proof (bitlen_nonneg d).
  pose proof (pw_pos i). unfold bitlen at 1. rewrite (proj2 (Z.eqb_neq _ 0)) by nia.
  assert (1 <= bitlen d) as Hb1.
  { assert (bitlen d <> 0) by (rewrite bitlen_0_iff; lia). lia. }
  rewrite (Z.log2_unique _ (32 * Z.of_nat i + (bitlen d - 1))); [lia|lia|].
  replace (Z.succ (32 * Z.of_nat i + (bitlen d - 1))) with (32 * Z.of_nat i + bitlen d) by lia.
  rewrite !Z.pow_add_r by lia. fold (pw i). nia.
Qed.

Lemma bits_loop_spec (n : nat) (pn : base_uint) :
  uint_wf pn -> (n <= WIDTH)%nat -> bits_loop n pn = bitlen (val (take n pn)).
Proof.
  intros H. induction n as [|i IH]; intros Hn; cbn [bits_loop]; [done|].
  rewrite val_take_S by (rewrite (uint_wf_length pn H); lia).
  pose proof (uint_wf_digit pn i H) as Hd. unfold is_u32 in Hd.
  destruct (Z.eqb_spec (pn !!! i) 0) as [->|E]; cbn [negb].
  - rewrite IH by lia. f_equal. ring.
  - rewrite bits_in_digit_spec by (change (2 ^ (Z.of_nat 31 + 1)) with (2 ^ 32); lia).
    rewrite bitlen_shift; [done| |lia]. apply val_take_bound; [done|lia].
Qed.

Lemma bits_spec (pn : base_uint) : uint_wf pn -> bits pn = bitlen (val pn).
Proof.
  intros H. unfold bits. rewrite bits_loop_spec by done.
  by rewrite take_ge by (rewrite (uint_wf_length pn H); done).
Qed.

Lemma bits_le_256 (pn : base_uint) : uint_wf pn -> 0 <= bits pn <= 256.
Proof.
  intros H. rewrite bits_spec by done. split; [apply bitlen_nonneg|].
  apply bitlen_upper; [by apply uint_val_bound|lia].
Qed.

(** ** Division *)

(** Setting quotient bit [shift], which is still clear. *)
Lemma div_set_bit (q : base_uint) (shift : nat) (m : Z) :
  uint_wf q -> (shift < 256)%nat -> val q = m * 2 ^ Z.of_nat (S shift) ->
  let w := Z.to_nat (Z.of_nat shift / 32) in
  let q' := <[w := Z.lor (q !!! w) (Z.shiftl 1 (Z.land (Z.of_nat shift) 31))]> q in
  uint_wf q' /\ val q' = val q + 2 ^ Z.of_nat shift.
Proof.
  intros Hq Hs Hm. change 31 with (Z.ones 5). rewrite Z.land_ones by lia. change (2 ^ 5) with 32.
  set (r := Z.of_nat shift mod 32). pose proof (Z.mod_pos_bound (Z.of_nat shift) 32 eq_refl) as Hr.
  fold r in Hr. pose proof (Z.div_mod (Z.of_nat shift) 32 ltac:(lia)) as Hdm. fold r in Hdm.
  cbv zeta. rewrite Z.shiftl_1_l.
  set (w := Z.to_nat (Z.of_nat shift / 32)).
  assert (Hw : 0 <= Z.of_nat shift / 32 < 8) by lia.
  assert (Ew : Z.of_nat w = Z.of_nat shift / 32) by (subst w; lia).
  split.
  - apply uint_wf_insert; [done|]. apply is_u32_lor; [auto with words|].
    unfold is_u32. split; [lia|]. apply Z.pow_lt_mono_r; lia.
  - rewrite val_or_digit.
    + unfold pw. rewrite <- Z.pow_add_r by lia. f_equal. f_equal. lia.
    + rewrite (uint_wf_length q Hq). unfold WIDTH. lia.
    + apply Z.bits_inj'. intros i Hi. rewrite Z.land_spec, Z.bits_0.
      destruct (decide (i = r)) as [->|Hne].
      * rewrite testbit_digit by (done || (unfold WIDTH; lia)).
        replace (32 * Z.of_nat w + r) with (Z.of_nat shift) by lia.
        by rewrite Hm, Z.mul_pow2_bits_low by lia.
      * by rewrite Z.pow2_bits_false, andb_false_r by lia.
Qed.

Lemma uint_div_loop_spec (n : nat) (num div q : base_uint) (D m : Z) :
  uint_wf num -> uint_wf div -> uint_wf q -> 0 < D -> (n <= 256)%nat ->
  ((0 < n)%nat -> val div = D * 2 ^ (Z.of_nat n - 1)) ->
  val num < D * 2 ^ Z.of_nat n -> val q = m * 2 ^ Z.of_nat n ->
  uint_wf (uint_div_loop n num div q) /\ val (uint_div_loop n num div q) = val q + val num / D.
Proof.
  revert num div q m; induction n as [|shift IH];
    intros num div q m Hnum Hdiv Hq HD Hn Hd Hlt Hm; cbn [uint_div_loop].
  { split; [done|]. pose proof (uint_val_bound num Hnum). rewrite Z.div_small by lia. lia. }
  specialize (Hd ltac:(lia)). replace (Z.of_nat (S shift) - 1) with (Z.of_nat shift) in Hd by lia.
  assert (Hpow : 2 ^ Z.of_nat (S shift) = 2 * 2 ^ Z.of_nat shift)
    by (rewrite Nat2Z.inj_succ, Z.pow_succ_r by lia; done).
  destruct (val_shr div 1 Hdiv ltac:(lia)) as [Hdw Hdv].
  assert (Hd' : (0 < shift)%nat -> val (uint_shr div 1) = D * 2 ^ (Z.of_nat shift - 1)).
  { intros Hs. rewrite Hdv, Hd.
    replace (2 ^ Z.of_nat shift) with (2 ^ (Z.of_nat shift - 1) * 2 ^ 1)
      by (rewrite <- Z.pow_add_r by lia; f_equal; lia).
    by rewrite Z.mul_assoc, Z.div_mul by lia. }
  rewrite uint_geb_spec by done. pose proof (uint_val_bound num Hnum) as Hnb.
  destruct (Z.leb_spec (val div) (val num)) as [Hge|Hl].
  - destruct (div_set_bit q shift m Hq ltac:(lia) Hm) as [Hqw Hqv].
    assert (Hs : val (uint_sub num div) = val num - val div).
    { rewrite val_sub by done. apply Z.mod_small. pose proof (uint_val_bound div Hdiv). lia. }
    destruct (IH (uint_sub num div) (uint_shr div 1) _ (2 * m + 1)
      ltac:(auto with words) Hdw Hqw HD ltac:(lia) Hd') as [H1 H2].
    + rewrite Hs. lia.
    + rewrite Hqv, Hm, Hpow. ring.
    + split; [exact H1|]. rewrite H2, Hqv, Hs, Hd.
      replace (val num - D * 2 ^ Z.of_nat shift) with (val num + - 2 ^ Z.of_nat shift * D) by ring.
      rewrite Z.div_add by lia. lia.
  - apply (IH num (uint_shr div 1) q (2 * m)); try done; [lia|lia|]. rewrite Hm, Hpow. ring.
Qed.

(** Division is exact integer division, and throws exactly on zero. *)
Lemma uint_div_spec (pn b : base_uint) :
  uint_wf pn -> uint_wf b ->
  match uint_div pn b with
  | None => val b = 0
  | Some q => val b <> 0 /\ uint_wf q /\ val q = val pn / val b
  end.
Proof.
  intros Hp Hb. unfold uint_div. rewrite !bits_spec by done.
  pose proof (uint_val_bound pn Hp) as Hpb. pose proof (uint_val_bound b Hb) as Hbb.
  destruct (Z.eqb_spec (bitlen (val b)) 0) as [E|E]; [by apply bitlen_0_iff|].
  assert (Hb0 : 0 < val b) by (rewrite bitlen_0_iff in E; lia).
  pose proof (bitlen_pos _ Hb0) as Hbl. pose proof (bitlen_lt (val pn) ltac:(lia)) as Hpl.
  pose proof (bitlen_nonneg (val b)) as Hn.
  assert (bitlen (val pn) <= 256) as H256 by (apply bitlen_upper; [exact Hpb|lia]).
  rewrite Z.gtb_ltb. destruct (Z.ltb_spec (bitlen (val pn)) (bitlen (val b))) as [Hlt|Hge].
  - split; [lia|]. split; [auto with words|]. rewrite val_zero. symmetry. apply Z.div_small.
    pose proof (Z.pow_le_mono_r 2 (bitlen (val pn)) (bitlen (val b) - 1)). lia.
  - set (shift := bitlen (val pn) - bitlen (val b)) in *.
    destruct (val_shl b shift Hb ltac:(lia)) as [Hsw Hsv].
    assert (E1 : 2 ^ bitlen (val pn) = 2 ^ shift * 2 ^ bitlen (val b))
      by (rewrite <- Z.pow_add_r by lia; f_equal; lia).
    assert (E2 : 2 ^ bitlen (val b) = 2 * 2 ^ (bitlen (val b) - 1))
      by (rewrite <- Z.pow_succ_r by lia; f_equal; lia).
    assert (HM : 2 ^ bitlen (val pn) <= M256) by (apply (Z.pow_le_mono_r 2 _ 256); lia).
    assert (Hsv' : val (uint_shl b shift) = val b * 2 ^ shift)
      by (rewrite Hsv; apply Z.mod_small; nia).
    destruct (uint_div_loop_spec (Z.to_nat (shift + 1)) pn (uint_shl b shift) uint_zero (val b) 0)
      as [H1 H2]; try done; auto with words.
    + lia.
    + intros _. rewrite Hsv'. f_equal. f_equal. lia.
    + replace (2 ^ Z.of_nat (Z.to_nat (shift + 1))) with (2 * 2 ^ shift)
        by (rewrite <- Z.pow_succ_r by lia; f_equal; lia). nia.
    + split; [lia|]. split; [done|]. rewrite H2, val_zero. lia.
Qed.

(** ** The compact format *)

(** Mantissa and exponent that [GetCompact] computes for the number [v]. *)
Definition compact_parts (v : Z) : Z * Z :=
  let nSize := (bitlen v + 7) / 8 in
  let m := if nSize <=? 3 then v * 2 ^ (8 * (3 - nSize)) else v / 2 ^ (8 * (nSize - 3)) in
  if 2 ^ 23 <=? m then (m / 2 ^ 8, nSize + 1) else (m, nSize).

(** The number encoded by mantissa [m] and exponent [e]. *)
Definition compact_value (m e : Z) : Z :=
  if e <=? 3 then m / 2 ^ (8 * (3 - e)) else m * 2 ^ (8 * (e - 3)).

Lemma land_bit (m k : Z) : 0 <= k -> 0 <= m < 2 ^ (k + 1) -> (Z.land m (2 ^ k) =? 0) = (m <? 2 ^ k).
Proof.
  intros Hk Hm. destruct (Z.ltb_spec m (2 ^ k)) as [H|H].
  - apply Z.eqb_eq. rewrite <- (Z.mul_1_l (2 ^ k)). apply land_low_high; lia.
  - apply Z.eqb_neq. intros E.
    assert (Z.testbit (Z.land m (2 ^ k)) k = true) as Ht.
    { rewrite Z.land_spec, Z.pow2_bits_true, andb_true_r by lia.
      rewrite Z.testbit_true by lia. rewrite Z.pow_add_r in Hm by lia.
      assert (m / 2 ^ k = 1) as -> by (symmetry; apply (Z.div_unique_pos _ _ 1 (m - 2 ^ k)); lia).
      done. }
    by rewrite E, Z.bits_0 in Ht.
Qed.

Lemma bytes_of_bitlen (v : Z) : 0 <= v ->
  let n := (bitlen v + 7) / 8 in
  0 <= n /\ v < 2 ^ (8 * n) /\ (0 < v -> 0 < n /\ 2 ^ (8 * (n - 1)) <= v).
Proof.
  intros Hv. pose proof (bitlen_nonneg v) as Hb. pose proof (bitlen_lt v Hv) as Hl.
  cbv zeta. set (n := (bitlen v + 7) / 8).
  assert (Hn : bitlen v <= 8 * n <= bitlen v + 7) by (subst n; div_lia).
  split; [lia|]. split.
  - apply Z.lt_le_trans with (2 ^ bitlen v); [done|]. apply Z.pow_le_mono_r; lia.
  - intros Hpos. pose proof (bitlen_pos v Hpos).
    assert (bitlen v <> 0) by (rewrite bitlen_0_iff; lia). split; [lia|].
    apply Z.le_trans with (2 ^ (bitlen v - 1)); [|lia]. apply Z.pow_le_mono_r; lia.
Qed.

(** The mantissa before the sign adjustment fits 24 bits. *)
Lemma compact_mantissa_bound (v : Z) : 0 <= v ->
  let n := (bitlen v + 7) / 8 in
  0 <= (if n <=? 3 then v * 2 ^ (8 * (3 - n)) else v / 2 ^ (8 * (n - 3))) < 2 ^ 24.
Proof.
  intros Hv. destruct (bytes_of_bitlen v Hv) as (H0 & H1 & _). cbv zeta in *.
  set (n := (bitlen v + 7) / 8) in *. destruct (Z.leb_spec n 3) as [Hn|Hn].
  - assert (2 ^ 24 = 2 ^ (8 * n) * 2 ^ (8 * (3 - n))) as ->
      by (rewrite <- Z.pow_add_r by lia; f_equal; lia). nia.
  - split; [apply Z.div_pos; lia|]. apply Z.div_lt_upper_bound; [lia|].
    rewrite <- Z.pow_add_r by lia. by replace (8 * (n - 3) + 24) with (8 * n) by lia.
Qed.

Lemma compact_parts_bound (v : Z) : 0 <= v < M256 ->
  let '(m, e) := compact_parts v in 0 <= m < 2 ^ 23 /\ 0 <= e <= 33.
Proof.
  intros Hv. pose proof (compact_mantissa_bound v ltac:(lia)) as Hm.
  assert (0 <= (bitlen v + 7) / 8 <= 32) as Hn.
  { pose proof (bitlen_nonneg v). pose proof (bitlen_upper v 256 Hv ltac:(lia)). clear Hm Hv. div_lia. }
  unfold compact_parts. cbv zeta in *.
  set (m := if _ <=? 3 then _ else _) in *. destruct (Z.leb_spec (2 ^ 23) m); [|lia].
  split; [|lia]. split; [apply Z.div_pos; lia|]. apply Z.div_lt_upper_bound; lia.
Qed.

Lemma GetCompact_spec (pn : arith_uint256) (neg : bool) :
  uint_wf pn ->
  GetCompact pn neg =
    let '(m, e) := compact_parts (val pn) in
    Some (m + e * 2 ^ 24 + (if neg && negb (m =? 0) then 2 ^ 23 else 0)).
Proof.
  intros H. pose proof (uint_val_bound pn H) as Hv. unfold GetCompact, compact_parts.
  rewrite bits_spec by done. pose proof (compact_mantissa_bound (val pn) ltac:(lia)) as Hm.
  pose proof (compact_parts_bound (val pn) Hv) as Hp. unfold compact_parts in Hp.
  destruct (bytes_of_bitlen (val pn) ltac:(lia)) as (H0 & H1 & _). cbv zeta in *.
  set (n := (bitlen (val pn) + 7) / 8) in *.
  set (m := if n <=? 3 then val pn * 2 ^ (8 * (3 - n)) else val pn / 2 ^ (8 * (n - 3))) in *.
  assert (E : (if n <=? 3 then u32 (u64 (Z.shiftl (GetLow64 pn) (8 * (3 - n))))
               else u32 (GetLow64 (uint_shr pn (8 * (n - 3))))) = m).
  { subst m. destruct (Z.leb_spec n 3) as [Hn|Hn].
    - rewrite GetLow64_spec by done.
      assert (2 ^ (8 * n) <= 2 ^ 24) by (apply Z.pow_le_mono_r; lia).
      rewrite Z.mod_small, Z.shiftl_mul_pow2 by lia.
      rewrite u64_small by (unfold is_u64; lia). apply u32_small. unfold is_u32. lia.
    - destruct (val_shr pn (8 * (n - 3)) H ltac:(lia)) as [Hw Hs].
      rewrite GetLow64_spec, Hs by done. rewrite Z.mod_small by lia.
      apply u32_small. unfold is_u32. lia. }
  rewrite E. clear E. change 0x00800000 with (2 ^ 23).
  rewrite (land_bit m 23) by (change (2 ^ (23 + 1)) with (2 ^ 24); lia).
  rewrite <- Z.leb_antisym.
  destruct (if 2 ^ 23 <=? m then _ else _) as [m' e] eqn:Eme.
  assert (Eme' : (if 2 ^ 23 <=? m then (Z.shiftr m 8, n + 1) else (m, n)) = (m', e))
    by (rewrite Z.shiftr_div_pow2 by lia; done).
  rewrite Eme'. destruct Hp as [Hm' He].
  assert (Z.land m' (u32 (Z.lnot 0x007fffff)) = 0) as ->.
  { change (u32 (Z.lnot 0x007fffff)) with (511 * 2 ^ 23). by apply land_low_high. }
  cbn [Z.eqb negb]. change (negb (0 =? 0)) with false. cbv iota.
  rewrite (proj2 (Z.ltb_lt e 256)) by lia. cbn [negb].
  rewrite Z.shiftl_mul_pow2, u32_small by (unfold is_u32; lia).
  rewrite (lor_add_disjoint m') by (apply land_low_high; lia).
  change 0x007fffff with (Z.ones 23). rewrite Z.land_ones by lia.
  replace (m' + e * 2 ^ 24) with (m' + (2 * e) * 2 ^ 23) by ring.
  rewrite Z_mod_plus_full, Z.mod_small by lia. f_equal.
  destruct (neg && negb (m' =? 0)); [|by rewrite Z.lor_0_r, Z.add_0_r].
  apply lor_add_disjoint. apply Z.bits_inj'. intros i Hi. rewrite Z.land_spec, Z.bits_0.
  destruct (decide (i = 23)) as [->|]; [|by rewrite Z.pow2_bits_false, andb_false_r by lia].
  replace (m' + 2 * e * 2 ^ 23) with (m' + e * 2 ^ 24) by ring.
  rewrite <- (Z.mod_pow2_bits_low _ 24) by lia. rewrite Z_mod_plus_full, Z.mod_small by lia.
  by rewrite (testbit_ge_width m' 23) by lia.
Qed.

Lemma compact_value_small (m e : Z) : 0 <= m < 2 ^ 23 -> e <= 3 -> 0 <= compact_value m e < 2 ^ 23.
Proof.
  intros Hm He. unfold compact_value. rewrite (proj2 (Z.leb_le e 3)) by lia.
  split; [apply Z.div_pos; lia|]. apply Z.div_lt_upper_bound; [lia|].
  assert (1 <= 2 ^ (8 * (3 - e))) by lia. nia.
Qed.

(** The overflow test of [SetCompact] for exponents above three. *)
Lemma compact_overflow_iff (m e : Z) : 0 <= m < 2 ^ 23 -> 3 < e ->
  negb (m =? 0) && ((e >? 34) || ((m >? 0xff) && (e >? 33)) || ((m >? 0xffff) && (e >? 32)))
  = (M256 <=? m * 2 ^ (8 * (e - 3))).
Proof.
  intros Hm He. change M256 with (2 ^ 256). rewrite !Z.gtb_ltb.
  destruct (Z.eqb_spec m 0) as [->|Hm0]; cbn [negb andb]; [done|].
  assert (forall k, 0 <= k -> 3 + k <= e -> 2 ^ (8 * (e - 3)) = 2 ^ (8 * k) * 2 ^ (8 * (e - 3 - k))) as Hs.
  { intros k Hk Hke. rewrite <- Z.pow_add_r by lia. f_equal. lia. }
  destruct (Z.ltb_spec 34 e) as [H|H]; cbn [orb].
  { symmetry. apply Z.leb_le. rewrite (Hs 32) by lia. change (8 * 32) with 256.
    assert (1 <= 2 ^ (8 * (e - 3 - 32))) by lia. nia. }
  destruct (decide (e = 34)) as [->|H34].
  { change (33 <? 34) with true. change (32 <? 34) with true. rewrite !andb_true_r.
    change (2 ^ (8 * (34 - 3))) with (2 ^ 248).
    destruct (Z.ltb_spec 0xff m); destruct (Z.ltb_spec 0xffff m); cbn [orb]; symmetry;
      rewrite ?Z.leb_le, ?Z.leb_gt; lia. }
  rewrite (proj2 (Z.ltb_ge 33 e)), andb_false_r by lia. cbn [orb].
  destruct (decide (e = 33)) as [->|H33].
  { change (32 <? 33) with true. rewrite andb_true_r. change (2 ^ (8 * (33 - 3))) with (2 ^ 240).
    destruct (Z.ltb_spec 0xffff m); symmetry; rewrite ?Z.leb_le, ?Z.leb_gt; lia. }
  rewrite (proj2 (Z.ltb_ge 32 e)), andb_false_r by lia. symmetry. apply Z.leb_gt.
  assert (2 ^ (8 * (e - 3)) <= 2 ^ 232) by (apply Z.pow_le_mono_r; lia).
  assert (2 ^ 23 * 2 ^ 232 < 2 ^ 256) by done. nia.
Qed.

Lemma SetCompact_spec (c : Z) : is_u32 c ->
  let m := c mod 2 ^ 23 in
  let e := c / 2 ^ 24 in
  let '(v, neg, ovf) := SetCompact c in
  uint_wf v /\ val v = compact_value m e mod M256 /\
  neg = negb ((if e <=? 3 then compact_value m e else m) =? 0) && Z.testbit c 23 /\
  ovf = (M256 <=? compact_value m e).
Proof.
  intros Hc. unfold is_u32 in Hc. cbv zeta. unfold SetCompact.
  change 0x007fffff with (Z.ones 23). rewrite Z.land_ones, Z.shiftr_div_pow2 by lia.
  set (m := c mod 2 ^ 23). set (e := c / 2 ^ 24).
  assert (Hm : 0 <= m < 2 ^ 23) by (apply Z.mod_pos_bound; lia).
  assert (He : 0 <= e < 256) by (subst e; split; [apply Z.div_pos|apply Z.div_lt_upper_bound]; lia).
  assert (Hneg : negb (Z.land c 0x00800000 =? 0) = Z.testbit c 23).
  { change 0x00800000 with (2 ^ 23). destruct (Z.eqb_spec (Z.land c (2 ^ 23)) 0) as [E|E]; cbn [negb].
    - symmetry. apply (f_equal (fun x => Z.testbit x 23)) in E.
      by rewrite Z.land_spec, Z.pow2_bits_true, andb_true_r, Z.bits_0 in E by lia.
    - destruct (Z.testbit c 23) eqn:Et; [done|]. exfalso. apply E. apply Z.bits_inj'.
      intros i Hi. rewrite Z.land_spec, Z.bits_0. destruct (decide (i = 23)) as [->|].
      + by rewrite Et.
      + by rewrite Z.pow2_bits_false, andb_false_r by lia. }
  rewrite Hneg. destruct (Z.leb_spec e 3) as [He3|He3].
  - pose proof (compact_value_small m e Hm He3) as Hcv.
    assert (Ecv : compact_value m e = Z.shiftr m (8 * (3 - e))).
    { unfold compact_value. by rewrite (proj2 (Z.leb_le e 3)), Z.shiftr_div_pow2 by lia. }
    rewrite <- Ecv. split; [auto with words|].
    assert (2 ^ 23 < M256) by done.
    split; [rewrite val_of_u64, Z.mod_small by (unfold is_u64; lia); done|]. split; [done|].
    rewrite (proj2 (Z.leb_gt M256 _)) by lia. rewrite !Z.gtb_ltb.
    rewrite (proj2 (Z.ltb_ge 34 e)), (proj2 (Z.ltb_ge 33 e)), (proj2 (Z.ltb_ge 32 e)) by lia.
    by rewrite !andb_false_r.
  - rewrite compact_overflow_iff by lia. unfold compact_value.
    rewrite (proj2 (Z.leb_gt e 3)) by lia.
    destruct (val_shl (of_u64 m) (8 * (e - 3)) (of_u64_wf m) ltac:(lia)) as [Hw Hv].
    split; [done|]. rewrite Hv, val_of_u64 by (unfold is_u64; lia). done.
Qed.

(** Reading back what [GetCompact] wrote truncates the number to its leading bits. *)
Lemma compact_parts_value (v : Z) : 0 <= v < M256 ->
  let '(m, e) := compact_parts v in
  compact_value m e <= v /\ (v - compact_value m e) * 2 ^ 15 <= v.
Proof.
  intros Hv. unfold compact_parts. destruct (bytes_of_bitlen v ltac:(lia)) as (H0 & H1 & H2).
  pose proof (compact_mantissa_bound v ltac:(lia)) as Hm. cbv zeta in *.
  set (n := (bitlen v + 7) / 8) in *.
  destruct (Z.leb_spec n 3) as [Hn|Hn].
  - set (P := 2 ^ (8 * (3 - n))) in *. assert (HP : 1 <= P) by (subst P; lia).
    destruct (Z.leb_spec (2 ^ 23) (v * P)) as [Hb|Hb]; unfold compact_value.
    + destruct (decide (n = 3)) as [E|E].
      * assert (P = 1) as EP by (subst P; rewrite E; done). rewrite EP, Z.mul_1_r in *.
        rewrite (proj2 (Z.leb_gt (n + 1) 3)) by lia. rewrite E. change (8 * (3 + 1 - 3)) with 8.
        pose proof (Z.div_mod v (2 ^ 8) ltac:(lia)). pose proof (Z.mod_pos_bound v (2 ^ 8) eq_refl). lia.
      * rewrite (proj2 (Z.leb_le (n + 1) 3)) by lia.
        assert (EP : P = 2 ^ (8 * (3 - (n + 1))) * 2 ^ 8)
          by (subst P; rewrite <- Z.pow_add_r by lia; f_equal; lia).
        rewrite EP, Z.mul_assoc, Z.div_mul, Z.div_mul by lia. lia.
    + rewrite (proj2 (Z.leb_le n 3)) by lia. fold P. rewrite Z.div_mul by lia. lia.
  - set (P := 2 ^ (8 * (n - 3))) in *. assert (HP : 1 <= P) by (subst P; lia).
    assert (Hvpos : 0 < v) by (destruct (decide (v = 0)) as [->|]; [exfalso; subst n; change ((bitlen 0 + 7) / 8) with 0 in Hn; lia|lia]).
    destruct (H2 Hvpos) as [_ H3].
    assert (E3 : 2 ^ (8 * (n - 1)) = 2 ^ 16 * P)
      by (subst P; rewrite <- Z.pow_add_r by lia; f_equal; lia).
    pose proof (Z.div_mod v P ltac:(lia)) as Hdm. pose proof (Z.mod_pos_bound v P ltac:(lia)) as Hmb.
    destruct (Z.leb_spec (2 ^ 23) (v / P)) as [Hb|Hb]; unfold compact_value.
    + rewrite (proj2 (Z.leb_gt (n + 1) 3)) by lia.
      replace (2 ^ (8 * (n + 1 - 3))) with (2 ^ 8 * P)
        by (subst P; rewrite <- Z.pow_add_r by lia; f_equal; lia).
      pose proof (Z.div_mod (v / P) (2 ^ 8) ltac:(lia)). pose proof (Z.mod_pos_bound (v / P) (2 ^ 8) eq_refl).
      nia.
    + rewrite (proj2 (Z.leb_gt n 3)) by lia. fold P. nia.
Qed.

(** Canonical compact numbers are fixed points: positive, normalised mantissa,
    no overflow. *)
Definition compact_canonical (c : Z) : Prop :=
  let m := c mod 2 ^ 24 in
  let e := c / 2 ^ 24 in
  2 ^ 15 <= m < 2 ^ 23 /\ 3 <= e /\ m * 2 ^ (8 * (e - 3)) < M256.

#[export] Instance compact_canonical_dec (c : Z) : Decision (compact_canonical c).
Proof. unfold compact_canonical. apply _. Defined.

Lemma compact_parts_canonical (m e : Z) :
  2 ^ 15 <= m < 2 ^ 23 -> 3 <= e -> compact_parts (m * 2 ^ (8 * (e - 3))) = (m, e).
Proof.
  intros Hm He. set (P := 2 ^ (8 * (e - 3))). assert (HP : 1 <= P) by (subst P; lia).
  assert (Hlog : Z.log2 (m * P) = Z.log2 m + 8 * (e - 3)).
  { subst P. rewrite Z.log2_mul_pow2 by lia. lia. }
  assert (Hb : bitlen (m * P) = Z.log2 m + 8 * (e - 3) + 1).
  { unfold bitlen. rewrite (proj2 (Z.eqb_neq (m * P) 0)) by nia. by rewrite Hlog. }
  unfold compact_parts. rewrite Hb.
  assert (15 <= Z.log2 m < 23) as Hl.
  { split; [apply Z.log2_le_pow2; lia | apply Z.log2_lt_pow2; lia]. }
  destruct (decide (Z.log2 m = 15)) as [E15|E15].
  - replace ((Z.log2 m + 8 * (e - 3) + 1 + 7) / 8) with (e - 1) by (rewrite E15; div_lia).
    pose proof (Z.log2_spec m ltac:(lia)) as Hs. rewrite E15 in Hs. change (2 ^ Z.succ 15) with (2 ^ 16) in Hs.
    assert (Em : (if e - 1 <=? 3 then m * P * 2 ^ (8 * (3 - (e - 1))) else m * P / 2 ^ (8 * (e - 1 - 3)))
                 = m * 2 ^ 8).
    { destruct (Z.leb_spec (e - 1) 3) as [H|H].
      - rewrite <- Z.mul_assoc. subst P. rewrite <- Z.pow_add_r by lia. f_equal. f_equal. lia.
      - replace P with (2 ^ 8 * 2 ^ (8 * (e - 1 - 3)))
          by (subst P; rewrite <- Z.pow_add_r by lia; f_equal; lia).
        by rewrite Z.mul_assoc, Z.div_mul by lia. }
    rewrite Em. rewrite (proj2 (Z.leb_le (2 ^ 23) (m * 2 ^ 8))) by lia.
    rewrite Z.div_mul by lia. f_equal. lia.
  - replace ((Z.log2 m + 8 * (e - 3) + 1 + 7) / 8) with e by div_lia.
    assert (Em : (if e <=? 3 then m * P * 2 ^ (8 * (3 - e)) else m * P / 2 ^ (8 * (e - 3))) = m).
    { destruct (Z.leb_spec e 3) as [H|H].
      - assert (e = 3) as -> by lia. subst P. cbn. lia.
      - fold P. by rewrite Z.div_mul by lia. }
    rewrite Em. by rewrite (proj2 (Z.leb_gt (2 ^ 23) m)) by lia.
Qed.

(** ** Conversion to and from 32-byte blobs *)

Definition bytes_wf (b : list Z) : Prop := length b = 32%nat /\ Forall is_u8 b.

#[export] Instance bytes_wf_dec (b : list Z) : Decision (bytes_wf b).
Proof. unfold bytes_wf, is_u8. apply _. Defined.

Lemma le32_combine (b0 b1 b2 b3 : Z) :
  is_u8 b0 -> is_u8 b1 -> is_u8 b2 -> is_u8 b3 ->
  Z.lor b0 (Z.lor (Z.shiftl b1 8) (Z.lor (Z.shiftl b2 16) (Z.shiftl b3 24)))
  = b0 + 2 ^ 8 * b1 + 2 ^ 16 * b2 + 2 ^ 24 * b3.
Proof.
  unfold is_u8. intros. rewrite !Z.shiftl_mul_pow2 by lia.
  rewrite (lor_add_disjoint (b2 * 2 ^ 16)).
  2:{ replace (b3 * 2 ^ 24) with ((b3 * 2 ^ 0) * 2 ^ 24) by lia. apply land_low_high; lia. }
  rewrite (lor_add_disjoint (b1 * 2 ^ 8)).
  2:{ replace (b2 * 2 ^ 16 + b3 * 2 ^ 24) with ((b2 + b3 * 2 ^ 8) * 2 ^ 16) by ring.
      apply land_low_high; lia. }
  rewrite lor_add_disjoint; [ring|].
  replace (b1 * 2 ^ 8 + (b2 * 2 ^ 16 + b3 * 2 ^ 24)) with ((b1 + b2 * 2 ^ 8 + b3 * 2 ^ 16) * 2 ^ 8) by ring.
  apply land_low_high; lia.
Qed.

Lemma le32_split (d : Z) : is_u32 d ->
  Z.lor (u8 d) (Z.lor (Z.shiftl (u8 (Z.shiftr d 8)) 8)
    (Z.lor (Z.shiftl (u8 (Z.shiftr d 16)) 16) (Z.shiftl (u8 (Z.shiftr d 24)) 24))) = d.
Proof.
  intros Hd. assert (forall x, is_u8 (u8 x)) as Hb by (intros; apply Z.mod_pos_bound; lia).
  rewrite le32_combine by done. unfold u8, is_u32 in *.
  rewrite !Z.shiftr_div_pow2 by lia. div_lia.
Qed.

Lemma UintToArith256_spec (b : list Z) :
  bytes_wf b -> uint_wf (UintToArith256 b) /\ val (UintToArith256 b) = le_val b.
Proof.
  intros [Hl Hf]. do 32 (destruct b as [|? b]; [discriminate Hl|]).
  destruct b; [|discriminate Hl]. clear Hl.
  repeat match goal with H : Forall _ (_ :: _) |- _ => apply Forall_cons in H; destruct H as [? H] end.
  unfold UintToArith256, uint_zero, WIDTH, ReadLE32.
  cbn -[Z.lor Z.shiftl Z.mul Z.add Z.pow uint_wf val le_val].
  rewrite !le32_combine by done. split.
  - split; [done|]. repeat (apply Forall_cons; split; [unfold is_u32, is_u8 in *; lia|]). done.
  - cbn -[Z.mul Z.add Z.pow]. ring.
Qed.

Lemma UintToArith256_ArithToUint256 (a : arith_uint256) :
  uint_wf a -> UintToArith256 (ArithToUint256 a) = a.
Proof.
  intros [Hl Hf]. unfold WIDTH in Hl. do 8 (destruct a as [|? a]; [discriminate Hl|]).
  destruct a; [|discriminate Hl]. clear Hl.
  repeat match goal with H : Forall _ (_ :: _) |- _ => apply Forall_cons in H; destruct H as [? H] end.
  unfold UintToArith256, ArithToUint256, uint_zero, WIDTH, ReadLE32, WriteLE32.
  cbn -[Z.lor Z.shiftl Z.shiftr u8 Z.mul Z.add Z.pow]. by rewrite !le32_split by done.
Qed.

Lemma compact_canonical_roundtrip (c : Z) :
  is_u32 c -> compact_canonical c ->
  let '(t, neg, ovf) := SetCompact c in
  neg = false /\ ovf = false /\ GetCompact t false = Some c.
Proof.
  intros Hc Hcan. pose proof (SetCompact_spec c Hc) as Hs. cbv zeta in *.
  destruct Hcan as (Hm & He & Hlt). set (m := c mod 2 ^ 24) in *. set (e := c / 2 ^ 24) in *.
  assert (Ec : c = 2 ^ 24 * e + m) by (apply Z.div_mod; lia).
  assert (Em : c mod 2 ^ 23 = m) by (apply (mod_unique_pos _ _ (2 * e)); lia).
  rewrite Em in Hs. destruct (SetCompact c) as [[t neg] ovf]. destruct Hs as (Hw & Ht & Hn & Ho).
  assert (Ev : compact_value m e = m * 2 ^ (8 * (e - 3))).
  { unfold compact_value. destruct (Z.leb_spec e 3); [|done].
    assert (e = 3) as -> by lia. cbn. rewrite Z.div_1_r. lia. }
  rewrite Ev in Ht, Ho. rewrite Z.mod_small in Ht by nia.
  split; [|split; [rewrite Ho; apply Z.leb_gt; lia|]].
  - rewrite Hn. replace (Z.testbit c 23) with false; [by rewrite andb_false_r|].
    rewrite <- (Z.mod_pow2_bits_low _ 24) by lia. fold m. by rewrite (testbit_ge_width m 23) by lia.
  - rewrite GetCompact_spec, Ht, compact_parts_canonical by done. cbn [andb]. f_equal. lia.
Qed.

(** ** Properties *)

(** C22: the digit loops of [base_uint] implement arithmetic modulo [2^256]:
    addition, subtraction, both multiplications, negation, complement,
    increment, decrement and the two shifts, on every pair of operands; every
    result again consists of eight 32-bit digits. *)
Theorem uint_arith_mod_256 (a b : base_uint) (b32 shift : Z) :
  uint_wf a -> uint_wf b -> is_u32 b32 -> 0 <= shift ->
  (uint_wf (uint_add a b) /\ val (uint_add a b) = (val a + val b) mod 2 ^ 256) /\
  (uint_wf (uint_sub a b) /\ val (uint_sub a b) = (val a - val b) mod 2 ^ 256) /\
  (uint_wf (uint_mul a b) /\ val (uint_mul a b) = (val a * val b) mod 2 ^ 256) /\
  (uint_wf (uint_mul32 a b32) /\ val (uint_mul32 a b32) = (val a * b32) mod 2 ^ 256) /\
  (uint_wf (uint_neg a) /\ val (uint_neg a) = (- val a) mod 2 ^ 256) /\
  (uint_wf (uint_not a) /\ val (uint_not a) = 2 ^ 256 - 1 - val a) /\
  (uint_wf (uint_incr a) /\ val (uint_incr a) = (val a + 1) mod 2 ^ 256) /\
  (uint_wf (uint_decr a) /\ val (uint_decr a) = (val a - 1) mod 2 ^ 256) /\
  (uint_wf (uint_shl a shift) /\ val (uint_shl a shift) = (val a * 2 ^ shift) mod 2 ^ 256) /\
  (uint_wf (uint_shr a shift) /\ val (uint_shr a shift) = val a / 2 ^ shift).
Proof.
  intros Ha Hb H32 Hs. change (2 ^ 256) with M256.
  pose proof (uint_add_wf a b Ha Hb). pose proof (val_add a b Ha Hb).
  pose proof (uint_sub_wf a b Ha Hb). pose proof (val_sub a b Ha Hb).
  pose proof (val_mul a b Ha Hb). pose proof (val_mul32 a b32 Ha H32).
  pose proof (val_neg a Ha). pose proof (val_not a Ha). pose proof (val_incr a Ha).
  pose proof (val_decr a Ha). pose proof (val_shl a shift Ha Hs). pose proof (val_shr a shift Ha Hs).
  repeat (split; [tauto|]). tauto.
Qed.

Lemma uint_arith_mod_256_witness :
  let a := of_u64 (2 ^ 64 - 1) in
  let b := uint_not uint_zero in
  val (uint_add a b) = 2 ^ 64 - 2 /\ val (uint_mul a b) = 2 ^ 256 - (2 ^ 64 - 1).
Proof.
  pose proof (uint_arith_mod_256 (of_u64 (2 ^ 64 - 1)) (uint_not uint_zero) 3 7) as H.
  destruct H as (H1 & _ & H3 & _).
  - apply (bool_decide_unpack _). vm_compute. exact I.
  - apply (bool_decide_unpack _). vm_compute. exact I.
  - unfold is_u32. lia.
  - lia.
  - cbv zeta. rewrite (proj2 H1), (proj2 H3). split; vm_compute; reflexivity.
Defined.

(** The long division of [operator/=] terminates, throws exactly when the
    divisor is zero, and otherwise yields the exact integer quotient. *)
Theorem uint_div_exact (a b : base_uint) :
  uint_wf a -> uint_wf b ->
  (uint_div a b = None <-> val b = 0) /\
  (forall q, uint_div a b = Some q -> uint_wf q /\ val q = val a / val b).
Proof.
  intros Ha Hb. pose proof (uint_div_spec a b Ha Hb) as H.
  destruct (uint_div a b) as [q|]; [|done]. destruct H as (H1 & H2 & H3).
  split; [split; [done|lia]|]. by intros ? [= <-].
Qed.

Lemma uint_div_exact_witness :
  exists q, uint_div (uint_not uint_zero) (of_u64 (2 ^ 40 + 1)) = Some q /\
            val q = (2 ^ 256 - 1) / (2 ^ 40 + 1).
Proof.
  destruct (uint_div_exact (uint_not uint_zero) (of_u64 (2 ^ 40 + 1))) as [_ H].
  - apply (bool_decide_unpack _). vm_compute. exact I.
  - apply (bool_decide_unpack _). vm_compute. exact I.
  - destruct (uint_div (uint_not uint_zero) (of_u64 (2 ^ 40 + 1))) as [q|] eqn:E.
    + exists q. split; [reflexivity|]. rewrite (proj2 (H q eq_refl)). vm_compute. reflexivity.
    + exfalso. vm_compute in E. discriminate E.
Defined.

(** [CompareTo] (and so [<], [>], [>=]) is the numeric order, [EqualTo] is
    numeric equality with a 64-bit number, [GetLow64] the low 64 bits, and
    [bits] the position of the highest set bit plus one. *)
Theorem uint_observers_exact (a b : base_uint) (w : Z) :
  uint_wf a -> uint_wf b -> is_u64 w ->
  uint_ltb a b = (val a <? val b) /\ uint_gtb a b = (val b <? val a) /\
  uint_geb a b = (val b <=? val a) /\ EqualTo a w = (val a =? w) /\
  GetLow64 a = val a mod 2 ^ 64 /\
  (val a = 0 -> bits a = 0) /\ (0 < val a -> 2 ^ (bits a - 1) <= val a < 2 ^ bits a).
Proof.
  intros Ha Hb Hw. rewrite uint_ltb_spec, uint_gtb_spec, uint_geb_spec, EqualTo_spec, GetLow64_spec,
    bits_spec by done.
  do 5 (split; [done|]). split; [by intros ->|]. apply bitlen_pos.
Qed.

Lemma uint_observers_exact_witness :
  uint_ltb (of_u64 5) (uint_not uint_zero) = true /\ EqualTo (of_u64 5) 5 = true /\ bits (of_u64 5) = 3.
Proof.
  destruct (uint_observers_exact (of_u64 5) (uint_not uint_zero) 5) as (H1 & _ & _ & H4 & _).
  - apply (bool_decide_unpack _). vm_compute. exact I.
  - apply (bool_decide_unpack _). vm_compute. exact I.
  - unfold is_u64. lia.
  - rewrite H1, H4. split; [|split]; vm_compute; reflexivity.
Defined.

(** [GetCompact] never fails an assertion, and decoding its result with
    [SetCompact] gives back, without sign or overflow, a target that is at most
    the original and misses less than a [2^-15] part of it: a difficulty target
    written to a header is never easier than the computed one. *)
Theorem compact_encode_decode (a : arith_uint256) :
  uint_wf a ->
  exists c, GetCompact a false = Some c /\ is_u32 c /\
  let '(t, neg, ovf) := SetCompact c in
  neg = false /\ ovf = false /\ uint_wf t /\
  val t <= val a /\ (val a - val t) * 2 ^ 15 <= val a.
Proof.
  intros Ha. pose proof (uint_val_bound a Ha) as Hv. rewrite GetCompact_spec by done.
  pose proof (compact_parts_bound (val a) Hv) as Hb.
  pose proof (compact_parts_value (val a) Hv) as Hp.
  destruct (compact_parts (val a)) as [m e]. destruct Hb as [Hm He].
  exists (m + e * 2 ^ 24). cbn [andb]. split; [f_equal; ring|].
  assert (Hc : is_u32 (m + e * 2 ^ 24)) by (unfold is_u32; lia). split; [done|].
  pose proof (SetCompact_spec _ Hc) as Hs.
  assert (Em : (m + e * 2 ^ 24) mod 2 ^ 23 = m) by (apply (mod_unique_pos _ _ (2 * e)); lia).
  assert (Ee : (m + e * 2 ^ 24) / 2 ^ 24 = e) by (symmetry; apply (Z.div_unique_pos _ _ _ m); lia).
  cbv zeta in Hs. rewrite Em, Ee in Hs.
  destruct (SetCompact (m + e * 2 ^ 24)) as [[t neg] ovf]. destruct Hs as (Hw & Ht & Hn & Ho).
  assert (0 <= compact_value m e) as H0.
  { unfold compact_value. destruct (Z.leb_spec e 3); [apply Z.div_pos | apply Z.mul_nonneg_nonneg]; lia. }
  rewrite Z.mod_small in Ht by lia. rewrite Hn, Ho, Ht.
  split; [|split; [apply Z.leb_gt; lia|done]].
  replace (Z.testbit (m + e * 2 ^ 24) 23) with false; [by rewrite andb_false_r|].
  rewrite <- (Z.mod_pow2_bits_low _ 24) by lia. rewrite Z_mod_plus_full, Z.mod_small by lia.
  by rewrite (testbit_ge_width m 23) by lia.
Qed.

Lemma compact_encode_decode_witness :
  exists c, GetCompact (of_u64 0x1234567890) false = Some c /\ c = 0x05123456.
Proof.
  destruct (compact_encode_decode (of_u64 0x1234567890)) as (c & Hc & _).
  - apply (bool_decide_unpack _). vm_compute. exact I.
  - exists c. split; [exact Hc|]. vm_compute in Hc. injection Hc as <-. reflexivity.
Defined.

(** decoding and re-encoding a canonical compact number (mantissa with its
    top byte used, sign clear, no overflow) gives it back. *)
Theorem compact_decode_encode (c : Z) :
  is_u32 c -> compact_canonical c ->
  let '(t, neg, ovf) := SetCompact c in
  neg = false /\ ovf = false /\ GetCompact t false = Some c.
Proof. apply compact_canonical_roundtrip. Qed.

Lemma compact_decode_encode_witness :
  let '(t, _, _) := SetCompact 0x1f0fffff in GetCompact t false = Some 0x1f0fffff.
Proof.
  pose proof (compact_decode_encode 0x1f0fffff) as H.
  destruct (SetCompact 0x1f0fffff) as [[t neg] ovf]. apply H.
  - unfold is_u32. lia.
  - apply (bool_decide_unpack _). vm_compute. exact I.
Defined.
