(* ===== verification/Chain.v ===== *)
(** * The block index and the active chain: src/src/chain.h, chain.cpp

    [CBlockIndex] entries live in [BlockManager::m_block_index], a map from
    block hash to entry whose nodes never move; a pointer to an entry is
    therefore the hash under which the map holds it, [GetBlockHash()] of a
    pointer is the pointer itself, and [nullptr] is [None].  A function that
    dereferences a dangling pointer or fails an [assert] returns [None]; one
    that may return [nullptr] returns [Some None] for it. *)

From S2P Require Import Prelude ArithUint256.
From stdpp Require Import sorting.

#[local] Open Scope Z_scope.

(** ** Data *)

(** [uint256] as the little-endian number of its 32 bytes. *)
Abbreviation uint256 := Z.

(** [base_blob::data()] *)
Definition u256_data (h : uint256) : list Z :=
  map (fun i => u8 (Z.shiftr h (8 * Z.of_nat i))) (seq 0 32).

Record CBlockHeader := mkHeader {
  nVersion : Z;
  hashPrevBlock : uint256;
  hashMerkleRoot : uint256;
  nTime : Z;
  nBits : Z;
  nNonce : Z
}.

Record CBlockIndex := mkIndex {
  pprev : option uint256;
  pskip : option uint256;
  nHeight : Z;
  nChainWork : arith_uint256;
  nTx : Z;
  m_chain_tx_count : Z;
  nStatus : Z;
  bi_nVersion : Z;
  bi_hashMerkleRoot : uint256;
  bi_nTime : Z;
  bi_nBits : Z;
  bi_nNonce : Z;
  nSequenceId : Z;
  nTimeMax : Z
}.

(** [BlockMap]: the block index, hence the store of all entries. *)
Abbreviation BlockMap := (gmap Z CBlockIndex).

Definition SEQ_ID_INIT_FROM_DISK : Z := 1.
Definition BLOCK_VALID_TREE : Z := 2.
Definition BLOCK_VALID_MASK : Z := 7.
Definition BLOCK_FAILED_MASK : Z := Z.lor 32 64.
Definition nMedianTimeSpan : nat := 11.

(** ** Operations on entries *)

(** [explicit CBlockIndex(const CBlockHeader& block)] *)
Definition CBlockIndex_of_header (block : CBlockHeader) : CBlockIndex := {|
  pprev := None; pskip := None; nHeight := 0; nChainWork := uint_zero; nTx := 0;
  m_chain_tx_count := 0; nStatus := 0; bi_nVersion := nVersion block;
  bi_hashMerkleRoot := hashMerkleRoot block; bi_nTime := nTime block;
  bi_nBits := nBits block; bi_nNonce := nNonce block;
  nSequenceId := SEQ_ID_INIT_FROM_DISK; nTimeMax := 0 |}.

Definition GetBlockTime (b : CBlockIndex) : Z := bi_nTime b.

(** [GetBlockHeader()]: a null [pprev] leaves the zero hash. *)
Definition GetBlockHeader (b : CBlockIndex) : CBlockHeader := {|
  nVersion := bi_nVersion b; hashPrevBlock := default 0 (pprev b);
  hashMerkleRoot := bi_hashMerkleRoot b; nTime := bi_nTime b; nBits := bi_nBits b;
  nNonce := bi_nNonce b |}.

(** [IsValid(nUpTo)] *)
Definition IsValid (b : CBlockIndex) (nUpTo : Z) : bool :=
  if negb (Z.land (nStatus b) BLOCK_FAILED_MASK =? 0) then false
  else nUpTo <=? Z.land (nStatus b) BLOCK_VALID_MASK.

Definition set_status (b : CBlockIndex) (s : Z) : CBlockIndex := {|
  pprev := pprev b; pskip := pskip b; nHeight := nHeight b; nChainWork := nChainWork b;
  nTx := nTx b; m_chain_tx_count := m_chain_tx_count b; nStatus := s;
  bi_nVersion := bi_nVersion b; bi_hashMerkleRoot := bi_hashMerkleRoot b;
  bi_nTime := bi_nTime b; bi_nBits := bi_nBits b; bi_nNonce := bi_nNonce b;
  nSequenceId := nSequenceId b; nTimeMax := nTimeMax b |}.

(** [RaiseValidity(nUpTo)]: the new entry and whether the validity changed. *)
Definition RaiseValidity (b : CBlockIndex) (nUpTo : Z) : CBlockIndex * bool :=
  if negb (Z.land (nStatus b) BLOCK_FAILED_MASK =? 0) then (b, false)
  else if Z.land (nStatus b) BLOCK_VALID_MASK <? nUpTo then
    (set_status b (Z.lor (Z.land (nStatus b) (u32 (Z.lnot BLOCK_VALID_MASK))) nUpTo), true)
  else (b, false).

(** The timestamps of the last [n] blocks ending at [p], newest first. *)
Fixpoint collect_times (m : BlockMap) (n : nat) (p : option uint256) : option (list Z) :=
  match n, p with
  | S n', Some q =>
      b ← m !! q;
      rest ← collect_times m n' (pprev b);
      Some (GetBlockTime b :: rest)
  | _, _ => Some []
  end.

(** [GetMedianTimePast()] *)
Definition GetMedianTimePast (m : BlockMap) (p : uint256) : option Z :=
  times ← collect_times m nMedianTimeSpan (Some p);
  merge_sort Z.le times !! (length times / 2)%nat.

(** ** Skip list *)

Definition InvertLowestOne (n : Z) : Z := Z.land n (n - 1).

Definition GetSkipHeight (height : Z) : Z :=
  if height <? 2 then 0
  else if negb (Z.land height 1 =? 0) then InvertLowestOne (InvertLowestOne (height - 1)) + 1
  else InvertLowestOne height.

(** The walk of [GetAncestor]; every iteration lowers [heightWalk], so
    [heightWalk - height] iterations suffice. *)
Fixpoint GetAncestor_loop (fuel : nat) (m : BlockMap) (pindexWalk : uint256)
    (heightWalk height : Z) : option uint256 :=
  if heightWalk >? height then
    match fuel with
    | O => None
    | S fuel' =>
        b ← m !! pindexWalk;
        let heightSkip := GetSkipHeight heightWalk in
        let heightSkipPrev := GetSkipHeight (heightWalk - 1) in
        let follow :=
          (heightSkip =? height) ||
          ((heightSkip >? height) &&
           negb ((heightSkipPrev <? heightSkip - 2) && (heightSkipPrev >=? height))) in
        match (if follow then pskip b else None) with
        | Some s => GetAncestor_loop fuel' m s heightSkip height
        | None => q ← pprev b; GetAncestor_loop fuel' m q (heightWalk - 1) height
        end
    end
  else Some pindexWalk.

Definition GetAncestor (m : BlockMap) (p : uint256) (height : Z) : option (option uint256) :=
  b ← m !! p;
  if (height >? nHeight b) || (height <? 0) then Some None
  else
    a ← GetAncestor_loop (Z.to_nat (nHeight b - height)) m p (nHeight b) height;
    Some (Some a).

Definition set_pskip (b : CBlockIndex) (s : option uint256) : CBlockIndex := {|
  pprev := pprev b; pskip := s; nHeight := nHeight b; nChainWork := nChainWork b;
  nTx := nTx b; m_chain_tx_count := m_chain_tx_count b; nStatus := nStatus b;
  bi_nVersion := bi_nVersion b; bi_hashMerkleRoot := bi_hashMerkleRoot b;
  bi_nTime := bi_nTime b; bi_nBits := bi_nBits b; bi_nNonce := bi_nNonce b;
  nSequenceId := nSequenceId b; nTimeMax := nTimeMax b |}.

(** [BuildSkip()] of the entry [b]. *)
Definition BuildSkip (m : BlockMap) (b : CBlockIndex) : option CBlockIndex :=
  match pprev b with
  | Some q => s ← GetAncestor m q (GetSkipHeight (nHeight b)); Some (set_pskip b s)
  | None => Some b
  end.

(** [LastCommonAncestor]: both walk back together, by [pskip] while the skip
    pointers differ (the inner loop of the source; there [pa] and [pb] stay
    different) and by [pprev] otherwise, until they meet. *)
Fixpoint LastCommonAncestor_loop (fuel : nat) (m : BlockMap) (pa pb : option uint256)
  : option (option uint256) :=
  if bool_decide (pa = pb) then Some pa
  else
    match fuel with
    | O => None
    | S fuel' =>
        pa ← pa; a ← m !! pa;
        pb ← pb; b ← m !! pb;
        if bool_decide (pskip a = pskip b)
        then LastCommonAncestor_loop fuel' m (pprev a) (pprev b)
        else LastCommonAncestor_loop fuel' m (pskip a) (pskip b)
    end.

Definition LastCommonAncestor (m : BlockMap) (pa pb : uint256) : option (option uint256) :=
  a ← m !! pa;
  b ← m !! pb;
  let fuel := S (Z.to_nat (Z.min (nHeight a) (nHeight b))) in
  if nHeight a >? nHeight b then
    pa ← GetAncestor m pa (nHeight b);
    LastCommonAncestor_loop fuel m pa (Some pb)
  else if nHeight b >? nHeight a then
    pb ← GetAncestor m pb (nHeight a);
    LastCommonAncestor_loop fuel m (Some pa) pb
  else LastCommonAncestor_loop fuel m (Some pa) (Some pb).

(** ** Proof of work of a chain *)

(** [GetBlockProof]: [2^256 / (target + 1)], or 0 for an invalid target. *)
Definition GetBlockProof (bits : Z) : option arith_uint256 :=
  let '(bnTarget, fNegative, fOverflow) := SetCompact bits in
  if fNegative || fOverflow || EqualTo bnTarget 0 then Some (of_u64 0)
  else
    q ← uint_div (uint_not bnTarget) (uint_add bnTarget (of_u64 1));
    Some (uint_add q (of_u64 1)).

(** [GetBlockProofEquivalentTime] *)
Definition GetBlockProofEquivalentTime (to from tip : CBlockIndex) (nPowTargetSpacing : Z)
  : option Z :=
  let '(r, sign) :=
    if uint_gtb (nChainWork to) (nChainWork from)
    then (uint_sub (nChainWork to) (nChainWork from), 1)
    else (uint_sub (nChainWork from) (nChainWork to), -1) in
  proof ← GetBlockProof (bi_nBits tip);
  r ← uint_div (uint_mul r (of_u64 (u64 nPowTargetSpacing))) proof;
  if bits r >? 63 then Some (sign * (2 ^ 63 - 1))
  else Some (sign * i64 (GetLow64 r)).

(** ** The active chain *)

(** [CChain::vChain] *)
Abbreviation CChain := (list (option Z)).

Definition chain_at (v : CChain) (height : Z) : option uint256 :=
  if (height <? 0) || (height >=? Z.of_nat (length v)) then None
  else v !!! Z.to_nat height.

Definition chain_Height (v : CChain) : Z := Z.of_nat (length v) - 1.

Definition chain_Genesis (v : CChain) : option uint256 :=
  if (0 <? length v)%nat then v !!! 0%nat else None.

Definition chain_Tip (v : CChain) : option uint256 :=
  if (0 <? length v)%nat then v !!! (length v - 1)%nat else None.

(** [Contains(pindex)] *)
Definition chain_Contains (m : BlockMap) (v : CChain) (p : uint256) : option bool :=
  b ← m !! p;
  Some (bool_decide (chain_at v (nHeight b) = Some p)).

Definition chain_Next (m : BlockMap) (v : CChain) (p : uint256) : option (option uint256) :=
  b ← m !! p;
  c ← chain_Contains m v p;
  Some (if (c : bool) then chain_at v (nHeight b + 1) else None).

(** [vector::resize]: new slots are null. *)
Definition resize (v : CChain) (n : nat) : CChain := take n v ++ replicate (n - length v) None.

(** [CChain::SetTip] *)
Fixpoint SetTip_loop (fuel : nat) (m : BlockMap) (v : CChain) (pindex : option uint256)
  : option CChain :=
  match pindex with
  | None => Some v
  | Some p =>
      b ← m !! p;
      let h := Z.to_nat (nHeight b) in
      if bool_decide (v !!! h = Some p) then Some v
      else
        match fuel with
        | O => None
        | S fuel' => SetTip_loop fuel' m (<[h := Some p]> v) (pprev b)
        end
  end.

Definition SetTip (m : BlockMap) (v : CChain) (p : uint256) : option CChain :=
  b ← m !! p;
  let n := Z.to_nat (nHeight b + 1) in
  SetTip_loop n m (resize v n) (Some p).

(** [CChain::FindFork] *)
Fixpoint FindFork_loop (fuel : nat) (m : BlockMap) (v : CChain) (pindex : option uint256)
  : option (option uint256) :=
  match pindex with
  | None => Some None
  | Some p =>
      c ← chain_Contains m v p;
      if (c : bool) then Some (Some p)
      else
        match fuel with
        | O => None
        | S fuel' => b ← m !! p; FindFork_loop fuel' m v (pprev b)
        end
  end.

Definition FindFork (m : BlockMap) (v : CChain) (pindex : option uint256)
  : option (option uint256) :=
  match pindex with
  | None => Some None
  | Some p =>
      b ← m !! p;
      pindex ← (if nHeight b >? chain_Height v then GetAncestor m p (chain_Height v)
                else Some (Some p));
      FindFork_loop (S (Z.to_nat (nHeight b))) m v pindex
  end.

(** [LocatorEntries] *)
Fixpoint LocatorEntries_loop (fuel : nat) (m : BlockMap) (index : uint256) (step : Z)
    (have : list uint256) : option (list uint256) :=
  b ← m !! index;
  let have := have ++ [index] in
  if nHeight b =? 0 then Some have
  else
    match fuel with
    | O => None
    | S fuel' =>
        r ← GetAncestor m index (Z.max (nHeight b - step) 0);
        let step := if (10 <? length have)%nat then step * 2 else step in
        match r with
        | Some index => LocatorEntries_loop fuel' m index step have
        | None => Some have
        end
    end.

Definition LocatorEntries (m : BlockMap) (index : option uint256) : option (list uint256) :=
  match index with
  | None => Some []
  | Some p => b ← m !! p; LocatorEntries_loop (Z.to_nat (nHeight b)) m p 1 []
  end.

(** ** Extending the block index: [BlockManager::AddToBlockIndex]
    (src/src/node/blockstorage.cpp) *)

Record BlockManager := mkBlockManager {
  m_block_index : BlockMap;
  m_best_header : option uint256;
  m_dirty_blockindex : gset Z
}.

(** The new entry once its predecessor is known. *)
Definition link_prev (b : CBlockIndex) (prev : uint256) (height : Z) : CBlockIndex := {|
  pprev := Some prev; pskip := pskip b; nHeight := height; nChainWork := nChainWork b;
  nTx := nTx b; m_chain_tx_count := m_chain_tx_count b; nStatus := nStatus b;
  bi_nVersion := bi_nVersion b; bi_hashMerkleRoot := bi_hashMerkleRoot b;
  bi_nTime := bi_nTime b; bi_nBits := bi_nBits b; bi_nNonce := bi_nNonce b;
  nSequenceId := nSequenceId b; nTimeMax := nTimeMax b |}.

Definition set_work (b : CBlockIndex) (timeMax : Z) (work : arith_uint256) : CBlockIndex := {|
  pprev := pprev b; pskip := pskip b; nHeight := nHeight b; nChainWork := work;
  nTx := nTx b; m_chain_tx_count := m_chain_tx_count b; nStatus := nStatus b;
  bi_nVersion := bi_nVersion b; bi_hashMerkleRoot := bi_hashMerkleRoot b;
  bi_nTime := bi_nTime b; bi_nBits := bi_nBits b; bi_nNonce := bi_nNonce b;
  nSequenceId := nSequenceId b; nTimeMax := timeMax |}.

Section AddToBlockIndex.

(** [CBlockHeader::GetHash], the double SHA-256 of the header: any function. *)
Context (GetHash : CBlockHeader -> uint256).

Definition AddToBlockIndex (st : BlockManager) (block : CBlockHeader)
  : option (BlockManager * uint256) :=
  let h := GetHash block in
  match m_block_index st !! h with
  | Some _ => Some (st, h)
  | None =>
      let m1 := <[h := CBlockIndex_of_header block]> (m_block_index st) in
      bnew ←
        match m1 !! hashPrevBlock block with
        | Some prev =>
            let b := link_prev (CBlockIndex_of_header block) (hashPrevBlock block) (nHeight prev + 1) in
            BuildSkip (<[h := b]> m1) b
        | None => Some (CBlockIndex_of_header block)
        end;
      prev ← (match pprev bnew with
              | Some q => b ← m1 !! q; Some (Some b)
              | None => Some None
              end);
      proof ← GetBlockProof (bi_nBits bnew);
      let timeMax :=
        match prev with
        | Some b => Z.max (nTimeMax b) (bi_nTime bnew)
        | None => bi_nTime bnew
        end in
      let work :=
        uint_add (match prev with Some b => nChainWork b | None => of_u64 0 end) proof in
      let bnew := fst (RaiseValidity (set_work bnew timeMax work) BLOCK_VALID_TREE) in
      let m2 := <[h := bnew]> m1 in
      best ←
        match m_best_header st with
        | None => Some h
        | Some p =>
            b ← m2 !! p;
            Some (if uint_ltb (nChainWork b) (nChainWork bnew) then h else p)
        end;
      Some ({| m_block_index := m2; m_best_header := Some best;
               m_dirty_blockindex := {[ h ]} ∪ m_dirty_blockindex st |}, h)
  end.

End AddToBlockIndex.

(** ** The tree invariant *)

(** [n] steps along [pprev]. *)
Fixpoint walk_back (m : BlockMap) (n : nat) (p : uint256) : option uint256 :=
  match n with
  | O => Some p
  | S n' => b ← m !! p; q ← pprev b; walk_back m n' q
  end.

(** The ancestor of [p] at [height]: the reference definition. *)
Definition ancestor_at (m : BlockMap) (p : uint256) (height : Z) : option uint256 :=
  b ← m !! p; walk_back m (Z.to_nat (nHeight b - height)) p.

Definition index_ok (m : BlockMap) (p : uint256) (b : CBlockIndex) : Prop :=
  0 <= nHeight b /\
  match pprev b with
  | None => nHeight b = 0 /\ pskip b = None
  | Some q => exists b', m !! q = Some b' /\ nHeight b = nHeight b' + 1 /\
      pskip b = walk_back m (Z.to_nat (nHeight b - GetSkipHeight (nHeight b))) p
  end.

(** Heights count the blocks back to a root, and skip pointers are the
    ancestors [BuildSkip] computed. *)
Definition tree_ok (m : BlockMap) : Prop := map_Forall (index_ok m) m.

Lemma tree_ok_lookup (m : BlockMap) (p : uint256) (b : CBlockIndex) :
  tree_ok m -> m !! p = Some b -> index_ok m p b.
Proof. intros H. apply H. Qed.

Lemma walk_back_add (m : BlockMap) (n k : nat) (p : uint256) :
  walk_back m (n + k) p = walk_back m n p ≫= walk_back m k.
Proof.
  revert p; induction n as [|n IH]; intros p; [done|]. cbn [Nat.add walk_back].
  destruct (m !! p) as [b|]; [|done]. cbn. destruct (pprev b) as [q|]; [|done]. cbn. apply IH.
Qed.

(** Walking back stays inside the tree and lowers the height by one per step. *)
Lemma walk_back_total (m : BlockMap) (n : nat) (p : uint256) (b : CBlockIndex) :
  tree_ok m -> m !! p = Some b -> Z.of_nat n <= nHeight b ->
  exists q b', walk_back m n p = Some q /\ m !! q = Some b' /\ nHeight b' = nHeight b - Z.of_nat n.
Proof.
  intros Hok. revert p b; induction n as [|n IH]; intros p b Hp Hn.
  - exists p, b. split; [done|]. split; [done|lia].
  - destruct (tree_ok_lookup m p b Hok Hp) as [Hh Hpp]. cbn [walk_back]. rewrite Hp. cbn.
    destruct (pprev b) as [q|]; [|lia]. destruct Hpp as (b' & Hq & Hhb & _). cbn.
    destruct (IH q b' Hq ltac:(lia)) as (q' & b'' & H1 & H2 & H3).
    exists q', b''. split; [done|]. split; [done|lia].
Qed.

Lemma InvertLowestOne_bound (n : Z) : 0 < n -> 0 <= InvertLowestOne n < n.
Proof.
  intros Hn. unfold InvertLowestOne. split; [apply Z.land_nonneg; lia|].
  assert (Z.land n (n - 1) <= n - 1); [|lia].
  rewrite Z.land_comm. apply land_le_l. lia.
Qed.

Lemma GetSkipHeight_bound (h : Z) : 0 < h -> 0 <= GetSkipHeight h < h.
Proof.
  intros Hh. unfold GetSkipHeight. destruct (Z.ltb_spec h 2); [lia|].
  destruct (Z.land h 1 =? 0); cbn [negb]; [by apply InvertLowestOne_bound|].
  pose proof (InvertLowestOne_bound (h - 1) ltac:(lia)) as H1.
  destruct (decide (InvertLowestOne (h - 1) = 0)) as [->|Hne]; [change (InvertLowestOne 0) with 0; lia|].
  pose proof (InvertLowestOne_bound (InvertLowestOne (h - 1)) ltac:(lia)). lia.
Qed.

(** The skip-list walk reaches the same block as the plain walk. *)
Lemma GetAncestor_loop_correct (fuel : nat) (m : BlockMap) (p : uint256) (b : CBlockIndex) (height : Z) :
  tree_ok m -> m !! p = Some b -> 0 <= height <= nHeight b ->
  nHeight b - height <= Z.of_nat fuel ->
  GetAncestor_loop fuel m p (nHeight b) height = walk_back m (Z.to_nat (nHeight b - height)) p.
Proof.
  intros Hok. revert p b; induction fuel as [|fuel IH]; intros p b Hp Hh Hf; cbn [GetAncestor_loop].
  - rewrite Z.gtb_ltb, (proj2 (Z.ltb_ge _ _)) by lia.
    by replace (Z.to_nat (nHeight b - height)) with 0%nat by lia.
  - rewrite Z.gtb_ltb. destruct (Z.ltb_spec height (nHeight b)) as [Hlt|Hge];
      [|by replace (Z.to_nat (nHeight b - height)) with 0%nat by lia].
    rewrite Hp. cbn -[Z.gtb Z.geb GetSkipHeight].
    destruct (tree_ok_lookup m p b Hok Hp) as [Hh0 Hpp].
    destruct (pprev b) as [q|] eqn:Eq; [|lia]. destruct Hpp as (bq & Hq & Hhq & Hskip).
    pose proof (GetSkipHeight_bound (nHeight b) ltac:(lia)) as Hs.
    set (follow := (_ =? _) || _) in *.
    assert (Hprev : (q0 ← Some q; GetAncestor_loop fuel m q0 (nHeight b - 1) height)
                    = walk_back m (Z.to_nat (nHeight b - height)) p).
    { cbn. replace (nHeight b - 1) with (nHeight bq) by lia. rewrite IH by (done || lia).
      replace (Z.to_nat (nHeight b - height)) with (S (Z.to_nat (nHeight bq - height))) by lia.
      cbn [walk_back]. rewrite Hp. cbn. by rewrite Eq. }
    destruct follow eqn:Ef; [|exact Hprev].
    assert (Hge : height <= GetSkipHeight (nHeight b)).
    { subst follow. apply orb_true_iff in Ef. destruct Ef as [Ef|Ef]; [lia|].
      apply andb_true_iff in Ef. lia. }
    destruct (walk_back_total m (Z.to_nat (nHeight b - GetSkipHeight (nHeight b))) p b Hok Hp ltac:(lia))
      as (s & bs & Hw & Hms & Hhs).
    rewrite Hskip, Hw.
    replace (GetSkipHeight (nHeight b)) with (nHeight bs) by lia. rewrite IH by (done || lia).
    replace (Z.to_nat (nHeight b - height)) with
      (Z.to_nat (nHeight b - GetSkipHeight (nHeight b)) + Z.to_nat (nHeight bs - height))%nat by lia.
    rewrite walk_back_add, Hw. done.
Qed.

Lemma GetAncestor_correct (m : BlockMap) (p : uint256) (b : CBlockIndex) (height : Z) :
  tree_ok m -> m !! p = Some b ->
  GetAncestor m p height =
    if (0 <=? height) && (height <=? nHeight b) then Some (ancestor_at m p height) else Some None.
Proof.
  intros Hok Hp. unfold GetAncestor, ancestor_at. rewrite Hp. cbn -[Z.gtb Z.leb].
  rewrite Z.gtb_ltb. destruct (Z.leb_spec 0 height) as [H0|H0]; cbn [andb].
  - rewrite (proj2 (Z.ltb_ge height 0)), orb_false_r by lia.
    destruct (Z.leb_spec height (nHeight b)) as [H1|H1].
    + rewrite (proj2 (Z.ltb_ge _ _)) by lia. rewrite GetAncestor_loop_correct by (done || lia).
      destruct (walk_back_total m (Z.to_nat (nHeight b - height)) p b Hok Hp ltac:(lia))
        as (q & b' & Hw & _). by rewrite Hw.
    + by rewrite (proj2 (Z.ltb_lt _ _)) by lia.
  - by rewrite (proj2 (Z.ltb_lt height 0)), orb_true_r by lia.
Qed.

(** ** The tree grows at its leaves *)

Section Grow.
Context (m : BlockMap) (h : uint256) (bnew : CBlockIndex).
Context (Hok : tree_ok m) (Hfresh : m !! h = None).

Lemma walk_back_grow (n : nat) (p : uint256) :
  is_Some (m !! p) -> walk_back (<[h := bnew]> m) n p = walk_back m n p.
Proof.
  revert p; induction n as [|n IH]; intros p [b Hp]; [done|]. cbn [walk_back].
  rewrite lookup_insert_ne by congruence. rewrite Hp. cbn.
  destruct (tree_ok_lookup m p b Hok Hp) as [_ Hpp].
  destruct (pprev b) as [q|]; [|done]. destruct Hpp as (b' & Hq & _). cbn. apply IH. eauto.
Qed.

Lemma GetAncestor_loop_grow (fuel : nat) (p : uint256) (b : CBlockIndex) (height : Z) :
  m !! p = Some b -> 0 <= height ->
  GetAncestor_loop fuel (<[h := bnew]> m) p (nHeight b) height
  = GetAncestor_loop fuel m p (nHeight b) height.
Proof.
  revert p b; induction fuel as [|fuel IH]; intros p b Hp Hh; cbn [GetAncestor_loop]; [done|].
  rewrite Z.gtb_ltb. destruct (Z.ltb_spec height (nHeight b)) as [Hlt|]; [|done].
  rewrite lookup_insert_ne by congruence. rewrite Hp. cbn -[Z.gtb Z.geb GetSkipHeight].
  destruct (tree_ok_lookup m p b Hok Hp) as [Hh0 Hpp].
  destruct (pprev b) as [q|]; [|lia]. destruct Hpp as (bq & Hq & Hhq & Hskip).
  pose proof (GetSkipHeight_bound (nHeight b) ltac:(lia)) as Hs.
  destruct (walk_back_total m (Z.to_nat (nHeight b - GetSkipHeight (nHeight b))) p b Hok Hp ltac:(lia))
    as (s & bs & Hw & Hms & Hhs).
  rewrite Hskip, Hw. destruct (_ || _).
  - replace (GetSkipHeight (nHeight b)) with (nHeight bs) by lia. by apply IH.
  - cbn. replace (nHeight b - 1) with (nHeight bq) by lia. by apply IH.
Qed.

Lemma GetAncestor_grow (p : uint256) (height : Z) :
  is_Some (m !! p) -> GetAncestor (<[h := bnew]> m) p height = GetAncestor m p height.
Proof.
  intros [b Hp]. unfold GetAncestor. rewrite lookup_insert_ne by congruence. rewrite Hp.
  cbn -[Z.gtb]. destruct (height >? nHeight b); cbn [orb]; [done|].
  destruct (Z.ltb_spec height 0); [done|]. by rewrite GetAncestor_loop_grow.
Qed.

Lemma tree_ok_grow : index_ok (<[h := bnew]> m) h bnew -> tree_ok (<[h := bnew]> m).
Proof.
  intros Hnew p b. destruct (decide (p = h)) as [->|Hne].
  - rewrite lookup_insert_eq. by intros [= <-].
  - rewrite lookup_insert_ne by congruence. intros Hp.
    destruct (tree_ok_lookup m p b Hok Hp) as [H0 Hpp]. split; [done|].
    destruct (pprev b) as [q|]; [|done]. destruct Hpp as (b' & Hq & Hhb & Hs).
    exists b'. rewrite lookup_insert_ne by congruence. split; [done|]. split; [done|].
    rewrite walk_back_grow by eauto. done.
Qed.

End Grow.

(** ** Work *)

(** The target encoded by [bits], if it is positive and representable. *)
Definition compact_target (bits : Z) : option Z :=
  let '(t, neg, ovf) := SetCompact bits in
  if neg || ovf || (val t =? 0) then None else Some (val t).

(** Expected number of hashes for a block with [bits]. *)
Definition block_work (bits : Z) : Z :=
  match compact_target bits with Some t => 2 ^ 256 / (t + 1) | None => 0 end.

Lemma compact_target_bound (bits t : Z) :
  is_u32 bits -> compact_target bits = Some t -> 0 < t /\ t + 1 < M256.
Proof.
  intros Hb. unfold compact_target. pose proof (SetCompact_spec bits Hb) as Hs. cbv zeta in Hs.
  destruct (SetCompact bits) as [[v neg] ovf]. destruct Hs as (Hw & Hv & _ & Ho).
  destruct (neg || ovf || (val v =? 0)) eqn:E; [done|]. intros [= <-].
  apply orb_false_iff in E. destruct E as [E1 E2]. apply orb_false_iff in E1. destruct E1 as [_ E1].
  pose proof (uint_val_bound v Hw) as Hvb. split; [lia|].
  assert (val v <> M256 - 1); [|lia]. rewrite Ho in E1. apply Z.leb_gt in E1.
  set (m := bits mod 2 ^ 23) in *. set (e := bits / 2 ^ 24) in *.
  assert (0 <= m < 2 ^ 23) by (apply Z.mod_pos_bound; lia).
  assert (2 ^ 23 < M256 - 1) by done.
  destruct (decide (e <= 3)) as [He|He].
  - pose proof (compact_value_small m e ltac:(lia) He) as Hc. rewrite Hv, Z.mod_small by lia. lia.
  - assert (0 <= compact_value m e) as Hc.
    { unfold compact_value. rewrite (proj2 (Z.leb_gt e 3)) by lia. apply Z.mul_nonneg_nonneg; lia. }
    rewrite Hv, Z.mod_small by lia. unfold compact_value. rewrite (proj2 (Z.leb_gt e 3)) by lia.
    replace (8 * (e - 3)) with (8 * (e - 4) + 8) by lia. rewrite Z.pow_add_r by lia.
    intros E. apply (f_equal (fun x => x mod 2 ^ 8)) in E.
    rewrite Z.mul_assoc, Z.mod_mul in E by lia. vm_compute in E. done.
Qed.

Lemma GetBlockProof_spec (bits : Z) : is_u32 bits ->
  exists w, GetBlockProof bits = Some w /\ uint_wf w /\ val w = block_work bits.
Proof.
  intros Hb. unfold block_work. pose proof (fun t => compact_target_bound bits t Hb) as Hct.
  pose proof (SetCompact_spec bits Hb) as Hs. unfold GetBlockProof, compact_target in *.
  cbv zeta in Hs. destruct (SetCompact bits) as [[v neg] ovf]. destruct Hs as (Hw & _).
  rewrite EqualTo_spec by (done || (unfold is_u64; lia)).
  destruct (neg || ovf || (val v =? 0)) eqn:E.
  { exists (of_u64 0). split; [done|]. split; [auto with words|]. apply val_of_u64.
    unfold is_u64. lia. }
  destruct (Hct (val v) eq_refl) as [H0 H1]. clear Hct.
  destruct (val_not v Hw) as [Hnw Hnv].
  assert (Ha : val (uint_add v (of_u64 1)) = val v + 1).
  { rewrite val_add, val_of_u64 by (auto with words || (unfold is_u64; lia)). apply Z.mod_small. lia. }
  pose proof (uint_div_spec (uint_not v) (uint_add v (of_u64 1)) Hnw ltac:(auto with words)) as Hd.
  destruct (uint_div _ _) as [q|]; [|lia]. destruct Hd as (_ & Hq & Hqv). cbn.
  exists (uint_add q (of_u64 1)). split; [done|]. split; [auto with words|].
  rewrite val_add, val_of_u64 by (auto with words || (unfold is_u64; lia)).
  rewrite Hqv, Hnv, Ha. change (2 ^ 256) with M256.
  replace (M256 - 1 - val v) with (M256 + -1 * (val v + 1)) by ring.
  rewrite Z.div_add by lia. replace (M256 / (val v + 1) + -1 + 1) with (M256 / (val v + 1)) by ring.
  apply Z.mod_small. split; [apply Z.div_pos; lia|]. apply Z.div_lt; lia.
Qed.

Definition works_ok (m : BlockMap) : Prop :=
  map_Forall (fun _ b => uint_wf (nChainWork b) /\ is_u32 (bi_nBits b)) m.

(** What [AddToBlockIndex] stores for a header whose predecessor is known. *)
Lemma AddToBlockIndex_new (GetHash : CBlockHeader -> uint256) (st : BlockManager)
    (block : CBlockHeader) (prev : CBlockIndex) (best : uint256) :
  tree_ok (m_block_index st) -> works_ok (m_block_index st) ->
  m_best_header st = Some best -> is_Some (m_block_index st !! best) ->
  is_u32 (nBits block) ->
  m_block_index st !! GetHash block = None ->
  m_block_index st !! hashPrevBlock block = Some prev ->
  exists st' b,
    AddToBlockIndex GetHash st block = Some (st', GetHash block) /\
    m_block_index st' = <[GetHash block := b]> (m_block_index st) /\
    pprev b = Some (hashPrevBlock block) /\ nHeight b = nHeight prev + 1 /\
    uint_wf (nChainWork b) /\
    val (nChainWork b) = (val (nChainWork prev) + block_work (nBits block)) mod 2 ^ 256 /\
    bi_nBits b = nBits block /\ bi_nTime b = nTime block /\
    nTimeMax b = Z.max (nTimeMax prev) (nTime block) /\
    nStatus b = BLOCK_VALID_TREE /\ GetBlockHeader b = block /\
    tree_ok (m_block_index st') /\ works_ok (m_block_index st') /\
    exists p bb, m_best_header st' = Some p /\ m_block_index st' !! p = Some bb /\
      (p = best \/ p = GetHash block) /\ val (nChainWork b) <= val (nChainWork bb).
Proof.
  intros Hok Hwk Hbest [bbest Hbb] Hbits Hfresh Hprev.
  set (h := GetHash block) in *. set (m := m_block_index st) in *.
  assert (Hne : h <> hashPrevBlock block) by congruence.
  destruct (tree_ok_lookup m _ _ Hok Hprev) as [Hh0 _].
  set (bl := link_prev (CBlockIndex_of_header block) (hashPrevBlock block) (nHeight prev + 1)).
  assert (Hskip : exists s, BuildSkip (<[h := bl]> (<[h := CBlockIndex_of_header block]> m)) bl
     = Some (set_pskip bl s) /\
     s = ancestor_at m (hashPrevBlock block) (GetSkipHeight (nHeight bl))).
  { rewrite insert_insert_eq. unfold BuildSkip. cbn [pprev bl link_prev].
    rewrite GetAncestor_grow by eauto. rewrite (GetAncestor_correct m _ prev) by done.
    pose proof (GetSkipHeight_bound (nHeight bl) ltac:(cbn; lia)) as Hs. cbn [nHeight bl link_prev] in *.
    rewrite (proj2 (Z.leb_le 0 _)), (proj2 (Z.leb_le _ (nHeight prev))) by lia. cbn.
    eexists. split; [done|done]. }
  destruct Hskip as (s & Hbs & Hs).
  destruct (GetBlockProof_spec (nBits block) Hbits) as (w & Hw & Hww & Hwv).
  destruct (Hwk _ _ Hprev) as [Hpw _].
  set (bnew := fst (RaiseValidity (set_work (set_pskip bl s)
     (Z.max (nTimeMax prev) (bi_nTime (set_pskip bl s)))
     (uint_add (nChainWork prev) w)) BLOCK_VALID_TREE)).
  assert (Hwork : uint_wf (nChainWork bnew)) by (apply (uint_add_wf _ _ Hpw Hww)).
  assert (Hok' : tree_ok (<[h := bnew]> m)).
  { apply tree_ok_grow; [done|done|]. unfold index_ok.
    change (pprev bnew) with (Some (hashPrevBlock block)). change (pskip bnew) with s.
    change (nHeight bnew) with (nHeight prev + 1). split; [lia|].
    exists prev. rewrite lookup_insert_ne by done. split; [done|]. split; [done|].
    pose proof (GetSkipHeight_bound (nHeight prev + 1) ltac:(lia)) as Hb.
    replace (Z.to_nat (nHeight prev + 1 - GetSkipHeight (nHeight prev + 1)))
      with (S (Z.to_nat (nHeight prev - GetSkipHeight (nHeight prev + 1)))) by lia.
    cbn [walk_back]. rewrite lookup_insert_eq. cbn [mbind option_bind].
    change (pprev bnew) with (Some (hashPrevBlock block)). cbn [mbind option_bind].
    rewrite walk_back_grow by eauto. rewrite Hs. unfold ancestor_at. rewrite Hprev. done. }
  assert (Hwk' : works_ok (<[h := bnew]> m)).
  { intros p b Hp. destruct (decide (p = h)) as [->|].
    - rewrite lookup_insert_eq in Hp. injection Hp as <-. done.
    - rewrite lookup_insert_ne in Hp by done. by apply (Hwk p). }
  assert (Hbh : best <> h) by congruence.
  destruct (Hwk _ _ Hbb) as [Hbw _].
  unfold AddToBlockIndex. fold h m. rewrite Hfresh.
  rewrite lookup_insert_ne by done. rewrite Hprev. fold bl. rewrite Hbs. cbn [mbind option_bind].
  cbn [pprev set_pskip bl link_prev]. rewrite lookup_insert_ne by done. rewrite Hprev.
  cbn [mbind option_bind bi_nBits set_pskip bl link_prev CBlockIndex_of_header].
  rewrite Hw. cbn [mbind option_bind]. fold bnew. rewrite insert_insert_eq, Hbest.
  rewrite lookup_insert_ne by done. rewrite Hbb. cbn [mbind option_bind].
  eexists _, bnew. split; [reflexivity|]. cbn [m_block_index m_best_header].
  split; [done|]. do 2 (split; [done|]). split; [done|].
  split.
  { change (nChainWork bnew) with (uint_add (nChainWork prev) w).
    rewrite val_add by done. by rewrite Hwv. }
  do 4 (split; [done|]). split; [by destruct block|]. split; [done|]. split; [done|].
  rewrite uint_ltb_spec by done.
  destruct (Z.ltb_spec (val (nChainWork bbest)) (val (nChainWork bnew))) as [Hl|Hl].
  - exists h, bnew. rewrite lookup_insert_eq. do 2 (split; [done|]). split; [by right|lia].
  - exists best, bbest. rewrite lookup_insert_ne by done. do 2 (split; [done|]). split; [by left|lia].
Qed.

(** ** Common ancestors *)

Definition is_ancestor (m : BlockMap) (d p : uint256) : Prop := exists n, walk_back m n p = Some d.

Lemma walk_back_eq_mono (m : BlockMap) (i j : nat) (pa pb : uint256) :
  walk_back m i pa = walk_back m i pb -> (i <= j)%nat -> walk_back m j pa = walk_back m j pb.
Proof.
  intros H Hij. replace j with (i + (j - i))%nat by lia. rewrite !walk_back_add. by rewrite H.
Qed.

(** The height of a block reached by walking back. *)
Lemma walk_back_height (m : BlockMap) (n : nat) (p d : uint256) (b : CBlockIndex) :
  tree_ok m -> m !! p = Some b -> walk_back m n p = Some d ->
  exists bd, m !! d = Some bd /\ nHeight bd = nHeight b - Z.of_nat n /\ Z.of_nat n <= nHeight b.
Proof.
  intros Hok Hp Hw. destruct (decide (Z.of_nat n <= nHeight b)) as [Hn|Hn].
  - destruct (walk_back_total m n p b Hok Hp Hn) as (q & b' & H1 & H2 & H3).
    rewrite H1 in Hw. injection Hw as <-. eauto.
  - exfalso. destruct (tree_ok_lookup m p b Hok Hp) as [H0 _].
    destruct (walk_back_total m (Z.to_nat (nHeight b)) p b Hok Hp ltac:(lia)) as (q & b' & H1 & H2 & H3).
    replace n with (Z.to_nat (nHeight b) + S (n - Z.to_nat (nHeight b) - 1))%nat in Hw by lia.
    rewrite walk_back_add, H1 in Hw. cbn [mbind option_bind walk_back] in Hw. rewrite H2 in Hw.
    cbn [mbind option_bind] in Hw. destruct (tree_ok_lookup m q b' Hok H2) as [_ Hq].
    destruct (pprev b') as [x|]; [|done]. destruct Hq as (bx & Hx & Hhx & _).
    destruct (tree_ok_lookup m x bx Hok Hx) as [Hx0 _]. lia.
Qed.

(** [r] is the first block at which the two equally long walks meet. *)
Definition first_meet (m : BlockMap) (pa pb : uint256) (r : option uint256) : Prop :=
  match r with
  | Some c => exists n, walk_back m n pa = Some c /\ walk_back m n pb = Some c /\
      forall i, (i < n)%nat -> walk_back m i pa <> walk_back m i pb
  | None => forall i q, walk_back m i pa = Some q -> walk_back m i pb <> Some q
  end.

Lemma first_meet_shift (m : BlockMap) (k : nat) (pa pb sa sb : uint256) (r : option uint256) :
  walk_back m k pa = Some sa -> walk_back m k pb = Some sb ->
  (forall i, (i < k)%nat -> walk_back m i pa <> walk_back m i pb) ->
  first_meet m sa sb r -> first_meet m pa pb r.
Proof.
  intros Ha Hb Hk. destruct r as [c|]; unfold first_meet.
  - intros (n & H1 & H2 & H3). exists (k + n)%nat. rewrite !walk_back_add, Ha, Hb. cbn.
    split; [done|]. split; [done|]. intros i Hi. destruct (decide (i < k)%nat); [by apply Hk|].
    replace i with (k + (i - k))%nat by lia. rewrite !walk_back_add, Ha, Hb. apply H3. lia.
  - intros H i q H1 H2. destruct (decide (i < k)%nat) as [Hi|Hi]; [by apply (Hk i Hi); congruence|].
    replace i with (k + (i - k))%nat in H1, H2 by lia. rewrite walk_back_add, Ha in H1.
    rewrite walk_back_add, Hb in H2. by apply (H (i - k)%nat q).
Qed.

Lemma LastCommonAncestor_loop_correct (fuel : nat) (m : BlockMap) (pa pb : uint256)
    (a b : CBlockIndex) :
  tree_ok m -> m !! pa = Some a -> m !! pb = Some b -> nHeight a = nHeight b ->
  nHeight a < Z.of_nat fuel ->
  exists r, LastCommonAncestor_loop fuel m (Some pa) (Some pb) = Some r /\ first_meet m pa pb r.
Proof.
  intros Hok. revert pa pb a b; induction fuel as [|fuel IH]; intros pa pb a b Ha Hb Hh Hf.
  { destruct (tree_ok_lookup m pa a Hok Ha). lia. }
  cbn [LastCommonAncestor_loop]. destruct (decide (pa = pb)) as [->|Hne].
  { rewrite bool_decide_eq_true_2 by done. exists (Some pb). split; [done|]. exists 0%nat.
    split; [done|]. split; [done|lia]. }
  rewrite bool_decide_eq_false_2 by congruence. cbn [mbind option_bind]. rewrite Ha, Hb.
  cbn [mbind option_bind].
  destruct (tree_ok_lookup m pa a Hok Ha) as [Ha0 Hpa]. destruct (tree_ok_lookup m pb b Hok Hb) as [_ Hpb].
  destruct (decide (nHeight a = 0)) as [H0|H0].
  - assert (pprev a = None /\ pskip a = None) as [-> ->].
    { destruct (pprev a) as [q|]; [|by destruct Hpa]. destruct Hpa as (b' & Hq & Hhq & _).
      destruct (tree_ok_lookup m q b' Hok Hq). lia. }
    assert (pprev b = None /\ pskip b = None) as [Eb ->].
    { destruct (pprev b) as [q|]; [|by destruct Hpb]. destruct Hpb as (b' & Hq & Hhq & _).
      destruct (tree_ok_lookup m q b' Hok Hq). lia. }
    rewrite Eb. rewrite bool_decide_eq_true_2 by done. exists None.
    split; [by destruct fuel|]. intros [|i] q; cbn [walk_back]; [congruence|].
    rewrite Hb. cbn. by rewrite Eb.
  - destruct (pprev a) as [qa|] eqn:Ea; [|lia]. destruct (pprev b) as [qb|] eqn:Eb; [|lia].
    destruct Hpa as (a' & Hqa & Hha & Hsa). destruct Hpb as (b' & Hqb & Hhb & Hsb).
    pose proof (GetSkipHeight_bound (nHeight a) ltac:(lia)) as Hs. rewrite <- Hh in Hsb.
    set (k := Z.to_nat (nHeight a - GetSkipHeight (nHeight a))) in *.
    destruct (bool_decide_reflect (pskip a = pskip b)) as [Esk|Esk].
    + destruct (IH qa qb a' b' Hqa Hqb ltac:(lia) ltac:(lia)) as (r & Hr & Hm).
      exists r. split; [done|]. apply (first_meet_shift m 1 pa pb qa qb); [| | |done].
      * cbn [walk_back]. rewrite Ha. cbn. by rewrite Ea.
      * cbn [walk_back]. rewrite Hb. cbn. by rewrite Eb.
      * intros i Hi. assert (i = 0%nat) as -> by lia. cbn [walk_back]. congruence.
    + destruct (walk_back_total m k pa a Hok Ha ltac:(lia)) as (sa & ba & Hwa & Hma & Hhsa).
      destruct (walk_back_total m k pb b Hok Hb ltac:(lia)) as (sb & bb & Hwb & Hmb & Hhsb).
      rewrite Hsa, Hsb, Hwa, Hwb in *.
      destruct (IH sa sb ba bb Hma Hmb ltac:(lia) ltac:(lia)) as (r & Hr & Hm).
      exists r. split; [done|]. apply (first_meet_shift m k pa pb sa sb); [done|done| |done].
      intros i Hi Heq. apply Esk. rewrite <- Hwa, <- Hwb. by apply (walk_back_eq_mono m i); [|lia].
Qed.

(** The ancestor at a lower height, as the rewinding step of the callers computes it. *)
Lemma GetAncestor_in_range (m : BlockMap) (p : uint256) (b : CBlockIndex) (height : Z) :
  tree_ok m -> m !! p = Some b -> 0 <= height <= nHeight b ->
  exists q bq, GetAncestor m p height = Some (Some q) /\
    walk_back m (Z.to_nat (nHeight b - height)) p = Some q /\ m !! q = Some bq /\ nHeight bq = height.
Proof.
  intros Hok Hp Hh. rewrite (GetAncestor_correct m p b) by done. unfold ancestor_at.
  rewrite Hp, (proj2 (Z.leb_le 0 _)), (proj2 (Z.leb_le _ (nHeight b))) by lia. cbn [andb mbind option_bind].
  destruct (walk_back_total m (Z.to_nat (nHeight b - height)) p b Hok Hp ltac:(lia))
    as (q & bq & H1 & H2 & H3).
  exists q, bq. rewrite H1. split; [done|]. split; [done|]. split; [done|lia].
Qed.

Lemma GetAncestor_self (m : BlockMap) (p : uint256) (b : CBlockIndex) :
  tree_ok m -> m !! p = Some b -> GetAncestor m p (nHeight b) = Some (Some p).
Proof.
  intros Hok Hp. destruct (tree_ok_lookup m p b Hok Hp) as [H0 _].
  rewrite (GetAncestor_correct m p b) by done. unfold ancestor_at. rewrite Hp.
  cbn [mbind option_bind]. rewrite Z.sub_diag, (proj2 (Z.leb_le 0 _)), Z.leb_refl by lia. done.
Qed.

(** The abstract specification of a fork point: the common ancestor that every
    common ancestor is an ancestor of, or no common ancestor at all. *)
Definition is_last_common (m : BlockMap) (pa pb : uint256) (r : option uint256) : Prop :=
  match r with
  | Some c => is_ancestor m c pa /\ is_ancestor m c pb /\
      forall d, is_ancestor m d pa -> is_ancestor m d pb -> is_ancestor m d c
  | None => forall d, is_ancestor m d pa -> ~ is_ancestor m d pb
  end.

Lemma LastCommonAncestor_correct (m : BlockMap) (pa pb : uint256) (a b : CBlockIndex) :
  tree_ok m -> m !! pa = Some a -> m !! pb = Some b ->
  exists r, LastCommonAncestor m pa pb = Some r /\ is_last_common m pa pb r.
Proof.
  intros Hok Ha Hb. destruct (tree_ok_lookup m pa a Hok Ha) as [Ha0 _].
  destruct (tree_ok_lookup m pb b Hok Hb) as [Hb0 _].
  set (H := Z.min (nHeight a) (nHeight b)).
  destruct (GetAncestor_in_range m pa a H Hok Ha ltac:(lia)) as (qa & a' & Hga & Hwa & Hma & Hha).
  destruct (GetAncestor_in_range m pb b H Hok Hb ltac:(lia)) as (qb & b' & Hgb & Hwb & Hmb & Hhb).
  destruct (LastCommonAncestor_loop_correct (S (Z.to_nat H)) m qa qb a' b' Hok Hma Hmb ltac:(lia) ltac:(lia))
    as (r & Hr & Hmeet).
  exists r. split.
  - unfold LastCommonAncestor. rewrite Ha, Hb. cbn [mbind option_bind]. fold H. rewrite !Z.gtb_ltb.
    destruct (Z.ltb_spec (nHeight b) (nHeight a)) as [Hlt|Hge].
    + replace (nHeight b) with H in * by lia. rewrite Hga. cbn [mbind option_bind].
      rewrite Z.sub_diag in Hwb. cbn [Z.to_nat walk_back] in Hwb. injection Hwb as ->. done.
    + destruct (Z.ltb_spec (nHeight a) (nHeight b)) as [Hlt|Hge'].
      * replace (nHeight a) with H in * by lia. rewrite Hgb. cbn [mbind option_bind].
        rewrite Z.sub_diag in Hwa. cbn [Z.to_nat walk_back] in Hwa. injection Hwa as ->. done.
      * replace (nHeight a - H) with 0 in Hwa by lia. replace (nHeight b - H) with 0 in Hwb by lia.
        cbn [Z.to_nat walk_back] in *. injection Hwa as ->. injection Hwb as ->. done.
  - assert (Hcommon : forall d, is_ancestor m d pa -> is_ancestor m d pb ->
      exists t, walk_back m t qa = Some d /\ walk_back m t qb = Some d).
    { intros d [i Hi] [j Hj].
      destruct (walk_back_height m i pa d a Hok Ha Hi) as (bd & Hd & Hd1 & Hd2).
      destruct (walk_back_height m j pb d b Hok Hb Hj) as (bd' & Hd' & Hd1' & Hd2').
      rewrite Hd in Hd'. injection Hd' as <-.
      destruct (tree_ok_lookup m d bd Hok Hd) as [Hbd _].
      replace i with (Z.to_nat (nHeight a - H) + Z.to_nat (H - nHeight bd))%nat in Hi by lia.
      replace j with (Z.to_nat (nHeight b - H) + Z.to_nat (H - nHeight bd))%nat in Hj by lia.
      rewrite walk_back_add, Hwa in Hi. rewrite walk_back_add, Hwb in Hj. eauto. }
    destruct r as [c|].
    + destruct Hmeet as (n & H1 & H2 & H3). split; [|split].
      * exists (Z.to_nat (nHeight a - H) + n)%nat. by rewrite walk_back_add, Hwa.
      * exists (Z.to_nat (nHeight b - H) + n)%nat. by rewrite walk_back_add, Hwb.
      * intros d Hda Hdb. destruct (Hcommon d Hda Hdb) as (t & Ht1 & Ht2).
        destruct (decide (t < n)%nat) as [Hlt|Hge]; [by exfalso; apply (H3 t Hlt); congruence|].
        exists (t - n)%nat. replace t with (n + (t - n))%nat in Ht1 by lia.
        by rewrite walk_back_add, H1 in Ht1.
    + intros d Hda Hdb. destruct (Hcommon d Hda Hdb) as (t & Ht1 & Ht2). by apply (Hmeet t d).
Qed.

(** ** The active chain holds the ancestors of its tip *)

Definition chain_of (m : BlockMap) (p : uint256) (v : CChain) : Prop :=
  exists b, m !! p = Some b /\ Z.of_nat (length v) = nHeight b + 1 /\
  forall i, (i < length v)%nat -> v !! i = Some (ancestor_at m p (Z.of_nat i)).

Lemma ancestor_at_trans (m : BlockMap) (p q : uint256) (b : CBlockIndex) (i j : Z) :
  tree_ok m -> m !! p = Some b -> ancestor_at m p j = Some q -> 0 <= i <= j -> j <= nHeight b ->
  ancestor_at m p i = ancestor_at m q i.
Proof.
  intros Hok Hp Hj Hij Hjb. unfold ancestor_at in *. rewrite Hp in *. cbn [mbind option_bind] in *.
  destruct (walk_back_height m _ p q b Hok Hp Hj) as (bq & Hq & Hhq & _). rewrite Hq.
  cbn [mbind option_bind].
  replace (Z.to_nat (nHeight b - i)) with (Z.to_nat (nHeight b - j) + Z.to_nat (nHeight bq - i))%nat by lia.
  by rewrite walk_back_add, Hj.
Qed.

Lemma ancestor_at_Some (m : BlockMap) (p : uint256) (b : CBlockIndex) (i : Z) :
  tree_ok m -> m !! p = Some b -> 0 <= i <= nHeight b ->
  exists q bq, ancestor_at m p i = Some q /\ m !! q = Some bq /\ nHeight bq = i.
Proof.
  intros Hok Hp Hi. destruct (GetAncestor_in_range m p b i Hok Hp Hi) as (q & bq & _ & H1 & H2 & H3).
  exists q, bq. unfold ancestor_at. by rewrite Hp.
Qed.

Lemma ancestor_at_self (m : BlockMap) (p : uint256) (b : CBlockIndex) :
  m !! p = Some b -> ancestor_at m p (nHeight b) = Some p.
Proof. intros Hp. unfold ancestor_at. rewrite Hp. cbn. by rewrite Z.sub_diag. Qed.

(** The entry below an entry of the chain. *)
Lemma ancestor_at_pred (m : BlockMap) (p q : uint256) (b bq : CBlockIndex) :
  tree_ok m -> m !! p = Some b -> m !! q = Some bq -> 0 < nHeight bq <= nHeight b ->
  ancestor_at m p (nHeight bq) = Some q -> pprev bq = ancestor_at m p (nHeight bq - 1).
Proof.
  intros Hok Hp Hq Hh Ha. rewrite (ancestor_at_trans m p q b _ (nHeight bq)) by (done || lia).
  unfold ancestor_at. rewrite Hq. cbn [mbind option_bind].
  replace (Z.to_nat (nHeight bq - (nHeight bq - 1))) with 1%nat by lia.
  cbn [walk_back]. rewrite Hq. cbn. by destruct (pprev bq).
Qed.

Lemma length_resize (v : CChain) (n : nat) : length (resize v n) = n.
Proof. unfold resize. rewrite length_app, length_take, length_replicate. lia. Qed.

Lemma lookup_resize_Some (v : CChain) (n i : nat) (p : uint256) :
  resize v n !! i = Some (Some p) -> v !! i = Some (Some p).
Proof.
  unfold resize. intros H. apply lookup_app_Some in H as [H|[_ H]].
  - by apply lookup_take_Some in H as [H _].
  - by apply lookup_replicate in H as [H _].
Qed.

Lemma lookup_resize_lt (v : CChain) (n i : nat) :
  (i < n)%nat -> (i < length v)%nat -> resize v n !! i = v !! i.
Proof.
  intros H1 H2. unfold resize. rewrite lookup_app_l by (rewrite length_take; lia).
  apply lookup_take_lt. lia.
Qed.

Lemma SetTip_loop_correct (fuel : nat) (m : BlockMap) (v0 v : CChain) (p q : uint256)
    (b bq : CBlockIndex) :
  tree_ok m -> (v0 = [] \/ exists p0, chain_of m p0 v0) ->
  m !! p = Some b -> m !! q = Some bq -> nHeight bq <= nHeight b ->
  ancestor_at m p (nHeight bq) = Some q -> nHeight bq < Z.of_nat fuel ->
  Z.of_nat (length v) = nHeight b + 1 ->
  (forall i, nHeight bq < Z.of_nat i -> (i < length v)%nat -> v !! i = Some (ancestor_at m p (Z.of_nat i))) ->
  (forall i, Z.of_nat i <= nHeight bq -> v !! i = resize v0 (length v) !! i) ->
  exists v', SetTip_loop fuel m v (Some q) = Some v' /\ chain_of m p v'.
Proof.
  intros Hok Hv0 Hp. revert v q bq; induction fuel as [|fuel IH]; intros v q bq Hq Hle Ha Hf Hl Hhi Hlo;
    destruct (tree_ok_lookup m q bq Hok Hq) as [Hq0 Hpq]; [lia|].
  cbn [SetTip_loop]. rewrite Hq. cbn [mbind option_bind].
  destruct (bool_decide_reflect (v !!! Z.to_nat (nHeight bq) = Some q)) as [E|E].
  - exists v. split; [done|]. exists b. split; [done|]. split; [done|]. intros i Hi.
    destruct (decide (nHeight bq < Z.of_nat i)) as [Hgt|Hngt]; [by apply Hhi|].
    rewrite list_lookup_total_alt in E.
    destruct (v !! Z.to_nat (nHeight bq)) as [x|] eqn:Ex; [|by apply lookup_ge_None in Ex; lia].
    cbn in E. subst x. rewrite Hlo in Ex by lia. apply lookup_resize_Some in Ex.
    destruct Hv0 as [->|(p0 & b0 & Hp0 & Hl0 & Hc0)]; [done|].
    assert (Z.to_nat (nHeight bq) < length v0)%nat as Hlt by (apply lookup_lt_Some in Ex; done).
    rewrite Hc0 in Ex by done. injection Ex as Ex. rewrite Z2Nat.id in Ex by lia.
    rewrite Hlo, lookup_resize_lt, Hc0 by lia. f_equal.
    rewrite (ancestor_at_trans m p0 q b0 _ (nHeight bq)) by (done || lia).
    by rewrite (ancestor_at_trans m p q b _ (nHeight bq)) by (done || lia).
  - destruct (decide (nHeight bq = 0)) as [H0|H0].
    + assert (pprev bq = None) as ->.
      { destruct (pprev bq) as [x|]; [|done]. destruct Hpq as (bx & Hx & Hhx & _).
        destruct (tree_ok_lookup m x bx Hok Hx). lia. }
      exists (<[Z.to_nat (nHeight bq) := Some q]> v). split; [by destruct fuel|].
      exists b. rewrite length_insert. split; [done|]. split; [done|]. intros i Hi.
      destruct (decide (i = 0%nat)) as [->|].
      * rewrite H0 in *. cbn [Z.to_nat]. rewrite list_lookup_insert_eq by lia. by rewrite <- Ha.
      * rewrite list_lookup_insert_ne by lia. apply Hhi; lia.
    + pose proof (ancestor_at_pred m p q b bq Hok Hp Hq ltac:(lia) Ha) as Hpr.
      destruct (ancestor_at_Some m p b (nHeight bq - 1) Hok Hp ltac:(lia)) as (x & bx & Hx & Hmx & Hhx).
      rewrite Hpr, Hx. apply (IH _ x bx); rewrite ?length_insert; try done; try lia.
      * by rewrite Hhx.
      * intros i Hi1 Hi2. destruct (decide (Z.of_nat i = nHeight bq)) as [Ei|].
        -- replace (Z.to_nat (nHeight bq)) with i by lia. rewrite list_lookup_insert_eq by lia.
           by rewrite Ei, Ha.
        -- rewrite list_lookup_insert_ne by lia. apply Hhi; lia.
      * intros i Hi. rewrite list_lookup_insert_ne by lia. apply Hlo. lia.
Qed.

Lemma SetTip_correct (m : BlockMap) (v0 : CChain) (p : uint256) (b : CBlockIndex) :
  tree_ok m -> (v0 = [] \/ exists p0, chain_of m p0 v0) -> m !! p = Some b ->
  exists v, SetTip m v0 p = Some v /\ chain_of m p v.
Proof.
  intros Hok Hv0 Hp. destruct (tree_ok_lookup m p b Hok Hp) as [H0 _].
  unfold SetTip. rewrite Hp. cbn [mbind option_bind].
  apply (SetTip_loop_correct _ m v0 _ p p b b); rewrite ?length_resize; try done; try lia.
  by apply ancestor_at_self.
Qed.

Lemma chain_at_correct (m : BlockMap) (t : uint256) (bt : CBlockIndex) (v : CChain) (i : Z) :
  chain_of m t v -> m !! t = Some bt -> 0 <= i ->
  chain_at v i = if i <=? nHeight bt then ancestor_at m t i else None.
Proof.
  intros (b & Hb & Hl & Hc) Ht Hi. rewrite Ht in Hb. injection Hb as <-. unfold chain_at.
  rewrite (proj2 (Z.ltb_ge i 0)) by lia. cbn [orb]. rewrite Z.geb_leb.
  destruct (Z.leb_spec i (nHeight bt)) as [H|H].
  - rewrite (proj2 (Z.leb_gt _ _)) by lia. rewrite list_lookup_total_alt, Hc by lia.
    cbn. by rewrite Z2Nat.id by lia.
  - by rewrite (proj2 (Z.leb_le _ _)) by lia.
Qed.

(** Membership in the active chain is being an ancestor of its tip. *)
Lemma chain_Contains_correct (m : BlockMap) (t p : uint256) (b : CBlockIndex) (v : CChain) :
  tree_ok m -> chain_of m t v -> m !! p = Some b ->
  exists c, chain_Contains m v p = Some c /\ (c = true <-> is_ancestor m p t).
Proof.
  intros Hok Hc Hp. pose proof Hc as (bt & Ht & _). destruct (tree_ok_lookup m p b Hok Hp) as [H0 _].
  unfold chain_Contains. rewrite Hp. cbn [mbind option_bind]. eexists. split; [done|].
  rewrite bool_decide_eq_true, (chain_at_correct m t bt v) by done.
  destruct (Z.leb_spec (nHeight b) (nHeight bt)) as [Hle|Hgt].
  - unfold ancestor_at. rewrite Ht. cbn [mbind option_bind]. split; [by eexists|].
    intros [n Hn]. destruct (walk_back_height m n t p bt Hok Ht Hn) as (bp & Hbp & Hh & _).
    rewrite Hp in Hbp. injection Hbp as <-. by replace (Z.to_nat (nHeight bt - nHeight b)) with n by lia.
  - split; [done|]. intros [n Hn]. destruct (walk_back_height m n t p bt Hok Ht Hn) as (bp & Hbp & Hh & _).
    rewrite Hp in Hbp. injection Hbp as <-. lia.
Qed.

Lemma FindFork_loop_correct (fuel : nat) (m : BlockMap) (t q : uint256) (bq : CBlockIndex) (v : CChain) :
  tree_ok m -> chain_of m t v -> m !! q = Some bq -> nHeight bq < Z.of_nat fuel ->
  exists r, FindFork_loop fuel m v (Some q) = Some r /\ is_last_common m q t r.
Proof.
  intros Hok Hc. revert q bq; induction fuel as [|fuel IH]; intros q bq Hq Hf;
    destruct (tree_ok_lookup m q bq Hok Hq) as [Hq0 Hpq]; [lia|].
  cbn [FindFork_loop]. destruct (chain_Contains_correct m t q bq v Hok Hc Hq) as (c & -> & Hct).
  cbn [mbind option_bind]. destruct c.
  - exists (Some q). split; [done|]. split; [by exists 0%nat|]. split; [by apply Hct|done].
  - assert (Hnot : ~ is_ancestor m q t) by (intros Hx; apply Hct in Hx; done).
    assert (Hstep : forall d, is_ancestor m d q -> is_ancestor m d t ->
      exists x, pprev bq = Some x /\ is_ancestor m d x).
    { intros d [[|n] Hn] Hd; [cbn in Hn; injection Hn as ->; done|].
      cbn [walk_back] in Hn. rewrite Hq in Hn. cbn in Hn. destruct (pprev bq) as [x|]; [|done].
      exists x. split; [done|]. by exists n. }
    rewrite Hq. cbn [mbind option_bind]. destruct (pprev bq) as [x|] eqn:Ex.
    + destruct Hpq as (bx & Hx & Hhx & _). destruct (IH x bx Hx ltac:(lia)) as (r & Hr & Hm).
      exists r. split; [done|]. destruct r as [c|].
      * destruct Hm as ([n Hn] & H2 & H3). split; [|split; [done|]].
        -- exists (S n). cbn [walk_back]. rewrite Hq. cbn. by rewrite Ex.
        -- intros d Hd1 Hd2. destruct (Hstep d Hd1 Hd2) as (x' & [= <-] & Hdx). by apply H3.
      * intros d Hd1 Hd2. destruct (Hstep d Hd1 Hd2) as (x' & [= <-] & Hdx). by apply (Hm d).
    + exists None. split; [by destruct fuel|]. intros d Hd1 Hd2. by destruct (Hstep d Hd1 Hd2) as (x' & ? & _).
Qed.

Lemma FindFork_correct (m : BlockMap) (t p : uint256) (b : CBlockIndex) (v : CChain) :
  tree_ok m -> chain_of m t v -> m !! p = Some b ->
  exists r, FindFork m v (Some p) = Some r /\ is_last_common m p t r.
Proof.
  intros Hok Hc Hp. pose proof Hc as (bt & Ht & Hl & _).
  destruct (tree_ok_lookup m p b Hok Hp) as [H0 _]. destruct (tree_ok_lookup m t bt Hok Ht) as [Ht0 _].
  unfold FindFork. rewrite Hp. cbn [mbind option_bind]. unfold chain_Height.
  replace (Z.of_nat (length v) - 1) with (nHeight bt) by lia. rewrite Z.gtb_ltb.
  destruct (Z.ltb_spec (nHeight bt) (nHeight b)) as [Hlt|Hge].
  - destruct (GetAncestor_in_range m p b (nHeight bt) Hok Hp ltac:(lia)) as (q & bq & -> & Hw & Hq & Hhq).
    cbn [mbind option_bind].
    destruct (FindFork_loop_correct (S (Z.to_nat (nHeight b))) m t q bq v Hok Hc Hq ltac:(lia)) as (r & Hr & Hm).
    exists r. split; [done|].
    assert (Hup : forall d, is_ancestor m d q -> is_ancestor m d p).
    { intros d [n Hn]. exists (Z.to_nat (nHeight b - nHeight bt) + n)%nat. by rewrite walk_back_add, Hw. }
    assert (Hdown : forall d, is_ancestor m d p -> is_ancestor m d t -> is_ancestor m d q).
    { intros d [i Hi] [j Hj]. destruct (walk_back_height m i p d b Hok Hp Hi) as (bd & Hd & Hd1 & Hd2).
      destruct (walk_back_height m j t d bt Hok Ht Hj) as (bd' & Hd' & Hd1' & _).
      rewrite Hd in Hd'. injection Hd' as <-. exists (i - Z.to_nat (nHeight b - nHeight bt))%nat.
      replace i with (Z.to_nat (nHeight b - nHeight bt) + (i - Z.to_nat (nHeight b - nHeight bt)))%nat in Hi by lia.
      by rewrite walk_back_add, Hw in Hi. }
    destruct r as [c|]; [|intros d Hd1 Hd2; by apply (Hm d); [apply Hdown|]].
    destruct Hm as (H1 & H2 & H3). split; [by apply Hup|]. split; [done|]. intros d Hd1 Hd2.
    apply H3; [by apply Hdown|done].
  - cbn [mbind option_bind]. apply (FindFork_loop_correct _ m t p b v); [done|done|done|lia].
Qed.

(** Common-ancestor specifications determine the fork point. *)
Lemma is_last_common_unique (m : BlockMap) (pa pb c c' : uint256) (a : CBlockIndex) :
  tree_ok m -> m !! pa = Some a ->
  is_last_common m pa pb (Some c) -> is_last_common m pa pb (Some c') -> c = c'.
Proof.
  intros Hok Hpa (H1 & H2 & H3) (H1' & H2' & H3').
  destruct (H3 c' H1' H2') as [n Hn]. destruct (H3' c H1 H2) as [k Hk].
  destruct H1 as [i Hi]. destruct (walk_back_height m i pa c a Hok Hpa Hi) as (bc & Hc & _).
  destruct (walk_back_height m n c c' bc Hok Hc Hn) as (bc' & Hc' & Hh & _).
  destruct (walk_back_height m k c' c bc' Hok Hc' Hk) as (bc'' & Hc'' & Hh' & _).
  rewrite Hc in Hc''. injection Hc'' as <-. assert (n = 0%nat) as -> by lia. by injection Hn.
Qed.

(** ** Median time *)

Lemma collect_times_total (m : BlockMap) (n : nat) (p : uint256) (b : CBlockIndex) :
  tree_ok m -> m !! p = Some b ->
  exists l, collect_times m (S n) (Some p) = Some (GetBlockTime b :: l).
Proof.
  intros Hok. revert p b; induction n as [|n IH]; intros p b Hp; cbn [collect_times]; rewrite Hp; cbn [mbind option_bind].
  - by exists [].
  - destruct (tree_ok_lookup m p b Hok Hp) as [_ Hpp].
    destruct (pprev b) as [q|]; [|by exists []]. destruct Hpp as (b' & Hq & _).
    destruct (IH q b' Hq) as [l Hl]. cbn [collect_times] in Hl. rewrite Hl. cbn [mbind option_bind]. eauto.
Qed.

Lemma GetMedianTimePast_total (m : BlockMap) (p : uint256) (b : CBlockIndex) :
  tree_ok m -> m !! p = Some b -> exists t, GetMedianTimePast m p = Some t.
Proof.
  intros Hok Hp. unfold GetMedianTimePast, nMedianTimeSpan.
  destruct (collect_times_total m 10 p b Hok Hp) as [l ->]. cbn [mbind option_bind].
  set (l' := GetBlockTime b :: l). 
  assert (Hlen : length (merge_sort Z.le l') = length l') by (apply Permutation_length, merge_sort_Permutation).
  destruct (lookup_lt_is_Some_2 (merge_sort Z.le l') (length l' / 2)) as [t Ht]; [|eauto].
  rewrite Hlen. apply Nat.div_lt; [cbn; lia|lia].
Qed.

(** ** Locators *)

Lemma LocatorEntries_loop_correct (fuel : nat) (m : BlockMap) (p : uint256) (b : CBlockIndex)
    (step : Z) (have : list uint256) :
  tree_ok m -> m !! p = Some b -> 1 <= step -> nHeight b <= Z.of_nat fuel ->
  exists l, LocatorEntries_loop fuel m p step have = Some (have ++ p :: l) /\
    Forall (fun x => is_ancestor m x p) (p :: l) /\
    exists g bg, last (p :: l) = Some g /\ m !! g = Some bg /\ nHeight bg = 0.
Proof.
  intros Hok. revert p b step have; induction fuel as [|fuel IH]; intros p b step have Hp Hs Hf;
    destruct (tree_ok_lookup m p b Hok Hp) as [H0 _]; cbn [LocatorEntries_loop]; rewrite Hp;
    cbn [mbind option_bind].
  - rewrite (proj2 (Z.eqb_eq _ 0)) by lia. exists []. split; [done|].
    split; [repeat constructor; by exists 0%nat|]. exists p, b. split; [done|]. split; [done|lia].
  - destruct (Z.eqb_spec (nHeight b) 0) as [E|E].
    { exists []. split; [done|]. split; [repeat constructor; by exists 0%nat|]. by exists p, b. }
    destruct (GetAncestor_in_range m p b (Z.max (nHeight b - step) 0) Hok Hp ltac:(lia))
      as (q & bq & -> & Hw & Hq & Hhq).
    cbn [mbind option_bind].
    set (step' := if (10 <? length (have ++ [p]))%nat then step * 2 else step).
    destruct (IH q bq step' (have ++ [p]) Hq ltac:(subst step'; destruct (_ <? _)%nat; lia) ltac:(lia))
      as (l & Hl & Hanc & g & bg & Hlast & Hg & Hg0).
    exists (q :: l). split; [rewrite Hl; by rewrite <- app_assoc|]. split.
    + constructor; [by exists 0%nat|]. eapply Forall_impl; [exact Hanc|]. intros x [n Hn].
      exists (Z.to_nat (nHeight b - Z.max (nHeight b - step) 0) + n)%nat. by rewrite walk_back_add, Hw.
    + exists g, bg. split; [|done]. by rewrite last_cons_cons.
Qed.

(** ** Decision procedures and a small sample tree *)

#[export] Instance exists_lookup_dec (m : BlockMap) (q : uint256) (P : CBlockIndex -> Prop)
    `{!forall b, Decision (P b)} : Decision (exists b, m !! q = Some b /\ P b).
Proof.
  destruct (m !! q) as [b|]; [|right; by intros (? & ? & _)].
  destruct (decide (P b)); [left; eauto | right; intros (b' & [= <-] & ?); done].
Defined.

#[export] Instance index_ok_dec (m : BlockMap) (p : uint256) (b : CBlockIndex) : Decision (index_ok m p b).
Proof. unfold index_ok. destruct (pprev b); apply _. Defined.

#[export] Instance tree_ok_dec (m : BlockMap) : Decision (tree_ok m).
Proof. unfold tree_ok. apply _. Defined.

#[export] Instance works_ok_dec (m : BlockMap) : Decision (works_ok m).
Proof. unfold works_ok. apply _. Defined.

(** Headers of a sample tree; the block hash is taken to be [nNonce]. *)
Definition sample_header (prev hash time bits : Z) : CBlockHeader := {|
  nVersion := 4; hashPrevBlock := prev; hashMerkleRoot := 0; nTime := time; nBits := bits;
  nNonce := hash |}.

Definition add_headers (hs : list CBlockHeader) (st : BlockManager) : BlockManager :=
  fold_left (fun st h =>
    match AddToBlockIndex nNonce st h with Some (st', _) => st' | None => st end) hs st.

(** Genesis 1, branch 2..5 on it, and branch 13..15 on block 2. *)
Definition sample_tree : BlockManager :=
  add_headers
    [sample_header 0 1 1000 0x1f0fffff; sample_header 1 2 1600 0x1f0fffff;
     sample_header 2 3 2200 0x1f0fffff; sample_header 3 4 2800 0x1f0fffff;
     sample_header 4 5 3400 0x1f0fffff;
     sample_header 2 13 2300 0x1f0fffff; sample_header 13 14 2900 0x1f0fffff;
     sample_header 14 15 3500 0x1f0fffff]
    {| m_block_index := ∅; m_best_header := None; m_dirty_blockindex := ∅ |}.

(** ** Properties *)

(** C8: the skip-list walk of [GetAncestor] terminates without a null
    dereference and returns exactly the block that following [pprev] from the
    start reaches at the requested height, and [nullptr] exactly for heights
    outside the branch. *)
Theorem GetAncestor_is_linear_walk (m : BlockMap) (p : uint256) (b : CBlockIndex) (height : Z) :
  tree_ok m -> m !! p = Some b ->
  (0 <= height <= nHeight b ->
     exists q bq, GetAncestor m p height = Some (Some q) /\
       walk_back m (Z.to_nat (nHeight b - height)) p = Some q /\
       m !! q = Some bq /\ nHeight bq = height) /\
  (height < 0 \/ nHeight b < height -> GetAncestor m p height = Some None).
Proof.
  intros Hok Hp. split; [intros; by apply GetAncestor_in_range|].
  intros Hout. rewrite (GetAncestor_correct m p b) by done.
  destruct (Z.leb_spec 0 height); [|done]. by rewrite (proj2 (Z.leb_gt _ _)) by lia.
Qed.

Lemma GetAncestor_is_linear_walk_witness :
  exists b, m_block_index sample_tree !! 5 = Some b /\
    GetAncestor (m_block_index sample_tree) 5 (nHeight b + 1) = Some None.
Proof.
  destruct (m_block_index sample_tree !! 5) as [b|] eqn:E; [|vm_compute in E; discriminate E].
  exists b. split; [reflexivity|].
  apply (GetAncestor_is_linear_walk (m_block_index sample_tree) 5 b).
  - apply (bool_decide_unpack _). vm_compute. exact I.
  - exact E.
  - right. lia.
Defined.

(** Adding a header on a known predecessor keeps the block index a
    well-formed tree (heights, skip pointers, parents), gives the new entry its
    parent's height plus one and its parent's chain work plus its own work,
    raises it to [BLOCK_VALID_TREE], changes no other entry, and leaves as best
    header one with at least as much work as the new block. *)
Theorem AddToBlockIndex_extends_tree (GetHash : CBlockHeader -> uint256) (st : BlockManager)
    (block : CBlockHeader) (prev : CBlockIndex) (best : uint256) :
  tree_ok (m_block_index st) -> works_ok (m_block_index st) ->
  m_best_header st = Some best -> is_Some (m_block_index st !! best) ->
  is_u32 (nBits block) ->
  m_block_index st !! GetHash block = None ->
  m_block_index st !! hashPrevBlock block = Some prev ->
  exists st' b,
    AddToBlockIndex GetHash st block = Some (st', GetHash block) /\
    m_block_index st' = <[GetHash block := b]> (m_block_index st) /\
    pprev b = Some (hashPrevBlock block) /\ nHeight b = nHeight prev + 1 /\
    val (nChainWork b) = (val (nChainWork prev) + block_work (nBits block)) mod 2 ^ 256 /\
    nTimeMax b = Z.max (nTimeMax prev) (nTime block) /\ nStatus b = BLOCK_VALID_TREE /\
    tree_ok (m_block_index st') /\ works_ok (m_block_index st') /\
    exists p bb, m_best_header st' = Some p /\ m_block_index st' !! p = Some bb /\
      (p = best \/ p = GetHash block) /\ val (nChainWork b) <= val (nChainWork bb).
Proof.
  intros H1 H2 H3 H4 H5 H6 H7.
  destruct (AddToBlockIndex_new GetHash st block prev best H1 H2 H3 H4 H5 H6 H7)
    as (st' & b & Ha & Hb & Hc & Hd & _ & He & _ & _ & Hf & Hg & _ & Hh & Hi & Hj).
  exists st', b. repeat (split; [done|]). done.
Qed.

Lemma AddToBlockIndex_extends_tree_witness :
  exists st' b,
    AddToBlockIndex nNonce sample_tree (sample_header 5 6 4000 0x1f0fffff) = Some (st', 6) /\
    m_block_index st' !! 6 = Some b /\ nHeight b = 5.
Proof.
  destruct (m_block_index sample_tree !! 5) as [prev|] eqn:E; [|vm_compute in E; discriminate E].
  destruct (AddToBlockIndex_extends_tree nNonce sample_tree (sample_header 5 6 4000 0x1f0fffff) prev 5)
    as (st' & b & Ha & Hb & _ & Hh & _).
  - apply (bool_decide_unpack _). vm_compute. exact I.
  - apply (bool_decide_unpack _). vm_compute. exact I.
  - vm_compute. reflexivity.
  - rewrite E. eexists. reflexivity.
  - unfold is_u32. vm_compute. split; congruence.
  - vm_compute. reflexivity.
  - exact E.
  - exists st', b. split; [exact Ha|]. rewrite Hb. split; [apply lookup_insert_eq|].
    rewrite Hh. vm_compute in E. injection E as <-. reflexivity.
Defined.

(** C21: [LastCommonAncestor], walking two branches back by skip pointers, and
    [CChain::FindFork], searching the active chain, both terminate and both
    return the fork point: the common ancestor below which all common
    ancestors lie; so they agree. *)
Theorem fork_point_algorithms_agree (m : BlockMap) (t p : uint256) (bt b : CBlockIndex) (v : CChain) :
  tree_ok m -> m !! t = Some bt -> m !! p = Some b -> chain_of m t v ->
  exists r, LastCommonAncestor m p t = Some r /\ is_last_common m p t r /\
            FindFork m v (Some p) = Some r.
Proof.
  intros Hok Ht Hp Hc. destruct (LastCommonAncestor_correct m p t b bt Hok Hp Ht) as (r & Hr & Hs).
  destruct (FindFork_correct m t p b v Hok Hc Hp) as (r' & Hr' & Hs').
  exists r. split; [done|]. split; [done|]. rewrite Hr'. f_equal.
  destruct r as [c|], r' as [c'|]; [|exfalso..|done].
  - f_equal. by apply (is_last_common_unique m p t c' c b).
  - destruct Hs as (H1 & H2 & _). by apply (Hs' c).
  - destruct Hs' as (H1 & H2 & _). by apply (Hs c').
Qed.

Lemma fork_point_algorithms_agree_witness :
  let m := m_block_index sample_tree in
  exists v, SetTip m [] 5 = Some v /\ exists r, LastCommonAncestor m 15 5 = Some r /\
    FindFork m v (Some 15) = Some r /\ r = Some 2.
Proof.
  cbv zeta. set (m := m_block_index sample_tree).
  destruct (m !! 5) as [bt|] eqn:E5; [|vm_compute in E5; discriminate E5].
  destruct (m !! 15) as [b|] eqn:E15; [|vm_compute in E15; discriminate E15].
  assert (Hok : tree_ok m) by (apply (bool_decide_unpack _); vm_compute; exact I).
  destruct (SetTip_correct m [] 5 bt Hok (or_introl eq_refl) E5) as (v & Hv & Hc).
  exists v. split; [exact Hv|].
  destruct (fork_point_algorithms_agree m 5 15 bt b v Hok E5 E15 Hc) as (r & H1 & _ & H3).
  exists r. split; [exact H1|]. split; [exact H3|].
  vm_compute in H1. injection H1 as <-. reflexivity.
Defined.

(** [CChain::SetTip], which stops at the first slot that is already right,
    makes the vector exactly the ancestors of the new tip, from any previous
    active chain of the tree (a reorganisation) or from an empty one; the tip,
    the height and membership then are those of that branch. *)
Theorem SetTip_installs_branch (m : BlockMap) (v0 : CChain) (p : uint256) (b : CBlockIndex) :
  tree_ok m -> (v0 = [] \/ exists p0, chain_of m p0 v0) -> m !! p = Some b ->
  exists v, SetTip m v0 p = Some v /\ chain_of m p v /\
    chain_Height v = nHeight b /\ chain_Tip v = Some p /\
    (forall q bq, m !! q = Some bq ->
       exists c, chain_Contains m v q = Some c /\ (c = true <-> is_ancestor m q p)).
Proof.
  intros Hok Hv0 Hp. destruct (SetTip_correct m v0 p b Hok Hv0 Hp) as (v & Hv & Hc).
  exists v. split; [done|]. split; [done|]. pose proof Hc as (b' & Hb' & Hl & Hx).
  rewrite Hp in Hb'. injection Hb' as <-. destruct (tree_ok_lookup m p b Hok Hp) as [H0 _].
  split; [unfold chain_Height; lia|]. split.
  - unfold chain_Tip. rewrite (proj2 (Nat.ltb_lt _ _)) by lia.
    rewrite list_lookup_total_alt, Hx by lia. cbn.
    replace (Z.of_nat (length v - 1)) with (nHeight b) by lia. by apply ancestor_at_self.
  - intros q bq Hq. by apply (chain_Contains_correct m p q bq).
Qed.

Lemma SetTip_installs_branch_witness :
  let m := m_block_index sample_tree in
  exists v v', SetTip m [] 5 = Some v /\ SetTip m v 15 = Some v' /\ chain_Tip v' = Some 15.
Proof.
  cbv zeta. set (m := m_block_index sample_tree).
  destruct (m !! 5) as [b5|] eqn:E5; [|vm_compute in E5; discriminate E5].
  destruct (m !! 15) as [b|] eqn:E15; [|vm_compute in E15; discriminate E15].
  assert (Hok : tree_ok m) by (apply (bool_decide_unpack _); vm_compute; exact I).
  destruct (SetTip_correct m [] 5 b5 Hok (or_introl eq_refl) E5) as (v & Hv & Hc).
  destruct (SetTip_installs_branch m v 15 b Hok (or_intror (ex_intro _ 5 Hc)) E15)
    as (v' & H1 & _ & _ & H2 & _).
  exists v, v'. auto.
Defined.

(** [GetBlockProof] never divides by zero and is the expected number of
    hashes [2^256 / (target + 1)] for a valid target, and 0 for a negative,
    overflowing or zero one. *)
Theorem GetBlockProof_expected_hashes (bits : Z) :
  is_u32 bits ->
  exists w, GetBlockProof bits = Some w /\ uint_wf w /\
    val w = match compact_target bits with Some t => 2 ^ 256 / (t + 1) | None => 0 end.
Proof. apply GetBlockProof_spec. Qed.

Lemma GetBlockProof_expected_hashes_witness :
  exists w, GetBlockProof 0x1f0fffff = Some w /\ val w = 4096.
Proof.
  destruct (GetBlockProof_expected_hashes 0x1f0fffff) as (w & H1 & _ & H3).
  - unfold is_u32. vm_compute. split; congruence.
  - exists w. split; [exact H1|]. rewrite H3. vm_compute. reflexivity.
Defined.

(** C23: [LocatorEntries] terminates; the locator starts at the given block,
    holds only its ancestors and ends at the root of the branch. *)
Theorem LocatorEntries_reaches_root (m : BlockMap) (p : uint256) (b : CBlockIndex) :
  tree_ok m -> m !! p = Some b ->
  exists l, LocatorEntries m (Some p) = Some (p :: l) /\
    Forall (fun x => is_ancestor m x p) (p :: l) /\
    exists g bg, last (p :: l) = Some g /\ m !! g = Some bg /\ nHeight bg = 0.
Proof.
  intros Hok Hp. destruct (tree_ok_lookup m p b Hok Hp) as [H0 _].
  unfold LocatorEntries. rewrite Hp. cbn [mbind option_bind].
  by apply (LocatorEntries_loop_correct _ m p b 1 []); [..|lia|lia].
Qed.

Lemma LocatorEntries_reaches_root_witness :
  exists l, LocatorEntries (m_block_index sample_tree) (Some 5) = Some (5 :: l) /\ last (5 :: l) = Some 1.
Proof.
  destruct (m_block_index sample_tree !! 5) as [b|] eqn:E5; [|vm_compute in E5; discriminate E5].
  destruct (LocatorEntries_reaches_root (m_block_index sample_tree) 5 b) as (l & H1 & _).
  - apply (bool_decide_unpack _). vm_compute. exact I.
  - exact E5.
  - exists l. split; [exact H1|]. vm_compute in H1. injection H1 as <-. reflexivity.
Defined.
