(* ===== verification/Params.v ===== *)
(** * Consensus parameters: src/src/consensus/params.h and the main network of
    src/src/kernel/chainparams.cpp *)

From S2P Require Import Prelude ArithUint256 Chain.

(** [Consensus::BuriedDeployment] *)
Inductive BuriedDeployment :=
  | DEPLOYMENT_HEIGHTINCB
  | DEPLOYMENT_CLTV
  | DEPLOYMENT_DERSIG
  | DEPLOYMENT_CSV
  | DEPLOYMENT_SEGWIT.

(** [script_verify_flags] (src/src/script/interpreter.h) that the consensus code uses. *)
Definition SCRIPT_VERIFY_NONE : Z := 0.
Definition SCRIPT_VERIFY_P2SH : Z := Z.shiftl 1 0.
Definition SCRIPT_VERIFY_DERSIG : Z := Z.shiftl 1 2.
Definition SCRIPT_VERIFY_NULLDUMMY : Z := Z.shiftl 1 4.
Definition SCRIPT_VERIFY_CHECKLOCKTIMEVERIFY : Z := Z.shiftl 1 9.
Definition SCRIPT_VERIFY_CHECKSEQUENCEVERIFY : Z := Z.shiftl 1 10.
Definition SCRIPT_VERIFY_WITNESS : Z := Z.shiftl 1 11.
Definition SCRIPT_VERIFY_TAPROOT : Z := Z.shiftl 1 17.

(** The fields of [Consensus::Params] that the modelled code reads. *)
Record Params := mkParams {
  hashGenesisBlock : uint256;
  nSubsidyHalvingInterval : Z;
  script_flag_exceptions : gmap Z Z;
  BIP34Height : Z;
  BIP34Hash : uint256;
  BIP65Height : Z;
  BIP66Height : Z;
  CSVHeight : Z;
  SegwitHeight : Z;
  powLimit : uint256;
  fPowAllowMinDifficultyBlocks : bool;
  enforce_BIP94 : bool;
  fPowNoRetargeting : bool;
  nPowTargetSpacing : Z;
  nPowTargetTimespan : Z;
  signet_blocks : bool
}.

Definition DifficultyAdjustmentInterval (p : Params) : Z :=
  Z.quot (nPowTargetTimespan p) (nPowTargetSpacing p).

Definition DeploymentHeight (p : Params) (dep : BuriedDeployment) : Z :=
  match dep with
  | DEPLOYMENT_HEIGHTINCB => BIP34Height p
  | DEPLOYMENT_CLTV => BIP65Height p
  | DEPLOYMENT_DERSIG => BIP66Height p
  | DEPLOYMENT_CSV => CSVHeight p
  | DEPLOYMENT_SEGWIT => SegwitHeight p
  end.

(** [DeploymentActiveAfter] for buried deployments (src/src/deploymentstatus.h). *)
Definition DeploymentActiveAfter (pindexPrev : option CBlockIndex) (p : Params)
    (dep : BuriedDeployment) : bool :=
  DeploymentHeight p dep <=? (match pindexPrev with None => 0 | Some b => nHeight b + 1 end).

(** [CMainParams] *)
Definition CMainParams : Params := {|
  hashGenesisBlock := 0x0d2c382326321b1004eb676d1a8ff1a93e92bb0da7be6043a058a6edb361b89e;
  nSubsidyHalvingInterval := 210000;
  script_flag_exceptions :=
    {[ 0x00000000000002dc756eebf4f49723ed8d30cc28a5f108eb94b1ba88ac4f9c22 := SCRIPT_VERIFY_NONE;
       0x0000000000000000000f14c35b2d841e986ab5441de8c585d5ffe55ea1e395ad := Z.lor SCRIPT_VERIFY_P2SH SCRIPT_VERIFY_WITNESS ]};
  BIP34Height := 1;
  BIP34Hash := 0;
  BIP65Height := 1;
  BIP66Height := 1;
  CSVHeight := 1;
  SegwitHeight := 1;
  powLimit := 0x000fffffffffffffffffffffffffffffffffffffffffffffffffffffffffffff;
  fPowAllowMinDifficultyBlocks := false;
  enforce_BIP94 := false;
  fPowNoRetargeting := false;
  nPowTargetSpacing := 10 * 60;
  nPowTargetTimespan := 14 * 24 * 60 * 60;
  signet_blocks := false
|}.
