(* ===== verification/Pow.v ===== *)
(** * Proof of work: src/src/pow.cpp

    The LWMA difficulty rule [GetNextWorkRequired], the target decoding
    [DeriveTarget] and the proof-of-work check, on the digit-level arithmetic
    of ArithUint256 and the block index of Chain. *)

From S2P Require Import Prelude ArithUint256 Chain Params.

(** ** Operations *)

(** Length of the LWMA window. *)
Definition lwma_N : Z := 90.

(** Solve time that the window charges to block [b]. *)
Definition lwma_solvetime (params : Params) (b : CBlockIndex) (prev : option CBlockIndex) : Z :=
  let solvetime :=
    match prev with Some pb => GetBlockTime b - GetBlockTime pb | None => 1 end in
  let solvetime :=
    if nHeight b <? lwma_N then nPowTargetSpacing params
    else
      let minSolve := Z.quot (nPowTargetSpacing params) 4 in
      if solvetime <? minSolve then minSolve else solvetime in
  if solvetime >? 6 * nPowTargetSpacing params then 6 * nPowTargetSpacing params else solvetime.

Record lwma_state := mkLwma {
  lw_pindex : option uint256;
  lw_sumTarget : arith_uint256;
  lw_weightedSolvetimes : Z;
  lw_weightSum : Z
}.

(** One iteration of the window loop with weight [i]. *)
Definition lwma_step (m : BlockMap) (params : Params) (i : Z) (st : lwma_state) : option lwma_state :=
  p ← lw_pindex st;
  b ← m !! p;
  let '(target, _, _) := SetCompact (bi_nBits b) in
  let weightedTarget := uint_mul target (of_u64 (u64 i)) in
  prev ← (match pprev b with Some q => pb ← m !! q; Some (Some pb) | None => Some None end);
  let solvetime := lwma_solvetime params b prev in
  Some {| lw_pindex := pprev b;
          lw_sumTarget := uint_add (lw_sumTarget st) weightedTarget;
          lw_weightedSolvetimes := lw_weightedSolvetimes st + solvetime * i;
          lw_weightSum := lw_weightSum st + i |}.

(** [for (int64_t i = N; i > 0; i--)] *)
Fixpoint lwma_loop (m : BlockMap) (params : Params) (i : nat) (st : lwma_state) : option lwma_state :=
  match i with
  | O => Some st
  | S i' => st ← lwma_step m params (Z.of_nat i) st; lwma_loop m params i' st
  end.

(** [GetNextWorkRequired]; [None] is a null dereference, a division by zero or
    a failed assertion. *)
Definition GetNextWorkRequired (m : BlockMap) (pindexLast : uint256) (params : Params) : option Z :=
  last ← m !! pindexLast;
  let limit := UintToArith256 (u256_data (powLimit params)) in
  if nHeight last <? lwma_N then GetCompact limit false
  else
    st ← lwma_loop m params (Z.to_nat lwma_N) (mkLwma (Some pindexLast) (of_u64 0) 0 0);
    avgTarget ← uint_div (lw_sumTarget st) (of_u64 (u64 (lw_weightSum st)));
    let bnNew := uint_mul avgTarget (of_u64 (u64 (lw_weightedSolvetimes st))) in
    bnNew ← uint_div bnNew (of_u64 (u64 (lw_weightSum st * nPowTargetSpacing params)));
    let '(prev, _, _) := SetCompact (bi_nBits last) in
    maxUp ← uint_div (uint_mul prev (of_u64 90)) (of_u64 100);
    maxDown ← uint_div (uint_mul prev (of_u64 110)) (of_u64 100);
    let bnNew := if uint_ltb bnNew maxUp then maxUp else bnNew in
    let bnNew := if uint_gtb bnNew maxDown then maxDown else bnNew in
    let bnNew := if uint_gtb bnNew limit then limit else bnNew in
    GetCompact bnNew false.

(** [CalculateNextWorkRequired] *)
Definition CalculateNextWorkRequired (m : BlockMap) (pindexLast : uint256) (nFirstBlockTime : Z)
    (params : Params) : option Z :=
  GetNextWorkRequired m pindexLast params.

(** [PermittedDifficultyTransition] *)
Definition PermittedDifficultyTransition (params : Params) (height old_nbits new_nbits : Z) : bool :=
  true.

(** [DeriveTarget] *)
Definition DeriveTarget (bits : Z) (pow_limit : uint256) : option arith_uint256 :=
  let '(bnTarget, fNegative, fOverflow) := SetCompact bits in
  if fNegative || EqualTo bnTarget 0 || fOverflow ||
     uint_gtb bnTarget (UintToArith256 (u256_data pow_limit))
  then None
  else Some bnTarget.

(** [CheckProofOfWorkImpl] *)
Definition CheckProofOfWorkImpl (hash : uint256) (bits : Z) (params : Params) : bool :=
  match DeriveTarget bits (powLimit params) with
  | None => false
  | Some bnTarget => negb (uint_gtb (UintToArith256 (u256_data hash)) bnTarget)
  end.

(** [CheckProofOfWork]; [fuzz] is [EnableFuzzDeterminism()]. *)
Definition CheckProofOfWork (fuzz : bool) (hash : uint256) (bits : Z) (params : Params) : bool :=
  if fuzz then Z.land (u256_data hash !!! 31%nat) 0x80 =? 0
  else CheckProofOfWorkImpl hash bits params.

(** ** [uint256] values as numbers *)

Definition is_u256 (h : Z) : Prop := 0 <= h < 2 ^ 256.

Lemma u256_data_wf (h : Z) : bytes_wf (u256_data h).
Proof.
  unfold bytes_wf, u256_data. rewrite length_map, length_seq. split; [done|].
  apply Forall_forall. intros x Hx. apply list_elem_of_In, in_map_iff in Hx.
  destruct Hx as (i & <- & _). apply Z.mod_pos_bound. lia.
Qed.

Lemma u256_arith_wf (h : Z) : uint_wf (UintToArith256 (u256_data h)).
Proof. apply UintToArith256_spec, u256_data_wf. Qed.

Lemma u256_arith_val (h : Z) : is_u256 h -> val (UintToArith256 (u256_data h)) = h.
Proof.
  intros Hh. rewrite (proj2 (UintToArith256_spec _ (u256_data_wf h))).
  unfold u256_data. rewrite le_val_bytes. rewrite Z.shiftr_0_r. by apply Z.mod_small.
Qed.

#[export] Hint Resolve u256_arith_wf : words.

Lemma val_of_u64_u64 (x : Z) : is_u64 x -> val (of_u64 (u64 x)) = x.
Proof. intros H. rewrite u64_small by done. by apply val_of_u64. Qed.

(** ** The LWMA rule on numbers *)

(** Target encoded in a header, wrap-around and sign ignored as in the code. *)
Definition bits_target (bits : Z) : Z := let '(t, _, _) := SetCompact bits in val t.

(** The window of the last [n] blocks, newest first: target and solve time. *)
Fixpoint lwma_window (m : BlockMap) (params : Params) (n : nat) (p : uint256) : list (Z * Z) :=
  match n, m !! p with
  | S n', Some b =>
      match pprev b with
      | Some q =>
          (bits_target (bi_nBits b), lwma_solvetime params b (m !! q))
            :: lwma_window m params n' q
      | None => [(bits_target (bi_nBits b), lwma_solvetime params b None)]
      end
  | _, _ => []
  end.

(** Linearly weighted sum: the oldest element has weight 1. *)
Fixpoint weighted (l : list Z) : Z :=
  match l with
  | [] => 0
  | x :: l' => x * Z.of_nat (length l) + weighted l'
  end.

(** The target computed from a window, with the 256-bit wrap-around of the code. *)
Definition lwma_target (params : Params) (prev : Z) (w : list (Z * Z)) : Z :=
  let weightSum := weighted (map (fun _ => 1) w) in
  let avg := (weighted (map fst w) mod M256) / weightSum in
  let raw := ((avg * weighted (map snd w)) mod M256) / (weightSum * nPowTargetSpacing params) in
  let maxUp := (prev * 90) mod M256 / 100 in
  let maxDown := (prev * 110) mod M256 / 100 in
  Z.min (powLimit params) (Z.min maxDown (Z.max maxUp raw)).

Definition compact_of (v : Z) : Z := let '(m, e) := compact_parts v in m + e * 2 ^ 24.

Definition params_ok (params : Params) : Prop :=
  is_u256 (powLimit params) /\ 0 < nPowTargetSpacing params <= 2 ^ 40.

#[export] Instance params_ok_dec (p : Params) : Decision (params_ok p).
Proof. unfold params_ok, is_u256. apply _. Defined.

Lemma lwma_solvetime_bounds (params : Params) (b : CBlockIndex) (prev : option CBlockIndex) :
  0 < nPowTargetSpacing params ->
  0 <= lwma_solvetime params b prev <= 6 * nPowTargetSpacing params.
Proof.
  intros Hs. unfold lwma_solvetime. rewrite Z.gtb_ltb.
  assert (0 <= Z.quot (nPowTargetSpacing params) 4 <= nPowTargetSpacing params).
  { rewrite Z.quot_div_nonneg by lia. split; [apply Z.div_pos; lia|]. apply Z.div_le_upper_bound; lia. }
  set (t := match prev with Some pb => _ | None => 1 end).
  destruct (nHeight b <? lwma_N); [|destruct (Z.ltb_spec t (Z.quot (nPowTargetSpacing params) 4))];
    match goal with |- context [?x <? ?y] => destruct (Z.ltb_spec x y) end; lia.
Qed.

Lemma bits_target_spec (bits : Z) : is_u32 bits ->
  exists t neg ovf, SetCompact bits = (t, neg, ovf) /\ uint_wf t /\ val t = bits_target bits.
Proof.
  intros Hb. pose proof (SetCompact_spec bits Hb) as Hs. unfold bits_target. cbv zeta in Hs.
  destruct (SetCompact bits) as [[t neg] ovf]. exists t, neg, ovf. by destruct Hs.
Qed.

Lemma lwma_window_length (m : BlockMap) (params : Params) (n : nat) (p : uint256) (b : CBlockIndex) :
  tree_ok m -> m !! p = Some b -> Z.of_nat n <= nHeight b -> length (lwma_window m params n p) = n.
Proof.
  intros Hok. revert p b; induction n as [|n IH]; intros p b Hp Hn; [done|].
  cbn [lwma_window]. rewrite Hp. destruct (tree_ok_lookup m p b Hok Hp) as [_ Hpp].
  destruct (pprev b) as [q|]; [|lia]. destruct Hpp as (b' & Hq & Hh & _). cbn [length]. f_equal.
  apply (IH q b'); [done|lia].
Qed.

(** The window loop computes the weighted sums. *)
Lemma lwma_loop_spec (m : BlockMap) (params : Params) (n : nat) (p : uint256) (b : CBlockIndex)
    (sum : arith_uint256) (wst wsum : Z) :
  tree_ok m -> works_ok m -> m !! p = Some b -> Z.of_nat n <= nHeight b -> Z.of_nat n < 2 ^ 32 ->
  uint_wf sum ->
  let w := lwma_window m params n p in
  exists st, lwma_loop m params n (mkLwma (Some p) sum wst wsum) = Some st /\
    uint_wf (lw_sumTarget st) /\
    val (lw_sumTarget st) = (val sum + weighted (map fst w)) mod M256 /\
    lw_weightedSolvetimes st = wst + weighted (map snd w) /\
    lw_weightSum st = wsum + weighted (map (fun _ => 1) w).
Proof.
  intros Hok Hwk. cbv zeta. revert p b sum wst wsum; induction n as [|n IH]; intros p b sum wst wsum Hp Hn H32 Hsum.
  - eexists. split; [reflexivity|]. split; [done|].
    cbn [lw_sumTarget lw_weightedSolvetimes lw_weightSum lwma_window map weighted].
    rewrite !Z.add_0_r, Z.mod_small by by apply uint_val_bound. done.
  - destruct (tree_ok_lookup m p b Hok Hp) as [_ Hpp]. destruct (Hwk p b Hp) as [_ Hbits].
    pose proof (lwma_window_length m params (S n) p b Hok Hp Hn) as Hlen.
    cbn [lwma_loop lwma_window] in *. rewrite Hp in *. unfold lwma_step. cbn [lw_pindex mbind option_bind].
    rewrite Hp. cbn [mbind option_bind].
    destruct (bits_target_spec _ Hbits) as (t & neg & ovf & Hs & Ht & Hv). rewrite Hs.
    destruct (pprev b) as [q|]; [|lia]. destruct Hpp as (b' & Hq & Hh & _). rewrite Hq in *.
    cbn [mbind option_bind lw_sumTarget lw_weightedSolvetimes lw_weightSum].
    destruct (val_mul t (of_u64 (u64 (Z.of_nat (S n)))) Ht (of_u64_wf _)) as [Hmw Hmv].
    rewrite val_of_u64_u64 in Hmv by (unfold is_u64; lia).
    edestruct (IH q b' (uint_add sum (uint_mul t (of_u64 (u64 (Z.of_nat (S n))))))) as (st & H1 & H2 & H3 & H4 & H5);
      [exact Hq|lia|lia|by apply uint_add_wf|].
    exists st. rewrite H1. split; [done|]. split; [done|].
    cbn [map weighted fst snd]. cbn [length] in *. rewrite !length_map in *.
    injection Hlen as Hlen. rewrite !Hlen.
    split; [|split; [rewrite H4; ring|rewrite H5; ring]].
    rewrite H3, val_add, Hmv, Hv by done.
    rewrite Zplus_mod_idemp_l. rewrite <- (Zplus_mod_idemp_l (val sum + _)).
    rewrite Zplus_mod_idemp_r, Zplus_mod_idemp_l. f_equal. ring.
Qed.

Lemma weighted_ones {A : Type} (l : list A) :
  2 * weighted (map (fun _ => 1) l) = Z.of_nat (length l) * (Z.of_nat (length l) + 1).
Proof.
  induction l as [|x l IH]; [done|]. cbn [map weighted length]. rewrite length_map in *. lia.
Qed.

Lemma weighted_bound {A : Type} (f : A -> Z) (c : Z) (l : list A) :
  Forall (fun x => 0 <= f x <= c) l ->
  0 <= weighted (map f l) <= c * weighted (map (fun _ => 1) l).
Proof.
  induction 1 as [|x l Hx Hl IH]; [cbn; lia|]. cbn [map weighted length]. rewrite !length_map. nia.
Qed.

Lemma lwma_window_Forall (m : BlockMap) (params : Params) (n : nat) (p : uint256)
    (P : Z * Z -> Prop) :
  (forall q b prev, m !! q = Some b -> P (bits_target (bi_nBits b), lwma_solvetime params b prev)) ->
  Forall P (lwma_window m params n p).
Proof.
  intros HP. revert p; induction n as [|n IH]; intros p; [constructor|]. cbn [lwma_window].
  destruct (m !! p) as [b|] eqn:Hp; [|constructor].
  destruct (pprev b) as [q|]; constructor; eauto.
Qed.

Lemma uint_min_spec (a b : arith_uint256) :
  uint_wf a -> uint_wf b ->
  uint_wf (if uint_gtb a b then b else a) /\ val (if uint_gtb a b then b else a) = Z.min (val b) (val a).
Proof.
  intros Ha Hb. rewrite uint_gtb_spec by done. destruct (Z.ltb_spec (val b) (val a)); split; try done; lia.
Qed.

Lemma uint_max_spec (a b : arith_uint256) :
  uint_wf a -> uint_wf b ->
  uint_wf (if uint_ltb a b then b else a) /\ val (if uint_ltb a b then b else a) = Z.max (val b) (val a).
Proof.
  intros Ha Hb. rewrite uint_ltb_spec by done. destruct (Z.ltb_spec (val a) (val b)); split; try done; lia.
Qed.

(** Division by a positive 64-bit number. *)
Lemma uint_div_u64 (a : arith_uint256) (d : Z) :
  uint_wf a -> is_u64 d -> 0 < d ->
  exists q, uint_div a (of_u64 d) = Some q /\ uint_wf q /\ val q = val a / d.
Proof.
  intros Ha Hd H0. pose proof (uint_div_spec a (of_u64 d) Ha (of_u64_wf d)) as H.
  rewrite val_of_u64 in H by done. destruct (uint_div a (of_u64 d)) as [q|]; [|lia].
  exists q. split; [done|]. tauto.
Qed.

(** Multiplication by a small constant followed by division, as in the clamps. *)
Lemma uint_scale (a : arith_uint256) (x d : Z) :
  uint_wf a -> is_u64 x -> is_u64 d -> 0 < d ->
  exists q, uint_div (uint_mul a (of_u64 x)) (of_u64 d) = Some q /\ uint_wf q /\
            val q = (val a * x) mod M256 / d.
Proof.
  intros Ha Hx Hd H0. destruct (val_mul a (of_u64 x) Ha (of_u64_wf x)) as [Hw Hv].
  destruct (uint_div_u64 _ d Hw Hd H0) as (q & Hq & Hqw & Hqv). exists q.
  rewrite Hqv, Hv, val_of_u64 by done. done.
Qed.

Lemma GetCompact_of (a : arith_uint256) : uint_wf a -> GetCompact a false = Some (compact_of (val a)).
Proof.
  intros Ha. rewrite GetCompact_spec by done. unfold compact_of.
  destruct (compact_parts (val a)) as [mm e]. cbn [andb]. f_equal. ring.
Qed.

Definition lwma_weight : Z := 4095.

Lemma lwma_window_weight (m : BlockMap) (params : Params) (p : uint256) (b : CBlockIndex) :
  tree_ok m -> m !! p = Some b -> lwma_N <= nHeight b ->
  weighted (map (fun _ => 1) (lwma_window m params (Z.to_nat lwma_N) p)) = lwma_weight.
Proof.
  intros Hok Hp Hh. pose proof (weighted_ones (lwma_window m params (Z.to_nat lwma_N) p)) as H.
  rewrite (lwma_window_length m params _ p b) in H by (done || (unfold lwma_N in *; lia)).
  change (Z.of_nat (Z.to_nat lwma_N)) with 90 in H. unfold lwma_weight. lia.
Qed.


(** The digit-level computation is the numeric rule [lwma_target]. *)
Lemma GetNextWorkRequired_spec (m : BlockMap) (p : uint256) (b : CBlockIndex) (params : Params) :
  tree_ok m -> works_ok m -> params_ok params -> m !! p = Some b ->
  GetNextWorkRequired m p params =
    Some (compact_of
      (if nHeight b <? lwma_N then powLimit params
       else lwma_target params (bits_target (bi_nBits b))
              (lwma_window m params (Z.to_nat lwma_N) p))).
Proof.
  intros Hok Hwk [Hlim Hsp] Hp. unfold GetNextWorkRequired. rewrite Hp. cbn [mbind option_bind].
  set (limit := UintToArith256 _). assert (Hlw : uint_wf limit) by (subst limit; auto with words).
  assert (Hlv : val limit = powLimit params) by (by apply u256_arith_val).
  destruct (Z.ltb_spec (nHeight b) lwma_N) as [Hlt|Hge]; [by rewrite GetCompact_of, Hlv by done|].
  set (w := lwma_window m params (Z.to_nat lwma_N) p).
  assert (HW : weighted (map (fun _ => 1) w) = lwma_weight) by by apply (lwma_window_weight m params p b).
  assert (HST : 0 <= weighted (map snd w) <= 6 * nPowTargetSpacing params * lwma_weight).
  { rewrite <- HW. apply (weighted_bound snd). apply lwma_window_Forall. intros q bq prev _.
    apply lwma_solvetime_bounds. lia. }
  destruct (lwma_loop_spec m params (Z.to_nat lwma_N) p b (of_u64 0) 0 0 Hok Hwk Hp)
    as (st & -> & Hsw & Hsv & Hst & Hws); [unfold lwma_N in *; lia|done|auto with words|].
  fold w in Hsv, Hst, Hws. rewrite val_of_u64 in Hsv by (unfold is_u64; lia).
  rewrite Z.add_0_l in Hsv, Hst, Hws. cbn [mbind option_bind]. rewrite Hst, Hws, HW.
  unfold lwma_weight in *.
  assert (is_u64 (4095 * nPowTargetSpacing params)) by (unfold is_u64; lia).
  assert (is_u64 (weighted (map snd w))) by (unfold is_u64; lia).
  rewrite !u64_small by (done || (unfold is_u64; lia)).
  destruct (uint_div_u64 (lw_sumTarget st) 4095 Hsw) as (avg & -> & Haw & Hav); [unfold is_u64; lia|lia|].
  cbn [mbind option_bind].
  destruct (uint_scale avg (weighted (map snd w)) (4095 * nPowTargetSpacing params) Haw)
    as (raw & -> & Hrw & Hrv); [done|done|lia|].
  cbn [mbind option_bind]. destruct (Hwk p b Hp) as [_ Hbits].
  destruct (bits_target_spec _ Hbits) as (prev & neg & ovf & -> & Hpw & Hpv).
  destruct (uint_scale prev 90 100 Hpw) as (up & Hup & Huw & Huv); [unfold is_u64; lia..|].
  destruct (uint_scale prev 110 100 Hpw) as (down & Hdown & Hdw & Hdv); [unfold is_u64; lia..|].
  apply (bind_eq _ _ _ _ Hup), (bind_eq _ _ _ _ Hdown).
  destruct (uint_max_spec raw up Hrw Huw) as [H1w H1v].
  destruct (uint_min_spec _ down H1w Hdw) as [H2w H2v].
  destruct (uint_min_spec _ limit H2w Hlw) as [H3w H3v].
  rewrite GetCompact_of by done. do 2 f_equal. rewrite H3v, H2v, H1v.
  unfold lwma_target. rewrite HW, Hlv, Huv, Hdv, Hrv, Hav, Hsv, Hpv. done.
Qed.

(** ** Targets that headers can carry *)

Lemma compact_of_decode (v : Z) : 0 <= v < M256 ->
  is_u32 (compact_of v) /\
  exists t, SetCompact (compact_of v) = (t, false, false) /\ uint_wf t /\
    val t <= v /\ (v - val t) * 2 ^ 15 <= v.
Proof.
  intros Hv. pose proof (compact_parts_bound v Hv) as Hb. pose proof (compact_parts_value v Hv) as Hp.
  unfold compact_of. destruct (compact_parts v) as [m e]. destruct Hb as [Hm He].
  assert (Hc : is_u32 (m + e * 2 ^ 24)) by (unfold is_u32; lia). split; [done|].
  pose proof (SetCompact_spec _ Hc) as Hs.
  assert (Em : (m + e * 2 ^ 24) mod 2 ^ 23 = m) by (apply (mod_unique_pos _ _ (2 * e)); lia).
  assert (Ee : (m + e * 2 ^ 24) / 2 ^ 24 = e) by (symmetry; apply (Z.div_unique_pos _ _ _ m); lia).
  rewrite Em, Ee in Hs. cbv zeta in Hs.
  destruct (SetCompact (m + e * 2 ^ 24)) as [[t neg] ovf]. destruct Hs as (Hw & Ht & Hn & Ho).
  assert (H0 : 0 <= compact_value m e).
  { unfold compact_value. destruct (Z.leb_spec e 3); [apply Z.div_pos; lia|apply Z.mul_nonneg_nonneg; lia]. }
  rewrite Z.mod_small in Ht by lia.
  assert (neg = false) as ->.
  { rewrite Hn. replace (m + e * 2 ^ 24) with (m + (2 * e) * 2 ^ 23) by lia.
    assert (Z.testbit (m + 2 * e * 2 ^ 23) 23 = false) as ->; [|by rewrite andb_false_r].
    rewrite Z.testbit_false by lia. replace ((m + 2 * e * 2 ^ 23) / 2 ^ 23) with (2 * e).
    - rewrite Z.mul_comm. by apply Z.mod_mul.
    - apply (Z.div_unique_pos _ _ _ m); lia. }
  assert (ovf = false) as -> by (rewrite Ho; apply Z.leb_gt; lia).
  exists t. rewrite Ht. auto.
Qed.

Lemma DeriveTarget_spec (bits limit : Z) : is_u32 bits -> is_u256 limit ->
  match DeriveTarget bits limit with
  | Some t => uint_wf t /\ compact_target bits = Some (val t) /\ val t <= limit
  | None => forall t, compact_target bits = Some t -> limit < t
  end.
Proof.
  intros Hb Hl. destruct (bits_target_spec bits Hb) as (t & neg & ovf & Hs & Hw & _).
  unfold DeriveTarget, compact_target. rewrite Hs, EqualTo_spec by (done || (unfold is_u64; lia)).
  rewrite uint_gtb_spec, u256_arith_val by auto with words.
  destruct neg; [done|]. cbn [orb]. destruct ovf; [by rewrite orb_true_r|]. rewrite orb_false_r.
  destruct (Z.eqb_spec (val t) 0); [done|]. cbn [orb].
  destruct (Z.ltb_spec limit (val t)); [|done]. by intros ? [= <-].
Qed.

(** A positive number up to the limit is encoded as a target that a header may carry. *)
Lemma DeriveTarget_compact_of (v limit : Z) : 0 < v <= limit -> is_u256 limit ->
  is_u32 (compact_of v) /\
  exists t, DeriveTarget (compact_of v) limit = Some t /\ uint_wf t /\
    val t <= v /\ (v - val t) * 2 ^ 15 <= v.
Proof.
  intros Hv Hl. assert (Hv' : 0 <= v < M256) by (unfold is_u256 in Hl; change M256 with (2 ^ 256); lia).
  destruct (compact_of_decode v Hv') as (Hc & t & Hs & Hw & Hle & Herr). split; [done|].
  pose proof (DeriveTarget_spec _ limit Hc Hl) as Hd. revert Hd. unfold compact_target. rewrite Hs. cbn [orb].
  rewrite (proj2 (Z.eqb_neq (val t) 0)) by lia.
  destruct (DeriveTarget (compact_of v) limit) as [t'|]; [|intros H; specialize (H _ eq_refl); lia].
  intros (Hw' & [= E] & _). exists t'. rewrite <- E. auto.
Qed.

Lemma bits_target_nonneg (bits : Z) : is_u32 bits -> 0 <= bits_target bits.
Proof. intros Hb. destruct (bits_target_spec bits Hb) as (t & n & o & _ & Hw & <-). by apply uint_val_bound. Qed.

Lemma weighted_nonneg (l : list Z) : Forall (fun x => 0 <= x) l -> 0 <= weighted l.
Proof. induction 1; cbn [weighted]; nia. Qed.

Lemma lwma_window_nonneg (m : BlockMap) (params : Params) (n : nat) (p : uint256) :
  works_ok m -> 0 < nPowTargetSpacing params ->
  0 <= weighted (map fst (lwma_window m params n p)) /\
  0 <= weighted (map snd (lwma_window m params n p)).
Proof.
  intros Hwk Hs. split; apply weighted_nonneg, Forall_map, lwma_window_Forall; intros q b prev Hq; cbn.
  - by apply bits_target_nonneg, (Hwk q b Hq).
  - by apply lwma_solvetime_bounds.
Qed.

Lemma compact_of_bits_target (c : Z) : is_u32 c -> compact_canonical c ->
  compact_of (bits_target c) = c /\ compact_target c = Some (bits_target c).
Proof.
  intros Hc Hcan. pose proof (compact_canonical_roundtrip c Hc Hcan) as H.
  destruct (bits_target_spec c Hc) as (t & neg & ovf & Hs & Hw & Hv). rewrite Hs in H.
  destruct H as (-> & -> & H). rewrite GetCompact_of, Hv in H by done. injection H as H. split; [done|].
  unfold compact_target. rewrite Hs, Hv. cbn [orb].
  destruct (Z.eqb_spec (bits_target c) 0) as [E|E]; [|done].
  exfalso. rewrite E in H. change (compact_of 0) with 0 in H. subst c.
  destruct Hcan as [[Hm _] _]. change (0 mod 2 ^ 24) with 0 in Hm. lia.
Qed.

Lemma weighted_const (c : Z) (l : list Z) :
  Forall (fun x => x = c) l -> weighted l = c * weighted (map (fun _ => 1) l).
Proof. induction 1 as [|x l -> _ IH]; cbn [map weighted length]; [|rewrite length_map, IH]; lia. Qed.

(** A window product that reaches 256 bits wraps below the lower clamp. *)
Lemma lwma_target_wrapped (params : Params) (T : Z) (w : list (Z * Z)) :
  weighted (map (fun _ => 1) w) = lwma_weight -> 0 < nPowTargetSpacing params ->
  0 <= T <= powLimit params -> powLimit params * 110 < M256 ->
  M256 <= T * 90 / 100 * (lwma_weight * nPowTargetSpacing params) ->
  lwma_target params T w = T * 90 / 100.
Proof.
  intros HW Hsp HT Hlim Hbig. unfold lwma_target. rewrite HW.
  rewrite (Z.mod_small (T * 90)), (Z.mod_small (T * 110)) by lia. cbv zeta.
  set (x := (_ * _) mod M256). assert (Hx : 0 <= x < M256) by by apply Z.mod_pos_bound.
  set (d := lwma_weight * nPowTargetSpacing params) in *. assert (0 < d) by (unfold d, lwma_weight; lia).
  assert (x / d < T * 90 / 100) by (apply Z.div_lt_upper_bound; lia).
  assert (T * 90 / 100 <= T * 110 / 100) by (apply Z.div_le_mono; lia).
  assert (T * 90 / 100 <= T) by (apply Z.div_le_upper_bound; lia). lia.
Qed.

(** A chain of [n] blocks after a genesis block, hashes 1 .. n+1, equally spaced:
    the block index on which the theorems below are exercised. *)
Definition even_block (spacing bits h : Z) : CBlockIndex := {|
  pprev := if h =? 0 then None else Some h;
  pskip := if h =? 0 then None else Some (GetSkipHeight h + 1);
  nHeight := h; nChainWork := uint_zero; nTx := 0; m_chain_tx_count := 0; nStatus := BLOCK_VALID_TREE;
  bi_nVersion := 4; bi_hashMerkleRoot := 0; bi_nTime := 1000 + spacing * h; bi_nBits := bits;
  bi_nNonce := 0; nSequenceId := 1; nTimeMax := 1000 + spacing * h |}.

Definition even_chain (n spacing bits : Z) : BlockMap :=
  list_to_map (map (fun h => (h + 1, even_block spacing bits h)) (seqZ 0 (n + 1))).

Section EvenChain.

Context (n spacing bits : Z) (Hbits : is_u32 bits).

Lemma even_chain_lookup (k : Z) :
  even_chain n spacing bits !! k =
    if (1 <=? k) && (k <=? n + 1) then Some (even_block spacing bits (k - 1)) else None.
Proof.
  unfold even_chain. destruct (Z.leb_spec 1 k); [destruct (Z.leb_spec k (n + 1))|]; cbn [andb].
  - apply elem_of_list_to_map.
    + rewrite map_map. cbn [fst]. apply NoDup_fmap_2_strong; [intros; lia|apply NoDup_seqZ].
    + apply list_elem_of_fmap. exists (k - 1). rewrite elem_of_seqZ. split; [f_equal; lia|lia].
  - apply not_elem_of_list_to_map. rewrite map_map. cbn [fst]. intros E.
    apply list_elem_of_fmap in E as (h & -> & Hh). apply elem_of_seqZ in Hh. lia.
  - apply not_elem_of_list_to_map. rewrite map_map. cbn [fst]. intros E.
    apply list_elem_of_fmap in E as (h & -> & Hh). apply elem_of_seqZ in Hh. lia.
Qed.

Lemma even_chain_block (h : Z) : 0 <= h <= n ->
  even_chain n spacing bits !! (h + 1) = Some (even_block spacing bits h).
Proof.
  intros Hh. rewrite even_chain_lookup, (proj2 (Z.leb_le 1 (h + 1))), (proj2 (Z.leb_le (h + 1) (n + 1))) by lia.
  cbn [andb]. do 2 f_equal. lia.
Qed.

Lemma even_chain_walk (d : nat) (h : Z) : Z.of_nat d <= h <= n ->
  walk_back (even_chain n spacing bits) d (h + 1) = Some (h - Z.of_nat d + 1).
Proof.
  revert h; induction d as [|d IH]; intros h Hh; cbn [walk_back]; [f_equal; lia|].
  rewrite even_chain_block by lia. cbn [mbind option_bind even_block pprev].
  rewrite (proj2 (Z.eqb_neq h 0)) by lia. cbn [mbind option_bind].
  replace h with (h - 1 + 1) at 1 by lia. rewrite IH by lia. f_equal. lia.
Qed.

Lemma even_chain_ok : tree_ok (even_chain n spacing bits) /\ works_ok (even_chain n spacing bits).
Proof.
  split; intros k b Hk; rewrite even_chain_lookup in Hk;
    (destruct (Z.leb_spec 1 k); [|discriminate]); (destruct (Z.leb_spec k (n + 1)); [|discriminate]);
    injection Hk as <-; [|split; [by apply (bool_decide_unpack _)|exact Hbits]].
  split; [cbn; lia|]. cbn [pprev pskip even_block nHeight].
  destruct (Z.eqb_spec (k - 1) 0); [done|]. exists (even_block spacing bits (k - 2)).
  pose proof (even_chain_block (k - 2) ltac:(lia)) as E. replace (k - 2 + 1) with (k - 1) in E by lia.
  split; [done|]. split; [cbn; lia|]. pose proof (GetSkipHeight_bound (k - 1) ltac:(lia)) as Hs.
  pose proof (even_chain_walk (Z.to_nat (k - 1 - GetSkipHeight (k - 1))) (k - 1) ltac:(lia)) as W.
  replace (k - 1 + 1) with k in W by lia. rewrite W. f_equal. lia.
Qed.
End EvenChain.

(** ** Properties *)



(** Numeric content of the clamps. *)
Lemma lwma_target_clamped (params : Params) (T : Z) (w : list (Z * Z)) :
  is_u256 (powLimit params) -> 2 <= T <= powLimit params -> powLimit params * 110 < M256 ->
  let v := lwma_target params T w in
  0 < v <= powLimit params /\ T * 90 / 100 <= v <= T * 110 / 100.
Proof.
  intros Hl HT Hlim. unfold lwma_target. rewrite (Z.mod_small (T * 90)), (Z.mod_small (T * 110)) by lia.
  cbv zeta. set (raw := (_ mod M256) / _). 
  pose proof (Z.div_mod (T * 90) 100 ltac:(lia)). pose proof (Z.mod_pos_bound (T * 90) 100 ltac:(lia)).
  pose proof (Z.div_mod (T * 110) 100 ltac:(lia)). pose proof (Z.mod_pos_bound (T * 110) 100 ltac:(lia)).
  lia.
Qed.

(** Whatever the timestamps in the window, the next target is one that
    [DeriveTarget] accepts: it is positive, at most the limit, at most 1.1 times
    the last target, and at least 0.9 times the last target up to the
    precision of the compact encoding (one part in 2^15). *)
Theorem GetNextWorkRequired_clamped (m : BlockMap) (p : uint256) (b : CBlockIndex) (params : Params) :
  tree_ok m -> works_ok m -> params_ok params -> m !! p = Some b -> lwma_N <= nHeight b ->
  2 <= bits_target (bi_nBits b) <= powLimit params -> powLimit params * 110 < M256 ->
  exists bits t, GetNextWorkRequired m p params = Some bits /\ is_u32 bits /\
    DeriveTarget bits (powLimit params) = Some t /\ uint_wf t /\
    val t <= powLimit params /\
    val t <= bits_target (bi_nBits b) * 110 / 100 /\
    (2 ^ 15 - 1) * (bits_target (bi_nBits b) * 90 / 100) <= 2 ^ 15 * val t.
Proof.
  intros Hok Hwk Hpar Hp Hh HT Hlim. destruct Hpar as [Hl Hsp].
  rewrite (GetNextWorkRequired_spec m p b) by done.
  rewrite (proj2 (Z.ltb_ge (nHeight b) lwma_N)) by done.
  set (w := lwma_window _ _ _ _). pose proof (lwma_target_clamped params _ w Hl HT Hlim) as [Hv Hc].
  set (v := lwma_target _ _ _) in *.
  destruct (DeriveTarget_compact_of v (powLimit params) Hv Hl) as (Hu & t & Hd & Hw & Hle & Herr).
  exists (compact_of v), t. repeat (split; [done || lia|]). lia.
Qed.

Lemma GetNextWorkRequired_clamped_witness :
  exists bits t, GetNextWorkRequired (even_chain 91 30 0x1c0fffff) 92 CMainParams = Some bits /\
    DeriveTarget bits (powLimit CMainParams) = Some t.
Proof.
  assert (Hok : tree_ok (even_chain 91 30 0x1c0fffff) /\ works_ok (even_chain 91 30 0x1c0fffff)) by (apply even_chain_ok; unfold is_u32; lia).
  destruct Hok as [H1 H2].
  destruct (GetNextWorkRequired_clamped _ 92 (even_block 30 0x1c0fffff 91) CMainParams H1 H2)
    as (bits & t & E & _ & Hd & _);
    [apply (bool_decide_unpack _); vm_compute; exact I
    |apply (even_chain_block 91 30 0x1c0fffff 91); lia|cbn; unfold lwma_N; lia
    |apply (bool_decide_unpack _); vm_compute; exact I|vm_compute; reflexivity|].
  exists bits, t. split; [exact E|exact Hd].
Defined.

(** When neither the weighted target sum nor the product with the weighted
    solve times exceeds 256 bits, the computation is the exact LWMA quotient. *)
Theorem GetNextWorkRequired_exact (m : BlockMap) (p : uint256) (b : CBlockIndex) (params : Params) :
  tree_ok m -> works_ok m -> params_ok params -> m !! p = Some b -> lwma_N <= nHeight b ->
  let w := lwma_window m params (Z.to_nat lwma_N) p in
  let T := bits_target (bi_nBits b) in
  let avg := weighted (map fst w) / 4095 in
  weighted (map fst w) < M256 -> avg * weighted (map snd w) < M256 -> T * 110 < M256 ->
  GetNextWorkRequired m p params =
    Some (compact_of (Z.min (powLimit params) (Z.min (T * 110 / 100) (Z.max (T * 90 / 100)
      (avg * weighted (map snd w) / (4095 * nPowTargetSpacing params)))))).
Proof.
  intros Hok Hwk Hpar Hp Hh w T avg Hs Hprod HT. rewrite (GetNextWorkRequired_spec m p b) by done.
  rewrite (proj2 (Z.ltb_ge (nHeight b) lwma_N)) by done. fold w T. unfold lwma_target.
  assert (weighted (map (fun _ => 1) w) = 4095) as -> by by apply (lwma_window_weight m params p b).
  destruct (lwma_window_nonneg m params (Z.to_nat lwma_N) p Hwk) as [Hf Hsn]; [apply Hpar|]. fold w in Hf, Hsn.
  assert (HT0 : 0 <= T) by by apply bits_target_nonneg, (Hwk p b Hp).
  assert (0 <= avg) by (apply Z.div_pos; lia).
  rewrite (Z.mod_small (weighted (map fst w))) by lia. fold avg.
  rewrite (Z.mod_small (avg * _)) by nia. rewrite !Z.mod_small by lia. done.
Qed.

Lemma GetNextWorkRequired_exact_witness :
  exists v, GetNextWorkRequired (even_chain 91 630 0x1c0fffff) 92 CMainParams = Some (compact_of v).
Proof.
  assert (Hok : tree_ok (even_chain 91 630 0x1c0fffff) /\ works_ok (even_chain 91 630 0x1c0fffff)) by (apply even_chain_ok; unfold is_u32; lia).
  destruct Hok as [H1 H2].
  eexists. apply (GetNextWorkRequired_exact _ 92 (even_block 630 0x1c0fffff 91) CMainParams H1 H2);
    [apply (bool_decide_unpack _); vm_compute; exact I
    |apply (even_chain_block 91 630 0x1c0fffff 91); lia|cbn; unfold lwma_N; lia| | |];
    vm_compute; reflexivity.
Defined.

(** the rule has the intended fixed point: if the last 90 blocks carry the
    same canonical bits and each is charged exactly the target spacing, and
    the product fits in 256 bits, the next block has to carry the same bits. *)
Theorem GetNextWorkRequired_steady (m : BlockMap) (p : uint256) (b : CBlockIndex) (params : Params) :
  tree_ok m -> works_ok m -> params_ok params -> m !! p = Some b -> lwma_N <= nHeight b ->
  let T := bits_target (bi_nBits b) in
  Forall (fun x => x = (T, nPowTargetSpacing params)) (lwma_window m params (Z.to_nat lwma_N) p) ->
  compact_canonical (bi_nBits b) -> T <= powLimit params ->
  T * (4095 * nPowTargetSpacing params) < M256 -> T * 110 < M256 ->
  GetNextWorkRequired m p params = Some (bi_nBits b).
Proof.
  intros Hok Hwk Hpar Hp Hh T Hw Hcan HTl Hprod HT. destruct Hpar as [Hl Hsp].
  rewrite (GetNextWorkRequired_spec m p b) by done.
  rewrite (proj2 (Z.ltb_ge (nHeight b) lwma_N)) by done. fold T.
  pose proof (lwma_window_weight m params p b Hok Hp Hh) as HW. unfold lwma_weight in HW.
  set (w := lwma_window _ _ _ _) in *. destruct (Hwk p b Hp) as [_ Hb].
  assert (HT0 : 0 <= T) by by apply bits_target_nonneg.
  assert (Hf : weighted (map fst w) = T * 4095).
  { rewrite (weighted_const T), map_map, HW; [done|]. apply Forall_map. eapply Forall_impl; [exact Hw|]. by intros x ->. }
  assert (Hs : weighted (map snd w) = nPowTargetSpacing params * 4095).
  { rewrite (weighted_const (nPowTargetSpacing params)), map_map, HW; [done|].
    apply Forall_map. eapply Forall_impl; [exact Hw|]. by intros x ->. }
  unfold lwma_target. rewrite HW, Hf, Hs. rewrite (Z.mod_small (T * 4095)) by nia.
  rewrite Z.div_mul by lia. replace (T * (nPowTargetSpacing params * 4095)) with (T * (4095 * nPowTargetSpacing params)) by ring.
  rewrite (Z.mod_small (T * (4095 * _))) by nia. rewrite Z.div_mul by lia. rewrite !Z.mod_small by lia. cbv zeta.
  assert (T * 90 / 100 <= T) by (apply Z.div_le_upper_bound; lia).
  assert (T <= T * 110 / 100) by (apply Z.div_le_lower_bound; lia).
  replace (Z.min _ _) with T by lia. f_equal. by apply compact_of_bits_target.
Qed.

Lemma GetNextWorkRequired_steady_witness :
  GetNextWorkRequired (even_chain 91 600 0x1c0fffff) 92 CMainParams = Some 0x1c0fffff.
Proof.
  assert (Hok : tree_ok (even_chain 91 600 0x1c0fffff) /\ works_ok (even_chain 91 600 0x1c0fffff)) by (apply even_chain_ok; unfold is_u32; lia).
  destruct Hok as [H1 H2].
  apply (GetNextWorkRequired_steady _ 92 (even_block 600 0x1c0fffff 91) CMainParams H1 H2);
    [apply (bool_decide_unpack _); vm_compute; exact I
    |apply (even_chain_block 91 600 0x1c0fffff 91); lia|cbn; unfold lwma_N; lia
    |apply (bool_decide_unpack _); vm_compute; exact I
    |apply (bool_decide_unpack _); vm_compute; exact I| | |].
  - apply (bool_decide_unpack _); vm_compute; exact I.
  - vm_compute; reflexivity.
  - vm_compute; reflexivity.
Defined.

(** The product [avgTarget * nWeightedSolvetimes] is taken modulo 2^256. Once
    0.9 times the last target reaches 2^256 / (4095 * spacing), as it does at
    the main network's limit, the wrapped value always falls under the lower clamp: the
    next target is 0.9 times the last one whatever the timestamps are, slow blocks included. *)
Theorem GetNextWorkRequired_overflow_hardens (m : BlockMap) (p : uint256) (b : CBlockIndex) (params : Params) :
  tree_ok m -> works_ok m -> params_ok params -> m !! p = Some b -> lwma_N <= nHeight b ->
  let T := bits_target (bi_nBits b) in
  T <= powLimit params -> powLimit params * 110 < M256 ->
  M256 <= T * 90 / 100 * (4095 * nPowTargetSpacing params) ->
  GetNextWorkRequired m p params = Some (compact_of (T * 90 / 100)).
Proof.
  intros Hok Hwk Hpar Hp Hh T HT Hlim Hbig.
  rewrite (GetNextWorkRequired_spec m p b) by done.
  rewrite (proj2 (Z.ltb_ge (nHeight b) lwma_N)) by done. fold T. do 2 f_equal.
  apply lwma_target_wrapped; [by apply (lwma_window_weight m params p b)|apply Hpar| |done|done].
  split; [|done]. by apply bits_target_nonneg, (Hwk p b Hp).
Qed.

(** At the main network's limit, with every block six times too slow. *)
Lemma GetNextWorkRequired_overflow_hardens_witness :
  exists T, bits_target 0x1f0fffff = T /\
    GetNextWorkRequired (even_chain 180 3600 0x1f0fffff) 181 CMainParams = Some (compact_of (T * 90 / 100)).
Proof.
  assert (Hok : tree_ok (even_chain 180 3600 0x1f0fffff) /\ works_ok (even_chain 180 3600 0x1f0fffff)) by (apply even_chain_ok; unfold is_u32; lia).
  destruct Hok as [H1 H2].
  exists (bits_target 0x1f0fffff). split; [reflexivity|].
  apply (GetNextWorkRequired_overflow_hardens _ 181 (even_block 3600 0x1f0fffff 180) CMainParams H1 H2);
    [apply (bool_decide_unpack _); vm_compute; exact I
    |apply (even_chain_block 180 3600 0x1f0fffff 180); lia|cbn; unfold lwma_N; lia
    |apply (bool_decide_unpack _); vm_compute; exact I|vm_compute; reflexivity
    |apply (bool_decide_unpack _); vm_compute; exact I].
Defined.

(** A hash passes the proof-of-work check exactly if the bits decode to a
    positive, non-negative-signed, non-overflowing target not above the limit
    and the hash, read as a number, is at most that target. *)
Theorem CheckProofOfWorkImpl_iff (hash bits : Z) (params : Params) :
  is_u32 bits -> is_u256 hash -> is_u256 (powLimit params) ->
  CheckProofOfWorkImpl hash bits params = true <->
  exists t, compact_target bits = Some t /\ hash <= t <= powLimit params.
Proof.
  intros Hb Hh Hl. unfold CheckProofOfWorkImpl. pose proof (DeriveTarget_spec bits (powLimit params) Hb Hl) as Hd.
  destruct (DeriveTarget bits (powLimit params)) as [t|].
  - destruct Hd as (Hw & Ht & Hle). rewrite uint_gtb_spec, u256_arith_val, negb_true_iff, Z.ltb_ge by auto with words.
    split; [intros; exists (val t); split; [done|lia]|]. intros (t' & Ht' & Hr). rewrite Ht in Ht'. injection Ht' as <-. lia.
  - split; [done|]. intros (t & Ht & Hr). specialize (Hd t Ht). lia.
Qed.

Lemma CheckProofOfWorkImpl_iff_witness :
  exists t, compact_target 0x1f0fffff = Some t /\ 12345 <= t <= powLimit CMainParams.
Proof.
  apply (CheckProofOfWorkImpl_iff 12345 0x1f0fffff CMainParams);
    [unfold is_u32; lia|unfold is_u256; lia|apply (bool_decide_unpack _); vm_compute; exact I|].
  vm_compute. reflexivity.
Defined.
