(* ===== verification/HeaderValidation.v ===== *)
(** * Header validation: the header part of src/src/validation.cpp

    [ContextualCheckBlockHeader], [AcceptBlockHeader] and
    [ProcessNewBlockHeaders] over the block index, the batch check
    [HasValidProofOfWork] and [CalculateClaimedHeadersWork]. The header hash and
    the RandomX hash are arbitrary functions here; [fuzz] is
    [EnableFuzzDeterminism()]. [None] stands for a failed assertion, a null
    dereference or a division by zero. *)

From stdpp Require Import sorting.
From S2P Require Import Prelude ValidationState ArithUint256 Chain Params Pow.
#[local] Open Scope Z_scope.

(** ** Constants *)

Definition MAX_TIMEWARP : Z := 600.
Definition MAX_FUTURE_BLOCK_TIME : Z := 2 * 60 * 60.

(** Length of a RandomX epoch, a literal in the source. *)
Definition rx_epoch : Z := 2048.

Section HeaderValidation.

Context (GetHash : CBlockHeader -> uint256).
Context (GetPoWHash : CBlockHeader -> uint256 -> uint256).
Context (fuzz : bool) (params : Params).

(** ** Operations *)

(** The seed for a block at [nHeight] on [pindexPrev]: the inner [None] is
    the "randomx-seed-unknown" case. *)
Definition contextual_seed (m : BlockMap) (pindexPrev : uint256) (nHeight : Z) : option (option uint256) :=
  let nSeedHeight := Z.quot nHeight rx_epoch * rx_epoch in
  if nSeedHeight =? 0 then Some (Some 0)
  else GetAncestor m pindexPrev nSeedHeight.

(** [ContextualCheckBlockHeader]; [now] is [NodeClock::now()] in nanoseconds. *)
Definition ContextualCheckBlockHeader (m : BlockMap) (now : Z) (block : CBlockHeader)
    (state : BlockValidationState) (pindexPrev : uint256) (fCheckPoW : bool)
  : option (bool * BlockValidationState) :=
  prev ← m !! pindexPrev;
  let nHeight := nHeight prev + 1 in
  required ← GetNextWorkRequired m pindexPrev params;
  if negb (nBits block =? required)
  then Some (Invalid state BLOCK_INVALID_HEADER "bad-diffbits" "incorrect proof of work")
  else
  seed ← contextual_seed m pindexPrev nHeight;
  match seed with
  | None => Some (Invalid state BLOCK_INVALID_HEADER "randomx-seed-unknown" EmptyString)
  | Some seed =>
  if fCheckPoW && negb (CheckProofOfWork fuzz (GetPoWHash block seed) (nBits block) params)
  then Some (Invalid state BLOCK_INVALID_HEADER "high-hash" "proof of work failed")
  else
  mtp ← GetMedianTimePast m pindexPrev;
  if nTime block <=? mtp
  then Some (Invalid state BLOCK_INVALID_HEADER "time-too-old" "block's timestamp is too early")
  else
  timewarp ←
    (if enforce_BIP94 params then
       if DifficultyAdjustmentInterval params =? 0 then None
       else Some ((Z.rem nHeight (DifficultyAdjustmentInterval params) =? 0) &&
                  (nTime block <? GetBlockTime prev - MAX_TIMEWARP))
     else Some false);
  if (timewarp : bool)
  then Some (Invalid state BLOCK_INVALID_HEADER "time-timewarp-attack"
               "block's timestamp is too early on diff adjustment block")
  else
  if nTime block * 10 ^ 9 >? now + MAX_FUTURE_BLOCK_TIME * 10 ^ 9
  then Some (Invalid state BLOCK_TIME_FUTURE "time-too-new" "block timestamp too far in the future")
  else
  if ((nVersion block <? 2) && DeploymentActiveAfter (Some prev) params DEPLOYMENT_HEIGHTINCB) ||
     ((nVersion block <? 3) && DeploymentActiveAfter (Some prev) params DEPLOYMENT_DERSIG) ||
     ((nVersion block <? 4) && DeploymentActiveAfter (Some prev) params DEPLOYMENT_CLTV)
  then Some (Invalid state BLOCK_INVALID_HEADER
               ("bad-version(0x" +:+ hex08 (nVersion block) +:+ ")")
               ("rejected nVersion=0x" +:+ hex08 (nVersion block) +:+ " block"))
  else Some (true, state)
  end.

(** [CheckBlockHeader]: the proof-of-work check is commented out in the source. *)
Definition CheckBlockHeader (block : CBlockHeader) (state : BlockValidationState) : bool * BlockValidationState :=
  (true, state).

Record accept_result := mkAccept {
  ar_ok : bool;
  ar_state : BlockValidationState;
  ar_index : option uint256;
  ar_manager : BlockManager
}.

(** [ChainstateManager::AcceptBlockHeader]; [ar_index] is [*ppindex]. *)
Definition AcceptBlockHeader (st : BlockManager) (now : Z) (block : CBlockHeader)
    (state : BlockValidationState) (min_pow_checked : bool) : option accept_result :=
  let hash := GetHash block in
  let m := m_block_index st in
  let finish (state : BlockValidationState) :=
    if negb min_pow_checked then
      let '(ok, state) := Invalid state BLOCK_HEADER_LOW_WORK "too-little-chainwork" EmptyString in
      Some (mkAccept ok state None st)
    else
      '(st', pindex) ← AddToBlockIndex GetHash st block;
      Some (mkAccept true state (Some pindex) st') in
  if hash =? hashGenesisBlock params then finish state
  else
  match m !! hash with
  | Some pindex =>
      if negb (Z.land (nStatus pindex) BLOCK_FAILED_MASK =? 0) then
        let '(ok, state) := Invalid state BLOCK_CACHED_INVALID "duplicate-invalid"
          ("block " +:+ uint256_ToString hash +:+ " was previously marked invalid") in
        Some (mkAccept ok state (Some hash) st)
      else Some (mkAccept true state (Some hash) st)
  | None =>
      let '(ok, state) := CheckBlockHeader block state in
      if negb ok then Some (mkAccept false state None st)
      else
      match m !! hashPrevBlock block with
      | None =>
          let '(ok, state) := Invalid state BLOCK_MISSING_PREV "prev-blk-not-found" EmptyString in
          Some (mkAccept ok state None st)
      | Some pindexPrev =>
          if negb (Z.land (nStatus pindexPrev) BLOCK_FAILED_MASK =? 0) then
            let '(ok, state) := Invalid state BLOCK_INVALID_PREV "bad-prevblk" EmptyString in
            Some (mkAccept ok state None st)
          else
          '(ok, state) ← ContextualCheckBlockHeader m now block state (hashPrevBlock block) true;
          if negb ok then Some (mkAccept false state None st) else finish state
      end
  end.

(** [ChainstateManager::ProcessNewBlockHeaders]: the loop under [cs_main], with
    the clock reading of each iteration; [pp] is [*ppindex]. *)
Fixpoint ProcessNewBlockHeaders (st : BlockManager) (headers : list (Z * CBlockHeader))
    (min_pow_checked : bool) (state : BlockValidationState) (pp : option uint256)
  : option accept_result :=
  match headers with
  | [] => Some (mkAccept true state pp st)
  | (now, header) :: rest =>
      r ← AcceptBlockHeader st now header state min_pow_checked;
      if negb (ar_ok r) then Some (mkAccept false (ar_state r) pp (ar_manager r))
      else ProcessNewBlockHeaders (ar_manager r) rest min_pow_checked (ar_state r) (ar_index r)
  end.
(** Seed that [HasValidProofOfWork] uses for [headers[i]] at [currentHeight];
    the inner [None] is [return false]. *)
Definition batch_seed (m : BlockMap) (headers : list CBlockHeader) (i : nat)
    (pindexPrev : option uint256) (currentHeight : Z) : option (option uint256) :=
  let prevHeight := currentHeight - 1 in
  let nSeedHeight := Z.quot prevHeight rx_epoch * rx_epoch in
  if nSeedHeight =? 0 then Some (Some 0)
  else
    deep ←
      match pindexPrev with
      | Some p => b ← m !! p; Some (nSeedHeight <=? nHeight b)
      | None => Some false
      end;
    if (deep : bool) then p ← pindexPrev; GetAncestor m p nSeedHeight
    else
      let offset := currentHeight - nSeedHeight in
      if (offset <=? 0) || (offset >? Z.of_nat i) then Some None
      else
        header ← headers !! (i - Z.to_nat offset)%nat;
        Some (Some (GetHash header)).

(** [pindexPrev ? pindexPrev->nHeight + 1 : 0] *)
Definition height_after (m : BlockMap) (pindexPrev : option uint256) : option Z :=
  match pindexPrev with
  | Some p => b ← m !! p; Some (nHeight b + 1)
  | None => Some 0
  end.

(** [LookupBlockIndex]: a pointer to the entry, or null. *)
Definition LookupBlockIndex (m : BlockMap) (hash : uint256) : option uint256 :=
  match m !! hash with Some _ => Some hash | None => None end.

(** The loop of [HasValidProofOfWork] from index [i] on; [rest] is [headers] without its first [i] elements. *)
Fixpoint HasValidProofOfWork_loop (m : BlockMap) (headers rest : list CBlockHeader) (i : nat)
    (pindexPrev : option uint256) (prevHash : uint256) (currentHeight : Z) : option bool :=
  match rest with
  | [] => Some true
  | header :: rest' =>
      let gap := negb (hashPrevBlock header =? prevHash) in
      let pindexPrev := if gap then LookupBlockIndex m (hashPrevBlock header) else pindexPrev in
      if gap && negb (bool_decide (is_Some pindexPrev)) &&
         negb (hashPrevBlock header =? hashGenesisBlock params)
      then Some false
      else
      currentHeight ← (if gap then height_after m pindexPrev else Some currentHeight);
      seed ← batch_seed m headers i pindexPrev currentHeight;
      match seed with
      | None => Some false
      | Some seed =>
          if negb (CheckProofOfWork fuzz (GetPoWHash header seed) (nBits header) params) then Some false
          else HasValidProofOfWork_loop m headers rest' (S i) pindexPrev (GetHash header) (currentHeight + 1)
      end
  end.

(** [HasValidProofOfWork] *)
Definition HasValidProofOfWork (m : BlockMap) (headers : list CBlockHeader) : option bool :=
  match headers with
  | [] => Some true
  | first :: _ =>
      let hashPrev := hashPrevBlock first in
      let pindexPrev := LookupBlockIndex m hashPrev in
      if negb (bool_decide (is_Some pindexPrev)) && negb (hashPrev =? 0) &&
         negb (hashPrev =? hashGenesisBlock params)
      then Some false
      else
        currentHeight ← height_after m pindexPrev;
        HasValidProofOfWork_loop m headers headers 0 pindexPrev hashPrev currentHeight
  end.

(** [CalculateClaimedHeadersWork] *)
Definition CalculateClaimedHeadersWork (headers : list CBlockHeader) : option arith_uint256 :=
  foldl (fun total header => t ← total; proof ← GetBlockProof (nBits header); Some (uint_add t proof))
    (Some (of_u64 0)) headers.

(** ** Rules that the stored headers satisfy *)

Definition header_valid (m : BlockMap) (h : uint256) (b : CBlockIndex) (q : uint256) : Prop :=
  GetHash (GetBlockHeader b) = h /\
  GetNextWorkRequired m q params = Some (bi_nBits b) /\
  (exists seed, contextual_seed m q (nHeight b) = Some (Some seed) /\
     CheckProofOfWork fuzz (GetPoWHash (GetBlockHeader b) seed) (bi_nBits b) params = true) /\
  (exists mtp, GetMedianTimePast m q = Some mtp /\ mtp < bi_nTime b).

Definition headers_valid (m : BlockMap) : Prop :=
  forall h b q, m !! h = Some b -> pprev b = Some q -> header_valid m h b q.

Record index_inv (st : BlockManager) : Prop := mkInv {
  inv_tree : tree_ok (m_block_index st);
  inv_works : works_ok (m_block_index st);
  inv_best : exists best, m_best_header st = Some best /\ is_Some (m_block_index st !! best);
  inv_genesis : is_Some (m_block_index st !! hashGenesisBlock params);
  inv_valid : headers_valid (m_block_index st)
}.

End HeaderValidation.


(** ** Stability of the rules under insertion of a fresh header *)

Section Grow.

Context (m : BlockMap) (h : uint256) (bnew : CBlockIndex).
Context (Hok : tree_ok m) (Hfresh : m !! h = None).

Lemma collect_times_grow (n : nat) (p : option uint256) :
  (forall q, p = Some q -> is_Some (m !! q)) ->
  collect_times (<[h := bnew]> m) n p = collect_times m n p.
Proof.
  revert p; induction n as [|n IH]; intros [q|] Hp; cbn [collect_times]; [done..| |done].
  destruct (Hp q eq_refl) as [b Hb]. rewrite lookup_insert_ne, Hb by congruence. cbn [mbind option_bind].
  rewrite IH; [done|]. intros q' Hq'. destruct (tree_ok_lookup m q b Hok Hb) as [_ Hpp].
  rewrite Hq' in Hpp. destruct Hpp as (b' & Hb' & _). eauto.
Qed.

Lemma GetMedianTimePast_grow (p : uint256) :
  is_Some (m !! p) -> GetMedianTimePast (<[h := bnew]> m) p = GetMedianTimePast m p.
Proof. intros Hp. unfold GetMedianTimePast. rewrite collect_times_grow; [done|]. by intros q [= <-]. Qed.

Lemma lwma_window_grow (params : Params) (n : nat) (p : uint256) :
  is_Some (m !! p) -> lwma_window (<[h := bnew]> m) params n p = lwma_window m params n p.
Proof.
  revert p; induction n as [|n IH]; intros p [b Hp]; cbn [lwma_window]; [done|].
  rewrite lookup_insert_ne, Hp by congruence. destruct (tree_ok_lookup m p b Hok Hp) as [_ Hpp].
  destruct (pprev b) as [q|]; [|done]. destruct Hpp as (b' & Hq & _).
  rewrite lookup_insert_ne by congruence. rewrite IH by eauto. done.
Qed.

Lemma GetNextWorkRequired_grow (params : Params) (p : uint256) :
  works_ok m -> tree_ok (<[h := bnew]> m) -> works_ok (<[h := bnew]> m) -> params_ok params ->
  is_Some (m !! p) -> GetNextWorkRequired (<[h := bnew]> m) p params = GetNextWorkRequired m p params.
Proof.
  intros Hw Hok' Hw' Hpar [b Hp].
  rewrite (GetNextWorkRequired_spec m p b), (GetNextWorkRequired_spec (<[h := bnew]> m) p b)
    by (done || by rewrite lookup_insert_ne by congruence).
  by rewrite lwma_window_grow by eauto.
Qed.

Lemma contextual_seed_grow (p : uint256) (height : Z) :
  is_Some (m !! p) -> contextual_seed (<[h := bnew]> m) p height = contextual_seed m p height.
Proof. intros Hp. unfold contextual_seed. by rewrite GetAncestor_grow. Qed.

End Grow.

(** ** The contextual rules *)

Definition version_ok (params : Params) (block : CBlockHeader) (height : Z) : Prop :=
  (nVersion block < 2 -> height < BIP34Height params) /\
  (nVersion block < 3 -> height < BIP66Height params) /\
  (nVersion block < 4 -> height < BIP65Height params).

(** The consensus rules for a header on top of [prev], in words of the numbers involved. *)
Record contextual_ok (GetPoWHash : CBlockHeader -> uint256 -> uint256) (fuzz : bool) (params : Params)
    (m : BlockMap) (now : Z) (block : CBlockHeader) (p : uint256) (prev : CBlockIndex)
    (fCheckPoW : bool) : Prop := mkContextual {
  cx_bits : GetNextWorkRequired m p params = Some (nBits block);
  cx_pow : exists seed, contextual_seed m p (nHeight prev + 1) = Some (Some seed) /\
    (fCheckPoW = true -> CheckProofOfWork fuzz (GetPoWHash block seed) (nBits block) params = true);
  cx_median : exists mtp, GetMedianTimePast m p = Some mtp /\ mtp < nTime block;
  cx_timewarp : enforce_BIP94 params = true ->
    Z.rem (nHeight prev + 1) (DifficultyAdjustmentInterval params) = 0 ->
    GetBlockTime prev - MAX_TIMEWARP <= nTime block;
  cx_future : nTime block * 10 ^ 9 <= now + MAX_FUTURE_BLOCK_TIME * 10 ^ 9;
  cx_version : version_ok params block (nHeight prev + 1)
}.

Lemma contextual_seed_spec (m : BlockMap) (p : uint256) (prev : CBlockIndex) :
  tree_ok m -> m !! p = Some prev ->
  let height := nHeight prev + 1 in
  let sh := height / rx_epoch * rx_epoch in
  contextual_seed m p height =
    Some (if sh =? 0 then Some 0 else if sh <=? nHeight prev then ancestor_at m p sh else None).
Proof.
  intros Hok Hp. destruct (tree_ok_lookup m p prev Hok Hp) as [H0 _]. cbv zeta. unfold contextual_seed.
  rewrite Z.quot_div_nonneg by (unfold rx_epoch; lia).
  set (sh := _ / rx_epoch * rx_epoch).
  assert (Hs : 0 <= sh) by (apply Z.mul_nonneg_nonneg; [apply Z.div_pos|]; unfold rx_epoch; lia).
  destruct (sh =? 0); [done|]. rewrite (GetAncestor_correct m p prev) by done.
  rewrite (proj2 (Z.leb_le 0 sh)) by done. cbn [andb]. by destruct (sh <=? nHeight prev).
Qed.

Lemma contextual_seed_boundary (m : BlockMap) (p : uint256) (prev : CBlockIndex) :
  tree_ok m -> m !! p = Some prev -> (nHeight prev + 1) mod rx_epoch = 0 ->
  contextual_seed m p (nHeight prev + 1) = Some None.
Proof.
  intros Hok Hp Hb. destruct (tree_ok_lookup m p prev Hok Hp) as [H0 _].
  rewrite (contextual_seed_spec m p prev Hok Hp).
  replace ((nHeight prev + 1) / rx_epoch * rx_epoch) with (nHeight prev + 1).
  - rewrite (proj2 (Z.eqb_neq _ 0)), (proj2 (Z.leb_gt _ _)) by lia. done.
  - pose proof (Z.div_mod (nHeight prev + 1) rx_epoch ltac:(unfold rx_epoch; lia)). lia.
Qed.

Lemma version_ok_spec (params : Params) (block : CBlockHeader) (prev : CBlockIndex) :
  ((nVersion block <? 2) && DeploymentActiveAfter (Some prev) params DEPLOYMENT_HEIGHTINCB) ||
  ((nVersion block <? 3) && DeploymentActiveAfter (Some prev) params DEPLOYMENT_DERSIG) ||
  ((nVersion block <? 4) && DeploymentActiveAfter (Some prev) params DEPLOYMENT_CLTV) = false <->
  version_ok params block (nHeight prev + 1).
Proof.
  unfold version_ok, DeploymentActiveAfter. cbn [DeploymentHeight].
  rewrite !orb_false_iff, !andb_false_iff, !Z.ltb_ge, !Z.leb_gt. lia.
Qed.

Lemma timewarp_spec (params : Params) (block : CBlockHeader) (prev : CBlockIndex) (height : Z) :
  (enforce_BIP94 params = true -> DifficultyAdjustmentInterval params <> 0) ->
  exists w, (if enforce_BIP94 params then
       if DifficultyAdjustmentInterval params =? 0 then None
       else Some ((Z.rem height (DifficultyAdjustmentInterval params) =? 0) &&
                  (nTime block <? GetBlockTime prev - MAX_TIMEWARP))
     else Some false) = Some w /\
    (w = false <-> (enforce_BIP94 params = true -> Z.rem height (DifficultyAdjustmentInterval params) = 0 ->
                    GetBlockTime prev - MAX_TIMEWARP <= nTime block)).
Proof.
  intros Hint. destruct (enforce_BIP94 params); [|exists false; by split].
  rewrite (proj2 (Z.eqb_neq _ 0)) by auto. eexists. split; [reflexivity|].
  rewrite andb_false_iff, Z.eqb_neq, Z.ltb_ge.
  destruct (decide (Z.rem height (DifficultyAdjustmentInterval params) = 0)); tauto.
Qed.

(** A rejecting branch: the state is the one [Invalid] gives and the rules do not hold. *)
Ltac reject := eexists _, _; split; [reflexivity|]; split; [split; [discriminate|]|eauto].

(** The check always returns, and what it returns is decided by the rules. *)
Lemma ContextualCheckBlockHeader_spec (GetPoWHash : CBlockHeader -> uint256 -> uint256) (fuzz : bool)
    (params : Params) (m : BlockMap) (now : Z) (block : CBlockHeader) (state : BlockValidationState)
    (p : uint256) (prev : CBlockIndex) (fCheckPoW : bool) :
  tree_ok m -> works_ok m -> params_ok params -> m !! p = Some prev ->
  (enforce_BIP94 params = true -> DifficultyAdjustmentInterval params <> 0) ->
  exists ok st', ContextualCheckBlockHeader GetPoWHash fuzz params m now block state p fCheckPoW = Some (ok, st') /\
    (ok = true <-> contextual_ok GetPoWHash fuzz params m now block p prev fCheckPoW) /\
    (if ok then st' = state else exists r reason debug, (ok, st') = Invalid state r reason debug).
Proof.
  intros Hok Hwk Hpar Hp Hint. unfold ContextualCheckBlockHeader. rewrite Hp. cbn [mbind option_bind].
  destruct (GetNextWorkRequired m p params) as [req|] eqn:Hreq; [|by rewrite (GetNextWorkRequired_spec m p prev) in Hreq].
  cbn [mbind option_bind]. destruct (Z.eqb_spec (nBits block) req) as [Ebits|Ebits]; cbn [negb].
  2: { reject. intros [Hb _ _ _ _ _]. congruence. }
  destruct (contextual_seed m p (nHeight prev + 1)) as [seed|] eqn:Hseed;
    [|by rewrite (contextual_seed_spec m p prev) in Hseed].
  cbn [mbind option_bind]. destruct seed as [seed|].
  2: { reject. intros [_ (s & Hs & _) _ _ _ _]. congruence. }
  set (pow := CheckProofOfWork _ _ _ _). destruct (fCheckPoW && negb pow) eqn:Epow.
  { apply andb_true_iff in Epow as [-> Epow]. apply negb_true_iff in Epow.
    reject. intros [_ (s & Hs & Hc) _ _ _ _]. rewrite Hseed in Hs. injection Hs as <-.
    fold pow in Hc. rewrite (Hc eq_refl) in Epow. done. }
  assert (Hpow : fCheckPoW = true -> pow = true) by (intros ->; by destruct pow).
  destruct (GetMedianTimePast_total m p prev Hok Hp) as [mtp Hmtp]. rewrite Hmtp. cbn [mbind option_bind].
  destruct (Z.leb_spec (nTime block) mtp) as [Emtp|Emtp].
  { reject. intros [_ _ (t & Ht & Hlt) _ _ _]. rewrite Hmtp in Ht. injection Ht as <-. lia. }
  destruct (timewarp_spec params block prev (nHeight prev + 1) Hint) as (w & -> & Hw). cbn [mbind option_bind].
  destruct w.
  { reject. intros [_ _ _ Ht _ _]. apply Hw in Ht. done. }
  rewrite Z.gtb_ltb. destruct (Z.ltb_spec (now + MAX_FUTURE_BLOCK_TIME * 10 ^ 9) (nTime block * 10 ^ 9)) as [Ef|Ef].
  { reject. intros [_ _ _ _ Ht _]. lia. }
  pose proof (version_ok_spec params block prev) as Hv. destruct (_ || _ || _).
  { reject. intros [_ _ _ _ _ Ht]. apply Hv in Ht. done. }
  eexists _, _. split; [reflexivity|]. split; [|done]. split; [|done]. intros _.
  constructor; [by rewrite Ebits|exists seed; eauto|eauto|by apply Hw|done|by apply Hv].
Qed.

(** ** Accepting a header *)

Section Accept.

Context (GetHash : CBlockHeader -> uint256).
Context (GetPoWHash : CBlockHeader -> uint256 -> uint256).
Context (fuzz : bool) (params : Params).
Context (Hpar : params_ok params).
Context (Hint : enforce_BIP94 params = true -> DifficultyAdjustmentInterval params <> 0).

Lemma header_valid_grow (m : BlockMap) (h h' : uint256) (bnew b : CBlockIndex) (q : uint256) :
  tree_ok m -> works_ok m -> m !! h = None -> tree_ok (<[h := bnew]> m) -> works_ok (<[h := bnew]> m) ->
  is_Some (m !! q) ->
  header_valid GetHash GetPoWHash fuzz params m h' b q ->
  header_valid GetHash GetPoWHash fuzz params (<[h := bnew]> m) h' b q.
Proof.
  intros Hok Hwk Hfresh Hok' Hwk' Hq (H1 & H2 & H3 & H4). unfold header_valid.
  rewrite GetNextWorkRequired_grow, contextual_seed_grow, GetMedianTimePast_grow by done. done.
Qed.

Lemma AddToBlockIndex_inv (st : BlockManager) (now : Z) (block : CBlockHeader) (prev : CBlockIndex) :
  index_inv GetHash GetPoWHash fuzz params st -> is_u32 (nBits block) ->
  m_block_index st !! GetHash block = None -> m_block_index st !! hashPrevBlock block = Some prev ->
  contextual_ok GetPoWHash fuzz params (m_block_index st) now block (hashPrevBlock block) prev true ->
  exists st' b, AddToBlockIndex GetHash st block = Some (st', GetHash block) /\
    index_inv GetHash GetPoWHash fuzz params st' /\
    m_block_index st' = <[GetHash block := b]> (m_block_index st) /\ nHeight b = nHeight prev + 1.
Proof.
  intros [Hok Hwk (best & Hbest & Hbb) Hgen Hval] Hbits Hfresh Hprev [Cb Cp Cm _ _ _].
  destruct (AddToBlockIndex_new GetHash st block prev best Hok Hwk Hbest Hbb Hbits Hfresh Hprev)
    as (st' & b & Ha & Hm & Hpp & Hh & _ & _ & Hnb & Hnt & _ & _ & Hhd & Hok' & Hwk' & p & bb & Hp & Hpb & _).
  exists st', b. split; [done|]. split; [|done]. rewrite Hm in *. constructor; rewrite ?Hm; [done..|eauto| |].
  - rewrite lookup_insert_ne; [done|]. intros E. rewrite E in Hfresh. rewrite Hfresh in Hgen. by destruct Hgen.
  - intros h' b' q Hb' Hq. destruct (decide (h' = GetHash block)) as [->|Hne].
    + rewrite lookup_insert_eq in Hb'. injection Hb' as <-. rewrite Hpp in Hq. injection Hq as <-.
      apply header_valid_grow; [done..|eauto|]. unfold header_valid. rewrite Hhd, Hnb, Hnt, Hh.
      split; [done|]. split; [done|]. split; [|done]. destruct Cp as (s & Hs & Hc). eauto.
    + rewrite lookup_insert_ne in Hb' by done. destruct (tree_ok_lookup _ _ _ Hok Hb') as [_ Hpq].
      rewrite Hq in Hpq. destruct Hpq as (bq & Hbq & _).
      apply header_valid_grow; [done..|eauto|]. by apply Hval.
Qed.

(** A branch that returns [false] and leaves the block index alone. *)
Ltac keep_state := eexists; split; [reflexivity|]; cbn; split; [assumption|]; split; [discriminate|by left].

(** Everything a call of [AcceptBlockHeader] can do. *)
Lemma AcceptBlockHeader_spec (st : BlockManager) (now : Z) (block : CBlockHeader)
    (state : BlockValidationState) (min_pow_checked : bool) :
  index_inv GetHash GetPoWHash fuzz params st -> is_u32 (nBits block) ->
  exists r, AcceptBlockHeader GetHash GetPoWHash fuzz params st now block state min_pow_checked = Some r /\
    index_inv GetHash GetPoWHash fuzz params (ar_manager r) /\
    (ar_ok r = true -> ar_index r = Some (GetHash block) /\ ar_state r = state /\
       is_Some (m_block_index (ar_manager r) !! GetHash block)) /\
    (ar_manager r = st \/
     exists prev b, m_block_index st !! GetHash block = None /\ min_pow_checked = true /\ ar_ok r = true /\
       m_block_index st !! hashPrevBlock block = Some prev /\
       Z.land (nStatus prev) BLOCK_FAILED_MASK = 0 /\
       contextual_ok GetPoWHash fuzz params (m_block_index st) now block (hashPrevBlock block) prev true /\
       m_block_index (ar_manager r) = <[GetHash block := b]> (m_block_index st) /\
       nHeight b = nHeight prev + 1).
Proof.
  intros Hinv Hbits. pose proof Hinv as [Hok Hwk _ Hgen _]. unfold AcceptBlockHeader.
  destruct (Z.eqb_spec (GetHash block) (hashGenesisBlock params)) as [E|E].
  { destruct min_pow_checked; cbn [negb]; [|keep_state].
    unfold AddToBlockIndex. destruct Hgen as [g Hg]. rewrite E, Hg. cbn.
    eexists. split; [reflexivity|]. cbn. rewrite Hg. split; [done|]. split; [|by left]. intros _. eauto. }
  destruct (m_block_index st !! GetHash block) as [pindex|] eqn:Hself.
  { destruct (Z.eqb_spec (Z.land (nStatus pindex) BLOCK_FAILED_MASK) 0); cbn [negb];
      eexists; (split; [reflexivity|]); cbn; rewrite ?Hself; (split; [done|]); (split; [|by left]); [|done].
    intros _. eauto. }
  cbn [CheckBlockHeader negb]. destruct (m_block_index st !! hashPrevBlock block) as [prev|] eqn:Hprev.
  2: keep_state.
  destruct (Z.eqb_spec (Z.land (nStatus prev) BLOCK_FAILED_MASK) 0) as [Hst|Hst]; cbn [negb].
  2: keep_state.
  destruct (ContextualCheckBlockHeader_spec GetPoWHash fuzz params (m_block_index st) now block state
    (hashPrevBlock block) prev true Hok Hwk Hpar Hprev Hint) as (ok & st1 & -> & Hiff & Hst1).
  cbn [mbind option_bind]. destruct ok; cbn [negb].
  2: keep_state.
  subst st1. pose proof (proj1 Hiff eq_refl) as Hcx.
  destruct min_pow_checked; cbn [negb]; [|keep_state].
  destruct (AddToBlockIndex_inv st now block prev Hinv Hbits Hself Hprev Hcx) as (st' & b & -> & Hinv' & Hm & Hh).
  cbn [mbind option_bind]. eexists. split; [reflexivity|]. cbn. split; [done|].
  split; [rewrite Hm, lookup_insert_eq; eauto|]. right. exists prev, b. auto 10.
Qed.

(** One call of [AcceptBlockHeader], whatever the header, the clock and the flags. *)
Inductive accept_step : BlockManager -> BlockManager -> Prop :=
  | accept_step_intro st now block state min_pow_checked r :
      is_u32 (nBits block) ->
      AcceptBlockHeader GetHash GetPoWHash fuzz params st now block state min_pow_checked = Some r ->
      accept_step st (ar_manager r).

(** Block indexes that sequences of header messages can produce. *)
Inductive accept_reachable (st0 : BlockManager) : BlockManager -> Prop :=
  | reach_start : accept_reachable st0 st0
  | reach_step st st' : accept_reachable st0 st -> accept_step st st' -> accept_reachable st0 st'.

Lemma accept_step_inv (st st' : BlockManager) :
  index_inv GetHash GetPoWHash fuzz params st -> accept_step st st' ->
  index_inv GetHash GetPoWHash fuzz params st' /\ m_block_index st ⊆ m_block_index st'.
Proof.
  intros Hinv Hs. revert Hinv. destruct Hs as [st1 now block state mp r Hbits Hr]. intros Hinv.
  destruct (AcceptBlockHeader_spec st1 now block state mp Hinv Hbits) as (r' & Hr' & Hi & _ & Hcase).
  rewrite Hr in Hr'. injection Hr' as <-. split; [done|].
  destruct Hcase as [->|(prev & b & Hf & _ & _ & _ & _ & _ & -> & _)]; [done|]. by apply insert_subseteq.
Qed.

Lemma accept_reachable_inv (st0 st : BlockManager) :
  index_inv GetHash GetPoWHash fuzz params st0 -> accept_reachable st0 st ->
  index_inv GetHash GetPoWHash fuzz params st /\ m_block_index st0 ⊆ m_block_index st.
Proof.
  intros H0. induction 1 as [|st st' _ [IH1 IH2] Hs]; [done|].
  destruct (accept_step_inv st st' IH1 Hs) as [H1 H2]. split; [done|]. by etrans.
Qed.

(** The seed rule leaves no valid header at the start of an epoch. *)
Lemma index_inv_height (st : BlockManager) (h : uint256) (b : CBlockIndex) :
  index_inv GetHash GetPoWHash fuzz params st -> m_block_index st !! h = Some b -> nHeight b < rx_epoch.
Proof.
  intros [Hok _ _ _ Hval] Hb. destruct (Z.lt_ge_cases (nHeight b) rx_epoch) as [|Hge]; [done|exfalso].
  destruct (walk_back_total _ (Z.to_nat (nHeight b - rx_epoch)) h b Hok Hb) as (q & bq & _ & Hq & Hhq);
    [unfold rx_epoch in *; lia|].
  rewrite Z2Nat.id in Hhq by lia. destruct (tree_ok_lookup _ _ _ Hok Hq) as [_ Hpp].
  destruct (pprev bq) as [q'|] eqn:Hpq; [|unfold rx_epoch in *; lia].
  destruct Hpp as (b' & Hb' & Hh' & _). destruct (Hval q bq q' Hq Hpq) as (_ & _ & (s & Hs & _) & _).
  rewrite Hh', (contextual_seed_boundary _ q' b') in Hs; [done|done|done|].
  rewrite <- Hh', Hhq. replace (nHeight b - (nHeight b - rx_epoch)) with rx_epoch by lia. done.
Qed.

Lemma ProcessNewBlockHeaders_spec (headers : list (Z * CBlockHeader)) (st : BlockManager)
    (min_pow_checked : bool) (state : BlockValidationState) (pp : option uint256) :
  index_inv GetHash GetPoWHash fuzz params st -> Forall (fun x => is_u32 (nBits x.2)) headers ->
  exists r, ProcessNewBlockHeaders GetHash GetPoWHash fuzz params st headers min_pow_checked state pp = Some r /\
    accept_reachable st (ar_manager r) /\
    (ar_ok r = true -> Forall (fun x => is_Some (m_block_index (ar_manager r) !! GetHash x.2)) headers /\
       ar_index r = from_option (fun x => Some (GetHash x.2)) pp (last headers)).
Proof.
  intros Hinv Hb. revert st state pp Hinv. induction Hb as [|[now block] headers Hbits _ IH]; intros st state pp Hinv.
  - eexists. split; [reflexivity|]. split; [constructor|]. intros _. by split.
  - cbn [ProcessNewBlockHeaders]. cbn in Hbits.
    destruct (AcceptBlockHeader_spec st now block state min_pow_checked Hinv Hbits) as (r & Hr & Hi & Hok & _).
    assert (Hstep : accept_step st (ar_manager r)) by by apply (accept_step_intro st now block state min_pow_checked).
    rewrite Hr. cbn [mbind option_bind]. destruct (ar_ok r); cbn [negb].
    + destruct (Hok eq_refl) as (Hidx & _ & Hin).
      destruct (IH (ar_manager r) (ar_state r) (ar_index r) Hi) as (r' & Hr' & Hreach & Hall).
      exists r'. split; [done|]. split.
      * clear -Hreach Hstep. induction Hreach as [|st1 st2 _ IHr Hs]; econstructor; eauto; constructor.
      * intros E. destruct (Hall E) as [Hf Hlast]. destruct (accept_reachable_inv _ _ Hi Hreach) as [_ Hsub].
        split; [|rewrite Hlast, Hidx, last_cons; by destruct (last headers)]. constructor; [|done]. cbn.
        destruct Hin as [x Hx]. exists x. by apply (lookup_weaken _ _ _ _ Hx).
    + eexists. split; [reflexivity|]. cbn. split; [|done]. econstructor; [constructor|done].
Qed.

End Accept.

(** ** Batches of headers *)

Section Batch.

Context (GetHash : CBlockHeader -> uint256).
Context (GetPoWHash : CBlockHeader -> uint256 -> uint256).
Context (fuzz : bool) (params : Params).
Context (m : BlockMap) (p : uint256) (prev : CBlockIndex).
Context (Hok : tree_ok m) (Hp : m !! p = Some prev).
Context (headers : list CBlockHeader).

(** Each header of [l] names its predecessor, starting from hash [q]. *)
Fixpoint connected (q : uint256) (l : list CBlockHeader) : Prop :=
  match l with
  | [] => True
  | h :: l' => hashPrevBlock h = q /\ connected (GetHash h) l'
  end.

(** Hash of the block at [height] on the branch that ends with the batch. *)
Definition branch_hash (height : Z) : uint256 :=
  if height <=? nHeight prev then default 0 (ancestor_at m p height)
  else default 0 (GetHash <$> headers !! Z.to_nat (height - nHeight prev - 1)).

(** Seed of a block at [height] according to [HasValidProofOfWork]. *)
Definition epoch_seed (height : Z) : uint256 :=
  let sh := (height - 1) / rx_epoch * rx_epoch in
  if sh =? 0 then 0 else branch_hash sh.

Lemma epoch_start_bound (height : Z) : 1 <= height ->
  0 <= (height - 1) / rx_epoch * rx_epoch <= height - 1.
Proof.
  intros H. assert (0 < rx_epoch) by done. pose proof (Z.div_mod (height - 1) rx_epoch ltac:(lia)).
  pose proof (Z.mod_pos_bound (height - 1) rx_epoch ltac:(lia)).
  assert (0 <= (height - 1) / rx_epoch) by (apply Z.div_pos; lia). nia.
Qed.

Lemma batch_seed_spec (i : nat) : (i < length headers)%nat ->
  batch_seed GetHash m headers i (Some p) (nHeight prev + 1 + Z.of_nat i)
  = Some (Some (epoch_seed (nHeight prev + 1 + Z.of_nat i))).
Proof.
  intros Hi. destruct (tree_ok_lookup m p prev Hok Hp) as [H0 _]. unfold batch_seed, epoch_seed.
  set (height := nHeight prev + 1 + Z.of_nat i). rewrite Z.quot_div_nonneg by (unfold rx_epoch; lia).
  pose proof (epoch_start_bound height ltac:(lia)) as Hb. set (sh := _ / rx_epoch * rx_epoch) in *.
  destruct (Z.eqb_spec sh 0); [done|]. rewrite Hp. cbn [mbind option_bind]. unfold branch_hash.
  destruct (Z.leb_spec sh (nHeight prev)) as [Hle|Hgt].
  - rewrite (GetAncestor_correct m p prev) by done.
    rewrite (proj2 (Z.leb_le 0 sh)), (proj2 (Z.leb_le sh (nHeight prev))) by lia. cbn [andb].
    unfold ancestor_at. rewrite Hp. cbn [mbind option_bind].
    destruct (walk_back_total m (Z.to_nat (nHeight prev - sh)) p prev Hok Hp ltac:(lia)) as (q & bq & -> & _). done.
  - rewrite Z.gtb_ltb, (proj2 (Z.leb_gt _ 0)), (proj2 (Z.ltb_ge _ _)) by (subst height; lia). cbn [orb].
    replace (i - Z.to_nat (height - sh))%nat with (Z.to_nat (sh - nHeight prev - 1)) by (subst height; lia).
    destruct (lookup_lt_is_Some_2 headers (Z.to_nat (sh - nHeight prev - 1))) as [x Hx]; [subst height; lia|].
    by rewrite Hx.
Qed.

Definition batch_ok (i : nat) (h : CBlockHeader) : bool :=
  CheckProofOfWork fuzz (GetPoWHash h (epoch_seed (nHeight prev + 1 + Z.of_nat i))) (nBits h) params.

Lemma HasValidProofOfWork_loop_spec (before rest : list CBlockHeader) (q : uint256) :
  headers = before ++ rest -> connected q rest ->
  HasValidProofOfWork_loop GetHash GetPoWHash fuzz params m headers rest (length before) (Some p) q
    (nHeight prev + 1 + Z.of_nat (length before))
  = Some (forallb (fun x => batch_ok x.1 x.2) (imap (fun j h => (length before + j, h)%nat) rest)).
Proof.
  revert before q; induction rest as [|h rest IH]; intros dn q Hh Hc; [done|].
  destruct Hc as [<- Hc]. cbn [HasValidProofOfWork_loop]. rewrite Z.eqb_refl. cbn [negb andb mbind option_bind].
  rewrite batch_seed_spec by (rewrite Hh, length_app; cbn; lia). cbn [mbind option_bind imap forallb fst snd].
  rewrite Nat.add_0_r. fold (batch_ok (length dn) h). destruct (batch_ok (length dn) h); cbn [negb andb]; [|done].
  specialize (IH (dn ++ [h]) (GetHash h)). rewrite length_app in IH. cbn [length] in IH.
  replace (length dn + 1)%nat with (S (length dn)) in IH by lia.
  replace (nHeight prev + 1 + Z.of_nat (S (length dn))) with (nHeight prev + 1 + Z.of_nat (length dn) + 1) in IH by lia.
  rewrite IH; [|by rewrite <- app_assoc|done]. do 2 f_equal.
  apply imap_ext. intros i x _. cbn. f_equal. lia.
Qed.

Lemma HasValidProofOfWork_spec :
  connected p headers ->
  HasValidProofOfWork GetHash GetPoWHash fuzz params m headers
  = Some (forallb (fun x => batch_ok x.1 x.2) (imap pair headers)).
Proof.
  intros Hc. unfold HasValidProofOfWork. destruct headers as [|h l] eqn:Eh; [done|].
  pose proof Hc as [Hq _]. rewrite Hq. unfold LookupBlockIndex. rewrite Hp. rewrite bool_decide_eq_true_2 by eauto.
  cbn [negb andb height_after]. rewrite Hp. cbn [mbind option_bind]. rewrite <- Eh in *.
  pose proof (HasValidProofOfWork_loop_spec [] headers p eq_refl Hc) as H. cbn [length] in H.
  rewrite Z.add_0_r in H. exact H.
Qed.

End Batch.

(** ** A concrete instance *)

(** The main network's rules with genesis hash 1. *)
Definition sample_params : Params := {|
  hashGenesisBlock := 1; nSubsidyHalvingInterval := 210000; script_flag_exceptions := ∅; BIP34Height := 1; BIP34Hash := 0; BIP65Height := 1;
  BIP66Height := 1; CSVHeight := 1; SegwitHeight := 1; powLimit := powLimit CMainParams;
  fPowAllowMinDifficultyBlocks := false; enforce_BIP94 := false; fPowNoRetargeting := false;
  nPowTargetSpacing := 600; nPowTargetTimespan := 1209600; signet_blocks := false |}.

Definition sample_pow (h : CBlockHeader) (seed : uint256) : uint256 := seed + nNonce h.

(** A block index that holds the genesis block only. *)
Definition sample_index : BlockManager := {|
  m_block_index := even_chain 0 600 0x1f0fffff; m_best_header := Some 1; m_dirty_blockindex := ∅ |}.

Lemma sample_params_ok : params_ok sample_params.
Proof. apply (bool_decide_unpack _). vm_compute. exact I. Qed.

Lemma sample_index_inv : index_inv nNonce sample_pow false sample_params sample_index.
Proof.
  destruct (even_chain_ok 0 600 0x1f0fffff) as [H1 H2]; [unfold is_u32; lia|].
  pose proof (even_chain_block 0 600 0x1f0fffff 0 ltac:(lia)) as Hg.
  constructor; [done|done|exists 1; eauto|eauto|].
  intros h b q Hb Hq. cbn [m_block_index sample_index] in Hb. rewrite even_chain_lookup in Hb.
  destruct (Z.leb_spec 1 h); [|done]. destruct (Z.leb_spec h (0 + 1)); [|done].
  injection Hb as <-. cbn in Hq. rewrite (proj2 (Z.eqb_eq (h - 1) 0)) in Hq by lia. done.
Qed.

(** ** Properties *)

(** C5: [AcceptBlockHeader] never faults. It keeps the block index a well-formed
    tree in which every entry has the hash of its header, the bits the
    difficulty rule demands, a proof of work under its epoch's seed and a
    timestamp above the median of its predecessors; the index changes only by
    inserting a header that satisfies the contextual rules and whose
    parent is known and not marked failed; and [true] means the header is in the index. *)
Theorem AcceptBlockHeader_keeps_index_valid (GetHash : CBlockHeader -> uint256)
    (GetPoWHash : CBlockHeader -> uint256 -> uint256) (fuzz : bool) (params : Params)
    (st : BlockManager) (now : Z) (block : CBlockHeader) (state : BlockValidationState)
    (min_pow_checked : bool) :
  params_ok params -> (enforce_BIP94 params = true -> DifficultyAdjustmentInterval params <> 0) ->
  index_inv GetHash GetPoWHash fuzz params st -> is_u32 (nBits block) ->
  exists r, AcceptBlockHeader GetHash GetPoWHash fuzz params st now block state min_pow_checked = Some r /\
    index_inv GetHash GetPoWHash fuzz params (ar_manager r) /\
    (ar_ok r = true -> ar_index r = Some (GetHash block) /\ ar_state r = state /\
       is_Some (m_block_index (ar_manager r) !! GetHash block)) /\
    (ar_manager r = st \/
     exists prev b, m_block_index st !! GetHash block = None /\ min_pow_checked = true /\ ar_ok r = true /\
       m_block_index st !! hashPrevBlock block = Some prev /\
       Z.land (nStatus prev) BLOCK_FAILED_MASK = 0 /\
       contextual_ok GetPoWHash fuzz params (m_block_index st) now block (hashPrevBlock block) prev true /\
       m_block_index (ar_manager r) = <[GetHash block := b]> (m_block_index st) /\
       nHeight b = nHeight prev + 1).
Proof. intros. by apply AcceptBlockHeader_spec. Qed.

Lemma AcceptBlockHeader_keeps_index_valid_witness :
  exists r, AcceptBlockHeader nNonce sample_pow false sample_params sample_index (2000 * 10 ^ 9)
      (sample_header 1 7 1600 0x1f0fffff) block_state true = Some r /\
    index_inv nNonce sample_pow false sample_params (ar_manager r) /\ ar_ok r = true.
Proof.
  destruct (AcceptBlockHeader_keeps_index_valid nNonce sample_pow false sample_params sample_index
    (2000 * 10 ^ 9) (sample_header 1 7 1600 0x1f0fffff) block_state true) as (r & Hr & Hi & _).
  - exact sample_params_ok.
  - discriminate.
  - exact sample_index_inv.
  - unfold is_u32. cbn. lia.
  - exists r. split; [exact Hr|]. split; [exact Hi|]. vm_compute in Hr. injection Hr as <-. reflexivity.
Defined.

(** C24: no block index that sequences of header messages can build from a valid
    one has a block at height 2048 or above: the seed block that
    [ContextualCheckBlockHeader] asks for at the first height of an epoch is
    the new block itself, so the chain stops at height 2047. *)
Theorem reachable_heights_below_epoch (GetHash : CBlockHeader -> uint256)
    (GetPoWHash : CBlockHeader -> uint256 -> uint256) (fuzz : bool) (params : Params)
    (st0 st : BlockManager) (h : uint256) (b : CBlockIndex) :
  params_ok params -> (enforce_BIP94 params = true -> DifficultyAdjustmentInterval params <> 0) ->
  index_inv GetHash GetPoWHash fuzz params st0 ->
  accept_reachable GetHash GetPoWHash fuzz params st0 st ->
  m_block_index st !! h = Some b -> nHeight b < 2048.
Proof.
  intros Hpar Hint H0 Hr Hb.
  destruct (accept_reachable_inv GetHash GetPoWHash fuzz params Hpar Hint st0 st H0 Hr) as [Hi _].
  by apply (index_inv_height GetHash GetPoWHash fuzz params st h b).
Qed.

Lemma reachable_heights_below_epoch_witness :
  exists b, m_block_index sample_index !! 1 = Some b /\ nHeight b < 2048.
Proof.
  exists (even_block 600 0x1f0fffff 0). split; [apply (even_chain_block 0 600 0x1f0fffff 0); lia|].
  apply (reachable_heights_below_epoch nNonce sample_pow false sample_params sample_index sample_index 1).
  - exact sample_params_ok.
  - discriminate.
  - exact sample_index_inv.
  - apply reach_start.
  - apply (even_chain_block 0 600 0x1f0fffff 0). lia.
Defined.



(** For a batch of headers connected to a known block, [HasValidProofOfWork]
    returns, and it returns whether every header's RandomX hash meets its own
    bits under the seed found at the last multiple of 2048 strictly below the
    header's height, in the index or earlier in the batch. *)
Theorem HasValidProofOfWork_checks_batch (GetHash : CBlockHeader -> uint256)
    (GetPoWHash : CBlockHeader -> uint256 -> uint256) (fuzz : bool) (params : Params)
    (m : BlockMap) (p : uint256) (prev : CBlockIndex) (headers : list CBlockHeader) :
  tree_ok m -> m !! p = Some prev -> connected GetHash p headers ->
  HasValidProofOfWork GetHash GetPoWHash fuzz params m headers
  = Some (forallb (fun x => CheckProofOfWork fuzz
        (GetPoWHash x.2 (epoch_seed GetHash m p prev headers (nHeight prev + 1 + Z.of_nat x.1)))
        (nBits x.2) params) (imap pair headers)).
Proof. intros. by apply HasValidProofOfWork_spec. Qed.

Lemma HasValidProofOfWork_checks_batch_witness :
  HasValidProofOfWork nNonce sample_pow false sample_params (even_chain 2047 600 0x1c0fffff)
    [sample_header 2048 5000 1 0x1f0fffff; sample_header 5000 5001 1 0x1f0fffff] = Some true.
Proof.
  rewrite (HasValidProofOfWork_checks_batch nNonce sample_pow false sample_params (even_chain 2047 600 0x1c0fffff)
    2048 (even_block 600 0x1c0fffff 2047)).
  - vm_compute. reflexivity.
  - apply even_chain_ok. unfold is_u32. lia.
  - apply (even_chain_block 2047 600 0x1c0fffff 2047). lia.
  - split; [reflexivity|]. split; [reflexivity|]. exact I.
Defined.

(** The two seed rules of the code agree on a header exactly when its height
    is not a multiple of 2048; at a multiple of 2048 [HasValidProofOfWork] finds the
    previous epoch's seed and [ContextualCheckBlockHeader] finds none. *)
Theorem seed_rules_agree_off_boundary (GetHash : CBlockHeader -> uint256) (m : BlockMap) (p : uint256)
    (prev : CBlockIndex) (header : CBlockHeader) :
  tree_ok m -> m !! p = Some prev ->
  batch_seed GetHash m [header] 0 (Some p) (nHeight prev + 1) = contextual_seed m p (nHeight prev + 1)
  <-> (nHeight prev + 1) mod 2048 <> 0.
Proof.
  intros Hok Hp. destruct (tree_ok_lookup m p prev Hok Hp) as [H0 _].
  pose proof (batch_seed_spec GetHash m p prev Hok Hp [header] 0 ltac:(cbn; lia)) as Hb.
  rewrite Z.add_0_r in Hb. rewrite Hb. split.
  - intros E Hm. rewrite (contextual_seed_boundary m p prev Hok Hp Hm) in E. discriminate.
  - intros Hm. rewrite (contextual_seed_spec m p prev Hok Hp). do 2 f_equal. unfold epoch_seed, branch_hash.
    assert (E : (nHeight prev + 1 - 1) / rx_epoch = (nHeight prev + 1) / rx_epoch).
    { unfold rx_epoch. pose proof (Z.div_mod (nHeight prev + 1) 2048 ltac:(lia)).
      pose proof (Z.mod_pos_bound (nHeight prev + 1) 2048 ltac:(lia)).
      symmetry. apply (Z.div_unique_pos _ _ _ ((nHeight prev + 1) mod 2048 - 1)); lia. }
    rewrite E. pose proof (epoch_start_bound (nHeight prev + 1) ltac:(lia)) as Hs. rewrite E in Hs.
    set (sh := _ / rx_epoch * rx_epoch) in *. destruct (sh =? 0); [done|].
    rewrite (proj2 (Z.leb_le sh (nHeight prev))) by lia. unfold ancestor_at. rewrite Hp. cbn [mbind option_bind].
    destruct (walk_back_total m (Z.to_nat (nHeight prev - sh)) p prev Hok Hp ltac:(lia)) as (q & bq & -> & _). done.
Qed.

Lemma seed_rules_agree_off_boundary_witness :
  batch_seed nNonce (even_chain 3000 600 0x1c0fffff) [sample_header 3001 3002 1 1] 0 (Some 3001) 3001
  = contextual_seed (even_chain 3000 600 0x1c0fffff) 3001 3001.
Proof.
  apply (seed_rules_agree_off_boundary nNonce (even_chain 3000 600 0x1c0fffff) 3001 (even_block 600 0x1c0fffff 3000)).
  - apply even_chain_ok. unfold is_u32. lia.
  - apply (even_chain_block 3000 600 0x1c0fffff 3000). lia.
  - vm_compute. discriminate.
Defined.
