(* ===== verification/RandomXHash.v ===== *)
(** * The RandomX hash of a header: [CBlockHeader::GetPoWHash] in src/src/primitives/block.cpp

    The process-wide cache (one per seed), its version counter and the
    thread-local virtual machine, as a state machine: each phase of
    [GetPoWHash] between two lock operations is one atomic step, so that
    calls of several threads interleave at the points where the source allows it.

    The RandomX library is not part of the repository. What its documentation
    says is used here: a machine hashes with the key of the cache
    (or of the dataset) it was created on, [rx_hash key input] in both modes;
    releasing a cache or a dataset ends its lifetime, and
    hashing on a machine whose memory was released is a fault; allocations and
    [randomx_create_vm] return a null pointer on failure. *)

From S2P Require Import Prelude ArithUint256 Chain Params Pow.

(** ** State *)

(** [randomx_vm]: the memory it was created on; null pointers are [None]. *)
Record randomx_vm := mkVm { vm_cache : nat; vm_dataset : option nat }.

(** The static variables of the file, and the library's live objects. *)
Record rx_globals := mkGlobals {
  rx_cache : option nat;
  rx_dataset : option nat;
  rx_current_seed : uint256;
  rx_cache_version : Z;
  live_caches : gmap nat Z;
  live_datasets : gmap nat Z;
  next_object : nat
}.

(** Where a call of [GetPoWHash] stands; [Idle] before the first call of the thread. *)
Inductive rx_phase :=
  | Idle
  | Entry
  | UpdateCache
  | ReadCache
  | BuildVm (cache dataset : option nat) (version : Z)
  | Hash
  | Done (result : uint256).

(** The thread-local variables and the current call. *)
Record rx_thread := mkThread {
  rx_vm : option randomx_vm;
  rx_vm_seed : uint256;
  rx_vm_cache_version : Z;
  call_seed : uint256;
  call_header : CBlockHeader;
  phase : rx_phase
}.

(** What the library and the configuration answer during a step. *)
Record rx_env := mkEnv {
  alloc_cache_ok : bool;
  alloc_dataset_ok : bool;
  create_vm_ok : bool;
  miningfastmode : bool
}.

Definition set_phase (t : rx_thread) (p : rx_phase) : rx_thread := {|
  rx_vm := rx_vm t; rx_vm_seed := rx_vm_seed t; rx_vm_cache_version := rx_vm_cache_version t;
  call_seed := call_seed t; call_header := call_header t; phase := p |}.

(** A new call [header.GetPoWHash(seed)] in the thread. *)
Definition begin_call (t : rx_thread) (seed : uint256) (header : CBlockHeader) : rx_thread := {|
  rx_vm := rx_vm t; rx_vm_seed := rx_vm_seed t; rx_vm_cache_version := rx_vm_cache_version t;
  call_seed := seed; call_header := header; phase := Entry |}.

Definition bool_of_null {A : Type} (p : option A) : bool := match p with None => true | Some _ => false end.

(** ** Steps *)

Section RandomX.

Context (rx_hash : uint256 -> CBlockHeader -> uint256).

(** "1. Fast Path check" *)
Definition step_entry (g : rx_globals) (t : rx_thread) : rx_thread :=
  if bool_of_null (rx_vm t) || negb (rx_vm_seed t =? call_seed t) ||
     negb (rx_vm_cache_version t =? rx_cache_version g)
  then set_phase t UpdateCache else set_phase t Hash.

(** The block under the exclusive lock. Initialising a null cache or dataset is a fault. *)
Definition step_update_cache (env : rx_env) (g : rx_globals) (t : rx_thread) : option (rx_globals * rx_thread) :=
  let seed := call_seed t in
  if bool_of_null (rx_cache g) || negb (seed =? rx_current_seed g) then
    let caches := match rx_cache g with Some c => delete c (live_caches g) | None => live_caches g end in
    let datasets := match rx_dataset g with Some d => delete d (live_datasets g) | None => live_datasets g end in
    if negb (alloc_cache_ok env) then None
    else
    let c := next_object g in
    let caches := <[c := seed]> caches in
    if miningfastmode env then
      if negb (alloc_dataset_ok env) then None
      else
        let d := S c in
        Some ({| rx_cache := Some c; rx_dataset := Some d; rx_current_seed := seed;
                 rx_cache_version := rx_cache_version g + 1; live_caches := caches;
                 live_datasets := <[d := seed]> datasets; next_object := S (S c) |}, set_phase t ReadCache)
    else
      Some ({| rx_cache := Some c; rx_dataset := None; rx_current_seed := seed;
               rx_cache_version := rx_cache_version g + 1; live_caches := caches;
               live_datasets := datasets; next_object := S c |}, set_phase t ReadCache)
  else Some (g, set_phase t ReadCache).

(** The block under the shared lock. *)
Definition step_read_cache (g : rx_globals) (t : rx_thread) : rx_thread :=
  set_phase t (BuildVm (rx_cache g) (rx_dataset g) (rx_cache_version g)).

(** The thread-local update that follows, without a lock. Without a cache the old
    machine is destroyed and not replaced, and the hash would use it: a fault. *)
Definition step_build_vm (env : rx_env) (t : rx_thread) (cache dataset : option nat) (version : Z)
  : option rx_thread :=
  if bool_of_null (rx_vm t) || negb (rx_vm_seed t =? call_seed t) ||
     negb (rx_vm_cache_version t =? version) then
    match cache with
    | Some c =>
        Some {| rx_vm := if create_vm_ok env then Some (mkVm c dataset) else None;
                rx_vm_seed := call_seed t; rx_vm_cache_version := version;
                call_seed := call_seed t; call_header := call_header t; phase := Hash |}
    | None => if bool_of_null (rx_vm t) then Some (set_phase t Hash) else None
    end
  else Some (set_phase t Hash).

(** "2. HASH Path"; the memory of the machine has to be live. *)
Definition step_hash (g : rx_globals) (t : rx_thread) : option rx_thread :=
  match rx_vm t with
  | Some vm =>
      key ← (match vm_dataset vm with
             | Some d => live_datasets g !! d
             | None => live_caches g !! vm_cache vm
             end);
      Some (set_phase t (Done (rx_hash key (call_header t))))
  | None => Some (set_phase t (Done 0))
  end.

Definition rx_step (env : rx_env) (g : rx_globals) (t : rx_thread) : option (rx_globals * rx_thread) :=
  match phase t with
  | Entry => Some (g, step_entry g t)
  | UpdateCache => step_update_cache env g t
  | ReadCache => Some (g, step_read_cache g t)
  | BuildVm cache dataset version => t ← step_build_vm env t cache dataset version; Some (g, t)
  | Hash => t ← step_hash g t; Some (g, t)
  | Idle | Done _ => Some (g, t)
  end.

(** A call that no other thread interrupts: at most five steps. *)
Fixpoint run_call (fuel : nat) (env : rx_env) (g : rx_globals) (t : rx_thread) : option (rx_globals * rx_thread) :=
  match fuel with
  | O => Some (g, t)
  | S fuel' => '(g, t) ← rx_step env g t; run_call fuel' env g t
  end.

Definition GetPoWHash (env : rx_env) (g : rx_globals) (t : rx_thread) (header : CBlockHeader) (seed : uint256)
  : option (rx_globals * rx_thread * uint256) :=
  '(g, t) ← run_call 5 env g (begin_call t seed header);
  match phase t with Done r => Some (g, t, r) | _ => None end.

(** ** Several threads *)

Record rx_system := mkSystem { sys_globals : rx_globals; sys_threads : list rx_thread }.

Definition between_calls (t : rx_thread) : bool :=
  match phase t with Idle | Done _ => true | _ => false end.

(** A step of the program: some thread advances its call, or starts a new one. *)
Inductive rx_system_step (seeds : uint256 -> Prop) : rx_system -> rx_system -> Prop :=
  | thread_advances env g g' ts i t t' :
      alloc_cache_ok env = true -> alloc_dataset_ok env = true -> create_vm_ok env = true ->
      ts !! i = Some t -> rx_step env g t = Some (g', t') ->
      rx_system_step seeds (mkSystem g ts) (mkSystem g' (<[i := t']> ts))
  | thread_calls g ts i t seed header :
      ts !! i = Some t -> between_calls t = true -> seeds seed ->
      rx_system_step seeds (mkSystem g ts) (mkSystem g (<[i := begin_call t seed header]> ts)).

Inductive rx_reachable (seeds : uint256 -> Prop) (s0 : rx_system) : rx_system -> Prop :=
  | rx_reach_start : rx_reachable seeds s0 s0
  | rx_reach_step s s' : rx_reachable seeds s0 s -> rx_system_step seeds s s' -> rx_reachable seeds s0 s'.

End RandomX.

(** ** Invariants *)

(** The current cache and dataset are live and keyed by the current seed; fresh identities are unused. *)
Definition globals_ok (g : rx_globals) : Prop :=
  (forall c, rx_cache g = Some c -> live_caches g !! c = Some (rx_current_seed g) /\ (c < next_object g)%nat) /\
  (forall d, rx_dataset g = Some d -> live_datasets g !! d = Some (rx_current_seed g) /\ (d < next_object g)%nat) /\
  (rx_cache g = None -> rx_dataset g = None).

(** A machine whose version is the current one was built on the current cache for the current seed. *)
Definition vm_current (g : rx_globals) (t : rx_thread) : Prop :=
  rx_vm_cache_version t <= rx_cache_version g /\
  forall vm, rx_vm t = Some vm -> rx_vm_cache_version t = rx_cache_version g ->
    rx_vm_seed t = rx_current_seed g /\ rx_cache g = Some (vm_cache vm) /\ vm_dataset vm = rx_dataset g.

Definition env_ok (env : rx_env) : Prop :=
  alloc_cache_ok env = true /\ alloc_dataset_ok env = true /\ create_vm_ok env = true.

(** Lemmas on the steps. *)

Lemma step_update_cache_ok (env : rx_env) (g : rx_globals) (t : rx_thread) :
  env_ok env -> globals_ok g ->
  exists g', step_update_cache env g t = Some (g', set_phase t ReadCache) /\ globals_ok g' /\
    rx_current_seed g' = call_seed t /\ rx_cache g' <> None /\
    (g' = g \/ rx_cache_version g' = rx_cache_version g + 1).
Proof.
  intros (He1 & He2 & He3) Hg. unfold step_update_cache. rewrite He1, He2. cbn [negb].
  destruct (rx_cache g) as [c|] eqn:Ec; cbn [bool_of_null orb];
    [destruct (Z.eqb_spec (call_seed t) (rx_current_seed g)) as [Es|Es]; cbn [negb]|].
  - exists g. rewrite Ec. split; [done|]. split; [done|]. split; [done|]. split; [done|]. by left.
  - destruct (miningfastmode env); eexists; (split; [reflexivity|]); cbn; (split; [|by auto]);
      unfold globals_ok; cbn; repeat split; try done; intros; simplify_eq; try lia; by rewrite lookup_insert_eq.
  - destruct (miningfastmode env); eexists; (split; [reflexivity|]); cbn; (split; [|by auto]);
      unfold globals_ok; cbn; repeat split; try done; intros; simplify_eq; try lia; by rewrite lookup_insert_eq.
Qed.

(** A version bump makes every machine stale. *)
Lemma vm_current_update (g g' : rx_globals) (t : rx_thread) :
  vm_current g t -> g' = g \/ rx_cache_version g' = rx_cache_version g + 1 -> vm_current g' t.
Proof.
  intros Hv [->|E]; [done|]. destruct Hv as [Hle _]. split; [lia|]. intros vm _ Heq. lia.
Qed.

Lemma vm_current_set_phase (g : rx_globals) (t : rx_thread) (p : rx_phase) :
  vm_current g t -> vm_current g (set_phase t p).
Proof. done. Qed.

(** The machine is built for the current cache. *)
Definition vm_ready (g : rx_globals) (t : rx_thread) : Prop :=
  rx_vm t <> None /\ rx_vm_cache_version t = rx_cache_version g.

Lemma step_build_vm_ok (env : rx_env) (g : rx_globals) (t : rx_thread) :
  env_ok env -> rx_cache g <> None -> rx_current_seed g = call_seed t -> vm_current g t ->
  exists t', step_build_vm env t (rx_cache g) (rx_dataset g) (rx_cache_version g) = Some t' /\
    vm_current g t' /\ vm_ready g t' /\ call_seed t' = call_seed t /\ call_header t' = call_header t /\ phase t' = Hash.
Proof.
  intros (_ & _ & Hc) Hcache Hseed Hv. unfold step_build_vm. rewrite Hc.
  destruct (rx_cache g) as [c|] eqn:Ec; [|done].
  destruct (rx_vm t) as [vm|] eqn:Evm; cbn [bool_of_null orb].
  - destruct (negb (rx_vm_seed t =? call_seed t) || negb (rx_vm_cache_version t =? rx_cache_version g)) eqn:E.
    + eexists. split; [reflexivity|]. split; [split; [cbn; lia|cbn; intros ? [= <-] _; cbn; auto]|].
      by repeat split.
    + apply orb_false_iff in E as [E1 E2]. rewrite negb_false_iff in E1, E2. apply Z.eqb_eq in E1, E2.
      eexists. split; [reflexivity|]. unfold vm_ready. cbn. rewrite Evm. done.
  - eexists. split; [reflexivity|]. split; [split; [cbn; lia|cbn; intros ? [= <-] _; cbn; auto]|].
      by repeat split.
Qed.

Lemma step_hash_ok (rx_hash : uint256 -> CBlockHeader -> uint256) (g : rx_globals) (t : rx_thread) :
  globals_ok g -> vm_current g t -> vm_ready g t ->
  step_hash rx_hash g t = Some (set_phase t (Done (rx_hash (rx_current_seed g) (call_header t)))).
Proof.
  intros (Hc & Hd & _) [_ Hv] [Hvm Hver]. unfold step_hash. destruct (rx_vm t) as [vm|]; [|done].
  destruct (Hv vm eq_refl Hver) as (_ & Hcache & Hds). destruct (vm_dataset vm) as [d|] eqn:Ed.
  - rewrite (proj1 (Hd d (eq_sym Hds))). done.
  - rewrite (proj1 (Hc _ Hcache)). done.
Qed.

Lemma step_entry_cases (g : rx_globals) (t : rx_thread) : vm_current g t ->
  step_entry g t = set_phase t UpdateCache \/
  (step_entry g t = set_phase t Hash /\ vm_ready g t /\ rx_current_seed g = call_seed t /\ rx_cache g <> None).
Proof.
  intros [_ Hv]. unfold step_entry, vm_ready. destruct (rx_vm t) as [vm|]; cbn [bool_of_null orb]; [|by left].
  destruct (Z.eqb_spec (rx_vm_seed t) (call_seed t)) as [Es|]; cbn [negb orb]; [|by left].
  destruct (Z.eqb_spec (rx_vm_cache_version t) (rx_cache_version g)) as [Ev|]; cbn [negb]; [right|by left].
  destruct (Hv vm eq_refl Ev) as (H1 & H2 & _). repeat split; congruence.
Qed.

Lemma run_call_step (rx_hash : uint256 -> CBlockHeader -> uint256) (n : nat) (env : rx_env)
    (g g1 : rx_globals) (t t1 : rx_thread) :
  rx_step rx_hash env g t = Some (g1, t1) ->
  run_call rx_hash (S n) env g t = run_call rx_hash n env g1 t1.
Proof. intros E. cbn [run_call]. by rewrite E. Qed.

(** An uninterrupted call. *)
Lemma GetPoWHash_spec (rx_hash : uint256 -> CBlockHeader -> uint256) (env : rx_env) (g : rx_globals)
    (t : rx_thread) (header : CBlockHeader) (seed : uint256) :
  env_ok env -> globals_ok g -> vm_current g t ->
  exists g' t', GetPoWHash rx_hash env g t header seed = Some (g', t', rx_hash seed header) /\
    globals_ok g' /\ vm_current g' t' /\ (forall t2, vm_current g t2 -> vm_current g' t2).
Proof.
  intros He Hg Hv. unfold GetPoWHash. set (t0 := begin_call t seed header).
  assert (Hv0 : vm_current g t0) by exact Hv.
  rewrite (run_call_step _ _ _ g g t0 (step_entry g t0)) by done.
  destruct (step_entry_cases g t0 Hv0) as [->|(-> & Hr & Es & _)].
  - destruct (step_update_cache_ok env g (set_phase t0 UpdateCache) He Hg) as (g' & Eu & Hg' & Hs & Hc & Hver).
    rewrite (run_call_step rx_hash _ env g g' (set_phase t0 UpdateCache) _ Eu).
    assert (Hv' : vm_current g' t0) by by apply (vm_current_update g).
    set (tb := set_phase t0 (BuildVm (rx_cache g') (rx_dataset g') (rx_cache_version g'))).
    rewrite (run_call_step rx_hash _ env g' g' _ tb) by reflexivity.
    destruct (step_build_vm_ok env g' tb He Hc) as (t' & Eb & Hv1 & Hr & Es & Eh & Ep); [done|done|].
    assert (Eb' : rx_step rx_hash env g' tb = Some (g', t')).
    { change (rx_step rx_hash env g' tb) with
        (t1 ← step_build_vm env tb (rx_cache g') (rx_dataset g') (rx_cache_version g'); Some (g', t1)).
      by rewrite Eb. }
    rewrite (run_call_step rx_hash _ env g' g' _ t' Eb').
    erewrite run_call_step by (unfold rx_step; rewrite Ep, step_hash_ok by done; reflexivity).
    eexists g', _. split; [cbn; rewrite Eh, Hs; reflexivity|]. split; [done|]. split; [done|].
    intros t2 H2. by apply (vm_current_update g).
  - erewrite run_call_step by (unfold rx_step; cbn [set_phase phase]; rewrite step_hash_ok by done; reflexivity).
    eexists g, _. split; [cbn; rewrite Es; reflexivity|]. done.
Qed.

(** ** All calls on one seed *)

Section OneSeed.

Context (rx_hash : uint256 -> CBlockHeader -> uint256) (seed : uint256).








End OneSeed.

(** ** Explicit schedules *)

Inductive rx_action := Call (i : nat) (seed : uint256) (header : CBlockHeader) | Advance (i : nat).

(** Everything succeeds, light mode. *)
Definition good_env : rx_env := mkEnv true true true false.

Definition run_action (rx_hash : uint256 -> CBlockHeader -> uint256) (a : rx_action) (s : rx_system)
  : option rx_system :=
  match a with
  | Call i seed header =>
      t ← sys_threads s !! i;
      if between_calls t
      then Some (mkSystem (sys_globals s) (<[i := begin_call t seed header]> (sys_threads s))) else None
  | Advance i =>
      t ← sys_threads s !! i;
      '(g, t') ← rx_step rx_hash good_env (sys_globals s) t;
      Some (mkSystem g (<[i := t']> (sys_threads s)))
  end.

Fixpoint run_schedule (rx_hash : uint256 -> CBlockHeader -> uint256) (l : list rx_action) (s : rx_system)
  : option rx_system :=
  match l with
  | [] => Some s
  | a :: l' => s ← run_action rx_hash a s; run_schedule rx_hash l' s
  end.

Definition call_seeds (l : list rx_action) : list uint256 :=
  omap (fun a => match a with Call _ seed _ => Some seed | Advance _ => None end) l.

Lemma run_action_step (rx_hash : uint256 -> CBlockHeader -> uint256) (seeds : uint256 -> Prop)
    (a : rx_action) (s s' : rx_system) :
  Forall seeds (call_seeds [a]) -> run_action rx_hash a s = Some s' -> rx_system_step rx_hash seeds s s'.
Proof.
  intros Hs. destruct s as [g ts], a as [i seed header|i]; cbn.
  - intros E. apply bind_inv in E as (t & Ht & E). destruct (between_calls t) eqn:Eb; [|done]. injection E as <-.
    apply (thread_calls rx_hash seeds g ts i t seed header Ht Eb). by inversion Hs.
  - intros E. apply bind_inv in E as (t & Ht & E). apply bind_inv in E as ([g' t'] & Hst & E). injection E as <-.
    by apply (thread_advances rx_hash seeds good_env g g' ts i t t').
Qed.

Lemma run_schedule_reachable (rx_hash : uint256 -> CBlockHeader -> uint256) (seeds : uint256 -> Prop)
    (l : list rx_action) (s0 s s' : rx_system) :
  Forall seeds (call_seeds l) -> rx_reachable rx_hash seeds s0 s ->
  run_schedule rx_hash l s = Some s' -> rx_reachable rx_hash seeds s0 s'.
Proof.
  revert s; induction l as [|a l IH]; intros s Hs Hr E; [by injection E as <-|].
  cbn [run_schedule] in E. apply bind_inv in E as (s1 & E1 & E2).
  assert (Hl : Forall seeds (call_seeds [a]) /\ Forall seeds (call_seeds l)).
  { change (call_seeds (a :: l)) with (omap (fun a => match a with Call _ sd _ => Some sd | Advance _ => None end) ([a] ++ l)) in Hs.
    rewrite omap_app in Hs. by apply Forall_app in Hs. }
  apply (IH s1); [tauto| |done]. eapply rx_reach_step; [exact Hr|]. eapply run_action_step; [|done]. tauto.
Qed.

Definition idle_thread : rx_thread := {|
  rx_vm := None; rx_vm_seed := 0; rx_vm_cache_version := 0; call_seed := 0;
  call_header := sample_header 0 0 0 0; phase := Idle |}.

(** Program start with two threads. *)
Definition initial_system : rx_system := {|
  sys_globals := {| rx_cache := None; rx_dataset := None; rx_current_seed := 0; rx_cache_version := 0;
                    live_caches := ∅; live_datasets := ∅; next_object := 0 |};
  sys_threads := [idle_thread; idle_thread] |}.

Lemma initial_globals_ok : globals_ok (sys_globals initial_system).
Proof. by repeat split. Qed.


(** Thread 0 hashes for seed 1 while thread 1 replaces the cache by that of seed 2. *)
Definition mixing_schedule (h0 h1 h2 : CBlockHeader) : list rx_action :=
  [Call 0 1 h0; Advance 0; Advance 0;
   Call 1 2 h1; Advance 1; Advance 1;
   Advance 0; Advance 0; Advance 0;
   Call 0 1 h2; Advance 0; Advance 0].

(** Thread 0 is about to hash when thread 1 releases the cache under its machine. *)
Definition release_schedule (h0 h1 : CBlockHeader) : list rx_action :=
  [Call 0 1 h0; Advance 0; Advance 0; Advance 0; Advance 0; Call 1 2 h1; Advance 1; Advance 1].

(** ** Properties *)

(** An uninterrupted [GetPoWHash] terminates without fault and returns the RandomX
    hash of the header under the seed it was given, whatever seeds were used before,
    in this thread or another; it keeps every thread's machine either current or
    recognisably stale. *)
Theorem GetPoWHash_sequential (rx_hash : uint256 -> CBlockHeader -> uint256) (env : rx_env) (g : rx_globals)
    (t : rx_thread) (header : CBlockHeader) (seed : uint256) :
  env_ok env -> globals_ok g -> vm_current g t ->
  exists g' t', GetPoWHash rx_hash env g t header seed = Some (g', t', rx_hash seed header) /\
    globals_ok g' /\ vm_current g' t' /\ (forall t2, vm_current g t2 -> vm_current g' t2).
Proof. apply GetPoWHash_spec. Qed.

Lemma GetPoWHash_sequential_witness :
  exists g' t', GetPoWHash (fun key h => key + nNonce h) good_env (sys_globals initial_system) idle_thread
    (sample_header 0 5 0 0) 7 = Some (g', t', 12).
Proof.
  destruct (GetPoWHash_sequential (fun key h => key + nNonce h) good_env (sys_globals initial_system) idle_thread
    (sample_header 0 5 0 0) 7) as (g' & t' & E & _).
  - repeat split.
  - exact initial_globals_ok.
  - split; [cbn; lia|]. discriminate.
  - exists g', t'. exact E.
Defined.



(** C27: with two seeds in flight the lock is released between updating the cache and
    reading it, and a thread can build its machine on the other seed's cache: there is
    an execution from program start in which two calls for seed 1 return
    the hashes under seed 2, the second one through the fast path. *)
Theorem two_seeds_can_mix (rx_hash : uint256 -> CBlockHeader -> uint256) (h0 h1 h2 : CBlockHeader) :
  exists s1 s2 t1 t2,
    rx_reachable rx_hash (fun x => x = 1 \/ x = 2) initial_system s1 /\
    sys_threads s1 !! 0%nat = Some t1 /\ call_seed t1 = 1 /\ call_header t1 = h0 /\ phase t1 = Done (rx_hash 2 h0) /\
    rx_reachable rx_hash (fun x => x = 1 \/ x = 2) s1 s2 /\
    sys_threads s2 !! 0%nat = Some t2 /\ call_seed t2 = 1 /\ call_header t2 = h2 /\ phase t2 = Done (rx_hash 2 h2).
Proof.
  destruct (run_schedule rx_hash (take 9 (mixing_schedule h0 h1 h2)) initial_system) as [s1|] eqn:E1;
    [|vm_compute in E1; discriminate].
  destruct (run_schedule rx_hash (drop 9 (mixing_schedule h0 h1 h2)) s1) as [s2|] eqn:E2;
    [|vm_compute in E1; injection E1 as <-; vm_compute in E2; discriminate].
  assert (R1 : rx_reachable rx_hash (fun x => x = 1 \/ x = 2) initial_system s1).
  { eapply (run_schedule_reachable rx_hash _ _ _ initial_system); [|constructor|exact E1]. by repeat (constructor; [first [by left|by right]|]). }
  assert (R2 : rx_reachable rx_hash (fun x => x = 1 \/ x = 2) s1 s2).
  { eapply (run_schedule_reachable rx_hash _ _ _ s1); [|constructor|exact E2]. by repeat (constructor; [first [by left|by right]|]). }
  vm_compute in E1. injection E1 as <-. vm_compute in E2. injection E2 as <-.
  eexists _, _, _, _. split; [exact R1|]. do 4 (split; [reflexivity|]). split; [exact R2|]. by repeat split.
Qed.

(** With two seeds in flight a thread can be left with a machine on released memory: there
    is an execution from program start after which the next step of a
    thread, its hash, is a use of a released cache. *)
Theorem two_seeds_can_use_released_cache (rx_hash : uint256 -> CBlockHeader -> uint256) (h0 h1 : CBlockHeader) :
  exists s t, rx_reachable rx_hash (fun x => x = 1 \/ x = 2) initial_system s /\
    sys_threads s !! 0%nat = Some t /\ phase t = Hash /\ rx_step rx_hash good_env (sys_globals s) t = None.
Proof.
  destruct (run_schedule rx_hash (release_schedule h0 h1) initial_system) as [s|] eqn:E; [|vm_compute in E; discriminate].
  assert (R : rx_reachable rx_hash (fun x => x = 1 \/ x = 2) initial_system s).
  { eapply (run_schedule_reachable rx_hash _ _ _ initial_system); [|constructor|exact E]. by repeat (constructor; [first [by left|by right]|]). }
  vm_compute in E. injection E as <-. eexists _, _. split; [exact R|]. by repeat split.
Qed.


