(* ===== verification/Subsidy.v ===== *)
(** * Amounts and the block subsidy

    src/src/consensus/amount.h and [GetBlockSubsidy] of src/src/validation.cpp:
    the halving schedule and the bound on the money it creates. *)

From S2P Require Import Prelude ArithUint256 Chain Params.

(** ** Operations *)

Definition COIN : Z := 100000000.
Definition MAX_MONEY : Z := 21000000 * COIN.
Definition MoneyRange (nValue : Z) : bool := (0 <=? nValue) && (nValue <=? MAX_MONEY).

(** [GetBlockSubsidy]; [None] is a division by zero. *)
Definition GetBlockSubsidy (nHeight : Z) (consensusParams : Params) : option Z :=
  if nSubsidyHalvingInterval consensusParams =? 0 then None
  else
    let halvings := Z.quot nHeight (nSubsidyHalvingInterval consensusParams) in
    if 64 <=? halvings then Some 0
    else Some (Z.shiftr (50 * COIN) halvings).

(** Money created by the blocks below height [n]. *)
Fixpoint total_subsidy (params : Params) (n : nat) : option Z :=
  match n with
  | O => Some 0
  | S n' => t ← total_subsidy params n'; s ← GetBlockSubsidy (Z.of_nat n') params; Some (t + s)
  end.

(** ** The schedule *)

(** Subsidy in epoch [k]. *)
Definition epoch_subsidy (k : Z) : Z := if 64 <=? k then 0 else Z.shiftr (50 * COIN) k.

(** Sum of the subsidies of the first [k] epochs, one block each. *)
Fixpoint epochs_total (k : nat) : Z :=
  match k with
  | O => 0
  | S k' => epochs_total k' + epoch_subsidy (Z.of_nat k')
  end.

Section Schedule.

Context (params : Params) (Hint : 0 < nSubsidyHalvingInterval params).

Lemma GetBlockSubsidy_epoch (h : Z) : 0 <= h ->
  GetBlockSubsidy h params = Some (epoch_subsidy (h / nSubsidyHalvingInterval params)).
Proof.
  intros Hh. unfold GetBlockSubsidy, epoch_subsidy. rewrite (proj2 (Z.eqb_neq _ 0)) by lia.
  rewrite Z.quot_div_nonneg by lia. by destruct (64 <=? _).
Qed.

Lemma epoch_subsidy_nonneg (k : Z) : 0 <= epoch_subsidy k.
Proof. unfold epoch_subsidy. destruct (64 <=? k); [done|]. apply Z.shiftr_nonneg. done. Qed.

Lemma epoch_subsidy_zero (k : Z) : 33 <= k -> epoch_subsidy k = 0.
Proof.
  intros Hk. unfold epoch_subsidy. destruct (64 <=? k); [done|].
  rewrite Z.shiftr_div_pow2 by lia. apply Z.div_small. split; [done|].
  apply Z.lt_le_trans with (2 ^ 33); [done|]. apply Z.pow_le_mono_r; lia.
Qed.

(** The total after [n] blocks: whole epochs and the part of the current one. *)
Lemma total_subsidy_closed (n : nat) :
  let I := nSubsidyHalvingInterval params in
  total_subsidy params n =
    Some (I * epochs_total (Z.to_nat (Z.of_nat n / I)) + (Z.of_nat n mod I) * epoch_subsidy (Z.of_nat n / I)).
Proof.
  cbv zeta. set (I := nSubsidyHalvingInterval params). induction n as [|n IH].
  - cbn [total_subsidy]. change (Z.of_nat 0) with 0. rewrite Z.div_0_l, Z.mod_0_l by lia.
    change (epochs_total (Z.to_nat 0)) with 0. f_equal. lia.
  - cbn [total_subsidy]. rewrite IH, GetBlockSubsidy_epoch by lia. fold I. cbn [mbind option_bind]. f_equal.
    pose proof (Z.div_mod (Z.of_nat n) I ltac:(lia)) as Hd. pose proof (Z.mod_pos_bound (Z.of_nat n) I ltac:(lia)) as Hm.
    set (k := Z.of_nat n / I) in *. set (r := Z.of_nat n mod I) in *.
    assert (0 <= k) by (apply Z.div_pos; lia).
    destruct (decide (r + 1 = I)) as [E|E].
    + assert (Z.of_nat (S n) / I = k + 1) as -> by (symmetry; apply (Z.div_unique_pos _ _ _ 0); lia).
      assert (Z.of_nat (S n) mod I = 0) as -> by (apply (mod_unique_pos _ _ (k + 1)); lia).
      replace (Z.to_nat (k + 1)) with (S (Z.to_nat k)) by lia. cbn [epochs_total]. rewrite Z2Nat.id by lia.
      replace r with (I - 1) by lia. ring.
    + assert (Z.of_nat (S n) / I = k) as -> by (symmetry; apply (Z.div_unique_pos _ _ _ (r + 1)); lia).
      assert (Z.of_nat (S n) mod I = r + 1) as -> by (apply (mod_unique_pos _ _ k); lia). ring.
Qed.

End Schedule.

Lemma epochs_total_33 : epochs_total 33 = 9999999989.
Proof. vm_compute. reflexivity. Qed.

Lemma epochs_total_late (k : nat) : (33 <= k)%nat -> epochs_total k = 9999999989.
Proof.
  induction 1 as [|k Hk IH]; [apply epochs_total_33|]. cbn [epochs_total].
  rewrite epoch_subsidy_zero by lia. lia.
Qed.

(** The epochs still to come bound what the current one may add. *)
Lemma epochs_total_room (k : nat) : epochs_total k + epoch_subsidy (Z.of_nat k) <= 9999999989.
Proof.
  destruct (decide (33 <= k)%nat) as [H|H].
  - rewrite epochs_total_late, epoch_subsidy_zero by lia. lia.
  - change (epochs_total (S k) <= 9999999989). assert (Hk : (S k <= 33)%nat) by lia. clear H. revert Hk.
    generalize (S k). intros j Hj. rewrite <- epochs_total_33.
    induction Hj as [|n Hn IH]; [done|]. cbn [epochs_total]. pose proof (epoch_subsidy_nonneg (Z.of_nat n)). lia.
Qed.

(** What the first [n] blocks create is within the sum of all epochs. *)
Lemma total_subsidy_bounds (params : Params) (n : nat) :
  0 < nSubsidyHalvingInterval params -> exists t, total_subsidy params n = Some t /\ 0 <= t <= nSubsidyHalvingInterval params * 9999999989.
Proof.
  intros HI. rewrite total_subsidy_closed by done. set (I := nSubsidyHalvingInterval params) in *.
  pose proof (Z.mod_pos_bound (Z.of_nat n) I HI) as Hr. assert (Hk : 0 <= Z.of_nat n / I) by (apply Z.div_pos; lia).
  set (r := Z.of_nat n mod I) in *. set (k := Z.of_nat n / I) in *.
  pose proof (epochs_total_room (Z.to_nat k)) as Hroom. rewrite Z2Nat.id in Hroom by done.
  pose proof (epoch_subsidy_nonneg k) as Hs.
  assert (Ht : 0 <= epochs_total (Z.to_nat k)).
  { clear. induction (Z.to_nat k) as [|j IH]; [done|]. cbn [epochs_total].
    pose proof (epoch_subsidy_nonneg (Z.of_nat j)). lia. }
  eexists. split; [reflexivity|]. nia.
Qed.

(** ** Properties *)

(** For every height, the money created so far is defined and at most
    9999999989 times the halving interval; it is exactly that from 33 intervals on. With
    the main network's interval of 210000 this is 20999999.9769 coins, which is within [MAX_MONEY]. *)
Theorem total_subsidy_capped (params : Params) (n : nat) :
  0 < nSubsidyHalvingInterval params ->
  exists t, total_subsidy params n = Some t /\ 0 <= t <= nSubsidyHalvingInterval params * 9999999989 /\
    (33 * nSubsidyHalvingInterval params <= Z.of_nat n -> t = nSubsidyHalvingInterval params * 9999999989) /\
    (nSubsidyHalvingInterval params = nSubsidyHalvingInterval CMainParams -> MoneyRange t = true).
Proof.
  intros HI. destruct (total_subsidy_bounds params n HI) as (t & Et & Ht). exists t. split; [done|]. split; [done|]. split.
  - intros Hn. rewrite total_subsidy_closed in Et by done. set (I := nSubsidyHalvingInterval params) in *. injection Et as <-.
    assert (33 <= Z.of_nat n / I) by (apply Z.div_le_lower_bound; lia). rewrite epochs_total_late, epoch_subsidy_zero by lia. lia.
  - intros E. change (nSubsidyHalvingInterval CMainParams) with 210000 in E. unfold MoneyRange, MAX_MONEY, COIN.
    rewrite andb_true_iff, !Z.leb_le. lia.
Qed.

Lemma total_subsidy_capped_witness :
  exists t, total_subsidy CMainParams 12 = Some t /\ MoneyRange t = true.
Proof.
  destruct (total_subsidy_capped CMainParams 12) as (t & Ht & _ & _ & Hm); [reflexivity|].
  exists t. split; [exact Ht|]. apply Hm. reflexivity.
Defined.

(** the subsidy never grows with the height, starts at 50 coins and is zero from
    33 halving intervals on. *)
Theorem GetBlockSubsidy_decreases (params : Params) (h1 h2 : Z) :
  0 < nSubsidyHalvingInterval params -> 0 <= h1 <= h2 ->
  exists s1 s2, GetBlockSubsidy h1 params = Some s1 /\ GetBlockSubsidy h2 params = Some s2 /\
    0 <= s2 <= s1 /\ s1 <= 50 * COIN /\
    (h1 < nSubsidyHalvingInterval params -> s1 = 50 * COIN) /\
    (33 * nSubsidyHalvingInterval params <= h2 -> s2 = 0).
Proof.
  intros HI Hh. rewrite !GetBlockSubsidy_epoch by lia. set (I := nSubsidyHalvingInterval params) in *.
  assert (H12 : 0 <= h1 / I <= h2 / I) by (split; [apply Z.div_pos; lia|apply Z.div_le_mono; lia]).
  eexists _, _. split; [reflexivity|]. split; [reflexivity|].
  split; [split; [apply epoch_subsidy_nonneg|]|split; [|split]].
  - unfold epoch_subsidy. destruct (Z.leb_spec 64 (h1 / I)), (Z.leb_spec 64 (h2 / I)); try lia.
    + apply Z.shiftr_nonneg. done.
    + rewrite !Z.shiftr_div_pow2 by lia. apply Z.div_le_compat_l; [done|].
      split; [lia|]. apply Z.pow_le_mono_r; lia.
  - unfold epoch_subsidy. destruct (64 <=? h1 / I); [done|]. rewrite Z.shiftr_div_pow2 by lia.
    apply Z.div_le_upper_bound; [lia|]. assert (1 <= 2 ^ (h1 / I)) by lia. unfold COIN. lia.
  - intros H. rewrite Z.div_small by lia. done.
  - intros H. apply epoch_subsidy_zero. apply Z.div_le_lower_bound; lia.
Qed.

Lemma GetBlockSubsidy_decreases_witness :
  exists s, GetBlockSubsidy 210000 CMainParams = Some s /\ s <= 50 * COIN.
Proof.
  destruct (GetBlockSubsidy_decreases CMainParams 0 210000) as (s1 & s2 & _ & H2 & H3 & H4 & _); [reflexivity|lia|].
  exists s2. split; [exact H2|]. lia.
Defined.
