(* ===== verification/Transaction.v ===== *)
(** * Transactions: src/src/primitives/transaction.h and transaction.cpp

    Outpoints, inputs, outputs and transactions, their serialization with and
    without witness data, and the totals over the outputs. Scripts are byte
    lists; hashes are numbers, as in the block index. *)

From S2P Require Import Prelude Serialize ArithUint256 Chain Params Subsidy.

Abbreviation CScript := (list Z).

(** ** Data *)

Record COutPoint := mkOutPoint { op_hash : Z; op_n : Z }.

Record CTxIn := mkTxIn {
  prevout : COutPoint;
  scriptSig : CScript;
  nSequence : Z;
  scriptWitness : list (list Z)
}.

Record CTxOut := mkTxOut { nValue : Z; scriptPubKey : CScript }.

Record CTransaction := mkTx {
  vin : list CTxIn;
  vout : list CTxOut;
  tx_version : Z;
  nLockTime : Z
}.

#[export] Instance COutPoint_eq_dec : EqDecision COutPoint.
Proof. solve_decision. Defined.
#[export] Instance CTxIn_eq_dec : EqDecision CTxIn.
Proof. solve_decision. Defined.
#[export] Instance CTxOut_eq_dec : EqDecision CTxOut.
Proof. solve_decision. Defined.
#[export] Instance CTransaction_eq_dec : EqDecision CTransaction.
Proof. solve_decision. Defined.
#[export] Instance COutPoint_countable : Countable COutPoint.
Proof.
  refine (inj_countable' (fun o => (op_hash o, op_n o)) (fun p => mkOutPoint p.1 p.2) _). by intros [].
Defined.

Definition NULL_INDEX : Z := 0xffffffff.
Definition SEQUENCE_FINAL : Z := 0xffffffff.

(** ** Operations *)

Definition COutPoint_IsNull (o : COutPoint) : bool := (op_hash o =? 0) && (op_n o =? NULL_INDEX).

Definition CTxOut_IsNull (o : CTxOut) : bool := nValue o =? -1.
Definition CTxOut_SetNull : CTxOut := mkTxOut (-1) [].

Definition IsCoinBase (tx : CTransaction) : bool :=
  match vin tx with [i] => COutPoint_IsNull (prevout i) | _ => false end.

(** [ComputeHasWitness] *)
Definition HasWitness (tx : CTransaction) : bool :=
  existsb (fun i => negb (bool_decide (scriptWitness i = []))) (vin tx).

(** The [SERIALIZE_METHODS] of the parts. *)
Definition fmt_COutPoint : format COutPoint :=
  fmt_iso (fun x => mkOutPoint x.1 x.2) (fun o => (op_hash o, op_n o)) (fmt_pair fmt_uint256 fmt_u32).

(** Reading an input leaves its witness empty. *)
Definition fmt_CTxIn : format CTxIn :=
  fmt_iso (fun x => mkTxIn x.1.1 x.1.2 x.2 []) (fun i => (prevout i, scriptSig i, nSequence i))
    (fmt_pair (fmt_pair fmt_COutPoint fmt_bytes) fmt_u32).

Definition fmt_CTxOut : format CTxOut :=
  fmt_iso (fun x => mkTxOut x.1 x.2) (fun o => (nValue o, scriptPubKey o)) (fmt_pair fmt_i64 fmt_bytes).

Definition fmt_vin : format (list CTxIn) := fmt_vector fmt_CTxIn.
Definition fmt_vout : format (list CTxOut) := fmt_vector fmt_CTxOut.
Definition fmt_stack : format (list (list Z)) := fmt_vector fmt_bytes.

(** [s >> tx.vin[i].scriptWitness.stack] for every [i]. *)
Fixpoint read_witnesses (ins : list CTxIn) (s : list Z) : option (list CTxIn * list Z) :=
  match ins with
  | [] => Some ([], s)
  | i :: ins' =>
      '(w, s) ← unser fmt_stack s;
      '(l, s) ← read_witnesses ins' s;
      Some (mkTxIn (prevout i) (scriptSig i) (nSequence i) w :: l, s)
  end.

(** [SerializeTransaction] *)
Definition SerializeTransaction (allow_witness : bool) (tx : CTransaction) : list Z :=
  let flags := if allow_witness && HasWitness tx then 1 else 0 in
  ser fmt_u32 (tx_version tx) ++
  (if flags =? 0 then [] else ser fmt_vin [] ++ ser fmt_u8 flags) ++
  ser fmt_vin (vin tx) ++ ser fmt_vout (vout tx) ++
  (if Z.land flags 1 =? 0 then [] else concat (map (fun i => ser fmt_stack (scriptWitness i)) (vin tx))) ++
  ser fmt_u32 (nLockTime tx).

(** [UnserializeTransaction] *)
Definition UnserializeTransaction (allow_witness : bool) (s : list Z) : option (CTransaction * list Z) :=
  '(version, s) ← unser fmt_u32 s;
  '(ins, s) ← unser fmt_vin s;
  '(flags, ins, outs, s) ←
    (if bool_decide (ins = []) && allow_witness then
       '(flags, s) ← unser fmt_u8 s;
       if negb (flags =? 0) then
         '(ins, s) ← unser fmt_vin s;
         '(outs, s) ← unser fmt_vout s;
         Some (flags, ins, outs, s)
       else Some (flags, [], [], s)
     else
       '(outs, s) ← unser fmt_vout s;
       Some (0, ins, outs, s));
  '(flags, ins, s) ←
    (if negb (Z.land flags 1 =? 0) && allow_witness then
       '(ins, s) ← read_witnesses ins s;
       if negb (HasWitness (mkTx ins outs version 0)) then None
       else Some (Z.lxor flags 1, ins, s)
     else Some (flags, ins, s));
  if negb (flags =? 0) then None
  else
    '(lock, s) ← unser fmt_u32 s;
    Some (mkTx ins outs version lock, s).

(** [GetSerializeSize(TX_NO_WITNESS(tx))] and [GetSerializeSize(TX_WITH_WITNESS(tx))] *)
Definition GetSerializeSize (allow_witness : bool) (tx : CTransaction) : Z :=
  Z.of_nat (length (SerializeTransaction allow_witness tx)).

Definition GetTotalSize (tx : CTransaction) : Z := GetSerializeSize true tx.

(** [CalculateOutputValue]: no range check. *)
Definition CalculateOutputValue (tx : CTransaction) : Z :=
  foldl (fun sum o => sum + nValue o) 0 (vout tx).

(** The loop of [GetValueOut]; [None] is the thrown [std::runtime_error]. *)
Fixpoint GetValueOut_loop (outs : list CTxOut) (nValueOut : Z) : option Z :=
  match outs with
  | [] => Some nValueOut
  | o :: outs' =>
      if negb (MoneyRange (nValue o)) || negb (MoneyRange (nValueOut + nValue o)) then None
      else GetValueOut_loop outs' (nValueOut + nValue o)
  end.

(** [CTransaction::GetValueOut] *)
Definition GetValueOut (tx : CTransaction) : option Z :=
  total ← GetValueOut_loop (vout tx) 0;
  if MoneyRange total then Some total else None.

(** ** Well-formed transactions *)

Definition outpoint_ok (o : COutPoint) : Prop := 0 <= op_hash o < 2 ^ 256 /\ is_u32 (op_n o).
Definition txin_ok (i : CTxIn) : Prop := outpoint_ok (prevout i) /\ bytes_ok (scriptSig i) /\ is_u32 (nSequence i).
Definition txout_ok (o : CTxOut) : Prop := is_i64 (nValue o) /\ bytes_ok (scriptPubKey o).
Definition witness_ok (i : CTxIn) : Prop := vector_ok bytes_ok (scriptWitness i).

(** What the fields can hold, with the sizes the reader accepts; outputs without
    inputs would be read as the witness marker. *)
Record tx_ok (tx : CTransaction) : Prop := mkTxOk {
  tk_version : is_u32 (tx_version tx);
  tk_lock : is_u32 (nLockTime tx);
  tk_vin : vector_ok txin_ok (vin tx);
  tk_witness : Forall witness_ok (vin tx);
  tk_vout : vector_ok txout_ok (vout tx);
  tk_marker : vin tx = [] -> vout tx = []
}.

Definition strip (i : CTxIn) : CTxIn := mkTxIn (prevout i) (scriptSig i) (nSequence i) [].

Lemma fmt_COutPoint_ok : format_ok fmt_COutPoint outpoint_ok.
Proof.
  apply (fmt_iso_ok _ _ (fmt_pair_ok _ _ _ _ (fmt_uint_ok 32) (fmt_uint_ok 4))).
  - intros [h n]. done.
  - intros [h n]. done.
Qed.

Lemma fmt_CTxIn_ok : format_ok fmt_CTxIn (fun i => txin_ok i /\ scriptWitness i = []).
Proof.
  apply (fmt_iso_ok _ _ (fmt_pair_ok _ _ _ _ (fmt_pair_ok _ _ _ _ fmt_COutPoint_ok fmt_bytes_ok) (fmt_uint_ok 4))).
  - intros [[o s] q]. cbn. intros [[H1 H2] H3]. done.
  - intros [o s q w]. cbn. intros [(H1 & H2 & H3) ->]. done.
Qed.

Lemma fmt_CTxOut_ok : format_ok fmt_CTxOut txout_ok.
Proof.
  apply (fmt_iso_ok _ _ (fmt_pair_ok _ _ _ _ fmt_i64_ok fmt_bytes_ok)); intros [v s]; done.
Qed.

Lemma fmt_vin_ok : format_ok fmt_vin (vector_ok (fun i => txin_ok i /\ scriptWitness i = [])).
Proof. apply fmt_vector_ok, fmt_CTxIn_ok. Qed.
Lemma fmt_vout_ok : format_ok fmt_vout (vector_ok txout_ok).
Proof. apply fmt_vector_ok, fmt_CTxOut_ok. Qed.
Lemma fmt_stack_ok : format_ok fmt_stack (vector_ok bytes_ok).
Proof. apply fmt_vector_ok, fmt_bytes_ok. Qed.

(** The witness is not part of an input's own serialization. *)
Lemma ser_vin_strip (l : list CTxIn) : ser fmt_vin l = ser fmt_vin (map strip l).
Proof. cbn [ser fmt_vin fmt_vector]. rewrite length_map, map_map. done. Qed.

Lemma vin_strip_ok (l : list CTxIn) :
  vector_ok txin_ok l -> vector_ok (fun i => txin_ok i /\ scriptWitness i = []) (map strip l).
Proof.
  intros [Hl Hf]. split; [by rewrite length_map|]. apply Forall_map.
  eapply Forall_impl; [exact Hf|]. intros i Hi. done.
Qed.

Lemma read_witnesses_write (l : list CTxIn) (rest : list Z) : Forall witness_ok l ->
  read_witnesses (map strip l) (concat (map (fun i => ser fmt_stack (scriptWitness i)) l) ++ rest) = Some (l, rest).
Proof.
  induction 1 as [|i l Hi _ IH]; [done|]. cbn [map concat read_witnesses]. rewrite <- app_assoc.
  rewrite (fo_read _ _ fmt_stack_ok) by exact Hi. cbn [mbind option_bind]. rewrite IH. cbn. by destruct i.
Qed.

Lemma read_witnesses_only (ins l : list CTxIn) (s rest : list Z) :
  Forall is_u8 s -> read_witnesses ins s = Some (l, rest) ->
  Forall witness_ok l /\ map strip l = map strip ins /\ Forall is_u8 rest /\
  s = concat (map (fun i => ser fmt_stack (scriptWitness i)) l) ++ rest.
Proof.
  revert l s; induction ins as [|i ins IH]; intros l s Hs E; cbn [read_witnesses] in E; [by injection E as <- <-|].
  apply bind_inv in E as ([w s1] & E1 & E). apply bind_inv in E as ([l' s2] & E2 & E). injection E as <- <-.
  destruct (fo_only _ _ fmt_stack_ok s w s1 Hs E1) as [Hw ->]. apply Forall_app in Hs as [_ Hs1].
  destruct (IH l' s1 Hs1 E2) as (Hl & Hm & Hr & ->). cbn [map concat scriptWitness]. rewrite <- app_assoc.
  split; [by constructor|]. split; [by rewrite <- Hm|]. done.
Qed.

Lemma HasWitness_false (tx : CTransaction) : HasWitness tx = false <-> map strip (vin tx) = vin tx.
Proof.
  unfold HasWitness. induction (vin tx) as [|i l IH]; [done|]. cbn [existsb map]. rewrite orb_false_iff, negb_false_iff, IH.
  rewrite bool_decide_eq_true. destruct i as [o s q w]. cbn [scriptWitness].
  change (strip (mkTxIn o s q w)) with (mkTxIn o s q []). split.
  - intros [-> Hl]. by f_equal.
  - intros E. injection E as <- Hl. done.
Qed.

Lemma ser_vin_nil : ser fmt_vin [] = [0].
Proof. reflexivity. Qed.

(** The first byte of a non-empty vector is not zero, so it is not taken for the marker. *)
Lemma Serialize_Unserialize (tx : CTransaction) (rest : list Z) :
  tx_ok tx -> UnserializeTransaction true (SerializeTransaction true tx ++ rest) = Some (tx, rest).
Proof.
  intros [Hv Hl Hi Hw Ho Hm]. unfold UnserializeTransaction, SerializeTransaction. cbn [andb].
  rewrite <- !app_assoc, (fo_read _ _ (fmt_uint_ok 4)) by done. cbn [mbind option_bind].
  pose proof (vin_strip_ok _ Hi) as Hs. destruct (HasWitness tx) eqn:Hh.
  - change (1 =? 0) with false. change (Z.land 1 1 =? 0) with false. cbv iota. rewrite <- !app_assoc.
    rewrite (fo_read _ _ fmt_vin_ok) by (split; [cbn; unfold MAX_SIZE; lia|constructor]). cbn [mbind option_bind].
    rewrite bool_decide_eq_true_2 by done. cbn [andb]. rewrite (fo_read _ _ (fmt_uint_ok 1)) by (cbn; lia).
    cbn [mbind option_bind]. change (negb (1 =? 0)) with true. cbv iota.
    rewrite ser_vin_strip, (fo_read _ _ fmt_vin_ok) by done. cbn [mbind option_bind].
    rewrite (fo_read _ _ fmt_vout_ok) by done. cbn [mbind option_bind].
    change (negb (Z.land 1 1 =? 0) && true) with true. cbv iota. rewrite read_witnesses_write by done. cbn [mbind option_bind].
    change (HasWitness (mkTx (vin tx) (vout tx) (tx_version tx) 0)) with (HasWitness tx). rewrite Hh.
    cbn [negb mbind option_bind]. change (negb (Z.lxor 1 1 =? 0)) with false. cbv iota.
    rewrite (fo_read _ _ (fmt_uint_ok 4)) by done. by destruct tx.
  - apply HasWitness_false in Hh. rewrite Hh in Hs. change (0 =? 0) with true. change (Z.land 0 1 =? 0) with true. cbv iota.
    cbn [app]. rewrite (fo_read _ _ fmt_vin_ok) by done. cbn [mbind option_bind].
    destruct (decide (vin tx = [])) as [En|En].
    + rewrite bool_decide_eq_true_2 by done. cbn [andb]. rewrite (Hm En).
      change (ser fmt_vout []) with (ser fmt_u8 0). rewrite (fo_read _ _ (fmt_uint_ok 1)) by (cbn; lia).
      cbn [mbind option_bind]. change (negb (0 =? 0)) with false. change (negb (Z.land 0 1 =? 0)) with false. cbn [andb].
      cbv iota. cbn [mbind option_bind]. change (negb (0 =? 0)) with false. change (negb (Z.land 0 1 =? 0)) with false.
      cbn [andb mbind option_bind]. change (negb (0 =? 0)) with false. cbv iota.
      rewrite (fo_read _ _ (fmt_uint_ok 4)) by done.
      destruct tx as [ins outs v lk]. cbn in *. by rewrite En, (Hm En).
    + rewrite bool_decide_eq_false_2 by done. cbn [andb]. rewrite (fo_read _ _ fmt_vout_ok) by done.
      cbn [mbind option_bind]. change (negb (Z.land 0 1 =? 0)) with false. cbn [andb]. cbv iota. cbn [mbind option_bind].
      change (negb (0 =? 0)) with false. cbv iota. rewrite (fo_read _ _ (fmt_uint_ok 4)) by done. by destruct tx.
Qed.

Lemma strip_vin_ok (ins l : list CTxIn) :
  vector_ok (fun i => txin_ok i /\ scriptWitness i = []) ins -> map strip l = map strip ins ->
  map strip l = ins /\ vector_ok txin_ok l.
Proof.
  intros [Hlen Hf] Hm. assert (map strip ins = ins) as Es.
  { clear Hm Hlen. induction Hf as [|i ins [_ Hi] _ IH]; [done|]. cbn. rewrite IH. f_equal. destruct i. cbn in *. by subst. }
  rewrite Es in Hm. split; [done|]. rewrite <- Hm, length_map in Hlen. split; [done|].
  rewrite <- Hm, Forall_map in Hf. eapply Forall_impl; [exact Hf|]. intros i [H _]. exact H.
Qed.

(** The two shapes of accepted input. *)
Lemma tx_ok_witness (i1 i2 : list CTxIn) (outs : list CTxOut) (version lock : Z) (rest : list Z) :
  is_u32 version -> is_u32 lock ->
  vector_ok (fun i => txin_ok i /\ scriptWitness i = []) i1 -> map strip i2 = map strip i1 ->
  Forall witness_ok i2 -> vector_ok txout_ok outs -> HasWitness (mkTx i2 outs version 0) = true ->
  tx_ok (mkTx i2 outs version lock) /\
  ser fmt_u32 version ++ ser fmt_vin [] ++ ser fmt_u8 1 ++ ser fmt_vin i1 ++ ser fmt_vout outs ++
    concat (map (fun i => ser fmt_stack (scriptWitness i)) i2) ++ ser fmt_u32 lock ++ rest
  = SerializeTransaction true (mkTx i2 outs version lock) ++ rest.
Proof.
  intros Hv Hl Hi Hst Hw Ho Hh. destruct (strip_vin_ok i1 i2 Hi Hst) as [E Hi2]. split.
  - constructor; cbn; try done. intros ->. done.
  - unfold SerializeTransaction.
    change (HasWitness (mkTx i2 outs version lock)) with (HasWitness (mkTx i2 outs version 0)). rewrite Hh. cbn [andb].
    change (1 =? 0) with false. change (Z.land 1 1 =? 0) with false. cbv iota. cbn [vin vout tx_version nLockTime].
    rewrite (ser_vin_strip i2), E, <- !app_assoc. done.
Qed.

Lemma tx_ok_plain (ins : list CTxIn) (outs : list CTxOut) (version lock : Z) (rest : list Z) :
  is_u32 version -> is_u32 lock ->
  vector_ok (fun i => txin_ok i /\ scriptWitness i = []) ins -> vector_ok txout_ok outs -> ins <> [] ->
  tx_ok (mkTx ins outs version lock) /\
  ser fmt_u32 version ++ ser fmt_vin ins ++ ser fmt_vout outs ++ ser fmt_u32 lock ++ rest
  = SerializeTransaction true (mkTx ins outs version lock) ++ rest.
Proof.
  intros Hv Hl Hi Ho Hne. destruct (strip_vin_ok ins ins Hi eq_refl) as [E Hi2]. split.
  - constructor; cbn; try done. destruct Hi as [_ Hf]. eapply Forall_impl; [exact Hf|].
    intros i [_ Hw]. unfold witness_ok. rewrite Hw. split; [cbn; unfold MAX_SIZE; lia|constructor].
  - unfold SerializeTransaction. rewrite (proj2 (HasWitness_false (mkTx ins outs version lock)) E). cbn [andb].
    change (0 =? 0) with true. change (Z.land 0 1 =? 0) with true. cbv iota. cbn [vin vout tx_version nLockTime app].
    by rewrite <- !app_assoc.
Qed.

(** Only serializations are accepted. *)
Lemma Unserialize_only (s rest : list Z) (tx : CTransaction) :
  Forall is_u8 s -> UnserializeTransaction true s = Some (tx, rest) ->
  tx_ok tx /\ s = SerializeTransaction true tx ++ rest.
Proof.
  intros Hs E. unfold UnserializeTransaction in E.
  apply bind_inv in E as ([version s1] & E1 & E). destruct (fo_only _ _ (fmt_uint_ok 4) s version s1 Hs E1) as [Hver ->].
  apply Forall_app in Hs as [_ Hs1]. apply bind_inv in E as ([ins0 s2] & E2 & E).
  destruct (fo_only _ _ fmt_vin_ok s1 ins0 s2 Hs1 E2) as [Hins0 ->]. apply Forall_app in Hs1 as [_ Hs2].
  apply bind_inv in E as ([[[flags ins] outs] s3] & E3 & E). rewrite andb_true_r in E3.
  apply bind_inv in E as ([[flags' ins'] s4] & E4 & E). rewrite andb_true_r in E4.
  destruct (Z.eqb_spec flags' 0) as [->|]; [cbn [negb] in E|done].
  apply bind_inv in E as ([lock s5] & E5 & E). injection E as <- <-.
  destruct (decide (ins0 = [])) as [->|Hne].
  - rewrite bool_decide_eq_true_2 in E3 by done. apply bind_inv in E3 as ([fl s6] & E6 & E3).
    destruct (fo_only _ _ (fmt_uint_ok 1) s2 fl s6 Hs2 E6) as [Hfl ->]. apply Forall_app in Hs2 as [_ Hs6].
    destruct (Z.eqb_spec fl 0) as [->|Hf0]; cbn [negb] in E3.
    + injection E3 as <- <- <- <-. change (negb (Z.land 0 1 =? 0)) with false in E4. injection E4 as <- <-.
      destruct (fo_only _ _ (fmt_uint_ok 4) s6 lock s5 Hs6 E5) as [Hlock ->]. split; [|done].
      by constructor; cbn; try split; cbn; unfold MAX_SIZE; try lia; try constructor.
    + apply bind_inv in E3 as ([i1 s7] & E7 & E3). destruct (fo_only _ _ fmt_vin_ok s6 i1 s7 Hs6 E7) as [Hi1 ->].
      apply Forall_app in Hs6 as [_ Hs7]. apply bind_inv in E3 as ([o1 s8] & E8 & E3).
      destruct (fo_only _ _ fmt_vout_ok s7 o1 s8 Hs7 E8) as [Ho1 ->]. apply Forall_app in Hs7 as [_ Hs8].
      injection E3 as <- <- <- <-. destruct (Z.eqb_spec (Z.land fl 1) 0) as [Hl|Hl]; cbn [negb] in E4.
      { by injection E4 as -> _ _. }
      apply bind_inv in E4 as ([i2 s9] & E9 & E4).
      destruct (HasWitness (mkTx i2 o1 version 0)) eqn:Hh; cbn [negb] in E4; [|done].
      injection E4 as Hx <- <-. assert (fl = 1) as -> by (by apply Z.lxor_eq).
      destruct (read_witnesses_only i1 i2 s8 s9 Hs8 E9) as (Hw & Hst & Hs9 & ->).
      destruct (fo_only _ _ (fmt_uint_ok 4) s9 lock s5 Hs9 E5) as [Hlock ->].
      apply (tx_ok_witness i1 i2 o1 version lock); done.
  - rewrite bool_decide_eq_false_2 in E3 by done. apply bind_inv in E3 as ([o1 s8] & E8 & E3).
    destruct (fo_only _ _ fmt_vout_ok s2 o1 s8 Hs2 E8) as [Ho1 ->]. apply Forall_app in Hs2 as [_ Hs8].
    injection E3 as <- <- <- <-. change (negb (Z.land 0 1 =? 0)) with false in E4. injection E4 as <- <-.
    destruct (fo_only _ _ (fmt_uint_ok 4) s8 lock s5 Hs8 E5) as [Hlock ->].
    by apply tx_ok_plain.
Qed.

(** ** Totals *)

Definition sum_values (outs : list CTxOut) : Z := foldr (fun o acc => nValue o + acc) 0 outs.

Lemma MoneyRange_iff (v : Z) : MoneyRange v = true <-> 0 <= v <= MAX_MONEY.
Proof. unfold MoneyRange. rewrite andb_true_iff, !Z.leb_le. done. Qed.

Lemma GetValueOut_loop_spec (outs : list CTxOut) (acc v : Z) :
  0 <= acc <= MAX_MONEY ->
  GetValueOut_loop outs acc = Some v <->
  Forall (fun o => MoneyRange (nValue o) = true) outs /\ v = acc + sum_values outs /\ v <= MAX_MONEY.
Proof.
  revert acc; induction outs as [|o outs IH]; intros acc Ha; cbn [GetValueOut_loop sum_values foldr].
  - rewrite Z.add_0_r. split; [intros [= <-]; split; [constructor|lia]|]. intros (_ & -> & _). done.
  - change (foldr _ 0 outs) with (sum_values outs).
    destruct (MoneyRange (nValue o)) eqn:E1; cbn [negb orb].
    2: { split; [done|]. intros [Hf _]. apply Forall_cons in Hf as [Hf _]. congruence. }
    pose proof (proj1 (MoneyRange_iff _) E1) as H1. destruct (MoneyRange (acc + nValue o)) eqn:E2; cbn [negb].
    + apply MoneyRange_iff in E2. rewrite IH by done. rewrite Forall_cons.
      split; (intros (Ha1 & Ha2 & Ha3)); (split; [tauto|lia]).
    + split; [done|]. intros (Hf & -> & Hle). apply Forall_cons in Hf as [_ Hf].
      assert (0 <= sum_values outs).
      { clear -Hf. induction Hf as [|x l Hx _ IH]; [done|]. cbn. apply MoneyRange_iff in Hx. change (foldr _ 0 l) with (sum_values l). lia. }
      assert (MoneyRange (acc + nValue o) = true) by (apply MoneyRange_iff; lia). congruence.
Qed.

Lemma CalculateOutputValue_sum (tx : CTransaction) : CalculateOutputValue tx = sum_values (vout tx).
Proof.
  unfold CalculateOutputValue, sum_values. assert (H : forall l acc, foldl (fun s o => s + nValue o) acc l
    = acc + foldr (fun o a => nValue o + a) 0 l).
  { induction l as [|o l IH]; intros acc; cbn; [lia|]. rewrite IH. lia. }
  rewrite H. lia.
Qed.

Lemma GetValueOut_spec (tx : CTransaction) (v : Z) :
  GetValueOut tx = Some v <->
  Forall (fun o => MoneyRange (nValue o) = true) (vout tx) /\ v = CalculateOutputValue tx /\ 0 <= v <= MAX_MONEY.
Proof.
  unfold GetValueOut. rewrite CalculateOutputValue_sum. assert (H0 : 0 <= 0 <= MAX_MONEY) by done.
  pose proof (GetValueOut_loop_spec (vout tx) 0) as Hl. split.
  - intros E. apply bind_inv in E as (t & Et & E). destruct (MoneyRange t) eqn:Em; [|done]. injection E as <-.
    apply Hl in Et; [|done]. apply MoneyRange_iff in Em. destruct Et as (H1 & H2 & H3). split; [done|]. lia.
  - intros (H1 & H2 & H3). apply (bind_eq _ _ v); [apply Hl; [done|]; split; [done|lia]|].
    by rewrite (proj2 (MoneyRange_iff v)).
Qed.

Definition sample_tx : CTransaction := {|
  vin := [mkTxIn (mkOutPoint 77 1) [1; 2] SEQUENCE_FINAL [[9; 9]; []]];
  vout := [mkTxOut 5000 [118; 169]; mkTxOut 7 []]; tx_version := 2; nLockTime := 0 |}.

(** ** Properties *)

(** C29: transaction serialization with witness data is a bijection between well-formed
    transactions and the byte strings [UnserializeTransaction] accepts: what
    is written reads back unchanged with the rest of the stream untouched, and
    every accepted string is the serialization of the transaction it
    gives, so a transaction cannot be encoded in two ways. *)
Theorem transaction_serialization_bijective (s rest : list Z) (tx : CTransaction) :
  Forall is_u8 s ->
  UnserializeTransaction true s = Some (tx, rest) <->
  tx_ok tx /\ s = SerializeTransaction true tx ++ rest.
Proof.
  intros Hs. split; [by apply Unserialize_only|]. intros [Htx ->]. by apply Serialize_Unserialize.
Qed.

Lemma transaction_serialization_bijective_witness :
  UnserializeTransaction true (SerializeTransaction true sample_tx ++ [3]) = Some (sample_tx, [3]).
Proof.
  apply (transaction_serialization_bijective _ [3] sample_tx).
  - vm_compute. repeat constructor; intros E; discriminate E.
  - split; [|reflexivity]. constructor; cbn;
      repeat first [constructor | progress unfold outpoint_ok, is_u32, is_i64, bytes_ok, is_u8, MAX_SIZE, SEQUENCE_FINAL
                   | progress cbn]; try discriminate; try lia.
Defined.

(** [GetValueOut] returns exactly the sum of the outputs, and it returns exactly when every
    output and the total are between zero and [MAX_MONEY]; otherwise it throws. *)
Theorem GetValueOut_exact (tx : CTransaction) (v : Z) :
  GetValueOut tx = Some v <->
  Forall (fun o => MoneyRange (nValue o) = true) (vout tx) /\ v = CalculateOutputValue tx /\ 0 <= v <= MAX_MONEY.
Proof. apply GetValueOut_spec. Qed.
