(* ===== verification/Script.v ===== *)
(** * Scripts: src/src/script/script.h and src/src/script/script.cpp

    Parsing of scripts, the patterns consensus code recognises, signature
    operation counts, script numbers and the builder that pushes data. A script
    is a list of bytes; an iterator into it is the part that is left. *)

From S2P Require Import Prelude Transaction.

(** ** Opcodes and limits *)

Definition OP_0 : Z := 0x00.
Definition OP_PUSHDATA1 : Z := 0x4c.
Definition OP_PUSHDATA2 : Z := 0x4d.
Definition OP_PUSHDATA4 : Z := 0x4e.
Definition OP_1NEGATE : Z := 0x4f.
Definition OP_1 : Z := 0x51.
Definition OP_16 : Z := 0x60.
Definition OP_RETURN : Z := 0x6a.
Definition OP_EQUAL : Z := 0x87.
Definition OP_HASH160 : Z := 0xa9.
Definition OP_CHECKSIG : Z := 0xac.
Definition OP_CHECKSIGVERIFY : Z := 0xad.
Definition OP_CHECKMULTISIG : Z := 0xae.
Definition OP_CHECKMULTISIGVERIFY : Z := 0xaf.
Definition OP_NOP10 : Z := 0xb9.
Definition OP_INVALIDOPCODE : Z := 0xff.

Definition MAX_SCRIPT_ELEMENT_SIZE : Z := 520.
Definition MAX_PUBKEYS_PER_MULTISIG : Z := 20.
Definition MAX_SCRIPT_SIZE : Z := 10000.
Definition MAX_OPCODE : Z := OP_NOP10.

(** ** Parsing *)

(** The results of [GetScriptOp]: the return value, [opcodeRet], [*pvchRet] and [pc]. *)
Record script_op := mkOp { op_ok : bool; op_code : Z; op_data : list Z; op_rest : list Z }.

(** The size of a push and where its data starts; [None] when the size bytes are missing. *)
Definition push_size (opcode : Z) (pc : list Z) : option (Z * list Z) :=
  if opcode <? OP_PUSHDATA1 then Some (opcode, pc)
  else if opcode =? OP_PUSHDATA1 then match pc with a :: pc => Some (a, pc) | _ => None end
  else if opcode =? OP_PUSHDATA2 then match pc with a :: b :: pc => Some (le_val [a; b], pc) | _ => None end
  else match pc with a :: b :: c :: d :: pc => Some (le_val [a; b; c; d], pc) | _ => None end.

(** [GetScriptOp] *)
Definition GetScriptOp (pc : list Z) : script_op :=
  match pc with
  | [] => mkOp false OP_INVALIDOPCODE [] []
  | opcode :: pc =>
      if opcode <=? OP_PUSHDATA4 then
        match push_size opcode pc with
        | None => mkOp false OP_INVALIDOPCODE [] pc
        | Some (nSize, pc) =>
            if Z.of_nat (length pc) <? nSize then mkOp false OP_INVALIDOPCODE [] pc
            else mkOp true opcode (take (Z.to_nat nSize) pc) (drop (Z.to_nat nSize) pc)
        end
      else mkOp true opcode [] pc
  end.

(** [CScript::DecodeOP_N]; [None] is the failed assertion. *)
Definition DecodeOP_N (opcode : Z) : option Z :=
  if opcode =? OP_0 then Some 0
  else if (OP_1 <=? opcode) && (opcode <=? OP_16) then Some (opcode - (OP_1 - 1)) else None.

(** [CScript::GetSigOpCount(bool)]; every round consumes a byte. *)
Fixpoint GetSigOpCount_loop (fuel : nat) (fAccurate : bool) (pc : list Z) (lastOpcode n : Z) : option Z :=
  match pc with
  | [] => Some n
  | _ =>
      match fuel with
      | O => None
      | S fuel' =>
          let r := GetScriptOp pc in
          if negb (op_ok r) then Some n
          else
            let opcode := op_code r in
            n ← (if (opcode =? OP_CHECKSIG) || (opcode =? OP_CHECKSIGVERIFY) then Some (u32 (n + 1))
                 else if (opcode =? OP_CHECKMULTISIG) || (opcode =? OP_CHECKMULTISIGVERIFY) then
                   if fAccurate && (OP_1 <=? lastOpcode) && (lastOpcode <=? OP_16)
                   then k ← DecodeOP_N lastOpcode; Some (u32 (n + k))
                   else Some (u32 (n + MAX_PUBKEYS_PER_MULTISIG))
                 else Some n);
            GetSigOpCount_loop fuel' fAccurate (op_rest r) opcode n
      end
  end.
Definition GetSigOpCount (s : CScript) (fAccurate : bool) : option Z :=
  GetSigOpCount_loop (length s) fAccurate s OP_INVALIDOPCODE 0.

(** ** Patterns *)

(** [CScript::IsUnspendable] *)
Definition IsUnspendable (s : CScript) : bool :=
  match s with op :: _ => op =? OP_RETURN | [] => false end || (Z.of_nat (length s) >? MAX_SCRIPT_SIZE).

(** [CScript::IsPayToScriptHash] *)
Definition IsPayToScriptHash (s : CScript) : bool :=
  (Z.of_nat (length s) =? 23) && (s !!! 0%nat =? OP_HASH160) && (s !!! 1%nat =? 0x14) && (s !!! 22%nat =? OP_EQUAL).

(** [CScript::IsPayToWitnessScriptHash], [CScript::IsPayToTaproot] and [CScript::IsPayToAnchor] *)
Definition IsPayToWitnessScriptHash (s : CScript) : bool :=
  (Z.of_nat (length s) =? 34) && (s !!! 0%nat =? OP_0) && (s !!! 1%nat =? 0x20).
Definition IsPayToTaproot (s : CScript) : bool :=
  (Z.of_nat (length s) =? 34) && (s !!! 0%nat =? OP_1) && (s !!! 1%nat =? 0x20).
Definition IsPayToAnchor (s : CScript) : bool :=
  (Z.of_nat (length s) =? 4) && (s !!! 0%nat =? OP_1) && (s !!! 1%nat =? 0x02) && (s !!! 2%nat =? 0x4e) && (s !!! 3%nat =? 0x73).

(** [CScript::IsWitnessProgram]: the version and the program, [Some None] when it is none. *)
Definition IsWitnessProgram (s : CScript) : option (option (Z * list Z)) :=
  if (Z.of_nat (length s) <? 4) || (Z.of_nat (length s) >? 42) then Some None
  else if negb (s !!! 0%nat =? OP_0) && ((s !!! 0%nat <? OP_1) || (s !!! 0%nat >? OP_16)) then Some None
  else if s !!! 1%nat + 2 =? Z.of_nat (length s) then
    version ← DecodeOP_N (s !!! 0%nat); Some (Some (version, drop 2 s))
  else Some None.

(** [CScript::IsPushOnly] *)
Fixpoint IsPushOnly_loop (fuel : nat) (pc : list Z) : option bool :=
  match pc with
  | [] => Some true
  | _ =>
      match fuel with
      | O => None
      | S fuel' =>
          let r := GetScriptOp pc in
          if negb (op_ok r) then Some false
          else if op_code r >? OP_16 then Some false else IsPushOnly_loop fuel' (op_rest r)
      end
  end.
Definition IsPushOnly (s : CScript) : option bool := IsPushOnly_loop (length s) s.

(** [CScript::HasValidOps] *)
Fixpoint HasValidOps_loop (fuel : nat) (pc : list Z) : option bool :=
  match pc with
  | [] => Some true
  | _ =>
      match fuel with
      | O => None
      | S fuel' =>
          let r := GetScriptOp pc in
          if negb (op_ok r) || (op_code r >? MAX_OPCODE) || (Z.of_nat (length (op_data r)) >? MAX_SCRIPT_ELEMENT_SIZE)
          then Some false else HasValidOps_loop fuel' (op_rest r)
      end
  end.
Definition HasValidOps (s : CScript) : option bool := HasValidOps_loop (length s) s.

(** [CScript::GetSigOpCount(const CScript& scriptSig)]: the loop gives the last push, or [None]
    inside when it returns 0. *)
Fixpoint last_push_loop (fuel : nat) (pc vData : list Z) : option (option (list Z)) :=
  match pc with
  | [] => Some (Some vData)
  | _ =>
      match fuel with
      | O => None
      | S fuel' =>
          let r := GetScriptOp pc in
          if negb (op_ok r) then Some None
          else if op_code r >? OP_16 then Some None else last_push_loop fuel' (op_rest r) (op_data r)
      end
  end.
Definition GetSigOpCount_p2sh (s scriptSig : CScript) : option Z :=
  if negb (IsPayToScriptHash s) then GetSigOpCount s true
  else
    r ← last_push_loop (length scriptSig) scriptSig [];
    match r with None => Some 0 | Some vData => GetSigOpCount vData true end.

(** ** Script numbers *)

(** [CScriptNum::serialize]; an absolute value has at most eight bytes. *)
Fixpoint abs_bytes (fuel : nat) (absvalue : Z) : option (list Z) :=
  if absvalue =? 0 then Some []
  else
    match fuel with
    | O => None
    | S fuel' => r ← abs_bytes fuel' (Z.shiftr absvalue 8); Some (Z.land absvalue 0xff :: r)
    end.
Definition CScriptNum_serialize (value : Z) : option (list Z) :=
  if value =? 0 then Some []
  else
    let neg := value <? 0 in
    let absvalue := if neg then u64 (u64 (Z.lnot (u64 value)) + 1) else u64 value in
    result ← abs_bytes 8 absvalue;
    back ← last result;
    if negb (Z.land back 0x80 =? 0) then Some (result ++ [if neg then 0x80 else 0])
    else if neg then Some (<[(length result - 1)%nat := Z.lor back 0x80]> result) else Some result.

(** [CScriptNum::set_vch] *)
Fixpoint set_vch_loop (i : nat) (vch : list Z) (result : Z) : Z :=
  match vch with
  | [] => result
  | b :: vch' => set_vch_loop (S i) vch' (Z.lor result (i64 (Z.shiftl b (8 * Z.of_nat i))))
  end.
Definition set_vch (vch : list Z) : Z :=
  match last vch with
  | None => 0
  | Some back =>
      let result := set_vch_loop 0 vch 0 in
      if negb (Z.land back 0x80 =? 0) then
        - i64 (Z.land (u64 result) (u64 (Z.lnot (u64 (Z.shiftl 0x80 (8 * (Z.of_nat (length vch) - 1)))))))
      else result
  end.

(** [CScriptNum::CScriptNum(vch, fRequireMinimal, nMaxNumSize)]; [None] is a [scriptnum_error]. *)
Definition CScriptNum (vch : list Z) (fRequireMinimal : bool) (nMaxNumSize : Z) : option Z :=
  if Z.of_nat (length vch) >? nMaxNumSize then None
  else if fRequireMinimal && (0 <? Z.of_nat (length vch)) then
    if (Z.land (vch !!! (length vch - 1)%nat) 0x7f =? 0) &&
       ((Z.of_nat (length vch) <=? 1) || (Z.land (vch !!! (length vch - 2)%nat) 0x80 =? 0))
    then None else Some (set_vch vch)
  else Some (set_vch vch).

(** [CScriptNum::getint] *)
Definition getint (m_value : Z) : Z :=
  if m_value >? 2 ^ 31 - 1 then 2 ^ 31 - 1 else if m_value <? - 2 ^ 31 then - 2 ^ 31 else m_value.

(** ** Building scripts *)

(** [CScript::AppendDataSize] *)
Definition AppendDataSize (size : Z) : list Z :=
  if size <? OP_PUSHDATA1 then [u8 size]
  else if size <=? 0xff then [OP_PUSHDATA1; u8 size]
  else if size <=? 0xffff then OP_PUSHDATA2 :: le_bytes 2 size
  else OP_PUSHDATA4 :: le_bytes 4 size.

(** [CScript::operator<<] on a span of bytes and on an integer ([push_int64]). *)
Definition push_data (s : CScript) (b : list Z) : CScript := s ++ AppendDataSize (u32 (Z.of_nat (length b))) ++ b.
Definition push_int64 (s : CScript) (n : Z) : option CScript :=
  if (n =? -1) || ((1 <=? n) && (n <=? 16)) then Some (s ++ [u8 (n + (OP_1 - 1))])
  else if n =? 0 then Some (s ++ [OP_0])
  else b ← CScriptNum_serialize n; Some (push_data s b).

(** [CheckMinimalPush] *)
Definition CheckMinimalPush (data : list Z) (opcode : Z) : bool :=
  let n := Z.of_nat (length data) in
  if n =? 0 then opcode =? OP_0
  else if (n =? 1) && (1 <=? data !!! 0%nat) && (data !!! 0%nat <=? 16) then false
  else if (n =? 1) && (data !!! 0%nat =? 0x81) then false
  else if n <=? 75 then opcode =? n
  else if n <=? 255 then opcode =? OP_PUSHDATA1
  else if n <=? 65535 then opcode =? OP_PUSHDATA2
  else true.

(** [IsOpSuccess] *)
Definition IsOpSuccess (opcode : Z) : bool :=
  (opcode =? 80) || (opcode =? 98) || ((126 <=? opcode) && (opcode <=? 129)) ||
  ((131 <=? opcode) && (opcode <=? 134)) || ((137 <=? opcode) && (opcode <=? 138)) ||
  ((141 <=? opcode) && (opcode <=? 142)) || ((149 <=? opcode) && (opcode <=? 153)) ||
  ((187 <=? opcode) && (opcode <=? 254)).

(** ** Bytes *)

Lemma u8_forall (P : Z -> bool) (b : Z) : forallb P (seqZ 0 256) = true -> is_u8 b -> P b = true.
Proof.
  intros H [H1 H2]. rewrite forallb_forall in H. apply H, list_elem_of_In, elem_of_seqZ. lia.
Qed.

Lemma sign_bit (b : Z) : is_u8 b -> (Z.land b 0x80 =? 0) = (b <? 128).
Proof.
  intros H. apply eqb_prop. revert H. by apply (u8_forall (fun b => Bool.eqb (Z.land b 0x80 =? 0) (b <? 128))).
Qed.

Lemma low_bits (b : Z) : is_u8 b -> Z.land b 0x7f = b mod 128.
Proof. intros H. apply Z.eqb_eq. revert H. by apply (u8_forall (fun b => Z.land b 0x7f =? b mod 128)). Qed.

Lemma set_sign (b : Z) : 0 <= b < 128 -> Z.lor b 0x80 = b + 128.
Proof.
  intros H. assert (is_u8 b) as Hb by (unfold is_u8; lia).
  pose proof (u8_forall (fun b => (128 <=? b) || (Z.lor b 0x80 =? b + 128)) b eq_refl Hb) as E. cbn beta in E.
  apply orb_true_iff in E as [E|E]; [lia|]. by apply Z.eqb_eq.
Qed.

Lemma le_val_app (a b : list Z) : le_val (a ++ b) = le_val a + 2 ^ (8 * Z.of_nat (length a)) * le_val b.
Proof.
  induction a as [|d a IH]; [cbn [app length le_val foldr]; change (2 ^ (8 * Z.of_nat 0)) with 1; fold (le_val b); lia|].
  cbn [app le_val foldr length]. fold (le_val (a ++ b)). fold (le_val a). rewrite IH, Nat2Z.inj_succ.
  replace (8 * Z.succ (Z.of_nat (length a))) with (8 + 8 * Z.of_nat (length a)) by lia. rewrite Z.pow_add_r by lia. lia.
Qed.

Lemma le_val_snoc (a : list Z) (b : Z) : le_val (a ++ [b]) = le_val a + 2 ^ (8 * Z.of_nat (length a)) * b.
Proof. rewrite le_val_app. cbn [le_val foldr]. lia. Qed.

(** ** Script numbers *)

Lemma abs_bytes_unique (fuel : nat) (l : list Z) :
  Forall is_u8 l -> (forall b, last l = Some b -> b <> 0) -> (length l <= fuel)%nat -> abs_bytes fuel (le_val l) = Some l.
Proof.
  intros Hl. revert fuel. induction Hl as [|d l Hd Hl IH]; intros fuel Hlast Hf; [by destruct fuel|].
  destruct fuel as [|fuel]; [cbn in Hf; lia|]. cbn [le_val foldr]. fold (le_val l). cbn [abs_bytes].
  pose proof (le_val_bound l Hl) as Hb. unfold is_u8 in Hd.
  destruct (Z.eqb_spec (d + 2 ^ 8 * le_val l) 0) as [E|E].
  - exfalso. assert (d = 0 /\ le_val l = 0) as [-> E2] by lia. destruct l as [|x l _] using rev_ind; [by apply (Hlast 0)|].
    apply (Hlast x); [by rewrite app_comm_cons, last_snoc|]. apply Forall_app in Hl as [Hl Hx]. apply Forall_cons in Hx as [Hx _].
    rewrite le_val_snoc in E2. pose proof (le_val_bound l Hl). unfold is_u8 in Hx. nia.
  - rewrite Z.shiftr_div_pow2 by lia. replace ((d + 2 ^ 8 * le_val l) / 2 ^ 8) with (le_val l) by (symmetry; div_lia).
    rewrite IH; [|intros b Hb2; apply Hlast; by rewrite last_cons, Hb2|cbn in Hf; lia]. cbn [mbind option_bind]. do 2 f_equal.
    change 0xff with (Z.ones 8). rewrite Z.land_ones by lia. div_lia.
Qed.

Lemma abs_bytes_spec (fuel : nat) (v : Z) :
  0 <= v < 2 ^ (8 * Z.of_nat fuel) ->
  exists l, abs_bytes fuel v = Some l /\ Forall is_u8 l /\ le_val l = v /\ (forall b, last l = Some b -> b <> 0) /\
    (length l <= fuel)%nat.
Proof.
  revert v; induction fuel as [|fuel IH]; intros v Hv; cbn [abs_bytes].
  - change (2 ^ (8 * Z.of_nat 0)) with 1 in Hv. assert (v = 0) as -> by lia. exists []. by repeat split.
  - destruct (Z.eqb_spec v 0) as [->|Hne]; [exists []; repeat split; try done; cbn; lia|].
    rewrite Nat2Z.inj_succ in Hv. replace (8 * Z.succ (Z.of_nat fuel)) with (8 + 8 * Z.of_nat fuel) in Hv by lia.
    rewrite Z.pow_add_r in Hv by lia. rewrite Z.shiftr_div_pow2 by lia.
    destruct (IH (v / 2 ^ 8)) as (l & -> & Hl & Hval & Hlast & Hlen).
    { split; [apply Z.div_pos; lia|]. apply Z.div_lt_upper_bound; lia. }
    cbn [mbind option_bind]. eexists. split; [reflexivity|]. change 0xff with (Z.ones 8). rewrite Z.land_ones by lia.
    split; [|split; [|split]].
    + constructor; [|done]. unfold is_u8. apply Z.mod_pos_bound. lia.
    + cbn [le_val foldr]. fold (le_val l). rewrite Hval. pose proof (Z.div_mod v (2 ^ 8) ltac:(lia)). lia.
    + intros b. rewrite last_cons. destruct (last l) as [x|] eqn:El; [intros [= <-]; by apply Hlast|]. intros [= <-] E.
      destruct l as [|? ? _] using rev_ind; [|by rewrite last_snoc in El]. cbn in Hval.
      pose proof (Z.div_mod v (2 ^ 8) ltac:(lia)). lia.
    + cbn. lia.
Qed.

Lemma set_vch_loop_spec (vch : list Z) (i : nat) (result : Z) :
  Forall is_u8 vch -> (i + length vch <= 7)%nat -> 0 <= result < 2 ^ (8 * Z.of_nat i) ->
  set_vch_loop i vch result = result + 2 ^ (8 * Z.of_nat i) * le_val vch.
Proof.
  intros Hv. revert i result; induction Hv as [|b vch Hb Hv IH]; intros i result Hi Hr; cbn [set_vch_loop le_val foldr]; [lia|].
  fold (le_val vch). unfold is_u8 in Hb. cbn [length] in Hi.
  assert (2 ^ (8 * Z.of_nat i) <= 2 ^ 48) as Hp by (apply Z.pow_le_mono_r; lia).
  assert (0 < 2 ^ (8 * Z.of_nat i)) as Hp0 by (apply Z.pow_pos_nonneg; lia).
  rewrite Z.shiftl_mul_pow2, i64_small by (try lia; unfold is_i64; nia).
  assert (2 ^ (8 * Z.of_nat (S i)) = 2 ^ 8 * 2 ^ (8 * Z.of_nat i)) as Hs.
  { rewrite <- Z.pow_add_r by lia. f_equal. lia. }
  rewrite lor_add_disjoint by (apply land_low_high; lia). rewrite IH; [|lia|nia]. rewrite Hs. nia.
Qed.

(** Clearing the bit at the top of a number. *)
Lemma clear_top_bit (a k : Z) : 0 <= k < 63 -> 0 <= a < 2 ^ k ->
  Z.land (u64 (a + 2 ^ k)) (u64 (Z.lnot (u64 (Z.shiftl 1 k)))) = a.
Proof.
  intros Hk Ha. assert (2 ^ k < 2 ^ 63) as Hp by (apply Z.pow_lt_mono_r; lia).
  rewrite Z.shiftl_1_l, !(u64_small (2 ^ k)), (u64_small (a + 2 ^ k)) by (unfold is_u64; lia).
  rewrite Z.add_comm. rewrite <- (lor_add_disjoint (2 ^ k) a).
  2: { rewrite Z.land_comm. rewrite <- (Z.mul_1_l (2 ^ k)). apply land_low_high; lia. }
  apply Z.bits_inj'. intros n Hn. unfold u64. rewrite Z.land_spec, Z.lor_spec, Z.pow2_bits_eqb by lia.
  destruct (Z.eqb_spec k n) as [->|Hne].
  - rewrite Z.mod_pow2_bits_low, Z.lnot_spec, Z.pow2_bits_true by lia. cbn. rewrite ?andb_false_r.
    symmetry. apply testbit_ge_width with n; lia.
  - cbn [orb]. destruct (Z.lt_ge_cases n 64) as [H64|H64].
    + rewrite Z.mod_pow2_bits_low, Z.lnot_spec, Z.pow2_bits_false by lia. apply andb_true_r.
    + rewrite Z.mod_pow2_bits_high by lia. rewrite andb_false_r. symmetry. apply testbit_ge_width with k; lia.
Qed.

(** The value of a byte vector: sign and magnitude. *)
Lemma set_vch_spec (body : list Z) (b : Z) :
  Forall is_u8 body -> is_u8 b -> (length body <= 6)%nat ->
  set_vch (body ++ [b]) =
    if b <? 128 then le_val body + 2 ^ (8 * Z.of_nat (length body)) * b
    else - (le_val body + 2 ^ (8 * Z.of_nat (length body)) * (b - 128)).
Proof.
  intros Hbody Hb Hl. unfold set_vch. rewrite last_snoc, sign_bit by done.
  rewrite set_vch_loop_spec by (try (apply Forall_app; split; [done|by constructor]); rewrite ?length_app; cbn; lia).
  change (2 ^ (8 * Z.of_nat 0)) with 1. rewrite Z.add_0_l, Z.mul_1_l, le_val_snoc.
  destruct (Z.ltb_spec b 128) as [H|H]; cbn [negb]; [done|]. f_equal.
  pose proof (le_val_bound body Hbody) as Hv. unfold is_u8 in Hb. set (p := 8 * Z.of_nat (length body)) in *.
  assert (2 ^ p <= 2 ^ 48) as Hp by (apply Z.pow_le_mono_r; lia).
  rewrite length_app. cbn [length]. replace (8 * (Z.of_nat (length body + 1) - 1)) with p by lia.
  replace (Z.shiftl 128 p) with (Z.shiftl 1 (7 + p)) by (rewrite !Z.shiftl_mul_pow2, Z.pow_add_r by lia; lia).
  replace (le_val body + 2 ^ p * b) with (le_val body + 2 ^ p * (b - 128) + 2 ^ (7 + p)) by (rewrite Z.pow_add_r by lia; lia).
  rewrite clear_top_bit; [|lia|rewrite Z.pow_add_r by lia; nia]. apply i64_small. unfold is_i64. nia.
Qed.

Lemma CScriptNum_snoc (body : list Z) (b : Z) (fMinimal : bool) (nMax : Z) :
  Forall is_u8 body -> is_u8 b -> (length body <= 6)%nat ->
  CScriptNum (body ++ [b]) fMinimal nMax =
    if nMax <? Z.of_nat (length body) + 1 then None
    else if fMinimal && (b mod 128 =? 0) && match last body with None => true | Some c => c <? 128 end then None
    else Some (set_vch (body ++ [b])).
Proof.
  intros Hbody Hb Hl. unfold CScriptNum. rewrite length_app. cbn [length].
  replace (Z.of_nat (length body + 1)) with (Z.of_nat (length body) + 1) by lia.
  rewrite Z.gtb_ltb. destruct (nMax <? Z.of_nat (length body) + 1); [done|].
  destruct (Z.ltb_spec 0 (Z.of_nat (length body) + 1)); [|lia]. rewrite andb_true_r.
  destruct fMinimal; [|done]. cbn [andb].
  replace (length body + 1 - 1)%nat with (length body) by lia.
  replace ((body ++ [b]) !!! length body) with b.
  2: { symmetry. apply list_lookup_total_correct. rewrite lookup_app_r, Nat.sub_diag by lia. done. }
  rewrite low_bits by done. destruct (b mod 128 =? 0); [cbn [andb]|done].
  destruct body as [|c body _] using rev_ind; [done|].
  rewrite last_snoc, length_app. cbn [length]. destruct (Z.leb_spec (Z.of_nat (length body + 1) + 1) 1); [lia|]. cbn [orb].
  replace (length body + 1 + 1 - 2)%nat with (length body) by lia.
  replace (((body ++ [c]) ++ [b]) !!! length body) with c.
  2: { symmetry. apply list_lookup_total_correct. rewrite <- app_assoc, lookup_app_r, Nat.sub_diag by lia. done. }
  apply Forall_app in Hbody as [_ Hc]. apply Forall_cons in Hc as [Hc _]. by rewrite sign_bit.
Qed.

(** The serialization of a nonzero number in terms of the bytes of its magnitude. *)
Lemma serialize_spec (n : Z) :
  - 2 ^ 63 < n < 2 ^ 63 -> n <> 0 ->
  exists body b, abs_bytes 8 (Z.abs n) = Some (body ++ [b]) /\ Forall is_u8 (body ++ [b]) /\ b <> 0 /\
    le_val (body ++ [b]) = Z.abs n /\
    CScriptNum_serialize n =
      Some (if b <? 128 then body ++ [if n <? 0 then b + 128 else b] else body ++ [b; if n <? 0 then 128 else 0]).
Proof.
  intros Hn Hne. destruct (abs_bytes_spec 8 (Z.abs n) ltac:(cbn; lia)) as (l & E & Hl & Hval & Hlast & Hlen).
  destruct l as [|b body _] using rev_ind; [cbn in Hval; lia|]. exists body, b.
  assert (b <> 0) as Hb0 by (apply Hlast, last_snoc). do 4 (split; [done|]).
  apply Forall_app in Hl as [_ Hb]. apply Forall_cons in Hb as [Hb _].
  unfold CScriptNum_serialize. rewrite (proj2 (Z.eqb_neq n 0) Hne).
  replace (if n <? 0 then u64 (u64 (Z.lnot (u64 n)) + 1) else u64 n) with (Z.abs n).
  2: { destruct (Z.ltb_spec n 0) as [H|H].
       - unfold u64, Z.lnot. rewrite Zplus_mod_idemp_l. unfold Z.pred. rewrite <- Z.add_assoc. change (-1 + 1) with 0.
         rewrite Z.add_0_r. rewrite <- Z.sub_0_l, Zminus_mod_idemp_r, Z.mod_small; lia.
       - rewrite u64_small by (unfold is_u64; lia). lia. }
  rewrite E. cbn [mbind option_bind]. rewrite last_snoc. cbn [mbind option_bind]. rewrite sign_bit by done.
  unfold is_u8 in Hb. destruct (Z.ltb_spec b 128); cbn [negb]; [|by rewrite <- app_assoc].
  destruct (n <? 0); [|done]. rewrite length_app. cbn [length]. replace (length body + 1 - 1)%nat with (length body + 0)%nat by lia.
  rewrite insert_app_r. cbn. by rewrite set_sign by lia.
Qed.

Lemma CScriptNum_of_serialize (n m : Z) :
  1 <= m <= 7 -> - 2 ^ (8 * m - 1) < n < 2 ^ (8 * m - 1) ->
  exists v, CScriptNum_serialize n = Some v /\ Forall is_u8 v /\ CScriptNum v true m = Some n.
Proof.
  intros Hm Hn. assert (2 ^ (8 * m - 1) <= 2 ^ 55) as Hp by (apply Z.pow_le_mono_r; lia).
  destruct (Z.eq_dec n 0) as [->|Hne].
  { exists []. split; [done|]. split; [constructor|]. unfold CScriptNum. cbn [length]. rewrite Z.gtb_ltb.
    by destruct (Z.ltb_spec m (Z.of_nat 0)); [lia|]. }
  destruct (serialize_spec n ltac:(lia) Hne) as (body & b & _ & Hl & Hb0 & Hval & ->). eexists. split; [reflexivity|].
  pose proof Hl as [Hbody Hb]%Forall_app. apply Forall_cons in Hb as [Hb _]. rewrite le_val_snoc in Hval.
  pose proof (le_val_bound body Hbody) as Hv. unfold is_u8 in Hb.
  set (k := Z.of_nat (length body)) in *. assert (0 < 2 ^ (8 * k)) as Hk by (apply Z.pow_pos_nonneg; lia).
  destruct (Z.ltb_spec b 128) as [H|H].
  - assert (k < m) as Hkm.
    { assert (8 * k < 8 * m - 1); [|lia]. apply (Z.pow_lt_mono_r_iff 2); [lia..|]. nia. }
    assert (is_u8 (if n <? 0 then b + 128 else b)) as Hb' by (unfold is_u8; destruct (n <? 0); lia).
    split; [apply Forall_app; split; [done|by constructor]|].
    rewrite CScriptNum_snoc by (done || lia). fold k. destruct (Z.ltb_spec m (k + 1)); [lia|].
    replace ((if n <? 0 then b + 128 else b) mod 128) with b by (destruct (n <? 0); div_lia).
    rewrite (proj2 (Z.eqb_neq b 0) Hb0). cbn [andb]. rewrite set_vch_spec by (done || lia). fold k. f_equal.
    destruct (Z.ltb_spec n 0); [destruct (Z.ltb_spec (b + 128) 128)|destruct (Z.ltb_spec b 128)]; lia.
  - assert (k + 1 < m) as Hkm.
    { assert (8 * k + 7 < 8 * m - 1); [|lia]. apply (Z.pow_lt_mono_r_iff 2); [lia..|]. rewrite Z.pow_add_r by lia. nia. }
    assert (is_u8 (if n <? 0 then 128 else 0)) as Hb' by (unfold is_u8; destruct (n <? 0); lia).
    replace (body ++ [b; if n <? 0 then 128 else 0]) with ((body ++ [b]) ++ [if n <? 0 then 128 else 0]) by (by rewrite <- app_assoc).
    split; [apply Forall_app; split; [done|by constructor]|].
    rewrite CScriptNum_snoc by (try done; rewrite length_app; cbn; lia). rewrite length_app, last_snoc. cbn [length].
    destruct (Z.ltb_spec m (Z.of_nat (length body + 1) + 1)); [lia|]. destruct (Z.ltb_spec b 128); [lia|]. rewrite andb_false_r.
    rewrite set_vch_spec by (try done; rewrite length_app; cbn; lia). rewrite le_val_snoc. fold k. f_equal.
    destruct (Z.ltb_spec n 0); cbn [Z.ltb Z.compare]; change (128 <? 128) with false; cbn iota; lia.
Qed.

Lemma serialize_of_CScriptNum (v : list Z) (n m : Z) :
  1 <= m <= 7 -> Forall is_u8 v -> CScriptNum v true m = Some n ->
  CScriptNum_serialize n = Some v /\ - 2 ^ (8 * m - 1) < n < 2 ^ (8 * m - 1).
Proof.
  intros Hm Hv Hn. destruct v as [|b body _] using rev_ind.
  { unfold CScriptNum in Hn. cbn [length] in Hn. rewrite Z.gtb_ltb in Hn. destruct (Z.ltb_spec m (Z.of_nat 0)) as [|E]; [done|].
    cbn in Hn. injection Hn as <-. split; [done|].
    assert (0 < 2 ^ (8 * m - 1)) by (apply Z.pow_pos_nonneg; lia). lia. }
  pose proof Hv as [Hbody Hb]%Forall_app. apply Forall_cons in Hb as [Hb _].
  assert (Z.of_nat (length body) + 1 <= m) as Hlen.
  { unfold CScriptNum in Hn. rewrite length_app in Hn. cbn [length] in Hn. rewrite Z.gtb_ltb in Hn.
    destruct (Z.ltb_spec m (Z.of_nat (length body + 1))); [done|lia]. }
  rewrite CScriptNum_snoc in Hn by (done || lia). destruct (Z.ltb_spec m (Z.of_nat (length body) + 1)); [done|].
  destruct (_ && match last body with _ => _ end) eqn:Emin in Hn; [done|]. cbn [andb] in Emin.
  rewrite set_vch_spec in Hn by (done || lia). injection Hn as Hn. unfold is_u8 in Hb.
  pose proof (le_val_bound body Hbody) as Hval. set (k := Z.of_nat (length body)) in *.
  assert (0 < 2 ^ (8 * k)) as Hk by (apply Z.pow_pos_nonneg; lia).
  assert (Z.abs n = le_val body + 2 ^ (8 * k) * (b mod 128)) as Habs.
  { rewrite <- Hn. destruct (Z.ltb_spec b 128); [replace (b mod 128) with b by div_lia|replace (b mod 128) with (b - 128) by div_lia]; nia. }
  assert (2 ^ (8 * k + 7) <= 2 ^ (8 * m - 1)) as Hp by (apply Z.pow_le_mono_r; lia). rewrite Z.pow_add_r in Hp by lia.
  assert (0 <= b mod 128 < 128) as Hb7 by (apply Z.mod_pos_bound; lia).
  assert (Z.abs n < 2 ^ (8 * m - 1)) as Hbound by nia.
  assert (2 ^ (8 * m - 1) <= 2 ^ 55) as Hp2 by (apply Z.pow_le_mono_r; lia).
  split; [|lia].
  assert (Z.abs n <> 0 /\ abs_bytes 8 (Z.abs n) = Some (if b mod 128 =? 0 then body else body ++ [b mod 128])) as [Hne Hbytes].
  { rewrite Habs. destruct (Z.eqb_spec (b mod 128) 0) as [E|E].
    - cbn [andb] in Emin. destruct (last body) as [c|] eqn:El; [|done]. apply Z.ltb_ge in Emin.
      destruct body as [|c' body _] using rev_ind; [done|]. rewrite last_snoc in El. injection El as ->.
      rewrite E, Z.mul_0_r, Z.add_0_r. split.
      + rewrite le_val_snoc. apply Forall_app in Hbody as [Hbody' _]. pose proof (le_val_bound body Hbody').
        assert (0 < 2 ^ (8 * Z.of_nat (length body))) by (apply Z.pow_pos_nonneg; lia). nia.
      + apply abs_bytes_unique; [done| |lia]. intros x Hx. rewrite last_snoc in Hx. injection Hx as <-. lia.
    - rewrite <- le_val_snoc. split; [rewrite le_val_snoc; fold k; nia|]. apply abs_bytes_unique.
      + apply Forall_app. split; [done|]. constructor; [unfold is_u8; lia|done].
      + intros x Hx. rewrite last_snoc in Hx. by injection Hx as <-.
      + rewrite length_app. cbn. lia. }
  destruct (serialize_spec n ltac:(lia) ltac:(lia)) as (body' & b' & Hb1 & _ & _ & _ & ->). rewrite Hbytes in Hb1.
  injection Hb1 as Hb1. f_equal.
  assert ((n <? 0) = negb (b <? 128)) as Hneg.
  { destruct (Z.ltb_spec n 0), (Z.ltb_spec b 128); try done; exfalso; rewrite <- Hn in *; nia. }
  rewrite Hneg. destruct (Z.eqb_spec (b mod 128) 0) as [E|E].
  - subst body. rewrite last_snoc in Emin. cbn [andb] in Emin. rewrite Emin. rewrite <- app_assoc. cbn [app]. do 3 f_equal.
    destruct (Z.ltb_spec b 128); cbn [negb]; div_lia.
  - apply app_inj_tail in Hb1 as [<- <-]. destruct (Z.ltb_spec (b mod 128) 128); [|lia]. do 2 f_equal.
    destruct (Z.ltb_spec b 128); cbn [negb]; div_lia.
Qed.

(** ** Parsing what the builder wrote *)

Lemma le_bytes_2 (x : Z) : exists a b, le_bytes 2 x = [a; b] /\ le_val [a; b] = x mod 2 ^ 16.
Proof. do 2 eexists. split; [reflexivity|]. apply (le_val_le_bytes_mod 2 x). Qed.

Lemma le_bytes_4 (x : Z) : exists a b c d, le_bytes 4 x = [a; b; c; d] /\ le_val [a; b; c; d] = x mod 2 ^ 32.
Proof. do 4 eexists. split; [reflexivity|]. apply (le_val_le_bytes_mod 4 x). Qed.

(** Pushed data is read back, whatever follows. *)
Lemma GetScriptOp_push (data rest : list Z) :
  Z.of_nat (length data) < 2 ^ 32 ->
  exists opcode, GetScriptOp (push_data [] data ++ rest) = mkOp true opcode data rest /\ 0 <= opcode <= OP_PUSHDATA4 /\
    head (push_data [] data) = Some opcode.
Proof.
  intros Hl. unfold push_data. rewrite u32_small by (unfold is_u32; lia). cbn [app].
  assert (forall op pre, 0 <= op <= OP_PUSHDATA4 ->
    push_size op (pre ++ data ++ rest) = Some (Z.of_nat (length data), data ++ rest) ->
    GetScriptOp (op :: pre ++ data ++ rest) = mkOp true op data rest) as Hgen.
  { intros op pre Hop Hp. cbn [GetScriptOp]. destruct (Z.leb_spec op OP_PUSHDATA4); [|lia]. rewrite Hp.
    rewrite length_app. destruct (Z.ltb_spec (Z.of_nat (length data + length rest)) (Z.of_nat (length data))); [lia|].
    by rewrite Nat2Z.id, take_app_length, drop_app_length. }
  unfold AppendDataSize, OP_PUSHDATA1, OP_PUSHDATA2, OP_PUSHDATA4 in *.
  destruct (Z.ltb_spec (Z.of_nat (length data)) 0x4c).
  { exists (Z.of_nat (length data)). unfold u8. rewrite Z.mod_small by lia. cbn [app]. split; [|split; [lia|done]].
    apply (Hgen (Z.of_nat (length data)) []); [lia|]. unfold push_size, OP_PUSHDATA1.
    by destruct (Z.ltb_spec (Z.of_nat (length data)) 0x4c); [|lia]. }
  destruct (Z.leb_spec (Z.of_nat (length data)) 0xff).
  { exists 0x4c. unfold u8. rewrite Z.mod_small by lia. cbn [app]. split; [|split; [lia|done]].
    by apply (Hgen 0x4c [Z.of_nat (length data)]). }
  destruct (Z.leb_spec (Z.of_nat (length data)) 0xffff).
  - destruct (le_bytes_2 (Z.of_nat (length data))) as (a & b & -> & Hv). exists 0x4d. split; [|split; [lia|done]].
    apply (Hgen 0x4d [a; b]); [lia|]. unfold push_size. cbn [app]. change (0x4d <? OP_PUSHDATA1) with false.
    change (0x4d =? OP_PUSHDATA1) with false. change (0x4d =? OP_PUSHDATA2) with true. cbn iota.
    rewrite Hv, Z.mod_small by lia. done.
  - destruct (le_bytes_4 (Z.of_nat (length data))) as (a & b & c & d & -> & Hv). exists 0x4e. split; [|split; [lia|done]].
    apply (Hgen 0x4e [a; b; c; d]); [lia|]. unfold push_size. cbn [app]. change (0x4e <? OP_PUSHDATA1) with false.
    change (0x4e =? OP_PUSHDATA1) with false. change (0x4e =? OP_PUSHDATA2) with false. cbn iota.
    rewrite Hv, Z.mod_small by lia. done.
Qed.

(** ** The loops over a script end *)

Lemma GetScriptOp_rest (pc : list Z) : pc <> [] -> (length (op_rest (GetScriptOp pc)) < length pc)%nat.
Proof.
  destruct pc as [|op pc]; [done|]. intros _. cbn [GetScriptOp length]. destruct (op <=? OP_PUSHDATA4); [|cbn; lia].
  assert (forall n pc', push_size op pc = Some (n, pc') -> (length pc' <= length pc)%nat) as Hs.
  { intros n pc'. unfold push_size. destruct (op <? OP_PUSHDATA1); [intros [= _ ->]; lia|].
    destruct (op =? OP_PUSHDATA1); [destruct pc; [done|intros [= _ <-]; cbn; lia]|].
    destruct (op =? OP_PUSHDATA2); [destruct pc as [|? []]; try done; intros [= _ <-]; cbn; lia|].
    destruct pc as [|? [|? [|? []]]]; try done. intros [= _ <-]. cbn. lia. }
  destruct (push_size op pc) as [[n pc']|]; [|cbn; lia]. specialize (Hs n pc' eq_refl).
  destruct (_ <? n); cbn; rewrite ?length_drop; lia.
Qed.

Lemma GetSigOpCount_loop_bound (fuel : nat) (fAccurate : bool) (pc : list Z) (lastOpcode n : Z) :
  (length pc <= fuel)%nat -> 0 <= n -> n + 20 * Z.of_nat (length pc) < 2 ^ 32 ->
  exists r, GetSigOpCount_loop fuel fAccurate pc lastOpcode n = Some r /\ n <= r <= n + 20 * Z.of_nat (length pc).
Proof.
  revert pc lastOpcode n; induction fuel as [|fuel IH]; intros pc last_op n Hl Hn Hb.
  { destruct pc; [|cbn in Hl; lia]. exists n. split; [done|cbn; lia]. }
  destruct pc as [|x pc']; [exists n; split; [done|cbn; lia]|]. set (pc := x :: pc') in *. cbn [GetSigOpCount_loop].
  change (match pc with [] => Some n | _ => ?y end) with y. pose proof (GetScriptOp_rest pc ltac:(done)) as Hr.
  destruct (op_ok (GetScriptOp pc)); cbn [negb]; [|exists n; split; [done|lia]]. set (op := op_code (GetScriptOp pc)).
  assert (exists k, 0 <= k <= 20 /\
    (if (op =? OP_CHECKSIG) || (op =? OP_CHECKSIGVERIFY) then Some (u32 (n + 1))
     else if (op =? OP_CHECKMULTISIG) || (op =? OP_CHECKMULTISIGVERIFY) then
       if fAccurate && (OP_1 <=? last_op) && (last_op <=? OP_16)
       then k ← DecodeOP_N last_op; Some (u32 (n + k)) else Some (u32 (n + MAX_PUBKEYS_PER_MULTISIG))
     else Some n) = Some (n + k)) as (k & Hk & ->).
  { destruct (_ || _); [exists 1; split; [lia|]; by rewrite u32_small by (unfold is_u32; lia)|].
    destruct (_ || _); [|exists 0; split; [lia|]; f_equal; lia].
    destruct (fAccurate && _ && _) eqn:E.
    - apply andb_true_iff in E as [E E2]. apply andb_true_iff in E as [_ E1]. apply Z.leb_le in E1, E2.
      unfold DecodeOP_N. unfold OP_0, OP_1, OP_16 in *. destruct (Z.eqb_spec last_op 0); [lia|].
      rewrite (proj2 (Z.leb_le 0x51 last_op) E1), (proj2 (Z.leb_le last_op 0x60) E2). cbn [andb mbind option_bind].
      exists (last_op - (0x51 - 1)). split; [lia|]. by rewrite u32_small by (unfold is_u32; lia).
    - exists 20. split; [lia|]. unfold MAX_PUBKEYS_PER_MULTISIG. by rewrite u32_small by (unfold is_u32; lia). }
  cbn [mbind option_bind]. destruct (IH (op_rest (GetScriptOp pc)) op (n + k)) as (r & -> & Hr2); [lia..|].
  exists r. split; [done|lia].
Qed.

Lemma GetSigOpCount_bound (s : CScript) (fAccurate : bool) :
  20 * Z.of_nat (length s) < 2 ^ 32 -> exists r, GetSigOpCount s fAccurate = Some r /\ 0 <= r <= 20 * Z.of_nat (length s).
Proof.
  intros H. destruct (GetSigOpCount_loop_bound (length s) fAccurate s OP_INVALIDOPCODE 0) as (r & E & Hr); [lia..|].
  exists r. split; [exact E|lia].
Qed.

(** ** Properties *)

(** Script numbers have one minimal encoding: for a size limit of one to seven bytes, every number in range is serialized to bytes that
    decode to it under the minimality rule, and every byte vector accepted under that rule is the serialization of the
    number it decodes to, which is in range. *)
Theorem CScriptNum_bijective (m : Z) :
  1 <= m <= 7 ->
  (forall n, - 2 ^ (8 * m - 1) < n < 2 ^ (8 * m - 1) ->
     exists v, CScriptNum_serialize n = Some v /\ Forall is_u8 v /\ CScriptNum v true m = Some n) /\
  (forall v n, Forall is_u8 v -> CScriptNum v true m = Some n ->
     CScriptNum_serialize n = Some v /\ - 2 ^ (8 * m - 1) < n < 2 ^ (8 * m - 1)).
Proof.
  intros Hm. split; [intros n Hn; by apply CScriptNum_of_serialize|]. intros v n Hv Hn. by apply serialize_of_CScriptNum.
Qed.

Lemma CScriptNum_bijective_witness : exists v, CScriptNum_serialize (-255) = Some v /\ CScriptNum v true 4 = Some (-255).
Proof.
  destruct (CScriptNum_bijective 4) as [H _]; [lia|]. destruct (H (-255)) as (v & H1 & _ & H2); [lia|]. by exists v.
Defined.
