(* ===== verification/TxCheck.v ===== *)
(** * Context-free transaction checks: src/src/consensus/tx_check.cpp *)

From S2P Require Import Prelude ValidationState Serialize ArithUint256 Chain Params Subsidy Transaction.
#[local] Open Scope Z_scope.

(** src/src/consensus/consensus.h *)
Definition MAX_BLOCK_WEIGHT : Z := 4000000.
Definition WITNESS_SCALE_FACTOR : Z := 4.
Definition COINBASE_MATURITY : Z := 100.

(** ** Operations *)

(** The loop over the outputs; the reason of the first failure, or the total. *)
Fixpoint check_outputs (outs : list CTxOut) (nValueOut : Z) : string + Z :=
  match outs with
  | [] => inr nValueOut
  | txout :: outs' =>
      if nValue txout <? 0 then inl "bad-txns-vout-negative"
      else if nValue txout >? MAX_MONEY then inl "bad-txns-vout-toolarge"
      else
        let nValueOut := nValueOut + nValue txout in
        if negb (MoneyRange nValueOut) then inl "bad-txns-txouttotal-toolarge"
        else check_outputs outs' nValueOut
  end.

(** [std::set<COutPoint>] insertion of every input. *)
Fixpoint check_duplicates (ins : list CTxIn) (vInOutPoints : gset COutPoint) : bool :=
  match ins with
  | [] => true
  | txin :: ins' =>
      if bool_decide (prevout txin ∈ vInOutPoints) then false
      else check_duplicates ins' ({[prevout txin]} ∪ vInOutPoints)
  end.

(** [CheckTransaction] *)
Definition CheckTransaction (tx : CTransaction) (state : TxValidationState) : bool * TxValidationState :=
  let invalid reason := Invalid state TX_CONSENSUS reason EmptyString in
  if bool_decide (vin tx = []) then invalid "bad-txns-vin-empty"
  else if bool_decide (vout tx = []) then invalid "bad-txns-vout-empty"
  else if GetSerializeSize false tx * WITNESS_SCALE_FACTOR >? MAX_BLOCK_WEIGHT
  then invalid "bad-txns-oversize"
  else
  match check_outputs (vout tx) 0 with
  | inl reason => invalid reason
  | inr _ =>
      if negb (check_duplicates (vin tx) ∅) then invalid "bad-txns-inputs-duplicate"
      else if IsCoinBase tx then
        match vin tx with
        | i :: _ =>
            if (Z.of_nat (length (scriptSig i)) <? 2) || (Z.of_nat (length (scriptSig i)) >? 100)
            then invalid "bad-cb-length" else (true, state)
        | [] => (true, state)
        end
      else if existsb (fun i => COutPoint_IsNull (prevout i)) (vin tx)
      then invalid "bad-txns-prevout-null"
      else (true, state)
  end.

(** ** Specification *)

(** What the check demands, without the order in which it looks. *)
Record tx_checked (tx : CTransaction) : Prop := mkChecked {
  ck_vin : vin tx <> [];
  ck_vout : vout tx <> [];
  ck_size : GetSerializeSize false tx * WITNESS_SCALE_FACTOR <= MAX_BLOCK_WEIGHT;
  ck_values : Forall (fun o => 0 <= nValue o) (vout tx) /\ sum_values (vout tx) <= MAX_MONEY;
  ck_inputs : NoDup (map prevout (vin tx));
  ck_coinbase : IsCoinBase tx = true -> Forall (fun i => 2 <= Z.of_nat (length (scriptSig i)) <= 100) (vin tx);
  ck_prevouts : IsCoinBase tx = false -> Forall (fun i => COutPoint_IsNull (prevout i) = false) (vin tx)
}.

Lemma sum_values_nonneg (l : list CTxOut) : Forall (fun o => 0 <= nValue o) l -> 0 <= sum_values l.
Proof. induction 1 as [|o l Ho _ IH]; [done|]. cbn. change (foldr _ 0 l) with (sum_values l). lia. Qed.

Lemma check_outputs_spec (outs : list CTxOut) (acc : Z) : 0 <= acc <= MAX_MONEY ->
  match check_outputs outs acc with
  | inr v => Forall (fun o => 0 <= nValue o) outs /\ v = acc + sum_values outs /\ v <= MAX_MONEY
  | inl _ => ~ (Forall (fun o => 0 <= nValue o) outs /\ acc + sum_values outs <= MAX_MONEY)
  end.
Proof.
  revert acc; induction outs as [|o outs IH]; intros acc Ha; cbn [check_outputs sum_values foldr].
  { rewrite Z.add_0_r. split; [constructor|]. lia. }
  change (foldr _ 0 outs) with (sum_values outs).
  assert (Hnn : Forall (fun o => 0 <= nValue o) outs -> 0 <= sum_values outs) by apply sum_values_nonneg.
  destruct (Z.ltb_spec (nValue o) 0) as [H1|H1]; [intros [Hf _]; apply Forall_cons in Hf as [Hf _]; lia|].
  rewrite Z.gtb_ltb. destruct (Z.ltb_spec MAX_MONEY (nValue o)) as [H2|H2].
  { intros [Hf H]. apply Forall_cons in Hf as [_ Hf]. specialize (Hnn Hf). lia. }
  destruct (MoneyRange (acc + nValue o)) eqn:Em; cbn [negb].
  - apply MoneyRange_iff in Em. specialize (IH (acc + nValue o) Em).
    assert (acc + (nValue o + sum_values outs) = acc + nValue o + sum_values outs) as -> by lia.
    destruct (check_outputs outs (acc + nValue o)) as [r|v].
    + intros [Hf H]. apply Forall_cons in Hf as [_ Hf]. tauto.
    + split; [|tauto]. constructor; tauto.
  - intros [Hf H]. apply Forall_cons in Hf as [_ Hf]. specialize (Hnn Hf).
    assert (MoneyRange (acc + nValue o) = true) by (apply MoneyRange_iff; lia). congruence.
Qed.

Lemma check_duplicates_spec (ins : list CTxIn) (seen : gset COutPoint) :
  check_duplicates ins seen = true <->
  NoDup (map prevout ins) /\ Forall (fun i => prevout i ∉ seen) ins.
Proof.
  revert seen; induction ins as [|i ins IH]; intros seen; cbn [check_duplicates map].
  { split; [split; constructor|done]. }
  rewrite NoDup_cons, Forall_cons. case_bool_decide as Hin; [split; [done|tauto]|]. rewrite IH.
  split.
  - intros [Hn Hf]. rewrite Forall_forall in Hf. split; [split; [|done]|split; [done|]].
    + intros H. apply list_elem_of_fmap in H as (j & Hj & Hj2). specialize (Hf j Hj2). set_solver.
    + apply Forall_forall. intros j Hj. specialize (Hf j Hj). set_solver.
  - intros [[Hi Hn] [_ Hf]]. split; [done|]. rewrite Forall_forall in Hf |- *. intros j Hj.
    specialize (Hf j Hj). apply not_elem_of_union. split; [|done]. rewrite elem_of_singleton. intros E.
    apply Hi. rewrite <- E. by apply list_elem_of_fmap_2.
Qed.

(** A rejecting branch of the check. *)
Ltac tx_reject := split; [split; [discriminate|intros Hck; exfalso; revert Hck]|by eexists _, _, _].

Lemma CheckTransaction_spec (tx : CTransaction) (state : TxValidationState) :
  (fst (CheckTransaction tx state) = true <-> tx_checked tx) /\
  (if fst (CheckTransaction tx state) then snd (CheckTransaction tx state) = state
   else exists r reason debug, CheckTransaction tx state = Invalid state r reason debug).
Proof.
  unfold CheckTransaction. case_bool_decide as Hvin; [tx_reject; by intros []|].
  case_bool_decide as Hvout; [tx_reject; by intros []|].
  rewrite Z.gtb_ltb. destruct (Z.ltb_spec MAX_BLOCK_WEIGHT (GetSerializeSize false tx * WITNESS_SCALE_FACTOR)) as [Hsz|Hsz];
    [tx_reject; intros []; lia|].
  pose proof (check_outputs_spec (vout tx) 0 ltac:(done)) as Ho. destruct (check_outputs (vout tx) 0) as [reason|v].
  { tx_reject. intros [_ _ _ Hv _ _ _]. apply Ho. rewrite Z.add_0_l. tauto. }
  assert (Hval : Forall (fun o => 0 <= nValue o) (vout tx) /\ sum_values (vout tx) <= MAX_MONEY) by (destruct Ho as (? & ? & ?); split; [done|lia]).
  pose proof (check_duplicates_spec (vin tx) ∅) as Hd. destruct (check_duplicates (vin tx) ∅); cbn [negb].
  2: { tx_reject. intros [_ _ _ _ Hn _ _]. cut (false = true); [done|]. apply Hd. split; [done|].
       apply Forall_forall. intros. set_solver. }
  destruct (proj1 Hd eq_refl) as [Hn _]. destruct (IsCoinBase tx) eqn:Hcb.
  - assert (exists i, vin tx = [i]) as [i Hi].
    { unfold IsCoinBase in Hcb. destruct (vin tx) as [|i [|]]; try done. by exists i. }
    rewrite Hi, Z.gtb_ltb. destruct ((Z.of_nat (length (scriptSig i)) <? 2) || _) eqn:El.
    + tx_reject. intros [_ _ _ _ _ Hc _]. specialize (Hc Hcb). rewrite Hi in Hc. apply Forall_cons in Hc as [Hc _].
      apply orb_true_iff in El. rewrite !Z.ltb_lt in El. lia.
    + apply orb_false_iff in El. rewrite !Z.ltb_ge in El. split; [|done]. split; [|done]. intros _.
      constructor; try done; [|congruence]. intros _. rewrite Hi. constructor; [lia|constructor].
  - destruct (existsb (fun i => COutPoint_IsNull (prevout i)) (vin tx)) eqn:Ex.
    + tx_reject. intros [_ _ _ _ _ _ Hp]. apply existsb_false_Forall in Hp; [|done]. congruence.
    + split; [|done]. split; [|done]. intros _. constructor; try done; [congruence|].
      intros _. by apply existsb_false_Forall.
Qed.

(** The output value of a checked transaction is the plain sum. *)
Lemma tx_checked_value (tx : CTransaction) : tx_checked tx -> GetValueOut tx = Some (sum_values (vout tx)).
Proof.
  intros [_ _ _ [Hv Hs] _ _ _]. apply GetValueOut_spec. rewrite CalculateOutputValue_sum. pose proof (sum_values_nonneg _ Hv). split; [|lia].
  clear -Hv Hs. induction Hv as [|o l Ho Hl IH]; [constructor|]. cbn in Hs. change (foldr _ 0 l) with (sum_values l) in Hs.
  pose proof (sum_values_nonneg _ Hl). constructor; [apply MoneyRange_iff; lia|]. apply IH. lia.
Qed.

(** ** Properties *)

(** C30: [CheckTransaction] returns [true], leaving the state alone, exactly for transactions
    with inputs and outputs, of at most the block weight, with non-negative outputs that
    sum to at most [MAX_MONEY], without a repeated input, with a coinbase script of 2
    to 100 bytes or, if it is no coinbase, without null inputs; otherwise it
    returns what [Invalid] returns. Accepted transactions have a defined [GetValueOut]. *)
Theorem CheckTransaction_decides (tx : CTransaction) (state : TxValidationState) :
  (fst (CheckTransaction tx state) = true <-> tx_checked tx) /\
  (if fst (CheckTransaction tx state) then snd (CheckTransaction tx state) = state
   else exists r reason debug, CheckTransaction tx state = Invalid state r reason debug) /\
  (fst (CheckTransaction tx state) = true -> GetValueOut tx = Some (CalculateOutputValue tx)).
Proof.
  destruct (CheckTransaction_spec tx state) as [H1 H2]. split; [done|]. split; [done|].
  intros E. rewrite CalculateOutputValue_sum. by apply tx_checked_value, H1.
Qed.
