(* ===== verification/Coins.v ===== *)
(** * The coins cache: src/src/coins.h and src/src/coins.cpp

    [CCoinsViewCache] over an arbitrary backing view. A view is the class
    [CoinsView] (the virtual methods of [CCoinsView]); [LawfulView] states what a
    cache relies on, and the cache is shown to be lawful again, so that the
    results hold for any stack of caches over a lawful database.

    The cache is a map of entries with the DIRTY and FRESH flags, the linked list of
    flagged entries in order, the best block and the memory counter (64 bits wide).
    The backing view is only reached through the cache, so it is
    part of the cache's state. [None] is a failed assertion or a thrown
    [std::logic_error]. *)

From S2P Require Import Prelude Serialize ArithUint256 Chain Params Subsidy Transaction Script.

(** ** Coins *)

Record Coin := mkCoin { out : CTxOut; fCoinBase : bool; coin_nHeight : Z }.

#[export] Instance Coin_eq_dec : EqDecision Coin.
Proof. solve_decision. Defined.

Definition IsSpent (c : Coin) : bool := CTxOut_IsNull (out c).

(** [Coin::Clear] and [coinEmpty] *)
Definition coinEmpty : Coin := mkCoin CTxOut_SetNull false 0.

(** [memusage::MallocUsage] on a 64-bit machine *)
Definition MallocUsage (alloc : Z) : Z :=
  if alloc =? 0 then 0 else Z.shiftl (Z.shiftr (alloc + 31) 4) 4.

(** [Coin::DynamicMemoryUsage]: scripts of up to 36 bytes are stored in place; the
    capacity of a longer one is taken to be its size. *)
Definition DynamicMemoryUsage (c : Coin) : Z :=
  let n := Z.of_nat (length (scriptPubKey (out c))) in
  MallocUsage (if n <=? 36 then 0 else n).

(** [CCoinsCacheEntry]: the coin and the two flags. *)
Record CCoinsCacheEntry := mkEntry { coin : Coin; IsDirty : bool; IsFresh : bool }.

(** ** Views *)

(** The virtual methods of [CCoinsView] that a cache calls; a cursor is the list of the
    flagged entries, and [None] a thrown exception. *)
Class CoinsView (B : Type) := {
  base_GetCoin : B -> COutPoint -> B * option Coin;
  base_GetBestBlock : B -> B * uint256;
  base_BatchWrite : B -> list (COutPoint * CCoinsCacheEntry) -> uint256 -> option (bool * B)
}.

Record CCoinsViewCache (B : Type) := mkCache {
  base : B;
  hashBlock : uint256;
  m_flagged : list COutPoint;
  cacheCoins : gmap COutPoint CCoinsCacheEntry;
  cachedCoinsUsage : Z
}.
Arguments mkCache {B}.
Arguments base {B}.
Arguments hashBlock {B}.
Arguments m_flagged {B}.
Arguments cacheCoins {B}.
Arguments cachedCoinsUsage {B}.

Section Cache.

Context {B : Type} `{CoinsView B}.
Abbreviation cache := (CCoinsViewCache B).

(** ** Operations *)

(** Updates of single members. *)
Definition set_base (c : cache) (b : B) : cache :=
  mkCache b (hashBlock c) (m_flagged c) (cacheCoins c) (cachedCoinsUsage c).
Definition set_hashBlock (c : cache) (h : uint256) : cache :=
  mkCache (base c) h (m_flagged c) (cacheCoins c) (cachedCoinsUsage c).
Definition set_usage (c : cache) (u : Z) : cache :=
  mkCache (base c) (hashBlock c) (m_flagged c) (cacheCoins c) (u64 u).

(** Stores an entry; it is linked at the tail of the list when its first flag is set
    ([CCoinsCacheEntry::AddFlags]). *)
Definition put (c : cache) (o : COutPoint) (e : CCoinsCacheEntry) : cache :=
  let was := match cacheCoins c !! o with Some e0 => IsDirty e0 || IsFresh e0 | None => false end in
  mkCache (base c) (hashBlock c)
    (if negb was && (IsDirty e || IsFresh e) then m_flagged c ++ [o] else m_flagged c)
    (<[o := e]> (cacheCoins c)) (cachedCoinsUsage c).

(** [cacheCoins.erase]: the destructor of the entry unlinks it. *)
Definition erase (c : cache) (o : COutPoint) : cache :=
  mkCache (base c) (hashBlock c) (filter (fun p => p <> o) (m_flagged c)) (delete o (cacheCoins c)) (cachedCoinsUsage c).

(** [SetClean] *)
Definition clean (c : cache) (o : COutPoint) (e : CCoinsCacheEntry) : cache :=
  mkCache (base c) (hashBlock c) (filter (fun p => p <> o) (m_flagged c))
    (<[o := mkEntry (coin e) false false]> (cacheCoins c)) (cachedCoinsUsage c).

(** [FetchCoin]: the entry the iterator points to, or [None] for [end()]. *)
Definition FetchCoin (c : cache) (o : COutPoint) : cache * option CCoinsCacheEntry :=
  match cacheCoins c !! o with
  | Some e => (c, Some e)
  | None =>
      let '(b, r) := base_GetCoin (base c) o in
      let c := set_base c b in
      match r with
      | Some cn =>
          let c := set_usage c (cachedCoinsUsage c + DynamicMemoryUsage cn) in
          let e := mkEntry cn false (IsSpent cn) in
          (put c o e, Some e)
      | None => (c, None)
      end
  end.

(** [GetCoin] *)
Definition GetCoin (c : cache) (o : COutPoint) : cache * option Coin :=
  let '(c, it) := FetchCoin c o in
  (c, match it with Some e => if IsSpent (coin e) then None else Some (coin e) | None => None end).

(** [HaveCoin] *)
Definition HaveCoin (c : cache) (o : COutPoint) : cache * bool :=
  let '(c, it) := FetchCoin c o in
  (c, match it with Some e => negb (IsSpent (coin e)) | None => false end).

(** [HaveCoinInCache] *)
Definition HaveCoinInCache (c : cache) (o : COutPoint) : bool :=
  match cacheCoins c !! o with Some e => negb (IsSpent (coin e)) | None => false end.

(** [AccessCoin] *)
Definition AccessCoin (c : cache) (o : COutPoint) : cache * Coin :=
  let '(c, it) := FetchCoin c o in
  (c, match it with Some e => coin e | None => coinEmpty end).

(** [AddCoin] *)
Definition AddCoin (c : cache) (o : COutPoint) (cn : Coin) (possible_overwrite : bool) : option cache :=
  if IsSpent cn then None
  else if IsUnspendable (scriptPubKey (out cn)) then Some c
  else
    let found := cacheCoins c !! o in
    let e := default (mkEntry coinEmpty false false) found in
    if negb possible_overwrite && negb (IsSpent (coin e)) then None
    else
      let fresh := negb possible_overwrite && negb (IsDirty e) in
      let usage := match found with
                   | Some _ => cachedCoinsUsage c - DynamicMemoryUsage (coin e)
                   | None => cachedCoinsUsage c
                   end in
      let c := put c o (mkEntry cn true (IsFresh e || fresh)) in
      Some (set_usage c (usage + DynamicMemoryUsage cn)).

(** [EmplaceCoinInternalDANGER] *)
Definition EmplaceCoinInternalDANGER (c : cache) (o : COutPoint) (cn : Coin) : cache :=
  match cacheCoins c !! o with
  | Some _ => c
  | None => set_usage (put c o (mkEntry cn true false)) (cachedCoinsUsage c + DynamicMemoryUsage cn)
  end.

(** [SpendCoin]: the return value and [*moveout]. *)
Definition SpendCoin (c : cache) (o : COutPoint) : cache * option Coin :=
  let '(c, it) := FetchCoin c o in
  match it with
  | None => (c, None)
  | Some e =>
      let c := set_usage c (cachedCoinsUsage c - DynamicMemoryUsage (coin e)) in
      (if IsFresh e then erase c o else put c o (mkEntry coinEmpty true (IsFresh e)), Some (coin e))
  end.

(** [GetBestBlock] *)
Definition GetBestBlock (c : cache) : cache * uint256 :=
  if hashBlock c =? 0 then
    let '(b, h) := base_GetBestBlock (base c) in (set_hashBlock (set_base c b) h, h)
  else (c, hashBlock c).

(** [SetBestBlock] *)
Definition SetBestBlock (c : cache) (h : uint256) : cache := set_hashBlock c h.

(** One entry of [BatchWrite]. *)
Definition BatchWrite_entry (c : cache) (o : COutPoint) (e : CCoinsCacheEntry) : option cache :=
  if negb (IsDirty e) then Some c
  else
    match cacheCoins c !! o with
    | None =>
        if IsFresh e && IsSpent (coin e) then Some c
        else Some (set_usage (put c o (mkEntry (coin e) true (IsFresh e)))
                     (cachedCoinsUsage c + DynamicMemoryUsage (coin e)))
    | Some us =>
        if IsFresh e && negb (IsSpent (coin us)) then None
        else
          let c := set_usage c (cachedCoinsUsage c - DynamicMemoryUsage (coin us)) in
          if IsFresh us && IsSpent (coin e) then Some (erase c o)
          else Some (set_usage (put c o (mkEntry (coin e) true (IsFresh us)))
                       (cachedCoinsUsage c + DynamicMemoryUsage (coin e)))
    end.

(** [BatchWrite] *)
Fixpoint BatchWrite_loop (c : cache) (entries : list (COutPoint * CCoinsCacheEntry)) : option cache :=
  match entries with
  | [] => Some c
  | (o, e) :: entries' => c ← BatchWrite_entry c o e; BatchWrite_loop c entries'
  end.
Definition BatchWrite (c : cache) (entries : list (COutPoint * CCoinsCacheEntry)) (h : uint256)
  : option (bool * cache) :=
  c ← BatchWrite_loop c entries; Some (true, set_hashBlock c h).

(** What a [CoinsViewCacheCursor] visits. *)
Definition cursor (c : cache) : list (COutPoint * CCoinsCacheEntry) :=
  omap (fun o => e ← cacheCoins c !! o; Some (o, e)) (m_flagged c).

(** [Flush]; reallocating the map is not observable. *)
Definition Flush (c : cache) : option (bool * cache) :=
  '(ok, b) ← base_BatchWrite (base c) (cursor c) (hashBlock c);
  Some (ok, if (ok : bool) then mkCache b (hashBlock c) [] ∅ 0 else set_base c b).

(** [NextAndMaybeErase] of a cursor that does not erase. *)
Definition NextAndMaybeErase (c : cache) (o : COutPoint) : option cache :=
  e ← cacheCoins c !! o;
  if IsSpent (coin e) then
    if DynamicMemoryUsage (coin e) =? 0 then Some (erase c o) else None
  else Some (clean c o e).
Fixpoint cursor_loop (c : cache) (keys : list COutPoint) : option cache :=
  match keys with
  | [] => Some c
  | o :: keys' => c ← NextAndMaybeErase c o; cursor_loop c keys'
  end.

(** [Sync] *)
Definition Sync (c : cache) : option (bool * cache) :=
  '(ok, b) ← base_BatchWrite (base c) (cursor c) (hashBlock c);
  if (ok : bool) then
    c ← cursor_loop (set_base c b) (m_flagged c);
    if bool_decide (m_flagged c = []) then Some (true, c) else None
  else Some (false, set_base c b).

(** [Uncache] *)
Definition Uncache (c : cache) (o : COutPoint) : cache :=
  match cacheCoins c !! o with
  | Some e =>
      if negb (IsDirty e) && negb (IsFresh e)
      then erase (set_usage c (cachedCoinsUsage c - DynamicMemoryUsage (coin e))) o else c
  | None => c
  end.

(** [GetCacheSize] *)
Definition GetCacheSize (c : cache) : Z := Z.of_nat (size (cacheCoins c)).

(** The loop of [HaveInputs]. *)
Fixpoint HaveInputs_loop (c : cache) (ins : list CTxIn) : cache * bool :=
  match ins with
  | [] => (c, true)
  | i :: ins' => let '(c, have) := HaveCoin c (prevout i) in
                 if negb have then (c, false) else HaveInputs_loop c ins'
  end.

(** [HaveInputs] *)
Definition HaveInputs (c : cache) (tx : CTransaction) : cache * bool :=
  if negb (IsCoinBase tx) then HaveInputs_loop c (vin tx) else (c, true).

(** The loop of [AddCoins] from output [i] on. *)
Fixpoint AddCoins_loop (c : cache) (txid : uint256) (fCoinbase check : bool) (nHeight : Z)
    (i : nat) (outs : list CTxOut) : option cache :=
  match outs with
  | [] => Some c
  | o :: outs' =>
      let op := mkOutPoint txid (Z.of_nat i) in
      let '(c, overwrite) := if check then HaveCoin c op else (c, fCoinbase) in
      c ← AddCoin c op (mkCoin o fCoinbase nHeight) overwrite;
      AddCoins_loop c txid fCoinbase check nHeight (S i) outs'
  end.

(** [AddCoins]; [txid] is [tx.GetHash()]. *)
Definition AddCoins (c : cache) (txid : uint256) (tx : CTransaction) (nHeight : Z) (check : bool) : option cache :=
  AddCoins_loop c txid (IsCoinBase tx) check nHeight 0 (vout tx).

(** The loop of [AccessByTxid] from output [n] on, at most [fuel] outputs. *)
Fixpoint AccessByTxid_loop (fuel : nat) (c : cache) (txid : uint256) (n : Z) : cache * Coin :=
  match fuel with
  | O => (c, coinEmpty)
  | S fuel' =>
      let '(c, alternate) := AccessCoin c (mkOutPoint txid n) in
      if negb (IsSpent alternate) then (c, alternate) else AccessByTxid_loop fuel' c txid (n + 1)
  end.

(** [AccessByTxid]: [MAX_OUTPUTS_PER_BLOCK] is 4000000 / (4 * 9). *)
Definition AccessByTxid (c : cache) (txid : uint256) : cache * Coin :=
  AccessByTxid_loop (Z.to_nat (4000000 / (4 * 9))) c txid 0.

(** [SanityCheck]: whether all its assertions hold. *)
Definition SanityCheck (c : cache) : bool :=
  forallb (fun x : COutPoint * CCoinsCacheEntry =>
    let attr := Z.lor (Z.lor (if IsDirty x.2 then 1 else 0) (if IsFresh x.2 then 2 else 0))
                      (if IsSpent (coin x.2) then 4 else 0) in
    negb (attr =? 2) && negb (attr =? 4) && negb (attr =? 7)) (map_to_list (cacheCoins c)) &&
  forallb (fun o => match cacheCoins c !! o with Some e => IsDirty e || IsFresh e | None => false end) (m_flagged c) &&
  (Z.of_nat (length (m_flagged c)) =?
   Z.of_nat (length (filter (fun x => IsDirty x.2 || IsFresh x.2) (map_to_list (cacheCoins c))))) &&
  (u64 (foldr (fun x acc => DynamicMemoryUsage (coin x.2) + acc) 0 (map_to_list (cacheCoins c)))
   =? cachedCoinsUsage c).

End Cache.

(** ** What a view promises *)

(** The value an entry stands for. *)
Definition unspent (c : Coin) : option Coin := if IsSpent c then None else Some c.

(** A set of coins after one entry of a batch. *)
Definition apply_entry (f : COutPoint -> option Coin) (x : COutPoint * CCoinsCacheEntry) (o : COutPoint) : option Coin :=
  if IsDirty x.2 && bool_decide (o = x.1) then unspent (coin x.2) else f o.
Definition apply_entries (f : COutPoint -> option Coin) (l : list (COutPoint * CCoinsCacheEntry)) : COutPoint -> option Coin :=
  fold_left apply_entry l f.

(** Batches a cache may write: one entry per outpoint, FRESH only where the receiver has no
    coin, and spent coins cleared. *)
Definition entries_ok (f : COutPoint -> option Coin) (l : list (COutPoint * CCoinsCacheEntry)) : Prop :=
  NoDup (map fst l) /\
  Forall (fun x => (IsFresh x.2 = true -> f x.1 = None) /\
                   (IsSpent (coin x.2) = true -> scriptPubKey (out (coin x.2)) = [])) l.

(** The set of unspent coins a view represents, and how its methods act on it. *)
Class LawfulView (B : Type) `{CoinsView B} := {
  view_inv : B -> Prop;
  view_coin : B -> COutPoint -> option Coin;
  view_best : B -> uint256;
  lv_unspent : forall b o c, view_inv b -> view_coin b o = Some c -> IsSpent c = false;
  lv_GetCoin : forall b o, view_inv b ->
    let '(b', r) := base_GetCoin b o in
    view_inv b' /\ r = view_coin b o /\ (forall o', view_coin b' o' = view_coin b o') /\ view_best b' = view_best b;
  lv_GetBestBlock : forall b, view_inv b ->
    let '(b', h) := base_GetBestBlock b in
    view_inv b' /\ h = view_best b /\ (forall o', view_coin b' o' = view_coin b o') /\ view_best b' = view_best b;
  lv_BatchWrite : forall b l h, view_inv b -> entries_ok (view_coin b) l -> h <> 0 ->
    exists b', base_BatchWrite b l h = Some (true, b') /\ view_inv b' /\ view_best b' = h /\
      forall o, view_coin b' o = apply_entries (view_coin b) l o
}.

(** ** Invariant of the cache *)

Definition flagged (e : CCoinsCacheEntry) : bool := IsDirty e || IsFresh e.

(** An entry against the coin its parent has: a FRESH coin is not in the parent, an entry
    that is not DIRTY agrees with it, only five flag combinations occur, and a spent coin is cleared. *)
Definition entry_inv (parent : option Coin) (e : CCoinsCacheEntry) : Prop :=
  (IsFresh e = true -> parent = None) /\
  (IsDirty e = false -> unspent (coin e) = parent) /\
  (if IsSpent (coin e) then xorb (IsDirty e) (IsFresh e) = true else IsFresh e = true -> IsDirty e = true) /\
  (IsSpent (coin e) = true -> scriptPubKey (out (coin e)) = []).

Definition total_usage (m : gmap COutPoint CCoinsCacheEntry) : Z :=
  map_fold (fun _ e acc => DynamicMemoryUsage (coin e) + acc) 0 m.

Record cache_inv {B : Type} `{LawfulView B} (c : CCoinsViewCache B) : Prop := mkCacheInv {
  ci_base : view_inv (base c);
  ci_entry : forall o e, cacheCoins c !! o = Some e -> entry_inv (view_coin (base c) o) e;
  ci_nodup : NoDup (m_flagged c);
  ci_flagged : forall o, o ∈ m_flagged c <-> exists e, cacheCoins c !! o = Some e /\ flagged e = true;
  ci_usage : cachedCoinsUsage c = u64 (total_usage (cacheCoins c))
}.

(** The coins a cache represents: its own entries over those of the view below. *)
Definition cache_coin {B : Type} `{LawfulView B} (c : CCoinsViewCache B) (o : COutPoint) : option Coin :=
  match cacheCoins c !! o with Some e => unspent (coin e) | None => view_coin (base c) o end.

Definition cache_best {B : Type} `{LawfulView B} (c : CCoinsViewCache B) : uint256 :=
  if hashBlock c =? 0 then view_best (base c) else hashBlock c.

Lemma total_usage_insert (m : gmap COutPoint CCoinsCacheEntry) (o : COutPoint) (e : CCoinsCacheEntry) :
  m !! o = None -> total_usage (<[o := e]> m) = DynamicMemoryUsage (coin e) + total_usage m.
Proof. intros Hn. unfold total_usage. rewrite map_fold_insert_L; [done| |done]. intros. lia. Qed.

Lemma total_usage_delete (m : gmap COutPoint CCoinsCacheEntry) (o : COutPoint) (e : CCoinsCacheEntry) :
  m !! o = Some e -> total_usage (delete o m) = total_usage m - DynamicMemoryUsage (coin e).
Proof.
  intros He. unfold total_usage. rewrite (map_fold_delete_L _ _ o e m); [lia| |done]. intros. lia.
Qed.

(** Memory charged to the entry at [o], if any. *)
Definition old_usage (m : gmap COutPoint CCoinsCacheEntry) (o : COutPoint) : Z :=
  match m !! o with Some e => DynamicMemoryUsage (coin e) | None => 0 end.

Lemma total_usage_put (m : gmap COutPoint CCoinsCacheEntry) (o : COutPoint) (e : CCoinsCacheEntry) :
  total_usage (<[o := e]> m) = total_usage m - old_usage m o + DynamicMemoryUsage (coin e).
Proof.
  unfold old_usage. destruct (m !! o) as [e0|] eqn:E.
  - rewrite <- insert_delete_eq, total_usage_insert by apply lookup_delete_eq.
    rewrite (total_usage_delete m o e0 E). lia.
  - rewrite total_usage_insert by done. lia.
Qed.

Lemma total_usage_erase (m : gmap COutPoint CCoinsCacheEntry) (o : COutPoint) :
  total_usage (delete o m) = total_usage m - old_usage m o.
Proof.
  unfold old_usage. destruct (m !! o) as [e0|] eqn:E; [by apply total_usage_delete|].
  rewrite delete_id by done. lia.
Qed.

Lemma u64_idemp (a b : Z) : u64 (u64 a + b) = u64 (a + b).
Proof. unfold u64. by rewrite Zplus_mod_idemp_l. Qed.

Lemma u64_idemp_sub (a b : Z) : u64 (u64 a - b) = u64 (a - b).
Proof. unfold u64. by rewrite Zminus_mod_idemp_l. Qed.

Section Proofs.

Context {B : Type} {HV : CoinsView B} {HL : LawfulView B}.
Abbreviation cache := (CCoinsViewCache B).

Lemma put_flagged (c : cache) (o : COutPoint) (e : CCoinsCacheEntry) :
  cache_inv c -> (forall e0, cacheCoins c !! o = Some e0 -> flagged e0 = true -> flagged e = true) ->
  NoDup (m_flagged (put c o e)) /\
  forall o', o' ∈ m_flagged (put c o e) <-> exists e', <[o := e]> (cacheCoins c) !! o' = Some e' /\ flagged e' = true.
Proof.
  intros [_ _ Hnd Hfl _] Hkeep. unfold put. cbn [m_flagged]. fold (flagged e).
  set (was := match cacheCoins c !! o with Some e0 => _ | None => false end).
  assert (Hwas : was = true <-> o ∈ m_flagged c).
  { rewrite Hfl. subst was. destruct (cacheCoins c !! o) as [e0|]; split.
    - intros E. eauto.
    - intros (e1 & [= <-] & E). done.
    - done.
    - by intros (e1 & E & _). }
  assert (Hne : forall o', o' <> o -> (o' ∈ m_flagged c <-> exists e', <[o := e]> (cacheCoins c) !! o' = Some e' /\ flagged e' = true)).
  { intros o' Ho. rewrite lookup_insert_ne by done. apply Hfl. }
  assert (Heq : (exists e', <[o := e]> (cacheCoins c) !! o = Some e' /\ flagged e' = true) <-> flagged e = true).
  { rewrite lookup_insert_eq. split; [by intros (e' & [= <-] & E)|eauto]. }
  destruct was eqn:Ew; cbn [negb andb].
  - split; [done|]. intros o'. destruct (decide (o' = o)) as [->|Ho]; [|by apply Hne].
    rewrite Heq. split; [|intros _; by apply Hwas]. intros Hin. apply Hfl in Hin as (e0 & H0 & H1). by apply (Hkeep e0).
  - assert (Hnot : o ∉ m_flagged c) by (intros Hin; apply Hwas in Hin; done).
    destruct (flagged e) eqn:Ef.
    + split; [apply NoDup_app; split; [done|]; split; [|apply NoDup_singleton]; intros x Hx; rewrite list_elem_of_singleton; congruence|].
      intros o'. rewrite elem_of_app, list_elem_of_singleton. destruct (decide (o' = o)) as [->|Ho].
      * rewrite Heq. tauto.
      * rewrite <- Hne by done. tauto.
    + split; [done|]. intros o'. destruct (decide (o' = o)) as [->|Ho]; [|by apply Hne].
      rewrite Heq. split; [done|done].
Qed.

(** Storing an entry that fits the parent. *)
Lemma put_inv (c : cache) (o : COutPoint) (e : CCoinsCacheEntry) (u : Z) :
  cache_inv c -> entry_inv (view_coin (base c) o) e ->
  (forall e0, cacheCoins c !! o = Some e0 -> flagged e0 = true -> flagged e = true) ->
  u64 u = u64 (cachedCoinsUsage c - old_usage (cacheCoins c) o + DynamicMemoryUsage (coin e)) ->
  cache_inv (set_usage (put c o e) u).
Proof.
  intros Hc He Hkeep Hu. destruct (put_flagged c o e Hc Hkeep) as [H1 H2]. pose proof Hc as [Hb Hen _ _ Hus].
  constructor; cbn [base cacheCoins set_usage put cachedCoinsUsage m_flagged].
  - done.
  - intros o' e'. destruct (decide (o' = o)) as [->|Ho].
    + rewrite lookup_insert_eq. by intros [= <-].
    + rewrite lookup_insert_ne by done. apply Hen.
  - done.
  - done.
  - rewrite Hu, total_usage_put, Hus. set (t := total_usage _).
    replace (u64 t - old_usage (cacheCoins c) o + DynamicMemoryUsage (coin e))
      with (u64 t - (old_usage (cacheCoins c) o - DynamicMemoryUsage (coin e))) by lia.
    rewrite u64_idemp_sub. f_equal. lia.
Qed.

(** Removing an entry. *)
Lemma erase_inv (c : cache) (o : COutPoint) (u : Z) :
  cache_inv c -> u64 u = u64 (cachedCoinsUsage c - old_usage (cacheCoins c) o) ->
  cache_inv (set_usage (erase c o) u).
Proof.
  intros [Hb Hen Hnd Hfl Hus] Hu. constructor; cbn [base cacheCoins set_usage erase cachedCoinsUsage m_flagged].
  - done.
  - intros o' e'. rewrite lookup_delete_Some. intros [_ Hl]. by apply Hen.
  - by apply NoDup_filter.
  - intros o'. rewrite list_elem_of_filter, Hfl. split.
    + intros [Hne (e & He & Hf)]. exists e. rewrite lookup_delete_ne by done. done.
    + intros (e & He & Hf). apply lookup_delete_Some in He as [Hne He]. split; [done|]. eauto.
  - rewrite Hu, total_usage_erase, Hus. rewrite u64_idemp_sub. done.
Qed.

Lemma cache_coin_put (c : cache) (o : COutPoint) (e : CCoinsCacheEntry) (u : Z) (o' : COutPoint) :
  cache_coin (set_usage (put c o e) u) o' = if bool_decide (o' = o) then unspent (coin e) else cache_coin c o'.
Proof.
  unfold cache_coin. cbn [cacheCoins set_usage put base]. case_bool_decide as E.
  - subst. by rewrite lookup_insert_eq.
  - by rewrite lookup_insert_ne by done.
Qed.

Lemma cache_coin_erase (c : cache) (o : COutPoint) (u : Z) (o' : COutPoint) :
  cache_coin (set_usage (erase c o) u) o' = if bool_decide (o' = o) then view_coin (base c) o else cache_coin c o'.
Proof.
  unfold cache_coin. cbn [cacheCoins set_usage erase base]. case_bool_decide as E.
  - subst. by rewrite lookup_delete_eq.
  - by rewrite lookup_delete_ne by done.
Qed.

(** Replacing the backing view by one with the same coins. *)
Lemma set_base_inv (c : cache) (b : B) :
  cache_inv c -> view_inv b -> (forall o, view_coin b o = view_coin (base c) o) ->
  cache_inv (set_base c b) /\ forall o, cache_coin (set_base c b) o = cache_coin c o.
Proof.
  intros [Hb Hen Hnd Hfl Hus] Hv Heq. split.
  - constructor; cbn; try done. intros o e Ho. rewrite Heq. by apply Hen.
  - intros o. unfold cache_coin. cbn. by rewrite Heq.
Qed.

Lemma cache_coin_entry (c : cache) (o : COutPoint) (e : CCoinsCacheEntry) :
  cacheCoins c !! o = Some e -> cache_coin c o = unspent (coin e).
Proof. intros E. unfold cache_coin. by rewrite E. Qed.

Lemma cache_coin_unspent (c : cache) (o : COutPoint) (cn : Coin) :
  cache_inv c -> cache_coin c o = Some cn -> IsSpent cn = false.
Proof.
  intros Hc. unfold cache_coin. destruct (cacheCoins c !! o) as [e|].
  - unfold unspent. destruct (IsSpent (coin e)) eqn:E; [done|]. by intros [= <-].
  - apply lv_unspent, ci_base, Hc.
Qed.

(** [FetchCoin] fills the cache without changing the coins it represents. *)
Lemma FetchCoin_spec (c : cache) (o : COutPoint) :
  cache_inv c ->
  let '(c', it) := FetchCoin c o in
  cache_inv c' /\ (forall o', cache_coin c' o' = cache_coin c o') /\ cache_best c' = cache_best c /\
  hashBlock c' = hashBlock c /\
  it = cacheCoins c' !! o /\ (it = None -> cache_coin c o = None).
Proof.
  intros Hc. unfold FetchCoin. destruct (cacheCoins c !! o) as [e|] eqn:E; [done|].
  pose proof (lv_GetCoin (base c) o (ci_base c Hc)) as Hg. destruct (base_GetCoin (base c) o) as [b r].
  destruct Hg as (Hb & -> & Heq & Hbest). destruct (set_base_inv c b Hc Hb Heq) as [Hc1 Hsame].
  assert (Ho : cache_coin c o = view_coin (base c) o) by (unfold cache_coin; by rewrite E).
  assert (Hbst : cache_best (set_base c b) = cache_best c) by (unfold cache_best; cbn; by rewrite Hbest).
  destruct (view_coin (base c) o) as [cn|] eqn:Ev; [|by rewrite Ho].
  pose proof (lv_unspent _ _ _ (ci_base c Hc) Ev) as Hsp. rewrite Hsp.
  change (put (set_usage (set_base c b) (cachedCoinsUsage (set_base c b) + DynamicMemoryUsage cn)) o (mkEntry cn false false))
    with (set_usage (put (set_base c b) o (mkEntry cn false false)) (cachedCoinsUsage (set_base c b) + DynamicMemoryUsage cn)).
  split; [apply put_inv; [done| | |]|split; [|split; [done|split; [done|]]]].
  - unfold entry_inv. cbn. rewrite Hsp. unfold unspent. rewrite Hsp, Heq, Ev. done.
  - cbn. rewrite E. done.
  - cbn. unfold old_usage. rewrite E. f_equal. lia.
  - intros o'. rewrite cache_coin_put, Hsame. case_bool_decide as Eo; [|done]. subst. cbn. unfold unspent. by rewrite Hsp, Ho.
  - cbn. rewrite lookup_insert_eq. done.
Qed.

Lemma GetCoin_spec (c : cache) (o : COutPoint) :
  cache_inv c ->
  let '(c', r) := GetCoin c o in
  cache_inv c' /\ r = cache_coin c o /\ (forall o', cache_coin c' o' = cache_coin c o') /\ cache_best c' = cache_best c.
Proof.
  intros Hc. unfold GetCoin. pose proof (FetchCoin_spec c o Hc) as Hf. destruct (FetchCoin c o) as [c' it].
  destruct Hf as (Hc' & Hsame & Hbest & _ & -> & Hnone). split; [done|]. split; [|done].
  rewrite <- Hsame. destruct (cacheCoins c' !! o) as [e|] eqn:E.
  - by rewrite (cache_coin_entry c' o e E).
  - rewrite Hsame. symmetry. by apply Hnone.
Qed.

Lemma HaveCoin_spec (c : cache) (o : COutPoint) :
  cache_inv c ->
  let '(c', r) := HaveCoin c o in
  cache_inv c' /\ r = bool_decide (is_Some (cache_coin c o)) /\
  (forall o', cache_coin c' o' = cache_coin c o') /\ cache_best c' = cache_best c.
Proof.
  intros Hc. pose proof (GetCoin_spec c o Hc) as Hg. unfold HaveCoin, GetCoin in *.
  destruct (FetchCoin c o) as [c' it]. destruct Hg as (Hc' & Hr & Hsame & Hb). split; [done|]. split; [|done].
  rewrite <- Hr. destruct it as [e|]; [|done]. destruct (IsSpent (coin e)); cbn [negb].
  - by rewrite bool_decide_eq_false_2 by by intros [].
  - by rewrite bool_decide_eq_true_2 by eauto.
Qed.

Lemma AccessCoin_spec (c : cache) (o : COutPoint) :
  cache_inv c ->
  let '(c', r) := AccessCoin c o in
  cache_inv c' /\ unspent r = cache_coin c o /\ (forall o', cache_coin c' o' = cache_coin c o') /\ cache_best c' = cache_best c.
Proof.
  intros Hc. pose proof (GetCoin_spec c o Hc) as Hg. unfold AccessCoin, GetCoin in *.
  destruct (FetchCoin c o) as [c' it]. destruct Hg as (Hc' & Hr & Hsame & Hb). split; [done|]. split; [|done].
  rewrite <- Hr. by destruct it.
Qed.

(** Adding a coin: the caller vouches that nothing is overwritten unless it says so. *)
Lemma AddCoin_spec (c : cache) (o : COutPoint) (cn : Coin) (possible_overwrite : bool) :
  cache_inv c -> IsSpent cn = false -> (possible_overwrite = false -> cache_coin c o = None) ->
  exists c', AddCoin c o cn possible_overwrite = Some c' /\ cache_inv c' /\ cache_best c' = cache_best c /\
    forall o', cache_coin c' o' =
      if IsUnspendable (scriptPubKey (out cn)) then cache_coin c o'
      else if bool_decide (o' = o) then Some cn else cache_coin c o'.
Proof.
  intros Hc Hsp How. unfold AddCoin. rewrite Hsp. destruct (IsUnspendable _); [eauto|].
  destruct (cacheCoins c !! o) as [e|] eqn:E.
  - change (default (mkEntry coinEmpty false false) (Some e)) with e.
    pose proof (ci_entry c Hc o e E) as (Hf & Hd & Ha & _).
    assert (Hs : possible_overwrite = false -> IsSpent (coin e) = true).
    { intros Ho. specialize (How Ho). rewrite (cache_coin_entry c o e E) in How. unfold unspent in How. by destruct (IsSpent (coin e)). }
    assert (Hg : negb possible_overwrite && negb (IsSpent (coin e)) = false).
    { destruct possible_overwrite; [done|]. by rewrite (Hs eq_refl). }
    rewrite Hg. eexists. split; [reflexivity|]. split; [|split; [done|]].
    + apply put_inv; [done| | |].
      * unfold entry_inv. cbn. rewrite Hsp. split; [|done]. rewrite orb_true_iff, andb_true_iff, !negb_true_iff.
        intros [Hfr|[Hov Hdi]]; [by apply Hf|]. rewrite <- (Hd Hdi). unfold unspent. by rewrite (Hs Hov).
      * done.
      * unfold old_usage. rewrite E. done.
    + intros o'. rewrite cache_coin_put. case_bool_decide; [|done]. cbn. unfold unspent. by rewrite Hsp.
  - change (default (mkEntry coinEmpty false false) None) with (mkEntry coinEmpty false false).
    change (IsSpent (coin (mkEntry coinEmpty false false))) with true. cbn [negb]. rewrite andb_false_r.
    eexists. split; [reflexivity|]. split; [|split; [done|]].
    + apply put_inv; [done| | |].
      * unfold entry_inv. cbn. rewrite Hsp. split; [|done]. rewrite andb_true_r, negb_true_iff. intros Ho.
        specialize (How Ho). unfold cache_coin in How. by rewrite E in How.
      * done.
      * unfold old_usage. rewrite E. cbn [coin]. f_equal. lia.
    + intros o'. rewrite cache_coin_put. case_bool_decide; [|done]. cbn. unfold unspent. by rewrite Hsp.
Qed.

(** Spending a coin. *)
Lemma SpendCoin_spec (c : cache) (o : COutPoint) :
  cache_inv c ->
  let '(c', r) := SpendCoin c o in
  cache_inv c' /\ cache_best c' = cache_best c /\
  (forall o', cache_coin c' o' = if bool_decide (o' = o) then None else cache_coin c o') /\
  r ≫= unspent = cache_coin c o.
Proof.
  intros Hc. unfold SpendCoin. pose proof (FetchCoin_spec c o Hc) as Hf. destruct (FetchCoin c o) as [c1 it].
  destruct Hf as (Hc1 & Hsame & Hbest & _ & Hit & Hnone). destruct it as [e|].
  - symmetry in Hit. pose proof (ci_entry c1 Hc1 o e Hit) as (Hfr & _ & Ha & _).
    assert (Hold : old_usage (cacheCoins c1) o = DynamicMemoryUsage (coin e)) by (unfold old_usage; by rewrite Hit).
    assert (Hr : Some (coin e) ≫= unspent = cache_coin c o) by (rewrite <- Hsame; cbn; by rewrite (cache_coin_entry c1 o e Hit)).
    destruct (IsFresh e) eqn:Ef.
    + change (erase (set_usage c1 ?u) o) with (set_usage (erase c1 o) u).
      split; [apply erase_inv; [done|by rewrite Hold]|]. split; [done|]. split; [|done].
      intros o'. rewrite cache_coin_erase, Hsame. case_bool_decide; [by apply Hfr|done].
    + change (put (set_usage c1 ?u) o ?x) with (set_usage (put c1 o x) u).
      split; [apply put_inv; [done|done|done|]|].
      * rewrite Hold. f_equal. change (DynamicMemoryUsage (coin (mkEntry coinEmpty true false))) with 0. lia.
      * split; [done|]. split; [|done]. intros o'. rewrite cache_coin_put, Hsame. by case_bool_decide.
  - split; [done|]. split; [done|]. split; [|by rewrite Hnone].
    intros o'. rewrite Hsame. case_bool_decide as Eo; [|done]. subst. by apply Hnone.
Qed.

(** Removing an unmodified entry changes nothing visible. *)
Lemma Uncache_spec (c : cache) (o : COutPoint) :
  cache_inv c ->
  cache_inv (Uncache c o) /\ (forall o', cache_coin (Uncache c o) o' = cache_coin c o') /\
  cache_best (Uncache c o) = cache_best c.
Proof.
  intros Hc. unfold Uncache. destruct (cacheCoins c !! o) as [e|] eqn:E; [|done].
  destruct (IsDirty e) eqn:Ed; [done|]. destruct (IsFresh e) eqn:Ef; [done|]. cbn [negb andb].
  change (erase (set_usage c ?u) o) with (set_usage (erase c o) u).
  pose proof (ci_entry c Hc o e E) as (_ & Hd & _). split; [|split; [|done]].
  - apply erase_inv; [done|]. unfold old_usage. by rewrite E.
  - intros o'. rewrite cache_coin_erase. case_bool_decide; [|done]. subst.
    rewrite (cache_coin_entry c o e E). symmetry. by apply Hd.
Qed.

Lemma BatchWrite_entry_spec (c : cache) (o : COutPoint) (e : CCoinsCacheEntry) :
  cache_inv c -> (IsFresh e = true -> cache_coin c o = None) ->
  (IsSpent (coin e) = true -> scriptPubKey (out (coin e)) = []) ->
  exists c', BatchWrite_entry c o e = Some c' /\ cache_inv c' /\ hashBlock c' = hashBlock c /\
    forall o', cache_coin c' o' = apply_entry (cache_coin c) (o, e) o'.
Proof.
  intros Hc Hfresh Hclear. unfold BatchWrite_entry, apply_entry. cbn [fst snd].
  destruct (IsDirty e); cbn [negb andb]; [|by exists c].
  destruct (cacheCoins c !! o) as [us|] eqn:E.
  - pose proof (ci_entry c Hc o us E) as (Hf & Hd & Ha & Hcl).
    assert (Hold : old_usage (cacheCoins c) o = DynamicMemoryUsage (coin us)) by (unfold old_usage; by rewrite E).
    assert (Hg : IsFresh e && negb (IsSpent (coin us)) = false).
    { destruct (IsFresh e); [|done]. specialize (Hfresh eq_refl). rewrite (cache_coin_entry c o us E) in Hfresh.
      unfold unspent in Hfresh. by destruct (IsSpent (coin us)). }
    rewrite Hg. destruct (IsFresh us && IsSpent (coin e)) eqn:Ex.
    + apply andb_true_iff in Ex as [Hfu Hse]. eexists. split; [reflexivity|].
      change (erase (set_usage c ?u) o) with (set_usage (erase c o) u).
      split; [apply erase_inv; [done|by rewrite Hold]|]. split; [done|]. intros o'. rewrite cache_coin_erase.
      case_bool_decide; [|done]. rewrite (Hf Hfu). unfold unspent. by rewrite Hse.
    + eexists. split; [reflexivity|]. change (put (set_usage c ?u) o ?x) with (set_usage (put c o x) u).
      split; [|split; [done|]].
      * change (set_usage (set_usage ?x ?u) ?v) with (set_usage x v). apply put_inv; [done| |done|].
        -- unfold entry_inv. cbn. split; [done|]. split; [done|]. split; [|done].
           destruct (IsSpent (coin e)); [|done]. rewrite andb_true_r in Ex. by rewrite Ex.
        -- rewrite Hold. cbn [cachedCoinsUsage set_usage coin]. by rewrite u64_idemp.
      * intros o'. change (set_usage (set_usage ?x ?u) ?v) with (set_usage x v). rewrite cache_coin_put. done.
  - assert (Hpar : cache_coin c o = view_coin (base c) o) by (unfold cache_coin; by rewrite E).
    destruct (IsFresh e && IsSpent (coin e)) eqn:Ex.
    + apply andb_true_iff in Ex as [Hfe Hse]. exists c. split; [done|]. split; [done|]. split; [done|].
      intros o'. case_bool_decide; [|done]. subst. rewrite (Hfresh Hfe). unfold unspent. by rewrite Hse.
    + eexists. split; [reflexivity|]. split; [|split; [done|]].
      * apply put_inv; [done| |done|].
        -- unfold entry_inv. cbn. split; [intros Hfe; rewrite <- Hpar; by apply Hfresh|]. split; [done|]. split; [|done].
           destruct (IsSpent (coin e)); [|done]. rewrite andb_true_r in Ex. by rewrite Ex.
        -- unfold old_usage. rewrite E. f_equal. cbn [coin]. lia.
      * intros o'. by rewrite cache_coin_put.
Qed.

(** ** Batches *)

Lemma apply_entries_ext (l : list (COutPoint * CCoinsCacheEntry)) (f g : COutPoint -> option Coin) (o : COutPoint) :
  (forall o, f o = g o) -> apply_entries f l o = apply_entries g l o.
Proof.
  unfold apply_entries. revert f g. induction l as [|x l IH]; intros f g Hfg; cbn; [done|].
  apply IH. intros o'. unfold apply_entry. by rewrite Hfg.
Qed.

Lemma apply_entries_notin (l : list (COutPoint * CCoinsCacheEntry)) (f : COutPoint -> option Coin) (o : COutPoint) :
  o ∉ map fst l -> apply_entries f l o = f o.
Proof.
  unfold apply_entries. revert f. induction l as [|x l IH]; intros f Hn; cbn; [done|].
  cbn in Hn. apply not_elem_of_cons in Hn as [Hx Hn]. rewrite IH by done. unfold apply_entry.
  rewrite bool_decide_eq_false_2 by done. by rewrite andb_false_r.
Qed.

Lemma apply_entries_in (l : list (COutPoint * CCoinsCacheEntry)) (f : COutPoint -> option Coin) (o : COutPoint)
    (e : CCoinsCacheEntry) :
  NoDup (map fst l) -> (o, e) ∈ l ->
  apply_entries f l o = if IsDirty e then unspent (coin e) else f o.
Proof.
  unfold apply_entries. revert f. induction l as [|x l IH]; intros f Hn Hin; [by apply not_elem_of_nil in Hin|].
  cbn in *. apply NoDup_cons in Hn as [Hx Hn]. apply elem_of_cons in Hin as [<-|Hin].
  - cbn in Hx. change (fold_left apply_entry l ?g o) with (apply_entries g l o). rewrite apply_entries_notin by done.
    unfold apply_entry. cbn. rewrite bool_decide_eq_true_2 by done. by rewrite andb_true_r.
  - rewrite IH by done. destruct (IsDirty e); [done|]. unfold apply_entry.
    rewrite bool_decide_eq_false_2; [by rewrite andb_false_r|]. intros ->. apply Hx.
    apply list_elem_of_fmap. exists (x.1, e). split; [done|]. done.
Qed.

Lemma BatchWrite_loop_spec (l : list (COutPoint * CCoinsCacheEntry)) (c : cache) :
  cache_inv c -> entries_ok (cache_coin c) l ->
  exists c', BatchWrite_loop c l = Some c' /\ cache_inv c' /\ hashBlock c' = hashBlock c /\
    forall o, cache_coin c' o = apply_entries (cache_coin c) l o.
Proof.
  revert c; induction l as [|[o e] l IH]; intros c Hc [Hn Hf]; [by exists c|].
  cbn in Hn. apply NoDup_cons in Hn as [Hx Hn]. apply Forall_cons in Hf as [[Hfr Hcl] Hf]. cbn in Hfr, Hcl.
  destruct (BatchWrite_entry_spec c o e Hc Hfr Hcl) as (c1 & E1 & Hc1 & Hh1 & Hco).
  destruct (IH c1 Hc1) as (c2 & E2 & Hc2 & Hh2 & Hco2).
  - split; [done|]. rewrite Forall_forall in Hf |- *. intros [o' e'] Hin. destruct (Hf _ Hin) as [H1 H2].
    split; [|done]. cbn in *. intros Hfe. rewrite Hco. unfold apply_entry. cbn.
    rewrite bool_decide_eq_false_2; [rewrite andb_false_r; by apply H1|]. intros ->. apply Hx.
    apply list_elem_of_fmap. by exists (o, e').
  - exists c2. cbn [BatchWrite_loop]. rewrite E1. split; [done|]. split; [done|]. split; [congruence|].
    intros o'. rewrite Hco2. exact (apply_entries_ext l _ (apply_entry (cache_coin c) (o, e)) o' Hco).
Qed.

Lemma cursor_keys (c : cache) : cache_inv c -> map fst (cursor c) = m_flagged c.
Proof.
  intros Hc. unfold cursor. pose proof (ci_flagged c Hc) as Hfl.
  assert (Hall : Forall (fun o => is_Some (cacheCoins c !! o)) (m_flagged c)).
  { apply Forall_forall. intros o Ho. apply Hfl in Ho as (e & -> & _). eauto. }
  clear Hfl. induction Hall as [|o l [e He] _ IH]; [done|]. cbn. rewrite He. cbn. by f_equal.
Qed.

Lemma cursor_elem (c : cache) (o : COutPoint) (e : CCoinsCacheEntry) :
  (o, e) ∈ cursor c <-> o ∈ m_flagged c /\ cacheCoins c !! o = Some e.
Proof.
  unfold cursor. rewrite list_elem_of_omap. split.
  - intros (o' & Ho & Hx). apply bind_inv in Hx as (e' & He & Hx). by injection Hx as <- <-.
  - intros [Ho He]. exists o. rewrite He. done.
Qed.

(** The flagged entries are what separates the cache from the view below. *)
Lemma cursor_ok (c : cache) : cache_inv c -> entries_ok (view_coin (base c)) (cursor c).
Proof.
  intros Hc. split; [rewrite cursor_keys by done; by apply (ci_nodup c)|]. apply Forall_forall. intros [o e] Hin.
  apply cursor_elem in Hin as [_ He]. destruct (ci_entry c Hc o e He) as (H1 & _ & _ & H2). done.
Qed.

Lemma cursor_apply (c : cache) (o : COutPoint) :
  cache_inv c -> apply_entries (view_coin (base c)) (cursor c) o = cache_coin c o.
Proof.
  intros Hc. unfold cache_coin. destruct (decide (o ∈ m_flagged c)) as [Hin|Hin].
  - pose proof (proj1 (ci_flagged c Hc o) Hin) as (e & He & Hf). rewrite He.
    rewrite (apply_entries_in _ _ o e); [|by apply cursor_ok|by apply cursor_elem].
    destruct (IsDirty e) eqn:Ed; [done|]. symmetry. by apply (ci_entry c Hc o e He).
  - rewrite apply_entries_notin by by rewrite cursor_keys. destruct (cacheCoins c !! o) as [e|] eqn:He; [|done].
    assert (Hd : IsDirty e = false).
    { destruct (IsDirty e) eqn:Ed; [|done]. exfalso. apply Hin, (ci_flagged c Hc). exists e.
      split; [done|]. unfold flagged. by rewrite Ed. }
    symmetry. by apply (ci_entry c Hc o e He).
Qed.

Lemma Flush_spec (c : cache) :
  cache_inv c -> hashBlock c <> 0 ->
  exists c', Flush c = Some (true, c') /\ cache_inv c' /\ cacheCoins c' = ∅ /\ cache_best c' = cache_best c /\
    view_best (base c') = cache_best c /\
    forall o, cache_coin c' o = cache_coin c o /\ view_coin (base c') o = cache_coin c o.
Proof.
  intros Hc Hh. unfold Flush.
  destruct (lv_BatchWrite (base c) (cursor c) (hashBlock c) (ci_base c Hc) (cursor_ok c Hc) Hh) as (b & -> & Hb & Hbest & Hco).
  cbn [mbind option_bind]. eexists. split; [reflexivity|]. split; [|split; [done|]].
  - constructor; cbn; try done; [constructor|]. intros o. split; [intros Ho; by apply not_elem_of_nil in Ho|].
    intros (e & He & _). done.
  - unfold cache_best. cbn [hashBlock base]. rewrite (proj2 (Z.eqb_neq (hashBlock c) 0)) by done.
    split; [done|]. split; [done|].
    intros o. unfold cache_coin at 1. cbn [cacheCoins base]. rewrite lookup_empty, Hco, cursor_apply by done. done.
Qed.

(** What the cursor of [Sync] leaves of the visited entries. *)
Lemma cursor_loop_spec (keys : list COutPoint) (c : cache) :
  NoDup keys ->
  (forall o, o ∈ keys -> exists e, cacheCoins c !! o = Some e /\ (IsSpent (coin e) = true -> DynamicMemoryUsage (coin e) = 0)) ->
  exists c', cursor_loop c keys = Some c' /\ base c' = base c /\ hashBlock c' = hashBlock c /\
    cachedCoinsUsage c' = cachedCoinsUsage c /\ total_usage (cacheCoins c') = total_usage (cacheCoins c) /\
    m_flagged c' = filter (fun o => o ∉ keys) (m_flagged c) /\
    forall o, cacheCoins c' !! o =
      if decide (o ∈ keys)
      then e ← cacheCoins c !! o; if IsSpent (coin e) then None else Some (mkEntry (coin e) false false)
      else cacheCoins c !! o.
Proof.
  intros Hn. revert c. induction Hn as [|k keys Hk Hn IH]; intros c Hin.
  { exists c. do 5 (split; [done|]). split; [|intros o; by rewrite decide_False by apply not_elem_of_nil].
    symmetry. apply filter_all. apply Forall_forall. intros o _. apply not_elem_of_nil. }
  destruct (Hin k ltac:(left)) as (e & He & Hz). cbn [cursor_loop].
  assert (exists c1, NextAndMaybeErase c k = Some c1 /\ base c1 = base c /\ hashBlock c1 = hashBlock c /\
    cachedCoinsUsage c1 = cachedCoinsUsage c /\ total_usage (cacheCoins c1) = total_usage (cacheCoins c) /\
    m_flagged c1 = filter (fun p => p <> k) (m_flagged c) /\
    cacheCoins c1 !! k = (if IsSpent (coin e) then None else Some (mkEntry (coin e) false false)) /\
    forall o, o <> k -> cacheCoins c1 !! o = cacheCoins c !! o) as (c1 & E1 & Hb1 & Hh1 & Hu1 & Ht1 & Hf1 & Hk1 & Ho1).
  { unfold NextAndMaybeErase. rewrite He. cbn [mbind option_bind]. destruct (IsSpent (coin e)) eqn:Es.
    - rewrite (Hz eq_refl). change (0 =? 0) with true. cbv iota. eexists. split; [reflexivity|]. cbn.
      do 3 (split; [done|]). split; [rewrite (total_usage_delete _ k e He), (Hz eq_refl); lia|]. split; [done|].
      split; [by rewrite lookup_delete_eq|]. intros o Ho. by rewrite lookup_delete_ne.
    - eexists. split; [reflexivity|]. cbn. do 3 (split; [done|]).
      split; [rewrite total_usage_put; unfold old_usage; rewrite He; cbn; lia|]. split; [done|].
      split; [by rewrite lookup_insert_eq|]. intros o Ho. by rewrite lookup_insert_ne. }
  rewrite E1. cbn [mbind option_bind].
  destruct (IH c1) as (c' & E' & Hb' & Hh' & Hu' & Ht' & Hf' & Hc').
  { intros o Ho. rewrite Ho1 by (intros ->; done). apply Hin. by right. }
  exists c'. split; [done|]. split; [congruence|]. split; [congruence|]. split; [congruence|]. split; [congruence|]. split.
  - rewrite Hf', Hf1, list_filter_filter. apply list_filter_iff. intros o. rewrite not_elem_of_cons. tauto.
  - intros o. rewrite Hc'. destruct (decide (o = k)) as [->|Hok].
    + rewrite decide_False, decide_True by (done || left). rewrite Hk1, He. done.
    + rewrite Ho1 by done. destruct (decide (o ∈ keys)) as [Hi|Hi].
      * by rewrite decide_True by by right.
      * rewrite decide_False; [done|]. rewrite elem_of_cons. tauto.
Qed.

Lemma cleared_usage (cn : Coin) : scriptPubKey (out cn) = [] -> DynamicMemoryUsage cn = 0.
Proof. intros E. unfold DynamicMemoryUsage. by rewrite E. Qed.

Lemma Sync_spec (c : cache) :
  cache_inv c -> hashBlock c <> 0 ->
  exists c', Sync c = Some (true, c') /\ cache_inv c' /\ m_flagged c' = [] /\ cache_best c' = cache_best c /\
    view_best (base c') = cache_best c /\
    forall o, cache_coin c' o = cache_coin c o /\ view_coin (base c') o = cache_coin c o.
Proof.
  intros Hc Hh. unfold Sync.
  destruct (lv_BatchWrite (base c) (cursor c) (hashBlock c) (ci_base c Hc) (cursor_ok c Hc) Hh) as (b & -> & Hb & Hbest & Hco).
  cbn [mbind option_bind]. pose proof (ci_flagged c Hc) as Hfl.
  destruct (cursor_loop_spec (m_flagged c) (set_base c b) (ci_nodup c Hc)) as (c' & E & Hb' & Hh' & Hu' & Ht' & Hf' & Hc').
  { intros o Ho. apply Hfl in Ho as (e & He & _). exists e. split; [done|]. intros Es. apply cleared_usage.
    by apply (ci_entry c Hc o e He). }
  rewrite E. cbn [mbind option_bind]. cbn [base set_base hashBlock m_flagged cacheCoins cachedCoinsUsage] in *.
  assert (Hnil : m_flagged c' = []).
  { rewrite Hf'. apply filter_none. apply Forall_forall. intros o Ho. by intros Hn. }
  rewrite bool_decide_eq_true_2 by done. exists c'. split; [done|].
  assert (Hcoin : forall o, view_coin (base c') o = cache_coin c o) by (intros o; by rewrite Hb', Hco, cursor_apply).
  assert (Hent : forall o e', cacheCoins c' !! o = Some e' ->
    IsDirty e' = false /\ IsFresh e' = false /\ IsSpent (coin e') = false /\ cache_coin c o = Some (coin e')).
  { intros o e' He'. rewrite Hc' in He'. destruct (decide (o ∈ m_flagged c)) as [Hi|Hi].
    - apply bind_inv in He' as (e & He & He'). destruct (IsSpent (coin e)) eqn:Es; [done|]. injection He' as <-. cbn.
      rewrite (cache_coin_entry c o e He). unfold unspent. by rewrite Es.
    - assert (Hnf : flagged e' = false).
      { destruct (flagged e') eqn:Ef; [|done]. exfalso. apply Hi, Hfl. eauto. }
      unfold flagged in Hnf. apply orb_false_iff in Hnf as [Hd Hfr].
      destruct (ci_entry c Hc o e' He') as (_ & _ & Ha & _). rewrite Hd, Hfr in Ha.
      destruct (IsSpent (coin e')) eqn:Es; [done|]. rewrite (cache_coin_entry c o e' He'). unfold unspent. by rewrite Es. }
  split; [constructor|].
  - by rewrite Hb'.
  - intros o e' He'. destruct (Hent o e' He') as (Hd & Hfr & Hs & Hcc). unfold entry_inv, unspent. rewrite Hd, Hfr, Hs, Hcoin. done.
  - rewrite Hnil. constructor.
  - intros o. rewrite Hnil. split; [intros Ho; by apply not_elem_of_nil in Ho|].
    intros (e' & He' & Hf). destruct (Hent o e' He') as (Hd & Hfr & _). unfold flagged in Hf. by rewrite Hd, Hfr in Hf.
  - rewrite Hu', Ht'. apply (ci_usage c Hc).
  - split; [done|]. unfold cache_best. rewrite Hh', Hb', Hbest. rewrite (proj2 (Z.eqb_neq (hashBlock c) 0)) by done.
    split; [done|]. split; [done|]. intros o. split; [|rewrite <- Hb'; apply Hcoin]. unfold cache_coin at 1.
    destruct (cacheCoins c' !! o) as [e'|] eqn:He'; [|apply Hcoin].
    destruct (Hent o e' He') as (_ & _ & Hs & Hcc). unfold unspent. by rewrite Hs, Hcc.
Qed.

Lemma GetBestBlock_spec (c : cache) :
  cache_inv c ->
  let '(c', h) := GetBestBlock c in
  cache_inv c' /\ h = cache_best c /\ (forall o', cache_coin c' o' = cache_coin c o') /\ cache_best c' = cache_best c.
Proof.
  intros Hc. unfold GetBestBlock, cache_best. destruct (Z.eqb_spec (hashBlock c) 0) as [E|E].
  - pose proof (lv_GetBestBlock (base c) (ci_base c Hc)) as Hg. destruct (base_GetBestBlock (base c)) as [b h].
    destruct Hg as (Hb & -> & Heq & Hbest). destruct (set_base_inv c b Hc Hb Heq) as [[H1 H2 H3 H4 H5] Hsame].
    split; [by constructor|]. split; [done|]. split; [exact Hsame|]. cbn. rewrite Hbest. by destruct (view_best (base c) =? 0).
  - split; [done|]. split; [done|]. split; [done|]. by rewrite (proj2 (Z.eqb_neq (hashBlock c) 0)).
Qed.

Lemma HaveInputs_loop_spec (ins : list CTxIn) (c : cache) :
  cache_inv c ->
  let '(c', r) := HaveInputs_loop c ins in
  cache_inv c' /\ (forall o', cache_coin c' o' = cache_coin c o') /\ cache_best c' = cache_best c /\
  (r = true <-> Forall (fun i => is_Some (cache_coin c (prevout i))) ins).
Proof.
  revert c; induction ins as [|i ins IH]; intros c Hc; cbn [HaveInputs_loop].
  { do 3 (split; [done|]). split; [constructor|done]. }
  pose proof (HaveCoin_spec c (prevout i) Hc) as Hh. destruct (HaveCoin c (prevout i)) as [c1 have].
  destruct Hh as (Hc1 & -> & Hsame & Hb). case_bool_decide as Hi; cbn [negb].
  - specialize (IH c1 Hc1). destruct (HaveInputs_loop c1 ins) as [c2 r]. destruct IH as (Hc2 & Hs2 & Hb2 & Hr).
    split; [done|]. split; [intros; by rewrite Hs2|]. split; [congruence|]. rewrite Hr, Forall_cons.
    split; [intros Hf; split; [done|]|intros [_ Hf]]; (eapply Forall_impl; [exact Hf|]); intros x; cbn beta; by rewrite ?Hsame.
  - split; [done|]. split; [done|]. split; [done|]. split; [done|]. intros Hf. apply Forall_cons in Hf as [Hf _]. done.
Qed.

(** The output that an outpoint names among [outs], numbered from [i]. *)
Definition lookup_out (txid : uint256) (i : nat) (outs : list CTxOut) (o : COutPoint) : option CTxOut :=
  if decide (op_hash o = txid /\ Z.of_nat i <= op_n o) then outs !! (Z.to_nat (op_n o) - i)%nat else None.

Lemma lookup_out_cons (txid : uint256) (i : nat) (x : CTxOut) (outs : list CTxOut) (o : COutPoint) :
  lookup_out txid i (x :: outs) o =
    if bool_decide (o = mkOutPoint txid (Z.of_nat i)) then Some x else lookup_out txid (S i) outs o.
Proof.
  unfold lookup_out. case_bool_decide as E.
  - subst o. cbn. rewrite decide_True by (split; [done|lia]). by rewrite Nat2Z.id, Nat.sub_diag.
  - destruct (decide (op_hash o = txid /\ Z.of_nat i <= op_n o)) as [[H1 H2]|H1].
    + assert (op_n o <> Z.of_nat i) by (intros En; apply E; destruct o; cbn in *; congruence).
      rewrite decide_True by (split; [done|lia]).
      replace (Z.to_nat (op_n o) - i)%nat with (S (Z.to_nat (op_n o) - S i)) by lia. done.
    + rewrite decide_False; [done|]. intros [H2 H3]. apply H1. split; [done|lia].
Qed.

Lemma AddCoins_loop_spec (outs : list CTxOut) (c : cache) (txid : uint256) (fCoinbase check : bool) (nHeight : Z) (i : nat) :
  cache_inv c -> Forall (fun o => nValue o <> -1) outs ->
  (check = false -> fCoinbase = false ->
     forall j, (j < length outs)%nat -> cache_coin c (mkOutPoint txid (Z.of_nat (i + j))) = None) ->
  exists c', AddCoins_loop c txid fCoinbase check nHeight i outs = Some c' /\ cache_inv c' /\ cache_best c' = cache_best c /\
    forall o, cache_coin c' o =
      match lookup_out txid i outs o with
      | Some x => if IsUnspendable (scriptPubKey x) then cache_coin c o else Some (mkCoin x fCoinbase nHeight)
      | None => cache_coin c o
      end.
Proof.
  intros Hc Hf. revert c i Hc. induction Hf as [|x outs Hx _ IH]; intros c i Hc Hov; cbn [AddCoins_loop].
  { exists c. do 3 (split; [done|]). intros o. unfold lookup_out. by destruct (decide _). }
  set (op := mkOutPoint txid (Z.of_nat i)).
  assert (exists c1 ow, (if check then HaveCoin c op else (c, fCoinbase)) = (c1, ow) /\ cache_inv c1 /\
    cache_best c1 = cache_best c /\ (forall o, cache_coin c1 o = cache_coin c o) /\ (ow = false -> cache_coin c1 op = None))
    as (c1 & ow & -> & Hc1 & Hb1 & Hs1 & How).
  { destruct check.
    - pose proof (HaveCoin_spec c op Hc) as Hh. destruct (HaveCoin c op) as [c1 r]. destruct Hh as (H1 & -> & H2 & H3).
      eexists _, _. split; [reflexivity|]. do 3 (split; [done|]). rewrite bool_decide_eq_false, H2, <- eq_None_not_Some. done.
    - eexists _, _. split; [reflexivity|]. do 3 (split; [done|]). intros ->.
      specialize (Hov eq_refl eq_refl 0%nat ltac:(cbn; lia)). by rewrite Nat.add_0_r in Hov. }
  destruct (AddCoin_spec c1 op (mkCoin x fCoinbase nHeight) ow Hc1) as (c2 & -> & Hc2 & Hb2 & Hs2); [|done|].
  { unfold IsSpent, CTxOut_IsNull. cbn. by apply Z.eqb_neq. }
  cbn [mbind option_bind]. destruct (IH c2 (S i) Hc2) as (c3 & -> & Hc3 & Hb3 & Hs3).
  { intros Hch Hcb j Hj. rewrite Hs2, Hs1. cbn [out scriptPubKey].
    specialize (Hov Hch Hcb (S j) ltac:(cbn; lia)). replace (i + S j)%nat with (S i + j)%nat in Hov by lia. rewrite Hov.
    rewrite bool_decide_eq_false_2; [by destruct (IsUnspendable _)|]. unfold op. intros [= E]. lia. }
  exists c3. split; [done|]. split; [done|]. split; [congruence|]. intros o. rewrite Hs3, lookup_out_cons, Hs2, Hs1. fold op.
  cbn [out scriptPubKey]. case_bool_decide as E; [|by destruct (IsUnspendable (scriptPubKey x))].
  subst o. unfold lookup_out. rewrite decide_False by (cbn; lia). done.
Qed.

Lemma SanityCheck_spec (c : cache) : cache_inv c -> SanityCheck c = true.
Proof.
  intros Hc. unfold SanityCheck. rewrite !andb_true_iff. split; [split; [split|]|].
  - apply forallb_forall. intros [o e] Hin. apply list_elem_of_In, elem_of_map_to_list in Hin.
    destruct (ci_entry c Hc o e Hin) as (_ & _ & Ha & _). cbn. destruct (IsSpent (coin e)), (IsDirty e), (IsFresh e); try done.
    by specialize (Ha eq_refl).
  - apply forallb_forall. intros o Ho. apply list_elem_of_In in Ho.
    apply (ci_flagged c Hc) in Ho as (e & -> & Hf). done.
  - apply Z.eqb_eq. f_equal. rewrite <- (length_fmap fst). apply Permutation_length, NoDup_Permutation.
    + apply (ci_nodup c Hc).
    + eapply sublist_NoDup; [apply (NoDup_fst_map_to_list (cacheCoins c))|]. apply fmap_sublist, sublist_filter.
    + intros o. rewrite (ci_flagged c Hc o), list_elem_of_fmap. split.
      * intros (e & He & Hf). exists (o, e). split; [done|]. apply list_elem_of_filter.
        split; [by rewrite Is_true_true|by apply elem_of_map_to_list].
      * intros ([o' e] & -> & Hin). apply list_elem_of_filter in Hin as [Hf Hin]. apply elem_of_map_to_list in Hin.
        exists e. split; [done|]. by apply Is_true_true.
  - apply Z.eqb_eq. rewrite (ci_usage c Hc). f_equal. unfold total_usage. rewrite map_fold_foldr.
    induction (map_to_list (cacheCoins c)) as [|[o e] l IH]; [done|]. cbn. by f_equal.
Qed.

End Proofs.

(** ** A cache is a lawful view *)

#[export] Instance cache_view {B : Type} {HV : CoinsView B} : CoinsView (CCoinsViewCache B) := {
  base_GetCoin := GetCoin;
  base_GetBestBlock := GetBestBlock;
  base_BatchWrite := BatchWrite
}.

Lemma unspent_Some (c c' : Coin) : unspent c = Some c' -> IsSpent c' = false.
Proof. unfold unspent. destruct (IsSpent c) eqn:E; [done|]. by intros [= <-]. Qed.

Lemma set_hashBlock_inv {B : Type} {HV : CoinsView B} {HL : LawfulView B} (c : CCoinsViewCache B) (h : uint256) :
  cache_inv c -> cache_inv (set_hashBlock c h).
Proof. intros [H1 H2 H3 H4 H5]. by constructor. Qed.

Lemma BatchWrite_spec {B : Type} {HV : CoinsView B} {HL : LawfulView B} (c : CCoinsViewCache B)
    (l : list (COutPoint * CCoinsCacheEntry)) (h : uint256) :
  cache_inv c -> entries_ok (cache_coin c) l -> h <> 0 ->
  exists c', BatchWrite c l h = Some (true, c') /\ cache_inv c' /\ cache_best c' = h /\
    forall o, cache_coin c' o = apply_entries (cache_coin c) l o.
Proof.
  intros Hc Hl Hh. destruct (BatchWrite_loop_spec l c Hc Hl) as (c' & E & Hc' & _ & Hs).
  unfold BatchWrite. rewrite E. eexists. split; [reflexivity|]. split; [by apply set_hashBlock_inv|]. split; [|done].
  unfold cache_best. cbn. by rewrite (proj2 (Z.eqb_neq h 0)).
Qed.

#[export] Instance cache_lawful {B : Type} {HV : CoinsView B} {HL : LawfulView B} : LawfulView (CCoinsViewCache B) := {
  view_inv := cache_inv;
  view_coin := cache_coin;
  view_best := cache_best;
  lv_unspent := cache_coin_unspent;
  lv_GetCoin := GetCoin_spec;
  lv_GetBestBlock := GetBestBlock_spec;
  lv_BatchWrite := BatchWrite_spec
}.

(** ** A database of coins in memory *)

(** The smallest lawful view: a map of unspent coins and the best block. *)
Record MapView := mkMapView { mv_coins : gmap COutPoint Coin; mv_best : uint256 }.

Definition mv_write (m : gmap COutPoint Coin) (x : COutPoint * CCoinsCacheEntry) : gmap COutPoint Coin :=
  if IsDirty x.2 then if IsSpent (coin x.2) then delete x.1 m else <[x.1 := coin x.2]> m else m.

#[export] Instance map_view : CoinsView MapView := {
  base_GetCoin v o := (v, mv_coins v !! o);
  base_GetBestBlock v := (v, mv_best v);
  base_BatchWrite v l h := Some (true, mkMapView (fold_left mv_write l (mv_coins v)) h)
}.

Definition mv_inv (v : MapView) : Prop := forall o c, mv_coins v !! o = Some c -> IsSpent c = false.

Lemma mv_write_lookup (m : gmap COutPoint Coin) (x : COutPoint * CCoinsCacheEntry) (o : COutPoint) :
  mv_write m x !! o = apply_entry (fun o => m !! o) x o.
Proof.
  unfold mv_write, apply_entry, unspent. destruct (IsDirty x.2); [|done].
  destruct (IsSpent (coin x.2)); cbn [andb]; case_bool_decide as E; subst;
    by rewrite ?lookup_delete_eq, ?lookup_insert_eq, ?lookup_delete_ne, ?lookup_insert_ne by congruence.
Qed.

Lemma mv_writes_lookup (l : list (COutPoint * CCoinsCacheEntry)) (m : gmap COutPoint Coin) (f : COutPoint -> option Coin) :
  (forall o, m !! o = f o) -> forall o, fold_left mv_write l m !! o = apply_entries f l o.
Proof.
  revert m f; induction l as [|x l IH]; intros m f Hf; [done|]. cbn. apply IH. intros o. rewrite mv_write_lookup.
  unfold apply_entry. by rewrite Hf.
Qed.

Lemma mv_writes_inv (l : list (COutPoint * CCoinsCacheEntry)) (m : gmap COutPoint Coin) (o : COutPoint) (c : Coin) :
  (forall o c, m !! o = Some c -> IsSpent c = false) -> fold_left mv_write l m !! o = Some c -> IsSpent c = false.
Proof.
  revert m; induction l as [|x l IH]; intros m Hm; [apply Hm|]. cbn. apply IH. intros o' c'. rewrite mv_write_lookup.
  unfold apply_entry. destruct (_ && _); [apply unspent_Some|apply Hm].
Qed.

#[export] Instance map_lawful : LawfulView MapView.
Proof.
  refine {| view_inv := mv_inv; view_coin v o := mv_coins v !! o; view_best := mv_best |}.
  - intros v o c Hv. apply Hv.
  - done.
  - done.
  - intros v l h Hv _ _. eexists. split; [reflexivity|]. split; [|split; [done|]].
    + intros o c. cbn. by apply mv_writes_inv.
    + intros o. by apply mv_writes_lookup.
Defined.

(** ** Refinement: a cache behaves as a plain set of coins *)

(** The operations of a cache, and what a caller sees of each. *)
Inductive coin_op :=
| OpGet (o : COutPoint)
| OpHave (o : COutPoint)
| OpAdd (o : COutPoint) (cn : Coin) (possible_overwrite : bool)
| OpAddTx (txid : uint256) (tx : CTransaction) (height : Z) (check : bool)
| OpSpend (o : COutPoint)
| OpHaveInputs (tx : CTransaction)
| OpUncache (o : COutPoint)
| OpBest
| OpSetBest (h : uint256)
| OpFlush
| OpSync.

Inductive coin_obs := ObsCoin (r : option Coin) | ObsBool (b : bool) | ObsHash (h : uint256) | ObsNone.

Definition run_op {B : Type} {HV : CoinsView B} (c : CCoinsViewCache B) (op : coin_op)
  : option (CCoinsViewCache B * coin_obs) :=
  match op with
  | OpGet o => let '(c, r) := GetCoin c o in Some (c, ObsCoin r)
  | OpHave o => let '(c, r) := HaveCoin c o in Some (c, ObsBool r)
  | OpAdd o cn ow => c ← AddCoin c o cn ow; Some (c, ObsNone)
  | OpAddTx txid tx h check => c ← AddCoins c txid tx h check; Some (c, ObsNone)
  | OpSpend o => let '(c, r) := SpendCoin c o in Some (c, ObsCoin (r ≫= unspent))
  | OpHaveInputs tx => let '(c, r) := HaveInputs c tx in Some (c, ObsBool r)
  | OpUncache o => Some (Uncache c o, ObsNone)
  | OpBest => let '(c, h) := GetBestBlock c in Some (c, ObsHash h)
  | OpSetBest h => Some (SetBestBlock c h, ObsNone)
  | OpFlush => '(ok, c) ← Flush c; Some (c, ObsBool ok)
  | OpSync => '(ok, c) ← Sync c; Some (c, ObsBool ok)
  end.

(** A plain set of coins; [cs_known] is set once the best block was set or read. *)
Record coin_set := mkCoinSet { cs_coins : gmap COutPoint Coin; cs_best : uint256; cs_known : bool }.

Definition cs_update (s : coin_set) (m : gmap COutPoint Coin) : coin_set := mkCoinSet m (cs_best s) (cs_known s).

Fixpoint cs_add_outputs (m : gmap COutPoint Coin) (txid : uint256) (cb : bool) (h : Z) (i : nat) (outs : list CTxOut)
  : gmap COutPoint Coin :=
  match outs with
  | [] => m
  | x :: outs' =>
      let m' := cs_add_outputs m txid cb h (S i) outs' in
      if IsUnspendable (scriptPubKey x) then m' else <[mkOutPoint txid (Z.of_nat i) := mkCoin x cb h]> m'
  end.

(** The same operations on a plain set. [None] is a misuse: adding a spent coin, adding
    over an existing coin without saying so, a null best block, or a write before the best block is known. *)
Definition spec_op (s : coin_set) (op : coin_op) : option (coin_set * coin_obs) :=
  let m := cs_coins s in
  match op with
  | OpGet o => Some (s, ObsCoin (m !! o))
  | OpHave o => Some (s, ObsBool (bool_decide (is_Some (m !! o))))
  | OpAdd o cn ow =>
      if IsSpent cn || negb ow && bool_decide (is_Some (m !! o)) then None
      else Some (cs_update s (if IsUnspendable (scriptPubKey (out cn)) then m else <[o := cn]> m), ObsNone)
  | OpAddTx txid tx h check =>
      let outs := vout tx in
      if existsb (fun x => nValue x =? -1) outs
         || negb check && negb (IsCoinBase tx)
            && existsb (fun j => bool_decide (is_Some (m !! mkOutPoint txid (Z.of_nat j)))) (seq 0 (length outs))
      then None
      else Some (cs_update s (cs_add_outputs m txid (IsCoinBase tx) h 0 outs), ObsNone)
  | OpSpend o => Some (cs_update s (delete o m), ObsCoin (m !! o))
  | OpHaveInputs tx =>
      Some (s, ObsBool (IsCoinBase tx || forallb (fun i => bool_decide (is_Some (m !! prevout i))) (vin tx)))
  | OpUncache _ => Some (s, ObsNone)
  | OpBest => Some (mkCoinSet m (cs_best s) (cs_known s || negb (cs_best s =? 0)), ObsHash (cs_best s))
  | OpSetBest h => if h =? 0 then None else Some (mkCoinSet m h true, ObsNone)
  | OpFlush | OpSync => if cs_known s then Some (s, ObsBool true) else None
  end.

Fixpoint run_list {S O : Type} (f : S -> O -> option (S * coin_obs)) (s : S) (l : list O) : option (S * list coin_obs) :=
  match l with
  | [] => Some (s, [])
  | op :: l' => '(s1, x) ← f s op; '(s2, xs) ← run_list f s1 l'; Some (s2, x :: xs)
  end.

Section Refinement.
Context {B : Type} {HV : CoinsView B} {HL : LawfulView B}.
#[local] Abbreviation cache := (CCoinsViewCache B).

Definition represents (c : cache) (s : coin_set) : Prop :=
  cache_inv c /\ (forall o, cache_coin c o = cs_coins s !! o) /\ cache_best c = cs_best s /\
  (cs_known s = true -> hashBlock c <> 0).

Lemma represents_same (c c' : cache) (s : coin_set) :
  represents c s -> cache_inv c' -> (forall o, cache_coin c' o = cache_coin c o) -> cache_best c' = cache_best c ->
  hashBlock c' = hashBlock c -> represents c' s.
Proof.
  intros (_ & Hm & Hb & Hk) Hc' Hs Hb' Hh. split; [done|]. split; [intros; by rewrite Hs|].
  split; [congruence|]. by rewrite Hh.
Qed.

Lemma FetchCoin_hashBlock (c : cache) (o : COutPoint) : hashBlock (FetchCoin c o).1 = hashBlock c.
Proof. unfold FetchCoin. destruct (cacheCoins c !! o); [done|]. by destruct (base_GetCoin (base c) o) as [b [cn|]]. Qed.

Lemma HaveCoin_hashBlock (c : cache) (o : COutPoint) : hashBlock (HaveCoin c o).1 = hashBlock c.
Proof. unfold HaveCoin. pose proof (FetchCoin_hashBlock c o). by destruct (FetchCoin c o). Qed.

Lemma SpendCoin_hashBlock (c : cache) (o : COutPoint) : hashBlock (SpendCoin c o).1 = hashBlock c.
Proof.
  unfold SpendCoin. pose proof (FetchCoin_hashBlock c o) as H. destruct (FetchCoin c o) as [c' [e|]]; [|done].
  by destruct (IsFresh e).
Qed.

Lemma AddCoin_hashBlock (c c' : cache) (o : COutPoint) (cn : Coin) (ow : bool) :
  AddCoin c o cn ow = Some c' -> hashBlock c' = hashBlock c.
Proof.
  unfold AddCoin. destruct (IsSpent cn); [done|]. destruct (IsUnspendable _); [by intros [= ->]|].
  destruct (negb ow && _); [done|]. by intros [= <-].
Qed.

Lemma AddCoins_hashBlock (outs : list CTxOut) (c c' : cache) (txid : uint256) (cb check : bool) (h : Z) (i : nat) :
  AddCoins_loop c txid cb check h i outs = Some c' -> hashBlock c' = hashBlock c.
Proof.
  revert c i; induction outs as [|x outs IH]; intros c i; cbn [AddCoins_loop]; [by intros [= ->]|].
  assert (exists c1 ow, (if check then HaveCoin c (mkOutPoint txid (Z.of_nat i)) else (c, cb)) = (c1, ow) /\
    hashBlock c1 = hashBlock c) as (c1 & ow & -> & H1).
  { destruct check; [|eauto]. pose proof (HaveCoin_hashBlock c (mkOutPoint txid (Z.of_nat i))). destruct (HaveCoin _ _). eauto. }
  intros (c2 & E & H2)%bind_Some. apply IH in H2. apply AddCoin_hashBlock in E. congruence.
Qed.

Lemma HaveInputs_hashBlock (ins : list CTxIn) (c : cache) : hashBlock (HaveInputs_loop c ins).1 = hashBlock c.
Proof.
  revert c; induction ins as [|i ins IH]; intros c; [done|]. cbn [HaveInputs_loop].
  pose proof (HaveCoin_hashBlock c (prevout i)) as H. destruct (HaveCoin c (prevout i)) as [c1 []]; cbn [negb]; [|done].
  by rewrite IH.
Qed.

Lemma cs_add_outputs_lookup (outs : list CTxOut) (m : gmap COutPoint Coin) (txid : uint256) (cb : bool) (h : Z) (i : nat) (o : COutPoint) :
  cs_add_outputs m txid cb h i outs !! o =
    match lookup_out txid i outs o with
    | Some x => if IsUnspendable (scriptPubKey x) then m !! o else Some (mkCoin x cb h)
    | None => m !! o
    end.
Proof.
  revert i; induction outs as [|x outs IH]; intros i; cbn [cs_add_outputs].
  { unfold lookup_out. by destruct (decide _). }
  rewrite lookup_out_cons. case_bool_decide as E.
  - subst o. destruct (IsUnspendable _); [|by rewrite lookup_insert_eq].
    rewrite IH. unfold lookup_out. by rewrite decide_False by (cbn; lia).
  - destruct (IsUnspendable _); [apply IH|]. rewrite lookup_insert_ne by congruence. apply IH.
Qed.

Lemma Flush_hashBlock (c c' : cache) (ok : bool) : Flush c = Some (ok, c') -> hashBlock c' = hashBlock c.
Proof. unfold Flush. intros ([[] b] & _ & H)%bind_Some; by injection H as <- <-. Qed.

Lemma cursor_loop_hashBlock (keys : list COutPoint) (c c' : cache) : cursor_loop c keys = Some c' -> hashBlock c' = hashBlock c.
Proof.
  revert c; induction keys as [|o keys IH]; intros c; cbn [cursor_loop]; [by intros [= ->]|].
  intros (c1 & H1 & H2)%bind_Some. apply IH in H2. unfold NextAndMaybeErase in H1. apply bind_Some in H1 as (e & _ & H1).
  destruct (IsSpent (coin e)); [destruct (_ =? 0); [|done]|]; injection H1 as <-; by rewrite H2.
Qed.

Lemma Sync_hashBlock (c c' : cache) (ok : bool) : Sync c = Some (ok, c') -> hashBlock c' = hashBlock c.
Proof.
  unfold Sync. intros ([[] b] & _ & H)%bind_Some; [|by injection H as <- <-].
  apply bind_Some in H as (c1 & H1 & H2). case_bool_decide; [|done]. injection H2 as <- <-.
  by apply cursor_loop_hashBlock in H1.
Qed.

Lemma run_OpAddTx (c : cache) (s s' : coin_set) (x : coin_obs) (txid : uint256) (tx : CTransaction) (h : Z) (check : bool) :
  represents c s -> spec_op s (OpAddTx txid tx h check) = Some (s', x) ->
  exists c', run_op c (OpAddTx txid tx h check) = Some (c', x) /\ represents c' s'.
Proof.
  intros (Hc & Hm & Hb & Hk) Hs. cbn [spec_op] in Hs. destruct (_ || _) eqn:E in Hs; [done|]. injection Hs as <- <-.
  apply orb_false_iff in E as [E1 E2]. apply existsb_false_Forall in E1.
  destruct (AddCoins_loop_spec (vout tx) c txid (IsCoinBase tx) check h 0 Hc) as (c' & Hr & Hc' & Hb' & Hs').
  - eapply Forall_impl; [exact E1|]. cbn. intros y Hy. by apply Z.eqb_neq.
  - intros -> Hcb j Hj. rewrite Hcb in E2. cbn [negb andb] in E2. apply existsb_false_Forall in E2. rewrite Forall_forall in E2.
    specialize (E2 j). rewrite Hm. cbn [Nat.add]. apply eq_None_not_Some. eapply bool_decide_eq_false_1, E2.
    apply elem_of_seq. lia.
  - cbn [run_op]. unfold AddCoins. rewrite Hr. eexists. split; [reflexivity|]. split; [done|].
    split; [intros o; cbn [cs_update cs_coins]; by rewrite Hs', (cs_add_outputs_lookup _ (cs_coins s)), Hm|]. split; [by rewrite Hb'|].
    by rewrite (AddCoins_hashBlock _ _ _ _ _ _ _ _ Hr).
Qed.

Lemma run_OpAdd (c : cache) (s s' : coin_set) (x : coin_obs) (o : COutPoint) (cn : Coin) (ow : bool) :
  represents c s -> spec_op s (OpAdd o cn ow) = Some (s', x) ->
  exists c', run_op c (OpAdd o cn ow) = Some (c', x) /\ represents c' s'.
Proof.
  intros (Hc & Hm & Hb & Hk) Hs. cbn [spec_op] in Hs. destruct (IsSpent cn || _) eqn:E in Hs; [done|]. injection Hs as <- <-.
  apply orb_false_iff in E as [E1 E2]. destruct (AddCoin_spec c o cn ow Hc E1) as (c' & Hr & Hc' & Hb' & Hs').
  - intros ->. cbn [negb andb] in E2. rewrite Hm. by apply bool_decide_eq_false_1, eq_None_not_Some in E2.
  - cbn [run_op]. rewrite Hr. eexists. split; [reflexivity|]. split; [done|]. split; [|split; [by rewrite Hb'|]].
    + clear E2. intros o'. rewrite Hs', Hm. cbn [cs_update cs_coins]. destruct (IsUnspendable _); [done|]. case_bool_decide as Eo.
      * subst. by rewrite lookup_insert_eq.
      * by rewrite lookup_insert_ne by congruence.
    + by rewrite (AddCoin_hashBlock _ _ _ _ _ Hr).
Qed.

Lemma run_OpSpend (c : cache) (s : coin_set) (o : COutPoint) :
  represents c s ->
  exists c', run_op c (OpSpend o) = Some (c', ObsCoin (cs_coins s !! o)) /\ represents c' (cs_update s (delete o (cs_coins s))).
Proof.
  intros (Hc & Hm & Hb & Hk). cbn [run_op]. pose proof (SpendCoin_spec c o Hc) as Hs. pose proof (SpendCoin_hashBlock c o) as Hh.
  destruct (SpendCoin c o) as [c' r]. destruct Hs as (Hc' & Hb' & Hs & Hr). exists c'. rewrite Hr, Hm. split; [done|].
  split; [done|]. split; [|split; [by rewrite Hb'|by cbn in Hh; rewrite Hh]]. intros o'. rewrite Hs, Hm. cbn [cs_update cs_coins]. case_bool_decide as E.
  - subst. by rewrite lookup_delete_eq.
  - by rewrite lookup_delete_ne by congruence.
Qed.

Lemma run_OpHaveInputs (c : cache) (s : coin_set) (tx : CTransaction) :
  represents c s ->
  exists c', run_op c (OpHaveInputs tx) =
      Some (c', ObsBool (IsCoinBase tx || forallb (fun i => bool_decide (is_Some (cs_coins s !! prevout i))) (vin tx))) /\
    represents c' s.
Proof.
  intros Hrep. pose proof Hrep as (Hc & Hm & _ & _). cbn [run_op]. unfold HaveInputs.
  destruct (IsCoinBase tx); cbn [negb orb]; [eauto|].
  pose proof (HaveInputs_loop_spec (vin tx) c Hc) as Hs. pose proof (HaveInputs_hashBlock (vin tx) c) as Hh.
  destruct (HaveInputs_loop c (vin tx)) as [c' r]. destruct Hs as (Hc' & Hs & Hb & Hr). exists c'.
  split; [|by apply (represents_same c)]. do 3 f_equal. apply eq_true_iff_eq. rewrite Hr, forallb_forall, Forall_forall.
  split; intros H y Hy; specialize (H y); rewrite <- list_elem_of_In, bool_decide_eq_true, <- Hm in *; auto.
Qed.

(** Every operation a plain set allows, the cache performs with the same answer. *)
Lemma run_op_refines (c : cache) (s s' : coin_set) (op : coin_op) (x : coin_obs) :
  represents c s -> spec_op s op = Some (s', x) -> exists c', run_op c op = Some (c', x) /\ represents c' s'.
Proof.
  intros Hrep Hs. pose proof Hrep as (Hc & Hm & Hb & Hk). destruct op; cbn [run_op spec_op] in *.
  - injection Hs as <- <-. pose proof (GetCoin_spec c o Hc) as H. pose proof (FetchCoin_hashBlock c o) as Hh.
    assert (hashBlock (GetCoin c o).1 = hashBlock c) as Hh' by (unfold GetCoin; by destruct (FetchCoin c o)).
    destruct (GetCoin c o) as [c' r]. destruct H as (Hc' & -> & H1 & H2). exists c'. rewrite Hm. split; [done|].
    by apply (represents_same c).
  - injection Hs as <- <-. pose proof (HaveCoin_spec c o Hc) as H. pose proof (HaveCoin_hashBlock c o) as Hh.
    destruct (HaveCoin c o) as [c' r]. destruct H as (Hc' & -> & H1 & H2). exists c'. rewrite Hm. split; [done|].
    by apply (represents_same c).
  - by apply (run_OpAdd c s).
  - by apply (run_OpAddTx c s).
  - injection Hs as <- <-. by apply run_OpSpend.
  - injection Hs as <- <-. by apply run_OpHaveInputs.
  - injection Hs as <- <-. destruct (Uncache_spec c o Hc) as (Hc' & H1 & H2). eexists. split; [done|].
    apply (represents_same c); try done. unfold Uncache. destruct (cacheCoins c !! o) as [e|]; [|done]. by destruct (_ && _).
  - injection Hs as <- <-. pose proof (GetBestBlock_spec c Hc) as H.
    assert (hashBlock (GetBestBlock c).1 = cache_best c) as Hh.
    { unfold GetBestBlock, cache_best in *. destruct (hashBlock c =? 0); [|done]. destruct (base_GetBestBlock (base c)). cbn. tauto. }
    destruct (GetBestBlock c) as [c' h]. destruct H as (Hc' & -> & H1 & H2). exists c'. rewrite <- Hb. split; [done|].
    split; [done|]. split; [intros; by rewrite H1|]. split; [done|]. cbn in *. rewrite Hh. unfold cache_best in *.
    destruct (Z.eqb_spec (hashBlock c) 0) as [E|E]; [|done]. destruct (cs_known s); [by specialize (Hk eq_refl)|].
    cbn. by destruct (Z.eqb_spec (view_best (base c)) 0).
  - destruct (Z.eqb_spec h 0) as [|E]; [done|]. injection Hs as <- <-. eexists. split; [done|].
    split; [by apply set_hashBlock_inv|]. split; [exact Hm|]. split; [|done]. unfold cache_best. cbn.
    by rewrite (proj2 (Z.eqb_neq h 0)).
  - destruct (cs_known s) eqn:Ek; [|done]. injection Hs as <- <-.
    destruct (Flush_spec c Hc (Hk eq_refl)) as (c' & Hr & Hc' & _ & H1 & _ & H2). rewrite Hr. eexists. split; [done|].
    apply (represents_same c); try done; [apply H2|]. by apply Flush_hashBlock in Hr.
  - destruct (cs_known s) eqn:Ek; [|done]. injection Hs as <- <-.
    destruct (Sync_spec c Hc (Hk eq_refl)) as (c' & Hr & Hc' & _ & H1 & _ & H2). rewrite Hr. eexists. split; [done|].
    apply (represents_same c); try done; [apply H2|]. by apply Sync_hashBlock in Hr.
Qed.

End Refinement.

(** ** Isolation: the view below only changes on a write back *)

Section Isolation.
Context {B : Type} {HV : CoinsView B} {HL : LawfulView B}.
#[local] Abbreviation cache := (CCoinsViewCache B).

(** Two backing views that hold the same coins and best block. *)
Definition same_base (c c' : cache) : Prop :=
  view_inv (base c') /\ (forall o, view_coin (base c') o = view_coin (base c) o) /\ view_best (base c') = view_best (base c).

#[local] Instance same_base_trans : Transitive same_base.
Proof.
  intros c1 c2 c3 (_ & H1 & H2) (H3 & H4 & H5). split; [done|]. split; [intros; by rewrite H4|congruence].
Qed.

Lemma same_base_refl (c : cache) : view_inv (base c) -> same_base c c.
Proof. done. Qed.

Lemma FetchCoin_base (c : cache) (o : COutPoint) : view_inv (base c) -> same_base c (FetchCoin c o).1.
Proof.
  intros Hb. unfold FetchCoin. destruct (cacheCoins c !! o); [done|]. pose proof (lv_GetCoin (base c) o Hb) as H.
  destruct (base_GetCoin (base c) o) as [b r]. destruct H as (H1 & _ & H2 & H3). by destruct r.
Qed.

Lemma HaveCoin_base (c : cache) (o : COutPoint) : view_inv (base c) -> same_base c (HaveCoin c o).1.
Proof. intros Hb. unfold HaveCoin. pose proof (FetchCoin_base c o Hb). by destruct (FetchCoin c o). Qed.

Lemma AddCoin_base (c c' : cache) (o : COutPoint) (cn : Coin) (ow : bool) : AddCoin c o cn ow = Some c' -> base c' = base c.
Proof.
  unfold AddCoin. destruct (IsSpent cn); [done|]. destruct (IsUnspendable _); [by intros [= ->]|].
  destruct (negb ow && _); [done|]. by intros [= <-].
Qed.

Lemma AddCoins_base (outs : list CTxOut) (c c' : cache) (txid : uint256) (cb check : bool) (h : Z) (i : nat) :
  view_inv (base c) -> AddCoins_loop c txid cb check h i outs = Some c' -> same_base c c'.
Proof.
  revert c i; induction outs as [|x outs IH]; intros c i Hb; cbn [AddCoins_loop]; [by intros [= ->]|].
  assert (exists c1 ow, (if check then HaveCoin c (mkOutPoint txid (Z.of_nat i)) else (c, cb)) = (c1, ow) /\ same_base c c1)
    as (c1 & ow & -> & H1).
  { destruct check; [|eauto using same_base_refl]. pose proof (HaveCoin_base c (mkOutPoint txid (Z.of_nat i)) Hb).
    destruct (HaveCoin _ _). eauto. }
  intros (c2 & E%AddCoin_base & H2)%bind_Some. trans c1; [done|]. destruct H1 as [H1 _].
  apply IH in H2; [|by rewrite E]. unfold same_base in *. by rewrite E in H2.
Qed.

Lemma HaveInputs_base (ins : list CTxIn) (c : cache) : view_inv (base c) -> same_base c (HaveInputs_loop c ins).1.
Proof.
  revert c; induction ins as [|i ins IH]; intros c Hb; [done|]. cbn [HaveInputs_loop].
  pose proof (HaveCoin_base c (prevout i) Hb) as H. destruct (HaveCoin c (prevout i)) as [c1 []]; cbn [negb]; [|done].
  trans c1; [done|]. apply IH, H.
Qed.

Definition writes_back (op : coin_op) : bool := match op with OpFlush | OpSync => true | _ => false end.

Lemma run_op_base (c c' : cache) (op : coin_op) (x : coin_obs) :
  view_inv (base c) -> writes_back op = false -> run_op c op = Some (c', x) -> same_base c c'.
Proof.
  intros Hb Hw Hr. destruct op; cbn [run_op writes_back] in *; try discriminate Hw.
  - unfold GetCoin in Hr. pose proof (FetchCoin_base c o Hb). destruct (FetchCoin c o). by injection Hr as <- _.
  - pose proof (HaveCoin_base c o Hb). destruct (HaveCoin c o). by injection Hr as <- _.
  - apply bind_Some in Hr as (c1 & E%AddCoin_base & Hr). injection Hr as <- _. unfold same_base. by rewrite E.
  - apply bind_Some in Hr as (c1 & E & Hr). injection Hr as <- _. by eapply AddCoins_base.
  - unfold SpendCoin in Hr. pose proof (FetchCoin_base c o Hb). destruct (FetchCoin c o) as [c1 [e|]]; injection Hr as <- _; [|done].
    by destruct (IsFresh e).
  - unfold HaveInputs in Hr. pose proof (HaveInputs_base (vin tx) c Hb).
    destruct (negb (IsCoinBase tx)); [destruct (HaveInputs_loop c (vin tx))|]; by injection Hr as <- _.
  - injection Hr as <- _. unfold Uncache. destruct (cacheCoins c !! o) as [e|]; [|done]. by destruct (_ && _).
  - unfold GetBestBlock in Hr. pose proof (lv_GetBestBlock (base c) Hb) as H.
    destruct (hashBlock c =? 0); [|by injection Hr as <- _].
    destruct (base_GetBestBlock (base c)). injection Hr as <- _. destruct H as (H1 & _ & H2). done.
  - by injection Hr as <- _.
Qed.

End Isolation.

(** ** A stack of two empty caches over a database with one coin *)

Definition new_cache {B : Type} (b : B) : CCoinsViewCache B := mkCache b 0 [] ∅ 0.

Lemma new_cache_inv {B : Type} {HV : CoinsView B} {HL : LawfulView B} (b : B) : view_inv b -> cache_inv (new_cache b).
Proof.
  intros Hb. constructor; [done|done|constructor| |done]. intros o. cbn. split; [by intros ?%not_elem_of_nil|].
  by intros (e & He & _).
Qed.

Definition example_out : COutPoint := mkOutPoint 11 0.
Definition example_coin : Coin := mkCoin (mkTxOut 5000 [0x51]) false 3.
Definition example_db : MapView := mkMapView {[example_out := example_coin]} 5.
Definition example_stack : CCoinsViewCache (CCoinsViewCache MapView) := new_cache (new_cache example_db).
Definition example_tx : CTransaction :=
  {| vin := [mkTxIn example_out [] 0 []]; vout := [mkTxOut 4000 [0x51]; mkTxOut 0 [OP_RETURN]];
     tx_version := 2; nLockTime := 0 |}.

Definition example_set : coin_set := mkCoinSet {[example_out := example_coin]} 5 false.
Definition example_ops : list coin_op :=
  [OpHaveInputs example_tx; OpSpend example_out; OpAddTx 12 example_tx 4 false; OpGet (mkOutPoint 12 0);
   OpGet (mkOutPoint 12 1); OpSetBest 6; OpFlush; OpGet example_out; OpSync].

Lemma example_db_inv : view_inv example_db.
Proof. intros o c Hc. unfold example_db in Hc; cbn [mv_coins] in Hc. by apply lookup_singleton_Some in Hc as [_ <-]. Qed.

Lemma example_stack_represents : represents example_stack example_set.
Proof. split; [apply new_cache_inv, (new_cache_inv example_db), example_db_inv|]. done. Qed.

(** ** Properties *)

(** C7: the coins cache is a faithful set of coins over any lawful backing view (another cache included): a
    sequence of operations a plain set of coins allows runs on the cache without a failed assertion or an
    exception, gives the same answers, ends in a cache that represents the same set, and [SanityCheck] passes there. *)
Theorem CCoinsViewCache_refines_coin_set {B : Type} {HV : CoinsView B} {HL : LawfulView B}
    (c : CCoinsViewCache B) (s s' : coin_set) (ops : list coin_op) (xs : list coin_obs) :
  represents c s -> run_list spec_op s ops = Some (s', xs) ->
  exists c', run_list run_op c ops = Some (c', xs) /\ represents c' s' /\ SanityCheck c' = true.
Proof.
  revert c s xs; induction ops as [|op ops IH]; intros c s xs Hrep; cbn [run_list].
  - intros [= <- <-]. exists c. split; [done|]. split; [done|]. apply SanityCheck_spec, Hrep.
  - intros ([s1 x] & H1 & ([s2 ys] & H2 & H3)%bind_Some)%bind_Some. injection H3 as <- <-.
    destruct (run_op_refines c s s1 op x Hrep H1) as (c1 & -> & Hrep1).
    destruct (IH c1 s1 ys Hrep1 H2) as (c' & E & Hrep'). exists c'. split; [|done]. cbn [mbind option_bind]. by rewrite E.
Qed.

(** Writing back is complete: with the best block set, both [Flush] and [Sync] succeed, leave the set of
    coins and the best block the cache shows unchanged, and put exactly that set and that best block in the view
    below; [Flush] leaves an empty cache, [Sync] one without flagged entries. *)
Theorem write_back_complete {B : Type} {HV : CoinsView B} {HL : LawfulView B} (c : CCoinsViewCache B) :
  cache_inv c -> hashBlock c <> 0 ->
  (exists c', Flush c = Some (true, c') /\ cacheCoins c' = ∅ /\ view_best (base c') = cache_best c /\
     forall o, cache_coin c' o = cache_coin c o /\ view_coin (base c') o = cache_coin c o) /\
  (exists c', Sync c = Some (true, c') /\ m_flagged c' = [] /\ view_best (base c') = cache_best c /\
     forall o, cache_coin c' o = cache_coin c o /\ view_coin (base c') o = cache_coin c o).
Proof.
  intros Hc Hh. destruct (Flush_spec c Hc Hh) as (c1 & ?). destruct (Sync_spec c Hc Hh) as (c2 & ?).
  split; [exists c1|exists c2]; tauto.
Qed.

(** Until a write back nothing reaches the view below: after any sequence of operations without [Flush] and
    [Sync] it holds the same coins and the same best block, so a cache that is dropped leaves no trace. *)
Theorem dropped_cache_leaves_no_trace {B : Type} {HV : CoinsView B} {HL : LawfulView B}
    (c c' : CCoinsViewCache B) (ops : list coin_op) (xs : list coin_obs) :
  view_inv (base c) -> existsb writes_back ops = false -> run_list run_op c ops = Some (c', xs) ->
  view_best (base c') = view_best (base c) /\ forall o, view_coin (base c') o = view_coin (base c) o.
Proof.
  revert c xs; induction ops as [|op ops IH]; intros c xs Hb; cbn [run_list existsb].
  - by intros _ [= <- <-].
  - intros [Hw Hws]%orb_false_iff ([c1 x] & H1 & ([c2 ys] & H2 & H3)%bind_Some)%bind_Some. injection H3 as -> <-.
    destruct (run_op_base c c1 op x Hb Hw H1) as (Hb1 & Hs1 & Hh1). destruct (IH c1 ys Hb1 Hws H2) as [H3 H4].
    split; [congruence|]. intros o. by rewrite H4, Hs1.
Qed.

Lemma CCoinsViewCache_refines_coin_set_witness :
  exists s' c' xs, run_list run_op example_stack example_ops = Some (c', xs) /\ represents c' s' /\ SanityCheck c' = true /\
    xs = [ObsBool true; ObsCoin (Some example_coin); ObsNone; ObsCoin (Some (mkCoin (mkTxOut 4000 [0x51]) false 4));
          ObsCoin None; ObsNone; ObsBool true; ObsCoin None; ObsBool true].
Proof.
  destruct (run_list spec_op example_set example_ops) as [[s' xs]|] eqn:E; [|by vm_compute in E].
  destruct (CCoinsViewCache_refines_coin_set example_stack example_set s' example_ops xs example_stack_represents E)
    as (c' & H1 & H2 & H3).
  exists s', c', xs. split; [exact H1|]. split; [exact H2|]. split; [exact H3|].
  apply (f_equal (fun r => from_option snd [] r)) in E. cbn [from_option snd] in E. rewrite <- E. vm_compute. reflexivity.
Defined.

Lemma write_back_complete_witness :
  exists c', Flush (SetBestBlock (SpendCoin example_stack example_out).1 6) = Some (true, c') /\
    view_best (base c') = 6 /\ view_coin (base c') example_out = None.
Proof.
  destruct (write_back_complete (SetBestBlock (SpendCoin example_stack example_out).1 6)) as [(c' & H1 & _ & H2 & H3) _].
  - pose proof (SpendCoin_spec example_stack example_out (proj1 example_stack_represents)) as H.
    destruct (SpendCoin example_stack example_out). apply set_hashBlock_inv, H.
  - done.
  - exists c'. split; [exact H1|]. split; [exact H2|]. by rewrite (proj2 (H3 example_out)).
Defined.

Lemma dropped_cache_leaves_no_trace_witness :
  exists c' xs, run_list run_op (new_cache example_db) [OpSpend example_out; OpSetBest 6] = Some (c', xs) /\
    cache_coin c' example_out = None /\ view_coin (base c') example_out = Some example_coin.
Proof.
  eexists _, _. split; [reflexivity|]. split; [reflexivity|].
  apply (dropped_cache_leaves_no_trace (new_cache example_db) _ [OpSpend example_out; OpSetBest 6] _
    example_db_inv eq_refl eq_refl).
Defined.
