(* ===== verification/TxVerify.v ===== *)
(** * Contextual transaction checks: src/src/consensus/tx_verify.cpp

    Finality, relative lock times, signature operation cost and
    [Consensus::CheckTxInputs] over the coins cache. *)

From stdpp Require Import pretty.
From S2P Require Import Prelude ValidationState Serialize ArithUint256 Chain Params Pow Subsidy Transaction Script TxCheck Coins.
#[local] Open Scope Z_scope.

(** ** Lock times *)

Definition LOCKTIME_THRESHOLD : Z := 500000000.
Definition LOCKTIME_VERIFY_SEQUENCE : Z := 1.
Definition SEQUENCE_LOCKTIME_DISABLE_FLAG : Z := Z.shiftl 1 31.
Definition SEQUENCE_LOCKTIME_TYPE_FLAG : Z := Z.shiftl 1 22.
Definition SEQUENCE_LOCKTIME_MASK : Z := 0x0000ffff.
Definition SEQUENCE_LOCKTIME_GRANULARITY : Z := 9.

(** [IsFinalTx] *)
Definition IsFinalTx (tx : CTransaction) (nBlockHeight nBlockTime : Z) : bool :=
  if nLockTime tx =? 0 then true
  else if nLockTime tx <? (if nLockTime tx <? LOCKTIME_THRESHOLD then nBlockHeight else nBlockTime) then true
  else forallb (fun txin => nSequence txin =? SEQUENCE_FINAL) (vin tx).

(** The loop of [CalculateSequenceLocks]: the lock pair and the updated [prevHeights]. *)
Fixpoint CalculateSequenceLocks_loop (m : BlockMap) (block : uint256) (ins : list CTxIn) (prevHeights : list Z)
    (nMinHeight nMinTime : Z) : option (Z * Z * list Z) :=
  match ins, prevHeights with
  | txin :: ins', nCoinHeight :: prevHeights' =>
      if negb (Z.land (nSequence txin) SEQUENCE_LOCKTIME_DISABLE_FLAG =? 0) then
        '(nMinHeight, nMinTime, hs) ← CalculateSequenceLocks_loop m block ins' prevHeights' nMinHeight nMinTime;
        Some (nMinHeight, nMinTime, 0 :: hs)
      else
        let value := Z.land (nSequence txin) SEQUENCE_LOCKTIME_MASK in
        '(nMinHeight, nMinTime) ←
          (if negb (Z.land (nSequence txin) SEQUENCE_LOCKTIME_TYPE_FLAG =? 0) then
             a ← GetAncestor m block (Z.max (nCoinHeight - 1) 0);
             p ← a;
             nCoinTime ← GetMedianTimePast m p;
             Some (nMinHeight, Z.max nMinTime (nCoinTime + Z.shiftl value SEQUENCE_LOCKTIME_GRANULARITY - 1))
           else Some (Z.max nMinHeight (nCoinHeight + value - 1), nMinTime));
        '(nMinHeight, nMinTime, hs) ← CalculateSequenceLocks_loop m block ins' prevHeights' nMinHeight nMinTime;
        Some (nMinHeight, nMinTime, nCoinHeight :: hs)
  | _, _ => Some (nMinHeight, nMinTime, [])
  end.

(** [CalculateSequenceLocks] *)
Definition CalculateSequenceLocks (m : BlockMap) (tx : CTransaction) (flags : Z) (prevHeights : list Z) (block : uint256)
  : option (Z * Z * list Z) :=
  if negb (length prevHeights =? length (vin tx))%nat then None
  else
    let fEnforceBIP68 := (tx_version tx >=? 2) && negb (Z.land flags LOCKTIME_VERIFY_SEQUENCE =? 0) in
    if negb fEnforceBIP68 then Some (-1, -1, prevHeights)
    else CalculateSequenceLocks_loop m block (vin tx) prevHeights (-1) (-1).

(** [EvaluateSequenceLocks] *)
Definition EvaluateSequenceLocks (m : BlockMap) (block : uint256) (lockPair : Z * Z) : option bool :=
  b ← m !! block;
  prev ← pprev b;
  nBlockTime ← GetMedianTimePast m prev;
  Some (negb ((lockPair.1 >=? nHeight b) || (lockPair.2 >=? nBlockTime))).

(** [SequenceLocks] *)
Definition SequenceLocks (m : BlockMap) (tx : CTransaction) (flags : Z) (prevHeights : list Z) (block : uint256) : option bool :=
  '(h, t, _) ← CalculateSequenceLocks m tx flags prevHeights block;
  EvaluateSequenceLocks m block (h, t).

(** ** Signature operations *)

Definition WITNESS_V0_SCRIPTHASH_SIZE : Z := 32.
Definition WITNESS_V0_KEYHASH_SIZE : Z := 20.

(** [WitnessSigOps] *)
Definition WitnessSigOps (witversion : Z) (witprogram : list Z) (witness : list (list Z)) : option Z :=
  if witversion =? 0 then
    if Z.of_nat (length witprogram) =? WITNESS_V0_KEYHASH_SIZE then Some 1
    else
      match last witness with
      | Some back => if Z.of_nat (length witprogram) =? WITNESS_V0_SCRIPTHASH_SIZE then GetSigOpCount back true else Some 0
      | None => Some 0
      end
  else Some 0.

(** The data of the last operation of a script, whatever its operations are. *)
Fixpoint last_data_loop (fuel : nat) (pc data : list Z) : option (list Z) :=
  match pc with
  | [] => Some data
  | _ => match fuel with O => None | S fuel' => last_data_loop fuel' (op_rest (GetScriptOp pc)) (op_data (GetScriptOp pc)) end
  end.

(** [CountWitnessSigOps] *)
Definition CountWitnessSigOps (scriptSig scriptPubKey : CScript) (witness : list (list Z)) (flags : Z) : option Z :=
  if Z.land flags SCRIPT_VERIFY_WITNESS =? 0 then Some 0
  else if Z.land flags SCRIPT_VERIFY_P2SH =? 0 then None
  else
    p ← IsWitnessProgram scriptPubKey;
    match p with
    | Some (version, program) => WitnessSigOps version program witness
    | None =>
        if IsPayToScriptHash scriptPubKey then
          push_only ← IsPushOnly scriptSig;
          if (push_only : bool) then
            data ← last_data_loop (length scriptSig) scriptSig [];
            q ← IsWitnessProgram data;
            match q with Some (version, program) => WitnessSigOps version program witness | None => Some 0 end
          else Some 0
        else Some 0
    end.

(** [GetLegacySigOpCount] *)
Fixpoint sum_sigops (scripts : list CScript) (nSigOps : Z) : option Z :=
  match scripts with
  | [] => Some nSigOps
  | s :: scripts' => n ← GetSigOpCount s false; sum_sigops scripts' (u32 (nSigOps + n))
  end.
Definition GetLegacySigOpCount (tx : CTransaction) : option Z :=
  n ← sum_sigops (map scriptSig (vin tx)) 0; sum_sigops (map scriptPubKey (vout tx)) n.

Section Inputs.
Context {B : Type} {HV : CoinsView B}.
#[local] Abbreviation cache := (CCoinsViewCache B).

(** [GetP2SHSigOpCount] *)
Fixpoint GetP2SHSigOpCount_loop (inputs : cache) (ins : list CTxIn) (nSigOps : Z) : option (cache * Z) :=
  match ins with
  | [] => Some (inputs, nSigOps)
  | i :: ins' =>
      let '(inputs, coin) := AccessCoin inputs (prevout i) in
      if IsSpent coin then None
      else
        n ← (if IsPayToScriptHash (scriptPubKey (out coin)) then GetSigOpCount_p2sh (scriptPubKey (out coin)) (scriptSig i) else Some 0);
        GetP2SHSigOpCount_loop inputs ins' (u32 (nSigOps + n))
  end.
Definition GetP2SHSigOpCount (tx : CTransaction) (inputs : cache) : option (cache * Z) :=
  if IsCoinBase tx then Some (inputs, 0) else GetP2SHSigOpCount_loop inputs (vin tx) 0.

(** [GetTransactionSigOpCost] *)
Fixpoint witness_sigops_loop (inputs : cache) (ins : list CTxIn) (flags nSigOps : Z) : option (cache * Z) :=
  match ins with
  | [] => Some (inputs, nSigOps)
  | i :: ins' =>
      let '(inputs, coin) := AccessCoin inputs (prevout i) in
      if IsSpent coin then None
      else
        n ← CountWitnessSigOps (scriptSig i) (scriptPubKey (out coin)) (scriptWitness i) flags;
        witness_sigops_loop inputs ins' flags (i64 (nSigOps + n))
  end.
Definition GetTransactionSigOpCost (tx : CTransaction) (inputs : cache) (flags : Z) : option (cache * Z) :=
  legacy ← GetLegacySigOpCount tx;
  let nSigOps := u32 (legacy * WITNESS_SCALE_FACTOR) in
  if IsCoinBase tx then Some (inputs, nSigOps)
  else
    '(inputs, nSigOps) ←
      (if negb (Z.land flags SCRIPT_VERIFY_P2SH =? 0) then
         '(inputs, n) ← GetP2SHSigOpCount tx inputs; Some (inputs, i64 (nSigOps + u32 (n * WITNESS_SCALE_FACTOR)))
       else Some (inputs, nSigOps));
    witness_sigops_loop inputs (vin tx) flags nSigOps.

(** ** Inputs *)

(** [FormatMoney]: the digits after the point are trimmed to at least two. *)
Fixpoint pad_digits (n : nat) (r : Z) : list Z :=
  match n with O => [] | S n' => pad_digits n' (r / 10) ++ [r mod 10] end.
Fixpoint trim_zeros (fuel : nat) (l : list Z) : list Z :=
  match fuel with
  | O => l
  | S fuel' => if (2 <? length l)%nat && bool_decide (last l = Some 0) then trim_zeros fuel' (removelast l) else l
  end.
Definition FormatMoney (n : Z) : string :=
  let quotient := Z.abs (Z.quot n COIN) in
  let remainder := Z.abs (Z.rem n COIN) in
  let digits := trim_zeros 8 (pad_digits 8 remainder) in
  (if n <? 0 then "-" else EmptyString) +:+ pretty quotient +:+ "." +:+ foldr (fun d s => pretty d +:+ s) EmptyString digits.

(** The loop of [CheckTxInputs]: the sum of the inputs, or the failure. *)
Fixpoint CheckTxInputs_loop (inputs : cache) (ins : list CTxIn) (nSpendHeight nValueIn : Z) (state : TxValidationState)
  : option (cache * (TxValidationState + Z)) :=
  match ins with
  | [] => Some (inputs, inr nValueIn)
  | i :: ins' =>
      let '(inputs, coin) := AccessCoin inputs (prevout i) in
      if IsSpent coin then None
      else if fCoinBase coin && (nSpendHeight - coin_nHeight coin <? COINBASE_MATURITY) then
        let depth := ("tried to spend coinbase at depth " +:+ pretty (nSpendHeight - coin_nHeight coin)) in
        Some (inputs, inl (snd (Invalid state TX_PREMATURE_SPEND "bad-txns-premature-spend-of-coinbase" depth)))
      else
        let nValueIn := i64 (nValueIn + nValue (out coin)) in
        if negb (MoneyRange (nValue (out coin))) || negb (MoneyRange nValueIn) then
          Some (inputs, inl (snd (Invalid state TX_CONSENSUS "bad-txns-inputvalues-outofrange" EmptyString)))
        else CheckTxInputs_loop inputs ins' nSpendHeight nValueIn state
  end.

(** [Consensus::CheckTxInputs]: the cache after the lookups, and the fee or the failed state. *)
Definition CheckTxInputs (tx : CTransaction) (state : TxValidationState) (inputs : cache) (nSpendHeight : Z)
  : option (cache * (TxValidationState + Z)) :=
  let '(inputs, have) := HaveInputs inputs tx in
  if negb have then
    Some (inputs, inl (snd (Invalid state TX_MISSING_INPUTS "bad-txns-inputs-missingorspent" "CheckTxInputs: inputs missing/spent")))
  else
    '(inputs, r) ← CheckTxInputs_loop inputs (vin tx) nSpendHeight 0 state;
    match r with
    | inl st => Some (inputs, inl st)
    | inr nValueIn =>
        value_out ← GetValueOut tx;
        if nValueIn <? value_out then
          Some (inputs, inl (snd (Invalid state TX_CONSENSUS "bad-txns-in-belowout"
            ("value in (" +:+ FormatMoney nValueIn +:+ ") < value out (" +:+ FormatMoney value_out +:+ ")"))))
        else
          let txfee_aux := nValueIn - value_out in
          if negb (MoneyRange txfee_aux) then
            Some (inputs, inl (snd (Invalid state TX_CONSENSUS "bad-txns-fee-outofrange" EmptyString)))
          else Some (inputs, inr txfee_aux)
    end.

End Inputs.

(** ** Inputs of a transaction *)

Section Lemmas.
Context {B : Type} {HV : CoinsView B} {HL : LawfulView B}.
#[local] Abbreviation cache := (CCoinsViewCache B).

(** What an input must meet: an unspent coin in the money range, matured when it is a coinbase. *)
Definition input_ok (coins : COutPoint -> option Coin) (nSpendHeight : Z) (i : CTxIn) : Prop :=
  exists cn, coins (prevout i) = Some cn /\ (fCoinBase cn = true -> COINBASE_MATURITY <= nSpendHeight - coin_nHeight cn) /\
    0 <= nValue (out cn) <= MAX_MONEY.

Definition input_value (coins : COutPoint -> option Coin) (i : CTxIn) : Z :=
  match coins (prevout i) with Some cn => nValue (out cn) | None => 0 end.
Definition inputs_value (coins : COutPoint -> option Coin) (ins : list CTxIn) : Z :=
  foldr (fun i acc => input_value coins i + acc) 0 ins.

Lemma input_ok_ext (f g : COutPoint -> option Coin) (h : Z) (ins : list CTxIn) :
  (forall o, f o = g o) -> Forall (input_ok f h) ins <-> Forall (input_ok g h) ins.
Proof. intros H. apply Forall_iff. intros i. unfold input_ok. by rewrite H. Qed.

Lemma inputs_value_ext (f g : COutPoint -> option Coin) (ins : list CTxIn) :
  (forall o, f o = g o) -> inputs_value f ins = inputs_value g ins.
Proof.
  intros H. induction ins as [|i ins IH]; [done|]. cbn. fold (inputs_value f ins). fold (inputs_value g ins).
  unfold input_value. by rewrite H, IH.
Qed.

Lemma inputs_value_nonneg (f : COutPoint -> option Coin) (h : Z) (ins : list CTxIn) :
  Forall (input_ok f h) ins -> 0 <= inputs_value f ins.
Proof.
  induction 1 as [|i ins (cn & E & _ & H) _ IH]; [done|]. cbn. fold (inputs_value f ins). unfold input_value. rewrite E. lia.
Qed.

Lemma unspent_not_spent (cn cn' : Coin) : unspent cn = Some cn' -> IsSpent cn = false /\ cn = cn'.
Proof. unfold unspent. destruct (IsSpent cn); [done|]. by intros [= ->]. Qed.

Lemma CheckTxInputs_loop_spec (ins : list CTxIn) (c : cache) (h nValueIn : Z) (state : TxValidationState) :
  cache_inv c -> Forall (fun i => is_Some (cache_coin c (prevout i))) ins -> 0 <= nValueIn <= MAX_MONEY ->
  exists c' r, CheckTxInputs_loop c ins h nValueIn state = Some (c', r) /\
    cache_inv c' /\ (forall o, cache_coin c' o = cache_coin c o) /\ cache_best c' = cache_best c /\
    (forall v, r = inr v <-> Forall (input_ok (cache_coin c) h) ins /\ nValueIn + inputs_value (cache_coin c) ins <= MAX_MONEY /\
                             v = nValueIn + inputs_value (cache_coin c) ins) /\
    (forall st, r = inl st -> IsValidState st = false).
Proof.
  revert c nValueIn; induction ins as [|i ins IH]; intros c nValueIn Hc Hsome Hv; cbn [CheckTxInputs_loop].
  { exists c, (inr nValueIn). do 4 (split; [done|]). split; [|done]. intros v. cbn. rewrite Z.add_0_r.
    split; [intros [= ->]; split; [constructor|]; lia|intros (_ & _ & ->); done]. }
  apply Forall_cons in Hsome as [[cn Hcn] Hsome]. pose proof (AccessCoin_spec c (prevout i) Hc) as Ha.
  destruct (AccessCoin c (prevout i)) as [c1 cn1]. destruct Ha as (Hc1 & Hu & Hs1 & Hb1). rewrite Hcn in Hu.
  apply unspent_not_spent in Hu as [Hsp ->]. rewrite Hsp.
  assert (forall st v, (inl st : TxValidationState + Z) = inr v <-> False) as Hno by (intros; split; done).
  assert (forall v, nValue (out cn) + v = input_value (cache_coin c) i + v) as Hval by (intros; unfold input_value; by rewrite Hcn).
  destruct (fCoinBase cn && (h - coin_nHeight cn <? COINBASE_MATURITY)) eqn:Emat.
  { eexists c1, _. split; [reflexivity|]. do 3 (split; [done|]). split; [|by intros st [= <-]; destruct (m_mode state)].
    intros v. rewrite Hno. split; [done|]. intros [Hf _]. apply Forall_cons in Hf as [(cn' & E & Hm & _) _].
    rewrite Hcn in E. injection E as <-. apply andb_true_iff in Emat as [E1 E2]. specialize (Hm E1). lia. }
  destruct (MoneyRange (nValue (out cn))) eqn:Er; cbn [negb orb].
  2: { eexists c1, _. split; [reflexivity|]. do 3 (split; [done|]). split; [|by intros st [= <-]; destruct (m_mode state)].
       intros v. rewrite Hno. split; [done|]. intros [Hf _]. apply Forall_cons in Hf as [(cn' & E & _ & Hm) _].
       rewrite Hcn in E. injection E as <-. apply MoneyRange_iff in Hm. congruence. }
  pose proof (proj1 (MoneyRange_iff _) Er) as Hr. unfold MAX_MONEY, COIN in Hr, Hv |- *.
  rewrite i64_small by (unfold is_i64; lia). destruct (MoneyRange (nValueIn + nValue (out cn))) eqn:Es; cbn [negb].
  - apply MoneyRange_iff in Es. destruct (IH c1 (nValueIn + nValue (out cn)) Hc1) as (c2 & r & E & Hc2 & Hs2 & Hb2 & Hr2 & Hi2); [|done|].
    { eapply Forall_impl; [exact Hsome|]. intros x. cbn beta. by rewrite Hs1. }
    exists c2, r. split; [exact E|]. split; [done|]. split; [intros; by rewrite Hs2|]. split; [congruence|]. split; [|done].
    intros v. rewrite Hr2, Forall_cons, (input_ok_ext _ _ h ins Hs1), (inputs_value_ext _ _ ins Hs1).
    cbn [inputs_value foldr]. fold (inputs_value (cache_coin c) ins). rewrite <- Hval, Z.add_assoc. split; [|tauto].
    intros (H1 & H2 & H3). split; [|done]. split; [|done]. exists cn. split; [done|]. split; [|done].
    intros Ecb. rewrite Ecb in Emat. cbn [andb] in Emat. lia.
  - eexists c1, _. split; [reflexivity|]. do 3 (split; [done|]). split; [|by intros st [= <-]; destruct (m_mode state)].
    intros v. rewrite Hno. split; [done|]. intros (Hf & Hle & _). apply Forall_cons in Hf as [_ Hf].
    apply inputs_value_nonneg in Hf. cbn [inputs_value foldr] in Hle. fold (inputs_value (cache_coin c) ins) in Hle.
    rewrite <- Hval in Hle. assert (MoneyRange (nValueIn + nValue (out cn)) = true); [|congruence].
    apply MoneyRange_iff. unfold MAX_MONEY, COIN. lia.
Qed.

(** [CheckTxInputs] accepts exactly when the inputs cover the outputs. *)
Lemma CheckTxInputs_spec (tx : CTransaction) (state : TxValidationState) (c : cache) (h value_out : Z) :
  cache_inv c -> IsCoinBase tx = false -> GetValueOut tx = Some value_out ->
  exists c' r, CheckTxInputs tx state c h = Some (c', r) /\
    cache_inv c' /\ (forall o, cache_coin c' o = cache_coin c o) /\ cache_best c' = cache_best c /\
    (forall fee, r = inr fee <->
       Forall (input_ok (cache_coin c) h) (vin tx) /\ inputs_value (cache_coin c) (vin tx) <= MAX_MONEY /\
       0 <= fee /\ fee = inputs_value (cache_coin c) (vin tx) - value_out) /\
    (forall st, r = inl st -> IsValidState st = false).
Proof.
  intros Hc Hcb Hout. unfold CheckTxInputs, HaveInputs. rewrite Hcb. cbn [negb].
  pose proof (HaveInputs_loop_spec (vin tx) c Hc) as Hh. destruct (HaveInputs_loop c (vin tx)) as [c1 have].
  destruct Hh as (Hc1 & Hs1 & Hb1 & Hhave).
  assert (forall st v, (inl st : TxValidationState + Z) = inr v <-> False) as Hno by (intros; split; done).
  destruct have; cbn [negb].
  2: { eexists c1, _. split; [reflexivity|]. do 3 (split; [done|]). split; [|by intros st [= <-]; destruct (m_mode state)].
       intros fee. rewrite Hno. split; [done|]. intros (Hf & _). enough (false = true) by done. apply Hhave.
       eapply Forall_impl; [exact Hf|]. intros i (cn & E & _). by exists cn. }
  destruct (CheckTxInputs_loop_spec (vin tx) c1 h 0 state Hc1) as (c2 & r & E & Hc2 & Hs2 & Hb2 & Hr & Hi); [|done|].
  { eapply Forall_impl; [by apply Hhave|]. intros i. cbn beta. by rewrite Hs1. }
  rewrite E. cbn [mbind option_bind]. rewrite (inputs_value_ext _ _ (vin tx) Hs1) in Hr.
  setoid_rewrite (input_ok_ext _ _ h (vin tx) Hs1) in Hr.
  assert (forall o, cache_coin c2 o = cache_coin c o) as Hs by (intros; by rewrite Hs2). assert (cache_best c2 = cache_best c) as Hb by congruence.
  apply GetValueOut_spec in Hout as Hv. destruct Hv as (_ & _ & Hv). destruct r as [st|v].
  { eexists c2, _. split; [reflexivity|]. do 3 (split; [done|]). split; [|by intros st' [= <-]; apply Hi].
    intros fee. rewrite Hno. split; [done|]. intros (H1 & H2 & _).
    by specialize (proj2 (Hr _) (conj H1 (conj H2 eq_refl))). }
  pose proof (proj1 (Hr v) eq_refl) as (Hok & Hmax & ->). rewrite Hout. cbn [mbind option_bind]. rewrite Z.add_0_l in *.
  pose proof (inputs_value_nonneg _ _ _ Hok).
  destruct (Z.ltb_spec (inputs_value (cache_coin c) (vin tx)) value_out) as [Hlt|Hge].
  { eexists c2, _. split; [reflexivity|]. do 3 (split; [done|]). split; [|by intros st [= <-]; destruct (m_mode state)].
    intros fee. rewrite Hno. split; [done|lia]. }
  rewrite (proj2 (MoneyRange_iff (inputs_value (cache_coin c) (vin tx) - value_out))) by lia. cbn [negb].
  eexists c2, _. split; [reflexivity|]. do 3 (split; [done|]). split; [|done]. intros fee. split; [intros [= <-]; split; [done|lia]|].
  intros (_ & _ & _ & ->). done.
Qed.

End Lemmas.

(** ** Relative lock times *)

(** An input that spends a coin of height [nCoinHeight] may be in a block of height [height] whose parent has
    median time [time]. *)
Definition relative_lock_met (m : BlockMap) (block : uint256) (height time : Z) (txin : CTxIn) (nCoinHeight : Z) : Prop :=
  Z.land (nSequence txin) SEQUENCE_LOCKTIME_DISABLE_FLAG <> 0 \/
  let value := Z.land (nSequence txin) SEQUENCE_LOCKTIME_MASK in
  if Z.land (nSequence txin) SEQUENCE_LOCKTIME_TYPE_FLAG =? 0 then nCoinHeight + value <= height
  else exists p t, ancestor_at m block (Z.max (nCoinHeight - 1) 0) = Some p /\ GetMedianTimePast m p = Some t /\
         t + 512 * value <= time.

Lemma ancestor_time (m : BlockMap) (block : uint256) (b : CBlockIndex) (nCoinHeight : Z) :
  tree_ok m -> m !! block = Some b -> nCoinHeight <= nHeight b + 1 ->
  exists p t, GetAncestor m block (Z.max (nCoinHeight - 1) 0) = Some (Some p) /\
    ancestor_at m block (Z.max (nCoinHeight - 1) 0) = Some p /\ GetMedianTimePast m p = Some t.
Proof.
  intros Hok Hb Hh. destruct (tree_ok_lookup m block b Hok Hb) as [H0 _].
  destruct (GetAncestor_in_range m block b (Z.max (nCoinHeight - 1) 0) Hok Hb ltac:(lia)) as (p & bp & H1 & H2 & H3 & _).
  destruct (GetMedianTimePast_total m p bp Hok H3) as [t Ht]. exists p, t. split; [done|]. split; [|done].
  unfold ancestor_at. by rewrite Hb.
Qed.

Lemma CalculateSequenceLocks_loop_spec (m : BlockMap) (block : uint256) (b : CBlockIndex) (ins : list CTxIn) (hs : list Z) (H T : Z) :
  tree_ok m -> m !! block = Some b -> length hs = length ins -> Forall (fun h => h <= nHeight b + 1) hs ->
  exists H' T' hs', CalculateSequenceLocks_loop m block ins hs H T = Some (H', T', hs') /\
    forall height time, H' < height /\ T' < time <->
      H < height /\ T < time /\ Forall2 (relative_lock_met m block height time) ins hs.
Proof.
  intros Hok Hb. revert hs H T. induction ins as [|i ins IH]; intros [|h hs] H T Hl Hh; try done; cbn [CalculateSequenceLocks_loop].
  { eexists _, _, _. split; [reflexivity|]. intros. split; [|tauto]. intros [? ?]. by repeat split. }
  apply Forall_cons in Hh as [Hh Hhs]. cbn in Hl. injection Hl as Hl.
  destruct (Z.eqb_spec (Z.land (nSequence i) SEQUENCE_LOCKTIME_DISABLE_FLAG) 0) as [Ed|Ed]; cbn [negb].
  - set (value := Z.land (nSequence i) SEQUENCE_LOCKTIME_MASK).
    destruct (Z.eqb_spec (Z.land (nSequence i) SEQUENCE_LOCKTIME_TYPE_FLAG) 0) as [Et|Et]; cbn [negb].
    + cbn [mbind option_bind]. destruct (IH hs (Z.max H (h + value - 1)) T Hl Hhs) as (H' & T' & hs' & -> & Hs).
      eexists _, _, _. split; [reflexivity|]. intros height time. rewrite Hs, Forall2_cons.
      unfold relative_lock_met at 2. rewrite Et. change (0 =? 0) with true. cbn iota. fold value. rewrite Ed.
      split; [intros (? & ? & ?); split; [lia|]; split; [done|]; split; [right; lia|done]|].
      intros (? & ? & [[?|?] ?]); [done|]. split; [lia|done].
    + destruct (ancestor_time m block b h Hok Hb Hh) as (p & t & Ha & Hanc & Ht). rewrite Ha. cbn [mbind option_bind].
      rewrite Ht. cbn [mbind option_bind].
      destruct (IH hs H (Z.max T (t + Z.shiftl value SEQUENCE_LOCKTIME_GRANULARITY - 1)) Hl Hhs) as (H' & T' & hs' & -> & Hs).
      eexists _, _, _. split; [reflexivity|]. intros height time. rewrite Hs, Forall2_cons.
      unfold SEQUENCE_LOCKTIME_GRANULARITY. rewrite Z.shiftl_mul_pow2 by lia. change (2 ^ 9) with 512.
      unfold relative_lock_met at 2. rewrite (proj2 (Z.eqb_neq _ 0) Et). fold value. rewrite Ed.
      split.
      * intros (? & ? & ?). split; [done|]. split; [lia|]. split; [|done]. right. exists p, t. split; [done|]. split; [done|lia].
      * intros (? & ? & [[?|(p' & t' & E1 & E2 & ?)] ?]); [done|]. rewrite Hanc in E1. injection E1 as <-. rewrite Ht in E2. injection E2 as <-.
        split; [done|]. split; [lia|done].
  - destruct (IH hs H T Hl Hhs) as (H' & T' & hs' & -> & Hs). eexists _, _, _. split; [reflexivity|].
    intros height time. rewrite Hs, Forall2_cons. unfold relative_lock_met at 2. tauto.
Qed.

Lemma CalculateSequenceLocks_spec (m : BlockMap) (block : uint256) (b : CBlockIndex) (tx : CTransaction) (flags : Z) (hs : list Z) :
  tree_ok m -> m !! block = Some b -> length hs = length (vin tx) -> Forall (fun h => h <= nHeight b + 1) hs ->
  exists H T hs', CalculateSequenceLocks m tx flags hs block = Some (H, T, hs') /\
    forall height time, 0 <= height -> 0 <= time ->
      (H < height /\ T < time <->
       (2 <= tx_version tx /\ Z.land flags LOCKTIME_VERIFY_SEQUENCE <> 0 -> Forall2 (relative_lock_met m block height time) (vin tx) hs)).
Proof.
  intros Hok Hb Hl Hh. unfold CalculateSequenceLocks. rewrite (proj2 (Nat.eqb_eq _ _) Hl). cbn [negb].
  rewrite Z.geb_leb. destruct (Z.leb_spec 2 (tx_version tx)) as [Hv|Hv]; cbn [andb negb].
  2: { eexists _, _, _. split; [reflexivity|]. intros. split; [intros _ [? _]; lia|lia]. }
  destruct (Z.eqb_spec (Z.land flags LOCKTIME_VERIFY_SEQUENCE) 0) as [Ef|Ef]; cbn [negb].
  { eexists _, _, _. split; [reflexivity|]. intros. split; [by intros _ [_ ?]|lia]. }
  destruct (CalculateSequenceLocks_loop_spec m block b (vin tx) hs (-1) (-1) Hok Hb Hl Hh) as (H & T & hs' & -> & Hs).
  eexists _, _, _. split; [reflexivity|]. intros height time ? ?. rewrite Hs. split; [tauto|]. intros Hx. split; [lia|]. split; [lia|]. by apply Hx.
Qed.

(** ** Properties *)

(** Relative lock times (BIP 68): for a block in the index, coins of heights up to the block's, and non-negative median times,
    [SequenceLocks] returns true exactly when the rule is off (version below 2 or flag not set) or every input is met: its lock is
    disabled, or the block is high enough above the coin, or the median time of the parent is far enough past that of the coin. *)
Theorem SequenceLocks_decides (m : BlockMap) (block prev : uint256) (b : CBlockIndex) (tx : CTransaction) (flags time : Z) (hs : list Z) :
  tree_ok m -> m !! block = Some b -> pprev b = Some prev -> GetMedianTimePast m prev = Some time -> 0 <= time ->
  length hs = length (vin tx) -> Forall (fun h => h <= nHeight b + 1) hs ->
  exists r, SequenceLocks m tx flags hs block = Some r /\
    (r = true <->
     (2 <= tx_version tx /\ Z.land flags LOCKTIME_VERIFY_SEQUENCE <> 0 ->
      Forall2 (relative_lock_met m block (nHeight b) time) (vin tx) hs)).
Proof.
  intros Hok Hb Hp Ht Ht0 Hl Hh. unfold SequenceLocks, EvaluateSequenceLocks.
  destruct (CalculateSequenceLocks_spec m block b tx flags hs Hok Hb Hl Hh) as (H & T & hs' & -> & Hs).
  cbn [mbind option_bind]. rewrite Hb. cbn [mbind option_bind]. rewrite Hp. cbn [mbind option_bind]. rewrite Ht. cbn [mbind option_bind fst snd].
  eexists. split; [reflexivity|]. destruct (tree_ok_lookup m block b Hok Hb) as [H0 _]. rewrite <- Hs by lia.
  rewrite negb_true_iff, orb_false_iff, !Z.geb_leb, !Z.leb_gt. done.
Qed.

(** For a transaction that is not a coinbase and whose outputs are in range, [CheckTxInputs] never faults and leaves the coins
    and the best block of the cache as they are; it accepts with a fee exactly when every input has an unspent, matured coin in the
    money range, their total is in range and covers the outputs, and the fee is the difference; otherwise the state is not valid. *)
Theorem CheckTxInputs_conserves_value {B : Type} {HV : CoinsView B} {HL : LawfulView B}
    (tx : CTransaction) (state : TxValidationState) (c : CCoinsViewCache B) (h value_out : Z) :
  cache_inv c -> IsCoinBase tx = false -> GetValueOut tx = Some value_out ->
  exists c' r, CheckTxInputs tx state c h = Some (c', r) /\
    (forall o, cache_coin c' o = cache_coin c o) /\ cache_best c' = cache_best c /\
    (forall fee, r = inr fee <->
       Forall (input_ok (cache_coin c) h) (vin tx) /\ inputs_value (cache_coin c) (vin tx) <= MAX_MONEY /\
       0 <= fee /\ fee = inputs_value (cache_coin c) (vin tx) - value_out) /\
    (forall st, r = inl st -> IsValidState st = false).
Proof.
  intros Hc Hcb Hout. destruct (CheckTxInputs_spec tx state c h value_out Hc Hcb Hout) as (c' & r & H1 & _ & H2).
  exists c', r. by split.
Qed.

Lemma CheckTxInputs_conserves_value_witness :
  exists c' fee, CheckTxInputs example_tx tx_state example_stack 200 = Some (c', inr fee) /\ fee = 1000.
Proof.
  destruct (CheckTxInputs_conserves_value example_tx tx_state example_stack 200 4000 (proj1 example_stack_represents) eq_refl eq_refl)
    as (c' & r & H1 & _ & _ & H2 & _).
  exists c', 1000. split; [|done]. rewrite H1. do 2 f_equal. apply H2. split; [|by vm_compute].
  constructor; [|constructor]. exists example_coin. split; [reflexivity|]. split; [done|]. by vm_compute.
Defined.

(** A transaction whose input waits two blocks (height lock) spends a coin of height 3 in the block of height 5. *)
Lemma SequenceLocks_decides_witness :
  SequenceLocks (even_chain 5 600 0x1f0fffff)
    {| vin := [mkTxIn example_out [] 2 []]; vout := []; tx_version := 2; nLockTime := 0 |} 1 [3] 6 = Some true.
Proof.
  destruct (SequenceLocks_decides (even_chain 5 600 0x1f0fffff) 6 5 (even_block 600 0x1f0fffff 5)
    {| vin := [mkTxIn example_out [] 2 []]; vout := []; tx_version := 2; nLockTime := 0 |} 1 2200 [3]) as (r & H1 & H2).
  - by apply even_chain_ok.
  - by apply (even_chain_block 5 600 0x1f0fffff 5).
  - reflexivity.
  - vm_compute. reflexivity.
  - done.
  - reflexivity.
  - by constructor.
  - rewrite H1. f_equal. apply H2. intros _. constructor; [|constructor]. right. by vm_compute.
Defined.
