(* ===== verification/Merkle.v ===== *)
(** * Merkle trees: src/src/consensus/merkle.cpp

    [ComputeMerkleRoot] with its mutation flag and the constant-space
    [MerkleComputation] that collects the path of a leaf. The hash of two nodes
    (double SHA-256 of their 64 bytes) is a variable of the section. *)

From S2P Require Import Prelude.

Section Merkle.
Variable Hash : Z -> Z -> Z.

(** [SHA256D64] over a vector of an even number of hashes. *)
Fixpoint hash_pairs (hashes : list Z) : list Z :=
  match hashes with
  | a :: b :: rest => Hash a b :: hash_pairs rest
  | _ => []
  end.

(** Whether two neighbours at positions [2i] and [2i+1] are equal. *)
Fixpoint equal_pair (hashes : list Z) : bool :=
  match hashes with
  | a :: b :: rest => (a =? b) || equal_pair rest
  | _ => false
  end.

(** [hashes.push_back(hashes.back())] when the size is odd. *)
Definition pad_odd (hashes : list Z) : list Z :=
  if Nat.odd (length hashes) then hashes ++ [default 0 (last hashes)] else hashes.

(** One round of the loop of [ComputeMerkleRoot]. *)
Definition merkle_round (hashes : list Z) : list Z := hash_pairs (pad_odd hashes).

(** [ComputeMerkleRoot]: the root and [*mutated]; each round at least halves the vector, so that its
    size is enough fuel. *)
Fixpoint ComputeMerkleRoot_loop (fuel : nat) (hashes : list Z) (mutation : bool) : option (Z * bool) :=
  if (1 <? Z.of_nat (length hashes)) then
    match fuel with
    | O => None
    | S fuel' => ComputeMerkleRoot_loop fuel' (merkle_round hashes) (mutation || equal_pair hashes)
    end
  else Some (match hashes with [] => 0 | h :: _ => h end, mutation).

Definition ComputeMerkleRoot (hashes : list Z) : option (Z * bool) :=
  ComputeMerkleRoot_loop (length hashes) hashes false.

(** ** The path of a leaf *)

(** The locals of [MerkleComputation]. *)
Record merkle_state := mkMerkle { count : Z; inner : list Z; matchlevel : Z; path : list Z }.

Definition bit_clear (count : Z) (level : nat) : bool := negb (Z.testbit count (Z.of_nat level)).

(** The inner loops: combine with the subtrees on the left while the bit of [count] is
    clear. The result is the level reached, the hash, [matchh] and the path. *)
Fixpoint combine_left (fuel : nat) (count : Z) (inner : list Z) (matchlevel : Z) (level : nat) (h : Z) (matchh : bool) (path : list Z)
  : option (nat * Z * bool * list Z) :=
  if bit_clear count level then
    match fuel with
    | O => None
    | S fuel' =>
        i ← inner !! level;
        let '(path, matchh) :=
          if matchh then (path ++ [i], true)
          else if matchlevel =? Z.of_nat level then (path ++ [h], true) else (path, false) in
        combine_left fuel' count inner matchlevel (S level) (Hash i h) matchh path
    end
  else Some (level, h, matchh, path).

(** The body of the first loop. *)
Definition process_leaf (leaf_pos : Z) (st : merkle_state) (h : Z) : option merkle_state :=
  let matchh := count st =? leaf_pos in
  let count := u32 (count st + 1) in
  '(level, h, matchh, path) ← combine_left 32 count (inner st) (matchlevel st) 0 h matchh (path st);
  if (level <? 32)%nat then
    Some (mkMerkle count (<[level := h]> (inner st)) (if (matchh : bool) then Z.of_nat level else matchlevel st) path)
  else None.

Fixpoint process_leaves (leaf_pos : Z) (st : merkle_state) (leaves : list Z) : option merkle_state :=
  match leaves with
  | [] => Some st
  | h :: leaves' => st ← process_leaf leaf_pos st h; process_leaves leaf_pos st leaves'
  end.

(** [while (!(count & (1 << level))) level++] *)
Fixpoint lowest_bit (fuel : nat) (count : Z) (level : nat) : option nat :=
  if bit_clear count level then
    match fuel with O => None | S fuel' => lowest_bit fuel' count (S level) end
  else Some level.

(** The final sweep. *)
Fixpoint sweep (fuel : nat) (st : merkle_state) (count : Z) (level : nat) (h : Z) (matchh : bool) (path : list Z)
  : option (list Z) :=
  if count =? Z.shiftl 1 (Z.of_nat level) then Some path
  else
    match fuel with
    | O => None
    | S fuel' =>
        let path := if matchh then path ++ [h] else path in
        let h := Hash h h in
        let count := u32 (count + Z.shiftl 1 (Z.of_nat level)) in
        '(level, h, matchh, path) ← combine_left 32 count (inner st) (matchlevel st) (S level) h matchh path;
        sweep fuel' st count level h matchh path
    end.

(** [MerkleComputation]; the entries of [inner] start undefined, here 0. *)
Definition MerkleComputation (leaves : list Z) (leaf_pos : Z) : option (list Z) :=
  match leaves with
  | [] => Some []
  | _ =>
      st ← process_leaves leaf_pos (mkMerkle 0 (replicate 32 0) (-1) []) leaves;
      level ← lowest_bit 32 (count st) 0;
      h ← inner st !! level;
      sweep 32 st (count st) level h (matchlevel st =? Z.of_nat level) (path st)
  end.

(** Folding a path: the root it proves for a leaf at a position. *)
Fixpoint path_root (h : Z) (pos : Z) (path : list Z) : Z :=
  match path with
  | [] => h
  | s :: path' => path_root (if Z.odd pos then Hash s h else Hash h s) (pos / 2) path'
  end.

(** ** Levels of the tree *)

Definition level_nodes (leaves : list Z) (k : nat) : list Z := Nat.iter k merkle_round leaves.
Definition node (leaves : list Z) (k : nat) (i : Z) : Z := level_nodes leaves k !!! Z.to_nat i.

(** The number of nodes at level [k] over [n] leaves. *)
Definition width (n : Z) (k : nat) : Z := (n + 2 ^ Z.of_nat k - 1) / 2 ^ Z.of_nat k.

Lemma list_pair_ind {A : Type} (P : list A -> Prop) :
  P [] -> (forall a, P [a]) -> (forall a b l, P l -> P (a :: b :: l)) -> forall l, P l.
Proof.
  intros H0 H1 H2 l. enough (P l /\ forall a, P (a :: l)) by tauto. induction l as [|b l [IH1 IH2]]; [by split|].
  split; [apply IH2|]. intros a. by apply H2.
Qed.

Lemma length_hash_pairs (l : list Z) : length (hash_pairs l) = (length l / 2)%nat.
Proof.
  induction l as [|a|a b l IH] using list_pair_ind; [done..|]. cbn [hash_pairs length]. rewrite IH.
  change (S (S (length l))) with (2 + length l)%nat. replace (2 + length l)%nat with (length l + 1 * 2)%nat by lia.
  rewrite Nat.div_add by done. lia.
Qed.

Lemma hash_pairs_lookup (l : list Z) (i : nat) (a b : Z) :
  l !! (2 * i)%nat = Some a -> l !! (2 * i + 1)%nat = Some b -> hash_pairs l !! i = Some (Hash a b).
Proof.
  revert i; induction l as [|x|x y l IH] using list_pair_ind; intros i Ha Hb; [done| |].
  - by rewrite lookup_cons_ne_0 in Hb by lia.
  - destruct i as [|i]; [cbn in *; congruence|]. cbn [hash_pairs lookup list_lookup].
    replace (2 * S i)%nat with (S (S (2 * i))) in Ha by lia. replace (2 * S i + 1)%nat with (S (S (2 * i + 1))) in Hb by lia.
    by apply IH.
Qed.

Lemma length_pad_odd (l : list Z) : length (pad_odd l) = (2 * ((length l + 1) / 2))%nat.
Proof.
  unfold pad_odd. destruct (Nat.odd (length l)) eqn:E.
  - apply Nat.odd_spec in E as [m E]. rewrite length_app, E. cbn [length].
    replace (2 * m + 1 + 1)%nat with ((m + 1) * 2)%nat by lia. rewrite Nat.div_mul; lia.
  - apply (f_equal negb) in E. rewrite Nat.negb_odd in E. apply Nat.even_spec in E as [m E]. rewrite E.
    replace (2 * m + 1)%nat with (1 + m * 2)%nat by lia. rewrite Nat.div_add by done. change (1 / 2)%nat with 0%nat. lia.
Qed.

Lemma length_merkle_round (l : list Z) : length (merkle_round l) = ((length l + 1) / 2)%nat.
Proof.
  unfold merkle_round. rewrite length_hash_pairs, length_pad_odd, (Nat.mul_comm 2), Nat.div_mul by done. done.
Qed.

Lemma pad_odd_lookup (l : list Z) (i : nat) :
  (i < length (pad_odd l))%nat -> pad_odd l !! i = Some (l !!! Nat.min i (length l - 1)).
Proof.
  intros Hi. rewrite length_pad_odd in Hi. unfold pad_odd.
  destruct (decide (i < length l)%nat) as [H|H].
  - replace (Nat.min i (length l - 1)) with i by lia.
    assert (l !! i = Some (l !!! i)) as E by (by apply list_lookup_lookup_total_lt).
    destruct (Nat.odd (length l)); [by rewrite lookup_app_l|done].
  - assert (Nat.odd (length l) = true) as E.
    { destruct (Nat.odd (length l)) eqn:E; [done|]. apply (f_equal negb) in E. rewrite Nat.negb_odd in E.
      apply Nat.even_spec in E as [m E]. rewrite E in *.
      replace (2 * m + 1)%nat with (1 + m * 2)%nat in Hi by lia. rewrite Nat.div_add in Hi by done.
      change (1 / 2)%nat with 0%nat in Hi. lia. }
    rewrite E. apply Nat.odd_spec in E as [m E]. rewrite E in Hi.
    replace (2 * m + 1 + 1)%nat with ((m + 1) * 2)%nat in Hi by lia. rewrite Nat.div_mul in Hi by done.
    assert (i = length l) as -> by lia. rewrite lookup_app_r, Nat.sub_diag by lia. cbn. f_equal.
    replace (Nat.min (length l) (length l - 1)) with (length l - 1)%nat by lia.
    rewrite last_lookup. replace (pred (length l)) with (length l - 1)%nat by lia.
    by rewrite (list_lookup_lookup_total_lt l (length l - 1)) by lia.
Qed.

Lemma merkle_round_lookup (l : list Z) (i : nat) :
  (i < (length l + 1) / 2)%nat ->
  merkle_round l !! i = Some (Hash (l !!! (2 * i)%nat) (l !!! Nat.min (2 * i + 1) (length l - 1))).
Proof.
  intros Hi. pose proof (Nat.Div0.mul_div_le (length l + 1) 2).
  unfold merkle_round. apply hash_pairs_lookup.
  - rewrite pad_odd_lookup by (rewrite length_pad_odd; lia). do 2 f_equal. lia.
  - apply pad_odd_lookup. rewrite length_pad_odd. lia.
Qed.

Lemma pow2_nat_pos (k : nat) : 0 < 2 ^ Z.of_nat k.
Proof. apply Z.pow_pos_nonneg; lia. Qed.

Lemma pow2_nat_S (k : nat) : 2 ^ Z.of_nat (S k) = 2 * 2 ^ Z.of_nat k.
Proof. rewrite Nat2Z.inj_succ, Z.pow_succ_r by lia. done. Qed.

Lemma width_0 (n : Z) : width n 0 = n.
Proof. unfold width. cbn. rewrite Z.div_1_r. lia. Qed.

Lemma width_S (n : Z) (k : nat) : width n (S k) = (width n k + 1) / 2.
Proof.
  unfold width. rewrite pow2_nat_S. pose proof (pow2_nat_pos k) as Hp. set (p := 2 ^ Z.of_nat k) in *.
  rewrite (Z.mul_comm 2 p), <- Z.div_div by lia. f_equal. replace (n + p * 2 - 1) with (n + p - 1 + 1 * p) by lia.
  rewrite Z.div_add by lia. done.
Qed.

Lemma width_pos (n : Z) (k : nat) : 0 < n -> 0 < width n k.
Proof. intros Hn. unfold width. pose proof (pow2_nat_pos k). apply Z.div_str_pos. lia. Qed.

(** [w] is the width exactly when [w * 2^k] is [n] rounded up. *)
Lemma width_unique (n w : Z) (k : nat) : w * 2 ^ Z.of_nat k - 2 ^ Z.of_nat k < n <= w * 2 ^ Z.of_nat k -> width n k = w.
Proof.
  intros H. unfold width. pose proof (pow2_nat_pos k). symmetry.
  apply (Z.div_unique _ _ _ (n + 2 ^ Z.of_nat k - 1 - 2 ^ Z.of_nat k * w)); [left|]; nia.
Qed.

Lemma width_bounds (n : Z) (k : nat) : width n k * 2 ^ Z.of_nat k - 2 ^ Z.of_nat k < n <= width n k * 2 ^ Z.of_nat k.
Proof.
  unfold width. pose proof (pow2_nat_pos k).
  pose proof (Z.div_mod (n + 2 ^ Z.of_nat k - 1) (2 ^ Z.of_nat k) ltac:(lia)).
  pose proof (Z.mod_pos_bound (n + 2 ^ Z.of_nat k - 1) (2 ^ Z.of_nat k) ltac:(lia)). nia.
Qed.

Section Levels.
Variable leaves : list Z.
#[local] Abbreviation n := (Z.of_nat (length leaves)).

Lemma length_level (k : nat) : Z.of_nat (length (level_nodes leaves k)) = width n k.
Proof.
  induction k as [|k IH]; [by rewrite width_0|].
  change (level_nodes leaves (S k)) with (merkle_round (level_nodes leaves k)).
  rewrite length_merkle_round, Nat2Z.inj_div, Nat2Z.inj_add, IH, width_S. done.
Qed.

Lemma node_S (k : nat) (i : Z) :
  0 <= i < width n (S k) ->
  node leaves (S k) i = Hash (node leaves k (2 * i)) (node leaves k (Z.min (2 * i + 1) (width n k - 1))).
Proof.
  intros Hi. unfold node. change (level_nodes leaves (S k)) with (merkle_round (level_nodes leaves k)).
  pose proof (length_level k) as Hl. apply list_lookup_total_correct. rewrite merkle_round_lookup.
  - do 2 f_equal; f_equal; lia.
  - rewrite width_S, <- Hl in Hi. apply Nat2Z.inj_lt. rewrite Nat2Z.inj_div, Nat2Z.inj_add. lia.
Qed.

Lemma node_0 (i : nat) (h : Z) : leaves !! i = Some h -> node leaves 0 (Z.of_nat i) = h.
Proof. intros H. unfold node. rewrite Nat2Z.id. by apply list_lookup_total_correct. Qed.

(** The sibling of a node, and the siblings on the way from a leaf up to a level. *)
Definition sibling (k : nat) (i : Z) : Z :=
  if Z.odd i then node leaves k (i - 1) else node leaves k (Z.min (i + 1) (width n k - 1)).
Fixpoint siblings (k : nat) (i : Z) (count : nat) : list Z :=
  match count with
  | O => []
  | S count' => sibling k i :: siblings (S k) (i / 2) count'
  end.

Lemma siblings_snoc (k : nat) (i : Z) (count : nat) :
  siblings k i (S count) = siblings k i count ++ [sibling (k + count) (i / 2 ^ Z.of_nat count)].
Proof.
  revert k i; induction count as [|count IH]; intros k i.
  - cbn. rewrite Z.div_1_r, Nat.add_0_r. done.
  - change (siblings k i (S (S count))) with (sibling k i :: siblings (S k) (i / 2) (S count)). rewrite IH.
    cbn [siblings app]. do 4 f_equal; [lia|]. rewrite pow2_nat_S, <- Z.div_div by (pose proof (pow2_nat_pos count); lia). done.
Qed.

Lemma half_lt (i w : Z) : 0 <= i < w -> 0 <= i / 2 < (w + 1) / 2.
Proof. intros H. split; [apply Z.div_pos; lia|]. apply Z.div_lt_upper_bound; [lia|]. pose proof (Z.div_mod (w + 1) 2 ltac:(lia)).
  pose proof (Z.mod_pos_bound (w + 1) 2 ltac:(lia)). lia. Qed.

(** Folding the siblings of a node gives its ancestor. *)
Lemma path_root_siblings (count k : nat) (i : Z) :
  0 <= i < width n k ->
  path_root (node leaves k i) i (siblings k i count) = node leaves (k + count) (i / 2 ^ Z.of_nat count).
Proof.
  revert k i; induction count as [|count IH]; intros k i Hi.
  - cbn. by rewrite Nat.add_0_r, Z.div_1_r.
  - cbn [siblings path_root]. pose proof (half_lt i (width n k) Hi) as Hh. rewrite <- width_S in Hh.
    replace (k + S count)%nat with (S k + count)%nat by lia.
    rewrite pow2_nat_S, <- Z.div_div by (pose proof (pow2_nat_pos count); lia). rewrite <- IH by done. f_equal.
    rewrite node_S by done. unfold sibling. pose proof (Z.div_mod i 2 ltac:(lia)) as Hdm. rewrite Zmod_odd in Hdm.
    destruct (Z.odd i).
    + replace (i - 1) with (2 * (i / 2)) by lia. replace (Z.min (2 * (i / 2) + 1) (width n k - 1)) with i by lia. done.
    + replace (2 * (i / 2)) with i by lia. done.
Qed.

(** ** The invariant of the path computation *)

Lemma div_below (q p e : Z) : 0 < e <= p -> (q * p - e) / p = q - 1.
Proof. intros H. symmetry. apply (Z.div_unique _ _ _ (p - e)); [left|]; lia. Qed.

Lemma testbit_div (a : Z) (k : nat) : Z.testbit a (Z.of_nat k) = Z.odd (a / 2 ^ Z.of_nat k).
Proof. rewrite Z.testbit_odd, Z.shiftr_div_pow2 by lia. done. Qed.

Lemma div_pow2_add (a : Z) (j k : nat) : a / 2 ^ Z.of_nat (j + k) = a / 2 ^ Z.of_nat j / 2 ^ Z.of_nat k.
Proof.
  rewrite Nat2Z.inj_add, Z.pow_add_r by lia. pose proof (pow2_nat_pos j). pose proof (pow2_nat_pos k).
  by rewrite Z.div_div by lia.
Qed.

Section Path.
Variable pos : Z.
Hypothesis Hpos : 0 <= pos < n.

(** Complete subtrees of the leaves processed so far. *)
Definition inner_ok (c : Z) (inner : list Z) : Prop :=
  length inner = 32%nat /\
  forall j : nat, Z.testbit c (Z.of_nat j) = true -> inner !! j = Some (node leaves j (c / 2 ^ Z.of_nat j - 1)).

(** Where the subtree that holds the leaf is, and the path below it; [lo] is the lowest level it can be at
    and [c'] the number of leaves the leaf is known not to be among otherwise. *)
Definition match_ok (c c' : Z) (ml : Z) (path : list Z) (lo : nat) : Prop :=
  (exists j : nat, ml = Z.of_nat j /\ (lo <= j)%nat /\ Z.testbit c (Z.of_nat j) = true /\
     pos / 2 ^ Z.of_nat j = c / 2 ^ Z.of_nat j - 1 /\ path = siblings 0 pos j) \/
  (c' <= pos /\ ml = -1 /\ path = []).

(** The walk up at a level, where [q] nodes are complete and [h] is the last of them. *)
Definition walk_ok (c ml : Z) (q : Z) (level : nat) (h : Z) (matchh : bool) (path : list Z) : Prop :=
  0 < q <= width n level /\ h = node leaves level (q - 1) /\
  if matchh then pos / 2 ^ Z.of_nat level = q - 1 /\ path = siblings 0 pos level
  else pos / 2 ^ Z.of_nat level <> q - 1 /\ match_ok c (q * 2 ^ Z.of_nat level) ml path level.

(** One round of [combine_left]. *)
Lemma walk_ok_step (c ml m : Z) (level : nat) (h : Z) (matchh : bool) (path : list Z) :
  c < 2 * m * 2 ^ Z.of_nat level <= c + 2 ^ Z.of_nat level ->
  walk_ok c ml (2 * m) level h matchh path ->
  walk_ok c ml m (S level) (Hash (node leaves level (2 * m - 2)) h) (matchh || (ml =? Z.of_nat level))
    (if matchh then path ++ [node leaves level (2 * m - 2)] else if ml =? Z.of_nat level then path ++ [h] else path).
Proof.
  intros Hc (Hq & -> & Hm). pose proof (pow2_nat_pos level) as Hp. set (p := 2 ^ Z.of_nat level) in *.
  assert (c / p = 2 * m - 1) as Hcp by (rewrite <- (div_below (2 * m) p (2 * m * p - c)) by lia; f_equal; lia).
  assert (0 < m <= width n (S level)) as Hm'.
  { split; [lia|]. rewrite width_S. apply Z.div_le_lower_bound; lia. }
  assert (forall x, pos / p = x -> pos / 2 ^ Z.of_nat (S level) = x / 2) as Hup.
  { intros x <-. rewrite pow2_nat_S, (Z.mul_comm 2), <- Z.div_div by lia. done. }
  split; [done|]. split.
  { rewrite node_S by lia. f_equal; f_equal; lia. }
  destruct matchh; cbn [orb].
  - destruct Hm as [Hm ->]. split.
    + rewrite (Hup _ Hm). symmetry. apply (Z.div_unique _ _ _ 1); lia.
    + rewrite siblings_snoc. do 2 f_equal. unfold sibling. cbn [Nat.add]. fold p. rewrite Hm.
      replace (2 * m - 1) with (1 + 2 * (m - 1)) by lia. rewrite Z.odd_add_mul_2. cbn [Z.odd]. f_equal. lia.
  - destruct Hm as [Hne Hm]. destruct (Z.eqb_spec ml (Z.of_nat level)) as [E|E].
    + destruct Hm as [(j & Hj & _ & _ & Hpj & ->)|Hm]; [|lia]. assert (j = level) as -> by lia. fold p in Hpj.
      rewrite Hcp in Hpj. replace (2 * m - 1 - 1) with (2 * (m - 1)) in Hpj by lia. split.
      * rewrite (Hup _ Hpj). rewrite (Z.mul_comm 2), Z.div_mul by lia. done.
      * rewrite siblings_snoc. do 2 f_equal. unfold sibling. cbn [Nat.add]. fold p. rewrite Hpj, Z.odd_mul. cbn [Z.odd andb].
        f_equal. lia.
    + assert (pos / p <> 2 * m - 2) as Hne2.
      { intros E2. destruct Hm as [(j & Hj & Hlj & _ & Hpj & _)|(Hm & _)].
        - assert (exists k, j = (S level + k)%nat) as [k ->] by (exists (j - S level)%nat; lia).
          rewrite !div_pow2_add in Hpj. rewrite (Hup _ E2) in Hpj.
          rewrite pow2_nat_S in Hpj. fold p in Hpj. rewrite (Z.mul_comm 2 p), <- (Z.div_div c) in Hpj by lia. rewrite Hcp in Hpj.
          rewrite <- (Z.div_unique (2 * m - 2) 2 (m - 1) 0), <- (Z.div_unique (2 * m - 1) 2 (m - 1) 1) in Hpj by lia. lia.
        - fold p in Hm. assert (2 * m <= pos / p) by (apply Z.div_le_lower_bound; lia). lia. }
      split.
      * rewrite (Hup _ eq_refl). intros E2. pose proof (Z.div_mod (pos / p) 2 ltac:(lia)).
        pose proof (Z.mod_pos_bound (pos / p) 2 ltac:(lia)). lia.
      * destruct Hm as [(j & Hj & Hlj & Hb & Hpj & ->)|(Hm & -> & ->)]; [left|right].
        -- exists j. repeat split; try done. lia.
        -- split; [|done]. rewrite pow2_nat_S. fold p. lia.
Qed.

Lemma bit_clear_odd (q : Z) (level : nat) : bit_clear (q * 2 ^ Z.of_nat level) level = negb (Z.odd q).
Proof. unfold bit_clear. pose proof (pow2_nat_pos level). by rewrite testbit_div, Z.div_mul by lia. Qed.

Lemma even_half (q : Z) : Z.odd q = false -> exists m, q = 2 * m.
Proof. intros E. exists (q / 2). pose proof (Z.div_mod q 2 ltac:(lia)) as H. rewrite Zmod_odd, E in H. lia. Qed.

Lemma odd_half (q : Z) : Z.odd q = true -> exists m, q = 2 * m + 1.
Proof. intros E. exists (q / 2). pose proof (Z.div_mod q 2 ltac:(lia)) as H. rewrite Zmod_odd, E in H. lia. Qed.

(** A level can be left only while the count is a larger power of two. *)
Lemma level_bound (m : Z) (level : nat) : 0 < m -> 2 * m * 2 ^ Z.of_nat level <= 2 ^ 31 -> (S level <= 31)%nat.
Proof.
  intros Hm H. destruct (decide (31 <= level)%nat) as [Hl|]; [|lia].
  assert (2 ^ 31 <= 2 ^ Z.of_nat level) by (apply Z.pow_le_mono_r; lia). nia.
Qed.

Lemma combine_left_spec (fuel level : nat) (c ml cnt q h : Z) (inner : list Z) (matchh : bool) (path : list Z) :
  cnt = q * 2 ^ Z.of_nat level -> c < cnt <= c + 2 ^ Z.of_nat level -> cnt <= 2 ^ 31 -> inner_ok c inner ->
  walk_ok c ml q level h matchh path -> (level <= 31)%nat -> (32 <= fuel + level)%nat ->
  exists level' q' h' m' p',
    combine_left fuel cnt inner ml level h matchh path = Some (level', h', m', p') /\
    (level <= level' <= 31)%nat /\ cnt = q' * 2 ^ Z.of_nat level' /\ Z.odd q' = true /\ walk_ok c ml q' level' h' m' p' /\
    (forall k, (level <= k < level')%nat -> 1 < width n k).
Proof.
  revert level q h matchh path. induction fuel as [|fuel IH]; intros level q h matchh path Hq Hc Hcnt Hi Hw Hl Hf; [lia|].
  cbn [combine_left]. rewrite Hq, bit_clear_odd, <- Hq. destruct (Z.odd q) eqn:Eq; cbn [negb].
  { exists level, q, h, matchh, path. split; [done|]. split; [lia|]. split; [done|]. split; [done|]. split; [done|]. lia. }
  destruct (even_half q Eq) as [m ->]. pose proof Hw as ((Hq1 & Hq2) & _). rewrite Hq in Hc, Hcnt.
  pose proof (level_bound m level ltac:(lia) Hcnt) as Hl'.
  pose proof (pow2_nat_pos level) as Hp.
  assert (c / 2 ^ Z.of_nat level = 2 * m - 1) as Hcp.
  { rewrite <- (div_below (2 * m) (2 ^ Z.of_nat level) (2 * m * 2 ^ Z.of_nat level - c)) by lia. f_equal. lia. }
  destruct Hi as [Hi1 Hi2]. rewrite (Hi2 level).
  2: { rewrite testbit_div, Hcp. replace (2 * m - 1) with (1 + 2 * (m - 1)) by lia. by rewrite Z.odd_add_mul_2. }
  rewrite Hcp. replace (2 * m - 1 - 1) with (2 * m - 2) by lia.
  pose proof (walk_ok_step c ml m level h matchh path Hc Hw) as Hs.
  destruct (IH (S level) m _ _ _ ltac:(rewrite Hq, pow2_nat_S; lia) ltac:(rewrite pow2_nat_S; lia)
    ltac:(lia) (conj Hi1 Hi2) Hs ltac:(lia) ltac:(lia)) as (l' & q' & h' & m' & p' & E & H1 & H2 & H3 & H4 & H5).
  exists l', q', h', m', p'. cbn [mbind option_bind].
  split; [destruct matchh; [exact E|]; by destruct (ml =? Z.of_nat level)|]. split; [lia|]. do 3 (split; [done|]).
  intros k Hk. destruct (decide (k = level)) as [->|]; [lia|]. apply H5. lia.
Qed.

(** The count and the number of leaves below it agree above the lowest set bit of the count, *)
Lemma higher_same (c q : Z) (level j : nat) :
  Z.odd q = true -> c < q * 2 ^ Z.of_nat level <= c + 2 ^ Z.of_nat level -> (level < j)%nat ->
  q * 2 ^ Z.of_nat level / 2 ^ Z.of_nat j = c / 2 ^ Z.of_nat j.
Proof.
  intros Hq Hc Hj. destruct (odd_half q Hq) as [m ->]. pose proof (pow2_nat_pos level) as Hp.
  assert (exists k, j = (level + S k)%nat) as [k ->] by (exists (j - S level)%nat; lia).
  rewrite !div_pow2_add, Z.div_mul by lia. set (p := 2 ^ Z.of_nat level) in *.
  assert (c / p = 2 * m + 1 - 1) as -> by (rewrite <- (div_below (2 * m + 1) p ((2 * m + 1) * p - c)) by lia; f_equal; lia).
  rewrite pow2_nat_S. pose proof (pow2_nat_pos k). rewrite <- !Z.div_div by lia. f_equal.
  rewrite <- (Z.div_unique (2 * m + 1) 2 m 1), <- (Z.div_unique (2 * m + 1 - 1) 2 m 0) by lia. done.
Qed.

(** at it the smaller one has a clear bit, *)
Lemma at_level_clear (c q : Z) (level : nat) :
  Z.odd q = true -> c < q * 2 ^ Z.of_nat level <= c + 2 ^ Z.of_nat level -> Z.testbit c (Z.of_nat level) = false.
Proof.
  intros Hq Hc. destruct (odd_half q Hq) as [m ->]. set (p := 2 ^ Z.of_nat level) in *. rewrite testbit_div. fold p.
  assert (c / p = 2 * m + 1 - 1) as -> by (rewrite <- (div_below (2 * m + 1) p ((2 * m + 1) * p - c)) by lia; f_equal; lia).
  replace (2 * m + 1 - 1) with (0 + 2 * m) by lia. by rewrite Z.odd_add_mul_2.
Qed.

(** and below it the count has clear bits. *)
Lemma lower_clear (q : Z) (level j : nat) : (j < level)%nat -> Z.testbit (q * 2 ^ Z.of_nat level) (Z.of_nat j) = false.
Proof. intros Hj. apply Z.mul_pow2_bits_low. lia. Qed.

Lemma match_ok_strict (c q ml c' : Z) (level : nat) (path : list Z) :
  Z.odd q = true -> c < q * 2 ^ Z.of_nat level <= c + 2 ^ Z.of_nat level ->
  match_ok c c' ml path level -> match_ok c c' ml path (S level).
Proof.
  intros Hq Hc [(j & Hj & Hl & Hb & H)|H]; [left|by right]. exists j. split; [done|]. split; [|done].
  destruct (decide (j = level)) as [->|]; [|lia]. by rewrite (at_level_clear c q level Hq Hc) in Hb.
Qed.

Definition state_ok (st : merkle_state) (c : Z) : Prop :=
  count st = c /\ inner_ok c (inner st) /\ match_ok c c (matchlevel st) (path st) 0.

Hypothesis Hn : n <= 2 ^ 31.

Lemma process_leaf_spec (st : merkle_state) (c : nat) (h : Z) :
  state_ok st (Z.of_nat c) -> leaves !! c = Some h -> exists st', process_leaf pos st h = Some st' /\ state_ok st' (Z.of_nat c + 1).
Proof.
  intros (Hcnt & Hi & Hm) Hh. assert (Z.of_nat c < n) as Hlt by (apply lookup_lt_Some in Hh; lia).
  unfold process_leaf. rewrite Hcnt, (u32_small (Z.of_nat c + 1)) by (unfold is_u32; lia).
  destruct (combine_left_spec 32 0 (Z.of_nat c) (matchlevel st) (Z.of_nat c + 1) (Z.of_nat c + 1) h (inner st)
    (Z.of_nat c =? pos) (path st)) as (l & q & h' & m' & p' & -> & Hl & Hq & Hodd & (Hw1 & Hw2 & Hw3) & _); try done; try lia.
  - split; [rewrite width_0; lia|]. split; [rewrite <- (node_0 c h Hh); f_equal; lia|].
    change (2 ^ Z.of_nat 0) with 1. rewrite Z.div_1_r. destruct (Z.eqb_spec (Z.of_nat c) pos) as [E|E].
    + split; [lia|]. destruct Hm as [(j & _ & _ & _ & Hp & _)|(_ & _ & ->)]; [|done]. rewrite E in Hp. lia.
    + split; [lia|]. destruct Hm as [Hm|(Hm & H)]; [by left|right]. split; [lia|done].
  - cbn [mbind option_bind]. destruct (Nat.ltb_spec l 32) as [Hl32|]; [|lia]. eexists. split; [reflexivity|].
    pose proof (pow2_nat_pos l) as Hp. assert (1 <= 2 ^ Z.of_nat l) as Hp1 by lia.
    assert (Z.of_nat c < q * 2 ^ Z.of_nat l <= Z.of_nat c + 2 ^ Z.of_nat l) as Hc by lia.
    split; [done|]. cbn [inner matchlevel path]. split.
    + destruct Hi as [Hi1 Hi2]. split; [by rewrite length_insert|]. intros j Hj. destruct (decide (j = l)) as [->|Hjl].
      * rewrite list_lookup_insert_eq by lia. rewrite Hq, Z.div_mul by lia. by rewrite Hw2.
      * rewrite list_lookup_insert_ne by done. destruct (decide (j < l)%nat) as [Hlt'|].
        -- rewrite Hq, lower_clear in Hj by done. done.
        -- rewrite testbit_div, Hq, (higher_same (Z.of_nat c)), <- testbit_div in Hj by (done || lia).
           rewrite Hq, (higher_same (Z.of_nat c)) by (done || lia). by apply Hi2.
    + destruct m'.
      * left. exists l. split; [done|]. split; [lia|]. rewrite testbit_div, Hq, Z.div_mul by lia. tauto.
      * destruct Hw3 as [_ Hw3]. rewrite <- Hq in Hw3.
        destruct (match_ok_strict (Z.of_nat c) q _ _ l _ Hodd Hc Hw3) as [(j & Hj & Hjl & Hb & Hp2 & Hpath)|(H1 & H2)]; [left|by right].
        exists j. split; [done|]. split; [lia|]. rewrite testbit_div, Hq, (higher_same (Z.of_nat c)), <- testbit_div by (done || lia). done.
Qed.

Lemma process_leaves_spec (rest : list Z) (st : merkle_state) (c : nat) :
  state_ok st (Z.of_nat c) -> rest = drop c leaves -> (c <= length leaves)%nat ->
  exists st', process_leaves pos st rest = Some st' /\ state_ok st' n.
Proof.
  revert st c; induction rest as [|h rest IH]; intros st c Hst Hr Hc; cbn [process_leaves].
  - apply (f_equal length) in Hr. rewrite length_drop in Hr. cbn in Hr. exists st. split; [done|].
    by replace n with (Z.of_nat c) by lia.
  - assert (leaves !! c = Some h) as Hh by (rewrite <- (Nat.add_0_r c), <- lookup_drop, <- Hr; done).
    destruct (process_leaf_spec st c h Hst Hh) as (st1 & -> & Hst1). cbn [mbind option_bind].
    apply (IH st1 (S c)).
    + by replace (Z.of_nat (S c)) with (Z.of_nat c + 1) by lia.
    + rewrite (drop_S leaves h c Hh) in Hr. by injection Hr.
    + apply lookup_lt_Some in Hh. lia.
Qed.

Lemma lowest_bit_spec (fuel level : nat) (cnt q : Z) :
  cnt = q * 2 ^ Z.of_nat level -> 0 < q -> cnt <= 2 ^ 31 -> (32 <= fuel + level)%nat -> (level <= 31)%nat ->
  exists level' q', lowest_bit fuel cnt level = Some level' /\ cnt = q' * 2 ^ Z.of_nat level' /\ Z.odd q' = true /\
    0 < q' /\ (level' <= 31)%nat.
Proof.
  revert level q; induction fuel as [|fuel IH]; intros level q Hq Hpos' Hcnt Hf Hl; [lia|]. cbn [lowest_bit].
  rewrite Hq, bit_clear_odd, <- Hq. destruct (Z.odd q) eqn:Eq; cbn [negb]; [eauto 10|].
  destruct (even_half q Eq) as [m ->]. rewrite Hq in Hcnt. pose proof (level_bound m level ltac:(lia) Hcnt).
  apply (IH (S level) m); try lia. rewrite Hq, pow2_nat_S. lia.
Qed.

(** The depth of the tree: the first level with one node. *)
Definition is_depth (d : nat) : Prop := width n d = 1 /\ forall k, (k < d)%nat -> 1 < width n k.

Lemma round_up_le (m : Z) (level : nat) :
  (S level <= 30)%nat -> (2 * m + 1) * 2 ^ Z.of_nat level <= 2 ^ 31 -> (m + 1) * 2 ^ Z.of_nat (S level) <= 2 ^ 31.
Proof.
  intros Hl. replace 31 with (31 - Z.of_nat (S level) + Z.of_nat (S level)) by lia. rewrite Z.pow_add_r by lia.
  set (x := 2 ^ (31 - Z.of_nat (S level))). rewrite pow2_nat_S. pose proof (pow2_nat_pos level) as Hp.
  set (p := 2 ^ Z.of_nat level) in *. intros H. replace (x * (2 * p)) with (2 * x * p) in H |- * by lia.
  apply Z.mul_le_mono_pos_r in H; [|done]. replace ((m + 1) * (2 * p)) with (2 * (m + 1) * p) by lia.
  apply Z.mul_le_mono_nonneg_r; lia.
Qed.

Lemma sweep_spec (fuel level : nat) (st : merkle_state) (q h : Z) (matchh : bool) (p : list Z) :
  inner_ok n (inner st) -> Z.odd q = true -> n <= q * 2 ^ Z.of_nat level < n + 2 ^ Z.of_nat level ->
  q * 2 ^ Z.of_nat level <= 2 ^ 31 -> h = node leaves level (q - 1) ->
  (if matchh then pos / 2 ^ Z.of_nat level = q - 1 /\ p = siblings 0 pos level
   else pos / 2 ^ Z.of_nat level <> q - 1 /\ match_ok n n (matchlevel st) p (S level)) ->
  (forall k, (k < level)%nat -> 1 < width n k) -> (32 <= fuel + level)%nat -> (level <= 31)%nat ->
  exists d, sweep fuel st (q * 2 ^ Z.of_nat level) level h matchh p = Some (siblings 0 pos d) /\ is_depth d.
Proof.
  revert level q h matchh p. induction fuel as [|fuel IH]; intros level q h matchh p Hi Hodd Hc Hb Hh Hm Hk Hf Hl; [lia|].
  pose proof (pow2_nat_pos level) as Hp. cbn [sweep]. rewrite Z.shiftl_1_l.
  assert (width n level = q) as Hw by (apply width_unique; lia).
  assert (0 <= pos / 2 ^ Z.of_nat level < q) as Hpl.
  { split; [apply Z.div_pos; lia|]. apply Z.div_lt_upper_bound; lia. }
  destruct (Z.eqb_spec (q * 2 ^ Z.of_nat level) (2 ^ Z.of_nat level)) as [E|E].
  - assert (q = 1) as -> by nia. exists level. destruct matchh.
    + destruct Hm as [_ ->]. by split.
    + destruct Hm as [Hm _]. lia.
  - destruct (odd_half q Hodd) as [m' Eq]. assert (0 < m') as Hm' by nia. set (m := m' + 1).
    assert (S level <= 30)%nat as Hl'.
    { destruct (decide (30 <= level)%nat); [|lia].
      assert (2 ^ 30 <= 2 ^ Z.of_nat level) by (apply Z.pow_le_mono_r; lia). nia. }
    assert (q * 2 ^ Z.of_nat level + 2 ^ Z.of_nat level = m * 2 ^ Z.of_nat (S level)) as Hcnt by (rewrite pow2_nat_S; nia).
    assert (m * 2 ^ Z.of_nat (S level) <= 2 ^ 31) as Hb'.
    { rewrite Eq in Hb. by apply round_up_le. }
    rewrite Hcnt, u32_small by (unfold is_u32; lia).
    assert (width n (S level) = m) as Hw'.
    { rewrite width_S, Hw, Eq. symmetry. apply (Z.div_unique _ _ _ 0); lia. }
    destruct (combine_left_spec 32 (S level) n (matchlevel st) (m * 2 ^ Z.of_nat (S level)) m (Hash h h) (inner st) matchh
      (if matchh then p ++ [h] else p)) as (l' & q' & h' & mm & p' & -> & H1 & H2 & H3 & (H4 & H5 & H6) & H7); try done; try lia.
    + rewrite pow2_nat_S in Hcnt |- *. lia.
    + split; [lia|]. split.
      { rewrite node_S by lia. rewrite Hh. replace (2 * (m - 1)) with (q - 1) by lia.
        replace (Z.min (q - 1 + 1) (width n level - 1)) with (q - 1) by lia. done. }
      assert (pos / 2 ^ Z.of_nat (S level) = pos / 2 ^ Z.of_nat level / 2) as Hup.
      { rewrite pow2_nat_S, (Z.mul_comm 2), Z.div_div by lia. done. }
      destruct matchh.
      * destruct Hm as [Hm ->]. rewrite Hup, Hm. split; [symmetry; apply (Z.div_unique _ _ _ 0); lia|].
        rewrite siblings_snoc. do 2 f_equal. unfold sibling. cbn [Nat.add]. rewrite Hm.
        replace (q - 1) with (0 + 2 * m') by lia. rewrite Z.odd_add_mul_2. cbn [Z.odd]. rewrite Hh. f_equal. lia.
      * destruct Hm as [Hm1 Hm2]. split.
        -- rewrite Hup. pose proof (Z.div_mod (pos / 2 ^ Z.of_nat level) 2 ltac:(lia)).
           pose proof (Z.mod_pos_bound (pos / 2 ^ Z.of_nat level) 2 ltac:(lia)). lia.
        -- destruct Hm2 as [Hm2|(Hm2 & _)]; [by left|lia].
    + cbn [mbind option_bind]. rewrite H2. apply IH; try done; try lia.
      * assert (2 ^ Z.of_nat (S level) <= 2 ^ Z.of_nat l') by (apply Z.pow_le_mono_r; lia).
        rewrite <- H2. rewrite pow2_nat_S in *. lia.
      * destruct mm; [done|]. destruct H6 as [H6 H8]. split; [done|].
        assert (match_ok n n (matchlevel st) p' l') as H9 by (destruct H8 as [H8|(H8 & H9)]; [by left|right; split; [lia|done]]).
        apply (match_ok_strict n q'); try done. assert (2 ^ Z.of_nat (S level) <= 2 ^ Z.of_nat l') by (apply Z.pow_le_mono_r; lia).
        rewrite <- H2. rewrite pow2_nat_S in *. lia.
      * intros k Hk'. destruct (decide (k < level)%nat); [by apply Hk|]. destruct (decide (k = level)) as [->|]; [lia|].
        apply H7. lia.
Qed.

Lemma MerkleComputation_spec : exists d, MerkleComputation leaves pos = Some (siblings 0 pos d) /\ is_depth d.
Proof.
  destruct (process_leaves_spec leaves (mkMerkle 0 (replicate 32 0) (-1) []) 0) as (st & E & Hcnt & Hi & Hm); try done; try lia.
  { split; [done|]. split; [|right; split; [lia|done]]. split; [done|]. intros j. by rewrite Z.bits_0. }
  destruct (lowest_bit_spec 32 0 n n) as (level & q & El & Hq & Hodd & Hq0 & Hl); [change (2 ^ Z.of_nat 0) with 1; lia|lia..|].
  pose proof (pow2_nat_pos level) as Hp.
  assert (MerkleComputation leaves pos =
    h ← inner st !! level; sweep 32 st n level h (matchlevel st =? Z.of_nat level) (path st)) as ->.
  { unfold MerkleComputation. rewrite E. destruct leaves; [cbn in Hpos; lia|]. cbn [mbind option_bind].
    by rewrite Hcnt, El. }
  assert (n / 2 ^ Z.of_nat level = q) as Hdiv by (rewrite Hq, Z.div_mul; lia).
  pose proof Hi as [_ Hi2]. rewrite (Hi2 level) by (rewrite testbit_div, Hdiv; done). cbn [mbind option_bind].
  rewrite Hdiv, Hq. apply sweep_spec; try done; try lia.
  - destruct (Z.eqb_spec (matchlevel st) (Z.of_nat level)) as [Em|Em].
    + destruct Hm as [(j & Hj & _ & _ & Hp' & Hpath)|Hm]; [|lia]. assert (j = level) as -> by lia.
      by rewrite Hdiv in Hp'.
    + destruct Hm as [(j & Hj & _ & Hb & Hp' & Hpath)|Hm]; [|lia].
      assert (level < j)%nat as Hlj.
      { destruct (decide (j < level)%nat) as [H|]; [rewrite Hq, lower_clear in Hb by done; done|lia]. }
      split; [|left; exists j; split; [done|]; split; [lia|done]].
      intros Hx. assert (exists k, j = (level + S k)%nat) as [k ->] by (exists (j - S level)%nat; lia).
      rewrite !div_pow2_add, Hdiv, Hx in Hp'. destruct (odd_half q Hodd) as [m ->]. rewrite pow2_nat_S in Hp'.
      pose proof (pow2_nat_pos k). rewrite <- !Z.div_div in Hp' by lia.
      rewrite <- (Z.div_unique (2 * m + 1 - 1) 2 m 0), <- (Z.div_unique (2 * m + 1) 2 m 1) in Hp' by lia. lia.
  - intros k Hk. pose proof (width_bounds n k) as Hw. pose proof (pow2_nat_pos k).
    assert (2 ^ Z.of_nat (S k) <= 2 ^ Z.of_nat level) as Hle by (apply Z.pow_le_mono_r; lia). rewrite pow2_nat_S in Hle. nia.
Qed.

End Path.

(** ** The root *)

Lemma is_depth_unique (d d' : nat) : is_depth d -> is_depth d' -> d = d'.
Proof.
  intros [H1 H2] [H3 H4]. destruct (Nat.lt_trichotomy d d') as [H|[H|H]]; [|done|].
  - specialize (H4 d H). lia.
  - specialize (H2 d' H). lia.
Qed.

Lemma is_depth_log2 : leaves <> [] -> is_depth (Z.to_nat (Z.log2_up n)).
Proof.
  intros Hne. assert (0 < n) as Hn by (destruct leaves; [done|cbn; lia]). pose proof (Z.log2_up_nonneg n).
  assert (n = 1 \/ 1 < n) as [H1|H1] by lia.
  { unfold is_depth. rewrite H1. split; [done|]. intros k Hk. cbn in Hk. lia. }
  pose proof (Z.log2_up_spec n H1) as [H2 H3]. split.
  - apply width_unique. rewrite Z2Nat.id by lia. lia.
  - intros k Hk. pose proof (width_bounds n k) as Hw. pose proof (pow2_nat_pos k).
    assert (2 ^ Z.of_nat k <= 2 ^ Z.pred (Z.log2_up n)) by (apply Z.pow_le_mono_r; lia). nia.
Qed.

Lemma is_depth_le (d : nat) : is_depth d -> (d <= length leaves)%nat.
Proof.
  intros [_ H]. destruct d as [|d]; [lia|]. specialize (H d ltac:(lia)). pose proof (width_bounds n d) as Hw.
  pose proof (pow2_nat_pos d). assert (Z.of_nat d < 2 ^ Z.of_nat d) by (apply Z.pow_gt_lin_r; lia). nia.
Qed.

(** Whether some level below [d] has an equal pair. *)
Definition has_equal_pair (d : nat) : bool := existsb (fun k => equal_pair (level_nodes leaves k)) (seq 0 d).

Lemma ComputeMerkleRoot_loop_spec (d fuel k : nat) (b : bool) :
  is_depth d -> (k <= d)%nat -> (d - k <= fuel)%nat ->
  ComputeMerkleRoot_loop fuel (level_nodes leaves k) b =
    Some (node leaves d 0, b || existsb (fun k => equal_pair (level_nodes leaves k)) (seq k (d - k))).
Proof.
  intros Hd. revert k b; induction fuel as [|fuel IH]; intros k b Hk Hf; cbn [ComputeMerkleRoot_loop];
    rewrite length_level.
  - assert (k = d) as -> by lia. rewrite (proj1 Hd), Nat.sub_diag. cbn. rewrite orb_false_r.
    pose proof (length_level d) as Hl. rewrite (proj1 Hd) in Hl. unfold node. cbn. by destruct (level_nodes leaves d) as [|? []].
  - destruct (decide (k = d)) as [->|Hne].
    + rewrite (proj1 Hd), Nat.sub_diag. cbn. rewrite orb_false_r.
      pose proof (length_level d) as Hl. rewrite (proj1 Hd) in Hl. unfold node. cbn. by destruct (level_nodes leaves d) as [|? []].
    + pose proof (proj2 Hd k ltac:(lia)). destruct (Z.ltb_spec 1 (width n k)); [|lia].
      change (merkle_round (level_nodes leaves k)) with (level_nodes leaves (S k)). rewrite IH by lia. do 2 f_equal.
      replace (d - k)%nat with (S (d - S k)) by lia. cbn [seq existsb]. by rewrite orb_assoc.
Qed.

Lemma ComputeMerkleRoot_spec (d : nat) : is_depth d -> ComputeMerkleRoot leaves = Some (node leaves d 0, has_equal_pair d).
Proof.
  intros Hd. unfold ComputeMerkleRoot. change leaves with (level_nodes leaves 0) at 2.
  rewrite (ComputeMerkleRoot_loop_spec d) by (try done; try lia; pose proof (is_depth_le d Hd); lia).
  by rewrite Nat.sub_0_r.
Qed.


End Levels.

(** ** Binding *)

(** Two different pairs with the same hash. *)
Definition collision : Prop := exists a b c d, (a, b) <> (c, d) /\ Hash a b = Hash c d.

Lemma hash_pairs_inj (l1 l2 : list Z) :
  Nat.even (length l1) = true -> Nat.even (length l2) = true -> hash_pairs l1 = hash_pairs l2 -> l1 = l2 \/ collision.
Proof.
  revert l2; induction l1 as [|a|a b l1 IH] using list_pair_ind; intros [|c [|d l2]] E1 E2 H; try done; [by left|].
  cbn in H. injection H as Hh Ht. destruct (decide ((a, b) = (c, d))) as [E|E]; [|right; by exists a, b, c, d].
  injection E as -> ->. destruct (IH l2 E1 E2 Ht) as [->|Hc]; [by left|by right].
Qed.

Lemma pad_odd_even (l : list Z) : Nat.even (length (pad_odd l)) = true.
Proof. rewrite length_pad_odd. by rewrite Nat.even_mul. Qed.

Lemma equal_pair_snoc (l : list Z) (a : Z) : Nat.even (length l) = true -> equal_pair (l ++ [a; a]) = true.
Proof.
  induction l as [|x|x y l IH] using list_pair_ind; intros E; [cbn; by rewrite Z.eqb_refl|done|].
  cbn [app equal_pair]. rewrite IH by done. apply orb_true_r.
Qed.

(** A vector of odd size padded is not a vector of even size without an equal pair. *)
Lemma pad_odd_mutated (l1 l2 : list Z) : Nat.odd (length l1) = true -> pad_odd l1 = l2 -> equal_pair l2 = true.
Proof.
  intros Ho <-. unfold pad_odd. rewrite Ho. destruct l1 as [|x l1 _] using rev_ind; [done|].
  rewrite last_snoc, <- app_assoc. cbn. apply equal_pair_snoc.
  rewrite length_app, Nat.add_comm in Ho. cbn [length Nat.add] in Ho. by rewrite Nat.odd_succ in Ho.
Qed.

Lemma merkle_round_inj (l1 l2 : list Z) :
  equal_pair l1 = false -> equal_pair l2 = false -> merkle_round l1 = merkle_round l2 -> l1 = l2 \/ collision.
Proof.
  intros M1 M2 H. destruct (hash_pairs_inj (pad_odd l1) (pad_odd l2) (pad_odd_even l1) (pad_odd_even l2) H) as [E|]; [|by right].
  left. destruct (Nat.odd (length l1)) eqn:O1, (Nat.odd (length l2)) eqn:O2.
  - unfold pad_odd in E. rewrite O1, O2 in E. by apply app_inj_tail in E as [-> _].
  - assert (pad_odd l2 = l2) as E2 by (unfold pad_odd; by rewrite O2). rewrite E2 in E.
    by rewrite (pad_odd_mutated l1 l2 O1 E) in M2.
  - assert (pad_odd l1 = l1) as E1 by (unfold pad_odd; by rewrite O1). rewrite E1 in E.
    by rewrite (pad_odd_mutated l2 l1 O2 (eq_sym E)) in M1.
  - unfold pad_odd in E. by rewrite O1, O2 in E.
Qed.

Lemma level_nodes_inj (l1 l2 : list Z) (d k : nat) :
  has_equal_pair l1 d = false -> has_equal_pair l2 d = false -> (k <= d)%nat ->
  level_nodes l1 k = level_nodes l2 k -> l1 = l2 \/ collision.
Proof.
  unfold has_equal_pair. rewrite !existsb_false_Forall, !Forall_forall. intros M1 M2.
  induction k as [|k IH]; intros Hk E; [by left|].
  destruct (merkle_round_inj (level_nodes l1 k) (level_nodes l2 k)) as [E'|]; [| |done| |by right].
  - apply M1, elem_of_seq. lia.
  - apply M2, elem_of_seq. lia.
  - apply IH; [lia|done].
Qed.

Lemma level_depth (l : list Z) (d : nat) : is_depth l d -> level_nodes l d = [node l d 0].
Proof.
  intros [H _]. pose proof (length_level l d) as Hl. rewrite H in Hl. unfold node.
  destruct (level_nodes l d) as [|x [|]]; done || (cbn in Hl; lia).
Qed.

End Merkle.

(** ** Properties *)

(** The path that the constant-space [MerkleComputation] collects for a leaf (of at most 2^31 leaves) is a proof of
    inclusion: it is computed without fault, and folding it from the leaf at that position gives the root of [ComputeMerkleRoot]. *)
Theorem MerkleComputation_proves_inclusion (Hash : Z -> Z -> Z) (leaves : list Z) (pos : nat) (leaf : Z) :
  leaves !! pos = Some leaf -> Z.of_nat (length leaves) <= 2 ^ 31 ->
  exists path root mutated,
    MerkleComputation Hash leaves (Z.of_nat pos) = Some path /\ ComputeMerkleRoot Hash leaves = Some (root, mutated) /\
    path_root Hash leaf (Z.of_nat pos) path = root.
Proof.
  intros Hl Hn. assert (0 <= Z.of_nat pos < Z.of_nat (length leaves)) as Hpos by (apply lookup_lt_Some in Hl; lia).
  destruct (MerkleComputation_spec Hash leaves (Z.of_nat pos) Hpos Hn) as (d & E & Hd).
  eexists _, _, _. split; [exact E|]. split; [exact (ComputeMerkleRoot_spec Hash leaves d Hd)|].
  rewrite <- (node_0 Hash leaves pos leaf Hl), path_root_siblings by (rewrite width_0; lia). f_equal.
  destruct Hd as [Hd _]. pose proof (width_bounds (Z.of_nat (length leaves)) d). apply Z.div_small. lia.
Qed.

Lemma MerkleComputation_proves_inclusion_witness :
  exists path root mutated, MerkleComputation (fun a b => 3 * a + 5 * b + 1) [10; 20; 30; 40; 50] 4 = Some path /\
    ComputeMerkleRoot (fun a b => 3 * a + 5 * b + 1) [10; 20; 30; 40; 50] = Some (root, mutated) /\
    path_root (fun a b => 3 * a + 5 * b + 1) 50 4 path = root.
Proof. apply (MerkleComputation_proves_inclusion _ [10; 20; 30; 40; 50] 4 50); [reflexivity|cbn; lia]. Defined.

(** C31: the root binds the leaves: two lists of leaves with trees of the same depth and the same root, both without the mutation flag, are
    equal, or two different pairs of nodes have the same hash. Repeating leaves at the end of a list (CVE-2012-2459) therefore always sets the flag. *)
Theorem ComputeMerkleRoot_binds_leaves (Hash : Z -> Z -> Z) (l1 l2 : list Z) (root : Z) :
  ComputeMerkleRoot Hash l1 = Some (root, false) -> ComputeMerkleRoot Hash l2 = Some (root, false) ->
  l1 <> [] -> l2 <> [] -> Z.log2_up (Z.of_nat (length l1)) = Z.log2_up (Z.of_nat (length l2)) ->
  l1 = l2 \/ collision Hash.
Proof.
  intros R1 R2 N1 N2 Hdepth.
  pose proof (is_depth_log2 l1 N1) as Hd1. pose proof (is_depth_log2 l2 N2) as Hd2. rewrite <- Hdepth in Hd2.
  set (d := Z.to_nat (Z.log2_up (Z.of_nat (length l1)))) in *.
  rewrite (ComputeMerkleRoot_spec Hash l1 d Hd1) in R1. rewrite (ComputeMerkleRoot_spec Hash l2 d Hd2) in R2.
  injection R1 as R1 M1. injection R2 as R2 M2. apply (level_nodes_inj Hash l1 l2 d d M1 M2 (le_n d)).
  rewrite (level_depth Hash l1 d Hd1), (level_depth Hash l2 d Hd2). congruence.
Qed.

Lemma ComputeMerkleRoot_binds_leaves_witness :
  ([1; 2; 3; 4] : list Z) = [2; 1; 3; 4] \/ collision Z.add.
Proof. apply (ComputeMerkleRoot_binds_leaves Z.add [1; 2; 3; 4] [2; 1; 3; 4] 10); done. Defined.
