(* ===== verification/Sha256.v ===== *)
(** * SHA-256 (crypto/sha256.cpp, hash.h)

    The unrolled rounds of the source are lists of round instructions, one for each [Round] line, run on the eight working variables and the
    sixteen message variables; the streaming hasher is a state machine on its digest, buffer and counter. Both are proved equal to the definition of
    SHA-256 in FIPS 180-4. The vectorized implementations that the source selects at run time are parameters of [SHA256D64]. *)

From S2P Require Import Prelude.

(** ** Word functions *)

Definition ror (x n : Z) : Z := Z.lor (Z.shiftr x n) (u32 (Z.shiftl x (32 - n))).
Definition Ch (x y z : Z) : Z := Z.lxor z (Z.land x (Z.lxor y z)).
Definition Maj (x y z : Z) : Z := Z.lor (Z.land x y) (Z.land z (Z.lor x y)).
Definition Sigma0 (x : Z) : Z := Z.lxor (Z.lxor (ror x 2) (ror x 13)) (ror x 22).
Definition Sigma1 (x : Z) : Z := Z.lxor (Z.lxor (ror x 6) (ror x 11)) (ror x 25).
Definition sigma0 (x : Z) : Z := Z.lxor (Z.lxor (ror x 7) (ror x 18)) (Z.shiftr x 3).
Definition sigma1 (x : Z) : Z := Z.lxor (Z.lxor (ror x 17) (ror x 19)) (Z.shiftr x 10).

(** Big-endian words. *)
Definition ReadBE32 (b : list Z) : Z := le_val (rev (take 4 b)).
Definition WriteBE32 (x : Z) : list Z := rev (le_bytes 4 x).
Definition WriteBE64 (x : Z) : list Z := rev (le_bytes 8 x).

(** ** Rounds

    The working variables a to h and the message variables w0 to w15. *)

Inductive reg := Ra | Rb | Rc | Rd | Re | Rf | Rg | Rh.

Definition reg_index (r : reg) : nat :=
  match r with Ra => 0 | Rb => 1 | Rc => 2 | Rd => 3 | Re => 4 | Rf => 5 | Rg => 6 | Rh => 7 end%nat.

(** A term of a message expression: a variable, sigma0 or sigma1 of one, a constant. *)
Inductive sha_term := Tw (i : nat) | Ts0 (i : nat) | Ts1 (i : nat) | Tc (c : Z).

(** What a line adds to its round constant: nothing, a word of the chunk assigned to a variable, [w += ...], [w = ...], or an expression. *)
Inductive sha_message :=
  | NoW
  | LoadW (i : nat) (offset : nat)
  | AddW (i : nat) (ts : list sha_term)
  | SetW (i : nat) (ts : list sha_term)
  | ExprW (ts : list sha_term).

(** One line [Round(a, ..., h, k + message)]. *)
Inductive sha_round := Rnd (ra rb rc rd re rf rg rh : reg) (k : Z) (m : sha_message).

(** [Round]: only [d] and [h] are passed by reference. *)
Definition Round (r : list Z) (ra rb rc rd re rf rg rh : reg) (k : Z) : list Z :=
  let get x := nth (reg_index x) r 0 in
  let t1 := u32 (get rh + Sigma1 (get re) + Ch (get re) (get rf) (get rg) + k) in
  let t2 := u32 (Sigma0 (get ra) + Maj (get ra) (get rb) (get rc)) in
  <[reg_index rh := u32 (t1 + t2)]> (<[reg_index rd := u32 (get rd + t1)]> r).

Definition eval_term (w : list Z) (t : sha_term) : Z :=
  match t with
  | Tw i => nth i w 0
  | Ts0 i => sigma0 (nth i w 0)
  | Ts1 i => sigma1 (nth i w 0)
  | Tc c => c
  end.
Definition eval_terms (w : list Z) (ts : list sha_term) : Z := u32 (foldr (fun t acc => eval_term w t + acc) 0 ts).

(** The message variables after the line, and the value added to the constant. *)
Definition eval_message (chunk w : list Z) (m : sha_message) : list Z * Z :=
  match m with
  | NoW => (w, 0)
  | LoadW i offset => let x := ReadBE32 (drop offset chunk) in (<[i := x]> w, x)
  | AddW i ts => let x := u32 (nth i w 0 + eval_terms w ts) in (<[i := x]> w, x)
  | SetW i ts => let x := eval_terms w ts in (<[i := x]> w, x)
  | ExprW ts => (w, eval_terms w ts)
  end.

Definition exec_round (chunk : list Z) (st : list Z * list Z) (i : sha_round) : list Z * list Z :=
  let '(r, w) := st in
  match i with
  | Rnd ra rb rc rd re rf rg rh k m =>
      let '(w, x) := eval_message chunk w m in (Round r ra rb rc rd re rf rg rh (u32 (k + x)), w)
  end.

Definition exec_rounds (chunk : list Z) (p : list sha_round) (r w : list Z) : list Z :=
  fst (fold_left (exec_round chunk) p (r, w)).

(** The rounds of [sha256::Transform]. *)
Definition Transform_rounds : list sha_round := [
  Rnd Ra Rb Rc Rd Re Rf Rg Rh 0x428a2f98 (LoadW 0 0);
  Rnd Rh Ra Rb Rc Rd Re Rf Rg 0x71374491 (LoadW 1 4);
  Rnd Rg Rh Ra Rb Rc Rd Re Rf 0xb5c0fbcf (LoadW 2 8);
  Rnd Rf Rg Rh Ra Rb Rc Rd Re 0xe9b5dba5 (LoadW 3 12);
  Rnd Re Rf Rg Rh Ra Rb Rc Rd 0x3956c25b (LoadW 4 16);
  Rnd Rd Re Rf Rg Rh Ra Rb Rc 0x59f111f1 (LoadW 5 20);
  Rnd Rc Rd Re Rf Rg Rh Ra Rb 0x923f82a4 (LoadW 6 24);
  Rnd Rb Rc Rd Re Rf Rg Rh Ra 0xab1c5ed5 (LoadW 7 28);
  Rnd Ra Rb Rc Rd Re Rf Rg Rh 0xd807aa98 (LoadW 8 32);
  Rnd Rh Ra Rb Rc Rd Re Rf Rg 0x12835b01 (LoadW 9 36);
  Rnd Rg Rh Ra Rb Rc Rd Re Rf 0x243185be (LoadW 10 40);
  Rnd Rf Rg Rh Ra Rb Rc Rd Re 0x550c7dc3 (LoadW 11 44);
  Rnd Re Rf Rg Rh Ra Rb Rc Rd 0x72be5d74 (LoadW 12 48);
  Rnd Rd Re Rf Rg Rh Ra Rb Rc 0x80deb1fe (LoadW 13 52);
  Rnd Rc Rd Re Rf Rg Rh Ra Rb 0x9bdc06a7 (LoadW 14 56);
  Rnd Rb Rc Rd Re Rf Rg Rh Ra 0xc19bf174 (LoadW 15 60);
  Rnd Ra Rb Rc Rd Re Rf Rg Rh 0xe49b69c1 (AddW 0 [Ts1 14; Tw 9; Ts0 1]);
  Rnd Rh Ra Rb Rc Rd Re Rf Rg 0xefbe4786 (AddW 1 [Ts1 15; Tw 10; Ts0 2]);
  Rnd Rg Rh Ra Rb Rc Rd Re Rf 0x0fc19dc6 (AddW 2 [Ts1 0; Tw 11; Ts0 3]);
  Rnd Rf Rg Rh Ra Rb Rc Rd Re 0x240ca1cc (AddW 3 [Ts1 1; Tw 12; Ts0 4]);
  Rnd Re Rf Rg Rh Ra Rb Rc Rd 0x2de92c6f (AddW 4 [Ts1 2; Tw 13; Ts0 5]);
  Rnd Rd Re Rf Rg Rh Ra Rb Rc 0x4a7484aa (AddW 5 [Ts1 3; Tw 14; Ts0 6]);
  Rnd Rc Rd Re Rf Rg Rh Ra Rb 0x5cb0a9dc (AddW 6 [Ts1 4; Tw 15; Ts0 7]);
  Rnd Rb Rc Rd Re Rf Rg Rh Ra 0x76f988da (AddW 7 [Ts1 5; Tw 0; Ts0 8]);
  Rnd Ra Rb Rc Rd Re Rf Rg Rh 0x983e5152 (AddW 8 [Ts1 6; Tw 1; Ts0 9]);
  Rnd Rh Ra Rb Rc Rd Re Rf Rg 0xa831c66d (AddW 9 [Ts1 7; Tw 2; Ts0 10]);
  Rnd Rg Rh Ra Rb Rc Rd Re Rf 0xb00327c8 (AddW 10 [Ts1 8; Tw 3; Ts0 11]);
  Rnd Rf Rg Rh Ra Rb Rc Rd Re 0xbf597fc7 (AddW 11 [Ts1 9; Tw 4; Ts0 12]);
  Rnd Re Rf Rg Rh Ra Rb Rc Rd 0xc6e00bf3 (AddW 12 [Ts1 10; Tw 5; Ts0 13]);
  Rnd Rd Re Rf Rg Rh Ra Rb Rc 0xd5a79147 (AddW 13 [Ts1 11; Tw 6; Ts0 14]);
  Rnd Rc Rd Re Rf Rg Rh Ra Rb 0x06ca6351 (AddW 14 [Ts1 12; Tw 7; Ts0 15]);
  Rnd Rb Rc Rd Re Rf Rg Rh Ra 0x14292967 (AddW 15 [Ts1 13; Tw 8; Ts0 0]);
  Rnd Ra Rb Rc Rd Re Rf Rg Rh 0x27b70a85 (AddW 0 [Ts1 14; Tw 9; Ts0 1]);
  Rnd Rh Ra Rb Rc Rd Re Rf Rg 0x2e1b2138 (AddW 1 [Ts1 15; Tw 10; Ts0 2]);
  Rnd Rg Rh Ra Rb Rc Rd Re Rf 0x4d2c6dfc (AddW 2 [Ts1 0; Tw 11; Ts0 3]);
  Rnd Rf Rg Rh Ra Rb Rc Rd Re 0x53380d13 (AddW 3 [Ts1 1; Tw 12; Ts0 4]);
  Rnd Re Rf Rg Rh Ra Rb Rc Rd 0x650a7354 (AddW 4 [Ts1 2; Tw 13; Ts0 5]);
  Rnd Rd Re Rf Rg Rh Ra Rb Rc 0x766a0abb (AddW 5 [Ts1 3; Tw 14; Ts0 6]);
  Rnd Rc Rd Re Rf Rg Rh Ra Rb 0x81c2c92e (AddW 6 [Ts1 4; Tw 15; Ts0 7]);
  Rnd Rb Rc Rd Re Rf Rg Rh Ra 0x92722c85 (AddW 7 [Ts1 5; Tw 0; Ts0 8]);
  Rnd Ra Rb Rc Rd Re Rf Rg Rh 0xa2bfe8a1 (AddW 8 [Ts1 6; Tw 1; Ts0 9]);
  Rnd Rh Ra Rb Rc Rd Re Rf Rg 0xa81a664b (AddW 9 [Ts1 7; Tw 2; Ts0 10]);
  Rnd Rg Rh Ra Rb Rc Rd Re Rf 0xc24b8b70 (AddW 10 [Ts1 8; Tw 3; Ts0 11]);
  Rnd Rf Rg Rh Ra Rb Rc Rd Re 0xc76c51a3 (AddW 11 [Ts1 9; Tw 4; Ts0 12]);
  Rnd Re Rf Rg Rh Ra Rb Rc Rd 0xd192e819 (AddW 12 [Ts1 10; Tw 5; Ts0 13]);
  Rnd Rd Re Rf Rg Rh Ra Rb Rc 0xd6990624 (AddW 13 [Ts1 11; Tw 6; Ts0 14]);
  Rnd Rc Rd Re Rf Rg Rh Ra Rb 0xf40e3585 (AddW 14 [Ts1 12; Tw 7; Ts0 15]);
  Rnd Rb Rc Rd Re Rf Rg Rh Ra 0x106aa070 (AddW 15 [Ts1 13; Tw 8; Ts0 0]);
  Rnd Ra Rb Rc Rd Re Rf Rg Rh 0x19a4c116 (AddW 0 [Ts1 14; Tw 9; Ts0 1]);
  Rnd Rh Ra Rb Rc Rd Re Rf Rg 0x1e376c08 (AddW 1 [Ts1 15; Tw 10; Ts0 2]);
  Rnd Rg Rh Ra Rb Rc Rd Re Rf 0x2748774c (AddW 2 [Ts1 0; Tw 11; Ts0 3]);
  Rnd Rf Rg Rh Ra Rb Rc Rd Re 0x34b0bcb5 (AddW 3 [Ts1 1; Tw 12; Ts0 4]);
  Rnd Re Rf Rg Rh Ra Rb Rc Rd 0x391c0cb3 (AddW 4 [Ts1 2; Tw 13; Ts0 5]);
  Rnd Rd Re Rf Rg Rh Ra Rb Rc 0x4ed8aa4a (AddW 5 [Ts1 3; Tw 14; Ts0 6]);
  Rnd Rc Rd Re Rf Rg Rh Ra Rb 0x5b9cca4f (AddW 6 [Ts1 4; Tw 15; Ts0 7]);
  Rnd Rb Rc Rd Re Rf Rg Rh Ra 0x682e6ff3 (AddW 7 [Ts1 5; Tw 0; Ts0 8]);
  Rnd Ra Rb Rc Rd Re Rf Rg Rh 0x748f82ee (AddW 8 [Ts1 6; Tw 1; Ts0 9]);
  Rnd Rh Ra Rb Rc Rd Re Rf Rg 0x78a5636f (AddW 9 [Ts1 7; Tw 2; Ts0 10]);
  Rnd Rg Rh Ra Rb Rc Rd Re Rf 0x84c87814 (AddW 10 [Ts1 8; Tw 3; Ts0 11]);
  Rnd Rf Rg Rh Ra Rb Rc Rd Re 0x8cc70208 (AddW 11 [Ts1 9; Tw 4; Ts0 12]);
  Rnd Re Rf Rg Rh Ra Rb Rc Rd 0x90befffa (AddW 12 [Ts1 10; Tw 5; Ts0 13]);
  Rnd Rd Re Rf Rg Rh Ra Rb Rc 0xa4506ceb (AddW 13 [Ts1 11; Tw 6; Ts0 14]);
  Rnd Rc Rd Re Rf Rg Rh Ra Rb 0xbef9a3f7 (ExprW [Tw 14; Ts1 12; Tw 7; Ts0 15]);
  Rnd Rb Rc Rd Re Rf Rg Rh Ra 0xc67178f2 (ExprW [Tw 15; Ts1 13; Tw 8; Ts0 0])].

(** The rounds of the first transform of [TransformD64]. *)
Definition TransformD64_rounds1 : list sha_round := [
  Rnd Ra Rb Rc Rd Re Rf Rg Rh 0x428a2f98 (LoadW 0 0);
  Rnd Rh Ra Rb Rc Rd Re Rf Rg 0x71374491 (LoadW 1 4);
  Rnd Rg Rh Ra Rb Rc Rd Re Rf 0xb5c0fbcf (LoadW 2 8);
  Rnd Rf Rg Rh Ra Rb Rc Rd Re 0xe9b5dba5 (LoadW 3 12);
  Rnd Re Rf Rg Rh Ra Rb Rc Rd 0x3956c25b (LoadW 4 16);
  Rnd Rd Re Rf Rg Rh Ra Rb Rc 0x59f111f1 (LoadW 5 20);
  Rnd Rc Rd Re Rf Rg Rh Ra Rb 0x923f82a4 (LoadW 6 24);
  Rnd Rb Rc Rd Re Rf Rg Rh Ra 0xab1c5ed5 (LoadW 7 28);
  Rnd Ra Rb Rc Rd Re Rf Rg Rh 0xd807aa98 (LoadW 8 32);
  Rnd Rh Ra Rb Rc Rd Re Rf Rg 0x12835b01 (LoadW 9 36);
  Rnd Rg Rh Ra Rb Rc Rd Re Rf 0x243185be (LoadW 10 40);
  Rnd Rf Rg Rh Ra Rb Rc Rd Re 0x550c7dc3 (LoadW 11 44);
  Rnd Re Rf Rg Rh Ra Rb Rc Rd 0x72be5d74 (LoadW 12 48);
  Rnd Rd Re Rf Rg Rh Ra Rb Rc 0x80deb1fe (LoadW 13 52);
  Rnd Rc Rd Re Rf Rg Rh Ra Rb 0x9bdc06a7 (LoadW 14 56);
  Rnd Rb Rc Rd Re Rf Rg Rh Ra 0xc19bf174 (LoadW 15 60);
  Rnd Ra Rb Rc Rd Re Rf Rg Rh 0xe49b69c1 (AddW 0 [Ts1 14; Tw 9; Ts0 1]);
  Rnd Rh Ra Rb Rc Rd Re Rf Rg 0xefbe4786 (AddW 1 [Ts1 15; Tw 10; Ts0 2]);
  Rnd Rg Rh Ra Rb Rc Rd Re Rf 0x0fc19dc6 (AddW 2 [Ts1 0; Tw 11; Ts0 3]);
  Rnd Rf Rg Rh Ra Rb Rc Rd Re 0x240ca1cc (AddW 3 [Ts1 1; Tw 12; Ts0 4]);
  Rnd Re Rf Rg Rh Ra Rb Rc Rd 0x2de92c6f (AddW 4 [Ts1 2; Tw 13; Ts0 5]);
  Rnd Rd Re Rf Rg Rh Ra Rb Rc 0x4a7484aa (AddW 5 [Ts1 3; Tw 14; Ts0 6]);
  Rnd Rc Rd Re Rf Rg Rh Ra Rb 0x5cb0a9dc (AddW 6 [Ts1 4; Tw 15; Ts0 7]);
  Rnd Rb Rc Rd Re Rf Rg Rh Ra 0x76f988da (AddW 7 [Ts1 5; Tw 0; Ts0 8]);
  Rnd Ra Rb Rc Rd Re Rf Rg Rh 0x983e5152 (AddW 8 [Ts1 6; Tw 1; Ts0 9]);
  Rnd Rh Ra Rb Rc Rd Re Rf Rg 0xa831c66d (AddW 9 [Ts1 7; Tw 2; Ts0 10]);
  Rnd Rg Rh Ra Rb Rc Rd Re Rf 0xb00327c8 (AddW 10 [Ts1 8; Tw 3; Ts0 11]);
  Rnd Rf Rg Rh Ra Rb Rc Rd Re 0xbf597fc7 (AddW 11 [Ts1 9; Tw 4; Ts0 12]);
  Rnd Re Rf Rg Rh Ra Rb Rc Rd 0xc6e00bf3 (AddW 12 [Ts1 10; Tw 5; Ts0 13]);
  Rnd Rd Re Rf Rg Rh Ra Rb Rc 0xd5a79147 (AddW 13 [Ts1 11; Tw 6; Ts0 14]);
  Rnd Rc Rd Re Rf Rg Rh Ra Rb 0x06ca6351 (AddW 14 [Ts1 12; Tw 7; Ts0 15]);
  Rnd Rb Rc Rd Re Rf Rg Rh Ra 0x14292967 (AddW 15 [Ts1 13; Tw 8; Ts0 0]);
  Rnd Ra Rb Rc Rd Re Rf Rg Rh 0x27b70a85 (AddW 0 [Ts1 14; Tw 9; Ts0 1]);
  Rnd Rh Ra Rb Rc Rd Re Rf Rg 0x2e1b2138 (AddW 1 [Ts1 15; Tw 10; Ts0 2]);
  Rnd Rg Rh Ra Rb Rc Rd Re Rf 0x4d2c6dfc (AddW 2 [Ts1 0; Tw 11; Ts0 3]);
  Rnd Rf Rg Rh Ra Rb Rc Rd Re 0x53380d13 (AddW 3 [Ts1 1; Tw 12; Ts0 4]);
  Rnd Re Rf Rg Rh Ra Rb Rc Rd 0x650a7354 (AddW 4 [Ts1 2; Tw 13; Ts0 5]);
  Rnd Rd Re Rf Rg Rh Ra Rb Rc 0x766a0abb (AddW 5 [Ts1 3; Tw 14; Ts0 6]);
  Rnd Rc Rd Re Rf Rg Rh Ra Rb 0x81c2c92e (AddW 6 [Ts1 4; Tw 15; Ts0 7]);
  Rnd Rb Rc Rd Re Rf Rg Rh Ra 0x92722c85 (AddW 7 [Ts1 5; Tw 0; Ts0 8]);
  Rnd Ra Rb Rc Rd Re Rf Rg Rh 0xa2bfe8a1 (AddW 8 [Ts1 6; Tw 1; Ts0 9]);
  Rnd Rh Ra Rb Rc Rd Re Rf Rg 0xa81a664b (AddW 9 [Ts1 7; Tw 2; Ts0 10]);
  Rnd Rg Rh Ra Rb Rc Rd Re Rf 0xc24b8b70 (AddW 10 [Ts1 8; Tw 3; Ts0 11]);
  Rnd Rf Rg Rh Ra Rb Rc Rd Re 0xc76c51a3 (AddW 11 [Ts1 9; Tw 4; Ts0 12]);
  Rnd Re Rf Rg Rh Ra Rb Rc Rd 0xd192e819 (AddW 12 [Ts1 10; Tw 5; Ts0 13]);
  Rnd Rd Re Rf Rg Rh Ra Rb Rc 0xd6990624 (AddW 13 [Ts1 11; Tw 6; Ts0 14]);
  Rnd Rc Rd Re Rf Rg Rh Ra Rb 0xf40e3585 (AddW 14 [Ts1 12; Tw 7; Ts0 15]);
  Rnd Rb Rc Rd Re Rf Rg Rh Ra 0x106aa070 (AddW 15 [Ts1 13; Tw 8; Ts0 0]);
  Rnd Ra Rb Rc Rd Re Rf Rg Rh 0x19a4c116 (AddW 0 [Ts1 14; Tw 9; Ts0 1]);
  Rnd Rh Ra Rb Rc Rd Re Rf Rg 0x1e376c08 (AddW 1 [Ts1 15; Tw 10; Ts0 2]);
  Rnd Rg Rh Ra Rb Rc Rd Re Rf 0x2748774c (AddW 2 [Ts1 0; Tw 11; Ts0 3]);
  Rnd Rf Rg Rh Ra Rb Rc Rd Re 0x34b0bcb5 (AddW 3 [Ts1 1; Tw 12; Ts0 4]);
  Rnd Re Rf Rg Rh Ra Rb Rc Rd 0x391c0cb3 (AddW 4 [Ts1 2; Tw 13; Ts0 5]);
  Rnd Rd Re Rf Rg Rh Ra Rb Rc 0x4ed8aa4a (AddW 5 [Ts1 3; Tw 14; Ts0 6]);
  Rnd Rc Rd Re Rf Rg Rh Ra Rb 0x5b9cca4f (AddW 6 [Ts1 4; Tw 15; Ts0 7]);
  Rnd Rb Rc Rd Re Rf Rg Rh Ra 0x682e6ff3 (AddW 7 [Ts1 5; Tw 0; Ts0 8]);
  Rnd Ra Rb Rc Rd Re Rf Rg Rh 0x748f82ee (AddW 8 [Ts1 6; Tw 1; Ts0 9]);
  Rnd Rh Ra Rb Rc Rd Re Rf Rg 0x78a5636f (AddW 9 [Ts1 7; Tw 2; Ts0 10]);
  Rnd Rg Rh Ra Rb Rc Rd Re Rf 0x84c87814 (AddW 10 [Ts1 8; Tw 3; Ts0 11]);
  Rnd Rf Rg Rh Ra Rb Rc Rd Re 0x8cc70208 (AddW 11 [Ts1 9; Tw 4; Ts0 12]);
  Rnd Re Rf Rg Rh Ra Rb Rc Rd 0x90befffa (AddW 12 [Ts1 10; Tw 5; Ts0 13]);
  Rnd Rd Re Rf Rg Rh Ra Rb Rc 0xa4506ceb (AddW 13 [Ts1 11; Tw 6; Ts0 14]);
  Rnd Rc Rd Re Rf Rg Rh Ra Rb 0xbef9a3f7 (ExprW [Tw 14; Ts1 12; Tw 7; Ts0 15]);
  Rnd Rb Rc Rd Re Rf Rg Rh Ra 0xc67178f2 (ExprW [Tw 15; Ts1 13; Tw 8; Ts0 0])].

(** The rounds of its second transform, over the padding. *)
Definition TransformD64_rounds2 : list sha_round := [
  Rnd Ra Rb Rc Rd Re Rf Rg Rh 0xc28a2f98 NoW;
  Rnd Rh Ra Rb Rc Rd Re Rf Rg 0x71374491 NoW;
  Rnd Rg Rh Ra Rb Rc Rd Re Rf 0xb5c0fbcf NoW;
  Rnd Rf Rg Rh Ra Rb Rc Rd Re 0xe9b5dba5 NoW;
  Rnd Re Rf Rg Rh Ra Rb Rc Rd 0x3956c25b NoW;
  Rnd Rd Re Rf Rg Rh Ra Rb Rc 0x59f111f1 NoW;
  Rnd Rc Rd Re Rf Rg Rh Ra Rb 0x923f82a4 NoW;
  Rnd Rb Rc Rd Re Rf Rg Rh Ra 0xab1c5ed5 NoW;
  Rnd Ra Rb Rc Rd Re Rf Rg Rh 0xd807aa98 NoW;
  Rnd Rh Ra Rb Rc Rd Re Rf Rg 0x12835b01 NoW;
  Rnd Rg Rh Ra Rb Rc Rd Re Rf 0x243185be NoW;
  Rnd Rf Rg Rh Ra Rb Rc Rd Re 0x550c7dc3 NoW;
  Rnd Re Rf Rg Rh Ra Rb Rc Rd 0x72be5d74 NoW;
  Rnd Rd Re Rf Rg Rh Ra Rb Rc 0x80deb1fe NoW;
  Rnd Rc Rd Re Rf Rg Rh Ra Rb 0x9bdc06a7 NoW;
  Rnd Rb Rc Rd Re Rf Rg Rh Ra 0xc19bf374 NoW;
  Rnd Ra Rb Rc Rd Re Rf Rg Rh 0x649b69c1 NoW;
  Rnd Rh Ra Rb Rc Rd Re Rf Rg 0xf0fe4786 NoW;
  Rnd Rg Rh Ra Rb Rc Rd Re Rf 0x0fe1edc6 NoW;
  Rnd Rf Rg Rh Ra Rb Rc Rd Re 0x240cf254 NoW;
  Rnd Re Rf Rg Rh Ra Rb Rc Rd 0x4fe9346f NoW;
  Rnd Rd Re Rf Rg Rh Ra Rb Rc 0x6cc984be NoW;
  Rnd Rc Rd Re Rf Rg Rh Ra Rb 0x61b9411e NoW;
  Rnd Rb Rc Rd Re Rf Rg Rh Ra 0x16f988fa NoW;
  Rnd Ra Rb Rc Rd Re Rf Rg Rh 0xf2c65152 NoW;
  Rnd Rh Ra Rb Rc Rd Re Rf Rg 0xa88e5a6d NoW;
  Rnd Rg Rh Ra Rb Rc Rd Re Rf 0xb019fc65 NoW;
  Rnd Rf Rg Rh Ra Rb Rc Rd Re 0xb9d99ec7 NoW;
  Rnd Re Rf Rg Rh Ra Rb Rc Rd 0x9a1231c3 NoW;
  Rnd Rd Re Rf Rg Rh Ra Rb Rc 0xe70eeaa0 NoW;
  Rnd Rc Rd Re Rf Rg Rh Ra Rb 0xfdb1232b NoW;
  Rnd Rb Rc Rd Re Rf Rg Rh Ra 0xc7353eb0 NoW;
  Rnd Ra Rb Rc Rd Re Rf Rg Rh 0x3069bad5 NoW;
  Rnd Rh Ra Rb Rc Rd Re Rf Rg 0xcb976d5f NoW;
  Rnd Rg Rh Ra Rb Rc Rd Re Rf 0x5a0f118f NoW;
  Rnd Rf Rg Rh Ra Rb Rc Rd Re 0xdc1eeefd NoW;
  Rnd Re Rf Rg Rh Ra Rb Rc Rd 0x0a35b689 NoW;
  Rnd Rd Re Rf Rg Rh Ra Rb Rc 0xde0b7a04 NoW;
  Rnd Rc Rd Re Rf Rg Rh Ra Rb 0x58f4ca9d NoW;
  Rnd Rb Rc Rd Re Rf Rg Rh Ra 0xe15d5b16 NoW;
  Rnd Ra Rb Rc Rd Re Rf Rg Rh 0x007f3e86 NoW;
  Rnd Rh Ra Rb Rc Rd Re Rf Rg 0x37088980 NoW;
  Rnd Rg Rh Ra Rb Rc Rd Re Rf 0xa507ea32 NoW;
  Rnd Rf Rg Rh Ra Rb Rc Rd Re 0x6fab9537 NoW;
  Rnd Re Rf Rg Rh Ra Rb Rc Rd 0x17406110 NoW;
  Rnd Rd Re Rf Rg Rh Ra Rb Rc 0x0d8cd6f1 NoW;
  Rnd Rc Rd Re Rf Rg Rh Ra Rb 0xcdaa3b6d NoW;
  Rnd Rb Rc Rd Re Rf Rg Rh Ra 0xc0bbbe37 NoW;
  Rnd Ra Rb Rc Rd Re Rf Rg Rh 0x83613bda NoW;
  Rnd Rh Ra Rb Rc Rd Re Rf Rg 0xdb48a363 NoW;
  Rnd Rg Rh Ra Rb Rc Rd Re Rf 0x0b02e931 NoW;
  Rnd Rf Rg Rh Ra Rb Rc Rd Re 0x6fd15ca7 NoW;
  Rnd Re Rf Rg Rh Ra Rb Rc Rd 0x521afaca NoW;
  Rnd Rd Re Rf Rg Rh Ra Rb Rc 0x31338431 NoW;
  Rnd Rc Rd Re Rf Rg Rh Ra Rb 0x6ed41a95 NoW;
  Rnd Rb Rc Rd Re Rf Rg Rh Ra 0x6d437890 NoW;
  Rnd Ra Rb Rc Rd Re Rf Rg Rh 0xc39c91f2 NoW;
  Rnd Rh Ra Rb Rc Rd Re Rf Rg 0x9eccabbd NoW;
  Rnd Rg Rh Ra Rb Rc Rd Re Rf 0xb5c9a0e6 NoW;
  Rnd Rf Rg Rh Ra Rb Rc Rd Re 0x532fb63c NoW;
  Rnd Re Rf Rg Rh Ra Rb Rc Rd 0xd2c741c6 NoW;
  Rnd Rd Re Rf Rg Rh Ra Rb Rc 0x07237ea3 NoW;
  Rnd Rc Rd Re Rf Rg Rh Ra Rb 0xa4954b68 NoW;
  Rnd Rb Rc Rd Re Rf Rg Rh Ra 0x4c191d76 NoW].

(** The rounds of its third transform, over the first digest. *)
Definition TransformD64_rounds3 : list sha_round := [
  Rnd Ra Rb Rc Rd Re Rf Rg Rh 0x428a2f98 (ExprW [Tw 0]);
  Rnd Rh Ra Rb Rc Rd Re Rf Rg 0x71374491 (ExprW [Tw 1]);
  Rnd Rg Rh Ra Rb Rc Rd Re Rf 0xb5c0fbcf (ExprW [Tw 2]);
  Rnd Rf Rg Rh Ra Rb Rc Rd Re 0xe9b5dba5 (ExprW [Tw 3]);
  Rnd Re Rf Rg Rh Ra Rb Rc Rd 0x3956c25b (ExprW [Tw 4]);
  Rnd Rd Re Rf Rg Rh Ra Rb Rc 0x59f111f1 (ExprW [Tw 5]);
  Rnd Rc Rd Re Rf Rg Rh Ra Rb 0x923f82a4 (ExprW [Tw 6]);
  Rnd Rb Rc Rd Re Rf Rg Rh Ra 0xab1c5ed5 (ExprW [Tw 7]);
  Rnd Ra Rb Rc Rd Re Rf Rg Rh 0x5807aa98 NoW;
  Rnd Rh Ra Rb Rc Rd Re Rf Rg 0x12835b01 NoW;
  Rnd Rg Rh Ra Rb Rc Rd Re Rf 0x243185be NoW;
  Rnd Rf Rg Rh Ra Rb Rc Rd Re 0x550c7dc3 NoW;
  Rnd Re Rf Rg Rh Ra Rb Rc Rd 0x72be5d74 NoW;
  Rnd Rd Re Rf Rg Rh Ra Rb Rc 0x80deb1fe NoW;
  Rnd Rc Rd Re Rf Rg Rh Ra Rb 0x9bdc06a7 NoW;
  Rnd Rb Rc Rd Re Rf Rg Rh Ra 0xc19bf274 NoW;
  Rnd Ra Rb Rc Rd Re Rf Rg Rh 0xe49b69c1 (AddW 0 [Ts0 1]);
  Rnd Rh Ra Rb Rc Rd Re Rf Rg 0xefbe4786 (AddW 1 [Tc 0xa00000; Ts0 2]);
  Rnd Rg Rh Ra Rb Rc Rd Re Rf 0x0fc19dc6 (AddW 2 [Ts1 0; Ts0 3]);
  Rnd Rf Rg Rh Ra Rb Rc Rd Re 0x240ca1cc (AddW 3 [Ts1 1; Ts0 4]);
  Rnd Re Rf Rg Rh Ra Rb Rc Rd 0x2de92c6f (AddW 4 [Ts1 2; Ts0 5]);
  Rnd Rd Re Rf Rg Rh Ra Rb Rc 0x4a7484aa (AddW 5 [Ts1 3; Ts0 6]);
  Rnd Rc Rd Re Rf Rg Rh Ra Rb 0x5cb0a9dc (AddW 6 [Ts1 4; Tc 0x100; Ts0 7]);
  Rnd Rb Rc Rd Re Rf Rg Rh Ra 0x76f988da (AddW 7 [Ts1 5; Tw 0; Tc 0x11002000]);
  Rnd Ra Rb Rc Rd Re Rf Rg Rh 0x983e5152 (SetW 8 [Tc 0x80000000; Ts1 6; Tw 1]);
  Rnd Rh Ra Rb Rc Rd Re Rf Rg 0xa831c66d (SetW 9 [Ts1 7; Tw 2]);
  Rnd Rg Rh Ra Rb Rc Rd Re Rf 0xb00327c8 (SetW 10 [Ts1 8; Tw 3]);
  Rnd Rf Rg Rh Ra Rb Rc Rd Re 0xbf597fc7 (SetW 11 [Ts1 9; Tw 4]);
  Rnd Re Rf Rg Rh Ra Rb Rc Rd 0xc6e00bf3 (SetW 12 [Ts1 10; Tw 5]);
  Rnd Rd Re Rf Rg Rh Ra Rb Rc 0xd5a79147 (SetW 13 [Ts1 11; Tw 6]);
  Rnd Rc Rd Re Rf Rg Rh Ra Rb 0x06ca6351 (SetW 14 [Ts1 12; Tw 7; Tc 0x400022]);
  Rnd Rb Rc Rd Re Rf Rg Rh Ra 0x14292967 (SetW 15 [Tc 0x100; Ts1 13; Tw 8; Ts0 0]);
  Rnd Ra Rb Rc Rd Re Rf Rg Rh 0x27b70a85 (AddW 0 [Ts1 14; Tw 9; Ts0 1]);
  Rnd Rh Ra Rb Rc Rd Re Rf Rg 0x2e1b2138 (AddW 1 [Ts1 15; Tw 10; Ts0 2]);
  Rnd Rg Rh Ra Rb Rc Rd Re Rf 0x4d2c6dfc (AddW 2 [Ts1 0; Tw 11; Ts0 3]);
  Rnd Rf Rg Rh Ra Rb Rc Rd Re 0x53380d13 (AddW 3 [Ts1 1; Tw 12; Ts0 4]);
  Rnd Re Rf Rg Rh Ra Rb Rc Rd 0x650a7354 (AddW 4 [Ts1 2; Tw 13; Ts0 5]);
  Rnd Rd Re Rf Rg Rh Ra Rb Rc 0x766a0abb (AddW 5 [Ts1 3; Tw 14; Ts0 6]);
  Rnd Rc Rd Re Rf Rg Rh Ra Rb 0x81c2c92e (AddW 6 [Ts1 4; Tw 15; Ts0 7]);
  Rnd Rb Rc Rd Re Rf Rg Rh Ra 0x92722c85 (AddW 7 [Ts1 5; Tw 0; Ts0 8]);
  Rnd Ra Rb Rc Rd Re Rf Rg Rh 0xa2bfe8a1 (AddW 8 [Ts1 6; Tw 1; Ts0 9]);
  Rnd Rh Ra Rb Rc Rd Re Rf Rg 0xa81a664b (AddW 9 [Ts1 7; Tw 2; Ts0 10]);
  Rnd Rg Rh Ra Rb Rc Rd Re Rf 0xc24b8b70 (AddW 10 [Ts1 8; Tw 3; Ts0 11]);
  Rnd Rf Rg Rh Ra Rb Rc Rd Re 0xc76c51a3 (AddW 11 [Ts1 9; Tw 4; Ts0 12]);
  Rnd Re Rf Rg Rh Ra Rb Rc Rd 0xd192e819 (AddW 12 [Ts1 10; Tw 5; Ts0 13]);
  Rnd Rd Re Rf Rg Rh Ra Rb Rc 0xd6990624 (AddW 13 [Ts1 11; Tw 6; Ts0 14]);
  Rnd Rc Rd Re Rf Rg Rh Ra Rb 0xf40e3585 (AddW 14 [Ts1 12; Tw 7; Ts0 15]);
  Rnd Rb Rc Rd Re Rf Rg Rh Ra 0x106aa070 (AddW 15 [Ts1 13; Tw 8; Ts0 0]);
  Rnd Ra Rb Rc Rd Re Rf Rg Rh 0x19a4c116 (AddW 0 [Ts1 14; Tw 9; Ts0 1]);
  Rnd Rh Ra Rb Rc Rd Re Rf Rg 0x1e376c08 (AddW 1 [Ts1 15; Tw 10; Ts0 2]);
  Rnd Rg Rh Ra Rb Rc Rd Re Rf 0x2748774c (AddW 2 [Ts1 0; Tw 11; Ts0 3]);
  Rnd Rf Rg Rh Ra Rb Rc Rd Re 0x34b0bcb5 (AddW 3 [Ts1 1; Tw 12; Ts0 4]);
  Rnd Re Rf Rg Rh Ra Rb Rc Rd 0x391c0cb3 (AddW 4 [Ts1 2; Tw 13; Ts0 5]);
  Rnd Rd Re Rf Rg Rh Ra Rb Rc 0x4ed8aa4a (AddW 5 [Ts1 3; Tw 14; Ts0 6]);
  Rnd Rc Rd Re Rf Rg Rh Ra Rb 0x5b9cca4f (AddW 6 [Ts1 4; Tw 15; Ts0 7]);
  Rnd Rb Rc Rd Re Rf Rg Rh Ra 0x682e6ff3 (AddW 7 [Ts1 5; Tw 0; Ts0 8]);
  Rnd Ra Rb Rc Rd Re Rf Rg Rh 0x748f82ee (AddW 8 [Ts1 6; Tw 1; Ts0 9]);
  Rnd Rh Ra Rb Rc Rd Re Rf Rg 0x78a5636f (AddW 9 [Ts1 7; Tw 2; Ts0 10]);
  Rnd Rg Rh Ra Rb Rc Rd Re Rf 0x84c87814 (AddW 10 [Ts1 8; Tw 3; Ts0 11]);
  Rnd Rf Rg Rh Ra Rb Rc Rd Re 0x8cc70208 (AddW 11 [Ts1 9; Tw 4; Ts0 12]);
  Rnd Re Rf Rg Rh Ra Rb Rc Rd 0x90befffa (AddW 12 [Ts1 10; Tw 5; Ts0 13]);
  Rnd Rd Re Rf Rg Rh Ra Rb Rc 0xa4506ceb (AddW 13 [Ts1 11; Tw 6; Ts0 14]);
  Rnd Rc Rd Re Rf Rg Rh Ra Rb 0xbef9a3f7 (ExprW [Tw 14; Ts1 12; Tw 7; Ts0 15]);
  Rnd Rb Rc Rd Re Rf Rg Rh Ra 0xc67178f2 (ExprW [Tw 15; Ts1 13; Tw 8; Ts0 0])].

(** ** The compression function *)

Definition initial : list Z :=
  [0x6a09e667; 0xbb67ae85; 0x3c6ef372; 0xa54ff53a; 0x510e527f; 0x9b05688c; 0x1f83d9ab; 0x5be0cd19].

Definition Initialize : list Z := initial.

Definition add_words (l k : list Z) : list Z := zip_with (fun x y => u32 (x + y)) l k.

(** The message variables start uninitialized in the source; every line reads only variables that a line before it has set
    ([exec_rounds_any_w] below), so that their first value is irrelevant. *)
Definition uninitialized : list Z := repeat 0 16.

Fixpoint Transform (s chunk : list Z) (blocks : nat) : list Z :=
  match blocks with
  | O => s
  | S blocks' => Transform (add_words s (exec_rounds chunk Transform_rounds s uninitialized)) (drop 64 chunk) blocks'
  end.

(** Double SHA-256 of 64 bytes. *)
Definition TransformD64 (input : list Z) : list Z :=
  let t := add_words (exec_rounds input TransformD64_rounds1 initial uninitialized) initial in
  let s := exec_rounds input TransformD64_rounds2 t uninitialized in
  let w := add_words t s ++ repeat 0 8 in
  let s := exec_rounds input TransformD64_rounds3 initial w in
  concat (map WriteBE32 (add_words s initial)).

(** The template that makes a double hash of 64 bytes of any transform. *)
Definition padding1 : list Z := 0x80 :: repeat 0 61 ++ [2; 0].
Definition TransformD64Wrapper (tr : list Z -> list Z -> nat -> list Z) (input : list Z) : list Z :=
  let s := tr Initialize input 1%nat in
  let s := tr s padding1 1%nat in
  let buffer2 := concat (map WriteBE32 s) ++ 0x80 :: repeat 0 29 ++ [1; 0] in
  let s := tr Initialize buffer2 1%nat in
  concat (map WriteBE32 s).

(** ** The hasher *)

Record CSHA256 := mkSHA { sha_s : list Z; sha_buf : list Z; sha_bytes : Z }.

(** The buffer is uninitialized in the source. *)
Definition CSHA256_new (buf : list Z) : CSHA256 := mkSHA Initialize buf 0.

Definition memcpy (dst : list Z) (off : nat) (src : list Z) : list Z := take off dst ++ src ++ drop (off + length src) dst.

(** A started buffer is filled and processed when the data suffice; what is left of the data, and of the buffer. *)
Definition fill_buffer (c : CSHA256) (data : list Z) : CSHA256 * list Z * nat :=
  let bufsize := Z.to_nat (sha_bytes c mod 64) in
  if negb (bufsize =? 0)%nat && (64 <=? bufsize + length data)%nat then
    let n := (64 - bufsize)%nat in
    let buf := memcpy (sha_buf c) bufsize (take n data) in
    (mkSHA (Transform (sha_s c) buf 1) buf (u64 (sha_bytes c + Z.of_nat n)), drop n data, 0%nat)
  else (c, data, bufsize).

(** Whole blocks are processed where they lie. *)
Definition process_blocks (c : CSHA256) (data : list Z) : CSHA256 * list Z :=
  if (64 <=? length data)%nat then
    let blocks := (length data / 64)%nat in
    (mkSHA (Transform (sha_s c) data blocks) (sha_buf c) (u64 (sha_bytes c + Z.of_nat (64 * blocks))), drop (64 * blocks) data)
  else (c, data).

Definition CSHA256_Write (c : CSHA256) (data : list Z) : CSHA256 :=
  let '(c, data, bufsize) := fill_buffer c data in
  let '(c, data) := process_blocks c data in
  if (0 <? length data)%nat then
    mkSHA (sha_s c) (memcpy (sha_buf c) bufsize data) (u64 (sha_bytes c + Z.of_nat (length data)))
  else c.

(** The hash, and the state that [CSHA256_Finalize] leaves behind. *)
Definition CSHA256_Finalize (c : CSHA256) : CSHA256 * list Z :=
  let sizedesc := WriteBE64 (u64 (Z.shiftl (sha_bytes c) 3)) in
  let pad := 0x80 :: repeat 0 63 in
  let c' := CSHA256_Write c (take (Z.to_nat (1 + (119 - sha_bytes c mod 64) mod 64)) pad) in
  let c' := CSHA256_Write c' sizedesc in
  (c', concat (map WriteBE32 (sha_s c'))).

Definition CSHA256_Reset (c : CSHA256) : CSHA256 := mkSHA Initialize (sha_buf c) 0.

(** [CHash256] and [HashWriter]: the hash of the hash. *)
Definition CHash256_Finalize (c : CSHA256) : CSHA256 * list Z :=
  let '(c, buf) := CSHA256_Finalize c in
  CSHA256_Finalize (CSHA256_Write (CSHA256_Reset c) buf).

Fixpoint Nway (k : nat) (f : option (list Z -> list Z)) (fuel : nat) (input : list Z) (blocks : nat) : list Z * list Z * nat :=
  match f, fuel with
  | Some tr, S fuel' =>
      if (k <=? blocks)%nat then
        let '(out, rest, blocks') := Nway k f fuel' (drop (64 * k) input) (blocks - k) in (tr (take (64 * k) input) ++ out, rest, blocks')
      else ([], input, blocks)
  | _, _ => ([], input, blocks)
  end.

Fixpoint D64_loop (input : list Z) (blocks : nat) : list Z :=
  match blocks with O => [] | S blocks' => TransformD64 (take 64 input) ++ D64_loop (drop 64 input) blocks' end.

(** Many double hashes of 64 bytes; the vectorized transforms are used when the processor has them. *)
Definition SHA256D64 (way8 way4 way2 : option (list Z -> list Z)) (input : list Z) (blocks : nat) : list Z :=
  let '(out8, input, blocks) := Nway 8 way8 blocks input blocks in
  let '(out4, input, blocks) := Nway 4 way4 blocks input blocks in
  let '(out2, input, blocks) := Nway 2 way2 blocks input blocks in
  out8 ++ out4 ++ out2 ++ D64_loop input blocks.
