(* ===== verification/Sha256Spec.v ===== *)
(** * SHA-256 as FIPS 180-4 defines it, and the code of [Sha256] against it

    The reference definition works on whole messages; the unrolled compression, the double hash of 64 bytes and the streaming hasher
    are proved equal to it. *)

From Stdlib Require Import ZifyNat.
From S2P Require Import Prelude Sha256.

(** ** The standard *)

Definition fips_Ch (x y z : Z) : Z := Z.lxor (Z.land x y) (Z.land (Z.lnot x) z).
Definition fips_Maj (x y z : Z) : Z := Z.lxor (Z.lxor (Z.land x y) (Z.land x z)) (Z.land y z).

(** The constants: the first 32 bits of the fractional parts of square and cube roots of the first primes. *)
Definition fips_primes : list Z := List.filter (fun n => forallb (fun d => negb (n mod d =? 0)) (seqZ 2 (n - 2))) (seqZ 2 310).

Fixpoint fips_root (bits : nat) (k x r : Z) : Z :=
  match bits with
  | O => r
  | S n => fips_root n k x (if (r + 2 ^ Z.of_nat n) ^ k <=? x then r + 2 ^ Z.of_nat n else r)
  end.
Definition fips_fraction (k p : Z) : Z := fips_root 40 k (p * 2 ^ (32 * k)) 0 mod 2 ^ 32.

Definition fips_K : list Z := Eval vm_compute in map (fips_fraction 3) fips_primes.
Definition fips_H : list Z := Eval vm_compute in map (fips_fraction 2) (take 8 fips_primes).

(** The words of a block, and the message schedule grown from them one word at a time. *)
Definition fips_words (block : list Z) : list Z := map (fun i => ReadBE32 (drop (4 * i) block)) (seq 0 16).

Definition fips_next (l : list Z) : Z :=
  let t := length l in
  u32 (sigma1 (nth (t - 2) l 0) + nth (t - 7) l 0 + sigma0 (nth (t - 15) l 0) + nth (t - 16) l 0).

Fixpoint fips_extend (n : nat) (l : list Z) : list Z :=
  match n with O => l | S n' => fips_extend n' (l ++ [fips_next l]) end.

Definition fips_schedule (words : list Z) : list Z := fips_extend 48 words.

Definition fips_round (s : list Z) (kw : Z * Z) : list Z :=
  match s with
  | [a; b; c; d; e; f; g; h] =>
      let T1 := u32 (h + Sigma1 e + fips_Ch e f g + fst kw + snd kw) in
      let T2 := u32 (Sigma0 a + fips_Maj a b c) in
      [u32 (T1 + T2); a; b; c; u32 (d + T1); e; f; g]
  | _ => s
  end.

Definition fips_compress (s words : list Z) : list Z :=
  add_words s (fold_left fips_round (zip fips_K (fips_schedule words)) s).

Fixpoint fips_blocks (n : nat) (s m : list Z) : list Z :=
  match n with O => s | S n' => fips_blocks n' (fips_compress s (fips_words m)) (drop 64 m) end.

Definition fips_pad (m : list Z) : list Z :=
  m ++ 0x80 :: repeat 0 (Z.to_nat ((55 - Z.of_nat (length m)) mod 64)) ++ WriteBE64 (8 * Z.of_nat (length m)).

Definition sha256 (m : list Z) : list Z :=
  let p := fips_pad m in concat (map WriteBE32 (fips_blocks (length p / 64) fips_H p)).

(** The eight words [sha256::Initialize] writes are the standard's start values. *)
Lemma initial_fips : initial = fips_H.
Proof. reflexivity. Qed.

(** [lia] with quotients and remainders of natural numbers. *)
Ltac nat_div_lia := zify; Z.to_euclidean_division_equations; lia.

(** ** Words *)

#[local] Hint Unfold is_u32 : core.

Lemma u32_add_l (x y : Z) : u32 (u32 x + y) = u32 (x + y).
Proof. unfold u32. apply Zplus_mod_idemp_l. Qed.
Lemma u32_add_r (x y : Z) : u32 (x + u32 y) = u32 (x + y).
Proof. unfold u32. apply Zplus_mod_idemp_r. Qed.

(** Equality of sums of words, whatever the intermediate wrap-around. *)
Ltac word_eq := rewrite ?u32_add_l, ?u32_add_r; unfold u32; f_equal; try lia.

Lemma Ch_fips (x y z : Z) : Ch x y z = fips_Ch x y z.
Proof.
  unfold Ch, fips_Ch. apply Z.bits_inj'. intros i Hi. rewrite !Z.lxor_spec, !Z.land_spec, Z.lxor_spec, Z.lnot_spec by done.
  by destruct (Z.testbit x i), (Z.testbit y i), (Z.testbit z i).
Qed.

Lemma Maj_fips (x y z : Z) : Maj x y z = fips_Maj x y z.
Proof.
  unfold Maj, fips_Maj. apply Z.bits_inj'. intros i Hi. rewrite !Z.lxor_spec, Z.lor_spec, !Z.land_spec, Z.lor_spec.
  by destruct (Z.testbit x i), (Z.testbit y i), (Z.testbit z i).
Qed.

(** ** Rounds

    The registers of the source stand still and the names rotate; in the standard the names stand still and the values rotate. *)

Definition regs_of (i : sha_round) : reg * reg * reg * reg * reg * reg * reg * reg :=
  match i with Rnd ra rb rc rd re rf rg rh _ _ => (ra, rb, rc, rd, re, rf, rg, rh) end.

Definition round_with (r : list Z) (x : (reg * reg * reg * reg * reg * reg * reg * reg) * Z) : list Z :=
  let '((ra, rb, rc, rd, re, rf, rg, rh), k) := x in Round r ra rb rc rd re rf rg rh k.

(** The constants and messages of a program, and the sums that its rounds add. *)
Definition line_of (i : sha_round) : Z * sha_message := match i with Rnd _ _ _ _ _ _ _ _ k m => (k, m) end.

Fixpoint keys (chunk w : list Z) (l : list (Z * sha_message)) : list Z :=
  match l with
  | [] => []
  | (k, m) :: l' => let '(w', x) := eval_message chunk w m in u32 (k + x) :: keys chunk w' l'
  end.

Lemma exec_rounds_keys (chunk : list Z) (p : list sha_round) (r w : list Z) :
  exec_rounds chunk p r w = fold_left round_with (zip (map regs_of p) (keys chunk w (map line_of p))) r.
Proof.
  unfold exec_rounds. revert r w. induction p as [|[ra rb rc rd re rf rg rh k m] p IH]; intros r w; [done|].
  cbn [fold_left exec_round keys map regs_of line_of]. destruct (eval_message chunk w m) as [w' x]. apply IH.
Qed.

(** The eight namings, in the order in which every program uses them. *)
Definition namings : list (reg * reg * reg * reg * reg * reg * reg * reg) :=
  [(Ra, Rb, Rc, Rd, Re, Rf, Rg, Rh); (Rh, Ra, Rb, Rc, Rd, Re, Rf, Rg); (Rg, Rh, Ra, Rb, Rc, Rd, Re, Rf); (Rf, Rg, Rh, Ra, Rb, Rc, Rd, Re);
   (Re, Rf, Rg, Rh, Ra, Rb, Rc, Rd); (Rd, Re, Rf, Rg, Rh, Ra, Rb, Rc); (Rc, Rd, Re, Rf, Rg, Rh, Ra, Rb); (Rb, Rc, Rd, Re, Rf, Rg, Rh, Ra)].

(** Round [t] of the source and of the standard, on the rotated state. *)
Lemma round_rotates (t : nat) (s : list Z) (k w : Z) :
  length s = 8%nat -> (t < 8)%nat ->
  round_with (rotate t s) (nth t namings (Ra, Rb, Rc, Rd, Re, Rf, Rg, Rh), u32 (k + w)) = rotate (S t) (fips_round s (k, w)).
Proof.
  intros Hs Ht. destruct s as [|a [|b [|c [|d [|e [|f [|g [|h [|]]]]]]]]]; try done.
  assert (E1 : u32 (h + Sigma1 e + Ch e f g + u32 (k + w)) = u32 (h + Sigma1 e + fips_Ch e f g + k + w)) by (rewrite Ch_fips; word_eq).
  unfold fips_round; cbn [fst snd]. rewrite <- E1, <- Maj_fips.
  do 8 (destruct t as [|t]; [reflexivity|]). lia.
Qed.

Lemma length_fips_round (s : list Z) (kw : Z * Z) : length (fips_round s kw) = length s.
Proof. by destruct s as [|a [|b [|c [|d [|e [|f [|g [|h [|]]]]]]]]]. Qed.

Lemma length_fips_rounds (kws : list (Z * Z)) (s : list Z) : length (fold_left fips_round kws s) = length s.
Proof. revert s. induction kws as [|kw kws IH]; intros s; [done|]. cbn. by rewrite IH, length_fips_round. Qed.

(** Eight rounds bring the names back. *)
Lemma eight_rounds (s : list Z) (k1 k2 k3 k4 k5 k6 k7 k8 : Z * Z) :
  length s = 8%nat ->
  let ks := [k1; k2; k3; k4; k5; k6; k7; k8] in
  fold_left round_with (zip namings (map (fun kw => u32 (fst kw + snd kw)) ks)) s = fold_left fips_round ks s.
Proof.
  intros Hs ks. cbn [ks map zip zip_with namings fold_left].
  assert (R : forall t kw s', length s' = 8%nat -> (t < 8)%nat ->
    round_with (rotate t s') (nth t namings (Ra, Rb, Rc, Rd, Re, Rf, Rg, Rh), u32 (fst kw + snd kw)) = rotate (S t) (fips_round s' kw))
    by (intros t [k w] s' ? ?; by apply round_rotates).
  assert (L : forall s' kw, length s' = 8%nat -> length (fips_round s' kw) = 8%nat) by (intros; by rewrite length_fips_round).
  assert (E0 : rotate 0 s = s) by (unfold rotate; rewrite Hs; cbn; by rewrite drop_0, app_nil_r). rewrite <- E0 at 1.
  rewrite (R 0%nat), (R 1%nat), (R 2%nat), (R 3%nat), (R 4%nat), (R 5%nat), (R 6%nat), (R 7%nat) by (auto 10 || lia).
  set (s8 := fips_round _ k8). assert (H8 : length s8 = 8%nat) by (unfold s8; auto 20).
  unfold rotate. rewrite H8. cbn. by rewrite drop_0, app_nil_r.
Qed.

Lemma grouped_rounds (n : nat) (kws : list (Z * Z)) (s : list Z) :
  length s = 8%nat -> length kws = (8 * n)%nat ->
  fold_left round_with (zip (concat (repeat namings n)) (map (fun kw => u32 (fst kw + snd kw)) kws)) s = fold_left fips_round kws s.
Proof.
  revert kws s. induction n as [|n IH]; intros kws s Hs Hk; [by destruct kws|].
  destruct kws as [|k1 [|k2 [|k3 [|k4 [|k5 [|k6 [|k7 [|k8 kws]]]]]]]]; cbn [length] in Hk; try lia.
  change (k1 :: _) with ([k1; k2; k3; k4; k5; k6; k7; k8] ++ kws).
  cbn [repeat concat]. rewrite map_app, zip_with_app, !fold_left_app by done. rewrite eight_rounds by done.
  apply IH; [by rewrite length_fips_rounds|lia].
Qed.

(** A program whose keys are those of the standard computes the rounds of the standard. *)
Lemma exec_rounds_fips (chunk : list Z) (p : list sha_round) (s w words : list Z) :
  length s = 8%nat -> map regs_of p = concat (repeat namings 8) -> length (fips_schedule words) = 64%nat ->
  keys chunk w (map line_of p) = zip_with (fun k x => u32 (k + x)) fips_K (fips_schedule words) ->
  exec_rounds chunk p s w = fold_left fips_round (zip fips_K (fips_schedule words)) s.
Proof.
  intros Hs Hp Hl Hk. rewrite exec_rounds_keys, Hp, Hk.
  replace (zip_with (fun k x => u32 (k + x)) fips_K (fips_schedule words))
    with (map (fun kw => u32 (fst kw + snd kw)) (zip fips_K (fips_schedule words))).
  - apply grouped_rounds; [done|]. by rewrite length_zip_with, Hl.
  - generalize fips_K (fips_schedule words). intros l. induction l as [|k l IH]; intros [|x l']; cbn; [done..|]. f_equal. apply IH.
Qed.

(** ** The message schedule *)

Lemma fips_extend_app (n : nat) (l : list Z) : exists l', fips_extend n l = l ++ l' /\ length l' = n.
Proof.
  revert l. induction n as [|n IH]; intros l; cbn; [exists []; by rewrite app_nil_r|].
  destruct (IH (l ++ [fips_next l])) as (l' & -> & Hl). exists (fips_next l :: l'). rewrite <- app_assoc. cbn. by rewrite Hl.
Qed.

Lemma nth_prefix (t : nat) (l l' : list Z) : (t < length l)%nat -> nth t (l ++ l') 0 = nth t l 0.
Proof. intros. by apply app_nth1. Qed.

(** The recurrence of the schedule. *)
Lemma fips_extend_spec (n t : nat) (l : list Z) :
  (16 <= length l <= t)%nat -> (t < length l + n)%nat ->
  let W i := nth i (fips_extend n l) 0 in
  W t = u32 (sigma1 (W (t - 2)%nat) + W (t - 7)%nat + sigma0 (W (t - 15)%nat) + W (t - 16)%nat).
Proof.
  revert l. induction n as [|n IH]; intros l Hl Ht W; [lia|]. unfold W. cbn [fips_extend].
  destruct (decide (t = length l)) as [->|Hne].
  - destruct (fips_extend_app n (l ++ [fips_next l])) as (l' & -> & _). rewrite <- app_assoc. cbn [app].
    rewrite app_nth2, Nat.sub_diag by lia. cbn [nth]. rewrite !nth_prefix by lia. done.
  - apply IH; rewrite length_app; cbn [length]; lia.
Qed.

Lemma fips_schedule_spec (words : list Z) (t : nat) :
  length words = 16%nat -> (16 <= t < 64)%nat ->
  let W i := nth i (fips_schedule words) 0 in
  W t = u32 (sigma1 (W (t - 2)%nat) + W (t - 7)%nat + sigma0 (W (t - 15)%nat) + W (t - 16)%nat).
Proof. intros Hl Ht. apply fips_extend_spec; lia. Qed.

Lemma length_fips_schedule (words : list Z) : length words = 16%nat -> length (fips_schedule words) = 64%nat.
Proof. intros Hl. unfold fips_schedule. destruct (fips_extend_app 48 words) as (l' & -> & E). rewrite length_app. lia. Qed.

Lemma fips_schedule_words (words : list Z) (t : nat) :
  length words = 16%nat -> (t < 16)%nat -> nth t (fips_schedule words) 0 = nth t words 0.
Proof. intros Hl Ht. unfold fips_schedule. destruct (fips_extend_app 48 words) as (l' & -> & _). apply nth_prefix. lia. Qed.

Lemma fips_schedule_u32 (words : list Z) (t : nat) :
  length words = 16%nat -> Forall is_u32 words -> (t < 64)%nat -> is_u32 (nth t (fips_schedule words) 0).
Proof.
  intros Hl Hw Ht. destruct (decide (t < 16)%nat).
  - rewrite fips_schedule_words by done. apply (proj1 (Forall_nth _ 0 _) Hw). lia.
  - rewrite fips_schedule_spec by lia. apply u32_range.
Qed.

(** ** Keys

    The sixteen message variables are a window on the schedule: variable [s mod 16] holds word [s] while
    it is needed. The last two words are not stored. *)

Definition window (L w : list Z) (t : nat) : Prop :=
  length w = 16%nat /\ forall s, (t <= s + 16)%nat -> (s < t)%nat -> (s < 62)%nat -> nth (s mod 16) w 0 = nth s L 0.

(** The message of round [t] in the general form of the source. *)
Definition general_message (t : nat) : sha_message :=
  let ts := [Ts1 ((t + 14) mod 16); Tw ((t + 9) mod 16); Ts0 ((t + 1) mod 16)] in
  if (t <? 16)%nat then LoadW t (4 * t) else if (t <? 62)%nat then AddW (t mod 16) ts else ExprW (Tw (t mod 16) :: ts).

Lemma window_step (L w : list Z) (t : nat) (x : Z) :
  window L w t -> x = nth t L 0 -> (t < 62)%nat -> window L (<[(t mod 16)%nat := x]> w) (S t).
Proof.
  intros [Hl Hw] -> Ht. split; [by rewrite length_insert|]. intros s H1 H2 H3.
  destruct (decide (s = t)) as [->|Hne].
  - rewrite nth_lookup, list_lookup_insert_eq by (rewrite Hl; apply Nat.mod_upper_bound; lia). done.
  - rewrite nth_lookup, list_lookup_insert_ne.
    + rewrite <- nth_lookup. apply Hw; lia.
    + intros E. nat_div_lia.
Qed.

Lemma window_skip (L w : list Z) (t : nat) : window L w t -> (62 <= t)%nat -> window L w (S t).
Proof. intros [Hl Hw] Ht. split; [done|]. intros. apply Hw; lia. Qed.

(** In a window, the general message of a round is the word of the schedule. *)
Lemma general_message_value (chunk words w : list Z) (t : nat) :
  length words = 16%nat -> (16 <= t < 64)%nat -> window (fips_schedule words) w t ->
  let '(w', x) := eval_message chunk w (general_message t) in
  x = nth t (fips_schedule words) 0 /\ window (fips_schedule words) w' (S t).
Proof.
  intros Hl Ht Hw. destruct (Hw) as [_ V]. unfold general_message. rewrite (proj2 (Nat.ltb_ge _ _)) by lia.
  pose proof (fips_schedule_spec words t Hl ltac:(lia)) as E. cbv zeta in E.
  assert (V2 : nth ((t + 14) mod 16) w 0 = nth (t - 2) (fips_schedule words) 0)
    by (rewrite <- V by lia; f_equal; nat_div_lia).
  assert (V7 : nth ((t + 9) mod 16) w 0 = nth (t - 7) (fips_schedule words) 0)
    by (rewrite <- V by lia; f_equal; nat_div_lia).
  assert (V15 : nth ((t + 1) mod 16) w 0 = nth (t - 15) (fips_schedule words) 0)
    by (rewrite <- V by lia; f_equal; nat_div_lia).
  assert (V16 : nth (t mod 16) w 0 = nth (t - 16) (fips_schedule words) 0)
    by (rewrite <- V by lia; f_equal; nat_div_lia).
  destruct (Nat.ltb_spec t 62); unfold eval_message, eval_terms; cbn [foldr eval_term]; rewrite V2, V7, V15, V16.
  - assert (X : forall x, x = nth t (fips_schedule words) 0 -> x = nth t (fips_schedule words) 0 /\ window (fips_schedule words) (<[(t mod 16)%nat := x]> w) (S t))
      by (intros x ->; split; [done|by apply window_step; try lia]).
    apply X. rewrite E. word_eq.
  - split; [rewrite E; word_eq|]. apply window_skip; [done|lia].
Qed.

Lemma length_fips_words (block : list Z) : length (fips_words block) = 16%nat.
Proof. done. Qed.

Lemma nth_fips_words (block : list Z) (t : nat) : (t < 16)%nat -> nth t (fips_words block) 0 = ReadBE32 (drop (4 * t) block).
Proof.
  intros Ht. do 16 (destruct t as [|t]; [reflexivity|]). lia.
Qed.

(** Keys over a range of rounds, from the value of each message. *)
Lemma keys_from (chunk L : list Z) (I : list Z -> nat -> Prop) (line : nat -> Z * sha_message) (n t : nat) (w : list Z) :
  (forall t w, (t < 64)%nat -> I w t -> let '(w', x) := eval_message chunk w (snd (line t)) in
     u32 (fst (line t) + x) = u32 (nth t fips_K 0 + nth t L 0) /\ I w' (S t)) ->
  (t + n <= 64)%nat -> I w t ->
  keys chunk w (map line (seq t n)) = map (fun s => u32 (nth s fips_K 0 + nth s L 0)) (seq t n).
Proof.
  intros HI. revert t w. induction n as [|n IH]; intros t w Hn Hw; [done|]. cbn [seq map keys].
  specialize (HI t w ltac:(lia) Hw). destruct (line t) as [k m]. cbn [fst snd] in HI. destruct (eval_message chunk w m) as [w' x].
  destruct HI as [-> Hw']. f_equal. apply IH; [lia|done].
Qed.

Lemma zip_with_nth (f : Z -> Z -> Z) (l1 l2 : list Z) (n t : nat) :
  length l1 = n -> length l2 = n -> zip_with f l1 l2 = map (fun s => f (nth s l1 0) (nth s l2 0)) (seq 0 n).
Proof.
  intros H1 H2. apply list_eq. intros i. rewrite lookup_zip_with, list_lookup_fmap.
  destruct (decide (i < n)%nat) as [Hi|Hi].
  - rewrite lookup_seq_lt by done. cbn.
    destruct (lookup_lt_is_Some_2 l1 i) as [x Hx]; [lia|]. destruct (lookup_lt_is_Some_2 l2 i) as [y Hy]; [lia|].
    rewrite !nth_lookup, Hx, Hy. done.
  - rewrite !lookup_ge_None_2 by (rewrite ?length_seq; lia). done.
Qed.

Definition general_line (t : nat) : Z * sha_message := (nth t fips_K 0, general_message t).

Lemma general_keys (chunk w : list Z) :
  length w = 16%nat ->
  keys chunk w (map general_line (seq 0 64)) = zip_with (fun k x => u32 (k + x)) fips_K (fips_schedule (fips_words chunk)).
Proof.
  intros Hw. rewrite (zip_with_nth _ _ _ 64 0) by done.
  apply (keys_from chunk _ (window (fips_schedule (fips_words chunk)))); [|lia|split; [done|intros; lia]].
  clear w Hw. intros t w Ht HI. unfold general_line; cbn [fst snd]. destruct (decide (t < 16)%nat) as [H16|H16].
  - unfold general_message. rewrite (proj2 (Nat.ltb_lt _ _)) by done. unfold eval_message.
    assert (E : ReadBE32 (drop (4 * t) chunk) = nth t (fips_schedule (fips_words chunk)) 0)
      by (by rewrite fips_schedule_words, nth_fips_words).
    split; [by rewrite E|]. rewrite <- (Nat.mod_small t 16) at 1 by done. apply window_step; [done|done|lia].
  - pose proof (general_message_value chunk (fips_words chunk) w t eq_refl ltac:(lia) HI) as V.
    destruct (eval_message chunk w (general_message t)) as [w' x]. destruct V as [-> V]. done.
Qed.

(** The programs of the source have the general form. *)
Lemma Transform_rounds_general : map line_of Transform_rounds = map general_line (seq 0 64).
Proof. vm_compute. reflexivity. Qed.
Lemma TransformD64_rounds1_general : TransformD64_rounds1 = Transform_rounds.
Proof. reflexivity. Qed.
Lemma Transform_rounds_names : map regs_of Transform_rounds = concat (repeat namings 8).
Proof. reflexivity. Qed.

Lemma Transform_rounds_fips (chunk s w : list Z) :
  length s = 8%nat -> length w = 16%nat ->
  exec_rounds chunk Transform_rounds s w = fold_left fips_round (zip fips_K (fips_schedule (fips_words chunk))) s.
Proof.
  intros Hs Hw. apply exec_rounds_fips; [done|apply Transform_rounds_names|done|]. rewrite Transform_rounds_general. by apply general_keys.
Qed.

Lemma add_words_comm (l k : list Z) : add_words l k = add_words k l.
Proof. revert k. induction l as [|x l IH]; intros [|y k]; [done..|]. cbn. rewrite (Z.add_comm x y). f_equal. apply IH. Qed.

Lemma Transform_rounds_compress (chunk s w : list Z) :
  length s = 8%nat -> length w = 16%nat ->
  add_words (exec_rounds chunk Transform_rounds s w) s = fips_compress s (fips_words chunk).
Proof. intros Hs Hw. by rewrite add_words_comm, Transform_rounds_fips. Qed.

(** No line reads a message variable that is not set: the result does not depend on their first values. *)
Lemma exec_rounds_any_w (chunk s w w' : list Z) :
  length s = 8%nat -> length w = 16%nat -> length w' = 16%nat ->
  exec_rounds chunk Transform_rounds s w = exec_rounds chunk Transform_rounds s w'.
Proof. intros. by rewrite !Transform_rounds_fips. Qed.

Lemma length_add_words (l k : list Z) : length l = 8%nat -> length k = 8%nat -> length (add_words l k) = 8%nat.
Proof. intros Hl Hk. unfold add_words. by rewrite length_zip_with, Hl, Hk. Qed.

Lemma length_fips_compress (s words : list Z) : length s = 8%nat -> length (fips_compress s words) = 8%nat.
Proof. intros Hs. apply length_add_words; [done|]. by rewrite length_fips_rounds. Qed.

Lemma Transform_fips (n : nat) (s m : list Z) : length s = 8%nat -> Transform s m n = fips_blocks n s m.
Proof.
  revert s m. induction n as [|n IH]; intros s m Hs; [done|]. cbn [Transform fips_blocks].
  rewrite Transform_rounds_fips by done. apply IH. by apply length_fips_compress.
Qed.

(** ** The double hash of 64 bytes

    The second transform has the schedule of the padding folded into its constants; the third knows that half of its block is
    padding. *)

Definition padding_words : list Z := fips_words padding1.

Lemma TransformD64_rounds2_fips (chunk s w : list Z) :
  length s = 8%nat ->
  exec_rounds chunk TransformD64_rounds2 s w = fold_left fips_round (zip fips_K (fips_schedule padding_words)) s.
Proof.
  intros Hs. apply exec_rounds_fips; [done|reflexivity|reflexivity|].
  assert (E : forall l, Forall (fun x => snd x = NoW) l -> keys chunk w l = map (fun x => u32 (fst x + 0)) l).
  { intros l Hl. induction Hl as [|[k m] l Hm Hl IH]; [done|]. cbn in Hm. subst m. cbn. by rewrite IH. }
  rewrite E by (repeat (constructor; [reflexivity|]); constructor). vm_compute. reflexivity.
Qed.

(** The block of the third transform: a digest and the padding of a 32 byte message. *)
Definition digest_block (t : list Z) : list Z := t ++ 0x80000000 :: repeat 0 6 ++ [0x100].

(** Variable [s mod 16] holds word [s] while it is needed; the padding is never stored. *)
Definition window3 (L w : list Z) (t : nat) : Prop :=
  length w = 16%nat /\
  forall s, (s < 8 \/ 16 <= s)%nat -> (t <= s + 16)%nat -> (s < t \/ s < 8)%nat -> (s < 62)%nat -> nth (s mod 16) w 0 = nth s L 0.

Lemma window3_step (L w : list Z) (t : nat) (x : Z) :
  window3 L w t -> x = nth t L 0 -> (16 <= t < 62)%nat -> window3 L (<[(t mod 16)%nat := x]> w) (S t).
Proof.
  intros [Hl Hw] -> Ht. split; [by rewrite length_insert|]. intros s H0 H1 H2 H3.
  destruct (decide (s = t)) as [->|Hne].
  - rewrite nth_lookup, list_lookup_insert_eq by (rewrite Hl; apply Nat.mod_upper_bound; lia). done.
  - rewrite nth_lookup, list_lookup_insert_ne.
    + rewrite <- nth_lookup. apply Hw; lia.
    + intros E. nat_div_lia.
Qed.

Lemma window3_general (L w : list Z) (t : nat) : (32 <= t)%nat -> window3 L w t <-> window L w t.
Proof. intros Ht. split; intros [Hl Hw]; (split; [done|]); intros; apply Hw; lia. Qed.

(** The line of round [t] of the third program. *)
Definition digest_line (t : nat) : Z * sha_message := nth t (map line_of TransformD64_rounds3) (0, NoW).

Section digest.
Context (d : list Z) (Hd : length d = 8%nat).
#[local] Abbreviation L := (fips_schedule (digest_block d)).

Lemma length_digest_block : length (digest_block d) = 16%nat.
Proof. unfold digest_block. by rewrite length_app, Hd. Qed.

Lemma digest_padding (i : nat) (c : Z) : (8 <= i < 16)%nat -> nth (i - 8) (0x80000000 :: repeat 0 6 ++ [0x100]) 0 = c -> nth i L 0 = c.
Proof.
  intros Hi <-. rewrite fips_schedule_words by (apply length_digest_block || lia). unfold digest_block.
  by rewrite app_nth2 by lia; rewrite Hd.
Qed.

(** The value of message variable [i] in round [t]. *)
Lemma window3_lookup (w : list Z) (t i : nat) :
  window3 L w t -> (16 <= t < 62)%nat -> (i < 16)%nat ->
  let s := (t - 16 + (i + 16 - t mod 16) mod 16)%nat in
  (s < 8 \/ 16 <= s)%nat -> nth i w 0 = nth s L 0.
Proof.
  intros [_ Hw] Ht Hi s Hs. assert (E : i = (s mod 16)%nat) by (unfold s; nat_div_lia). rewrite E at 1.
  apply Hw; [done|unfold s; nat_div_lia..].
Qed.

Lemma digest_special (chunk w : list Z) (t : nat) :
  (16 <= t < 32)%nat -> window3 L w t ->
  let '(w', x) := eval_message chunk w (snd (digest_line t)) in
  x = nth t L 0 /\ w' = <[(t mod 16)%nat := x]> w /\ fst (digest_line t) = nth t fips_K 0.
Proof.
  intros Ht Hw. pose proof (fips_schedule_spec (digest_block d) t length_digest_block ltac:(lia)) as E. cbv zeta in E. rewrite E. clear E.
  pose proof (digest_padding 8 _ ltac:(lia) eq_refl) as C8. pose proof (digest_padding 9 _ ltac:(lia) eq_refl) as C9.
  pose proof (digest_padding 10 _ ltac:(lia) eq_refl) as C10. pose proof (digest_padding 11 _ ltac:(lia) eq_refl) as C11.
  pose proof (digest_padding 12 _ ltac:(lia) eq_refl) as C12. pose proof (digest_padding 13 _ ltac:(lia) eq_refl) as C13.
  pose proof (digest_padding 14 _ ltac:(lia) eq_refl) as C14. pose proof (digest_padding 15 _ ltac:(lia) eq_refl) as C15.
  set (Ls := fips_schedule (digest_block d)) in *.
  cbn [nth Nat.sub repeat app] in C8, C9, C10, C11, C12, C13, C14, C15.
  pose proof (fun i => window3_lookup w t i Hw ltac:(lia)) as V. fold Ls in V. clear Hw. clearbody Ls.
  assert (S0 : sigma0 0 = 0) by reflexivity. assert (S1 : sigma1 0 = 0) by reflexivity.
  assert (S15 : sigma1 0x100 = 0xa00000) by reflexivity. assert (S8 : sigma0 0x80000000 = 0x11002000) by reflexivity.
  assert (S15' : sigma0 0x100 = 0x400022) by reflexivity.
  do 16 (destruct t as [|t]; [lia|]).
  do 16 (destruct t as [|t];
    [cbn; (split; [|done]); unfold eval_terms; cbn [foldr eval_term];
     repeat match goal with |- context [nth ?i w 0] => rewrite (V i) by (cbn; lia) end; cbn;
     rewrite ?C8, ?C9, ?C10, ?C11, ?C12, ?C13, ?C14, ?C15, ?S0, ?S1, ?S15, ?S8, ?S15'; word_eq|]).
  lia.
Qed.

Lemma digest_line_value (chunk w : list Z) (t : nat) :
  (t < 64)%nat -> window3 L w t ->
  let '(w', x) := eval_message chunk w (snd (digest_line t)) in
  u32 (fst (digest_line t) + x) = u32 (nth t fips_K 0 + nth t L 0) /\ window3 L w' (S t).
Proof.
  intros Ht Hw. destruct (decide (t < 8)%nat) as [H8|H8]; [|destruct (decide (t < 16)%nat) as [H16|H16]].
  - assert (El : digest_line t = (nth t fips_K 0, ExprW [Tw t])) by (clear Hw; do 8 (destruct t as [|t]; [reflexivity|]); lia).
    rewrite El. cbn [fst snd eval_message]. destruct (Hw) as [Hl V]. split.
    + unfold eval_terms; cbn [foldr eval_term]. rewrite <- (V t) by lia. rewrite Nat.mod_small by lia. word_eq.
    + split; [done|]. intros. apply V; lia.
  - assert (Ek : snd (digest_line t) = NoW /\ u32 (fst (digest_line t)) = u32 (nth t fips_K 0 + nth (t - 8) (0x80000000 :: repeat 0 6 ++ [0x100]) 0)).
    { clear Hw. do 8 (destruct t as [|t]; [lia|]). do 8 (destruct t as [|t]; [split; reflexivity|]). lia. }
    destruct Ek as [-> Ek]. cbn [eval_message]. rewrite Z.add_0_r, Ek, (digest_padding t _ ltac:(lia) eq_refl). split; [done|].
    destruct Hw as [Hl V]. split; [done|]. intros. apply V; lia.
  - destruct (decide (t < 32)%nat) as [H32|H32].
    + pose proof (digest_special chunk w t ltac:(lia) Hw) as V. destruct (eval_message chunk w (snd (digest_line t))) as [w' x].
      destruct V as (-> & -> & ->). split; [done|]. apply window3_step; [done|done|lia].
    + assert (El : digest_line t = general_line t).
      { clear Hw. do 32 (destruct t as [|t]; [lia|]). do 32 (destruct t as [|t]; [reflexivity|]). lia. }
      rewrite El. apply window3_general in Hw; [|lia]. unfold general_line; cbn [fst snd].
      pose proof (general_message_value chunk (digest_block d) w t length_digest_block ltac:(lia) Hw) as V.
      destruct (eval_message chunk w (general_message t)) as [w' x]. destruct V as [-> V]. split; [done|].
      apply window3_general; [lia|done].
Qed.

Lemma TransformD64_rounds3_fips (chunk s w : list Z) :
  length s = 8%nat -> length w = 8%nat ->
  exec_rounds chunk TransformD64_rounds3 s (d ++ w) = fold_left fips_round (zip fips_K L) s.
Proof.
  intros Hs Hw. apply exec_rounds_fips; [done|reflexivity|apply length_fips_schedule, length_digest_block|].
  assert (El : map line_of TransformD64_rounds3 = map digest_line (seq 0 64)) by reflexivity.
  rewrite El, (zip_with_nth _ _ _ 64 0) by (done || apply length_fips_schedule, length_digest_block).
  apply (keys_from chunk L (window3 L)); [intros; by apply digest_line_value|lia|].
  split; [rewrite length_app; lia|]. intros i H1 H2 H3 H4. assert (i < 8)%nat by lia. rewrite Nat.mod_small by lia.
  rewrite fips_schedule_words by (apply length_digest_block || lia). unfold digest_block. rewrite !app_nth1 by lia. done.
Qed.

End digest.

Lemma add_words_u32 (l k : list Z) : Forall is_u32 (add_words l k).
Proof. revert k. induction l as [|x l IH]; intros [|y k]; [constructor..|]. constructor; [apply u32_range|apply IH]. Qed.

Lemma fips_words_app (m m' : list Z) : length m = 64%nat -> fips_words (m ++ m') = fips_words m.
Proof.
  intros Hm. unfold fips_words. apply map_ext_in. intros i Hi. apply in_seq in Hi. unfold ReadBE32. f_equal. f_equal.
  rewrite drop_app_le by lia. rewrite take_app_le by (rewrite length_drop; lia). done.
Qed.

Lemma ReadBE32_WriteBE32 (x : Z) (l : list Z) : is_u32 x -> ReadBE32 (WriteBE32 x ++ l) = x.
Proof. intros Hx. unfold ReadBE32, WriteBE32. change (take 4 (rev (le_bytes 4 x) ++ l)) with (rev (le_bytes 4 x)). rewrite rev_involutive. by apply le_val_le_bytes. Qed.

Lemma length_digest (s : list Z) : length s = 8%nat -> length (concat (map WriteBE32 s)) = 32%nat.
Proof. by destruct s as [|a [|b [|c [|d [|e [|f [|g [|h [|]]]]]]]]]. Qed.

(** A digest followed by the padding of a 32 byte message is the block of the third transform. *)
Lemma words_of_digest (s : list Z) :
  length s = 8%nat -> Forall is_u32 s ->
  fips_words (concat (map WriteBE32 s) ++ 0x80 :: repeat 0 29 ++ [1; 0]) = digest_block s.
Proof.
  intros Hs Hu. destruct s as [|a [|b [|c [|d [|e [|f [|g [|h [|]]]]]]]]]; try done.
  decompose_Forall_hyps. unfold fips_words, digest_block. cbn [map seq].
  change (?a :: _ = [?a'; b; c; d; e; f; g; h] ++ ?p)
    with (map (fun x => le_val (le_bytes 4 x)) [a'; b; c; d; e; f; g; h] ++ p = [a'; b; c; d; e; f; g; h] ++ p).
  cbn [map]. by rewrite !(le_val_le_bytes 4).
Qed.

Lemma sha256_64 (m : list Z) :
  length m = 64%nat -> sha256 m = concat (map WriteBE32 (fips_compress (fips_compress initial (fips_words m)) padding_words)).
Proof.
  intros Hm. unfold sha256, fips_pad. rewrite Hm. set (p := 128 :: _). assert (Ep : p = padding1) by reflexivity. clearbody p. subst p.
  rewrite length_app, Hm. change ((64 + length padding1) / 64)%nat with 2%nat. cbn [fips_blocks].
  rewrite fips_words_app, drop_app_length' by done. done.
Qed.

Lemma sha256_32 (s : list Z) :
  length s = 8%nat -> Forall is_u32 s ->
  sha256 (concat (map WriteBE32 s)) = concat (map WriteBE32 (fips_compress initial (digest_block s))).
Proof.
  intros Hs Hu. unfold sha256, fips_pad. rewrite length_digest by done. set (p := 128 :: _).
  assert (Ep : p = 0x80 :: repeat 0 29 ++ [1; 0]) by reflexivity. clearbody p. subst p.
  rewrite length_app, length_digest by done. replace ((32 + _) / 64)%nat with 1%nat by reflexivity. cbn [fips_blocks].
  by rewrite words_of_digest.
Qed.

(** ** The streaming hasher *)

Lemma fips_blocks_add (n1 n2 : nat) (s m : list Z) :
  fips_blocks (n1 + n2) s m = fips_blocks n2 (fips_blocks n1 s m) (drop (64 * n1) m).
Proof.
  revert s m. induction n1 as [|n1 IH]; intros s m; [done|]. cbn [Nat.add fips_blocks]. rewrite IH, drop_drop. f_equal. f_equal. lia.
Qed.

Lemma fips_words_take (m : list Z) : fips_words m = fips_words (take 64 m).
Proof.
  unfold fips_words. apply map_ext_in. intros i Hi. apply in_seq in Hi. unfold ReadBE32. f_equal. f_equal.
  rewrite skipn_firstn_comm, take_take. f_equal. lia.
Qed.

Lemma fips_blocks_prefix (n : nat) (s m m' : list Z) : (64 * n <= length m)%nat -> fips_blocks n s (m ++ m') = fips_blocks n s m.
Proof.
  revert s m. induction n as [|n IH]; intros s m Hm; [done|]. cbn [fips_blocks].
  rewrite (fips_words_take (m ++ m')), take_app_le, <- fips_words_take by lia. rewrite drop_app_le by lia.
  apply IH. rewrite length_drop. lia.
Qed.

Lemma length_fips_blocks (n : nat) (s m : list Z) : length s = 8%nat -> length (fips_blocks n s m) = 8%nat.
Proof. revert s m. induction n as [|n IH]; intros s m Hs; [done|]. apply IH. by apply length_fips_compress. Qed.

(** The hasher has consumed [m]: the full blocks are in the digest, the rest in the buffer. *)
Definition consumed (m : list Z) (c : CSHA256) : Prop :=
  sha_bytes c = Z.of_nat (length m) /\ length (sha_buf c) = 64%nat /\
  sha_s c = fips_blocks (length m / 64) initial m /\ take (length m mod 64) (sha_buf c) = drop (64 * (length m / 64)) m.

Lemma length_memcpy (dst src : list Z) (off : nat) : (off + length src <= length dst)%nat -> length (memcpy dst off src) = length dst.
Proof. intros H. unfold memcpy. rewrite !length_app, length_take, length_drop. lia. Qed.

Lemma take_memcpy (dst src : list Z) (off : nat) :
  (off <= length dst)%nat -> take (off + length src) (memcpy dst off src) = take off dst ++ src.
Proof.
  intros H. unfold memcpy. rewrite app_assoc. rewrite take_app_le by (rewrite length_app, length_take; lia).
  apply take_ge. rewrite length_app, length_take. lia.
Qed.

(** Bytes that do not fill the buffer. *)
Lemma consumed_tail (m data : list Z) (c : CSHA256) :
  consumed m c -> (length m mod 64 + length data < 64)%nat -> Z.of_nat (length m + length data) < 2 ^ 64 ->
  consumed (m ++ data) (mkSHA (sha_s c) (memcpy (sha_buf c) (length m mod 64) data) (u64 (sha_bytes c + Z.of_nat (length data)))).
Proof.
  intros (Hb & Hl & Hs & Ht) Hd Hn. unfold consumed; cbn [sha_s sha_buf sha_bytes]. rewrite length_app.
  assert (Hq : ((length m + length data) / 64 = length m / 64)%nat) by nat_div_lia.
  assert (Hr : ((length m + length data) mod 64 = length m mod 64 + length data)%nat) by nat_div_lia.
  rewrite Hq, Hr, Hb. split_and!.
  - rewrite u64_small; unfold is_u64; lia.
  - rewrite length_memcpy; lia.
  - rewrite Hs, fips_blocks_prefix; [done|nat_div_lia].
  - rewrite take_memcpy, Ht by lia. rewrite drop_app_le by nat_div_lia. done.
Qed.

(** Whole blocks, on an empty buffer. *)
Lemma consumed_blocks (m data : list Z) (c : CSHA256) (n : nat) :
  consumed m c -> (length m mod 64 = 0)%nat -> length data = (64 * n)%nat -> Z.of_nat (length m + length data) < 2 ^ 64 ->
  consumed (m ++ data) (mkSHA (Transform (sha_s c) data n) (sha_buf c) (u64 (sha_bytes c + Z.of_nat (64 * n)))).
Proof.
  intros (Hb & Hl & Hs & Ht) Hm Hd Hn. unfold consumed; cbn [sha_s sha_buf sha_bytes]. rewrite length_app.
  assert (Hq : ((length m + length data) / 64 = length m / 64 + n)%nat) by nat_div_lia.
  assert (Hr : ((length m + length data) mod 64 = 0)%nat) by nat_div_lia.
  assert (Hw : (64 * (length m / 64) = length m)%nat) by nat_div_lia.
  rewrite Hq, Hr, Hb, Transform_fips by (rewrite Hs; by apply length_fips_blocks). split_and!.
  - rewrite u64_small; unfold is_u64; lia.
  - done.
  - rewrite fips_blocks_add, Hw, fips_blocks_prefix, drop_app_length by lia. by rewrite Hs.
  - symmetry. apply drop_ge. rewrite length_app. lia.
Qed.

(** The bytes that fill a started buffer. *)
Lemma consumed_fill (m data : list Z) (c : CSHA256) :
  consumed m c -> (length m mod 64 + length data = 64)%nat -> Z.of_nat (length m + length data) < 2 ^ 64 ->
  let buf := memcpy (sha_buf c) (length m mod 64) data in
  consumed (m ++ data) (mkSHA (Transform (sha_s c) buf 1) buf (u64 (sha_bytes c + Z.of_nat (length data)))).
Proof.
  intros (Hb & Hl & Hs & Ht) Hd Hn buf. unfold consumed; cbn [sha_s sha_buf sha_bytes]. rewrite length_app.
  assert (Hq : ((length m + length data) / 64 = length m / 64 + 1)%nat) by nat_div_lia.
  assert (Hr : ((length m + length data) mod 64 = 0)%nat) by nat_div_lia.
  assert (Hbuf : buf = drop (64 * (length m / 64)) (m ++ data)).
  { rewrite drop_app_le by nat_div_lia. rewrite <- Ht. unfold buf, memcpy. rewrite (drop_ge _ (_ + _)) by lia. by rewrite app_nil_r. }
  rewrite Hq, Hr, Hb, Transform_fips by (rewrite Hs; by apply length_fips_blocks). split_and!.
  - rewrite u64_small; unfold is_u64; lia.
  - unfold buf. rewrite length_memcpy; lia.
  - rewrite fips_blocks_add, <- Hbuf, fips_blocks_prefix by nat_div_lia. by rewrite Hs.
  - symmetry. apply drop_ge. rewrite length_app. nat_div_lia.
Qed.

Lemma bufsize_consumed (m : list Z) (c : CSHA256) : consumed m c -> Z.to_nat (sha_bytes c mod 64) = (length m mod 64)%nat.
Proof. intros (-> & _). nat_div_lia. Qed.

Lemma fill_buffer_consumes (m data : list Z) (c : CSHA256) :
  consumed m c -> Z.of_nat (length m + length data) < 2 ^ 64 ->
  exists m1 c1 data1, fill_buffer c data = (c1, data1, (length m1 mod 64)%nat) /\ m1 ++ data1 = m ++ data /\ consumed m1 c1 /\
    (length m1 mod 64 = 0 \/ length m1 mod 64 + length data1 < 64)%nat.
Proof.
  intros Hc Hn. unfold fill_buffer. rewrite (bufsize_consumed m c Hc). set (r := (length m mod 64)%nat).
  destruct (Nat.eqb_spec r 0) as [Hr|Hr]; [exists m, c, data; fold r; rewrite Hr; auto|].
  destruct (Nat.leb_spec 64 (r + length data)) as [H64|H64]; cbn [negb andb]; [|exists m, c, data; split_and!; auto].
  assert (Hlr : (r < 64)%nat) by (apply Nat.mod_upper_bound; lia).
  assert (Hd : length (take (64 - r) data) = (64 - r)%nat) by (rewrite length_take; lia).
  pose proof (consumed_fill m (take (64 - r) data) c Hc ltac:(lia) ltac:(lia)) as Hfill. cbv zeta in Hfill. rewrite Hd in Hfill.
  assert (Hz : (length (m ++ take (64 - r) data) mod 64 = 0)%nat) by (rewrite length_app, Hd; nat_div_lia).
  eexists (m ++ take (64 - r) data), _, (drop (64 - r) data). rewrite Hz. split; [done|]. split; [by rewrite <- app_assoc, take_drop|].
  split; [exact Hfill|by left].
Qed.

Lemma process_blocks_consumes (m data : list Z) (c : CSHA256) :
  consumed m c -> Z.of_nat (length m + length data) < 2 ^ 64 -> (length m mod 64 = 0 \/ length m mod 64 + length data < 64)%nat ->
  exists m2 c2 data2, process_blocks c data = (c2, data2) /\ m2 ++ data2 = m ++ data /\ consumed m2 c2 /\
    (length m2 mod 64 = length m mod 64)%nat /\ (length m2 mod 64 + length data2 < 64)%nat.
Proof.
  intros Hc Hn Hm. unfold process_blocks. destruct (Nat.leb_spec 64 (length data)) as [H64|H64].
  - set (n := (length data / 64)%nat). assert (Hd : length (take (64 * n) data) = (64 * n)%nat) by (rewrite length_take; unfold n; nat_div_lia).
    assert (Hz : (length m mod 64 = 0)%nat) by lia.
    pose proof (consumed_blocks m (take (64 * n) data) c n Hc Hz Hd ltac:(unfold n in *; nat_div_lia)) as Hb.
    eexists (m ++ take (64 * n) data), _, (drop (64 * n) data). split; [done|]. split; [by rewrite <- app_assoc, take_drop|].
    rewrite length_app, Hd, length_drop. split; [|split; unfold n; nat_div_lia].
    revert Hb. rewrite !Transform_fips by (rewrite (proj1 (proj2 (proj2 Hc))); by apply length_fips_blocks).
    rewrite <- (fips_blocks_prefix n _ (take (64 * n) data) (drop (64 * n) data)) by lia. by rewrite take_drop.
  - exists m, c, data. split_and!; auto. lia.
Qed.

Lemma app_length_eq (a b c d : list Z) : a ++ b = c ++ d -> (length a + length b = length c + length d)%nat.
Proof. intros E. apply (f_equal length) in E. by rewrite !length_app in E. Qed.

(** Whatever the buffer holds, writing consumes the data. *)
Lemma Write_consumes (m data : list Z) (c : CSHA256) :
  consumed m c -> Z.of_nat (length m + length data) < 2 ^ 64 -> consumed (m ++ data) (CSHA256_Write c data).
Proof.
  intros Hc Hn. unfold CSHA256_Write.
  destruct (fill_buffer_consumes m data c Hc Hn) as (m1 & c1 & data1 & -> & E1 & Hc1 & H1).
  pose proof (app_length_eq _ _ _ _ E1).
  destruct (process_blocks_consumes m1 data1 c1 Hc1 ltac:(lia) H1) as (m2 & c2 & data2 & -> & E2 & Hc2 & Hr & H2).
  pose proof (app_length_eq _ _ _ _ E2). rewrite <- E1, <- E2, <- Hr. destruct (Nat.ltb_spec 0 (length data2)) as [Hp|Hp].
  - apply consumed_tail; [done|done|lia].
  - destruct data2; [by rewrite app_nil_r|cbn in Hp; lia].
Qed.

Lemma new_consumed (buf : list Z) : length buf = 64%nat -> consumed [] (CSHA256_new buf).
Proof. done. Qed.

Lemma pad_bytes (n : nat) : (n < 64)%nat -> take (S n) (0x80 :: repeat 0 63) = 0x80 :: repeat 0 n.
Proof. intros Hn. do 64 (destruct n as [|n]; [reflexivity|]). lia. Qed.

(** [Finalize] returns the SHA-256 of what was consumed. *)
Lemma Finalize_consumed (m : list Z) (c : CSHA256) :
  consumed m c -> 8 * Z.of_nat (length m) < 2 ^ 64 ->
  snd (CSHA256_Finalize c) = sha256 m /\ length (sha_buf (fst (CSHA256_Finalize c))) = 64%nat.
Proof.
  intros Hc Hn. unfold CSHA256_Finalize. cbn [fst snd]. destruct (Hc) as (Hb & _).
  set (k := Z.to_nat ((55 - Z.of_nat (length m)) mod 64)).
  assert (Hk : take (Z.to_nat (1 + (119 - sha_bytes c mod 64) mod 64)) (0x80 :: repeat 0 63) = 0x80 :: repeat 0 k).
  { replace (Z.to_nat (1 + (119 - sha_bytes c mod 64) mod 64)) with (S k) by (rewrite Hb; unfold k; div_lia).
    apply pad_bytes. unfold k. div_lia. }
  rewrite Hk. assert (Hsz : WriteBE64 (u64 (Z.shiftl (sha_bytes c) 3)) = WriteBE64 (8 * Z.of_nat (length m)))
    by (rewrite Hb, Z.shiftl_mul_pow2, u64_small by (unfold is_u64; lia); f_equal; lia).
  rewrite Hsz. assert (Hlk : (k < 64)%nat) by (unfold k; div_lia).
  pose proof (Write_consumes m (0x80 :: repeat 0 k) c Hc ltac:(cbn [length]; rewrite repeat_length; lia)) as C1.
  pose proof (Write_consumes _ (WriteBE64 (8 * Z.of_nat (length m))) _ C1
    ltac:(rewrite length_app; cbn [length]; rewrite repeat_length; unfold WriteBE64; rewrite length_rev, length_le_bytes; lia)) as C2.
  rewrite <- app_assoc in C2. change ((0x80 :: repeat 0 k) ++ ?l) with (0x80 :: repeat 0 k ++ l) in C2.
  destruct C2 as (_ & Hl & Hs & _). split; [|done]. rewrite Hs. done.
Qed.

Lemma Writes_consume (ds : list (list Z)) (m : list Z) (c : CSHA256) :
  consumed m c -> Z.of_nat (length m + length (concat ds)) < 2 ^ 64 -> consumed (m ++ concat ds) (fold_left CSHA256_Write ds c).
Proof.
  revert m c. induction ds as [|d ds IH]; intros m c Hc Hn; cbn [concat fold_left] in *; [by rewrite app_nil_r|].
  rewrite app_assoc. rewrite length_app in Hn. apply IH; [apply Write_consumes; [done|lia]|rewrite length_app; lia].
Qed.

(** Hashing in pieces. *)
Lemma Writes_hash (buf : list Z) (ds : list (list Z)) :
  length buf = 64%nat -> 8 * Z.of_nat (length (concat ds)) < 2 ^ 64 ->
  let c := fold_left CSHA256_Write ds (CSHA256_new buf) in
  snd (CSHA256_Finalize c) = sha256 (concat ds) /\ snd (CHash256_Finalize c) = sha256 (sha256 (concat ds)).
Proof.
  intros Hb Hn c. pose proof (Writes_consume ds [] (CSHA256_new buf) (new_consumed buf Hb) ltac:(cbn [length]; lia)) as Hc. fold c in Hc.
  destruct (Finalize_consumed _ c Hc Hn) as [E Hl]. split; [done|]. unfold CHash256_Finalize.
  destruct (CSHA256_Finalize c) as [c' h]. cbn [fst snd app] in *. subst h.
  assert (H32 : length (sha256 (concat ds)) = 32%nat) by (apply length_digest, length_fips_blocks; done).
  pose proof (Write_consumes [] (sha256 (concat ds)) (CSHA256_Reset c') ltac:(by split_and!) ltac:(rewrite H32; cbn; lia)) as C2.
  rewrite app_nil_l in C2. apply (Finalize_consumed _ _ C2). rewrite H32. lia.
Qed.

(** The unrolled double hash. *)
Lemma TransformD64_spec (input : list Z) :
  length input = 64%nat -> TransformD64 input = sha256 (sha256 input).
Proof.
  intros Hi. rewrite (sha256_64 input Hi). set (s1 := fips_compress initial (fips_words input)).
  assert (E1 : add_words (exec_rounds input TransformD64_rounds1 initial uninitialized) initial = s1)
    by exact (Transform_rounds_compress input initial uninitialized eq_refl eq_refl).
  assert (H1 : length s1 = 8%nat) by exact (length_fips_compress initial _ eq_refl). clearbody s1.
  set (s2 := fips_compress s1 padding_words).
  assert (E2 : add_words s1 (exec_rounds input TransformD64_rounds2 s1 uninitialized) = s2)
    by exact (f_equal (add_words s1) (TransformD64_rounds2_fips input s1 uninitialized H1)).
  assert (H2 : length s2 = 8%nat) by exact (length_fips_compress s1 _ H1).
  assert (U2 : Forall is_u32 s2) by exact (add_words_u32 _ _). clearbody s2.
  rewrite (sha256_32 s2 H2 U2). unfold TransformD64. cbv zeta. rewrite E1, E2, add_words_comm.
  rewrite (TransformD64_rounds3_fips s2 H2 input initial (repeat 0 8) eq_refl eq_refl). unfold fips_compress. reflexivity.
Qed.

(** The double hash built on the plain transform agrees with the unrolled one. *)
Lemma TransformD64Wrapper_spec (input : list Z) :
  length input = 64%nat -> TransformD64Wrapper Transform input = sha256 (sha256 input).
Proof.
  intros Hi. rewrite (sha256_64 input Hi). unfold TransformD64Wrapper. cbv zeta.
  set (s1 := fips_compress initial (fips_words input)). assert (H1 : length s1 = 8%nat) by exact (length_fips_compress initial _ eq_refl).
  set (s2 := fips_compress s1 padding_words). assert (H2 : length s2 = 8%nat) by exact (length_fips_compress s1 _ H1).
  assert (E1 : Transform Initialize input 1 = s1) by (rewrite Transform_fips; [cbn [fips_blocks]|]; reflexivity).
  assert (E2 : Transform s1 padding1 1 = s2) by (rewrite Transform_fips; [cbn [fips_blocks]; reflexivity|exact H1]).
  assert (U2 : Forall is_u32 s2) by exact (add_words_u32 _ _). rewrite E1, E2. clearbody s2.
  rewrite (Transform_fips 1 Initialize _ eq_refl), (sha256_32 s2 H2 U2). cbn [fips_blocks].
  rewrite (words_of_digest s2 H2 U2). unfold Initialize. reflexivity.
Qed.

(** ** Many double hashes *)

(** A vectorized transform does what its name says: [k] double hashes side by side. *)
Definition lanes (k : nat) (f : option (list Z -> list Z)) : Prop :=
  forall tr, f = Some tr -> forall input, length input = (64 * k)%nat -> tr input = D64_loop input k.

Lemma D64_loop_add (k n : nat) (input : list Z) :
  D64_loop input (k + n) = D64_loop (take (64 * k) input) k ++ D64_loop (drop (64 * k) input) n.
Proof.
  revert input. induction k as [|k IH]; intros input; [by rewrite drop_0|]. cbn [Nat.add D64_loop].
  rewrite take_take, IH, <- app_assoc. replace (64 `min` (64 * S k))%nat with 64%nat by lia. f_equal. f_equal.
  - f_equal. rewrite skipn_firstn_comm. f_equal. lia.
  - f_equal. rewrite drop_drop. f_equal. lia.
Qed.

Lemma Nway_spec (k : nat) (f : option (list Z -> list Z)) (fuel n : nat) (input : list Z) :
  lanes k f -> length input = (64 * n)%nat ->
  exists out rest m, Nway k f fuel input n = (out, rest, m) /\ length rest = (64 * m)%nat /\ out ++ D64_loop rest m = D64_loop input n.
Proof.
  intros Hf. revert n input. induction fuel as [|fuel IH]; intros n input Hl; [exists [], input, n; by destruct f|].
  cbn [Nway]. destruct f as [tr|]; [|by exists [], input, n]. destruct (Nat.leb_spec k n) as [Hk|Hk]; [|by exists [], input, n].
  destruct (IH (n - k)%nat (drop (64 * k) input)) as (out & rest & m & -> & Hr & E); [rewrite length_drop; lia|].
  exists (tr (take (64 * k) input) ++ out), rest, m. split; [done|]. split; [done|].
  rewrite <- app_assoc, E, (Hf tr eq_refl) by (rewrite length_take; lia).
  replace n with (k + (n - k))%nat at 2 by lia. by rewrite D64_loop_add.
Qed.

(** Whatever the processor offers, each 64 bytes are hashed on their own. *)
Lemma SHA256D64_spec (way8 way4 way2 : option (list Z -> list Z)) (input : list Z) (n : nat) :
  lanes 8 way8 -> lanes 4 way4 -> lanes 2 way2 -> length input = (64 * n)%nat -> SHA256D64 way8 way4 way2 input n = D64_loop input n.
Proof.
  intros H8 H4 H2 Hl. unfold SHA256D64.
  destruct (Nway_spec 8 way8 n n input H8 Hl) as (o8 & r8 & m8 & -> & L8 & E8).
  destruct (Nway_spec 4 way4 m8 m8 r8 H4 L8) as (o4 & r4 & m4 & -> & L4 & E4).
  destruct (Nway_spec 2 way2 m4 m4 r4 H2 L4) as (o2 & r2 & m2 & -> & L2 & E2).
  by rewrite E2, E4, E8.
Qed.

(** ** Properties *)

(** The unrolled double hash of 64 bytes, with the padding folded into its constants and its schedule, is SHA-256 of SHA-256 of FIPS 180-4. *)
Theorem TransformD64_double_sha256 (input : list Z) :
  length input = 64%nat -> TransformD64 input = sha256 (sha256 input).
Proof. apply TransformD64_spec. Qed.

Lemma TransformD64_double_sha256_witness : TransformD64 (repeat 0 64) = sha256 (sha256 (repeat 0 64)).
Proof. apply TransformD64_double_sha256. reflexivity. Defined.

(** C33: the streaming hasher is one-shot SHA-256: whatever the pieces in which a message of less than 2^61 bytes is written, and whatever the buffer
    held before, the hash is that of the whole message, and the double hash is the hash of the hash. *)
Theorem CSHA256_streams (buf : list Z) (ds : list (list Z)) :
  length buf = 64%nat -> 8 * Z.of_nat (length (concat ds)) < 2 ^ 64 ->
  let c := fold_left CSHA256_Write ds (CSHA256_new buf) in
  snd (CSHA256_Finalize c) = sha256 (concat ds) /\ snd (CHash256_Finalize c) = sha256 (sha256 (concat ds)).
Proof. apply Writes_hash. Qed.

Lemma CSHA256_streams_witness :
  let c := fold_left CSHA256_Write [[97]; [98; 99]] (CSHA256_new (repeat 0 64)) in
  snd (CSHA256_Finalize c) = sha256 [97; 98; 99] /\ snd (CHash256_Finalize c) = sha256 (sha256 [97; 98; 99]).
Proof. apply (CSHA256_streams (repeat 0 64) [[97]; [98; 99]]); [reflexivity|cbn; lia]. Defined.
