(* ===== verification/Hash.v ===== *)
(** * Hashes of headers, transactions and Merkle nodes (hash.h, primitives/block.cpp, primitives/transaction.cpp)

    The 256-bit hashes of the node: double SHA-256 of a serialization, read as a number from its bytes in little-endian order. *)

From S2P Require Import Prelude Serialize ArithUint256 Chain Transaction Sha256 Sha256Spec Merkle.

(** A hasher as the constructors leave it; its buffer is uninitialized in the source, and no hash depends on it ([Hash_any_buffer]). *)
Definition new_hasher : CSHA256 := CSHA256_new (repeat 0 64).

(** [Hash(in)] of hash.h. *)
Definition Hash256 (b : list Z) : uint256 := le_val (snd (CHash256_Finalize (CSHA256_Write new_hasher b))).

(** [Hash(in1, in2)]. *)
Definition Hash256_2 (b1 b2 : list Z) : uint256 :=
  le_val (snd (CHash256_Finalize (CSHA256_Write (CSHA256_Write new_hasher b1) b2))).

(** [HashWriter]: a stream that hashes the pieces written to it. *)
Definition HashWriter_GetHash (pieces : list (list Z)) : uint256 :=
  le_val (snd (CHash256_Finalize (fold_left CSHA256_Write pieces new_hasher))).

(** The members of a header in the order of its serialization. *)
Definition header_pieces (h : CBlockHeader) : list (list Z) :=
  [ser fmt_i32 (nVersion h); ser fmt_uint256 (hashPrevBlock h); ser fmt_uint256 (hashMerkleRoot h);
   ser fmt_u32 (nTime h); ser fmt_u32 (nBits h); ser fmt_u32 (nNonce h)].
Definition SerializeHeader (h : CBlockHeader) : list Z := concat (header_pieces h).

(** [CBlockHeader::GetHash] *)
Definition CBlockHeader_GetHash (h : CBlockHeader) : uint256 := HashWriter_GetHash (header_pieces h).

(** [CTransaction::ComputeHash], [CTransaction::ComputeWitnessHash] *)
Definition ComputeHash (tx : CTransaction) : uint256 := HashWriter_GetHash [SerializeTransaction false tx].
Definition ComputeWitnessHash (tx : CTransaction) : uint256 :=
  if HasWitness tx then HashWriter_GetHash [SerializeTransaction true tx] else ComputeHash tx.

(** One node of a Merkle tree: [SHA256D64] of two hashes. *)
Definition hash_node (a b : uint256) : uint256 := le_val (TransformD64 (ser fmt_uint256 a ++ ser fmt_uint256 b)).

(** ** Lemmas *)

#[local] Opaque CHash256_Finalize CSHA256_Write TransformD64.

Lemma Hash_pieces (pieces : list (list Z)) :
  8 * Z.of_nat (length (concat pieces)) < 2 ^ 64 -> HashWriter_GetHash pieces = le_val (sha256 (sha256 (concat pieces))).
Proof. intros Hl. unfold HashWriter_GetHash, new_hasher. by rewrite (proj2 (Writes_hash (repeat 0 64) pieces eq_refl Hl)). Qed.

Lemma Hash_any_buffer (buf : list Z) (pieces : list (list Z)) :
  length buf = 64%nat -> 8 * Z.of_nat (length (concat pieces)) < 2 ^ 64 ->
  le_val (snd (CHash256_Finalize (fold_left CSHA256_Write pieces (CSHA256_new buf)))) = HashWriter_GetHash pieces.
Proof. intros Hb Hl. rewrite Hash_pieces by done. by rewrite (proj2 (Writes_hash buf pieces Hb Hl)). Qed.

Lemma Hash256_spec (b : list Z) : 8 * Z.of_nat (length b) < 2 ^ 64 -> Hash256 b = le_val (sha256 (sha256 b)).
Proof.
  intros Hl. change (Hash256 b) with (HashWriter_GetHash [b]). rewrite Hash_pieces; cbn [concat]; by rewrite app_nil_r.
Qed.

Lemma length_uint256 (x : Z) : length (ser fmt_uint256 x) = 32%nat.
Proof. apply length_le_bytes. Qed.

(** A node of the tree is the hash of its two children. *)
Lemma hash_node_spec (a b : uint256) : hash_node a b = Hash256 (ser fmt_uint256 a ++ ser fmt_uint256 b).
Proof.
  assert (Hl : length (ser fmt_uint256 a ++ ser fmt_uint256 b) = 64%nat) by (by rewrite length_app, !length_uint256).
  rewrite Hash256_spec by (rewrite Hl; lia). unfold hash_node. by rewrite TransformD64_spec.
Qed.

Lemma WriteBE32_u8 (x : Z) : Forall is_u8 (WriteBE32 x).
Proof. unfold WriteBE32. apply Forall_rev, le_bytes_u8. Qed.

Lemma digest_u8 (l : list Z) : Forall is_u8 (concat (map WriteBE32 l)).
Proof. induction l as [|x l IH]; [constructor|]. cbn [map concat]. apply Forall_app. split; [apply WriteBE32_u8|done]. Qed.

Lemma sha256_bytes (m : list Z) : Forall is_u8 (sha256 m) /\ length (sha256 m) = 32%nat.
Proof. split; [apply digest_u8|exact (length_digest _ (length_fips_blocks _ initial _ eq_refl))]. Qed.

Lemma sha256_uint256 (m : list Z) : 0 <= le_val (sha256 m) < 2 ^ 256.
Proof. destruct (sha256_bytes m) as [Hu Hl]. pose proof (le_val_bound _ Hu) as B. by rewrite Hl in B. Qed.
