(* ===== verification/Hash160.v ===== *)
(** * RIPEMD-160 and SHA-1 (crypto/ripemd160.cpp, crypto/sha1.cpp, hash.h)

    The hashes of the script opcodes. As in [Sha256], the unrolled rounds are lists of instructions, one for each line of the source. The two
    streaming hashers have the same body and share one definition; it is proved to hash the concatenation of what is written, for
    every way of cutting it, and the unrolled compression functions to be those of the published definitions. *)

From Stdlib Require Import ZifyNat Btauto.
From S2P Require Import Prelude Serialize Sha256 Sha256Spec.

(** ** RIPEMD-160 *)

Definition rol (x i : Z) : Z := Z.lor (u32 (Z.shiftl x i)) (Z.shiftr x (32 - i)).

Definition rmd_f1 (x y z : Z) : Z := Z.lxor (Z.lxor x y) z.
Definition rmd_f2 (x y z : Z) : Z := Z.lor (Z.land x y) (Z.land (u32 (Z.lnot x)) z).
Definition rmd_f3 (x y z : Z) : Z := Z.lxor (Z.lor x (u32 (Z.lnot y))) z.
Definition rmd_f4 (x y z : Z) : Z := Z.lor (Z.land x z) (Z.land y (u32 (Z.lnot z))).
Definition rmd_f5 (x y z : Z) : Z := Z.lxor x (Z.lor y (u32 (Z.lnot z))).

(** [Initialize], the same in both files. *)
Definition initial160 : list Z := [0x67452301; 0xEFCDAB89; 0x98BADCFE; 0x10325476; 0xC3D2E1F0].

(** [Round]: a and c are references. *)
Definition rmd_Round (v : list Z) (ra rb rc rd re : reg) (f x k r : Z) : list Z :=
  let get i := nth (reg_index i) v 0 in
  let a := u32 (rol (u32 (get ra + f + x + k)) r + get re) in
  <[reg_index rc := rol (get rc) 10]> (<[reg_index ra := a]> v).

(** The lines [R11] to [R51] and [R12] to [R52]: the function and the constant of a line. *)
Inductive rmd_side := Left | Right.

Definition rmd_line (side : rmd_side) (j : nat) : (Z -> Z -> Z -> Z) * Z :=
  match side, j with
  | Left, 1%nat => (rmd_f1, 0) | Left, 2%nat => (rmd_f2, 0x5A827999) | Left, 3%nat => (rmd_f3, 0x6ED9EBA1)
  | Left, 4%nat => (rmd_f4, 0x8F1BBCDC) | Left, _ => (rmd_f5, 0xA953FD4E)
  | Right, 1%nat => (rmd_f5, 0x50A28BE6) | Right, 2%nat => (rmd_f4, 0x5C4DD124) | Right, 3%nat => (rmd_f3, 0x6D703EF3)
  | Right, 4%nat => (rmd_f2, 0x7A6D76E9) | Right, _ => (rmd_f1, 0)
  end.

(** One line [Rjs(a, b, c, d, e, w, r)] on the variables of its side. *)
Inductive rmd_round := Rmd (side : rmd_side) (j : nat) (ra rb rc rd re : reg) (w : nat) (r : Z).

Definition rmd_exec (words v : list Z) (i : rmd_round) : list Z :=
  match i with
  | Rmd side j ra rb rc rd re w r =>
      let get i := nth (reg_index i) v 0 in
      rmd_Round v ra rb rc rd re (fst (rmd_line side j) (get rb) (get rc) (get rd)) (nth w words 0) (snd (rmd_line side j)) r
  end.

Definition rmd_step (words : list Z) (st : list Z * list Z) (i : rmd_round) : list Z * list Z :=
  match i with
  | Rmd Left _ _ _ _ _ _ _ _ => (rmd_exec words (fst st) i, snd st)
  | Rmd Right _ _ _ _ _ _ _ _ => (fst st, rmd_exec words (snd st) i)
  end.

(** The rounds of [ripemd160::Transform]. *)
Definition rmd_rounds : list rmd_round := [
  Rmd Left 1 Ra Rb Rc Rd Re 0 11; Rmd Right 1 Ra Rb Rc Rd Re 5 8;
  Rmd Left 1 Re Ra Rb Rc Rd 1 14; Rmd Right 1 Re Ra Rb Rc Rd 14 9;
  Rmd Left 1 Rd Re Ra Rb Rc 2 15; Rmd Right 1 Rd Re Ra Rb Rc 7 9;
  Rmd Left 1 Rc Rd Re Ra Rb 3 12; Rmd Right 1 Rc Rd Re Ra Rb 0 11;
  Rmd Left 1 Rb Rc Rd Re Ra 4 5; Rmd Right 1 Rb Rc Rd Re Ra 9 13;
  Rmd Left 1 Ra Rb Rc Rd Re 5 8; Rmd Right 1 Ra Rb Rc Rd Re 2 15;
  Rmd Left 1 Re Ra Rb Rc Rd 6 7; Rmd Right 1 Re Ra Rb Rc Rd 11 15;
  Rmd Left 1 Rd Re Ra Rb Rc 7 9; Rmd Right 1 Rd Re Ra Rb Rc 4 5;
  Rmd Left 1 Rc Rd Re Ra Rb 8 11; Rmd Right 1 Rc Rd Re Ra Rb 13 7;
  Rmd Left 1 Rb Rc Rd Re Ra 9 13; Rmd Right 1 Rb Rc Rd Re Ra 6 7;
  Rmd Left 1 Ra Rb Rc Rd Re 10 14; Rmd Right 1 Ra Rb Rc Rd Re 15 8;
  Rmd Left 1 Re Ra Rb Rc Rd 11 15; Rmd Right 1 Re Ra Rb Rc Rd 8 11;
  Rmd Left 1 Rd Re Ra Rb Rc 12 6; Rmd Right 1 Rd Re Ra Rb Rc 1 14;
  Rmd Left 1 Rc Rd Re Ra Rb 13 7; Rmd Right 1 Rc Rd Re Ra Rb 10 14;
  Rmd Left 1 Rb Rc Rd Re Ra 14 9; Rmd Right 1 Rb Rc Rd Re Ra 3 12;
  Rmd Left 1 Ra Rb Rc Rd Re 15 8; Rmd Right 1 Ra Rb Rc Rd Re 12 6;
  Rmd Left 2 Re Ra Rb Rc Rd 7 7; Rmd Right 2 Re Ra Rb Rc Rd 6 9;
  Rmd Left 2 Rd Re Ra Rb Rc 4 6; Rmd Right 2 Rd Re Ra Rb Rc 11 13;
  Rmd Left 2 Rc Rd Re Ra Rb 13 8; Rmd Right 2 Rc Rd Re Ra Rb 3 15;
  Rmd Left 2 Rb Rc Rd Re Ra 1 13; Rmd Right 2 Rb Rc Rd Re Ra 7 7;
  Rmd Left 2 Ra Rb Rc Rd Re 10 11; Rmd Right 2 Ra Rb Rc Rd Re 0 12;
  Rmd Left 2 Re Ra Rb Rc Rd 6 9; Rmd Right 2 Re Ra Rb Rc Rd 13 8;
  Rmd Left 2 Rd Re Ra Rb Rc 15 7; Rmd Right 2 Rd Re Ra Rb Rc 5 9;
  Rmd Left 2 Rc Rd Re Ra Rb 3 15; Rmd Right 2 Rc Rd Re Ra Rb 10 11;
  Rmd Left 2 Rb Rc Rd Re Ra 12 7; Rmd Right 2 Rb Rc Rd Re Ra 14 7;
  Rmd Left 2 Ra Rb Rc Rd Re 0 12; Rmd Right 2 Ra Rb Rc Rd Re 15 7;
  Rmd Left 2 Re Ra Rb Rc Rd 9 15; Rmd Right 2 Re Ra Rb Rc Rd 8 12;
  Rmd Left 2 Rd Re Ra Rb Rc 5 9; Rmd Right 2 Rd Re Ra Rb Rc 12 7;
  Rmd Left 2 Rc Rd Re Ra Rb 2 11; Rmd Right 2 Rc Rd Re Ra Rb 4 6;
  Rmd Left 2 Rb Rc Rd Re Ra 14 7; Rmd Right 2 Rb Rc Rd Re Ra 9 15;
  Rmd Left 2 Ra Rb Rc Rd Re 11 13; Rmd Right 2 Ra Rb Rc Rd Re 1 13;
  Rmd Left 2 Re Ra Rb Rc Rd 8 12; Rmd Right 2 Re Ra Rb Rc Rd 2 11;
  Rmd Left 3 Rd Re Ra Rb Rc 3 11; Rmd Right 3 Rd Re Ra Rb Rc 15 9;
  Rmd Left 3 Rc Rd Re Ra Rb 10 13; Rmd Right 3 Rc Rd Re Ra Rb 5 7;
  Rmd Left 3 Rb Rc Rd Re Ra 14 6; Rmd Right 3 Rb Rc Rd Re Ra 1 15;
  Rmd Left 3 Ra Rb Rc Rd Re 4 7; Rmd Right 3 Ra Rb Rc Rd Re 3 11;
  Rmd Left 3 Re Ra Rb Rc Rd 9 14; Rmd Right 3 Re Ra Rb Rc Rd 7 8;
  Rmd Left 3 Rd Re Ra Rb Rc 15 9; Rmd Right 3 Rd Re Ra Rb Rc 14 6;
  Rmd Left 3 Rc Rd Re Ra Rb 8 13; Rmd Right 3 Rc Rd Re Ra Rb 6 6;
  Rmd Left 3 Rb Rc Rd Re Ra 1 15; Rmd Right 3 Rb Rc Rd Re Ra 9 14;
  Rmd Left 3 Ra Rb Rc Rd Re 2 14; Rmd Right 3 Ra Rb Rc Rd Re 11 12;
  Rmd Left 3 Re Ra Rb Rc Rd 7 8; Rmd Right 3 Re Ra Rb Rc Rd 8 13;
  Rmd Left 3 Rd Re Ra Rb Rc 0 13; Rmd Right 3 Rd Re Ra Rb Rc 12 5;
  Rmd Left 3 Rc Rd Re Ra Rb 6 6; Rmd Right 3 Rc Rd Re Ra Rb 2 14;
  Rmd Left 3 Rb Rc Rd Re Ra 13 5; Rmd Right 3 Rb Rc Rd Re Ra 10 13;
  Rmd Left 3 Ra Rb Rc Rd Re 11 12; Rmd Right 3 Ra Rb Rc Rd Re 0 13;
  Rmd Left 3 Re Ra Rb Rc Rd 5 7; Rmd Right 3 Re Ra Rb Rc Rd 4 7;
  Rmd Left 3 Rd Re Ra Rb Rc 12 5; Rmd Right 3 Rd Re Ra Rb Rc 13 5;
  Rmd Left 4 Rc Rd Re Ra Rb 1 11; Rmd Right 4 Rc Rd Re Ra Rb 8 15;
  Rmd Left 4 Rb Rc Rd Re Ra 9 12; Rmd Right 4 Rb Rc Rd Re Ra 6 5;
  Rmd Left 4 Ra Rb Rc Rd Re 11 14; Rmd Right 4 Ra Rb Rc Rd Re 4 8;
  Rmd Left 4 Re Ra Rb Rc Rd 10 15; Rmd Right 4 Re Ra Rb Rc Rd 1 11;
  Rmd Left 4 Rd Re Ra Rb Rc 0 14; Rmd Right 4 Rd Re Ra Rb Rc 3 14;
  Rmd Left 4 Rc Rd Re Ra Rb 8 15; Rmd Right 4 Rc Rd Re Ra Rb 11 14;
  Rmd Left 4 Rb Rc Rd Re Ra 12 9; Rmd Right 4 Rb Rc Rd Re Ra 15 6;
  Rmd Left 4 Ra Rb Rc Rd Re 4 8; Rmd Right 4 Ra Rb Rc Rd Re 0 14;
  Rmd Left 4 Re Ra Rb Rc Rd 13 9; Rmd Right 4 Re Ra Rb Rc Rd 5 6;
  Rmd Left 4 Rd Re Ra Rb Rc 3 14; Rmd Right 4 Rd Re Ra Rb Rc 12 9;
  Rmd Left 4 Rc Rd Re Ra Rb 7 5; Rmd Right 4 Rc Rd Re Ra Rb 2 12;
  Rmd Left 4 Rb Rc Rd Re Ra 15 6; Rmd Right 4 Rb Rc Rd Re Ra 13 9;
  Rmd Left 4 Ra Rb Rc Rd Re 14 8; Rmd Right 4 Ra Rb Rc Rd Re 9 12;
  Rmd Left 4 Re Ra Rb Rc Rd 5 6; Rmd Right 4 Re Ra Rb Rc Rd 7 5;
  Rmd Left 4 Rd Re Ra Rb Rc 6 5; Rmd Right 4 Rd Re Ra Rb Rc 10 15;
  Rmd Left 4 Rc Rd Re Ra Rb 2 12; Rmd Right 4 Rc Rd Re Ra Rb 14 8;
  Rmd Left 5 Rb Rc Rd Re Ra 4 9; Rmd Right 5 Rb Rc Rd Re Ra 12 8;
  Rmd Left 5 Ra Rb Rc Rd Re 0 15; Rmd Right 5 Ra Rb Rc Rd Re 15 5;
  Rmd Left 5 Re Ra Rb Rc Rd 5 5; Rmd Right 5 Re Ra Rb Rc Rd 10 12;
  Rmd Left 5 Rd Re Ra Rb Rc 9 11; Rmd Right 5 Rd Re Ra Rb Rc 4 9;
  Rmd Left 5 Rc Rd Re Ra Rb 7 6; Rmd Right 5 Rc Rd Re Ra Rb 1 12;
  Rmd Left 5 Rb Rc Rd Re Ra 12 8; Rmd Right 5 Rb Rc Rd Re Ra 5 5;
  Rmd Left 5 Ra Rb Rc Rd Re 2 13; Rmd Right 5 Ra Rb Rc Rd Re 8 14;
  Rmd Left 5 Re Ra Rb Rc Rd 10 12; Rmd Right 5 Re Ra Rb Rc Rd 7 6;
  Rmd Left 5 Rd Re Ra Rb Rc 14 5; Rmd Right 5 Rd Re Ra Rb Rc 6 8;
  Rmd Left 5 Rc Rd Re Ra Rb 1 12; Rmd Right 5 Rc Rd Re Ra Rb 2 13;
  Rmd Left 5 Rb Rc Rd Re Ra 3 13; Rmd Right 5 Rb Rc Rd Re Ra 13 6;
  Rmd Left 5 Ra Rb Rc Rd Re 8 14; Rmd Right 5 Ra Rb Rc Rd Re 14 5;
  Rmd Left 5 Re Ra Rb Rc Rd 11 11; Rmd Right 5 Re Ra Rb Rc Rd 0 15;
  Rmd Left 5 Rd Re Ra Rb Rc 6 8; Rmd Right 5 Rd Re Ra Rb Rc 3 13;
  Rmd Left 5 Rc Rd Re Ra Rb 15 5; Rmd Right 5 Rc Rd Re Ra Rb 9 11;
  Rmd Left 5 Rb Rc Rd Re Ra 13 6; Rmd Right 5 Rb Rc Rd Re Ra 11 11].

Definition ReadLE32 (b : list Z) : Z := le_val (take 4 b).
Definition WriteLE32 (x : Z) : list Z := le_bytes 4 x.
Definition WriteLE64 (x : Z) : list Z := le_bytes 8 x.

(** [ripemd160::Transform] *)
Definition ripemd160_Transform (s chunk : list Z) : list Z :=
  let words := map (fun i => ReadLE32 (drop (4 * i) chunk)) (seq 0 16) in
  match s, fold_left (rmd_step words) rmd_rounds (s, s) with
  | [s0; s1; s2; s3; s4], ([a1; b1; c1; d1; e1], [a2; b2; c2; d2; e2]) =>
      [u32 (s1 + c1 + d2); u32 (s2 + d1 + e2); u32 (s3 + e1 + a2); u32 (s4 + a1 + b2); u32 (s0 + b1 + c2)]
  | _, _ => s
  end.

(** ** SHA-1 *)

Definition sha1_f1 (b c d : Z) : Z := Z.lxor d (Z.land b (Z.lxor c d)).
Definition sha1_f2 (b c d : Z) : Z := Z.lxor (Z.lxor b c) d.
Definition sha1_f3 (b c d : Z) : Z := Z.lor (Z.land b c) (Z.land d (Z.lor b c)).
Definition sha1_f (n : nat) : Z -> Z -> Z -> Z := match n with 1%nat => sha1_f1 | 2%nat => sha1_f2 | _ => sha1_f3 end.

Definition sha1_left (x : Z) : Z := Z.lor (u32 (Z.shiftl x 1)) (Z.shiftr x 31).

Definition sha1_k (n : nat) : Z :=
  match n with 1%nat => 0x5A827999 | 2%nat => 0x6ED9EBA1 | 3%nat => 0x8F1BBCDC | _ => 0xCA62C1D6 end.

(** [Round]: b and e are references. *)
Definition sha1_Round (v : list Z) (ra rb rc rd re : reg) (f k w : Z) : list Z :=
  let get i := nth (reg_index i) v 0 in
  let e := u32 (get re + (Z.lor (u32 (Z.shiftl (get ra) 5)) (Z.shiftr (get ra) 27) + f + k + w)) in
  <[reg_index rb := Z.lor (u32 (Z.shiftl (get rb) 30)) (Z.shiftr (get rb) 2)]> (<[reg_index re := e]> v).

(** The message of a line: a word of the chunk assigned to a variable, [w = left(...)] or [left(...)]. *)
Inductive sha1_message :=
  | Sha1Load (i offset : nat)
  | Sha1Set (i j k l m : nat)
  | Sha1Expr (j k l m : nat).

(** One line [Round(a, b, c, d, e, f(b, c, d), k, message)]. *)
Inductive sha1_round := Sha1 (ra rb rc rd re : reg) (f k : nat) (m : sha1_message).

Definition sha1_eval (chunk w : list Z) (m : sha1_message) : list Z * Z :=
  let mix j k l m := sha1_left (Z.lxor (Z.lxor (Z.lxor (nth j w 0) (nth k w 0)) (nth l w 0)) (nth m w 0)) in
  match m with
  | Sha1Load i offset => let x := ReadBE32 (drop offset chunk) in (<[i := x]> w, x)
  | Sha1Set i j k l m => let x := mix j k l m in (<[i := x]> w, x)
  | Sha1Expr j k l m => (w, mix j k l m)
  end.

Definition sha1_exec (chunk : list Z) (st : list Z * list Z) (i : sha1_round) : list Z * list Z :=
  let '(v, w) := st in
  match i with
  | Sha1 ra rb rc rd re f k m =>
      let get i := nth (reg_index i) v 0 in
      let '(w, x) := sha1_eval chunk w m in
      (sha1_Round v ra rb rc rd re (sha1_f f (get rb) (get rc) (get rd)) (sha1_k k) x, w)
  end.

(** The rounds of [sha1::Transform]. *)
Definition sha1_rounds : list sha1_round := [
  Sha1 Ra Rb Rc Rd Re 1 1 (Sha1Load 0 0); Sha1 Re Ra Rb Rc Rd 1 1 (Sha1Load 1 4);
  Sha1 Rd Re Ra Rb Rc 1 1 (Sha1Load 2 8); Sha1 Rc Rd Re Ra Rb 1 1 (Sha1Load 3 12);
  Sha1 Rb Rc Rd Re Ra 1 1 (Sha1Load 4 16); Sha1 Ra Rb Rc Rd Re 1 1 (Sha1Load 5 20);
  Sha1 Re Ra Rb Rc Rd 1 1 (Sha1Load 6 24); Sha1 Rd Re Ra Rb Rc 1 1 (Sha1Load 7 28);
  Sha1 Rc Rd Re Ra Rb 1 1 (Sha1Load 8 32); Sha1 Rb Rc Rd Re Ra 1 1 (Sha1Load 9 36);
  Sha1 Ra Rb Rc Rd Re 1 1 (Sha1Load 10 40); Sha1 Re Ra Rb Rc Rd 1 1 (Sha1Load 11 44);
  Sha1 Rd Re Ra Rb Rc 1 1 (Sha1Load 12 48); Sha1 Rc Rd Re Ra Rb 1 1 (Sha1Load 13 52);
  Sha1 Rb Rc Rd Re Ra 1 1 (Sha1Load 14 56); Sha1 Ra Rb Rc Rd Re 1 1 (Sha1Load 15 60);
  Sha1 Re Ra Rb Rc Rd 1 1 (Sha1Set 0 0 13 8 2); Sha1 Rd Re Ra Rb Rc 1 1 (Sha1Set 1 1 14 9 3);
  Sha1 Rc Rd Re Ra Rb 1 1 (Sha1Set 2 2 15 10 4); Sha1 Rb Rc Rd Re Ra 1 1 (Sha1Set 3 3 0 11 5);
  Sha1 Ra Rb Rc Rd Re 2 2 (Sha1Set 4 4 1 12 6); Sha1 Re Ra Rb Rc Rd 2 2 (Sha1Set 5 5 2 13 7);
  Sha1 Rd Re Ra Rb Rc 2 2 (Sha1Set 6 6 3 14 8); Sha1 Rc Rd Re Ra Rb 2 2 (Sha1Set 7 7 4 15 9);
  Sha1 Rb Rc Rd Re Ra 2 2 (Sha1Set 8 8 5 0 10); Sha1 Ra Rb Rc Rd Re 2 2 (Sha1Set 9 9 6 1 11);
  Sha1 Re Ra Rb Rc Rd 2 2 (Sha1Set 10 10 7 2 12); Sha1 Rd Re Ra Rb Rc 2 2 (Sha1Set 11 11 8 3 13);
  Sha1 Rc Rd Re Ra Rb 2 2 (Sha1Set 12 12 9 4 14); Sha1 Rb Rc Rd Re Ra 2 2 (Sha1Set 13 13 10 5 15);
  Sha1 Ra Rb Rc Rd Re 2 2 (Sha1Set 14 14 11 6 0); Sha1 Re Ra Rb Rc Rd 2 2 (Sha1Set 15 15 12 7 1);
  Sha1 Rd Re Ra Rb Rc 2 2 (Sha1Set 0 0 13 8 2); Sha1 Rc Rd Re Ra Rb 2 2 (Sha1Set 1 1 14 9 3);
  Sha1 Rb Rc Rd Re Ra 2 2 (Sha1Set 2 2 15 10 4); Sha1 Ra Rb Rc Rd Re 2 2 (Sha1Set 3 3 0 11 5);
  Sha1 Re Ra Rb Rc Rd 2 2 (Sha1Set 4 4 1 12 6); Sha1 Rd Re Ra Rb Rc 2 2 (Sha1Set 5 5 2 13 7);
  Sha1 Rc Rd Re Ra Rb 2 2 (Sha1Set 6 6 3 14 8); Sha1 Rb Rc Rd Re Ra 2 2 (Sha1Set 7 7 4 15 9);
  Sha1 Ra Rb Rc Rd Re 3 3 (Sha1Set 8 8 5 0 10); Sha1 Re Ra Rb Rc Rd 3 3 (Sha1Set 9 9 6 1 11);
  Sha1 Rd Re Ra Rb Rc 3 3 (Sha1Set 10 10 7 2 12); Sha1 Rc Rd Re Ra Rb 3 3 (Sha1Set 11 11 8 3 13);
  Sha1 Rb Rc Rd Re Ra 3 3 (Sha1Set 12 12 9 4 14); Sha1 Ra Rb Rc Rd Re 3 3 (Sha1Set 13 13 10 5 15);
  Sha1 Re Ra Rb Rc Rd 3 3 (Sha1Set 14 14 11 6 0); Sha1 Rd Re Ra Rb Rc 3 3 (Sha1Set 15 15 12 7 1);
  Sha1 Rc Rd Re Ra Rb 3 3 (Sha1Set 0 0 13 8 2); Sha1 Rb Rc Rd Re Ra 3 3 (Sha1Set 1 1 14 9 3);
  Sha1 Ra Rb Rc Rd Re 3 3 (Sha1Set 2 2 15 10 4); Sha1 Re Ra Rb Rc Rd 3 3 (Sha1Set 3 3 0 11 5);
  Sha1 Rd Re Ra Rb Rc 3 3 (Sha1Set 4 4 1 12 6); Sha1 Rc Rd Re Ra Rb 3 3 (Sha1Set 5 5 2 13 7);
  Sha1 Rb Rc Rd Re Ra 3 3 (Sha1Set 6 6 3 14 8); Sha1 Ra Rb Rc Rd Re 3 3 (Sha1Set 7 7 4 15 9);
  Sha1 Re Ra Rb Rc Rd 3 3 (Sha1Set 8 8 5 0 10); Sha1 Rd Re Ra Rb Rc 3 3 (Sha1Set 9 9 6 1 11);
  Sha1 Rc Rd Re Ra Rb 3 3 (Sha1Set 10 10 7 2 12); Sha1 Rb Rc Rd Re Ra 3 3 (Sha1Set 11 11 8 3 13);
  Sha1 Ra Rb Rc Rd Re 2 4 (Sha1Set 12 12 9 4 14); Sha1 Re Ra Rb Rc Rd 2 4 (Sha1Set 13 13 10 5 15);
  Sha1 Rd Re Ra Rb Rc 2 4 (Sha1Set 14 14 11 6 0); Sha1 Rc Rd Re Ra Rb 2 4 (Sha1Set 15 15 12 7 1);
  Sha1 Rb Rc Rd Re Ra 2 4 (Sha1Set 0 0 13 8 2); Sha1 Ra Rb Rc Rd Re 2 4 (Sha1Set 1 1 14 9 3);
  Sha1 Re Ra Rb Rc Rd 2 4 (Sha1Set 2 2 15 10 4); Sha1 Rd Re Ra Rb Rc 2 4 (Sha1Set 3 3 0 11 5);
  Sha1 Rc Rd Re Ra Rb 2 4 (Sha1Set 4 4 1 12 6); Sha1 Rb Rc Rd Re Ra 2 4 (Sha1Set 5 5 2 13 7);
  Sha1 Ra Rb Rc Rd Re 2 4 (Sha1Set 6 6 3 14 8); Sha1 Re Ra Rb Rc Rd 2 4 (Sha1Set 7 7 4 15 9);
  Sha1 Rd Re Ra Rb Rc 2 4 (Sha1Set 8 8 5 0 10); Sha1 Rc Rd Re Ra Rb 2 4 (Sha1Set 9 9 6 1 11);
  Sha1 Rb Rc Rd Re Ra 2 4 (Sha1Set 10 10 7 2 12); Sha1 Ra Rb Rc Rd Re 2 4 (Sha1Set 11 11 8 3 13);
  Sha1 Re Ra Rb Rc Rd 2 4 (Sha1Set 12 12 9 4 14); Sha1 Rd Re Ra Rb Rc 2 4 (Sha1Expr 13 10 5 15);
  Sha1 Rc Rd Re Ra Rb 2 4 (Sha1Expr 14 11 6 0); Sha1 Rb Rc Rd Re Ra 2 4 (Sha1Expr 15 12 7 1)].

(** [sha1::Transform]; the message variables start uninitialized, and every line reads only variables that are set. *)
Definition sha1_Transform (s chunk : list Z) : list Z :=
  zip_with (fun x y => u32 (x + y)) s (fst (fold_left (sha1_exec chunk) sha1_rounds (s, uninitialized))).

(** ** The hashers *)

(** [CRIPEMD160] and [CSHA1]: state, buffer and counter. *)
Record hasher160 := mkHasher { h_s : list Z; h_buf : list Z; h_bytes : Z }.

(** The loop over the full chunks. *)
Fixpoint write_chunks (transform : list Z -> list Z -> list Z) (n : nat) (c : hasher160) (data : list Z) : hasher160 * list Z :=
  match n with
  | O => (c, data)
  | S n' => write_chunks transform n' (mkHasher (transform (h_s c) data) (h_buf c) (u64 (h_bytes c + 64))) (drop 64 data)
  end.

(** The body of [CRIPEMD160::Write] and [CSHA1::Write]. *)
Definition hasher_Write (transform : list Z -> list Z -> list Z) (c : hasher160) (data : list Z) : hasher160 :=
  let bufsize := Z.to_nat (h_bytes c mod 64) in
  let '(c, data, bufsize) :=
    if negb (bufsize =? 0)%nat && (64 <=? bufsize + length data)%nat then
      let n := (64 - bufsize)%nat in
      let buf := memcpy (h_buf c) bufsize (take n data) in
      (mkHasher (transform (h_s c) buf) buf (u64 (h_bytes c + Z.of_nat n)), drop n data, 0%nat)
    else (c, data, bufsize) in
  let '(c, data) := write_chunks transform (length data / 64) c data in
  if (0 <? length data)%nat then
    mkHasher (h_s c) (memcpy (h_buf c) bufsize data) (u64 (h_bytes c + Z.of_nat (length data)))
  else c.

Definition hasher_pad (c : hasher160) : list Z := take (Z.to_nat (1 + (119 - h_bytes c mod 64) mod 64)) (0x80 :: repeat 0 63).

(** The buffer of a new hasher is uninitialized in the source. *)
Definition CRIPEMD160_new (buf : list Z) : hasher160 := mkHasher initial160 buf 0.
Definition CRIPEMD160_Write (c : hasher160) (data : list Z) : hasher160 := hasher_Write ripemd160_Transform c data.
Definition CRIPEMD160_Finalize (c : hasher160) : list Z :=
  let sizedesc := WriteLE64 (u64 (Z.shiftl (h_bytes c) 3)) in
  concat (map WriteLE32 (h_s (CRIPEMD160_Write (CRIPEMD160_Write c (hasher_pad c)) sizedesc))).

Definition CSHA1_new (buf : list Z) : hasher160 := mkHasher initial160 buf 0.
Definition CSHA1_Write (c : hasher160) (data : list Z) : hasher160 := hasher_Write sha1_Transform c data.
Definition CSHA1_Finalize (c : hasher160) : list Z :=
  let sizedesc := WriteBE64 (u64 (Z.shiftl (h_bytes c) 3)) in
  concat (map WriteBE32 (h_s (CSHA1_Write (CSHA1_Write c (hasher_pad c)) sizedesc))).

(** [CHash160]: RIPEMD-160 of SHA-256. *)
Definition CHash160_Finalize (sha : CSHA256) (buf : list Z) : list Z :=
  CRIPEMD160_Finalize (CRIPEMD160_Write (CRIPEMD160_new buf) (snd (CSHA256_Finalize sha))).

(** ** Hashing in pieces *)

Section Streaming.
Context (transform : list Z -> list Z -> list Z) (transform_chunk : forall s m, transform s (take 64 m) = transform s m).

(** The transform over [n] chunks of a message. *)
Fixpoint chunks (n : nat) (s m : list Z) : list Z :=
  match n with O => s | S n' => chunks n' (transform s m) (drop 64 m) end.

Lemma chunks_add (n k : nat) (s m : list Z) : chunks (n + k) s m = chunks k (chunks n s m) (drop (64 * n) m).
Proof.
  revert s m. induction n as [|n IH]; intros s m; [done|]. cbn [Nat.add chunks]. rewrite IH, drop_drop. f_equal. f_equal. lia.
Qed.

Lemma chunks_prefix (n : nat) (s m m' : list Z) : (64 * n <= length m)%nat -> chunks n s (m ++ m') = chunks n s m.
Proof.
  revert s m. induction n as [|n IH]; intros s m Hm; [done|]. cbn [chunks].
  rewrite <- (transform_chunk s (m ++ m')), take_app_le, transform_chunk, drop_app_le by lia.
  apply IH. rewrite length_drop. lia.
Qed.

(** The hasher has consumed [m]: the full chunks are in the state, the rest in the buffer. *)
Definition absorbed (m : list Z) (c : hasher160) : Prop :=
  h_bytes c = Z.of_nat (length m) /\ length (h_buf c) = 64%nat /\
  h_s c = chunks (length m / 64) initial160 m /\ take (length m mod 64) (h_buf c) = drop (64 * (length m / 64)) m.

(** A chunk that completes a multiple of 64 bytes is transformed; [buf] is what the buffer holds afterwards. *)
Lemma absorbed_chunk (m data chunk buf : list Z) (c : hasher160) :
  absorbed m c -> length (m ++ data) = (64 * (length m / 64 + 1))%nat -> Z.of_nat (length (m ++ data)) < 2 ^ 64 ->
  take 64 chunk = drop (64 * (length m / 64)) (m ++ data) -> length buf = 64%nat ->
  absorbed (m ++ data) (mkHasher (transform (h_s c) chunk) buf (u64 (h_bytes c + Z.of_nat (length data)))).
Proof.
  intros (Hb & Hl & Hs & Ht) Hd Hn Hc Hbuf. unfold absorbed; cbn [h_s h_buf h_bytes].
  assert (Hq : (length (m ++ data) / 64 = length m / 64 + 1)%nat) by (rewrite Hd, Nat.mul_comm; by apply Nat.div_mul).
  assert (Hr : (length (m ++ data) mod 64 = 0)%nat) by (rewrite Hd, Nat.mul_comm; by apply Nat.Div0.mod_mul).
  rewrite Hq, Hr, Hb. split_and!; [| done | |].
  - rewrite length_app in *. rewrite u64_small; unfold is_u64; lia.
  - rewrite chunks_add, chunks_prefix, <- Hs by nat_div_lia. cbn [chunks]. by rewrite <- Hc, transform_chunk.
  - symmetry. apply drop_ge. lia.
Qed.

(** Bytes that do not fill the buffer. *)
Lemma absorbed_tail (m data : list Z) (c : hasher160) :
  absorbed m c -> (length m mod 64 + length data < 64)%nat -> Z.of_nat (length m + length data) < 2 ^ 64 ->
  absorbed (m ++ data) (mkHasher (h_s c) (memcpy (h_buf c) (length m mod 64) data) (u64 (h_bytes c + Z.of_nat (length data)))).
Proof.
  intros (Hb & Hl & Hs & Ht) Hd Hn. unfold absorbed; cbn [h_s h_buf h_bytes]. rewrite length_app.
  assert (Hq : ((length m + length data) / 64 = length m / 64)%nat) by nat_div_lia.
  assert (Hr : ((length m + length data) mod 64 = length m mod 64 + length data)%nat) by nat_div_lia.
  rewrite Hq, Hr, Hb. split_and!.
  - rewrite u64_small; unfold is_u64; lia.
  - rewrite length_memcpy; lia.
  - by rewrite Hs, chunks_prefix by nat_div_lia.
  - rewrite take_memcpy, Ht by lia. by rewrite drop_app_le by nat_div_lia.
Qed.

(** Full chunks, on an empty buffer. *)
Lemma write_chunks_absorbs (n : nat) (m data : list Z) (c : hasher160) :
  absorbed m c -> (length m mod 64 = 0)%nat -> (64 * n <= length data)%nat -> Z.of_nat (length m + length data) < 2 ^ 64 ->
  exists c', write_chunks transform n c data = (c', drop (64 * n) data) /\ absorbed (m ++ take (64 * n) data) c'.
Proof.
  revert m data c. induction n as [|n IH]; intros m data c Hc Hm Hd Hn.
  - exists c. split; [done|]. change (64 * 0)%nat with 0%nat. by rewrite take_0, app_nil_r.
  - cbn [write_chunks]. assert (Hl : length (take 64 data) = 64%nat) by (rewrite length_take; lia).
    assert (H64 : drop (64 * (length m / 64)) (m ++ take 64 data) = take 64 data)
      by (replace (64 * (length m / 64))%nat with (length m) by nat_div_lia; by rewrite drop_app_length).
    pose proof (absorbed_chunk m (take 64 data) data (h_buf c) c Hc) as Hstep. rewrite length_app, Hl in Hstep.
    specialize (Hstep ltac:(nat_div_lia) ltac:(lia) (eq_sym H64) (proj1 (proj2 Hc))).
    destruct (IH (m ++ take 64 data) (drop 64 data) _ Hstep) as (c' & E & Hc').
    { rewrite length_app, Hl. nat_div_lia. } { rewrite length_drop. lia. } { rewrite length_app, length_drop, Hl. lia. }
    exists c'. change (Z.of_nat 64) with 64 in E. rewrite E, drop_drop. split; [f_equal; f_equal; lia|].
    replace (m ++ take (64 * S n) data) with ((m ++ take 64 data) ++ take (64 * n) (drop 64 data)); [done|].
    rewrite <- app_assoc. f_equal. replace (64 * S n)%nat with (64 + 64 * n)%nat by lia. by rewrite take_take_drop.
Qed.

(** Data on an empty buffer: full chunks, then the rest. *)
Lemma chunks_then_tail (m data : list Z) (c : hasher160) :
  absorbed m c -> (length m mod 64 = 0)%nat -> Z.of_nat (length m + length data) < 2 ^ 64 ->
  absorbed (m ++ data)
    (let '(c, data) := write_chunks transform (length data / 64) c data in
     if (0 <? length data)%nat then mkHasher (h_s c) (memcpy (h_buf c) 0 data) (u64 (h_bytes c + Z.of_nat (length data))) else c).
Proof.
  intros Hc Hm Hn. destruct (write_chunks_absorbs (length data / 64) m data c Hc Hm ltac:(nat_div_lia) Hn) as (c2 & -> & Hc2).
  set (n := (length data / 64)%nat) in *.
  assert (Ez : (length (m ++ take (64 * n) data) mod 64 = 0)%nat)
    by (rewrite length_app, length_take_le by (unfold n; nat_div_lia); nat_div_lia).
  pose proof (absorbed_tail _ (drop (64 * n) data) _ Hc2) as Htail. rewrite Ez, <- app_assoc, take_drop in Htail.
  destruct (Nat.ltb_spec 0 (length (drop (64 * n) data))) as [Hp|Hp].
  - apply Htail; [rewrite length_drop; unfold n; nat_div_lia|]. rewrite length_app, length_drop, length_take. lia.
  - rewrite <- (take_drop (64 * n) data). destruct (drop (64 * n) data); [by rewrite app_nil_r|cbn in Hp; lia].
Qed.

(** Whatever the buffer holds, writing consumes the data. *)
Lemma Write_absorbs (m data : list Z) (c : hasher160) :
  absorbed m c -> Z.of_nat (length m + length data) < 2 ^ 64 -> absorbed (m ++ data) (hasher_Write transform c data).
Proof.
  intros Hc Hn. unfold hasher_Write. destruct (Hc) as (Hb & Hl & _ & Ht).
  assert (Hr : Z.to_nat (h_bytes c mod 64) = (length m mod 64)%nat) by (rewrite Hb; nat_div_lia). rewrite Hr. clear Hr.
  set (r := (length m mod 64)%nat). assert (Hlr : (r < 64)%nat) by (by apply Nat.mod_upper_bound).
  destruct (negb (r =? 0)%nat && (64 <=? r + length data)%nat) eqn:Efill.
  - apply andb_true_iff in Efill as [_ H64%Nat.leb_le].
    assert (Hd : length (take (64 - r) data) = (64 - r)%nat) by (rewrite length_take; lia).
    set (buf := memcpy (h_buf c) r (take (64 - r) data)).
    assert (Hbuf : buf = drop (64 * (length m / 64)) (m ++ take (64 - r) data)).
    { rewrite drop_app_le by nat_div_lia. rewrite <- Ht. unfold buf, memcpy. fold r. rewrite (drop_ge _ (_ + _)) by lia. by rewrite app_nil_r. }
    assert (Hlb : length buf = 64%nat) by (unfold buf; rewrite length_memcpy; lia).
    pose proof (absorbed_chunk m (take (64 - r) data) buf buf c Hc) as Hstep. rewrite length_app, Hd in Hstep.
    specialize (Hstep ltac:(unfold r in *; nat_div_lia) ltac:(lia) ltac:(rewrite take_ge by lia; exact Hbuf) Hlb).
    apply (chunks_then_tail _ (drop (64 - r) data)) in Hstep.
    + by rewrite <- app_assoc, take_drop in Hstep.
    + rewrite length_app, Hd. unfold r in *. nat_div_lia.
    + rewrite length_app, length_drop, Hd. lia.
  - destruct (Nat.eq_dec r 0) as [Hr|Hr]; [rewrite Hr; by apply chunks_then_tail|].
    apply andb_false_iff in Efill as [E%negb_false_iff%Nat.eqb_eq|E%Nat.leb_gt]; [done|].
    rewrite Nat.div_small by lia. cbn [write_chunks].
    destruct (Nat.ltb_spec 0 (length data)) as [Hp|Hp]; [by apply absorbed_tail|].
    destruct data; [by rewrite app_nil_r|cbn in Hp; lia].
Qed.

Lemma Writes_absorb (ds : list (list Z)) (m : list Z) (c : hasher160) :
  absorbed m c -> Z.of_nat (length m + length (concat ds)) < 2 ^ 64 -> absorbed (m ++ concat ds) (fold_left (hasher_Write transform) ds c).
Proof.
  revert m c. induction ds as [|d ds IH]; intros m c Hc Hn; cbn [concat fold_left] in *; [by rewrite app_nil_r|].
  rewrite app_assoc. rewrite length_app in Hn. apply IH; [apply Write_absorbs; [done|lia]|rewrite length_app; lia].
Qed.

(** The padded message, with the length written by [size]. *)
Definition md_pad (size : Z -> list Z) (m : list Z) : list Z :=
  m ++ 0x80 :: repeat 0 (Z.to_nat ((55 - Z.of_nat (length m)) mod 64)) ++ size (8 * Z.of_nat (length m)).

(** The state over the padded message. *)
Definition md_hash (size : Z -> list Z) (m : list Z) : list Z :=
  let p := md_pad size m in chunks (length p / 64) initial160 p.

Lemma pad_absorbs (size : Z -> list Z) (m : list Z) (c : hasher160) :
  (forall x, length (size x) = 8%nat) -> absorbed m c -> 8 * Z.of_nat (length m) < 2 ^ 64 ->
  h_s (hasher_Write transform (hasher_Write transform c (hasher_pad c)) (size (u64 (Z.shiftl (h_bytes c) 3)))) = md_hash size m.
Proof.
  intros Hsize Hc Hn. destruct (Hc) as (Hb & _). set (k := Z.to_nat ((55 - Z.of_nat (length m)) mod 64)).
  assert (Hlk : (k < 64)%nat) by (unfold k; div_lia).
  assert (Hk : hasher_pad c = 0x80 :: repeat 0 k).
  { unfold hasher_pad. replace (Z.to_nat (1 + (119 - h_bytes c mod 64) mod 64)) with (S k) by (rewrite Hb; unfold k; div_lia).
    by apply pad_bytes. }
  rewrite Hk, Hb, Z.shiftl_mul_pow2, u64_small by (unfold is_u64; lia).
  replace (Z.of_nat (length m) * 2 ^ 3) with (8 * Z.of_nat (length m)) by lia.
  pose proof (Write_absorbs m (0x80 :: repeat 0 k) c Hc ltac:(cbn [length]; rewrite repeat_length; lia)) as C1.
  pose proof (Write_absorbs _ (size (8 * Z.of_nat (length m))) _ C1
    ltac:(rewrite length_app, Hsize; cbn [length]; rewrite repeat_length; lia)) as (_ & _ & C2 & _).
  rewrite <- app_assoc in C2. exact C2.
Qed.
End Streaming.

(** ** The published definitions *)

(** RIPEMD-160: the order of the message words is given by a permutation and its powers, the shifts by a table of the word and the round; the constants
    are the integer parts of 2^30 times square and cube roots. *)
Definition rmd_rho : list nat := [7; 4; 13; 1; 10; 6; 15; 3; 12; 0; 9; 5; 2; 14; 11; 8]%nat.
Definition rmd_pi (i : nat) : nat := ((9 * i + 5) mod 16)%nat.

Definition rmd_word (side : rmd_side) (t : nat) : nat :=
  let i := (t mod 16)%nat in
  Nat.iter (t / 16) (fun i => nth i rmd_rho 0%nat) (match side with Left => i | Right => rmd_pi i end).

Definition rmd_shifts : list (list Z) :=
  [[11; 14; 15; 12; 5; 8; 7; 9; 11; 13; 14; 15; 6; 7; 9; 8];
   [12; 13; 11; 15; 6; 9; 9; 7; 12; 15; 11; 13; 7; 8; 7; 7];
   [13; 15; 14; 11; 7; 7; 6; 8; 13; 14; 13; 12; 5; 5; 6; 9];
   [14; 11; 12; 14; 8; 6; 5; 5; 15; 12; 15; 14; 9; 9; 8; 6];
   [15; 12; 13; 13; 9; 5; 8; 6; 14; 11; 12; 11; 8; 6; 5; 5]].
Definition rmd_shift (side : rmd_side) (t : nat) : Z := nth (rmd_word side t) (nth (t / 16) rmd_shifts []) 0.

Definition rmd_function (n : nat) : Z -> Z -> Z -> Z := nth n [rmd_f1; rmd_f2; rmd_f3; rmd_f4; rmd_f5] rmd_f1.
Definition root30 (k p : Z) : Z := fips_root 40 k (p * 2 ^ (30 * k)) 0.

Definition rmd_key (side : rmd_side) (t : nat) : (Z -> Z -> Z -> Z) * Z :=
  let j := (t / 16)%nat in
  match side with
  | Left => (rmd_function j, nth j [0; root30 2 2; root30 2 3; root30 2 5; root30 2 7] 0)
  | Right => (rmd_function (4 - j), nth j [root30 3 2; root30 3 3; root30 3 5; root30 3 7; 0] 0)
  end.

(** A step moves the five words. *)
Definition rmd_ref_step (side : rmd_side) (words v : list Z) (t : nat) : list Z :=
  match v with
  | [a; b; c; d; e] =>
      let '(f, k) := rmd_key side t in
      [e; u32 (rol (u32 (a + f b c d + nth (rmd_word side t) words 0 + k)) (rmd_shift side t) + e); b; rol c 10; d]
  | _ => v
  end.

Definition rmd_compress (s chunk : list Z) : list Z :=
  let words := map (fun i => ReadLE32 (drop (4 * i) chunk)) (seq 0 16) in
  match s, fold_left (rmd_ref_step Left words) (seq 0 80) s, fold_left (rmd_ref_step Right words) (seq 0 80) s with
  | [h0; h1; h2; h3; h4], [A; B; C; D; E], [A'; B'; C'; D'; E'] =>
      [u32 (h1 + C + D'); u32 (h2 + D + E'); u32 (h3 + E + A'); u32 (h4 + A + B'); u32 (h0 + B + C')]
  | _, _, _ => s
  end.

Definition ripemd160 (m : list Z) : list Z := concat (map WriteLE32 (md_hash rmd_compress WriteLE64 m)).

(** SHA-1 (FIPS 180-4): the schedule grows from the sixteen words of the block. *)
Definition sha1_next (l : list Z) : Z :=
  let t := length l in
  rol (Z.lxor (Z.lxor (Z.lxor (nth (t - 3) l 0) (nth (t - 8) l 0)) (nth (t - 14) l 0)) (nth (t - 16) l 0)) 1.
Fixpoint sha1_extend (n : nat) (l : list Z) : list Z :=
  match n with O => l | S n' => sha1_extend n' (l ++ [sha1_next l]) end.
Definition sha1_schedule (words : list Z) : list Z := sha1_extend 64 words.

Definition sha1_function (t : nat) : Z -> Z -> Z -> Z :=
  match (t / 20)%nat with O => fips_Ch | 2%nat => fips_Maj | _ => fun x y z => Z.lxor (Z.lxor x y) z end.
Definition sha1_constant (t : nat) : Z := nth (t / 20) [root30 2 2; root30 2 3; root30 2 5; root30 2 10] 0.

Definition sha1_ref_step (W v : list Z) (t : nat) : list Z :=
  match v with
  | [a; b; c; d; e] => [u32 (rol a 5 + sha1_function t b c d + e + sha1_constant t + nth t W 0); a; rol b 30; c; d]
  | _ => v
  end.

Definition sha1_compress (s chunk : list Z) : list Z :=
  zip_with (fun x y => u32 (x + y)) s (fold_left (sha1_ref_step (sha1_schedule (fips_words chunk))) (seq 0 80) s).

Definition sha1 (m : list Z) : list Z := concat (map WriteBE32 (md_hash sha1_compress WriteBE64 m)).

(** ** The rounds of the source against them

    As for SHA-256, the variables of the source stand still and their names rotate. *)

Definition names5 (t : nat) : reg * reg * reg * reg * reg :=
  nth (t mod 5) [(Ra, Rb, Rc, Rd, Re); (Re, Ra, Rb, Rc, Rd); (Rd, Re, Ra, Rb, Rc); (Rc, Rd, Re, Ra, Rb); (Rb, Rc, Rd, Re, Ra)] (Ra, Rb, Rc, Rd, Re).

(** A fold whose state is the rotated state of another fold over the same five words. *)
Lemma rotating_fold {I W : Type} (line : nat -> I) (exec : list Z * W -> I -> list Z * W) (step : list Z -> nat -> list Z)
    (inv : W -> nat -> Prop) (n t : nat) (v : list Z) (w : W) :
  (forall u i, length (step u i) = length u) ->
  (forall u w i, (t <= i < t + n)%nat -> length u = 5%nat -> inv w i ->
     exists w', exec (rotate (i mod 5) u, w) (line i) = (rotate (S i mod 5) (step u i), w') /\ inv w' (S i)) ->
  length v = 5%nat -> inv w t ->
  exists w', fold_left exec (map line (seq t n)) (rotate (t mod 5) v, w) = (rotate ((t + n) mod 5) (fold_left step (seq t n) v), w').
Proof.
  intros Hlen. revert t v w. induction n as [|n IH]; intros t v w Hstep Hv Hw; cbn [seq map fold_left].
  - exists w. by rewrite Nat.add_0_r.
  - destruct (Hstep v w t ltac:(lia) Hv Hw) as (w' & -> & Hw').
    replace (t + S n)%nat with (S t + n)%nat by lia. apply IH; [|by rewrite Hlen|done].
    intros u w2 i Hi. apply Hstep. lia.
Qed.

(** *** RIPEMD-160 *)

Definition rmd_general (side : rmd_side) (t : nat) : rmd_round :=
  let '(ra, rb, rc, rd, re) := names5 t in Rmd side (S (t / 16)) ra rb rc rd re (rmd_word side t) (rmd_shift side t).

(** The lines of the two sides alternate and have the general form. *)
Lemma rmd_rounds_general : rmd_rounds = concat (map (fun t => [rmd_general Left t; rmd_general Right t]) (seq 0 80)).
Proof. vm_compute. reflexivity. Qed.

Lemma rmd_step_side (words l r : list Z) (side : rmd_side) (t : nat) :
  rmd_step words (l, r) (rmd_general side t) =
  match side with Left => (rmd_exec words l (rmd_general Left t), r) | Right => (l, rmd_exec words r (rmd_general Right t)) end.
Proof. unfold rmd_general. destruct (names5 t) as [[[[ra rb] rc] rd] re]. by destruct side. Qed.

Lemma rmd_sides (words : list Z) (ts : list nat) (l r : list Z) :
  fold_left (rmd_step words) (concat (map (fun t => [rmd_general Left t; rmd_general Right t]) ts)) (l, r) =
  (fold_left (rmd_exec words) (map (rmd_general Left) ts) l, fold_left (rmd_exec words) (map (rmd_general Right) ts) r).
Proof.
  revert l r. induction ts as [|t ts IH]; intros l r; [done|]. cbn [map concat app fold_left].
  by rewrite !rmd_step_side, IH.
Qed.

Lemma length_rmd_ref_step (side : rmd_side) (words v : list Z) (t : nat) : length (rmd_ref_step side words v t) = length v.
Proof. unfold rmd_ref_step. destruct v as [|a [|b [|c [|d [|e [|]]]]]]; try done. by destruct (rmd_key side t). Qed.

(** The constants and functions of the lines are those of the definition. *)
Lemma rmd_line_key (side : rmd_side) (t : nat) : (t < 80)%nat -> rmd_line side (S (t / 16)) = rmd_key side t.
Proof.
  intros Ht. assert (Hj : (t / 16 < 5)%nat) by (apply Nat.Div0.div_lt_upper_bound; lia).
  unfold rmd_key. revert Hj. generalize (t / 16)%nat. intros j Hj.
  do 5 (destruct j as [|j]; [destruct side; (apply injective_projections; [reflexivity|vm_compute; reflexivity])|]). lia.
Qed.

(** A line of the source on the rotated state is a step of the definition. *)
Lemma rmd_exec_rotates (side : rmd_side) (words v : list Z) (t : nat) :
  (t < 80)%nat -> length v = 5%nat ->
  rmd_exec words (rotate (t mod 5) v) (rmd_general side t) = rotate (S t mod 5) (rmd_ref_step side words v t).
Proof.
  intros Ht Hv. destruct v as [|a [|b [|c [|d [|e [|]]]]]]; try done. unfold rmd_general, names5, rmd_ref_step, rmd_exec.
  rewrite <- rmd_line_key by done.
  assert (H5 : (t mod 5 < 5)%nat) by (by apply Nat.mod_upper_bound). assert (Hs : (S t mod 5 = S (t mod 5) mod 5)%nat) by nat_div_lia.
  rewrite Hs. generalize (rmd_word side t) (rmd_shift side t). intros w r. clear Hs Ht. revert H5. generalize (t mod 5)%nat. intros i H5.
  do 5 (destruct i as [|i]; [cbn [nth]; destruct (rmd_line side (S (t / 16))) as [f k]; reflexivity|]). lia.
Qed.

Lemma rotate_0 (l : list Z) : length l = 5%nat -> rotate 0 l = l.
Proof. intros Hl. unfold rotate. rewrite Hl. cbn. by rewrite drop_0, app_nil_r. Qed.

Lemma length_fold_step {T : Type} (step : list Z -> T -> list Z) (ts : list T) (v : list Z) :
  (forall u i, length (step u i) = length u) -> length (fold_left step ts v) = length v.
Proof. intros Hlen. revert v. induction ts as [|t ts IH]; intros v; [done|]. cbn [fold_left]. by rewrite IH, Hlen. Qed.

Lemma rmd_side_ref (side : rmd_side) (words s : list Z) (n : nat) :
  length s = 5%nat -> (n mod 5 = 0)%nat -> (n <= 80)%nat ->
  fold_left (rmd_exec words) (map (rmd_general side) (seq 0 n)) s = fold_left (rmd_ref_step side words) (seq 0 n) s.
Proof.
  intros Hs Hn H80.
  destruct (rotating_fold (rmd_general side) (fun st i => (rmd_exec words (fst st) i, snd st)) (rmd_ref_step side words)
    (fun (_ : unit) _ => True) n 0 s tt (length_rmd_ref_step side words)) as ([] & H); [|done|done|].
  { intros u [] i Hi Hu _. exists tt. cbn [fst snd]. split; [|done]. f_equal. apply rmd_exec_rotates; [lia|done]. }
  assert (Hfst : forall p v, fold_left (fun st i => (rmd_exec words (fst st) i, snd st)) p (v, tt) = (fold_left (rmd_exec words) p v, tt)).
  { intros p. induction p as [|i p IH]; intros v; [done|]. cbn [fold_left fst snd]. apply IH. }
  rewrite Hfst in H. cbn [Nat.add] in H. rewrite Hn in H. change (0 mod 5)%nat with 0%nat in H.
  rewrite !rotate_0 in H by (rewrite ?length_fold_step; auto using length_rmd_ref_step). by injection H.
Qed.

Lemma ripemd160_Transform_ref (s chunk : list Z) : length s = 5%nat -> ripemd160_Transform s chunk = rmd_compress s chunk.
Proof.
  intros Hs. unfold ripemd160_Transform, rmd_compress. cbv zeta. set (words := map _ (seq 0 16)).
  destruct s as [|s0 [|s1 [|s2 [|s3 [|s4 [|]]]]]]; try discriminate Hs. set (s := [s0; s1; s2; s3; s4]).
  rewrite rmd_rounds_general, rmd_sides, !rmd_side_ref by (exact Hs || exact eq_refl || lia).
  by generalize (fold_left (rmd_ref_step Left words) (seq 0 80) s) (fold_left (rmd_ref_step Right words) (seq 0 80) s).
Qed.

(** *** SHA-1 *)

Lemma sha1_extend_app (n : nat) (l : list Z) : exists l', sha1_extend n l = l ++ l'.
Proof.
  revert l. induction n as [|n IH]; intros l; cbn; [exists []; by rewrite app_nil_r|].
  destruct (IH (l ++ [sha1_next l])) as (l' & ->). exists (sha1_next l :: l'). by rewrite <- app_assoc.
Qed.

(** The recurrence of the schedule. *)
Lemma sha1_extend_spec (n t : nat) (l : list Z) :
  (16 <= length l <= t)%nat -> (t < length l + n)%nat ->
  let W i := nth i (sha1_extend n l) 0 in
  W t = sha1_left (Z.lxor (Z.lxor (Z.lxor (W (t - 3)%nat) (W (t - 8)%nat)) (W (t - 14)%nat)) (W (t - 16)%nat)).
Proof.
  revert l. induction n as [|n IH]; intros l Hl Ht W; [lia|]. unfold W. cbn [sha1_extend].
  destruct (decide (t = length l)) as [->|Hne].
  - destruct (sha1_extend_app n (l ++ [sha1_next l])) as (l' & ->). rewrite <- app_assoc. cbn [app].
    rewrite app_nth2, Nat.sub_diag by lia. cbn [nth]. by rewrite !nth_prefix by lia.
  - apply IH; rewrite length_app; cbn [length]; lia.
Qed.

Lemma sha1_schedule_spec (words : list Z) (t : nat) :
  length words = 16%nat -> (16 <= t < 80)%nat ->
  let W i := nth i (sha1_schedule words) 0 in
  W t = sha1_left (Z.lxor (Z.lxor (Z.lxor (W (t - 3)%nat) (W (t - 8)%nat)) (W (t - 14)%nat)) (W (t - 16)%nat)).
Proof. intros Hl Ht. apply sha1_extend_spec; lia. Qed.

Lemma sha1_schedule_words (words : list Z) (t : nat) :
  length words = 16%nat -> (t < 16)%nat -> nth t (sha1_schedule words) 0 = nth t words 0.
Proof. intros Hl Ht. unfold sha1_schedule. destruct (sha1_extend_app 64 words) as (l' & ->). apply nth_prefix. lia. Qed.

(** The message variables are a window on the schedule; the last three words are not stored. *)
Definition sha1_window (L w : list Z) (t : nat) : Prop :=
  length w = 16%nat /\ forall s, (t <= s + 16)%nat -> (s < t)%nat -> (s < 77)%nat -> nth (s mod 16) w 0 = nth s L 0.

Definition sha1_general_message (t : nat) : sha1_message :=
  let v k := ((t + k) mod 16)%nat in
  if (t <? 16)%nat then Sha1Load t (4 * t)
  else if (t <? 77)%nat then Sha1Set (v 0%nat) (v 0%nat) (v 13%nat) (v 8%nat) (v 2%nat) else Sha1Expr (v 0%nat) (v 13%nat) (v 8%nat) (v 2%nat).

Lemma sha1_window_step (L w : list Z) (t : nat) :
  sha1_window L w t -> sha1_window L (<[(t mod 16)%nat := nth t L 0]> w) (S t).
Proof.
  intros [Hl Hw]. split; [by rewrite length_insert|]. intros s H1 H2 H3. destruct (decide (s = t)) as [->|Hne].
  - by rewrite nth_lookup, list_lookup_insert_eq by (rewrite Hl; apply Nat.mod_upper_bound; lia).
  - rewrite nth_lookup, list_lookup_insert_ne, <- nth_lookup by (intros E; nat_div_lia). apply Hw; lia.
Qed.

Lemma sha1_message_value (chunk w : list Z) (t : nat) :
  let L := sha1_schedule (fips_words chunk) in
  (t < 80)%nat -> sha1_window L w t ->
  exists w', sha1_eval chunk w (sha1_general_message t) = (w', nth t L 0) /\ sha1_window L w' (S t).
Proof.
  intros L Ht Hw. destruct (Hw) as [Hl V]. unfold sha1_general_message, sha1_eval. destruct (Nat.ltb_spec t 16) as [H16|H16].
  - assert (E : ReadBE32 (drop (4 * t) chunk) = nth t L 0) by (unfold L; by rewrite sha1_schedule_words, nth_fips_words).
    rewrite E. eexists. split; [done|]. rewrite <- (Nat.mod_small t 16) at 1 by done. by apply sha1_window_step.
  - assert (X : forall k, (k < 16)%nat -> (t - 16 + k < 77)%nat -> nth ((t + k) mod 16) w 0 = nth (t - 16 + k) L 0)
      by (intros k Hk Hlt; rewrite <- V by lia; f_equal; nat_div_lia).
    pose proof (sha1_schedule_spec (fips_words chunk) t eq_refl ltac:(lia)) as E. cbv zeta in E. fold L in E. clearbody L.
    assert (M : sha1_left (Z.lxor (Z.lxor (Z.lxor (nth ((t + 0) mod 16) w 0) (nth ((t + 13) mod 16) w 0)) (nth ((t + 8) mod 16) w 0))
        (nth ((t + 2) mod 16) w 0)) = nth t L 0).
    { rewrite !X by lia. rewrite E. f_equal.
      replace (t - 16 + 13)%nat with (t - 3)%nat by lia. replace (t - 16 + 8)%nat with (t - 8)%nat by lia.
      replace (t - 16 + 2)%nat with (t - 14)%nat by lia. rewrite Nat.add_0_r.
      generalize (nth (t - 3) L 0) (nth (t - 8) L 0) (nth (t - 14) L 0) (nth (t - 16) L 0). intros.
      apply Z.bits_inj'. intros i Hi. rewrite !Z.lxor_spec. btauto. }
    destruct (Nat.ltb_spec t 77) as [H77|H77]; rewrite M; eexists; (split; [done|]).
    + rewrite Nat.add_0_r. by apply sha1_window_step.
    + split; [done|]. intros. apply V; lia.
Qed.

Definition sha1_general (t : nat) : sha1_round :=
  let '(ra, rb, rc, rd, re) := names5 t in
  Sha1 ra rb rc rd re (nth (t / 20) [1; 2; 3; 2] 0)%nat (S (t / 20)) (sha1_general_message t).

Lemma sha1_rounds_general : sha1_rounds = map sha1_general (seq 0 80).
Proof. vm_compute. reflexivity. Qed.

(** The functions and constants of the lines are those of the standard. *)
Lemma sha1_line_function (t : nat) (x y z : Z) : (t < 80)%nat -> sha1_f (nth (t / 20) [1; 2; 3; 2] 0)%nat x y z = sha1_function t x y z.
Proof.
  intros Ht. assert (Hj : (t / 20 < 4)%nat) by (apply Nat.Div0.div_lt_upper_bound; lia). unfold sha1_function.
  revert Hj. generalize (t / 20)%nat. intros j Hj. destruct j as [|[|[|[|]]]]; [apply Ch_fips|done|apply Maj_fips|done|lia].
Qed.

Lemma sha1_line_constant (t : nat) : (t < 80)%nat -> sha1_k (S (t / 20)) = sha1_constant t.
Proof.
  intros Ht. assert (Hj : (t / 20 < 4)%nat) by (apply Nat.Div0.div_lt_upper_bound; lia). unfold sha1_constant.
  revert Hj. generalize (t / 20)%nat. intros j Hj. do 4 (destruct j as [|j]; [vm_compute; reflexivity|]). lia.
Qed.

Lemma length_sha1_ref_step (W v : list Z) (t : nat) : length (sha1_ref_step W v t) = length v.
Proof. by destruct v as [|a [|b [|c [|d [|e [|]]]]]]. Qed.

Lemma sha1_Round_rotates (W v : list Z) (t i : nat) (F K : Z) :
  (i < 5)%nat -> length v = 5%nat ->
  let '(ra, rb, rc, rd, re) := nth i [(Ra, Rb, Rc, Rd, Re); (Re, Ra, Rb, Rc, Rd); (Rd, Re, Ra, Rb, Rc); (Rc, Rd, Re, Ra, Rb); (Rb, Rc, Rd, Re, Ra)] (Ra, Rb, Rc, Rd, Re) in
  let get r := nth (reg_index r) (rotate i v) 0 in
  F = sha1_function t (get rb) (get rc) (get rd) -> K = sha1_constant t ->
  sha1_Round (rotate i v) ra rb rc rd re F K (nth t W 0) = rotate (S i mod 5) (sha1_ref_step W v t).
Proof.
  intros Hi Hv. destruct v as [|a [|b [|c [|d [|e [|]]]]]]; try done. unfold sha1_ref_step.
  generalize (sha1_function t) (sha1_constant t) (nth t W 0). intros f k w.
  assert (E : u32 (rol a 5 + f b c d + e + k + w) = u32 (e + (rol a 5 + f b c d + k + w))) by (f_equal; lia). rewrite E.
  do 5 (destruct i as [|i]; [cbn [nth]; intros -> ->; reflexivity|]). lia.
Qed.

Lemma sha1_exec_rotates (chunk v w : list Z) (t : nat) :
  let L := sha1_schedule (fips_words chunk) in
  (t < 80)%nat -> length v = 5%nat -> sha1_window L w t ->
  exists w', sha1_exec chunk (rotate (t mod 5) v, w) (sha1_general t) = (rotate (S t mod 5) (sha1_ref_step L v t), w') /\ sha1_window L w' (S t).
Proof.
  intros L Ht Hv Hw. destruct (sha1_message_value chunk w t Ht Hw) as (w' & E & Hw'). exists w'. split; [|done].
  unfold sha1_general, names5, sha1_exec. assert (H5 : (t mod 5 < 5)%nat) by (by apply Nat.mod_upper_bound).
  assert (Hs : (S t mod 5 = S (t mod 5) mod 5)%nat) by nat_div_lia. rewrite Hs.
  pose proof (sha1_Round_rotates L v t (t mod 5)) as R. revert R H5. clear Hs. generalize (t mod 5)%nat. intros i R H5.
  specialize (R (sha1_f (nth (t / 20) [1; 2; 3; 2] 0)%nat
    (nth (reg_index (nth i [Rb; Ra; Re; Rd; Rc] Ra)) (rotate i v) 0) (nth (reg_index (nth i [Rc; Rb; Ra; Re; Rd] Ra)) (rotate i v) 0)
    (nth (reg_index (nth i [Rd; Rc; Rb; Ra; Re] Ra)) (rotate i v) 0)) (sha1_k (S (t / 20))) H5 Hv).
  do 5 (destruct i as [|i]; [cbn [nth] in R |- *; rewrite E; f_equal; apply R; [by apply sha1_line_function|by apply sha1_line_constant]|]).
  lia.
Qed.

Lemma sha1_side_ref (chunk s w : list Z) (n : nat) :
  length s = 5%nat -> length w = 16%nat -> (n mod 5 = 0)%nat -> (n <= 80)%nat ->
  fst (fold_left (sha1_exec chunk) (map sha1_general (seq 0 n)) (s, w)) =
  fold_left (sha1_ref_step (sha1_schedule (fips_words chunk))) (seq 0 n) s.
Proof.
  intros Hs Hw Hn H80. set (L := sha1_schedule (fips_words chunk)).
  destruct (rotating_fold sha1_general (sha1_exec chunk) (sha1_ref_step L) (sha1_window L) n 0 s w (length_sha1_ref_step L)) as (w' & H);
    [|done|split; [done|lia]|].
  { intros u w2 i Hi Hu Hw2. apply sha1_exec_rotates; [lia|done|done]. }
  cbn [Nat.add] in H. rewrite Hn in H. change (0 mod 5)%nat with 0%nat in H.
  rewrite !rotate_0 in H by (rewrite ?length_fold_step; auto using length_sha1_ref_step). by rewrite H.
Qed.

Lemma sha1_Transform_ref (s chunk : list Z) : length s = 5%nat -> sha1_Transform s chunk = sha1_compress s chunk.
Proof.
  intros Hs. unfold sha1_Transform, sha1_compress.
  rewrite sha1_rounds_general, (sha1_side_ref chunk s uninitialized 80 Hs eq_refl eq_refl ltac:(lia)). reflexivity.
Qed.

(** ** The hashers against the definitions *)

Lemma chunks_ext (f g : list Z -> list Z -> list Z) (n : nat) (s m : list Z) :
  (forall s m, length s = 5%nat -> f s m = g s m /\ length (g s m) = 5%nat) -> length s = 5%nat -> chunks f n s m = chunks g n s m.
Proof.
  intros H. revert s m. induction n as [|n IH]; intros s m Hs; [done|]. cbn [chunks]. destruct (H s m Hs) as [-> Hg]. by apply IH.
Qed.

Lemma length_rmd_compress (s m : list Z) : length s = 5%nat -> length (rmd_compress s m) = 5%nat.
Proof.
  intros Hs. unfold rmd_compress. cbv zeta. set (words := map _ (seq 0 16)).
  pose proof (length_fold_step (rmd_ref_step Left words) (seq 0 80) s (length_rmd_ref_step Left words)) as H1.
  pose proof (length_fold_step (rmd_ref_step Right words) (seq 0 80) s (length_rmd_ref_step Right words)) as H2.
  revert H1 H2. generalize (fold_left (rmd_ref_step Left words) (seq 0 80) s) (fold_left (rmd_ref_step Right words) (seq 0 80) s).
  intros l r. rewrite Hs. destruct s as [|? [|? [|? [|? [|? [|]]]]]]; try discriminate.
  by destruct l as [|? [|? [|? [|? [|? [|]]]]]], r as [|? [|? [|? [|? [|? [|]]]]]].
Qed.

Lemma length_sha1_compress (s m : list Z) : length s = 5%nat -> length (sha1_compress s m) = 5%nat.
Proof.
  intros Hs. unfold sha1_compress. rewrite length_zip_with, length_fold_step by apply length_sha1_ref_step. lia.
Qed.

Lemma rmd_transform_chunk (s m : list Z) : ripemd160_Transform s (take 64 m) = ripemd160_Transform s m.
Proof.
  unfold ripemd160_Transform.
  assert (E : map (fun i => ReadLE32 (drop (4 * i) (take 64 m))) (seq 0 16) = map (fun i => ReadLE32 (drop (4 * i) m)) (seq 0 16)).
  { apply map_ext_in. intros i Hi. apply in_seq in Hi. unfold ReadLE32. rewrite skipn_firstn_comm, take_take. f_equal. f_equal. lia. }
  by rewrite E.
Qed.

(** Bytes of the chunk beyond its 64 are not read. *)
Lemma sha1_exec_chunk (m : list Z) (p : list sha1_round) (st : list Z * list Z) :
  Forall (fun i => match i with Sha1 _ _ _ _ _ _ _ (Sha1Load _ o) => (o + 4 <= 64)%nat | _ => True end) p ->
  fold_left (sha1_exec (take 64 m)) p st = fold_left (sha1_exec m) p st.
Proof.
  revert st. induction p as [|i p IH]; intros st H; [done|]. apply Forall_cons in H as [Hi H].
  cbn [fold_left]. rewrite IH by done. f_equal. destruct st as [v w], i as [ra rb rc rd re f k msg]. unfold sha1_exec.
  destruct msg as [i o| |]; [|done|done]. unfold sha1_eval, ReadBE32. rewrite skipn_firstn_comm, take_take.
  by replace (Nat.min 4 (64 - o)) with 4%nat by lia.
Qed.

Lemma sha1_transform_chunk (s m : list Z) : sha1_Transform s (take 64 m) = sha1_Transform s m.
Proof.
  unfold sha1_Transform. rewrite sha1_exec_chunk; [reflexivity|]. rewrite sha1_rounds_general. apply Forall_forall. intros x Hx.
  apply list_elem_of_In, in_map_iff in Hx as (t & <- & Ht). apply in_seq in Ht. unfold sha1_general.
  destruct (names5 t) as [[[[ra rb] rc] rd] re]. unfold sha1_general_message.
  destruct (Nat.ltb_spec t 16); [lia|]. by destruct (t <? 77)%nat.
Qed.

Lemma md_hash_ext (f g : list Z -> list Z -> list Z) (size : Z -> list Z) (m : list Z) :
  (forall s m, length s = 5%nat -> f s m = g s m /\ length (g s m) = 5%nat) -> md_hash f size m = md_hash g size m.
Proof. intros H. by apply chunks_ext. Qed.

Lemma new_absorbed (f : list Z -> list Z -> list Z) (buf : list Z) : length buf = 64%nat -> absorbed f [] (mkHasher initial160 buf 0).
Proof. by intros H. Qed.

Lemma CRIPEMD160_hash (buf : list Z) (ds : list (list Z)) :
  length buf = 64%nat -> 8 * Z.of_nat (length (concat ds)) < 2 ^ 64 ->
  CRIPEMD160_Finalize (fold_left CRIPEMD160_Write ds (CRIPEMD160_new buf)) = ripemd160 (concat ds).
Proof.
  intros Hb Hn. pose proof (Writes_absorb _ rmd_transform_chunk ds [] _ (new_absorbed _ buf Hb) ltac:(cbn [length]; lia)) as Hc.
  rewrite app_nil_l in Hc. unfold CRIPEMD160_Finalize, ripemd160. f_equal. f_equal.
  pose proof (pad_absorbs _ rmd_transform_chunk WriteLE64 _ _ ltac:(intros; apply length_le_bytes) Hc Hn) as E.
  refine (eq_trans E _). apply md_hash_ext. intros s m Hs.
  split; [by apply ripemd160_Transform_ref|by apply length_rmd_compress].
Qed.

Lemma CSHA1_hash (buf : list Z) (ds : list (list Z)) :
  length buf = 64%nat -> 8 * Z.of_nat (length (concat ds)) < 2 ^ 64 ->
  CSHA1_Finalize (fold_left CSHA1_Write ds (CSHA1_new buf)) = sha1 (concat ds).
Proof.
  intros Hb Hn. pose proof (Writes_absorb _ sha1_transform_chunk ds [] _ (new_absorbed _ buf Hb) ltac:(cbn [length]; lia)) as Hc.
  rewrite app_nil_l in Hc. unfold CSHA1_Finalize, sha1. f_equal. f_equal.
  pose proof (pad_absorbs _ sha1_transform_chunk WriteBE64 _ _ ltac:(intros; unfold WriteBE64; by rewrite length_rev, length_le_bytes) Hc Hn) as E.
  refine (eq_trans E _). apply md_hash_ext. intros s m Hs.
  split; [by apply sha1_Transform_ref|by apply length_sha1_compress].
Qed.

Lemma length_chunks (f : list Z -> list Z -> list Z) (n : nat) (s m : list Z) :
  (forall s m, length s = 5%nat -> length (f s m) = 5%nat) -> length s = 5%nat -> length (chunks f n s m) = 5%nat.
Proof. intros H. revert s m. induction n as [|n IH]; intros s m Hs; [done|]. cbn [chunks]. apply IH. by apply H. Qed.

Lemma words_digest (w : Z -> list Z) (l : list Z) :
  (forall x, length (w x) = 4%nat /\ Forall is_u8 (w x)) -> length (concat (map w l)) = (4 * length l)%nat /\ Forall is_u8 (concat (map w l)).
Proof.
  intros H. induction l as [|x l [IHl IHb]]; [by split; [|constructor]|]. cbn [map concat length]. destruct (H x) as [Hl Hb].
  rewrite length_app, IHl, Hl. split; [lia|]. by apply Forall_app.
Qed.

Lemma md_digest (f : list Z -> list Z -> list Z) (size w : Z -> list Z) (m : list Z) :
  (forall s m, length s = 5%nat -> length (f s m) = 5%nat) -> (forall x, length (w x) = 4%nat /\ Forall is_u8 (w x)) ->
  length (concat (map w (md_hash f size m))) = 20%nat /\ Forall is_u8 (concat (map w (md_hash f size m))).
Proof.
  intros Hf Hw. destruct (words_digest w (md_hash f size m) Hw) as [-> Hb]. unfold md_hash. cbv zeta. by rewrite length_chunks.
Qed.

Lemma ripemd160_digest (m : list Z) : length (ripemd160 m) = 20%nat /\ Forall is_u8 (ripemd160 m).
Proof. apply md_digest; [apply length_rmd_compress|]. intros x. split; [apply length_le_bytes|apply le_bytes_u8]. Qed.

Lemma sha1_digest (m : list Z) : length (sha1 m) = 20%nat /\ Forall is_u8 (sha1 m).
Proof.
  apply md_digest; [apply length_sha1_compress|]. intros x. unfold WriteBE32.
  split; [by rewrite length_rev, length_le_bytes|apply Forall_rev, le_bytes_u8].
Qed.

Lemma sha256_digest (m : list Z) : length (sha256 m) = 32%nat /\ Forall is_u8 (sha256 m).
Proof.
  split; [exact (length_digest _ (length_fips_blocks _ initial _ eq_refl))|]. unfold sha256.
  apply (words_digest WriteBE32). intros x. unfold WriteBE32. split; [by rewrite length_rev, length_le_bytes|apply Forall_rev, le_bytes_u8].
Qed.

(** C37: the hashers of the script opcodes compute RIPEMD-160, SHA-1 (FIPS 180-4) and RIPEMD-160 of SHA-256 of the concatenation of the data written, for every
    way of cutting the data and whatever the uninitialized buffers hold. *)
Theorem hashers160_stream (buf buf' : list Z) (ds : list (list Z)) :
  length buf = 64%nat -> length buf' = 64%nat -> 8 * Z.of_nat (length (concat ds)) < 2 ^ 64 ->
  CRIPEMD160_Finalize (fold_left CRIPEMD160_Write ds (CRIPEMD160_new buf)) = ripemd160 (concat ds) /\
  CSHA1_Finalize (fold_left CSHA1_Write ds (CSHA1_new buf)) = sha1 (concat ds) /\
  CHash160_Finalize (fold_left CSHA256_Write ds (CSHA256_new buf')) buf = ripemd160 (sha256 (concat ds)).
Proof.
  intros Hb Hb' Hn. split; [by apply CRIPEMD160_hash|]. split; [by apply CSHA1_hash|].
  unfold CHash160_Finalize. rewrite (proj1 (Writes_hash buf' ds Hb' Hn)).
  pose proof (CRIPEMD160_hash buf [sha256 (concat ds)] Hb) as E. cbn [concat fold_left] in E. rewrite app_nil_r in E.
  apply E. assert (H32 : length (sha256 (concat ds)) = 32%nat) by exact (length_digest _ (length_fips_blocks _ initial _ eq_refl)). lia.
Qed.

Lemma hashers160_stream_witness :
  CSHA1_Finalize (fold_left CSHA1_Write [[97]; [98; 99]] (CSHA1_new (repeat 7 64))) = sha1 [97; 98; 99].
Proof. exact (proj1 (proj2 (hashers160_stream (repeat 7 64) (repeat 0 64) [[97]; [98; 99]] eq_refl eq_refl eq_refl))). Defined.
