(* ===== verification/Block.v ===== *)
(** * Block checks: the block part of validation.cpp, consensus/validation.h and the block functions of consensus/merkle.cpp

    Blocks with the flags that cache their checks, the Merkle roots of a block, the context-free and the contextual block checks and the
    witness commitment. Every check returns its result, the validation state and the block with its new flags;
    [None] is a failed assertion or an access out of range. The signature of signet blocks is a parameter. *)

From stdpp Require Import pretty.
From S2P Require Import Prelude ValidationState Serialize ArithUint256 Chain Params Pow Subsidy Transaction Script.
From S2P Require Import TxCheck Coins TxVerify Merkle Sha256 Sha256Spec Hash.
#[local] Open Scope Z_scope.

(** ** Blocks *)

Record CBlock := mkBlock {
  header : CBlockHeader;
  vtx : list CTransaction;
  fChecked : bool;
  m_checked_witness_commitment : bool;
  m_checked_merkle_root : bool
}.

(** A block as it is read from the network or from disk. *)
Definition new_block (h : CBlockHeader) (txs : list CTransaction) : CBlock := mkBlock h txs false false false.

Definition set_fChecked (b : CBlock) : CBlock :=
  mkBlock (header b) (vtx b) true (m_checked_witness_commitment b) (m_checked_merkle_root b).
Definition set_checked_witness (b : CBlock) : CBlock := mkBlock (header b) (vtx b) (fChecked b) true (m_checked_merkle_root b).
Definition set_checked_merkle (b : CBlock) : CBlock := mkBlock (header b) (vtx b) (fChecked b) (m_checked_witness_commitment b) true.
Definition set_vtx (b : CBlock) (txs : list CTransaction) : CBlock :=
  mkBlock (header b) txs (fChecked b) (m_checked_witness_commitment b) (m_checked_merkle_root b).

(** Serialization of a block, with or without witnesses. *)
Definition SerializeBlock (allow_witness : bool) (b : CBlock) : list Z :=
  SerializeHeader (header b) ++ WriteCompactSize (Z.of_nat (length (vtx b))) ++ concat (map (SerializeTransaction allow_witness) (vtx b)).
Definition BlockSize (allow_witness : bool) (b : CBlock) : Z := Z.of_nat (length (SerializeBlock allow_witness b)).

(** ** consensus/validation.h *)

Definition NO_WITNESS_COMMITMENT : Z := -1.
Definition MINIMUM_WITNESS_COMMITMENT : Z := 38.
Definition MAX_BLOCK_SIGOPS_COST : Z := 80000.

Definition GetTransactionWeight (tx : CTransaction) : Z :=
  i32 (GetSerializeSize false tx * (WITNESS_SCALE_FACTOR - 1) + GetSerializeSize true tx).
Definition GetBlockWeight (b : CBlock) : Z := BlockSize false b * (WITNESS_SCALE_FACTOR - 1) + BlockSize true b.

(** Whether an output has the form of a witness commitment. *)
Definition is_commitment (o : CTxOut) : bool :=
  let s := scriptPubKey o in
  (MINIMUM_WITNESS_COMMITMENT <=? Z.of_nat (length s)) && bool_decide (take 6 s = [OP_RETURN; 0x24; 0xaa; 0x21; 0xa9; 0xed]).

Fixpoint commitment_loop (outs : list CTxOut) (o commitpos : Z) : Z :=
  match outs with
  | [] => commitpos
  | x :: outs' => commitment_loop outs' (o + 1) (if is_commitment x then o else commitpos)
  end.
Definition GetWitnessCommitmentIndex (b : CBlock) : Z :=
  match vtx b with [] => NO_WITNESS_COMMITMENT | tx :: _ => commitment_loop (vout tx) 0 NO_WITNESS_COMMITMENT end.

(** ** consensus/merkle.cpp *)

Definition BlockMerkleRoot (b : CBlock) : option (uint256 * bool) := ComputeMerkleRoot hash_node (map ComputeHash (vtx b)).

(** The coinbase counts as zero; writing it in an empty vector is out of range. *)
Definition BlockWitnessMerkleRoot (b : CBlock) : option uint256 :=
  match vtx b with
  | [] => None
  | _ :: txs => '(root, _) ← ComputeMerkleRoot hash_node (0 :: map ComputeWitnessHash txs); Some root
  end.

Definition TransactionMerklePath (b : CBlock) (position : Z) : option (list uint256) :=
  MerkleComputation hash_node (map ComputeHash (vtx b)) position.

(** ** validation.cpp *)

Abbreviation check_result := (option (bool * BlockValidationState * CBlock)).

Definition CheckMerkleRoot (b : CBlock) (state : BlockValidationState) : check_result :=
  if m_checked_merkle_root b then Some (true, state, b)
  else
  '(merkle_root, mutated) ← BlockMerkleRoot b;
  if negb (hashMerkleRoot (header b) =? merkle_root) then Some (Invalid state BLOCK_MUTATED "bad-txnmrklroot" "hashMerkleRoot mismatch", b)
  else if (mutated : bool) then Some (Invalid state BLOCK_MUTATED "bad-txns-duplicate" "duplicate transaction", b)
  else Some (true, state, set_checked_merkle b).

(** The last loop of [CheckWitnessMalleation]. *)
Definition check_no_witness (b : CBlock) (state : BlockValidationState) : check_result :=
  if existsb HasWitness (vtx b) then
    Some (Invalid state BLOCK_MUTATED "unexpected-witness" "CheckWitnessMalleation : unexpected witness data found", b)
  else Some (true, state, b).

Definition CheckWitnessMalleation (b : CBlock) (expect_witness_commitment : bool) (state : BlockValidationState) : check_result :=
  if expect_witness_commitment then
    if m_checked_witness_commitment b then Some (true, state, b)
    else
    let commitpos := GetWitnessCommitmentIndex b in
    if negb (commitpos =? NO_WITNESS_COMMITMENT) then
      coinbase ← head (vtx b);
      input ← head (vin coinbase);
      match scriptWitness input with
      | [reserved] =>
          if negb (Z.of_nat (length reserved) =? 32) then
            Some (Invalid state BLOCK_MUTATED "bad-witness-nonce-size" "CheckWitnessMalleation : invalid witness reserved value size", b)
          else
          root ← BlockWitnessMerkleRoot b;
          let hash_witness := Hash256_2 (ser fmt_uint256 root) reserved in
          o ← vout coinbase !! Z.to_nat commitpos;
          if negb (bool_decide (ser fmt_uint256 hash_witness = take 32 (drop 6 (scriptPubKey o)))) then
            Some (Invalid state BLOCK_MUTATED "bad-witness-merkle-match" "CheckWitnessMalleation : witness merkle commitment mismatch", b)
          else Some (true, state, set_checked_witness b)
      | _ => Some (Invalid state BLOCK_MUTATED "bad-witness-nonce-size" "CheckWitnessMalleation : invalid witness reserved value size", b)
      end
    else check_no_witness b state
  else check_no_witness b state.

Definition IsBlockMutated (b : CBlock) (check_witness_root : bool) : option (bool * CBlock) :=
  '(ok, state, b) ← CheckMerkleRoot b block_state;
  if negb ok then Some (true, b)
  else
  match vtx b with
  | coinbase :: _ =>
      if IsCoinBase coinbase then '(ok, _, b) ← CheckWitnessMalleation b check_witness_root state; Some (negb ok, b)
      else Some (existsb (fun tx => GetSerializeSize false tx =? 64) (vtx b), b)
  | [] => Some (false, b)
  end.

(** The transaction checks of [CheckBlock]: the first failure. *)
Fixpoint check_transactions (txs : list CTransaction) (state : BlockValidationState) : option (bool * BlockValidationState) :=
  match txs with
  | [] => Some (true, state)
  | tx :: txs' =>
      let '(ok, tx_state) := CheckTransaction tx tx_state in
      if ok then check_transactions txs' state
      else if negb (bool_decide (m_result tx_state = TX_CONSENSUS)) then None
      else Some (Invalid state BLOCK_CONSENSUS (m_reject_reason tx_state)
                   ("Transaction check failed (tx hash " +:+ uint256_ToString (ComputeHash tx) +:+ ") " +:+ m_debug_message tx_state))
  end.

Fixpoint legacy_sigops (txs : list CTransaction) (nSigOps : Z) : option Z :=
  match txs with
  | [] => Some nSigOps
  | tx :: txs' => n ← GetLegacySigOpCount tx; legacy_sigops txs' (u32 (nSigOps + n))
  end.

Section checks.
Context (CheckSignetBlockSolution : CBlock -> bool) (params : Params).

Definition CheckBlock (b : CBlock) (state : BlockValidationState) (fCheckPOW fCheckMerkleRoot : bool) : check_result :=
  if fChecked b then Some (true, state, b)
  else if signet_blocks params && fCheckPOW && negb (CheckSignetBlockSolution b) then
    Some (Invalid state BLOCK_CONSENSUS "bad-signet-blksig" "signet block signature validation failure", b)
  else
  '(ok, state, b) ← (if fCheckMerkleRoot then CheckMerkleRoot b state else Some (true, state, b));
  if negb ok then Some (false, state, b)
  else
  if bool_decide (vtx b = []) || (u64 (Z.of_nat (length (vtx b)) * WITNESS_SCALE_FACTOR) >? MAX_BLOCK_WEIGHT) ||
     (u64 (BlockSize false b * WITNESS_SCALE_FACTOR) >? MAX_BLOCK_WEIGHT) then
    Some (Invalid state BLOCK_CONSENSUS "bad-blk-length" "size limits failed", b)
  else
  if negb (match vtx b with tx :: _ => IsCoinBase tx | [] => false end) then
    Some (Invalid state BLOCK_CONSENSUS "bad-cb-missing" "first tx is not coinbase", b)
  else if existsb IsCoinBase (tail (vtx b)) then
    Some (Invalid state BLOCK_CONSENSUS "bad-cb-multiple" "more than one coinbase", b)
  else
  '(ok, state) ← check_transactions (vtx b) state;
  if negb ok then Some (false, state, b)
  else
  nSigOps ← legacy_sigops (vtx b) 0;
  if u32 (nSigOps * WITNESS_SCALE_FACTOR) >? MAX_BLOCK_SIGOPS_COST then
    Some (Invalid state BLOCK_CONSENSUS "bad-blk-sigops" "out-of-bounds SigOpCount", b)
  else Some (true, state, if fCheckPOW && fCheckMerkleRoot then set_fChecked b else b).

(** [pindexPrev] is null for a genesis block. *)
Definition prev_index (m : BlockMap) (pindexPrev : option uint256) : option (option CBlockIndex) :=
  match pindexPrev with None => Some None | Some p => i ← m !! p; Some (Some i) end.

Definition ContextualCheckBlock (m : BlockMap) (b : CBlock) (state : BlockValidationState) (pindexPrev : option uint256) : check_result :=
  prev ← prev_index m pindexPrev;
  let nHeight := match prev with None => 0 | Some i => nHeight i + 1 end in
  nLockTimeCutoff ←
    (if DeploymentActiveAfter prev params DEPLOYMENT_CSV then p ← pindexPrev; GetMedianTimePast m p
     else Some (nTime (header b)));
  if negb (forallb (fun tx => IsFinalTx tx nHeight nLockTimeCutoff) (vtx b)) then
    Some (Invalid state BLOCK_CONSENSUS "bad-txns-nonfinal" "non-final transaction", b)
  else
  height_ok ←
    (if DeploymentActiveAfter prev params DEPLOYMENT_HEIGHTINCB then
       expect ← push_int64 [] nHeight;
       coinbase ← head (vtx b);
       input ← head (vin coinbase);
       Some (bool_decide (take (length expect) (scriptSig input) = expect))
     else Some true);
  if negb height_ok then Some (Invalid state BLOCK_CONSENSUS "bad-cb-height" "block height mismatch in coinbase", b)
  else
  '(ok, state, b) ← CheckWitnessMalleation b (DeploymentActiveAfter prev params DEPLOYMENT_SEGWIT) state;
  if negb ok then Some (false, state, b)
  else if GetBlockWeight b >? MAX_BLOCK_WEIGHT then
    Some (Invalid state BLOCK_CONSENSUS "bad-blk-weight" "ContextualCheckBlock : weight limit failed", b)
  else Some (true, state, b).

(** A copy of the coinbase with a new first witness. *)
Definition with_witness (tx : CTransaction) (stack : list (list Z)) : option CTransaction :=
  match vin tx with
  | [] => None
  | i :: ins => Some (mkTx (mkTxIn (prevout i) (scriptSig i) (nSequence i) stack :: ins) (vout tx) (tx_version tx) (nLockTime tx))
  end.

Definition UpdateUncommittedBlockStructures (m : BlockMap) (b : CBlock) (pindexPrev : option uint256) : option CBlock :=
  prev ← prev_index m pindexPrev;
  if negb (GetWitnessCommitmentIndex b =? NO_WITNESS_COMMITMENT) && DeploymentActiveAfter prev params DEPLOYMENT_SEGWIT then
    match vtx b with
    | [] => None
    | coinbase :: txs =>
        if HasWitness coinbase then Some b
        else coinbase ← with_witness coinbase [repeat 0 32]; Some (set_vtx b (coinbase :: txs))
    end
  else Some b.

Definition commitment_script (hash : uint256) : CScript := [OP_RETURN; 0x24; 0xaa; 0x21; 0xa9; 0xed] ++ ser fmt_uint256 hash.

Definition GenerateCoinbaseCommitment (m : BlockMap) (b : CBlock) (pindexPrev : option uint256) : option (list Z * CBlock) :=
  if GetWitnessCommitmentIndex b =? NO_WITNESS_COMMITMENT then
    root ← BlockWitnessMerkleRoot b;
    let out := mkTxOut 0 (commitment_script (Hash256_2 (ser fmt_uint256 root) (repeat 0 32))) in
    match vtx b with
    | [] => None
    | tx :: txs =>
        let coinbase := mkTx (vin tx) (vout tx ++ [out]) (tx_version tx) (nLockTime tx) in
        b ← UpdateUncommittedBlockStructures m (set_vtx b (coinbase :: txs)) pindexPrev;
        Some (scriptPubKey out, b)
    end
  else b ← UpdateUncommittedBlockStructures m b pindexPrev; Some ([], b).

End checks.

#[local] Opaque hash_node ComputeHash ComputeWitnessHash Hash256_2 Hash256 HashWriter_GetHash.

(** ** Merkle roots are always defined *)

Lemma ComputeMerkleRoot_total (l : list Z) : exists root mutated, ComputeMerkleRoot hash_node l = Some (root, mutated).
Proof.
  destruct (decide (l = [])) as [->|Hl]; [by exists 0, false|].
  do 2 eexists. apply (ComputeMerkleRoot_spec hash_node l). by apply is_depth_log2.
Qed.

(** ** [CheckBlock] *)

(** The legacy signature operations of a transaction and of a block, counted without wrap-around. *)
Definition script_sigops (s : CScript) : Z := default 0 (GetSigOpCount s false).
Definition scripts_of (tx : CTransaction) : list CScript := map scriptSig (vin tx) ++ map scriptPubKey (vout tx).
Definition tx_sigops (tx : CTransaction) : Z := zsum script_sigops (scripts_of tx).
Definition script_bytes (ss : list CScript) : Z := zsum (fun s => Z.of_nat (length s)) ss.
Definition tx_script_bytes (tx : CTransaction) : Z := script_bytes (scripts_of tx).

Lemma script_bytes_nonneg (ss : list CScript) : 0 <= script_bytes ss.
Proof. apply zsum_nonneg. apply Forall_forall. intros; lia. Qed.

Lemma sum_sigops_spec (ss : list CScript) (n : Z) :
  0 <= n -> n + 20 * script_bytes ss < 2 ^ 32 ->
  sum_sigops ss n = Some (n + zsum script_sigops ss) /\ 0 <= zsum script_sigops ss <= 20 * script_bytes ss.
Proof.
  revert n. induction ss as [|s ss IH]; intros n Hn Hb; [split; [cbn; f_equal|cbn]; lia|].
  unfold script_bytes in *. rewrite !zsum_cons in *. pose proof (script_bytes_nonneg ss). unfold script_bytes in *. cbn [sum_sigops].
  destruct (GetSigOpCount_bound s false) as (r & E & Hr); [lia|]. assert (Es : script_sigops s = r) by (unfold script_sigops; by rewrite E).
  rewrite E, Es. cbn [mbind option_bind]. rewrite u32_small by (unfold is_u32; lia).
  destruct (IH (n + r)) as [-> Hs]; [lia..|]. split; [f_equal; lia|lia].
Qed.

Lemma GetLegacySigOpCount_spec (tx : CTransaction) :
  20 * tx_script_bytes tx < 2 ^ 32 -> GetLegacySigOpCount tx = Some (tx_sigops tx) /\ 0 <= tx_sigops tx <= 20 * tx_script_bytes tx.
Proof.
  unfold tx_script_bytes, tx_sigops, scripts_of, script_bytes. rewrite !zsum_app. fold (script_bytes (map scriptSig (vin tx))).
  fold (script_bytes (map scriptPubKey (vout tx))). intros Hb.
  pose proof (script_bytes_nonneg (map scriptSig (vin tx))). pose proof (script_bytes_nonneg (map scriptPubKey (vout tx))).
  destruct (sum_sigops_spec (map scriptSig (vin tx)) 0) as [E1 B1]; [lia..|].
  destruct (sum_sigops_spec (map scriptPubKey (vout tx)) (zsum script_sigops (map scriptSig (vin tx)))) as [E2 B2]; [lia..|].
  unfold GetLegacySigOpCount. rewrite E1. cbn [mbind option_bind]. rewrite Z.add_0_l, E2. split; [done|lia].
Qed.

Lemma legacy_sigops_spec (txs : list CTransaction) (n : Z) :
  0 <= n -> n + 20 * zsum tx_script_bytes txs < 2 ^ 32 ->
  legacy_sigops txs n = Some (n + zsum tx_sigops txs) /\ 0 <= zsum tx_sigops txs <= 20 * zsum tx_script_bytes txs.
Proof.
  revert n. induction txs as [|tx txs IH]; intros n Hn Hb; [split; [cbn; f_equal|cbn]; lia|]. rewrite !zsum_cons in *. cbn [legacy_sigops].
  assert (0 <= zsum tx_script_bytes txs) by (apply zsum_nonneg, Forall_forall; intros; apply script_bytes_nonneg).
  destruct (GetLegacySigOpCount_spec tx) as [-> B1]; [lia|]. cbn [mbind option_bind]. rewrite u32_small by (unfold is_u32; lia).
  destruct (IH (n + tx_sigops tx)) as [-> B2]; [lia..|]. split; [f_equal; lia|lia].
Qed.

(** The scripts of a transaction are part of its serialization. *)
Lemma bytes_le_ser (v : list Z) : Z.of_nat (length v) <= Z.of_nat (length (ser fmt_bytes v)).
Proof. cbn [ser fmt_bytes]. rewrite length_app. lia. Qed.

Lemma vector_le_ser {A : Type} (f : format A) (g : A -> Z) (l : list A) :
  (forall x, g x <= Z.of_nat (length (ser f x))) -> zsum g l <= Z.of_nat (length (ser (fmt_vector f) l)).
Proof.
  intros Hg. cbn [ser fmt_vector]. rewrite length_app. enough (zsum g l <= Z.of_nat (length (concat (map (ser f) l)))) by lia.
  induction l as [|x l IH]; [done|]. rewrite zsum_cons. cbn [map concat]. rewrite length_app. specialize (Hg x). lia.
Qed.

Lemma zsum_map {A B : Type} (f : B -> Z) (g : A -> B) (l : list A) : zsum f (map g l) = zsum (fun x => f (g x)) l.
Proof. induction l as [|x l IH]; [done|]. cbn [map]. by rewrite !zsum_cons, IH. Qed.

Lemma tx_script_bytes_size (aw : bool) (tx : CTransaction) : tx_script_bytes tx <= GetSerializeSize aw tx.
Proof.
  unfold tx_script_bytes, scripts_of, script_bytes, GetSerializeSize, SerializeTransaction. rewrite zsum_app, !zsum_map, !length_app.
  assert (H1 : zsum (fun i => Z.of_nat (length (scriptSig i))) (vin tx) <= Z.of_nat (length (ser fmt_vin (vin tx)))).
  { apply vector_le_ser. intros i. cbn [fmt_CTxIn ser fmt_iso fmt_pair fst snd]. rewrite !length_app. pose proof (bytes_le_ser (scriptSig i)). lia. }
  assert (H2 : zsum (fun o => Z.of_nat (length (scriptPubKey o))) (vout tx) <= Z.of_nat (length (ser fmt_vout (vout tx)))).
  { apply vector_le_ser. intros o. cbn [fmt_CTxOut ser fmt_iso fmt_pair fst snd]. rewrite !length_app. pose proof (bytes_le_ser (scriptPubKey o)). lia. }
  lia.
Qed.

Lemma block_script_bytes_size (aw : bool) (b : CBlock) : zsum tx_script_bytes (vtx b) <= BlockSize aw b.
Proof.
  unfold BlockSize, SerializeBlock. rewrite !length_app.
  enough (zsum tx_script_bytes (vtx b) <= Z.of_nat (length (concat (map (SerializeTransaction aw) (vtx b))))) by lia.
  induction (vtx b) as [|tx txs IH]; [done|]. rewrite zsum_cons. cbn [map concat]. rewrite length_app.
  pose proof (tx_script_bytes_size aw tx). unfold GetSerializeSize in *. lia.
Qed.

Lemma CheckTransaction_consensus (tx : CTransaction) (state : TxValidationState) :
  fst (CheckTransaction tx state) = false -> m_result (snd (CheckTransaction tx state)) = TX_CONSENSUS.
Proof. unfold CheckTransaction. repeat case_match; done. Qed.

(** The transaction checks report the first transaction that is not well-formed. *)
Lemma check_transactions_spec (txs : list CTransaction) (state : BlockValidationState) :
  (Forall tx_checked txs /\ check_transactions txs state = Some (true, state)) \/
  (~ Forall tx_checked txs /\ exists reason debug, check_transactions txs state = Some (Invalid state BLOCK_CONSENSUS reason debug)).
Proof.
  induction txs as [|tx txs IH]; [by left|]. cbn [check_transactions].
  pose proof (proj1 (CheckTransaction_spec tx tx_state)) as S. pose proof (CheckTransaction_consensus tx tx_state) as C.
  destruct (CheckTransaction tx tx_state) as [[] st]; cbn [fst snd] in *.
  - destruct IH as [[H1 H2]|[H1 H2]]; [left|right]; (split; [|done]); rewrite Forall_cons; [split; [by apply S|done]|tauto].
  - right. split; [rewrite Forall_cons; intros [H _]; by apply S in H|]. rewrite C, bool_decide_true by done. by do 2 eexists.
Qed.

(** What a block must be, without the order in which [CheckBlock] looks. *)
Record block_checked (b : CBlock) : Prop := mkBlockChecked {
  bc_root : BlockMerkleRoot b = Some (hashMerkleRoot (header b), false);
  bc_count : Z.of_nat (length (vtx b)) * WITNESS_SCALE_FACTOR <= MAX_BLOCK_WEIGHT;
  bc_size : BlockSize false b * WITNESS_SCALE_FACTOR <= MAX_BLOCK_WEIGHT;
  bc_coinbase : exists coinbase txs, vtx b = coinbase :: txs /\ IsCoinBase coinbase = true /\ Forall (fun tx => IsCoinBase tx = false) txs;
  bc_txs : Forall tx_checked (vtx b);
  bc_sigops : zsum tx_sigops (vtx b) * WITNESS_SCALE_FACTOR <= MAX_BLOCK_SIGOPS_COST
}.

Lemma CheckMerkleRoot_spec (b : CBlock) (state : BlockValidationState) :
  m_checked_merkle_root b = false ->
  (BlockMerkleRoot b = Some (hashMerkleRoot (header b), false) /\ CheckMerkleRoot b state = Some (true, state, set_checked_merkle b)) \/
  (BlockMerkleRoot b <> Some (hashMerkleRoot (header b), false) /\
   exists reason debug, CheckMerkleRoot b state = Some (Invalid state BLOCK_MUTATED reason debug, b)).
Proof.
  intros Hm. unfold CheckMerkleRoot. rewrite Hm. unfold BlockMerkleRoot.
  destruct (ComputeMerkleRoot_total (map ComputeHash (vtx b))) as (root & mutated & ->). cbn [mbind option_bind].
  destruct (Z.eqb_spec (hashMerkleRoot (header b)) root) as [->|Hne]; cbn [negb].
  - destruct mutated; [right|by left]. split; [done|]. by do 2 eexists.
  - right. split; [congruence|]. by do 2 eexists.
Qed.

(** The size of a block bounds the number of its transactions. *)
Lemma ser_tx_nonempty (aw : bool) (tx : CTransaction) : (1 <= length (SerializeTransaction aw tx))%nat.
Proof. unfold SerializeTransaction. rewrite length_app. cbn [ser fmt_u32 fmt_uint ser_writedata]. unfold ser_writedata. rewrite length_le_bytes. lia. Qed.

Lemma block_count_size (b : CBlock) : Z.of_nat (length (vtx b)) <= BlockSize false b.
Proof.
  unfold BlockSize, SerializeBlock. rewrite !length_app.
  enough (length (vtx b) <= length (concat (map (SerializeTransaction false) (vtx b))))%nat by lia.
  induction (vtx b) as [|tx txs IH]; [done|]. cbn [map concat length]. rewrite length_app. pose proof (ser_tx_nonempty false tx). lia.
Qed.

Section CheckBlock.
Context (signet : CBlock -> bool) (params : Params) (Hsig : signet_blocks params = false).

(** The checks that follow the Merkle root. *)
Lemma CheckBlock_after_root (b b1 : CBlock) (state : BlockValidationState) (pow root : bool) :
  fChecked b = false -> (if root then CheckMerkleRoot b state else Some (true, state, b)) = Some (true, state, b1) ->
  header b1 = header b -> vtx b1 = vtx b -> BlockSize false b < 2 ^ 62 ->
  let ok := Z.of_nat (length (vtx b)) * WITNESS_SCALE_FACTOR <= MAX_BLOCK_WEIGHT /\
    BlockSize false b * WITNESS_SCALE_FACTOR <= MAX_BLOCK_WEIGHT /\
    (exists coinbase txs, vtx b = coinbase :: txs /\ IsCoinBase coinbase = true /\ Forall (fun tx => IsCoinBase tx = false) txs) /\
    Forall tx_checked (vtx b) /\ zsum tx_sigops (vtx b) * WITNESS_SCALE_FACTOR <= MAX_BLOCK_SIGOPS_COST in
  (ok /\ CheckBlock signet params b state pow root = Some (true, state, if pow && root then set_fChecked b1 else b1)) \/
  (~ ok /\ exists reason debug, CheckBlock signet params b state pow root = Some (Invalid state BLOCK_CONSENSUS reason debug, b1)).
Proof.
  intros Hf Hroot Hh Hv Hsize ok. unfold CheckBlock. rewrite Hf, Hsig. cbn [andb]. rewrite Hroot. cbn [mbind option_bind negb].
  pose proof (block_count_size b) as Hc. pose proof (block_script_bytes_size false b) as Hsb.
  assert (Es : BlockSize false b1 = BlockSize false b) by (unfold BlockSize, SerializeBlock; by rewrite Hh, Hv).
  rewrite Hv, Es, !u64_small, !Z.gtb_ltb by (unfold is_u64, WITNESS_SCALE_FACTOR; unfold BlockSize in *; lia).
  case_bool_decide as He; cbn [orb].
  { right. split; [|by do 2 eexists]. intros (_ & _ & (cb & txs & E & _) & _). congruence. }
  destruct (Z.ltb_spec MAX_BLOCK_WEIGHT (Z.of_nat (length (vtx b)) * WITNESS_SCALE_FACTOR)) as [H1|H1]; cbn [orb].
  { right. split; [|by do 2 eexists]. intros (? & _). lia. }
  destruct (Z.ltb_spec MAX_BLOCK_WEIGHT (BlockSize false b * WITNESS_SCALE_FACTOR)) as [H2|H2].
  { right. split; [|by do 2 eexists]. intros (_ & ? & _). lia. }
  destruct (vtx b) as [|cb txs] eqn:Evtx; [done|]. destruct (IsCoinBase cb) eqn:Ecb; cbn [negb tail].
  2: { right. split; [|by do 2 eexists]. intros (_ & _ & (? & ? & [= <- <-] & ? & _) & _). congruence. }
  destruct (existsb IsCoinBase txs) eqn:Etx.
  { right. split; [|by do 2 eexists]. intros (_ & _ & (? & ? & [= <- <-] & _ & Hn) & _). apply existsb_false_Forall in Hn. congruence. }
  destruct (check_transactions_spec (cb :: txs) state) as [[Htx ->]|[Htx (r & d & ->)]]; cbn [mbind option_bind negb].
  2: { right. split; [|by do 2 eexists]. intros (_ & _ & _ & ? & _). done. }
  unfold MAX_BLOCK_WEIGHT, WITNESS_SCALE_FACTOR in H2.
  destruct (legacy_sigops_spec (cb :: txs) 0) as [-> Hb]; [lia..|]. cbn [mbind option_bind]. rewrite Z.add_0_l, u32_small by (unfold is_u32, WITNESS_SCALE_FACTOR; lia).
  rewrite Z.gtb_ltb. destruct (Z.ltb_spec MAX_BLOCK_SIGOPS_COST (zsum tx_sigops (cb :: txs) * WITNESS_SCALE_FACTOR)) as [H3|H3].
  { right. split; [|by do 2 eexists]. intros (_ & _ & _ & _ & ?). lia. }
  left. split; [|done]. split_and!; try done. exists cb, txs. split_and!; [done|done|by apply existsb_false_Forall].
Qed.

End CheckBlock.

(** ** The height in the coinbase *)

(** The height that a coinbase script claims. *)
Definition claimed_height (s : CScript) : option Z :=
  let op := GetScriptOp s in
  if (OP_1 <=? op_code op) && (op_code op <=? OP_16) then Some (op_code op - (OP_1 - 1)) else CScriptNum (op_data op) true 5.

Lemma claimed_height_push (n : Z) (expect rest : CScript) :
  1 <= n < 2 ^ 31 -> push_int64 [] n = Some expect -> claimed_height (expect ++ rest) = Some n.
Proof.
  intros Hn. unfold push_int64. destruct (Z.leb_spec 1 n); [|lia]. destruct (Z.eqb_spec n (-1)); [lia|]. cbn [orb andb].
  destruct (Z.leb_spec n 16) as [H16|H16].
  - assert (Hin : n ∈ seqZ 1 16) by (apply elem_of_seqZ; lia). intros [= <-]. clear -Hin.
    repeat (apply elem_of_cons in Hin as [->|Hin]; [reflexivity|]). by apply elem_of_nil in Hin.
  - destruct (Z.eqb_spec n 0); [lia|]. intros E. destruct (CScriptNum_of_serialize n 5) as (v & Ev & Hu & Hc); [lia|lia|].
    rewrite Ev in E. cbn [mbind option_bind] in E. injection E as <-.
    assert (Hl : Z.of_nat (length v) <= 5).
    { unfold CScriptNum in Hc. destruct (Z.gtb_spec (Z.of_nat (length v)) 5); [done|lia]. }
    destruct (GetScriptOp_push v rest) as (op & Eo & Hop & _); [lia|]. unfold claimed_height. rewrite Eo. cbn [op_code op_data].
    unfold OP_PUSHDATA4 in Hop. unfold OP_1 at 1. destruct (Z.leb_spec 0x51 op); [lia|]. done.
Qed.

(** An accepted block claims its height. *)
Lemma ContextualCheckBlock_height (params : Params) (m : BlockMap) (b b' : CBlock) (state state' : BlockValidationState) (p : uint256) (i : CBlockIndex) :
  m !! p = Some i -> DeploymentActiveAfter (Some i) params DEPLOYMENT_HEIGHTINCB = true -> 1 <= nHeight i + 1 < 2 ^ 31 ->
  ContextualCheckBlock params m b state (Some p) = Some (true, state', b') ->
  exists coinbase input, head (vtx b) = Some coinbase /\ head (vin coinbase) = Some input /\ claimed_height (scriptSig input) = Some (nHeight i + 1).
Proof.
  intros Hi Ha Hh E. unfold ContextualCheckBlock in E. cbn [prev_index] in E. rewrite Hi in E. cbn [mbind option_bind] in E. rewrite Ha in E.
  apply bind_inv in E as (cutoff & _ & E). case_match; [done|]. apply bind_inv in E as (hok & Ho & E).
  destruct hok; [|done]. clear E. apply bind_inv in Ho as (expect & Hx & Ho). apply bind_inv in Ho as (cb & Hcb & Ho).
  apply bind_inv in Ho as (input & Hin & Ho). injection Ho as Ho. apply bool_decide_eq_true in Ho.
  exists cb, input. split; [done|]. split; [done|]. rewrite <- (take_drop (length expect) (scriptSig input)), Ho. by apply claimed_height_push.
Qed.

(** ** The witness commitment *)

Lemma commitment_loop_snoc (outs : list CTxOut) (x : CTxOut) (o pos : Z) :
  is_commitment x = true -> commitment_loop (outs ++ [x]) o pos = o + Z.of_nat (length outs).
Proof.
  intros Hx. revert o pos. induction outs as [|y outs IH]; intros o pos; cbn [app commitment_loop length]; [rewrite Hx; lia|]. rewrite IH. lia.
Qed.

Lemma length_uint256_ser (h : Z) : length (ser fmt_uint256 h) = 32%nat.
Proof. apply length_le_bytes. Qed.

Lemma commitment_script_ok (h : uint256) (v : Z) : is_commitment (mkTxOut v (commitment_script h)) = true.
Proof.
  unfold is_commitment, commitment_script. cbn [scriptPubKey]. rewrite length_app, length_uint256_ser.
  change (take 6 ([OP_RETURN; 36; 170; 33; 169; 237] ++ ?l)) with [OP_RETURN; 36; 170; 33; 169; 237]. by rewrite bool_decide_true.
Qed.

(** A block whose commitment is right passes the witness check. *)
Lemma commitment_checked (b : CBlock) (cb : CTransaction) (txs : list CTransaction) (i : CTxIn) (ins : list CTxIn) (root : uint256)
    (pos : nat) (o : CTxOut) (reserved : list Z) (state : BlockValidationState) :
  m_checked_witness_commitment b = false -> GetWitnessCommitmentIndex b = Z.of_nat pos -> vtx b = cb :: txs ->
  vin cb = mkTxIn (prevout i) (scriptSig i) (nSequence i) [reserved] :: ins -> length reserved = 32%nat -> vout cb !! pos = Some o ->
  take 32 (drop 6 (scriptPubKey o)) = ser fmt_uint256 (Hash256_2 (ser fmt_uint256 root) reserved) ->
  BlockWitnessMerkleRoot b = Some root ->
  CheckWitnessMalleation b true state = Some (true, state, set_checked_witness b).
Proof.
  intros Hm Hp Hv Hi Hl Ho Hs Hr. unfold CheckWitnessMalleation. rewrite Hm, Hp.
  destruct (Z.eqb_spec (Z.of_nat pos) NO_WITNESS_COMMITMENT) as [|_]; [unfold NO_WITNESS_COMMITMENT in *; lia|]. cbn [negb].
  rewrite Hv. cbn [head mbind option_bind]. rewrite Hi. cbn [head mbind option_bind scriptWitness]. rewrite Hl, Hr. cbn [Z.of_nat mbind option_bind].
  rewrite Nat2Z.id, Ho. cbn [mbind option_bind]. rewrite Hs, bool_decide_true by done. done.
Qed.

(** ** Properties *)

(** C32: [CheckBlock] accepts a block exactly when its Merkle root matches without repeated nodes, it is within the size limits, its first transaction and
    no other is a coinbase, every transaction is well-formed, and it has at most 80000 weighted signature operations; it then records the
    check. A rejected block is reported as mutated exactly when the transactions do not belong to the header. No counter wraps. *)
Theorem CheckBlock_decides (signet : CBlock -> bool) (params : Params) (b : CBlock) (state : BlockValidationState) :
  signet_blocks params = false -> fChecked b = false -> m_checked_merkle_root b = false -> BlockSize false b < 2 ^ 62 ->
  (block_checked b /\
   CheckBlock signet params b state true true = Some (true, state, mkBlock (header b) (vtx b) true (m_checked_witness_commitment b) true)) \/
  (~ block_checked b /\ exists r reason debug b',
   CheckBlock signet params b state true true = Some (Invalid state r reason debug, b') /\ fChecked b' = false /\
   (r = BLOCK_MUTATED <-> BlockMerkleRoot b <> Some (hashMerkleRoot (header b), false)) /\ (r = BLOCK_MUTATED \/ r = BLOCK_CONSENSUS)).
Proof.
  intros Hs Hf Hm Hsize. destruct (CheckMerkleRoot_spec b state Hm) as [[Hr E]|[Hr (reason & debug & E)]].
  - destruct (CheckBlock_after_root signet params Hs b (set_checked_merkle b) state true true Hf E eq_refl eq_refl Hsize)
      as [[Hok E']|[Hok (reason & debug & E')]]; [left|right].
    + split; [by destruct Hok as (? & ? & ? & ? & ?)|done].
    + split; [intros []; apply Hok; auto|]. do 4 eexists. split; [exact E'|]. split; [done|]. split; [split; [done|congruence]|by right].
  - right. split; [intros []; congruence|]. exists BLOCK_MUTATED, reason, debug, b. unfold CheckBlock. rewrite Hf, Hs, E. cbn [andb mbind option_bind].
    split; [done|]. split; [done|]. split; [done|by left].
Qed.

(** Blocks accepted at different heights have different coinbase transactions: the height each coinbase must start with determines the
    height, whatever follows it. *)
Theorem heights_separate_coinbases (params : Params) (m : BlockMap) (b1 b2 b1' b2' : CBlock) (st st1 st2 : BlockValidationState)
    (p1 p2 : uint256) (i1 i2 : CBlockIndex) :
  m !! p1 = Some i1 -> m !! p2 = Some i2 -> 1 <= nHeight i1 + 1 < 2 ^ 31 -> 1 <= nHeight i2 + 1 < 2 ^ 31 -> nHeight i1 <> nHeight i2 ->
  DeploymentActiveAfter (Some i1) params DEPLOYMENT_HEIGHTINCB = true -> DeploymentActiveAfter (Some i2) params DEPLOYMENT_HEIGHTINCB = true ->
  ContextualCheckBlock params m b1 st (Some p1) = Some (true, st1, b1') -> ContextualCheckBlock params m b2 st (Some p2) = Some (true, st2, b2') ->
  head (vtx b1) <> head (vtx b2).
Proof.
  intros H1 H2 B1 B2 Hne A1 A2 E1 E2 E.
  apply (ContextualCheckBlock_height params m b1 b1' st st1 p1 i1 H1 A1 B1) in E1 as (c1 & in1 & Hc1 & Hi1 & Hh1).
  apply (ContextualCheckBlock_height params m b2 b2' st st2 p2 i2 H2 A2 B2) in E2 as (c2 & in2 & Hc2 & Hi2 & Hh2).
  rewrite Hc1, Hc2 in E. injection E as ->. rewrite Hi1 in Hi2. injection Hi2 as ->. rewrite Hh1 in Hh2. injection Hh2 as Hh2. lia.
Qed.

(** The commitment that a miner's node adds is the one that validation expects: after [GenerateCoinbaseCommitment] on a block without a commitment whose coinbase
    has an input and no witness, the witness check of the block succeeds, and the commitment is the last output of the coinbase. *)
Theorem generated_commitment_verifies (params : Params) (m : BlockMap) (b : CBlock) (cb : CTransaction) (txs : list CTransaction)
    (pindexPrev : option uint256) (prev : option CBlockIndex) (state : BlockValidationState) :
  vtx b = cb :: txs -> vin cb <> [] -> HasWitness cb = false -> GetWitnessCommitmentIndex b = NO_WITNESS_COMMITMENT ->
  m_checked_witness_commitment b = false ->
  prev_index m pindexPrev = Some prev -> DeploymentActiveAfter prev params DEPLOYMENT_SEGWIT = true ->
  exists commitment cb' b',
    GenerateCoinbaseCommitment params m b pindexPrev = Some (commitment, b') /\ vtx b' = cb' :: txs /\
    vout cb' = vout cb ++ [mkTxOut 0 commitment] /\
    CheckWitnessMalleation b' true state = Some (true, state, set_checked_witness b').
Proof.
  intros Hv Hin Hw Hc Hm Hp Ha. unfold GenerateCoinbaseCommitment. rewrite Hc, Z.eqb_refl.
  unfold BlockWitnessMerkleRoot at 1. rewrite Hv. destruct (ComputeMerkleRoot_total (0 :: map ComputeWitnessHash txs)) as (root & mut & Er).
  rewrite Er. cbn [mbind option_bind]. set (out := mkTxOut 0 _). set (cb1 := mkTx (vin cb) (vout cb ++ [out]) (tx_version cb) (nLockTime cb)).
  unfold UpdateUncommittedBlockStructures. rewrite Hp. cbn [mbind option_bind]. rewrite Ha.
  assert (Hci : GetWitnessCommitmentIndex (set_vtx b (cb1 :: txs)) = Z.of_nat (length (vout cb))).
  { unfold GetWitnessCommitmentIndex. cbn [vtx set_vtx vout cb1]. rewrite commitment_loop_snoc by apply commitment_script_ok. lia. }
  rewrite Hci. destruct (Z.eqb_spec (Z.of_nat (length (vout cb))) NO_WITNESS_COMMITMENT) as [|_]; [unfold NO_WITNESS_COMMITMENT in *; lia|].
  cbn [negb andb vtx set_vtx]. assert (Hw1 : HasWitness cb1 = false) by exact Hw. rewrite Hw1.
  destruct (vin cb) as [|i ins] eqn:Ei; [done|]. unfold with_witness. cbn [vin cb1 mbind option_bind].
  set (cb2 := mkTx _ _ _ _). eexists _, cb2, _. split; [reflexivity|]. split; [done|]. split; [done|].
  apply (commitment_checked _ cb2 txs i ins root (length (vout cb)) out (repeat 0 32)); try done.
  - unfold cb2. cbn [vout cb1]. by rewrite lookup_app_r, Nat.sub_diag by lia.
  - unfold BlockWitnessMerkleRoot. cbn [vtx set_vtx]. by rewrite Er.
Qed.
(** ** Examples *)

(** A coinbase that claims a height of one to sixteen, and the block of it. *)
Definition example_coinbase (height : Z) : CTransaction :=
  mkTx [mkTxIn (mkOutPoint 0 NULL_INDEX) [OP_1 - 1 + height; 0] SEQUENCE_FINAL []] [mkTxOut 0 [OP_1]] 1 0.
Definition example_block (height : Z) : CBlock := new_block (mkHeader 4 height 0 0 0 0) [example_coinbase height].

Lemma CheckBlock_decides_witness :
  exists ok st b', CheckBlock (fun _ => true) CMainParams (example_block 1) block_state true true = Some (ok, st, b').
Proof.
  assert (Hs : BlockSize false (example_block 1) < 2 ^ 62) by (vm_compute; reflexivity).
  destruct (CheckBlock_decides (fun _ => true) CMainParams (example_block 1) block_state eq_refl eq_refl eq_refl Hs)
    as [[_ E]|[_ (r & reason & debug & b' & E & _)]]; eexists _, _, _; exact E.
Defined.

Lemma heights_separate_coinbases_witness : head (vtx (example_block 3)) <> head (vtx (example_block 4)).
Proof.
  eapply (heights_separate_coinbases CMainParams (even_chain 3 600 0x1f0fffff) (example_block 3) (example_block 4) _ _ block_state _ _ 3 4).
  - by apply (even_chain_block 3 600 0x1f0fffff 2).
  - by apply (even_chain_block 3 600 0x1f0fffff 3).
  - done.
  - done.
  - done.
  - done.
  - done.
  - vm_compute. reflexivity.
  - vm_compute. reflexivity.
Defined.

Lemma generated_commitment_verifies_witness :
  exists commitment cb' b',
    GenerateCoinbaseCommitment CMainParams (even_chain 3 600 0x1f0fffff) (example_block 4) (Some 4) = Some (commitment, b') /\ vtx b' = [cb'] /\
    vout cb' = [mkTxOut 0 [OP_1]; mkTxOut 0 commitment] /\
    CheckWitnessMalleation b' true block_state = Some (true, block_state, set_checked_witness b').
Proof.
  apply (generated_commitment_verifies CMainParams (even_chain 3 600 0x1f0fffff) (example_block 4) (example_coinbase 4) [] (Some 4)
    (Some (even_block 600 0x1f0fffff 3)) block_state); try done.
Defined.
