(* ===== verification/Genesis.v ===== *)
(** * The genesis block of the main network (kernel/chainparams.cpp)

    The block that the code builds at start, and the assertions about it, evaluated with the modelled script encoding, serialization
    and SHA-256. *)

From S2P Require Import Prelude ValidationState Serialize ArithUint256 Chain Params Subsidy Transaction Script Merkle Hash Block.
#[local] Open Scope Z_scope.

Definition string_bytes (s : string) : list Z := map (fun c => Z.of_nat (Ascii.nat_of_ascii c)) (String.list_ascii_of_string s).

Definition CreateGenesisBlock_with (pszTimestamp : string) (genesisOutputScript : CScript) (nTime nNonce nBits nVersion genesisReward : Z) : option CBlock :=
  script ← push_int64 [] 486604799;
  four ← CScriptNum_serialize 4;
  let scriptSig := push_data (push_data script four) (string_bytes pszTimestamp) in
  let txNew := mkTx [mkTxIn (mkOutPoint 0 NULL_INDEX) scriptSig SEQUENCE_FINAL []] [mkTxOut genesisReward genesisOutputScript] 1 0 in
  '(root, _) ← BlockMerkleRoot (new_block (mkHeader nVersion 0 0 nTime nBits nNonce) [txNew]);
  Some (new_block (mkHeader nVersion 0 root nTime nBits nNonce) [txNew]).

(** The public key of the output, in hexadecimal notation in the source. *)
Definition genesis_key : list Z :=
  rev (le_bytes 65 0x04678afdb0fe5548271967f1a67130b7105cd6a828e03909a67962e0ea1f61deb649f6bc3f4cef38c4f35504e51ec112de5c384df7ba0b8d578a4c702b6bf11d5f).

Definition CreateGenesisBlock (nTime nNonce nBits nVersion genesisReward : Z) : option CBlock :=
  let genesisOutputScript := push_data [] genesis_key ++ [OP_CHECKSIG] in
  CreateGenesisBlock_with "BTC3 Fork 2025 - A New Beginning for Bitcoin" genesisOutputScript nTime nNonce nBits nVersion genesisReward.

(** The genesis block of the main network. *)
Definition main_genesis : option CBlock := CreateGenesisBlock 1766971600 805306957 0x1f00ffff 1 (50 * COIN).


(** The assertions of the main network about its genesis block hold: the block built by the code has the asserted hash and Merkle root,
    computed with the modelled serialization and SHA-256, and it passes the context-free block checks. *)
Theorem main_genesis_asserted (signet : CBlock -> bool) :
  exists b, main_genesis = Some b /\
    CBlockHeader_GetHash (header b) = hashGenesisBlock CMainParams /\
    hashMerkleRoot (header b) = 0xd086f74285d50bb21873d47b675d88a5886c1535f7650b1803bb5ad3b0abbe67 /\
    CheckBlock signet CMainParams b block_state true true = Some (true, block_state, mkBlock (header b) (vtx b) true false true).
Proof.
  destruct main_genesis as [b|] eqn:E; [|vm_compute in E; discriminate]. exists b. split; [done|].
  vm_compute in E. injection E as <-.
  split; [vm_compute; reflexivity|]. split; [reflexivity|]. vm_compute. reflexivity.
Qed.
