(* ===== verification/Interpreter.v ===== *)
(** * The script interpreter: script/interpreter.cpp, script/interpreter.h, script/script_error.h

    [EvalScript] with everything it calls except the signature checker, which is a class of operations on a state ([BaseSignatureChecker]), as it is an
    abstract class of the source; [Sighash] has the checker for transactions. A stack is the list of its elements with the top first, so that
    [stacktop(-i)] is element [i - 1]. Iterators into a script are the part of it that is left. *)

From S2P Require Import Prelude Serialize ArithUint256 Chain Params Transaction Script Sha256 Sha256Spec Hash Hash160.
#[local] Open Scope Z_scope.

(** ** Results *)

(** [ScriptError] *)
Inductive ScriptError :=
  | SCRIPT_ERR_OK | SCRIPT_ERR_UNKNOWN_ERROR | SCRIPT_ERR_EVAL_FALSE | SCRIPT_ERR_OP_RETURN
  | SCRIPT_ERR_SCRIPT_SIZE | SCRIPT_ERR_PUSH_SIZE | SCRIPT_ERR_OP_COUNT | SCRIPT_ERR_STACK_SIZE | SCRIPT_ERR_SIG_COUNT
  | SCRIPT_ERR_PUBKEY_COUNT
  | SCRIPT_ERR_VERIFY | SCRIPT_ERR_EQUALVERIFY | SCRIPT_ERR_CHECKMULTISIGVERIFY | SCRIPT_ERR_CHECKSIGVERIFY | SCRIPT_ERR_NUMEQUALVERIFY
  | SCRIPT_ERR_BAD_OPCODE | SCRIPT_ERR_DISABLED_OPCODE | SCRIPT_ERR_INVALID_STACK_OPERATION | SCRIPT_ERR_INVALID_ALTSTACK_OPERATION
  | SCRIPT_ERR_UNBALANCED_CONDITIONAL
  | SCRIPT_ERR_NEGATIVE_LOCKTIME | SCRIPT_ERR_UNSATISFIED_LOCKTIME
  | SCRIPT_ERR_SIG_HASHTYPE | SCRIPT_ERR_SIG_DER | SCRIPT_ERR_MINIMALDATA | SCRIPT_ERR_SIG_PUSHONLY | SCRIPT_ERR_SIG_HIGH_S
  | SCRIPT_ERR_SIG_NULLDUMMY | SCRIPT_ERR_PUBKEYTYPE | SCRIPT_ERR_CLEANSTACK | SCRIPT_ERR_MINIMALIF | SCRIPT_ERR_SIG_NULLFAIL
  | SCRIPT_ERR_DISCOURAGE_UPGRADABLE_NOPS | SCRIPT_ERR_DISCOURAGE_UPGRADABLE_WITNESS_PROGRAM
  | SCRIPT_ERR_DISCOURAGE_UPGRADABLE_TAPROOT_VERSION | SCRIPT_ERR_DISCOURAGE_OP_SUCCESS | SCRIPT_ERR_DISCOURAGE_UPGRADABLE_PUBKEYTYPE
  | SCRIPT_ERR_WITNESS_PROGRAM_WRONG_LENGTH | SCRIPT_ERR_WITNESS_PROGRAM_WITNESS_EMPTY | SCRIPT_ERR_WITNESS_PROGRAM_MISMATCH
  | SCRIPT_ERR_WITNESS_MALLEATED | SCRIPT_ERR_WITNESS_MALLEATED_P2SH | SCRIPT_ERR_WITNESS_UNEXPECTED | SCRIPT_ERR_WITNESS_PUBKEYTYPE
  | SCRIPT_ERR_SCHNORR_SIG_SIZE | SCRIPT_ERR_SCHNORR_SIG_HASHTYPE | SCRIPT_ERR_SCHNORR_SIG | SCRIPT_ERR_TAPROOT_WRONG_CONTROL_SIZE
  | SCRIPT_ERR_TAPSCRIPT_VALIDATION_WEIGHT | SCRIPT_ERR_TAPSCRIPT_CHECKMULTISIG | SCRIPT_ERR_TAPSCRIPT_MINIMALIF
  | SCRIPT_ERR_TAPSCRIPT_EMPTY_PUBKEY
  | SCRIPT_ERR_OP_CODESEPARATOR | SCRIPT_ERR_SIG_FINDANDDELETE.

(** The exceptions that the code can throw: a bad script number, [at] out of range, [popstack] of an empty stack. *)
Inductive exn := scriptnum_error | out_of_range | runtime_error.

(** How a piece of code ends: it goes on with a value, it returns false after setting the error ([None] leaves the error as it is), it throws, or it aborts
    on a failed assertion or undefined behaviour. *)
Inductive result (A : Type) := Ret (a : A) | Fail (e : option ScriptError) | Throw (x : exn) | Abort.
Arguments Ret {_}.
Arguments Fail {_}.
Arguments Throw {_}.
Arguments Abort {_}.

#[export] Instance result_bind : MBind result :=
  fun A B f m => match m with Ret a => f a | Fail e => Fail e | Throw x => Throw x | Abort => Abort end.

Definition set_error {A : Type} (e : ScriptError) : result A := Fail (Some e).
Definition assert_that (b : bool) : result unit := if b then Ret tt else Abort.

(** Returning false with the error [serror] where the code leaves the error untouched. *)
Definition with_serror {A : Type} (serror : ScriptError) (m : result A) : result A :=
  match m with Fail None => Fail (Some serror) | m => m end.

(** ** Constants *)

Definition SCRIPT_VERIFY_STRICTENC : Z := Z.shiftl 1 1.
Definition SCRIPT_VERIFY_LOW_S : Z := Z.shiftl 1 3.
Definition SCRIPT_VERIFY_SIGPUSHONLY : Z := Z.shiftl 1 5.
Definition SCRIPT_VERIFY_MINIMALDATA : Z := Z.shiftl 1 6.
Definition SCRIPT_VERIFY_DISCOURAGE_UPGRADABLE_NOPS : Z := Z.shiftl 1 7.
Definition SCRIPT_VERIFY_CLEANSTACK : Z := Z.shiftl 1 8.
Definition SCRIPT_VERIFY_DISCOURAGE_UPGRADABLE_WITNESS_PROGRAM : Z := Z.shiftl 1 12.
Definition SCRIPT_VERIFY_MINIMALIF : Z := Z.shiftl 1 13.
Definition SCRIPT_VERIFY_NULLFAIL : Z := Z.shiftl 1 14.
Definition SCRIPT_VERIFY_WITNESS_PUBKEYTYPE : Z := Z.shiftl 1 15.
Definition SCRIPT_VERIFY_CONST_SCRIPTCODE : Z := Z.shiftl 1 16.
Definition SCRIPT_VERIFY_DISCOURAGE_UPGRADABLE_TAPROOT_VERSION : Z := Z.shiftl 1 18.
Definition SCRIPT_VERIFY_DISCOURAGE_OP_SUCCESS : Z := Z.shiftl 1 19.
Definition SCRIPT_VERIFY_DISCOURAGE_UPGRADABLE_PUBKEYTYPE : Z := Z.shiftl 1 20.

(** [flags & flag] as a condition. *)
Definition has_flag (flags flag : Z) : bool := negb (Z.land flags flag =? 0).

Definition OP_NOP : Z := 0x61.
Definition OP_IF : Z := 0x63.
Definition OP_NOTIF : Z := 0x64.
Definition OP_ELSE : Z := 0x67.
Definition OP_ENDIF : Z := 0x68.
Definition OP_VERIFY : Z := 0x69.
Definition OP_TOALTSTACK : Z := 0x6b.
Definition OP_FROMALTSTACK : Z := 0x6c.
Definition OP_2DROP : Z := 0x6d.
Definition OP_2DUP : Z := 0x6e.
Definition OP_3DUP : Z := 0x6f.
Definition OP_2OVER : Z := 0x70.
Definition OP_2ROT : Z := 0x71.
Definition OP_2SWAP : Z := 0x72.
Definition OP_IFDUP : Z := 0x73.
Definition OP_DEPTH : Z := 0x74.
Definition OP_DROP : Z := 0x75.
Definition OP_DUP : Z := 0x76.
Definition OP_NIP : Z := 0x77.
Definition OP_OVER : Z := 0x78.
Definition OP_PICK : Z := 0x79.
Definition OP_ROLL : Z := 0x7a.
Definition OP_ROT : Z := 0x7b.
Definition OP_SWAP : Z := 0x7c.
Definition OP_TUCK : Z := 0x7d.
Definition OP_CAT : Z := 0x7e.
Definition OP_SUBSTR : Z := 0x7f.
Definition OP_LEFT : Z := 0x80.
Definition OP_RIGHT : Z := 0x81.
Definition OP_SIZE : Z := 0x82.
Definition OP_INVERT : Z := 0x83.
Definition OP_AND : Z := 0x84.
Definition OP_OR : Z := 0x85.
Definition OP_XOR : Z := 0x86.
Definition OP_EQUALVERIFY : Z := 0x88.
Definition OP_1ADD : Z := 0x8b.
Definition OP_1SUB : Z := 0x8c.
Definition OP_2MUL : Z := 0x8d.
Definition OP_2DIV : Z := 0x8e.
Definition OP_NEGATE : Z := 0x8f.
Definition OP_ABS : Z := 0x90.
Definition OP_NOT : Z := 0x91.
Definition OP_0NOTEQUAL : Z := 0x92.
Definition OP_ADD : Z := 0x93.
Definition OP_SUB : Z := 0x94.
Definition OP_MUL : Z := 0x95.
Definition OP_DIV : Z := 0x96.
Definition OP_MOD : Z := 0x97.
Definition OP_LSHIFT : Z := 0x98.
Definition OP_RSHIFT : Z := 0x99.
Definition OP_BOOLAND : Z := 0x9a.
Definition OP_BOOLOR : Z := 0x9b.
Definition OP_NUMEQUAL : Z := 0x9c.
Definition OP_NUMEQUALVERIFY : Z := 0x9d.
Definition OP_NUMNOTEQUAL : Z := 0x9e.
Definition OP_LESSTHAN : Z := 0x9f.
Definition OP_GREATERTHAN : Z := 0xa0.
Definition OP_LESSTHANOREQUAL : Z := 0xa1.
Definition OP_GREATERTHANOREQUAL : Z := 0xa2.
Definition OP_MIN : Z := 0xa3.
Definition OP_MAX : Z := 0xa4.
Definition OP_WITHIN : Z := 0xa5.
Definition OP_RIPEMD160 : Z := 0xa6.
Definition OP_SHA1 : Z := 0xa7.
Definition OP_SHA256 : Z := 0xa8.
Definition OP_HASH256 : Z := 0xaa.
Definition OP_CODESEPARATOR : Z := 0xab.
Definition OP_NOP1 : Z := 0xb0.
Definition OP_CHECKLOCKTIMEVERIFY : Z := 0xb1.
Definition OP_CHECKSEQUENCEVERIFY : Z := 0xb2.
Definition OP_NOP4 : Z := 0xb3.
Definition OP_NOP5 : Z := 0xb4.
Definition OP_NOP6 : Z := 0xb5.
Definition OP_NOP7 : Z := 0xb6.
Definition OP_NOP8 : Z := 0xb7.
Definition OP_NOP9 : Z := 0xb8.
Definition OP_CHECKSIGADD : Z := 0xba.

Definition MAX_OPS_PER_SCRIPT : Z := 201.
Definition MAX_STACK_SIZE : Z := 1000.
Definition VALIDATION_WEIGHT_PER_SIGOP_PASSED : Z := 50.
Definition SIGHASH_ALL : Z := 1.
Definition SIGHASH_NONE : Z := 2.
Definition SIGHASH_SINGLE : Z := 3.
Definition SIGHASH_ANYONECANPAY : Z := 0x80.
Definition SIGHASH_DEFAULT : Z := 0.
Definition COMPRESSED_SIZE : nat := 33.
Definition PUBKEY_SIZE : nat := 65.

(** [SigVersion] *)
Inductive SigVersion := BASE | WITNESS_V0 | TAPROOT | TAPSCRIPT.

#[export] Instance SigVersion_eq_dec : EqDecision SigVersion.
Proof. solve_decision. Defined.

Definition is_one_of (opcode : Z) (l : list Z) : bool := existsb (Z.eqb opcode) l.

(** ** Values *)

Abbreviation valtype := (list Z) (only parsing).

(** [CastToBool] *)
Fixpoint CastToBool (vch : valtype) : bool :=
  match vch with
  | [] => false
  | b :: vch' => if negb (b =? 0) then negb (bool_decide (vch' = []) && (b =? 0x80)) else CastToBool vch'
  end.

Definition vchFalse : valtype := [].
Definition vchTrue : valtype := [1].
Definition bool_vch (b : bool) : valtype := if b then vchTrue else vchFalse.

(** ** Public keys and signatures *)

(** [IsCompressedOrUncompressedPubKey], [IsCompressedPubKey] *)
Definition IsCompressedOrUncompressedPubKey (vchPubKey : valtype) : bool :=
  if (length vchPubKey <? COMPRESSED_SIZE)%nat then false
  else if vchPubKey !!! 0%nat =? 0x04 then (length vchPubKey =? PUBKEY_SIZE)%nat
  else if (vchPubKey !!! 0%nat =? 0x02) || (vchPubKey !!! 0%nat =? 0x03) then (length vchPubKey =? COMPRESSED_SIZE)%nat
  else false.
Definition IsCompressedPubKey (vchPubKey : valtype) : bool :=
  if negb (length vchPubKey =? COMPRESSED_SIZE)%nat then false
  else (vchPubKey !!! 0%nat =? 0x02) || (vchPubKey !!! 0%nat =? 0x03).

(** [IsValidSignatureEncoding] *)
Definition IsValidSignatureEncoding (sig : valtype) : bool :=
  let size := Z.of_nat (length sig) in
  let at_ i := sig !!! Z.to_nat i in
  if size <? 9 then false
  else if size >? 73 then false
  else if negb (at_ 0 =? 0x30) then false
  else if negb (at_ 1 =? size - 3) then false
  else
  let lenR := at_ 3 in
  if 5 + lenR >=? size then false
  else
  let lenS := at_ (5 + lenR) in
  if negb (lenR + lenS + 7 =? size) then false
  else if negb (at_ 2 =? 0x02) then false
  else if lenR =? 0 then false
  else if negb (Z.land (at_ 4) 0x80 =? 0) then false
  else if (lenR >? 1) && (at_ 4 =? 0) && (Z.land (at_ 5) 0x80 =? 0) then false
  else if negb (at_ (lenR + 4) =? 0x02) then false
  else if lenS =? 0 then false
  else if negb (Z.land (at_ (lenR + 6)) 0x80 =? 0) then false
  else if (lenS >? 1) && (at_ (lenR + 6) =? 0) && (Z.land (at_ (lenR + 7)) 0x80 =? 0) then false
  else true.

(** [IsDefinedHashtypeSignature] *)
Definition IsDefinedHashtypeSignature (vchSig : valtype) : bool :=
  match last vchSig with
  | None => false
  | Some b =>
      let nHashType := Z.land b (u8 (Z.lnot SIGHASH_ANYONECANPAY)) in
      negb ((nHashType <? SIGHASH_ALL) || (nHashType >? SIGHASH_SINGLE))
  end.

Section Encodings.
(** [CPubKey::CheckLowS], a call of libsecp256k1. *)
Context (CheckLowS : list Z -> bool).

(** [IsLowDERSignature]; the hash type is not part of the DER signature. *)
Definition IsLowDERSignature (vchSig : valtype) : result unit :=
  if negb (IsValidSignatureEncoding vchSig) then set_error SCRIPT_ERR_SIG_DER
  else if negb (CheckLowS (take (length vchSig - 1) vchSig)) then set_error SCRIPT_ERR_SIG_HIGH_S
  else Ret tt.

(** [CheckSignatureEncoding] *)
Definition CheckSignatureEncoding (vchSig : valtype) (flags : Z) : result unit :=
  if (length vchSig =? 0)%nat then Ret tt
  else if has_flag flags (Z.lor (Z.lor SCRIPT_VERIFY_DERSIG SCRIPT_VERIFY_LOW_S) SCRIPT_VERIFY_STRICTENC)
          && negb (IsValidSignatureEncoding vchSig) then set_error SCRIPT_ERR_SIG_DER
  else
  _ ← (if has_flag flags SCRIPT_VERIFY_LOW_S then IsLowDERSignature vchSig else Ret tt);
  if has_flag flags SCRIPT_VERIFY_STRICTENC && negb (IsDefinedHashtypeSignature vchSig) then set_error SCRIPT_ERR_SIG_HASHTYPE
  else Ret tt.
End Encodings.

(** [CheckPubKeyEncoding] *)
Definition CheckPubKeyEncoding (vchPubKey : valtype) (flags : Z) (sigversion : SigVersion) : result unit :=
  if has_flag flags SCRIPT_VERIFY_STRICTENC && negb (IsCompressedOrUncompressedPubKey vchPubKey) then set_error SCRIPT_ERR_PUBKEYTYPE
  else if has_flag flags SCRIPT_VERIFY_WITNESS_PUBKEYTYPE && bool_decide (sigversion = WITNESS_V0) && negb (IsCompressedPubKey vchPubKey)
       then set_error SCRIPT_ERR_WITNESS_PUBKEYTYPE
  else Ret tt.

(** ** Deleting signatures from a script *)

(** The inner loop of [FindAndDelete]: the copies of [b] at [pc], and how many they are. *)
Fixpoint skip_copies (fuel : nat) (b pc : list Z) (nFound : Z) : option (list Z * Z) :=
  if (length b <=? length pc)%nat && bool_decide (take (length b) pc = b) then
    match fuel with O => None | S fuel' => skip_copies fuel' b (drop (length b) pc) (nFound + 1) end
  else Some (pc, nFound).

(** The outer loop: what was kept, where the last copy ended, and the count. The bytes between [pc2] and [pc] are kept. *)
Fixpoint FindAndDelete_loop (fuel : nat) (b pc2 pc result : list Z) (nFound : Z) : option (list Z * list Z * Z) :=
  match fuel with
  | O => None
  | S fuel' =>
      let result := result ++ take (length pc2 - length pc) pc2 in
      '(pc, nFound) ← skip_copies (length pc) b pc nFound;
      let op := GetScriptOp pc in
      if op_ok op then FindAndDelete_loop fuel' b pc (op_rest op) result nFound else Some (result, pc, nFound)
  end.

(** [FindAndDelete]: the script and the number of copies found. *)
Definition FindAndDelete (script b : CScript) : option (CScript * Z) :=
  match b with
  | [] => Some (script, 0)
  | _ =>
      '(result, pc2, nFound) ← FindAndDelete_loop (S (length script)) b script script [] 0;
      Some (if nFound >? 0 then result ++ pc2 else script, nFound)
  end.

(** ** The condition stack *)

Definition NO_FALSE : Z := 2 ^ 32 - 1.

Record ConditionStack := mkCond { m_stack_size : Z; m_first_false_pos : Z }.

Definition cond_new : ConditionStack := mkCond 0 NO_FALSE.
Definition cond_empty (c : ConditionStack) : bool := m_stack_size c =? 0.
Definition all_true (c : ConditionStack) : bool := m_first_false_pos c =? NO_FALSE.
Definition cond_push (c : ConditionStack) (f : bool) : ConditionStack :=
  mkCond (u32 (m_stack_size c + 1))
    (if (m_first_false_pos c =? NO_FALSE) && negb f then m_stack_size c else m_first_false_pos c).
Definition cond_pop (c : ConditionStack) : result ConditionStack :=
  _ ← assert_that (m_stack_size c >? 0);
  let size := u32 (m_stack_size c - 1) in
  Ret (mkCond size (if m_first_false_pos c =? size then NO_FALSE else m_first_false_pos c)).
Definition toggle_top (c : ConditionStack) : result ConditionStack :=
  _ ← assert_that (m_stack_size c >? 0);
  let top := u32 (m_stack_size c - 1) in
  Ret (if m_first_false_pos c =? NO_FALSE then mkCond (m_stack_size c) top
       else if m_first_false_pos c =? top then mkCond (m_stack_size c) NO_FALSE
       else c).

(** ** The signature checker *)

(** [ScriptExecutionData] *)
Record ScriptExecutionData := mkExecData {
  m_tapleaf_hash_init : bool;
  m_tapleaf_hash : uint256;
  m_codeseparator_pos_init : bool;
  m_codeseparator_pos : Z;
  m_annex_init : bool;
  m_annex_present : bool;
  m_annex_hash : uint256;
  m_validation_weight_left_init : bool;
  m_validation_weight_left : Z;
  m_output_hash : option uint256
}.

Definition set_codeseparator (d : ScriptExecutionData) (pos : Z) : ScriptExecutionData :=
  mkExecData (m_tapleaf_hash_init d) (m_tapleaf_hash d) true pos (m_annex_init d) (m_annex_present d) (m_annex_hash d)
    (m_validation_weight_left_init d) (m_validation_weight_left d) (m_output_hash d).
Definition set_weight (d : ScriptExecutionData) (w : Z) : ScriptExecutionData :=
  mkExecData (m_tapleaf_hash_init d) (m_tapleaf_hash d) (m_codeseparator_pos_init d) (m_codeseparator_pos d) (m_annex_init d)
    (m_annex_present d) (m_annex_hash d) (m_validation_weight_left_init d) w (m_output_hash d).

(** [BaseSignatureChecker]: the operations that a checker overrides, on the state of the checker (its [mutable] members). *)
Class BaseSignatureChecker (C : Type) := {
  CheckECDSASignature : C -> valtype -> valtype -> CScript -> SigVersion -> result (bool * C);
  CheckSchnorrSignature : C -> valtype -> valtype -> SigVersion -> ScriptExecutionData -> result (ScriptExecutionData * C);
  CheckLockTime : C -> Z -> result bool;
  CheckSequence : C -> Z -> result bool
}.

(** ** The stack *)

Definition stacktop (stack : list valtype) (i : nat) : result valtype :=
  match stack !! (i - 1)%nat with Some v => Ret v | None => Throw out_of_range end.
Definition popstack (stack : list valtype) : result (list valtype) :=
  match stack with [] => Throw runtime_error | _ :: s => Ret s end.

(** [if (stack.size() < n) return set_error(serror, e)] *)
Definition need (n : nat) (stack : list valtype) (e : ScriptError) : result unit :=
  if (length stack <? n)%nat then set_error e else Ret tt.

(** [swap(stacktop(-i), stacktop(-j))] *)
Definition swaptop (stack : list valtype) (i j : nat) : result (list valtype) :=
  x ← stacktop stack i;
  y ← stacktop stack j;
  Ret (<[(j - 1)%nat := x]> (<[(i - 1)%nat := y]> stack)).

(** [stack.erase(stack.end() - a, stack.end() - b)] *)
Definition erase_top (stack : list valtype) (a b : nat) : list valtype := take b stack ++ drop a stack.

(** [CScriptNum(vch, fRequireMinimal, nMaxNumSize)], [getvch] and the arithmetic that asserts the absence of overflow. *)
Definition script_num (vch : valtype) (fRequireMinimal : bool) (nMaxNumSize : Z) : result Z :=
  match CScriptNum vch fRequireMinimal nMaxNumSize with Some n => Ret n | None => Throw scriptnum_error end.
Definition getvch (n : Z) : result valtype := match CScriptNum_serialize n with Some v => Ret v | None => Abort end.
Definition checked_i64 (n : Z) : result Z := if (- 2 ^ 63 <=? n) && (n <? 2 ^ 63) then Ret n else Abort.

(** The cases of the stack opcodes, on the stack and the alternative stack. *)
Definition stack_op (opcode : Z) (fRequireMinimal : bool) (stack altstack : list valtype) : result (list valtype * list valtype) :=
  let invalid := SCRIPT_ERR_INVALID_STACK_OPERATION in
  if opcode =? OP_TOALTSTACK then
    _ ← need 1 stack invalid; x ← stacktop stack 1; stack ← popstack stack; Ret (stack, x :: altstack)
  else if opcode =? OP_FROMALTSTACK then
    _ ← need 1 altstack SCRIPT_ERR_INVALID_ALTSTACK_OPERATION; x ← stacktop altstack 1; altstack ← popstack altstack;
    Ret (x :: stack, altstack)
  else if opcode =? OP_2DROP then
    _ ← need 2 stack invalid; stack ← popstack stack; stack ← popstack stack; Ret (stack, altstack)
  else if opcode =? OP_2DUP then
    _ ← need 2 stack invalid; vch1 ← stacktop stack 2; vch2 ← stacktop stack 1; Ret (vch2 :: vch1 :: stack, altstack)
  else if opcode =? OP_3DUP then
    _ ← need 3 stack invalid; vch1 ← stacktop stack 3; vch2 ← stacktop stack 2; vch3 ← stacktop stack 1;
    Ret (vch3 :: vch2 :: vch1 :: stack, altstack)
  else if opcode =? OP_2OVER then
    _ ← need 4 stack invalid; vch1 ← stacktop stack 4; vch2 ← stacktop stack 3; Ret (vch2 :: vch1 :: stack, altstack)
  else if opcode =? OP_2ROT then
    _ ← need 6 stack invalid; vch1 ← stacktop stack 6; vch2 ← stacktop stack 5;
    Ret (vch2 :: vch1 :: erase_top stack 6 4, altstack)
  else if opcode =? OP_2SWAP then
    _ ← need 4 stack invalid; stack ← swaptop stack 4 2; stack ← swaptop stack 3 1; Ret (stack, altstack)
  else if opcode =? OP_IFDUP then
    _ ← need 1 stack invalid; vch ← stacktop stack 1; Ret (if CastToBool vch then vch :: stack else stack, altstack)
  else if opcode =? OP_DEPTH then
    vch ← getvch (Z.of_nat (length stack)); Ret (vch :: stack, altstack)
  else if opcode =? OP_DROP then
    _ ← need 1 stack invalid; stack ← popstack stack; Ret (stack, altstack)
  else if opcode =? OP_DUP then
    _ ← need 1 stack invalid; vch ← stacktop stack 1; Ret (vch :: stack, altstack)
  else if opcode =? OP_NIP then
    _ ← need 2 stack invalid; Ret (erase_top stack 2 1, altstack)
  else if opcode =? OP_OVER then
    _ ← need 2 stack invalid; vch ← stacktop stack 2; Ret (vch :: stack, altstack)
  else if (opcode =? OP_PICK) || (opcode =? OP_ROLL) then
    _ ← need 2 stack invalid;
    top ← stacktop stack 1;
    num ← script_num top fRequireMinimal 4;
    let n := getint num in
    stack ← popstack stack;
    if (n <? 0) || (n >=? Z.of_nat (length stack)) then set_error invalid
    else
    vch ← stacktop stack (Z.to_nat n + 1);
    Ret (vch :: (if opcode =? OP_ROLL then erase_top stack (Z.to_nat n + 1) (Z.to_nat n) else stack), altstack)
  else if opcode =? OP_ROT then
    _ ← need 3 stack invalid; stack ← swaptop stack 3 2; stack ← swaptop stack 2 1; Ret (stack, altstack)
  else if opcode =? OP_SWAP then
    _ ← need 2 stack invalid; stack ← swaptop stack 2 1; Ret (stack, altstack)
  else if opcode =? OP_TUCK then
    _ ← need 2 stack invalid; vch ← stacktop stack 1; Ret (take 2 stack ++ vch :: drop 2 stack, altstack)
  else set_error SCRIPT_ERR_BAD_OPCODE.

Definition stack_opcodes : list Z :=
  [OP_TOALTSTACK; OP_FROMALTSTACK; OP_2DROP; OP_2DUP; OP_3DUP; OP_2OVER; OP_2ROT; OP_2SWAP; OP_IFDUP; OP_DEPTH; OP_DROP; OP_DUP; OP_NIP;
   OP_OVER; OP_PICK; OP_ROLL; OP_ROT; OP_SWAP; OP_TUCK].

(** ** Numbers *)

Definition unary_opcodes : list Z := [OP_1ADD; OP_1SUB; OP_NEGATE; OP_ABS; OP_NOT; OP_0NOTEQUAL].

Definition unary_num (opcode bn : Z) : result Z :=
  if opcode =? OP_1ADD then checked_i64 (bn + 1)
  else if opcode =? OP_1SUB then checked_i64 (bn - 1)
  else if opcode =? OP_NEGATE then checked_i64 (- bn)
  else if opcode =? OP_ABS then (if bn <? 0 then checked_i64 (- bn) else Ret bn)
  else if opcode =? OP_NOT then Ret (Z.b2z (bn =? 0))
  else if opcode =? OP_0NOTEQUAL then Ret (Z.b2z (negb (bn =? 0)))
  else Abort.

Definition unary_op (opcode : Z) (fRequireMinimal : bool) (stack : list valtype) : result (list valtype) :=
  _ ← need 1 stack SCRIPT_ERR_INVALID_STACK_OPERATION;
  top ← stacktop stack 1;
  bn ← script_num top fRequireMinimal 4;
  bn ← unary_num opcode bn;
  stack ← popstack stack;
  vch ← getvch bn;
  Ret (vch :: stack).

Definition binary_opcodes : list Z :=
  [OP_ADD; OP_SUB; OP_BOOLAND; OP_BOOLOR; OP_NUMEQUAL; OP_NUMEQUALVERIFY; OP_NUMNOTEQUAL; OP_LESSTHAN; OP_GREATERTHAN;
   OP_LESSTHANOREQUAL; OP_GREATERTHANOREQUAL; OP_MIN; OP_MAX].

Definition binary_num (opcode bn1 bn2 : Z) : result Z :=
  if opcode =? OP_ADD then checked_i64 (bn1 + bn2)
  else if opcode =? OP_SUB then checked_i64 (bn1 - bn2)
  else if opcode =? OP_BOOLAND then Ret (Z.b2z (negb (bn1 =? 0) && negb (bn2 =? 0)))
  else if opcode =? OP_BOOLOR then Ret (Z.b2z (negb (bn1 =? 0) || negb (bn2 =? 0)))
  else if opcode =? OP_NUMEQUAL then Ret (Z.b2z (bn1 =? bn2))
  else if opcode =? OP_NUMEQUALVERIFY then Ret (Z.b2z (bn1 =? bn2))
  else if opcode =? OP_NUMNOTEQUAL then Ret (Z.b2z (negb (bn1 =? bn2)))
  else if opcode =? OP_LESSTHAN then Ret (Z.b2z (bn1 <? bn2))
  else if opcode =? OP_GREATERTHAN then Ret (Z.b2z (bn1 >? bn2))
  else if opcode =? OP_LESSTHANOREQUAL then Ret (Z.b2z (bn1 <=? bn2))
  else if opcode =? OP_GREATERTHANOREQUAL then Ret (Z.b2z (bn1 >=? bn2))
  else if opcode =? OP_MIN then Ret (if bn1 <? bn2 then bn1 else bn2)
  else if opcode =? OP_MAX then Ret (if bn1 >? bn2 then bn1 else bn2)
  else Abort.

Definition binary_op (opcode : Z) (fRequireMinimal : bool) (stack : list valtype) : result (list valtype) :=
  _ ← need 2 stack SCRIPT_ERR_INVALID_STACK_OPERATION;
  x1 ← stacktop stack 2;
  bn1 ← script_num x1 fRequireMinimal 4;
  x2 ← stacktop stack 1;
  bn2 ← script_num x2 fRequireMinimal 4;
  bn ← binary_num opcode bn1 bn2;
  stack ← popstack stack;
  stack ← popstack stack;
  vch ← getvch bn;
  let stack := vch :: stack in
  if opcode =? OP_NUMEQUALVERIFY then
    top ← stacktop stack 1;
    if CastToBool top then popstack stack else set_error SCRIPT_ERR_NUMEQUALVERIFY
  else Ret stack.

Definition within_op (fRequireMinimal : bool) (stack : list valtype) : result (list valtype) :=
  _ ← need 3 stack SCRIPT_ERR_INVALID_STACK_OPERATION;
  x1 ← stacktop stack 3;
  bn1 ← script_num x1 fRequireMinimal 4;
  x2 ← stacktop stack 2;
  bn2 ← script_num x2 fRequireMinimal 4;
  x3 ← stacktop stack 1;
  bn3 ← script_num x3 fRequireMinimal 4;
  stack ← popstack stack;
  stack ← popstack stack;
  stack ← popstack stack;
  Ret (bool_vch ((bn2 <=? bn1) && (bn1 <? bn3)) :: stack).

Definition equal_op (opcode : Z) (stack : list valtype) : result (list valtype) :=
  _ ← need 2 stack SCRIPT_ERR_INVALID_STACK_OPERATION;
  vch1 ← stacktop stack 2;
  vch2 ← stacktop stack 1;
  let fEqual := bool_decide (vch1 = vch2) in
  stack ← popstack stack;
  stack ← popstack stack;
  let stack := bool_vch fEqual :: stack in
  if opcode =? OP_EQUALVERIFY then (if fEqual then popstack stack else set_error SCRIPT_ERR_EQUALVERIFY) else Ret stack.

Definition size_op (stack : list valtype) : result (list valtype) :=
  _ ← need 1 stack SCRIPT_ERR_INVALID_STACK_OPERATION;
  top ← stacktop stack 1;
  vch ← getvch (Z.of_nat (length top));
  Ret (vch :: stack).

(** ** Hashes *)

Definition hash_opcodes : list Z := [OP_RIPEMD160; OP_SHA1; OP_SHA256; OP_HASH160; OP_HASH256].

Definition hash_vch (opcode : Z) (vch : valtype) : valtype :=
  if opcode =? OP_RIPEMD160 then CRIPEMD160_Finalize (CRIPEMD160_Write (CRIPEMD160_new (repeat 0 64)) vch)
  else if opcode =? OP_SHA1 then CSHA1_Finalize (CSHA1_Write (CSHA1_new (repeat 0 64)) vch)
  else if opcode =? OP_SHA256 then snd (CSHA256_Finalize (CSHA256_Write new_hasher vch))
  else if opcode =? OP_HASH160 then CHash160_Finalize (CSHA256_Write new_hasher vch) (repeat 0 64)
  else snd (CHash256_Finalize (CSHA256_Write new_hasher vch)).

Definition hash_op (opcode : Z) (stack : list valtype) : result (list valtype) :=
  _ ← need 1 stack SCRIPT_ERR_INVALID_STACK_OPERATION;
  vch ← stacktop stack 1;
  stack ← popstack stack;
  Ret (hash_vch opcode vch :: stack).

(** ** Execution *)

Section EvalScript.
Context (CheckLowS : list Z -> bool) {C : Type} {HC : BaseSignatureChecker C}.

(** [script_code] without the pushes of a signature, in scripts that are not witness scripts. *)
Definition drop_signature (scriptCode : CScript) (vchSig : valtype) (flags : Z) (sigversion : SigVersion) : result CScript :=
  if bool_decide (sigversion = BASE) then
    match FindAndDelete scriptCode (push_data [] vchSig) with
    | None => Abort
    | Some (scriptCode, found) =>
        if (found >? 0) && has_flag flags SCRIPT_VERIFY_CONST_SCRIPTCODE then set_error SCRIPT_ERR_SIG_FINDANDDELETE else Ret scriptCode
    end
  else Ret scriptCode.

(** [EvalChecksigPreTapscript] *)
Definition EvalChecksigPreTapscript (vchSig vchPubKey : valtype) (pbegincodehash : CScript) (flags : Z) (sigversion : SigVersion) (c : C) :
    result (bool * C) :=
  _ ← assert_that (bool_decide (sigversion = BASE) || bool_decide (sigversion = WITNESS_V0));
  scriptCode ← drop_signature pbegincodehash vchSig flags sigversion;
  _ ← CheckSignatureEncoding CheckLowS vchSig flags;
  _ ← CheckPubKeyEncoding vchPubKey flags sigversion;
  '(fSuccess, c) ← CheckECDSASignature c vchSig vchPubKey scriptCode sigversion;
  if negb fSuccess && has_flag flags SCRIPT_VERIFY_NULLFAIL && negb (length vchSig =? 0)%nat then set_error SCRIPT_ERR_SIG_NULLFAIL
  else Ret (fSuccess, c).

(** [EvalChecksigTapscript] *)
Definition EvalChecksigTapscript (sig pubkey : valtype) (execdata : ScriptExecutionData) (flags : Z) (sigversion : SigVersion) (c : C) :
    result (bool * ScriptExecutionData * C) :=
  _ ← assert_that (bool_decide (sigversion = TAPSCRIPT));
  let success := negb (length sig =? 0)%nat in
  execdata ←
    (if success then
       _ ← assert_that (m_validation_weight_left_init execdata);
       w ← checked_i64 (m_validation_weight_left execdata - VALIDATION_WEIGHT_PER_SIGOP_PASSED);
       if w <? 0 then set_error SCRIPT_ERR_TAPSCRIPT_VALIDATION_WEIGHT else Ret (set_weight execdata w)
     else Ret execdata);
  if (length pubkey =? 0)%nat then set_error SCRIPT_ERR_TAPSCRIPT_EMPTY_PUBKEY
  else if (length pubkey =? 32)%nat then
    if success then '(execdata, c) ← CheckSchnorrSignature c sig pubkey sigversion execdata; Ret (success, execdata, c)
    else Ret (success, execdata, c)
  else if has_flag flags SCRIPT_VERIFY_DISCOURAGE_UPGRADABLE_PUBKEYTYPE then set_error SCRIPT_ERR_DISCOURAGE_UPGRADABLE_PUBKEYTYPE
  else Ret (success, execdata, c).

(** [EvalChecksig] *)
Definition EvalChecksig (sig pubkey : valtype) (pbegincodehash : CScript) (execdata : ScriptExecutionData) (flags : Z) (sigversion : SigVersion)
    (c : C) : result (bool * ScriptExecutionData * C) :=
  match sigversion with
  | BASE | WITNESS_V0 =>
      '(fSuccess, c) ← EvalChecksigPreTapscript sig pubkey pbegincodehash flags sigversion c; Ret (fSuccess, execdata, c)
  | TAPSCRIPT => EvalChecksigTapscript sig pubkey execdata flags sigversion c
  | TAPROOT => Abort
  end.

(** The local variables of [EvalScript] that change, [execdata], and the state of the checker. *)
Record eval_state := mkEval {
  stack : list valtype;
  altstack : list valtype;
  vfExec : ConditionStack;
  nOpCount : Z;
  pbegincodehash : CScript;
  opcode_pos : Z;
  execdata : ScriptExecutionData;
  checker : C
}.

Definition set_stack (st : eval_state) (s : list valtype) : eval_state :=
  mkEval s (altstack st) (vfExec st) (nOpCount st) (pbegincodehash st) (opcode_pos st) (execdata st) (checker st).
Definition set_altstack (st : eval_state) (s : list valtype) : eval_state :=
  mkEval (stack st) s (vfExec st) (nOpCount st) (pbegincodehash st) (opcode_pos st) (execdata st) (checker st).
Definition set_vfExec (st : eval_state) (c : ConditionStack) : eval_state :=
  mkEval (stack st) (altstack st) c (nOpCount st) (pbegincodehash st) (opcode_pos st) (execdata st) (checker st).
Definition set_nOpCount (st : eval_state) (n : Z) : eval_state :=
  mkEval (stack st) (altstack st) (vfExec st) n (pbegincodehash st) (opcode_pos st) (execdata st) (checker st).
Definition set_opcode_pos (st : eval_state) (n : Z) : eval_state :=
  mkEval (stack st) (altstack st) (vfExec st) (nOpCount st) (pbegincodehash st) n (execdata st) (checker st).
Definition set_checker (st : eval_state) (d : ScriptExecutionData) (c : C) : eval_state :=
  mkEval (stack st) (altstack st) (vfExec st) (nOpCount st) (pbegincodehash st) (opcode_pos st) d c.
Definition set_codehash (st : eval_state) (pc : CScript) : eval_state :=
  mkEval (stack st) (altstack st) (vfExec st) (nOpCount st) pc (opcode_pos st) (set_codeseparator (execdata st) (opcode_pos st)) (checker st).

(** [OP_CHECKLOCKTIMEVERIFY], [OP_CHECKSEQUENCEVERIFY] *)
Definition locktime_op (opcode flags : Z) (fRequireMinimal : bool) (st : eval_state) : result eval_state :=
  if negb (has_flag flags (if opcode =? OP_CHECKLOCKTIMEVERIFY then SCRIPT_VERIFY_CHECKLOCKTIMEVERIFY else SCRIPT_VERIFY_CHECKSEQUENCEVERIFY))
  then Ret st
  else
  _ ← need 1 (stack st) SCRIPT_ERR_INVALID_STACK_OPERATION;
  top ← stacktop (stack st) 1;
  n ← script_num top fRequireMinimal 5;
  if n <? 0 then set_error SCRIPT_ERR_NEGATIVE_LOCKTIME
  else if opcode =? OP_CHECKLOCKTIMEVERIFY then
    ok ← CheckLockTime (checker st) n;
    if (ok : bool) then Ret st else set_error SCRIPT_ERR_UNSATISFIED_LOCKTIME
  else if negb (Z.land n (Z.shiftl 1 31) =? 0) then Ret st
  else
    ok ← CheckSequence (checker st) n;
    if (ok : bool) then Ret st else set_error SCRIPT_ERR_UNSATISFIED_LOCKTIME.

(** [OP_IF], [OP_NOTIF] *)
Definition if_op (opcode flags : Z) (sigversion : SigVersion) (fExec : bool) (st : eval_state) : result eval_state :=
  if fExec then
    _ ← need 1 (stack st) SCRIPT_ERR_UNBALANCED_CONDITIONAL;
    vch ← stacktop (stack st) 1;
    let minimal := negb ((1 <? length vch)%nat || ((length vch =? 1)%nat && negb (vch !!! 0%nat =? 1))) in
    if bool_decide (sigversion = TAPSCRIPT) && negb minimal then set_error SCRIPT_ERR_TAPSCRIPT_MINIMALIF
    else if bool_decide (sigversion = WITNESS_V0) && has_flag flags SCRIPT_VERIFY_MINIMALIF && negb minimal then set_error SCRIPT_ERR_MINIMALIF
    else
    let fValue := if opcode =? OP_NOTIF then negb (CastToBool vch) else CastToBool vch in
    s ← popstack (stack st);
    Ret (set_vfExec (set_stack st s) (cond_push (vfExec st) fValue))
  else Ret (set_vfExec st (cond_push (vfExec st) false)).

(** [OP_VERIFY] *)
Definition verify_op (s : list valtype) : result (list valtype) :=
  _ ← need 1 s SCRIPT_ERR_INVALID_STACK_OPERATION;
  top ← stacktop s 1;
  if CastToBool top then popstack s else set_error SCRIPT_ERR_VERIFY.

(** [OP_CHECKSIG], [OP_CHECKSIGVERIFY] *)
Definition checksig_op (opcode flags : Z) (sigversion : SigVersion) (st : eval_state) : result eval_state :=
  _ ← need 2 (stack st) SCRIPT_ERR_INVALID_STACK_OPERATION;
  vchSig ← stacktop (stack st) 2;
  vchPubKey ← stacktop (stack st) 1;
  '(fSuccess, d, c) ← EvalChecksig vchSig vchPubKey (pbegincodehash st) (execdata st) flags sigversion (checker st);
  s ← popstack (stack st);
  s ← popstack s;
  let s := bool_vch fSuccess :: s in
  s ← (if opcode =? OP_CHECKSIGVERIFY then (if fSuccess then popstack s else set_error SCRIPT_ERR_CHECKSIGVERIFY) else Ret s);
  Ret (set_stack (set_checker st d c) s).

(** [OP_CHECKSIGADD] *)
Definition checksigadd_op (flags : Z) (sigversion : SigVersion) (fRequireMinimal : bool) (st : eval_state) : result eval_state :=
  if bool_decide (sigversion = BASE) || bool_decide (sigversion = WITNESS_V0) then set_error SCRIPT_ERR_BAD_OPCODE
  else
  _ ← need 3 (stack st) SCRIPT_ERR_INVALID_STACK_OPERATION;
  sig ← stacktop (stack st) 3;
  x ← stacktop (stack st) 2;
  num ← script_num x fRequireMinimal 4;
  pubkey ← stacktop (stack st) 1;
  '(success, d, c) ← EvalChecksig sig pubkey (pbegincodehash st) (execdata st) flags sigversion (checker st);
  s ← popstack (stack st);
  s ← popstack s;
  s ← popstack s;
  sum ← checked_i64 (num + (if (success : bool) then 1 else 0));
  vch ← getvch sum;
  Ret (set_stack (set_checker st d c) (vch :: s)).

(** The signatures dropped from the script code of [OP_CHECKMULTISIG]. *)
Fixpoint drop_signatures (n k isig : nat) (s : list valtype) (scriptCode : CScript) (flags : Z) (sigversion : SigVersion) : result CScript :=
  match n with
  | O => Ret scriptCode
  | S n' =>
      vchSig ← stacktop s (isig + k);
      scriptCode ← drop_signature scriptCode vchSig flags sigversion;
      drop_signatures n' (S k) isig s scriptCode flags sigversion
  end.

(** The loop that matches signatures with keys. *)
Fixpoint multisig_loop (fuel isig ikey nSigsCount nKeysCount : nat) (s : list valtype) (scriptCode : CScript) (flags : Z)
    (sigversion : SigVersion) (c : C) : result (bool * C) :=
  match nSigsCount with
  | O => Ret (true, c)
  | S _ =>
      match fuel with
      | O => Abort
      | S fuel' =>
          vchSig ← stacktop s isig;
          vchPubKey ← stacktop s ikey;
          _ ← CheckSignatureEncoding CheckLowS vchSig flags;
          _ ← CheckPubKeyEncoding vchPubKey flags sigversion;
          '(fOk, c) ← CheckECDSASignature c vchSig vchPubKey scriptCode sigversion;
          let isig := if (fOk : bool) then S isig else isig in
          let nSigsCount := if (fOk : bool) then (nSigsCount - 1)%nat else nSigsCount in
          let ikey := S ikey in
          let nKeysCount := (nKeysCount - 1)%nat in
          if (nKeysCount <? nSigsCount)%nat then Ret (false, c)
          else multisig_loop fuel' isig ikey nSigsCount nKeysCount s scriptCode flags sigversion c
      end
  end.

(** The arguments popped: [ikey2] counts down to the signatures. *)
Fixpoint multisig_cleanup (n ikey2 : nat) (fSuccess : bool) (flags : Z) (s : list valtype) : result (list valtype) :=
  match n with
  | O => Ret s
  | S n' =>
      _ ← (if negb fSuccess && has_flag flags SCRIPT_VERIFY_NULLFAIL && (ikey2 =? 0)%nat then
             top ← stacktop s 1;
             if negb (length top =? 0)%nat then set_error SCRIPT_ERR_SIG_NULLFAIL else Ret tt
           else Ret tt);
      s ← popstack s;
      multisig_cleanup n' (ikey2 - 1) fSuccess flags s
  end.

(** [OP_CHECKMULTISIG], [OP_CHECKMULTISIGVERIFY] *)
Definition checkmultisig_op (opcode flags : Z) (sigversion : SigVersion) (fRequireMinimal : bool) (st : eval_state) : result eval_state :=
  if bool_decide (sigversion = TAPSCRIPT) then set_error SCRIPT_ERR_TAPSCRIPT_CHECKMULTISIG
  else
  let invalid := SCRIPT_ERR_INVALID_STACK_OPERATION in
  _ ← need 1 (stack st) invalid;
  x ← stacktop (stack st) 1;
  num ← script_num x fRequireMinimal 4;
  let nKeysCount := getint num in
  if (nKeysCount <? 0) || (nKeysCount >? MAX_PUBKEYS_PER_MULTISIG) then set_error SCRIPT_ERR_PUBKEY_COUNT
  else
  let opcount := nOpCount st + nKeysCount in
  if opcount >? MAX_OPS_PER_SCRIPT then set_error SCRIPT_ERR_OP_COUNT
  else
  let keys := Z.to_nat nKeysCount in
  let ikey := 2%nat in
  let ikey2 := (keys + 2)%nat in
  let i := (2 + keys)%nat in
  _ ← need i (stack st) invalid;
  x ← stacktop (stack st) i;
  num ← script_num x fRequireMinimal 4;
  let nSigsCount := getint num in
  if (nSigsCount <? 0) || (nSigsCount >? nKeysCount) then set_error SCRIPT_ERR_SIG_COUNT
  else
  let sigs := Z.to_nat nSigsCount in
  let isig := S i in
  let i := (S i + sigs)%nat in
  _ ← need i (stack st) invalid;
  scriptCode ← drop_signatures sigs 0 isig (stack st) (pbegincodehash st) flags sigversion;
  '(fSuccess, c) ← multisig_loop (S keys) isig ikey sigs keys (stack st) scriptCode flags sigversion (checker st);
  s ← multisig_cleanup (i - 1) ikey2 fSuccess flags (stack st);
  _ ← need 1 s invalid;
  top ← stacktop s 1;
  _ ← (if has_flag flags SCRIPT_VERIFY_NULLDUMMY && negb (length top =? 0)%nat then set_error SCRIPT_ERR_SIG_NULLDUMMY else Ret tt);
  s ← popstack s;
  let s := bool_vch fSuccess :: s in
  s ← (if opcode =? OP_CHECKMULTISIGVERIFY then (if (fSuccess : bool) then popstack s else set_error SCRIPT_ERR_CHECKMULTISIGVERIFY) else Ret s);
  Ret (set_stack (set_checker (set_nOpCount st opcount) (execdata st) c) s).

(** The [switch] on an opcode that is executed, or that is between [OP_IF] and [OP_ENDIF]; [pc] is behind the opcode. *)
Definition exec_opcode (opcode flags : Z) (sigversion : SigVersion) (fExec : bool) (pc : CScript) (st : eval_state) : result eval_state :=
  let fRequireMinimal := has_flag flags SCRIPT_VERIFY_MINIMALDATA in
  let on_stack (r : result (list valtype)) : result eval_state := s ← r; Ret (set_stack st s) in
  if (opcode =? OP_1NEGATE) || ((OP_1 <=? opcode) && (opcode <=? OP_16)) then
    vch ← getvch (opcode - (OP_1 - 1)); Ret (set_stack st (vch :: stack st))
  else if opcode =? OP_NOP then Ret st
  else if (opcode =? OP_CHECKLOCKTIMEVERIFY) || (opcode =? OP_CHECKSEQUENCEVERIFY) then locktime_op opcode flags fRequireMinimal st
  else if is_one_of opcode [OP_NOP1; OP_NOP4; OP_NOP5; OP_NOP6; OP_NOP7; OP_NOP8; OP_NOP9; OP_NOP10] then
    (if has_flag flags SCRIPT_VERIFY_DISCOURAGE_UPGRADABLE_NOPS then set_error SCRIPT_ERR_DISCOURAGE_UPGRADABLE_NOPS else Ret st)
  else if (opcode =? OP_IF) || (opcode =? OP_NOTIF) then if_op opcode flags sigversion fExec st
  else if opcode =? OP_ELSE then
    (if cond_empty (vfExec st) then set_error SCRIPT_ERR_UNBALANCED_CONDITIONAL
     else c ← toggle_top (vfExec st); Ret (set_vfExec st c))
  else if opcode =? OP_ENDIF then
    (if cond_empty (vfExec st) then set_error SCRIPT_ERR_UNBALANCED_CONDITIONAL
     else c ← cond_pop (vfExec st); Ret (set_vfExec st c))
  else if opcode =? OP_VERIFY then on_stack (verify_op (stack st))
  else if opcode =? OP_RETURN then set_error SCRIPT_ERR_OP_RETURN
  else if is_one_of opcode stack_opcodes then
    '(s, a) ← stack_op opcode fRequireMinimal (stack st) (altstack st); Ret (set_altstack (set_stack st s) a)
  else if opcode =? OP_SIZE then on_stack (size_op (stack st))
  else if (opcode =? OP_EQUAL) || (opcode =? OP_EQUALVERIFY) then on_stack (equal_op opcode (stack st))
  else if is_one_of opcode unary_opcodes then on_stack (unary_op opcode fRequireMinimal (stack st))
  else if is_one_of opcode binary_opcodes then on_stack (binary_op opcode fRequireMinimal (stack st))
  else if opcode =? OP_WITHIN then on_stack (within_op fRequireMinimal (stack st))
  else if is_one_of opcode hash_opcodes then on_stack (hash_op opcode (stack st))
  else if opcode =? OP_CODESEPARATOR then Ret (set_codehash st pc)
  else if (opcode =? OP_CHECKSIG) || (opcode =? OP_CHECKSIGVERIFY) then checksig_op opcode flags sigversion st
  else if opcode =? OP_CHECKSIGADD then checksigadd_op flags sigversion fRequireMinimal st
  else if (opcode =? OP_CHECKMULTISIG) || (opcode =? OP_CHECKMULTISIGVERIFY) then checkmultisig_op opcode flags sigversion fRequireMinimal st
  else set_error SCRIPT_ERR_BAD_OPCODE.

Definition disabled_opcodes : list Z :=
  [OP_CAT; OP_SUBSTR; OP_LEFT; OP_RIGHT; OP_INVERT; OP_AND; OP_OR; OP_XOR; OP_2MUL; OP_2DIV; OP_MUL; OP_DIV; OP_MOD; OP_LSHIFT; OP_RSHIFT].

Definition pre_tapscript (sigversion : SigVersion) : bool := bool_decide (sigversion = BASE) || bool_decide (sigversion = WITNESS_V0).

(** One round of the loop of [EvalScript]. *)
Definition eval_step (flags : Z) (sigversion : SigVersion) (pc : CScript) (st : eval_state) : result (CScript * eval_state) :=
  let fExec := all_true (vfExec st) in
  let op := GetScriptOp pc in
  let opcode := op_code op in
  let vchPushValue := op_data op in
  let pc := op_rest op in
  if negb (op_ok op) then set_error SCRIPT_ERR_BAD_OPCODE
  else if Z.of_nat (length vchPushValue) >? MAX_SCRIPT_ELEMENT_SIZE then set_error SCRIPT_ERR_PUSH_SIZE
  else
  let st := if pre_tapscript sigversion && (opcode >? OP_16) then set_nOpCount st (nOpCount st + 1) else st in
  if pre_tapscript sigversion && (opcode >? OP_16) && (nOpCount st >? MAX_OPS_PER_SCRIPT) then set_error SCRIPT_ERR_OP_COUNT
  else if is_one_of opcode disabled_opcodes then set_error SCRIPT_ERR_DISABLED_OPCODE
  else if (opcode =? OP_CODESEPARATOR) && bool_decide (sigversion = BASE) && has_flag flags SCRIPT_VERIFY_CONST_SCRIPTCODE then
    set_error SCRIPT_ERR_OP_CODESEPARATOR
  else
  st ←
    (if fExec && (0 <=? opcode) && (opcode <=? OP_PUSHDATA4) then
       if has_flag flags SCRIPT_VERIFY_MINIMALDATA && negb (CheckMinimalPush vchPushValue opcode) then set_error SCRIPT_ERR_MINIMALDATA
       else Ret (set_stack st (vchPushValue :: stack st))
     else if fExec || ((OP_IF <=? opcode) && (opcode <=? OP_ENDIF)) then exec_opcode opcode flags sigversion fExec pc st
     else Ret st);
  if Z.of_nat (length (stack st) + length (altstack st)) >? MAX_STACK_SIZE then set_error SCRIPT_ERR_STACK_SIZE
  else Ret (pc, set_opcode_pos st (u32 (opcode_pos st + 1))).

(** The loop; every round consumes a byte. *)
Fixpoint eval_loop (fuel : nat) (flags : Z) (sigversion : SigVersion) (pc : CScript) (st : eval_state) : result eval_state :=
  match pc with
  | [] => Ret st
  | _ :: _ =>
      match fuel with
      | O => Abort
      | S fuel' => '(pc, st) ← eval_step flags sigversion pc st; eval_loop fuel' flags sigversion pc st
      end
  end.

(** [catch (...)] *)
Definition catch_all {A : Type} (m : result A) : result A :=
  match m with Throw _ => set_error SCRIPT_ERR_UNKNOWN_ERROR | m => m end.

(** [EvalScript]: the stack, [execdata] and the checker afterwards. *)
Definition EvalScript (s : list valtype) (script : CScript) (flags : Z) (sigversion : SigVersion) (d : ScriptExecutionData) (c : C) :
    result (list valtype * ScriptExecutionData * C) :=
  _ ← assert_that (negb (bool_decide (sigversion = TAPROOT)));
  if pre_tapscript sigversion && (Z.of_nat (length script) >? MAX_SCRIPT_SIZE) then set_error SCRIPT_ERR_SCRIPT_SIZE
  else
  let st := mkEval s [] cond_new 0 script 0 (set_codeseparator d 0xFFFFFFFF) c in
  st ← with_serror SCRIPT_ERR_UNKNOWN_ERROR (catch_all (eval_loop (length script) flags sigversion script st));
  if negb (cond_empty (vfExec st)) then set_error SCRIPT_ERR_UNBALANCED_CONDITIONAL
  else Ret (stack st, execdata st, checker st).

(** The overload without execution data. *)
Definition no_execdata : ScriptExecutionData := mkExecData false 0 false 0 false false 0 false 0 None.
Definition EvalScript' (s : list valtype) (script : CScript) (flags : Z) (sigversion : SigVersion) (c : C) : result (list valtype * C) :=
  '(s, _, c) ← EvalScript s script flags sigversion no_execdata c; Ret (s, c).
End EvalScript.
