(* ===== verification/Sighash.v ===== *)
(** * Signature hashes and the checker for transactions: script/interpreter.cpp, script/interpreter.h, pubkey.h, hash.cpp

    What a signature signs: the serializer for scripts that are not witness scripts, the hashes of BIP143 and BIP341, the precomputed transaction data
    and the cache of hasher midstates; [GenericTransactionSignatureChecker] as an instance of [BaseSignatureChecker] whose state is that cache.
    The verification of a signature against a hash is a virtual function of the source and a parameter here. *)

From S2P Require Import Prelude Serialize ArithUint256 Chain Params Transaction Script TxVerify Sha256 Sha256Spec Hash Hash160 Interpreter.
#[local] Open Scope Z_scope.

(** ** Hash writers *)

(** A [HashWriter] is a hasher; [ss << x] writes the serialization of [x]. *)
Definition write_all (w : CSHA256) (pieces : list (list Z)) : CSHA256 := fold_left CSHA256_Write pieces w.
Definition writer_GetHash (w : CSHA256) : uint256 := le_val (snd (CHash256_Finalize w)).
Definition writer_GetSHA256 (w : CSHA256) : uint256 := le_val (snd (CSHA256_Finalize w)).

(** [SHA256Uint256], [TaggedHash]; a tag is the list of its characters. *)
Definition SHA256Uint256 (input : uint256) : uint256 := writer_GetSHA256 (CSHA256_Write new_hasher (ser fmt_uint256 input)).
Definition TaggedHash (tag : list Z) : CSHA256 :=
  let taghash := snd (CSHA256_Finalize (CSHA256_Write new_hasher tag)) in write_all new_hasher [taghash; taghash].

(** ** Scripts that are not witness scripts *)

(** The number of [OP_CODESEPARATOR]s that [GetOp] finds. *)
Fixpoint count_codeseparators (fuel : nat) (it : CScript) (n : Z) : option Z :=
  let op := GetScriptOp it in
  if op_ok op then
    match fuel with
    | O => None
    | S fuel' => count_codeseparators fuel' (op_rest op) (if op_code op =? OP_CODESEPARATOR then n + 1 else n)
    end
  else Some n.

(** The second loop: the bytes written, [itBegin] and where [it] stops. *)
Fixpoint write_between (fuel : nat) (itBegin it acc : list Z) : option (list Z * list Z * list Z) :=
  let op := GetScriptOp it in
  if op_ok op then
    match fuel with
    | O => None
    | S fuel' =>
        if op_code op =? OP_CODESEPARATOR
        then write_between fuel' (op_rest op) (op_rest op) (acc ++ take (length itBegin - length (op_rest op) - 1) itBegin)
        else write_between fuel' itBegin (op_rest op) acc
    end
  else Some (acc, itBegin, op_rest op).

(** [CTransactionSignatureSerializer::SerializeScriptCode] *)
Definition SerializeScriptCode (scriptCode : CScript) : option (list Z) :=
  n ← count_codeseparators (length scriptCode) scriptCode 0;
  '(acc, itBegin, it) ← write_between (length scriptCode) scriptCode scriptCode [];
  Some (WriteCompactSize (Z.of_nat (length scriptCode) - n) ++ acc ++
        (if negb (length itBegin =? 0)%nat then take (length itBegin - length it) itBegin else [])).

Definition fAnyoneCanPay (nHashType : Z) : bool := negb (Z.land nHashType SIGHASH_ANYONECANPAY =? 0).
Definition fHashSingle (nHashType : Z) : bool := Z.land nHashType 0x1f =? SIGHASH_SINGLE.
Definition fHashNone (nHashType : Z) : bool := Z.land nHashType 0x1f =? SIGHASH_NONE.

(** [SerializeInput], [SerializeOutput]; [None] is an index out of range. *)
Definition SerializeInput (txTo : CTransaction) (scriptCode : CScript) (nIn : nat) (nHashType : Z) (nInput : nat) : option (list Z) :=
  let nInput := if fAnyoneCanPay nHashType then nIn else nInput in
  i ← vin txTo !! nInput;
  script ← (if negb (nInput =? nIn)%nat then Some (ser fmt_bytes []) else SerializeScriptCode scriptCode);
  let sequence :=
    if negb (nInput =? nIn)%nat && (fHashSingle nHashType || fHashNone nHashType) then ser fmt_i32 0 else ser fmt_u32 (nSequence i) in
  Some (ser fmt_COutPoint (prevout i) ++ script ++ sequence).
Definition SerializeOutput (txTo : CTransaction) (nIn : nat) (nHashType : Z) (nOutput : nat) : option (list Z) :=
  if fHashSingle nHashType && negb (nOutput =? nIn)%nat then Some (ser fmt_CTxOut CTxOut_SetNull)
  else o ← vout txTo !! nOutput; Some (ser fmt_CTxOut o).

(** [CTransactionSignatureSerializer::Serialize] *)
Definition SerializeForSignature (txTo : CTransaction) (scriptCode : CScript) (nIn : nat) (nHashType : Z) : option (list Z) :=
  let nInputs := if fAnyoneCanPay nHashType then 1%nat else length (vin txTo) in
  ins ← mapM (SerializeInput txTo scriptCode nIn nHashType) (seq 0 nInputs);
  let nOutputs := if fHashNone nHashType then 0%nat else if fHashSingle nHashType then S nIn else length (vout txTo) in
  outs ← mapM (SerializeOutput txTo nIn nHashType) (seq 0 nOutputs);
  Some (ser fmt_u32 (tx_version txTo) ++ WriteCompactSize (Z.of_nat nInputs) ++ concat ins ++
        WriteCompactSize (Z.of_nat nOutputs) ++ concat outs ++ ser fmt_u32 (nLockTime txTo)).

(** ** Precomputed data *)

Definition GetPrevoutsSHA256 (txTo : CTransaction) : uint256 :=
  writer_GetSHA256 (write_all new_hasher (map (fun i => ser fmt_COutPoint (prevout i)) (vin txTo))).
Definition GetSequencesSHA256 (txTo : CTransaction) : uint256 :=
  writer_GetSHA256 (write_all new_hasher (map (fun i => ser fmt_u32 (nSequence i)) (vin txTo))).
Definition GetOutputsSHA256 (txTo : CTransaction) : uint256 :=
  writer_GetSHA256 (write_all new_hasher (map (ser fmt_CTxOut) (vout txTo))).
Definition GetSpentAmountsSHA256 (outs : list CTxOut) : uint256 :=
  writer_GetSHA256 (write_all new_hasher (map (fun o => ser fmt_i64 (nValue o)) outs)).
Definition GetSpentScriptsSHA256 (outs : list CTxOut) : uint256 :=
  writer_GetSHA256 (write_all new_hasher (map (fun o => ser fmt_bytes (scriptPubKey o)) outs)).

(** [PrecomputedTransactionData] *)
Record PrecomputedTransactionData := mkPrecomputed {
  m_prevouts_single_hash : uint256;
  m_sequences_single_hash : uint256;
  m_outputs_single_hash : uint256;
  m_spent_amounts_single_hash : uint256;
  m_spent_scripts_single_hash : uint256;
  m_bip341_taproot_ready : bool;
  hashPrevouts : uint256;
  hashSequence : uint256;
  hashOutputs : uint256;
  m_bip143_segwit_ready : bool;
  m_spent_outputs : list CTxOut;
  m_spent_outputs_ready : bool
}.

(** The scan for features, with its early exit. *)
Fixpoint uses_features (ins : list CTxIn) (spent : list CTxOut) (spent_ready uses_bip143 uses_bip341 : bool) : bool * bool :=
  match ins with
  | [] => (uses_bip143, uses_bip341)
  | i :: ins' =>
      if uses_bip143 && uses_bip341 then (uses_bip143, uses_bip341)
      else
      let '(b143, b341) :=
        if negb (bool_decide (scriptWitness i = [])) then
          match spent with
          | o :: _ =>
              if spent_ready && (length (scriptPubKey o) =? 34)%nat && (scriptPubKey o !!! 0%nat =? OP_1) then (uses_bip143, true) else (true, uses_bip341)
          | [] => (true, uses_bip341)
          end
        else (uses_bip143, uses_bip341) in
      uses_features ins' (drop 1 spent) spent_ready b143 b341
  end.

(** [PrecomputedTransactionData::Init] on data that were not initialized; the hashes that are not computed stay null. *)
Definition PrecomputedTransactionData_Init (txTo : CTransaction) (spent_outputs : list CTxOut) (force : bool) : option PrecomputedTransactionData :=
  let ready := negb (bool_decide (spent_outputs = [])) in
  if ready && negb (length spent_outputs =? length (vin txTo))%nat then None
  else
  let '(uses_bip143_segwit, uses_bip341_taproot) := uses_features (vin txTo) spent_outputs ready force force in
  let single h := if uses_bip143_segwit || uses_bip341_taproot then h else 0 in
  let prevouts := single (GetPrevoutsSHA256 txTo) in
  let sequences := single (GetSequencesSHA256 txTo) in
  let outputs := single (GetOutputsSHA256 txTo) in
  let segwit h := if uses_bip143_segwit then SHA256Uint256 h else 0 in
  let taproot_ready := uses_bip341_taproot && ready in
  Some (mkPrecomputed prevouts sequences outputs
    (if taproot_ready then GetSpentAmountsSHA256 spent_outputs else 0) (if taproot_ready then GetSpentScriptsSHA256 spent_outputs else 0)
    taproot_ready (segwit prevouts) (segwit sequences) (segwit outputs) uses_bip143_segwit spent_outputs ready).

(** ** The cache of midstates *)

(** [SigHashCache]: six entries, each a script code and a hasher. *)
Definition SigHashCache : Type := list (option (CScript * CSHA256)).
Definition SigHashCache_new : SigHashCache := repeat None 6.

Definition CacheIndex (hash_type : Z) : nat :=
  (3 * Nat.b2n (fAnyoneCanPay hash_type) + 2 * Nat.b2n (fHashSingle hash_type) + 1 * Nat.b2n (fHashNone hash_type))%nat.
Definition Load (cache : SigHashCache) (hash_type : Z) (script_code : CScript) : option CSHA256 :=
  match cache !! CacheIndex hash_type with
  | Some (Some (code, w)) => if bool_decide (script_code = code) then Some w else None
  | _ => None
  end.
Definition Store (cache : SigHashCache) (hash_type : Z) (script_code : CScript) (w : CSHA256) : SigHashCache :=
  <[CacheIndex hash_type := Some (script_code, w)]> cache.

(** ** Signature hashes *)

(** What is written before the hash type, for witness scripts of version 0 (BIP143). *)
Definition write_bip143 (scriptCode : CScript) (txTo : CTransaction) (nIn : nat) (nHashType amount : Z) (cache : option PrecomputedTransactionData) :
    option (list (list Z)) :=
  let ready := match cache with Some d => if m_bip143_segwit_ready d then Some d else None | None => None end in
  let hash_prevouts :=
    if negb (fAnyoneCanPay nHashType) then match ready with Some d => hashPrevouts d | None => SHA256Uint256 (GetPrevoutsSHA256 txTo) end else 0 in
  let hash_sequence :=
    if negb (fAnyoneCanPay nHashType) && negb (fHashSingle nHashType) && negb (fHashNone nHashType)
    then match ready with Some d => hashSequence d | None => SHA256Uint256 (GetSequencesSHA256 txTo) end else 0 in
  let hash_outputs :=
    if negb (fHashSingle nHashType) && negb (fHashNone nHashType)
    then match ready with Some d => hashOutputs d | None => SHA256Uint256 (GetOutputsSHA256 txTo) end
    else match vout txTo !! nIn with
         | Some o => if fHashSingle nHashType then writer_GetHash (write_all new_hasher [ser fmt_CTxOut o]) else 0
         | None => 0
         end in
  i ← vin txTo !! nIn;
  Some [ser fmt_u32 (tx_version txTo); ser fmt_uint256 hash_prevouts; ser fmt_uint256 hash_sequence; ser fmt_COutPoint (prevout i);
        ser fmt_bytes scriptCode; ser fmt_i64 amount; ser fmt_u32 (nSequence i); ser fmt_uint256 hash_outputs; ser fmt_u32 (nLockTime txTo)].

Definition signature_pieces (scriptCode : CScript) (txTo : CTransaction) (nIn : nat) (nHashType amount : Z) (sigversion : SigVersion)
    (cache : option PrecomputedTransactionData) : option (list (list Z)) :=
  if bool_decide (sigversion = WITNESS_V0) then write_bip143 scriptCode txTo nIn nHashType amount cache
  else b ← SerializeForSignature txTo scriptCode nIn nHashType; Some [b].

(** [SignatureHash]; a null pointer to a cache is [None]. *)
Definition SignatureHash (scriptCode : CScript) (txTo : CTransaction) (nIn : nat) (nHashType amount : Z) (sigversion : SigVersion)
    (cache : option PrecomputedTransactionData) (sighash_cache : option SigHashCache) : option (uint256 * option SigHashCache) :=
  if (length (vin txTo) <=? nIn)%nat then None
  else if negb (bool_decide (sigversion = WITNESS_V0)) && fHashSingle nHashType && (length (vout txTo) <=? nIn)%nat then Some (1, sighash_cache)
  else
  let finish w := writer_GetHash (CSHA256_Write w (ser fmt_i32 nHashType)) in
  match sighash_cache ≫= fun c => Load c nHashType scriptCode with
  | Some w => Some (finish w, sighash_cache)
  | None =>
      pieces ← signature_pieces scriptCode txTo nIn nHashType amount sigversion cache;
      let ss := write_all new_hasher pieces in
      Some (finish ss, (fun c => Store c nHashType scriptCode ss) <$> sighash_cache)
  end.

Definition HASHER_TAPSIGHASH : CSHA256 := TaggedHash [84; 97; 112; 83; 105; 103; 104; 97; 115; 104].

(** [MissingDataBehavior] *)
Inductive MissingDataBehavior := ASSERT_FAIL | FAIL.
Definition HandleMissingData (mdb : MissingDataBehavior) : option bool := match mdb with ASSERT_FAIL => None | FAIL => Some false end.

Definition set_output_hash (d : ScriptExecutionData) (h : uint256) : ScriptExecutionData :=
  mkExecData (m_tapleaf_hash_init d) (m_tapleaf_hash d) (m_codeseparator_pos_init d) (m_codeseparator_pos d) (m_annex_init d) (m_annex_present d)
    (m_annex_hash d) (m_validation_weight_left_init d) (m_validation_weight_left d) (Some h).

(** [SignatureHashSchnorr]: [Some None] when it returns false; otherwise the hash, and the execution data with the hash of the output. *)
Definition SignatureHashSchnorr (execdata : ScriptExecutionData) (tx_to : CTransaction) (in_pos : nat) (hash_type : Z) (sigversion : SigVersion)
    (cache : PrecomputedTransactionData) (mdb : MissingDataBehavior) : option (option (uint256 * ScriptExecutionData)) :=
  ext_flag ← (match sigversion with TAPROOT => Some 0 | TAPSCRIPT => Some 1 | _ => None end);
  i ← vin tx_to !! in_pos;
  if negb (m_bip341_taproot_ready cache && m_spent_outputs_ready cache) then _ ← HandleMissingData mdb; Some None
  else
  let output_type := if hash_type =? SIGHASH_DEFAULT then SIGHASH_ALL else Z.land hash_type 3 in
  let input_type := Z.land hash_type 0x80 in
  if negb ((hash_type <=? 0x03) || ((hash_type >=? 0x81) && (hash_type <=? 0x83))) then Some None
  else
  let acp := input_type =? SIGHASH_ANYONECANPAY in
  let common := [[0]; [hash_type]; ser fmt_u32 (tx_version tx_to); ser fmt_u32 (nLockTime tx_to)] ++
    (if acp then []
     else map (ser fmt_uint256) [m_prevouts_single_hash cache; m_spent_amounts_single_hash cache; m_spent_scripts_single_hash cache; m_sequences_single_hash cache]) ++
    (if output_type =? SIGHASH_ALL then [ser fmt_uint256 (m_outputs_single_hash cache)] else []) in
  if negb (m_annex_init execdata) then None
  else
  let spend_type := 2 * ext_flag + (if m_annex_present execdata then 1 else 0) in
  input ←
    (if acp then o ← m_spent_outputs cache !! in_pos; Some [ser fmt_COutPoint (prevout i); ser fmt_CTxOut o; ser fmt_u32 (nSequence i)]
     else Some [ser fmt_u32 (Z.of_nat in_pos)]);
  let annex := if m_annex_present execdata then [ser fmt_uint256 (m_annex_hash execdata)] else [] in
  match (if output_type =? SIGHASH_SINGLE then
           match vout tx_to !! in_pos with
           | None => None
           | Some o =>
               let h := match m_output_hash execdata with
                        | Some h => h
                        | None => writer_GetSHA256 (write_all new_hasher [ser fmt_CTxOut o])
                        end in
               Some ([ser fmt_uint256 h], set_output_hash execdata h)
           end
         else Some ([], execdata)) with
  | None => Some None
  | Some (output, execdata) =>
      tapscript ←
        (if bool_decide (sigversion = TAPSCRIPT) then
           if m_tapleaf_hash_init execdata && m_codeseparator_pos_init execdata
           then Some [ser fmt_uint256 (m_tapleaf_hash execdata); [0]; ser fmt_u32 (m_codeseparator_pos execdata)] else None
         else Some []);
      Some (Some (writer_GetSHA256 (write_all HASHER_TAPSIGHASH (common ++ [[spend_type]] ++ input ++ annex ++ output ++ tapscript)), execdata))
  end.

(** ** The checker *)

(** [CPubKey::GetLen], and the bytes of a [CPubKey] made of a byte vector; [None] when it is not valid. *)
Definition GetLen (chHeader : Z) : nat :=
  if (chHeader =? 2) || (chHeader =? 3) then COMPRESSED_SIZE
  else if (chHeader =? 4) || (chHeader =? 6) || (chHeader =? 7) then PUBKEY_SIZE else 0%nat.
Definition CPubKey_of (vch : valtype) : option valtype :=
  match vch with
  | [] => None
  | b :: _ => if negb (GetLen b =? 0)%nat && (GetLen b =? length vch)%nat then Some vch else None
  end.

(** The virtual functions that verify a signature of a hash. *)
Class SignatureVerifier := {
  VerifyECDSASignature : valtype -> valtype -> uint256 -> bool;
  VerifySchnorrSignature : valtype -> valtype -> uint256 -> bool
}.

(** [GenericTransactionSignatureChecker] *)
Record TransactionSignatureChecker := mkChecker {
  c_txTo : CTransaction;
  c_mdb : MissingDataBehavior;
  c_nIn : nat;
  c_amount : Z;
  c_txdata : option PrecomputedTransactionData;
  m_sighash_cache : SigHashCache
}.
Definition set_sighash_cache (c : TransactionSignatureChecker) (cache : SigHashCache) : TransactionSignatureChecker :=
  mkChecker (c_txTo c) (c_mdb c) (c_nIn c) (c_amount c) (c_txdata c) cache.

Definition of_option {A : Type} (o : option A) : result A := match o with Some a => Ret a | None => Abort end.

(** [CheckECDSASignature] up to the call of the virtual function: the signature, the key and the hash to verify, unless it returns false before. *)
Definition ecdsa_request (c : TransactionSignatureChecker) (vchSigIn vchPubKey : valtype) (scriptCode : CScript) (sigversion : SigVersion) :
    result (option (valtype * valtype * uint256) * TransactionSignatureChecker) :=
  match CPubKey_of vchPubKey with
  | None => Ret (None, c)
  | Some pubkey =>
      match last vchSigIn with
      | None => Ret (None, c)
      | Some nHashType =>
          let vchSig := take (length vchSigIn - 1) vchSigIn in
          if bool_decide (sigversion = WITNESS_V0) && (c_amount c <? 0) then _ ← of_option (HandleMissingData (c_mdb c)); Ret (None, c)
          else
          '(sighash, cache) ← of_option (SignatureHash scriptCode (c_txTo c) (c_nIn c) nHashType (c_amount c) sigversion (c_txdata c) (Some (m_sighash_cache c)));
          Ret (Some (vchSig, pubkey, sighash), set_sighash_cache c (default (m_sighash_cache c) cache))
      end
  end.

(** [CheckSchnorrSignature] up to the call of the virtual function. *)
Definition schnorr_request (c : TransactionSignatureChecker) (sig pubkey_in : valtype) (sigversion : SigVersion) (execdata : ScriptExecutionData) :
    result (valtype * valtype * uint256 * ScriptExecutionData) :=
  _ ← assert_that (bool_decide (sigversion = TAPROOT) || bool_decide (sigversion = TAPSCRIPT));
  _ ← assert_that (length pubkey_in =? 32)%nat;
  if negb (length sig =? 64)%nat && negb (length sig =? 65)%nat then set_error SCRIPT_ERR_SCHNORR_SIG_SIZE
  else
  let hashtype := if (length sig =? 65)%nat then default SIGHASH_DEFAULT (last sig) else SIGHASH_DEFAULT in
  if (length sig =? 65)%nat && (hashtype =? SIGHASH_DEFAULT) then set_error SCRIPT_ERR_SCHNORR_SIG_HASHTYPE
  else
  match c_txdata c with
  | None => _ ← of_option (HandleMissingData (c_mdb c)); Fail None
  | Some txdata =>
      r ← of_option (SignatureHashSchnorr execdata (c_txTo c) (c_nIn c) hashtype sigversion txdata (c_mdb c));
      match r with
      | None => set_error SCRIPT_ERR_SCHNORR_SIG_HASHTYPE
      | Some (sighash, execdata) => Ret (take 64 sig, pubkey_in, sighash, execdata)
      end
  end.

Section Checker.
Context {HS : SignatureVerifier}.

Definition tx_CheckECDSASignature (c : TransactionSignatureChecker) (vchSigIn vchPubKey : valtype) (scriptCode : CScript) (sigversion : SigVersion) :
    result (bool * TransactionSignatureChecker) :=
  '(request, c) ← ecdsa_request c vchSigIn vchPubKey scriptCode sigversion;
  Ret (match request with Some (vchSig, pubkey, sighash) => VerifyECDSASignature vchSig pubkey sighash | None => false end, c).

Definition tx_CheckSchnorrSignature (c : TransactionSignatureChecker) (sig pubkey_in : valtype) (sigversion : SigVersion) (execdata : ScriptExecutionData) :
    result (ScriptExecutionData * TransactionSignatureChecker) :=
  '(sig, pubkey, sighash, execdata) ← schnorr_request c sig pubkey_in sigversion execdata;
  if VerifySchnorrSignature sig pubkey sighash then Ret (execdata, c) else set_error SCRIPT_ERR_SCHNORR_SIG.

Definition tx_CheckLockTime (c : TransactionSignatureChecker) (nLockTime_ : Z) : result bool :=
  let tx_lock := nLockTime (c_txTo c) in
  if negb (((tx_lock <? LOCKTIME_THRESHOLD) && (nLockTime_ <? LOCKTIME_THRESHOLD)) ||
           ((tx_lock >=? LOCKTIME_THRESHOLD) && (nLockTime_ >=? LOCKTIME_THRESHOLD))) then Ret false
  else if nLockTime_ >? tx_lock then Ret false
  else
  i ← of_option (vin (c_txTo c) !! c_nIn c);
  Ret (negb (SEQUENCE_FINAL =? nSequence i)).

Definition tx_CheckSequence (c : TransactionSignatureChecker) (nSequence_ : Z) : result bool :=
  i ← of_option (vin (c_txTo c) !! c_nIn c);
  let txToSequence := nSequence i in
  if tx_version (c_txTo c) <? 2 then Ret false
  else if negb (Z.land txToSequence SEQUENCE_LOCKTIME_DISABLE_FLAG =? 0) then Ret false
  else
  let nLockTimeMask := Z.lor SEQUENCE_LOCKTIME_TYPE_FLAG SEQUENCE_LOCKTIME_MASK in
  let txToSequenceMasked := Z.land txToSequence nLockTimeMask in
  let nSequenceMasked := Z.land nSequence_ nLockTimeMask in
  if negb (((txToSequenceMasked <? SEQUENCE_LOCKTIME_TYPE_FLAG) && (nSequenceMasked <? SEQUENCE_LOCKTIME_TYPE_FLAG)) ||
           ((txToSequenceMasked >=? SEQUENCE_LOCKTIME_TYPE_FLAG) && (nSequenceMasked >=? SEQUENCE_LOCKTIME_TYPE_FLAG))) then Ret false
  else if nSequenceMasked >? txToSequenceMasked then Ret false
  else Ret true.

#[export] Instance transaction_checker : BaseSignatureChecker TransactionSignatureChecker := {
  CheckECDSASignature := tx_CheckECDSASignature;
  CheckSchnorrSignature := tx_CheckSchnorrSignature;
  CheckLockTime := tx_CheckLockTime;
  CheckSequence := tx_CheckSequence
}.
End Checker.
