(* ===== verification/VerifyScript.v ===== *)
(** * Verification of a spend: [VerifyScript] and what it calls (script/interpreter.cpp, script/script.cpp)

    The scripts of an input and of the output it spends, pay-to-script-hash, and the witness programs of versions 0 and 1. A witness is a list with
    the top of its stack last, as in the source; the stacks of the interpreter have the top first. *)

From S2P Require Import Prelude Serialize ArithUint256 Chain Params Transaction Script TxVerify Sha256 Sha256Spec Hash Hash160 Interpreter Sighash.
#[local] Open Scope Z_scope.

Definition WITNESS_V1_TAPROOT_SIZE : nat := 32.
Definition TAPROOT_LEAF_MASK : Z := 0xfe.
Definition TAPROOT_LEAF_TAPSCRIPT : Z := 0xc0.
Definition TAPROOT_CONTROL_BASE_SIZE : nat := 33.
Definition TAPROOT_CONTROL_NODE_SIZE : nat := 32.
Definition TAPROOT_CONTROL_MAX_NODE_COUNT : nat := 128.
Definition TAPROOT_CONTROL_MAX_SIZE : nat := TAPROOT_CONTROL_BASE_SIZE + TAPROOT_CONTROL_NODE_SIZE * TAPROOT_CONTROL_MAX_NODE_COUNT.
Definition ANNEX_TAG : Z := 0x50.
Definition VALIDATION_WEIGHT_OFFSET : Z := 50.

(** ** The Taproot commitment *)

(** The tags "TapLeaf" and "TapBranch". *)
Definition HASHER_TAPLEAF : CSHA256 := TaggedHash [84; 97; 112; 76; 101; 97; 102].
Definition HASHER_TAPBRANCH : CSHA256 := TaggedHash [84; 97; 112; 66; 114; 97; 110; 99; 104].

(** [ComputeTapleafHash] *)
Definition ComputeTapleafHash (leaf_version : Z) (script : CScript) : uint256 :=
  writer_GetSHA256 (write_all HASHER_TAPLEAF [[leaf_version]; WriteCompactSize (Z.of_nat (length script)); script]).

(** [std::lexicographical_compare] *)
Fixpoint lexicographical_compare (a b : list Z) : bool :=
  match a, b with
  | _, [] => false
  | [], _ :: _ => true
  | x :: a', y :: b' => if x <? y then true else if y <? x then false else lexicographical_compare a' b'
  end.

(** [ComputeTapbranchHash] on the bytes of two nodes *)
Definition ComputeTapbranchHash (a b : list Z) : uint256 :=
  writer_GetSHA256 (write_all HASHER_TAPBRANCH (if lexicographical_compare a b then [a; b] else [b; a])).

(** The nodes of the path in a control block. *)
Fixpoint taproot_path (path_len i : nat) (control : list Z) (k : uint256) : uint256 :=
  match path_len with
  | O => k
  | S n =>
      let node := take TAPROOT_CONTROL_NODE_SIZE (drop (TAPROOT_CONTROL_BASE_SIZE + TAPROOT_CONTROL_NODE_SIZE * i) control) in
      taproot_path n (S i) control (ComputeTapbranchHash (ser fmt_uint256 k) node)
  end.

(** [ComputeTaprootMerkleRoot] *)
Definition ComputeTaprootMerkleRoot (control : list Z) (tapleaf_hash : uint256) : option uint256 :=
  if (length control <? TAPROOT_CONTROL_BASE_SIZE)%nat || (TAPROOT_CONTROL_MAX_SIZE <? length control)%nat
     || negb ((length control - TAPROOT_CONTROL_BASE_SIZE) mod TAPROOT_CONTROL_NODE_SIZE =? 0)%nat then None
  else Some (taproot_path ((length control - TAPROOT_CONTROL_BASE_SIZE) / TAPROOT_CONTROL_NODE_SIZE) 0 control tapleaf_hash).

(** [CScript::IsPayToAnchor(version, program)] *)
Definition IsPayToAnchorProgram (version : Z) (program : list Z) : bool :=
  (version =? 1) && (length program =? 2)%nat && (program !!! 0%nat =? 0x4e) && (program !!! 1%nat =? 0x73).

Section VerifyScript.
(** [CheckTapTweak]: the output key, the internal key, the Merkle root and the parity, a call of libsecp256k1. *)
Context (CheckLowS : list Z -> bool) (CheckTapTweak : list Z -> list Z -> uint256 -> bool -> bool) {C : Type} {HC : BaseSignatureChecker C}.

(** [VerifyTaprootCommitment] *)
Definition VerifyTaprootCommitment (control program : list Z) (tapleaf_hash : uint256) : option bool :=
  if (length control <? TAPROOT_CONTROL_BASE_SIZE)%nat || (length program <? 32)%nat then None
  else
  let p := take (TAPROOT_CONTROL_BASE_SIZE - 1) (drop 1 control) in
  merkle_root ← ComputeTaprootMerkleRoot control tapleaf_hash;
  Some (CheckTapTweak program p merkle_root (Z.odd (control !!! 0%nat))).

(** The search for [OP_SUCCESS]: [Ret true] when there is one. *)
Fixpoint find_op_success (fuel : nat) (pc : CScript) (flags : Z) : result bool :=
  match pc with
  | [] => Ret false
  | _ :: _ =>
      match fuel with
      | O => Abort
      | S fuel' =>
          let op := GetScriptOp pc in
          if negb (op_ok op) then set_error SCRIPT_ERR_BAD_OPCODE
          else if IsOpSuccess (op_code op) then
            if has_flag flags SCRIPT_VERIFY_DISCOURAGE_OP_SUCCESS then set_error SCRIPT_ERR_DISCOURAGE_OP_SUCCESS else Ret true
          else find_op_success fuel' (op_rest op) flags
      end
  end.

(** [ExecuteWitnessScript] *)
Definition ExecuteWitnessScript (stack_span : list valtype) (exec_script : CScript) (flags : Z) (sigversion : SigVersion)
    (execdata : ScriptExecutionData) (c : C) : result C :=
  success ← (if bool_decide (sigversion = TAPSCRIPT) then find_op_success (length exec_script) exec_script flags else Ret false);
  if (success : bool) then Ret c
  else if bool_decide (sigversion = TAPSCRIPT) && (Z.of_nat (length stack_span) >? MAX_STACK_SIZE) then set_error SCRIPT_ERR_STACK_SIZE
  else if existsb (fun elem => Z.of_nat (length elem) >? MAX_SCRIPT_ELEMENT_SIZE) stack_span then set_error SCRIPT_ERR_PUSH_SIZE
  else
  '(stack, _, c) ← EvalScript CheckLowS (rev stack_span) exec_script flags sigversion execdata c;
  match stack with
  | [top] => if CastToBool top then Ret c else set_error SCRIPT_ERR_EVAL_FALSE
  | _ => set_error SCRIPT_ERR_CLEANSTACK
  end.

(** [SpanPopBack]: the rest of the span and its last element. *)
Definition SpanPopBack (l : list valtype) : option (list valtype * valtype) :=
  x ← last l; Some (take (length l - 1) l, x).

(** The annex of a Taproot witness, if it has one. *)
Definition pop_annex (stack : list valtype) : list valtype * ScriptExecutionData :=
  match SpanPopBack stack with
  | Some (rest, annex) =>
      if (2 <=? length stack)%nat && negb (length annex =? 0)%nat && (annex !!! 0%nat =? ANNEX_TAG)
      then (rest, mkExecData false 0 false 0 true true (writer_GetSHA256 (write_all new_hasher [ser fmt_bytes annex])) false 0 None)
      else (stack, mkExecData false 0 false 0 true false 0 false 0 None)
  | None => (stack, mkExecData false 0 false 0 true false 0 false 0 None)
  end.

Definition set_tapleaf (d : ScriptExecutionData) (h : uint256) : ScriptExecutionData :=
  mkExecData true h (m_codeseparator_pos_init d) (m_codeseparator_pos d) (m_annex_init d) (m_annex_present d) (m_annex_hash d)
    (m_validation_weight_left_init d) (m_validation_weight_left d) (m_output_hash d).
Definition init_weight (d : ScriptExecutionData) (w : Z) : ScriptExecutionData :=
  mkExecData (m_tapleaf_hash_init d) (m_tapleaf_hash d) (m_codeseparator_pos_init d) (m_codeseparator_pos d) (m_annex_init d) (m_annex_present d)
    (m_annex_hash d) true w (m_output_hash d).

(** The Taproot part of [VerifyWitnessProgram]. *)
Definition VerifyTaproot (witness : list valtype) (program : list Z) (flags : Z) (c : C) : result C :=
  if negb (has_flag flags SCRIPT_VERIFY_TAPROOT) then Ret c
  else if (length witness =? 0)%nat then set_error SCRIPT_ERR_WITNESS_PROGRAM_WITNESS_EMPTY
  else
  let '(stack, execdata) := pop_annex witness in
  match stack with
  | [sig] => '(_, c) ← CheckSchnorrSignature c sig program TAPROOT execdata; Ret c
  | _ =>
      '(stack, control) ← of_option (SpanPopBack stack);
      '(stack, script) ← of_option (SpanPopBack stack);
      if (length control <? TAPROOT_CONTROL_BASE_SIZE)%nat || (TAPROOT_CONTROL_MAX_SIZE <? length control)%nat
         || negb ((length control - TAPROOT_CONTROL_BASE_SIZE) mod TAPROOT_CONTROL_NODE_SIZE =? 0)%nat
      then set_error SCRIPT_ERR_TAPROOT_WRONG_CONTROL_SIZE
      else
      let leaf_version := Z.land (control !!! 0%nat) TAPROOT_LEAF_MASK in
      let tapleaf_hash := ComputeTapleafHash leaf_version script in
      ok ← of_option (VerifyTaprootCommitment control program tapleaf_hash);
      if negb ok then set_error SCRIPT_ERR_WITNESS_PROGRAM_MISMATCH
      else
      let execdata := set_tapleaf execdata tapleaf_hash in
      if leaf_version =? TAPROOT_LEAF_TAPSCRIPT then
        let execdata := init_weight execdata (Z.of_nat (length (ser fmt_stack witness)) + VALIDATION_WEIGHT_OFFSET) in
        ExecuteWitnessScript stack script flags TAPSCRIPT execdata c
      else if has_flag flags SCRIPT_VERIFY_DISCOURAGE_UPGRADABLE_TAPROOT_VERSION
           then set_error SCRIPT_ERR_DISCOURAGE_UPGRADABLE_TAPROOT_VERSION
      else Ret c
  end.

(** The script that a version 0 program of 20 bytes stands for. *)
Definition p2wpkh_script (program : list Z) : CScript :=
  push_data [OP_DUP; OP_HASH160] program ++ [OP_EQUALVERIFY; OP_CHECKSIG].

(** [VerifyWitnessProgram] *)
Definition VerifyWitnessProgram (witness : list valtype) (witversion : Z) (program : list Z) (flags : Z) (is_p2sh : bool) (c : C) : result C :=
  if witversion =? 0 then
    if Z.of_nat (length program) =? WITNESS_V0_SCRIPTHASH_SIZE then
      match SpanPopBack witness with
      | None => set_error SCRIPT_ERR_WITNESS_PROGRAM_WITNESS_EMPTY
      | Some (stack, exec_script) =>
          let hash_exec_script := snd (CSHA256_Finalize (CSHA256_Write new_hasher exec_script)) in
          if negb (bool_decide (hash_exec_script = program)) then set_error SCRIPT_ERR_WITNESS_PROGRAM_MISMATCH
          else ExecuteWitnessScript stack exec_script flags WITNESS_V0 no_execdata c
      end
    else if Z.of_nat (length program) =? WITNESS_V0_KEYHASH_SIZE then
      if negb (length witness =? 2)%nat then set_error SCRIPT_ERR_WITNESS_PROGRAM_MISMATCH
      else ExecuteWitnessScript witness (p2wpkh_script program) flags WITNESS_V0 no_execdata c
    else set_error SCRIPT_ERR_WITNESS_PROGRAM_WRONG_LENGTH
  else if (witversion =? 1) && (length program =? WITNESS_V1_TAPROOT_SIZE)%nat && negb is_p2sh then VerifyTaproot witness program flags c
  else if negb is_p2sh && IsPayToAnchorProgram witversion program then Ret c
  else if has_flag flags SCRIPT_VERIFY_DISCOURAGE_UPGRADABLE_WITNESS_PROGRAM
       then set_error SCRIPT_ERR_DISCOURAGE_UPGRADABLE_WITNESS_PROGRAM
  else Ret c.

(** [stack.resize(1)]: the bottom of the stack stays. *)
Definition resize1 (s : list valtype) : list valtype := match last s with Some x => [x] | None => [[]] end.

(** The top of the stack must be there and true. *)
Definition check_top (s : list valtype) : result unit :=
  match s with [] => set_error SCRIPT_ERR_EVAL_FALSE | top :: _ => if CastToBool top then Ret tt else set_error SCRIPT_ERR_EVAL_FALSE end.

(** A script that is a witness program: its evaluation, after [malleated] was excluded. The stack, [hadWitness] and the checker afterwards. *)
Definition verify_program (script : CScript) (malleated : bool) (e : ScriptError) (witness : list valtype) (flags : Z) (is_p2sh : bool)
    (stack : list valtype) (hadWitness : bool) (c : C) : result (list valtype * bool * C) :=
  if has_flag flags SCRIPT_VERIFY_WITNESS then
    p ← of_option (IsWitnessProgram script);
    match p with
    | None => Ret (stack, hadWitness, c)
    | Some (witnessversion, witnessprogram) =>
        if malleated then set_error e
        else c ← with_serror SCRIPT_ERR_OK (VerifyWitnessProgram witness witnessversion witnessprogram flags is_p2sh c);
             Ret (resize1 stack, true, c)
    end
  else Ret (stack, hadWitness, c).

(** The evaluation of the redeem script: [stack] is the copy made after the input script. *)
Definition verify_p2sh (scriptSig : CScript) (witness stack : list valtype) (flags : Z) (hadWitness : bool) (c : C) :
    result (list valtype * bool * C) :=
  push_only ← of_option (IsPushOnly scriptSig);
  if negb push_only then set_error SCRIPT_ERR_SIG_PUSHONLY
  else
  _ ← assert_that (negb (length stack =? 0)%nat);
  pubKey2 ← stacktop stack 1;
  stack ← popstack stack;
  '(stack, c) ← EvalScript' CheckLowS stack pubKey2 flags BASE c;
  _ ← check_top stack;
  verify_program pubKey2 (negb (bool_decide (scriptSig = push_data [] pubKey2))) SCRIPT_ERR_WITNESS_MALLEATED_P2SH witness flags true stack hadWitness c.

(** The checks that come last. *)
Definition final_checks (witness stack : list valtype) (flags : Z) (hadWitness : bool) (c : C) : result C :=
  _ ← (if has_flag flags SCRIPT_VERIFY_CLEANSTACK then
         _ ← assert_that (has_flag flags SCRIPT_VERIFY_P2SH);
         _ ← assert_that (has_flag flags SCRIPT_VERIFY_WITNESS);
         if negb (length stack =? 1)%nat then set_error SCRIPT_ERR_CLEANSTACK else Ret tt
       else Ret tt);
  if has_flag flags SCRIPT_VERIFY_WITNESS then
    _ ← assert_that (has_flag flags SCRIPT_VERIFY_P2SH);
    if negb hadWitness && negb (length witness =? 0)%nat then set_error SCRIPT_ERR_WITNESS_UNEXPECTED else Ret c
  else Ret c.

(** [VerifyScript] *)
Definition VerifyScript (scriptSig scriptPubKey : CScript) (witness : list valtype) (flags : Z) (c : C) : result C :=
  push_only ← of_option (IsPushOnly scriptSig);
  if has_flag flags SCRIPT_VERIFY_SIGPUSHONLY && negb push_only then set_error SCRIPT_ERR_SIG_PUSHONLY
  else
  '(stack, c) ← EvalScript' CheckLowS [] scriptSig flags BASE c;
  let stackCopy := stack in
  '(stack, c) ← EvalScript' CheckLowS stack scriptPubKey flags BASE c;
  _ ← check_top stack;
  '(stack, hadWitness, c) ←
    verify_program scriptPubKey (negb (length scriptSig =? 0)%nat) SCRIPT_ERR_WITNESS_MALLEATED witness flags false stack false c;
  '(stack, hadWitness, c) ←
    (if has_flag flags SCRIPT_VERIFY_P2SH && IsPayToScriptHash scriptPubKey
     then verify_p2sh scriptSig witness stackCopy flags hadWitness c else Ret (stack, hadWitness, c));
  final_checks witness stack flags hadWitness c.
End VerifyScript.
