(* ===== verification/InterpreterSpec.v ===== *)
(** * Lemmas about the script interpreter

    [stricter]: a computation that accepts less than another, the relation between runs with more and fewer flags, for every operation of
    [Interpreter] and [VerifyScript]; what [ConditionStack] stands for; what [OP_CHECKMULTISIG] accepts; the signature encodings. *)

From Stdlib Require Import ZifyNat.
From S2P Require Import Prelude Serialize ArithUint256 Chain Params Transaction Script TxVerify Sha256 Sha256Spec Hash Hash160.
From S2P Require Import Interpreter Sighash VerifyScript.
#[local] Open Scope Z_scope.

Lemma bind_Ret {A B : Type} (m : result A) (k : A -> result B) (b : B) : m ≫= k = Ret b -> exists a, m = Ret a /\ k a = Ret b.
Proof. destruct m as [a| | |]; intros H; try discriminate H. by exists a. Qed.

(** ** More flags accept less *)

Definition stricter {A : Type} (m2 m1 : result A) : Prop := forall a, m2 = Ret a -> m1 = Ret a.

Lemma stricter_refl {A : Type} (m : result A) : stricter m m.
Proof. by intros a. Qed.

Lemma stricter_fail {A : Type} (e : ScriptError) (m : result A) : stricter (set_error e) m.
Proof. by intros a. Qed.

Lemma stricter_bind {A B : Type} (m2 m1 : result A) (k2 k1 : A -> result B) :
  stricter m2 m1 -> (forall a, stricter (k2 a) (k1 a)) -> stricter (m2 ≫= k2) (m1 ≫= k1).
Proof. intros Hm Hk b. destruct m2 as [a| | |]; try done. cbn. rewrite (Hm a eq_refl). apply Hk. Qed.

(** A test that may only fail more often. *)
Lemma stricter_test {A : Type} (b2 b1 : bool) (e : ScriptError) (m2 m1 : result A) :
  (b1 = true -> b2 = true) -> stricter m2 m1 -> stricter (if b2 then set_error e else m2) (if b1 then set_error e else m1).
Proof. intros Hb Hm. destruct b2; [by intros a|]. destruct b1; [by specialize (Hb eq_refl)|done]. Qed.

Lemma stricter_if {A : Type} (b : bool) (m2 m1 m2' m1' : result A) :
  stricter m2 m1 -> stricter m2' m1' -> stricter (if b then m2 else m2') (if b then m1 else m1').
Proof. by destruct b. Qed.

Create HintDb strict discriminated.
#[export] Hint Constants Opaque : strict.
#[export] Hint Resolve stricter_refl stricter_fail stricter_bind stricter_test stricter_if : strict.

Section Flags.
Context (f2 f1 : Z) (Hflags : Z.land f1 f2 = f1).

Lemma has_flag_mono (flag : Z) : has_flag f1 flag = true -> has_flag f2 flag = true.
Proof.
  unfold has_flag. rewrite !negb_true_iff, !Z.eqb_neq. intros H E. apply H. rewrite <- Hflags, <- Z.land_assoc, E. apply Z.land_0_r.
Qed.

Lemma flag_test_mono (flag : Z) (b : bool) : has_flag f1 flag && b = true -> has_flag f2 flag && b = true.
Proof. rewrite !andb_true_iff. intros [H ->]. by rewrite has_flag_mono. Qed.

Lemma test_flag_mono (flag : Z) (b : bool) : b && has_flag f1 flag = true -> b && has_flag f2 flag = true.
Proof. rewrite !andb_true_iff. intros [-> H]. by rewrite has_flag_mono. Qed.

Lemma test_flag_test_mono (flag : Z) (a b : bool) : a && has_flag f1 flag && b = true -> a && has_flag f2 flag && b = true.
Proof. rewrite !andb_true_iff. intros [[-> H] ->]. by rewrite has_flag_mono. Qed.

Lemma flag_tests_mono (flag : Z) (a b : bool) : has_flag f1 flag && a && b = true -> has_flag f2 flag && a && b = true.
Proof. rewrite !andb_true_iff. intros [[H ->] ->]. by rewrite has_flag_mono. Qed.

(** Demanding minimal numbers. *)
Lemma script_num_mono (vch : valtype) (n : Z) :
  stricter (script_num vch (has_flag f2 SCRIPT_VERIFY_MINIMALDATA) n) (script_num vch (has_flag f1 SCRIPT_VERIFY_MINIMALDATA) n).
Proof.
  intros a. unfold script_num, CScriptNum. destruct (Z.of_nat (length vch) >? n); [done|].
  destruct (has_flag f1 SCRIPT_VERIFY_MINIMALDATA) eqn:E; [by rewrite (has_flag_mono _ E)|].
  cbn [andb]. destruct (has_flag f2 SCRIPT_VERIFY_MINIMALDATA && (0 <? Z.of_nat (length vch))); [|done]. by destruct (_ && _).
Qed.

Hint Resolve has_flag_mono flag_test_mono test_flag_mono test_flag_test_mono flag_tests_mono script_num_mono : strict.

Ltac strict := eauto 10 with strict nocore.

Lemma CheckSignatureEncoding_mono (CheckLowS : list Z -> bool) (vchSig : valtype) :
  stricter (CheckSignatureEncoding CheckLowS vchSig f2) (CheckSignatureEncoding CheckLowS vchSig f1).
Proof.
  unfold CheckSignatureEncoding. apply stricter_if; [strict|]. apply stricter_test; [strict|]. apply stricter_bind; [|strict].
  destruct (has_flag f1 SCRIPT_VERIFY_LOW_S) eqn:E; [rewrite (has_flag_mono _ E); strict|].
  destruct (has_flag f2 SCRIPT_VERIFY_LOW_S); [|strict]. intros []. done.
Qed.

Lemma CheckPubKeyEncoding_mono (vchPubKey : valtype) (sigversion : SigVersion) :
  stricter (CheckPubKeyEncoding vchPubKey f2 sigversion) (CheckPubKeyEncoding vchPubKey f1 sigversion).
Proof. unfold CheckPubKeyEncoding. strict. Qed.

Lemma stack_op_mono (opcode : Z) (s a : list valtype) :
  stricter (stack_op opcode (has_flag f2 SCRIPT_VERIFY_MINIMALDATA) s a) (stack_op opcode (has_flag f1 SCRIPT_VERIFY_MINIMALDATA) s a).
Proof. unfold stack_op. repeat (apply stricter_if; [strict|]). apply stricter_refl. Qed.

Lemma unary_op_mono (opcode : Z) (s : list valtype) :
  stricter (unary_op opcode (has_flag f2 SCRIPT_VERIFY_MINIMALDATA) s) (unary_op opcode (has_flag f1 SCRIPT_VERIFY_MINIMALDATA) s).
Proof. unfold unary_op. strict. Qed.

Lemma binary_op_mono (opcode : Z) (s : list valtype) :
  stricter (binary_op opcode (has_flag f2 SCRIPT_VERIFY_MINIMALDATA) s) (binary_op opcode (has_flag f1 SCRIPT_VERIFY_MINIMALDATA) s).
Proof. unfold binary_op. strict. Qed.

Lemma within_op_mono (s : list valtype) :
  stricter (within_op (has_flag f2 SCRIPT_VERIFY_MINIMALDATA) s) (within_op (has_flag f1 SCRIPT_VERIFY_MINIMALDATA) s).
Proof. unfold within_op. do 7 (apply stricter_bind; [strict|intros ?]). strict. Qed.

Hint Resolve CheckSignatureEncoding_mono CheckPubKeyEncoding_mono stack_op_mono unary_op_mono binary_op_mono within_op_mono : strict.

Context (CheckLowS : list Z -> bool) (CheckTapTweak : list Z -> list Z -> uint256 -> bool -> bool) {C : Type} {HC : BaseSignatureChecker C}.

Lemma drop_signature_mono (code : CScript) (sig : valtype) (sv : SigVersion) :
  stricter (drop_signature code sig f2 sv) (drop_signature code sig f1 sv).
Proof. unfold drop_signature. apply stricter_if; [|strict]. destruct (FindAndDelete _ _) as [[code' n]|]; strict. Qed.

Lemma drop_signatures_mono (n k isig : nat) (s : list valtype) (code : CScript) (sv : SigVersion) :
  stricter (drop_signatures n k isig s code f2 sv) (drop_signatures n k isig s code f1 sv).
Proof.
  revert k code. induction n as [|n IH]; intros k code; cbn [drop_signatures]; [strict|].
  apply stricter_bind; [strict|]. intros sig. apply stricter_bind; [apply drop_signature_mono|]. intros code'. apply IH.
Qed.

Hint Resolve drop_signature_mono drop_signatures_mono : strict.

Lemma EvalChecksig_mono (sig pubkey : valtype) (code : CScript) (d : ScriptExecutionData) (sv : SigVersion) (c : C) :
  stricter (EvalChecksig CheckLowS sig pubkey code d f2 sv c) (EvalChecksig CheckLowS sig pubkey code d f1 sv c).
Proof.
  unfold EvalChecksig, EvalChecksigPreTapscript, EvalChecksigTapscript.
  destruct sv; try apply stricter_refl.
  1,2: apply stricter_bind; [|strict]; do 4 (apply stricter_bind; [strict|intros ?]); apply stricter_bind; [strict|]; intros [b c']; strict.
  apply stricter_bind; [strict|]. intros _. apply stricter_bind; [strict|]. intros d'. strict.
Qed.

Lemma multisig_loop_mono (fuel isig ikey nsigs nkeys : nat) (s : list valtype) (code : CScript) (sv : SigVersion) (c : C) :
  stricter (multisig_loop CheckLowS fuel isig ikey nsigs nkeys s code f2 sv c) (multisig_loop CheckLowS fuel isig ikey nsigs nkeys s code f1 sv c).
Proof.
  revert isig ikey nsigs nkeys c. induction fuel as [|fuel IH]; intros isig ikey nsigs nkeys c; cbn [multisig_loop];
    (destruct nsigs; [strict|]); [strict|].
  do 4 (apply stricter_bind; [strict|intros ?]). apply stricter_bind; [strict|]. intros [b c']. apply stricter_if; [strict|apply IH].
Qed.

Lemma multisig_cleanup_mono (n ikey2 : nat) (b : bool) (s : list valtype) :
  stricter (multisig_cleanup n ikey2 b f2 s) (multisig_cleanup n ikey2 b f1 s).
Proof.
  revert ikey2 s. induction n as [|n IH]; intros ikey2 s; cbn [multisig_cleanup]; [strict|].
  apply stricter_bind; [|intros _; apply stricter_bind; [strict|intros s'; apply IH]].
  destruct (negb b && has_flag f1 SCRIPT_VERIFY_NULLFAIL && (ikey2 =? 0)%nat) eqn:E; [rewrite (test_flag_test_mono _ _ _ E); strict|].
  destruct (negb b && has_flag f2 SCRIPT_VERIFY_NULLFAIL && (ikey2 =? 0)%nat); [|strict]. by intros [].
Qed.

Hint Resolve EvalChecksig_mono multisig_loop_mono multisig_cleanup_mono : strict.

Lemma locktime_op_mono (opcode : Z) (st : eval_state) :
  stricter (locktime_op opcode f2 (has_flag f2 SCRIPT_VERIFY_MINIMALDATA) st)
           (locktime_op (C := C) opcode f1 (has_flag f1 SCRIPT_VERIFY_MINIMALDATA) st).
Proof.
  unfold locktime_op. set (flag := if opcode =? OP_CHECKLOCKTIMEVERIFY then _ else _).
  destruct (has_flag f1 flag) eqn:E; cbn [negb].
  - rewrite (has_flag_mono _ E). cbn [negb]. do 3 (apply stricter_bind; [strict|intros ?]). strict.
  - destruct (has_flag f2 flag); cbn [negb]; [|strict]. intros st'. unfold need, stacktop.
    repeat (case_match; cbn; try done); try congruence.
    all: destruct (script_num _ _ 5) as [n| | |]; cbn; try done; repeat (case_match; cbn; try done; try congruence).
    all: destruct (CheckLockTime _ _) as [[]| | |] || destruct (CheckSequence _ _) as [[]| | |]; cbn; try done; congruence.
Qed.

Lemma checkmultisig_op_mono (opcode : Z) (sv : SigVersion) (st : eval_state) :
  stricter (checkmultisig_op CheckLowS opcode f2 sv (has_flag f2 SCRIPT_VERIFY_MINIMALDATA) st)
           (checkmultisig_op (C := C) CheckLowS opcode f1 sv (has_flag f1 SCRIPT_VERIFY_MINIMALDATA) st).
Proof.
  unfold checkmultisig_op. apply stricter_if; [strict|]. cbv zeta.
  do 3 (apply stricter_bind; [strict|intros ?]). do 2 (apply stricter_if; [strict|]).
  do 3 (apply stricter_bind; [strict|intros ?]). apply stricter_if; [strict|].
  do 2 (apply stricter_bind; [strict|intros ?]). apply stricter_bind; [strict|]. intros [b c]. strict.
Qed.

Hint Resolve locktime_op_mono checkmultisig_op_mono : strict.

Lemma checksig_op_mono (opcode : Z) (sv : SigVersion) (st : eval_state) :
  stricter (checksig_op CheckLowS opcode f2 sv st) (checksig_op (C := C) CheckLowS opcode f1 sv st).
Proof.
  unfold checksig_op. do 3 (apply stricter_bind; [strict|intros ?]). apply stricter_bind; [strict|]. intros [[b d] c]. strict.
Qed.

Lemma checksigadd_op_mono (sv : SigVersion) (st : eval_state) :
  stricter (checksigadd_op CheckLowS f2 sv (has_flag f2 SCRIPT_VERIFY_MINIMALDATA) st)
           (checksigadd_op (C := C) CheckLowS f1 sv (has_flag f1 SCRIPT_VERIFY_MINIMALDATA) st).
Proof.
  unfold checksigadd_op. apply stricter_if; [strict|]. do 5 (apply stricter_bind; [strict|intros ?]).
  apply stricter_bind; [strict|]. intros [[b d] c]. strict.
Qed.

Lemma if_op_mono (opcode : Z) (sv : SigVersion) (fExec : bool) (st : eval_state) :
  stricter (if_op opcode f2 sv fExec st) (if_op (C := C) opcode f1 sv fExec st).
Proof. unfold if_op. strict. Qed.

Hint Resolve checksig_op_mono checksigadd_op_mono if_op_mono : strict.

Lemma exec_opcode_mono (opcode : Z) (sv : SigVersion) (fExec : bool) (pc : CScript) (st : eval_state) :
  stricter (exec_opcode CheckLowS opcode f2 sv fExec pc st) (exec_opcode CheckLowS opcode f1 sv fExec pc st).
Proof.
  unfold exec_opcode. cbv zeta. do 9 (apply stricter_if; [solve [strict]|]).
  apply stricter_if; [apply stricter_bind; [by apply stack_op_mono|intros ?; apply stricter_refl]|].
  do 10 (apply stricter_if; [solve [strict]|]). apply stricter_fail.
Qed.

Lemma eval_step_mono (sv : SigVersion) (pc : CScript) (st : eval_state) :
  stricter (eval_step CheckLowS f2 sv pc st) (eval_step CheckLowS f1 sv pc st).
Proof.
  unfold eval_step. cbv zeta. do 4 (apply stricter_if; [apply stricter_fail|]). apply stricter_test; [strict|].
  apply stricter_bind; [|strict]. apply stricter_if; [strict|]. apply stricter_if; [apply exec_opcode_mono|strict].
Qed.

Lemma eval_loop_mono (fuel : nat) (sv : SigVersion) (pc : CScript) (st : eval_state) :
  stricter (eval_loop CheckLowS fuel f2 sv pc st) (eval_loop CheckLowS fuel f1 sv pc st).
Proof.
  revert pc st. induction fuel as [|fuel IH]; intros [|b pc] st; cbn [eval_loop]; [apply stricter_refl..|].
  apply stricter_bind; [apply eval_step_mono|]. intros [pc' st']. apply IH.
Qed.

Lemma EvalScript_mono (s : list valtype) (script : CScript) (sv : SigVersion) (d : ScriptExecutionData) (c : C) :
  stricter (EvalScript CheckLowS s script f2 sv d c) (EvalScript CheckLowS s script f1 sv d c).
Proof.
  unfold EvalScript. apply stricter_bind; [strict|]. intros _. apply stricter_if; [strict|]. cbv zeta. apply stricter_bind; [|strict].
  pose proof (eval_loop_mono (length script) sv script (mkEval s [] cond_new 0 script 0 (set_codeseparator d 0xFFFFFFFF) c)) as H.
  intros st. destruct (eval_loop _ _ f2 _ _ _) as [st'|[]| |]; cbn; try done. by rewrite (H st' eq_refl).
Qed.

Lemma EvalScript'_mono (s : list valtype) (script : CScript) (sv : SigVersion) (c : C) :
  stricter (EvalScript' CheckLowS s script f2 sv c) (EvalScript' CheckLowS s script f1 sv c).
Proof. unfold EvalScript'. apply stricter_bind; [apply EvalScript_mono|]. intros ?. apply stricter_refl. Qed.

Lemma find_op_success_mono (fuel : nat) (pc : CScript) : stricter (find_op_success fuel pc f2) (find_op_success fuel pc f1).
Proof.
  revert pc. induction fuel as [|fuel IH]; intros [|b pc]; cbn [find_op_success]; [apply stricter_refl..|].
  apply stricter_if; [strict|]. apply stricter_if; [strict|apply IH].
Qed.

Lemma ExecuteWitnessScript_mono (span : list valtype) (script : CScript) (sv : SigVersion) (d : ScriptExecutionData) (c : C) :
  stricter (ExecuteWitnessScript CheckLowS span script f2 sv d c) (ExecuteWitnessScript CheckLowS span script f1 sv d c).
Proof.
  unfold ExecuteWitnessScript. apply stricter_bind; [apply stricter_if; [apply find_op_success_mono|strict]|]. intros b.
  do 3 (apply stricter_if; [apply stricter_refl|]). apply stricter_bind; [apply EvalScript_mono|]. intros ?. apply stricter_refl.
Qed.

(** Acceptance, when the checker may end in another state. *)
Definition accepting {A : Type} (m : result A) : Prop := exists a, m = Ret a.

Lemma stricter_accepting {A : Type} (m2 m1 : result A) : stricter m2 m1 -> accepting m2 -> accepting m1.
Proof. intros H [a Ha]. exists a. by apply H. Qed.

Lemma VerifyTaproot_mono (witness : list valtype) (program : list Z) (c : C) :
  accepting (VerifyTaproot CheckLowS CheckTapTweak witness program f2 c) -> accepting (VerifyTaproot CheckLowS CheckTapTweak witness program f1 c).
Proof.
  unfold VerifyTaproot. destruct (has_flag f1 SCRIPT_VERIFY_TAPROOT) eqn:E; cbn [negb]; [|by exists c].
  rewrite (has_flag_mono _ E). cbn [negb]. apply stricter_accepting. apply stricter_if; [strict|].
  destruct (pop_annex witness) as [[|sig [|x l]] d]; [strict| |].
  - apply stricter_bind; [strict|]. intros []. strict.
  - apply stricter_bind; [strict|]. intros [rest control]. apply stricter_bind; [strict|]. intros [rest' script]. cbv zeta.
    apply stricter_if; [strict|]. apply stricter_bind; [strict|]. intros ok. apply stricter_if; [strict|].
    apply stricter_if; [apply ExecuteWitnessScript_mono|strict].
Qed.

Lemma VerifyWitnessProgram_mono (witness : list valtype) (witversion : Z) (program : list Z) (is_p2sh : bool) (c : C) :
  accepting (VerifyWitnessProgram CheckLowS CheckTapTweak witness witversion program f2 is_p2sh c) ->
  accepting (VerifyWitnessProgram CheckLowS CheckTapTweak witness witversion program f1 is_p2sh c).
Proof.
  unfold VerifyWitnessProgram. destruct (witversion =? 0).
  - apply stricter_accepting. apply stricter_if.
    + destruct (SpanPopBack witness) as [[stack script]|]; [|strict]. apply stricter_if; [strict|apply ExecuteWitnessScript_mono].
    + apply stricter_if; [|strict]. apply stricter_if; [strict|apply ExecuteWitnessScript_mono].
  - destruct (_ && _ && _); [apply VerifyTaproot_mono|]. apply stricter_accepting. strict.
Qed.

(** The verification of a witness program changes the same things. *)
Lemma verify_program_mono (script : CScript) (malleated : bool) (e : ScriptError) (witness stack s' : list valtype) (is_p2sh had had' : bool) (c c2 : C) :
  has_flag f1 SCRIPT_VERIFY_WITNESS = true ->
  verify_program CheckLowS CheckTapTweak script malleated e witness f2 is_p2sh stack had c = Ret (s', had', c2) ->
  exists c1, verify_program CheckLowS CheckTapTweak script malleated e witness f1 is_p2sh stack had c = Ret (s', had', c1).
Proof.
  intros E. unfold verify_program. rewrite E, (has_flag_mono _ E). destruct (IsWitnessProgram script) as [[[v p]|]|]; cbn; [|by exists c2|done].
  destruct malleated; [done|]. pose proof (VerifyWitnessProgram_mono witness v p is_p2sh c) as H.
  destruct (VerifyWitnessProgram _ _ _ _ _ f2 _ _) as [c'|[]| |]; cbn; try done. intros [= <- <- <-].
  destruct (H (ex_intro _ c' eq_refl)) as [c1 ->]. by exists c1.
Qed.

Lemma p2sh_not_witness (script : CScript) : IsPayToScriptHash script = true -> IsWitnessProgram script = Some None.
Proof.
  unfold IsPayToScriptHash, IsWitnessProgram. rewrite !andb_true_iff, !Z.eqb_eq. intros [[[Hl H0] H1] H22].
  rewrite Hl. cbn. rewrite H0. done.
Qed.
End Flags.

(** ** The condition stack *)

(** What [ConditionStack] stands for: the values of the conditions, the innermost first. *)
Inductive cond_op := Push (f : bool) | Pop | Toggle.

Definition cond_spec (l : list bool) (o : cond_op) : option (list bool) :=
  match o, l with
  | Push f, _ => Some (f :: l)
  | Pop, _ :: l => Some l
  | Toggle, f :: l => Some (negb f :: l)
  | _, [] => None
  end.
Definition cond_run (c : ConditionStack) (o : cond_op) : result ConditionStack :=
  match o with Push f => Ret (cond_push c f) | Pop => cond_pop c | Toggle => toggle_top c end.

Fixpoint spec_ops (ops : list cond_op) (l : list bool) : option (list bool) :=
  match ops with [] => Some l | o :: ops => l ← cond_spec l o; spec_ops ops l end.
Fixpoint run_ops (ops : list cond_op) (c : ConditionStack) : result ConditionStack :=
  match ops with [] => Ret c | o :: ops => c ← cond_run c o; run_ops ops c end.

(** The position of the outermost false condition. *)
Fixpoint first_false (l : list bool) : option nat :=
  match l with
  | [] => None
  | f :: l' => match first_false l' with Some p => Some p | None => if f then None else Some (length l') end
  end.

Definition cond_represents (c : ConditionStack) (l : list bool) : Prop :=
  m_stack_size c = Z.of_nat (length l) /\ m_first_false_pos c = match first_false l with Some p => Z.of_nat p | None => NO_FALSE end.

Lemma first_false_lt (l : list bool) (p : nat) : first_false l = Some p -> (p < length l)%nat.
Proof.
  revert p. induction l as [|f l IH]; intros p H; [done|]. cbn in *. destruct (first_false l) as [q|]; [injection H as <-; specialize (IH q eq_refl); lia|].
  destruct f; [done|]. injection H as <-. lia.
Qed.

Lemma first_false_all (l : list bool) : forallb id l = bool_decide (first_false l = None).
Proof. induction l as [|f l IH]; [done|]. cbn. rewrite IH. destruct (first_false l); [by destruct f|]. by destruct f. Qed.

Lemma represents_cond_step (c : ConditionStack) (l : list bool) (o : cond_op) :
  cond_represents c l -> Z.of_nat (length l) + 1 < NO_FALSE ->
  match cond_spec l o with Some l' => exists c', cond_run c o = Ret c' /\ cond_represents c' l' | None => cond_run c o = Abort end.
Proof.
  destruct c as [size pos]. intros [Hs Hp] Hlt. cbn in Hs, Hp. subst size pos.
  assert (Hlt' : Z.of_nat (length l) + 1 < 2 ^ 32 - 1) by done.
  assert (Hpos : forall p, first_false l = Some p -> Z.of_nat p <> NO_FALSE) by (intros p E%first_false_lt; lia).
  destruct o as [f| |]; cbn [cond_spec cond_run].
  - eexists. split; [reflexivity|]. unfold cond_represents, cond_push. cbn -[Z.of_nat Z.eqb]. rewrite u32_small by (unfold is_u32; lia). split; [lia|].
    destruct (first_false l) as [p|]; [by rewrite (proj2 (Z.eqb_neq _ _) (Hpos p eq_refl))|]. rewrite Z.eqb_refl. by destruct f.
  - destruct l as [|f l]; [done|]. unfold cond_pop. cbn [m_stack_size m_first_false_pos length]. destruct (Z.gtb_spec (Z.of_nat (S (length l))) 0); [|lia].
    eexists. split; [reflexivity|]. unfold cond_represents. cbn [m_stack_size m_first_false_pos]. rewrite u32_small by (unfold is_u32; cbn [length] in Hlt'; lia).
    split; [lia|]. replace (Z.of_nat (S (length l)) - 1) with (Z.of_nat (length l)) by lia. cbn [first_false].
    destruct (first_false l) as [p|] eqn:E; [apply first_false_lt in E; by destruct (Z.eqb_spec (Z.of_nat p) (Z.of_nat (length l))); [lia|]|].
    destruct f; [|by rewrite Z.eqb_refl]. by destruct (Z.eqb_spec NO_FALSE (Z.of_nat (length l))).
  - destruct l as [|f l]; [done|]. unfold toggle_top. cbn [m_stack_size m_first_false_pos length]. destruct (Z.gtb_spec (Z.of_nat (S (length l))) 0); [|lia].
    eexists. split; [reflexivity|]. unfold cond_represents. rewrite u32_small by (unfold is_u32; cbn [length] in Hlt'; lia).
    replace (Z.of_nat (S (length l)) - 1) with (Z.of_nat (length l)) by lia. cbn [first_false length] in *.
    destruct (first_false l) as [p|] eqn:E.
    + apply first_false_lt in E. rewrite (proj2 (Z.eqb_neq _ _) (Hpos p eq_refl)). by destruct (Z.eqb_spec (Z.of_nat p) (Z.of_nat (length l))); [lia|].
    + destruct f; cbn [negb]; [by rewrite Z.eqb_refl|]. destruct (Z.eqb_spec (Z.of_nat (length l)) NO_FALSE) as [E2|E2]; [lia|].
      by rewrite Z.eqb_refl.
Qed.

Lemma cond_spec_length (l l' : list bool) (o : cond_op) : cond_spec l o = Some l' -> (length l' <= S (length l))%nat.
Proof. destruct o, l; intros E; try discriminate E; injection E as <-; cbn; lia. Qed.

Lemma spec_ops_length (ops : list cond_op) (l l' : list bool) : spec_ops ops l = Some l' -> (length l' <= length l + length ops)%nat.
Proof.
  revert l. induction ops as [|o ops IH]; intros l E; cbn in E; [injection E as <-; lia|]. destruct (cond_spec l o) as [l1|] eqn:E1; [|done].
  apply cond_spec_length in E1. apply IH in E. cbn. lia.
Qed.

Lemma represents_cond_ops (ops : list cond_op) (c : ConditionStack) (l : list bool) :
  cond_represents c l -> Z.of_nat (length l + length ops) < NO_FALSE ->
  match spec_ops ops l with Some l' => exists c', run_ops ops c = Ret c' /\ cond_represents c' l' | None => run_ops ops c = Abort end.
Proof.
  revert c l. induction ops as [|o ops IH]; intros c l Hr Hlt; cbn [spec_ops run_ops]; [by exists c|]. cbn [length] in Hlt.
  pose proof (represents_cond_step c l o Hr ltac:(lia)) as Hstep. destruct (cond_spec l o) as [l'|] eqn:E; cbn; [|by rewrite Hstep].
  destruct Hstep as (c' & -> & Hr'). cbn. apply IH; [done|]. apply cond_spec_length in E. lia.
Qed.

(** [ConditionStack] refines the vector of booleans it replaces: after any sequence of fewer than [2^32 - 1] pushes, pops and toggles of its top it
    is empty exactly when the vector is, and [all_true] holds exactly when no condition of the vector is false; it asserts exactly when a pop or
    a toggle finds the vector empty. *)
Theorem ConditionStack_refines (ops : list cond_op) :
  Z.of_nat (length ops) < NO_FALSE ->
  match spec_ops ops [] with
  | Some l => exists c, run_ops ops cond_new = Ret c /\ cond_empty c = bool_decide (l = []) /\ all_true c = forallb id l
  | None => run_ops ops cond_new = Abort
  end.
Proof.
  intros Hlt. pose proof (represents_cond_ops ops cond_new [] ltac:(done) ltac:(done)) as H. destruct (spec_ops ops []) as [l|] eqn:El; [|done].
  apply spec_ops_length in El. cbn in El. destruct H as (c & Hc & Hs & Hp). exists c. split; [done|]. unfold cond_empty, all_true. rewrite Hs, Hp, first_false_all. split.
  - destruct l; [done|]. rewrite bool_decide_false by done. apply Z.eqb_neq. cbn. lia.
  - destruct (first_false l) as [p|] eqn:E; [|done]. rewrite bool_decide_false by done. apply Z.eqb_neq. apply first_false_lt in E. lia.
Qed.

Lemma ConditionStack_refines_witness :
  exists c, run_ops [Push true; Push false; Push true; Pop; Toggle] cond_new = Ret c /\ cond_empty c = false /\ all_true c = true.
Proof. exact (ConditionStack_refines [Push true; Push false; Push true; Pop; Toggle] eq_refl). Defined.

(** ** Matching signatures with keys *)

Section Multisig.
Context (CheckLowS : list Z -> bool) {C : Type} {HC : BaseSignatureChecker C} (sv : SigVersion).

(** A checker that answers as [valid] does, whatever its state is. *)
Context (ready : C -> Prop) (valid : CScript -> valtype -> valtype -> bool).
Context (answers : forall c sig key code, ready c -> exists c', CheckECDSASignature c sig key code sv = Ret (valid code sig key, c') /\ ready c').

(** The signatures are valid for some of the keys, in the order of the keys. *)
Inductive matches (code : CScript) : list valtype -> list valtype -> Prop :=
  | matches_nil keys : matches code [] keys
  | matches_take sig key sigs keys : valid code sig key = true -> matches code sigs keys -> matches code (sig :: sigs) (key :: keys)
  | matches_skip key sigs keys : matches code sigs keys -> matches code sigs (key :: keys).

Lemma matches_length (code : CScript) (sigs keys : list valtype) : matches code sigs keys -> (length sigs <= length keys)%nat.
Proof. induction 1; cbn; lia. Qed.

Lemma matches_tail (code : CScript) (sig : valtype) (sigs keys : list valtype) : matches code (sig :: sigs) keys -> matches code sigs keys.
Proof.
  intros H. remember (sig :: sigs) as l eqn:E. revert sig sigs E. induction H; intros ? ? E; simplify_eq; [by apply matches_skip|]. apply matches_skip. eauto.
Qed.

(** Taking the first key that fits loses nothing. *)
Lemma matches_cons (code : CScript) (sig key : valtype) (sigs keys : list valtype) :
  matches code (sig :: sigs) (key :: keys) <-> if valid code sig key then matches code sigs keys else matches code (sig :: sigs) keys.
Proof.
  split.
  - intros H. inversion H as [|? ? ? ? Hv Hm|? ? ? Hm]; subst; [by rewrite Hv|]. destruct (valid code sig key); [by apply matches_tail in Hm|done].
  - destruct (valid code sig key) eqn:E; [by apply matches_take|by apply matches_skip].
Qed.

Lemma stacktop_drop (s : list valtype) (i : nat) (v : valtype) : (1 <= i)%nat -> stacktop s i = Ret v -> drop (i - 1) s = v :: drop (S i - 1) s.
Proof.
  intros Hi. unfold stacktop. destruct (s !! (i - 1)%nat) as [x|] eqn:E; [|done]. intros [= ->]. replace (S i - 1)%nat with (S (i - 1)) by lia.
  by apply drop_S.
Qed.

Lemma multisig_loop_matches (fuel isig ikey nsigs nkeys : nat) (s : list valtype) (code : CScript) (flags : Z) (c c' : C) (b : bool) :
  ready c -> (1 <= isig)%nat -> (1 <= ikey)%nat -> (nsigs <= nkeys)%nat -> (isig + nsigs <= length s + 1)%nat ->
  multisig_loop CheckLowS fuel isig ikey nsigs nkeys s code flags sv c = Ret (b, c') ->
  b = true <-> matches code (take nsigs (drop (isig - 1) s)) (take nkeys (drop (ikey - 1) s)).
Proof.
  revert isig ikey nsigs nkeys c. induction fuel as [|fuel IH]; intros isig ikey [|nsigs] nkeys c Hr Hi Hk Hle Hs; cbn [multisig_loop]; try done.
  1,2: intros [= <- _]; split; [intros _; apply matches_nil|done].
  destruct nkeys as [|nkeys]; [lia|]. intros H. apply bind_Ret in H as [sig [Hsig H]]. apply bind_Ret in H as [key [Hkey H]].
  apply bind_Ret in H as [[] [_ H]]. apply bind_Ret in H as [[] [_ H]]. destruct (answers c sig key code Hr) as (c1 & E & Hr1). rewrite E in H.
  cbn [mbind result_bind] in H. cbv zeta in H. replace (S nsigs - 1)%nat with nsigs in H by lia. replace (S nkeys - 1)%nat with nkeys in H by lia.
  rewrite (stacktop_drop _ _ _ Hi Hsig), (stacktop_drop _ _ _ Hk Hkey). cbn [take]. rewrite matches_cons. destruct (valid code sig key).
  - destruct (nkeys <? nsigs)%nat eqn:En; [apply Nat.ltb_lt in En; lia|]. apply Nat.ltb_ge in En.
    exact (IH (S isig) (S ikey) nsigs nkeys c1 Hr1 ltac:(lia) ltac:(lia) En ltac:(lia) H).
  - destruct (nkeys <? S nsigs)%nat eqn:En.
    + apply Nat.ltb_lt in En. injection H as <- _. split; [done|]. intros Hm%matches_length. exfalso.
      cbn [length] in Hm. rewrite !length_take, !length_drop in Hm. lia.
    + apply Nat.ltb_ge in En. pose proof (IH isig (S ikey) (S nsigs) nkeys c1 Hr1 Hi ltac:(lia) En Hs H) as Hiff.
      rewrite (stacktop_drop _ _ _ Hi Hsig) in Hiff. done.
Qed.

Lemma multisig_cleanup_drop (n ikey2 : nat) (b : bool) (flags : Z) (s s' : list valtype) : multisig_cleanup n ikey2 b flags s = Ret s' -> s' = drop n s.
Proof.
  revert ikey2 s. induction n as [|n IH]; intros ikey2 s H; cbn [multisig_cleanup] in H; [by injection H|].
  apply bind_Ret in H as [[] [_ H]]. apply bind_Ret in H as [s1 [Hp H]]. destruct s as [|v s]; [done|]. injection Hp as <-. exact (IH _ _ H).
Qed.

Lemma getint_small (x : Z) : 0 <= x -> getint x <= 2 ^ 30 -> getint x = x.
Proof. unfold getint. intros H0. destruct (Z.gtb_spec x (2 ^ 31 - 1)); [lia|]. destruct (Z.ltb_spec x (- 2 ^ 31)); lia. Qed.

(** The part of the stack that [OP_CHECKMULTISIG] reads, from the top. *)
Definition multisig_stack (kv sv' dummy : valtype) (keys sigs rest : list valtype) : list valtype := kv :: keys ++ sv' :: sigs ++ dummy :: rest.

(** What [OP_CHECKMULTISIG] leaves on the stack. *)
Lemma checkmultisig_op_matches (flags : Z) (fMinimal : bool) (kv sv' dummy : valtype) (keys sigs rest : list valtype) (st st' : eval_state (C := C)) :
  ready (checker st) -> stack st = multisig_stack kv sv' dummy keys sigs rest ->
  script_num kv fMinimal 4 = Ret (Z.of_nat (length keys)) -> script_num sv' fMinimal 4 = Ret (Z.of_nat (length sigs)) ->
  checkmultisig_op CheckLowS OP_CHECKMULTISIG flags sv fMinimal st = Ret st' ->
  exists code b, drop_signatures (length sigs) 0 (3 + length keys) (stack st) (pbegincodehash st) flags sv = Ret code /\
    stack st' = bool_vch b :: rest /\ (b = true <-> matches code sigs keys).
Proof.
  intros Hr Es Hk Hs. unfold multisig_stack in Es. set (n := length keys) in *. set (m := length sigs) in *.
  assert (Hlen : length (stack st) = (n + m + 3 + length rest)%nat) by (rewrite Es; cbn; rewrite !length_app; cbn; rewrite length_app; cbn; lia).
  assert (Hsv : stacktop (stack st) (2 + n) = Ret sv').
  { unfold stacktop. replace (2 + n - 1)%nat with (S n) by lia. rewrite Es, lookup_cons_ne_0 by done. cbn [Nat.pred]. unfold n. by rewrite lookup_app_r, Nat.sub_diag by done. }
  assert (Hkeys : take n (drop 1 (stack st)) = keys) by (rewrite Es; apply take_app_length).
  assert (Hsigs : drop (2 + n) (stack st) = sigs ++ dummy :: rest).
  { rewrite Es. cbn. rewrite drop_app_ge by lia. by replace (S n - length keys)%nat with 1%nat by lia. }
  unfold checkmultisig_op. destruct (bool_decide _); [done|]. cbv zeta. intros H. apply bind_Ret in H as [[] [_ H]].
  apply bind_Ret in H as [x [Hx H]]. assert (x = kv) as -> by (rewrite Es in Hx; cbn in Hx; congruence). rewrite Hk in H. cbn [mbind result_bind] in H.
  destruct (_ || _) eqn:Ek; [done|]. apply orb_false_iff in Ek as [_ Ek]. rewrite Z.gtb_ltb in Ek. apply Z.ltb_ge in Ek. unfold MAX_PUBKEYS_PER_MULTISIG in Ek.
  rewrite !getint_small in H by lia. rewrite getint_small in Ek by lia. rewrite Nat2Z.id in H.
  destruct (_ >? MAX_OPS_PER_SCRIPT); [done|]. apply bind_Ret in H as [[] [_ H]]. rewrite Hsv in H. cbn [mbind result_bind] in H. rewrite Hs in H. cbn [mbind result_bind] in H.
  destruct (_ || _) eqn:Em; [done|]. apply orb_false_iff in Em as [_ Em]. rewrite Z.gtb_ltb in Em. apply Z.ltb_ge in Em.
  rewrite !getint_small in H by lia. rewrite getint_small in Em by lia. rewrite Nat2Z.id in H.
  apply bind_Ret in H as [[] [_ H]]. apply bind_Ret in H as [code [Hcode H]]. apply bind_Ret in H as [[b c] [Hloop H]].
  exists code, b. split; [exact Hcode|]. apply bind_Ret in H as [s1 [Hclean H]]. apply multisig_cleanup_drop in Hclean. subst s1.
  replace (S (2 + n) + m - 1)%nat with (2 + n + m)%nat in H by lia. rewrite <- drop_drop, Hsigs in H. unfold m in H. rewrite drop_app_length in H. split.
  - cbn [need stacktop popstack length Nat.ltb Nat.leb lookup list_lookup Nat.sub mbind result_bind] in H. destruct (_ && _); [done|]. cbn in H. by injection H as <-.
  - apply (multisig_loop_matches _ _ _ _ _ _ _ _ _ _ _ Hr) in Hloop; [|lia..]. rewrite Hloop. change (2 - 1)%nat with 1%nat. rewrite Hkeys.
    replace (S (2 + n) - 1)%nat with (2 + n)%nat by lia. rewrite Hsigs. unfold m. by rewrite take_app_length.
Qed.
End Multisig.

(** C20: [OP_CHECKMULTISIG] accepts m-of-n. With a checker that answers [valid], on a stack that holds n keys and m signatures it leaves true exactly when the
    signatures can be assigned to keys for which they are valid, in the order of the keys, on the script code without the signatures; the search that
    never goes back loses no assignment. *)
Theorem checkmultisig_m_of_n (CheckLowS : list Z -> bool) {C : Type} {HC : BaseSignatureChecker C} (sv : SigVersion) (ready : C -> Prop)
    (valid : CScript -> valtype -> valtype -> bool) (flags : Z) (fMinimal : bool) (kv nv dummy : valtype) (keys sigs rest : list valtype)
    (st st' : eval_state (C := C)) :
  (forall c sig key code, ready c -> exists c', CheckECDSASignature c sig key code sv = Ret (valid code sig key, c') /\ ready c') ->
  ready (checker st) -> stack st = multisig_stack kv nv dummy keys sigs rest ->
  script_num kv fMinimal 4 = Ret (Z.of_nat (length keys)) -> script_num nv fMinimal 4 = Ret (Z.of_nat (length sigs)) ->
  checkmultisig_op CheckLowS OP_CHECKMULTISIG flags sv fMinimal st = Ret st' ->
  exists code b, drop_signatures (length sigs) 0 (3 + length keys) (stack st) (pbegincodehash st) flags sv = Ret code /\
    stack st' = bool_vch b :: rest /\ (b = true <-> matches valid code sigs keys).
Proof. intros Ha. by apply checkmultisig_op_matches. Qed.

(** Two of three: the signatures are valid for the first and the last key. *)
Definition toy_checker : BaseSignatureChecker unit := {|
  CheckECDSASignature c sig key _ _ := Ret (bool_decide (sig = key), c);
  CheckSchnorrSignature _ _ _ _ _ := Fail None;
  CheckLockTime _ _ := Ret false;
  CheckSequence _ _ := Ret false
|}.

Lemma checkmultisig_m_of_n_witness :
  exists code b, drop_signatures 2 0 6 (multisig_stack [3] [2] [] [[33]; [22]; [11]] [[33]; [11]] []) [] 0 WITNESS_V0 = Ret code /\
    (b = true <-> matches (fun _ sig key => bool_decide (sig = key)) code [[33]; [11]] [[33]; [22]; [11]]) /\ b = true.
Proof.
  destruct (checkmultisig_m_of_n (HC := toy_checker) (fun _ => true) WITNESS_V0 (fun _ => True) (fun _ sig key => bool_decide (sig = key)) 0 false [3] [2] []
    [[33]; [22]; [11]] [[33]; [11]] [] (mkEval (multisig_stack [3] [2] [] [[33]; [22]; [11]] [[33]; [11]] []) [] cond_new 0 [] 0 no_execdata tt)
    (mkEval [[1]] [] cond_new 3 [] 0 no_execdata tt)) as (code & b & H1 & H2 & H3).
  - intros [] sig key code _. exists tt. split; [reflexivity|exact I].
  - exact I.
  - reflexivity.
  - reflexivity.
  - reflexivity.
  - vm_compute. reflexivity.
  - exists code, b. split; [exact H1|]. split; [exact H3|]. destruct b; [reflexivity|discriminate H2].
Defined.

(** ** Signature encodings *)

(** The bytes of a positive DER integer: not empty, not negative, no superfluous zero byte in front. *)
Definition der_integer (l : list Z) : Prop :=
  match l with
  | [] => False
  | [b] => b < 128
  | b :: b' :: _ => b < 128 /\ (b = 0 -> 128 <= b')
  end.

(** A DER sequence of two integers and a hash type. *)
Definition der_signature (r s : list Z) (hashtype : Z) : list Z :=
  [0x30; Z.of_nat (length r + length s + 4); 0x02; Z.of_nat (length r)] ++ r ++ [0x02; Z.of_nat (length s)] ++ s ++ [hashtype].

(** The tests of an integer of [n] bytes that starts at [l]. *)
Definition integer_tests (n : Z) (l : list Z) : bool :=
  if n =? 0 then false
  else if negb (Z.land (l !!! 0%nat) 0x80 =? 0) then false
  else if (n >? 1) && (l !!! 0%nat =? 0) && (Z.land (l !!! 1%nat) 0x80 =? 0) then false
  else true.

Lemma integer_tests_spec (l rest : list Z) : Forall is_u8 l -> integer_tests (Z.of_nat (length l)) (l ++ rest) = true <-> der_integer l.
Proof.
  intros Hl. unfold integer_tests. destruct l as [|b [|b' l]]; [by cbn| |].
  - apply Forall_cons in Hl as [Hb _]. change (([b] ++ rest) !!! 0%nat) with b. cbn [length Z.of_nat Pos.of_succ_nat Z.eqb Z.gtb Z.compare Pos.compare Pos.compare_cont andb].
    rewrite sign_bit by done. cbn [der_integer]. destruct (Z.ltb_spec b 128); cbn; (split; [done || lia|done || lia]).
  - apply Forall_cons in Hl as [Hb Hl]. apply Forall_cons in Hl as [Hb' _]. change (((b :: b' :: l) ++ rest) !!! 0%nat) with b.
    change (((b :: b' :: l) ++ rest) !!! 1%nat) with b'. rewrite !sign_bit by done. cbn [der_integer length].
    destruct (Z.eqb_spec (Z.of_nat (S (S (length l)))) 0); [lia|]. destruct (Z.gtb_spec (Z.of_nat (S (S (length l)))) 1); [|lia]. cbn [andb].
    destruct (Z.ltb_spec b 128), (Z.eqb_spec b 0), (Z.ltb_spec b' 128); cbn; split; intros; try done; lia.
Qed.

Ltac test b := destruct b; cbn [negb andb]; rewrite ?andb_false_r; cbn [andb]; try reflexivity.

Lemma IsValidSignatureEncoding_tests (a0 a1 a2 lenR : Z) (t : list Z) :
  0 <= lenR ->
  IsValidSignatureEncoding (a0 :: a1 :: a2 :: lenR :: t) =
    (let size := Z.of_nat (length t) + 4 in let u := drop (Z.to_nat lenR) t in
     negb (size <? 9) && negb (size >? 73) && (a0 =? 0x30) && (a1 =? size - 3) && negb (5 + lenR >=? size) && (lenR + u !!! 1%nat + 7 =? size) && (a2 =? 0x02) &&
     integer_tests lenR t && (u !!! 0%nat =? 0x02) && integer_tests (u !!! 1%nat) (drop 2 u)).
Proof.
  intros H. unfold IsValidSignatureEncoding, integer_tests. set (sig := a0 :: a1 :: a2 :: lenR :: t).
  assert (Hat : forall i, 0 <= i -> sig !!! Z.to_nat (4 + i) = t !!! Z.to_nat i).
  { intros i Hi. replace (Z.to_nat (4 + i)) with (4 + Z.to_nat i)%nat by lia. reflexivity. }
  change (sig !!! Z.to_nat 0) with a0. change (sig !!! Z.to_nat 1) with a1. change (sig !!! Z.to_nat 2) with a2. change (sig !!! Z.to_nat 3) with lenR.
  change (sig !!! Z.to_nat 4) with (t !!! 0%nat). change (sig !!! Z.to_nat 5) with (t !!! 1%nat).
  replace (5 + lenR) with (4 + (1 + lenR)) by lia. replace (lenR + 4) with (4 + lenR) by lia. replace (lenR + 6) with (4 + (2 + lenR)) by lia.
  replace (lenR + 7) with (4 + (3 + lenR)) by lia. rewrite !Hat by lia. cbv zeta. rewrite !lookup_total_drop.
  replace (Z.to_nat (1 + lenR)) with (Z.to_nat lenR + 1)%nat by lia. replace (Z.to_nat lenR) with (Z.to_nat lenR + 0)%nat at 2 by lia.
  replace (Z.to_nat (2 + lenR)) with (Z.to_nat lenR + 2)%nat by lia. replace (Z.to_nat (3 + lenR)) with (Z.to_nat lenR + 3)%nat by lia.
  unfold sig. cbn [length]. replace (Z.of_nat (S (S (S (S (length t)))))) with (Z.of_nat (length t) + 4) by lia.
  generalize (Z.of_nat (length t) + 4). intros size. generalize (t !!! (Z.to_nat lenR + 0)%nat) (t !!! (Z.to_nat lenR + 1)%nat). intros two lenS. clear Hat.
  test (size <? 9). test (size >? 73). test (a0 =? 48). test (a1 =? size - 3). test (4 + (1 + lenR) >=? size). test (lenR + lenS + 7 =? size). test (a2 =? 2).
  test (lenR =? 0). test (Z.land (t !!! 0%nat) 128 =? 0). test ((lenR >? 1) && (t !!! 0%nat =? 0) && (Z.land (t !!! 1%nat) 128 =? 0)). test (two =? 2).
Qed.

Lemma split_at (l : list Z) (n : Z) : 0 <= n <= Z.of_nat (length l) -> exists l1 l2, l = l1 ++ l2 /\ n = Z.of_nat (length l1).
Proof. intros Hn. exists (take (Z.to_nat n) l), (drop (Z.to_nat n) l). rewrite take_drop, length_take. split; [done|lia]. Qed.

(** C36: [IsValidSignatureEncoding] accepts strict DER and nothing else: a signature of at most 73 bytes passes exactly when it is a DER sequence of two positive
    integers in their shortest form, with every length in one byte, followed by a hash type (BIP66). *)
Theorem IsValidSignatureEncoding_der (sig : list Z) :
  Forall is_u8 sig ->
  IsValidSignatureEncoding sig = true <->
  (length sig <= 73)%nat /\ exists r s hashtype, sig = der_signature r s hashtype /\ der_integer r /\ der_integer s.
Proof.
  intros Hb. split.
  - intros H. destruct sig as [|a0 [|a1 [|a2 [|lenR t]]]]; try discriminate H. do 4 apply Forall_cons in Hb as [? Hb].
    match goal with H : is_u8 lenR |- _ => rename H into HR end. unfold is_u8 in HR. rewrite IsValidSignatureEncoding_tests in H by lia. cbv zeta in H.
    repeat apply andb_true_iff in H as [H ?]. rewrite ?negb_true_iff, ?Z.gtb_ltb, ?Z.geb_leb, ?Z.eqb_eq, ?Z.ltb_ge, ?Z.leb_gt in *.
    destruct (split_at t lenR ltac:(lia)) as (r & u & -> & ->). rewrite Nat2Z.id, drop_app_length, length_app in *.
    destruct u as [|two [|lenS v]]; [cbn in *; lia..|]. change ((two :: lenS :: v) !!! 0%nat) with two in *. change ((two :: lenS :: v) !!! 1%nat) with lenS in *.
    change (drop 2 (two :: lenS :: v)) with v in *. cbn [length] in *. apply Forall_app in Hb as [Hr Hb]. do 2 apply Forall_cons in Hb as [? Hb].
    match goal with H : is_u8 lenS |- _ => rename H into HS end. unfold is_u8 in HS.
    destruct (split_at v lenS ltac:(lia)) as (s & w & -> & ->). rewrite length_app in *. apply Forall_app in Hb as [Hs _].
    destruct w as [|ht [|? ?]]; [cbn in *; lia| |cbn in *; lia]. cbn [length] in *. rewrite integer_tests_spec in * by done.
    split; [repeat (rewrite length_app || cbn [length]); lia|]. exists r, s, ht. split_and!; try done. unfold der_signature. cbn [app]. repeat f_equal; try lia; try done.
  - intros [Hl (r & s & ht & -> & Hr & Hs)]. unfold der_signature in *. cbn [app] in *. repeat apply Forall_cons in Hb as [? Hb].
    apply Forall_app in Hb as [Hrb Hb]. repeat apply Forall_cons in Hb as [? Hb]. apply Forall_app in Hb as [Hsb _].
    assert (length r <> 0 /\ length s <> 0)%nat as [Hr0 Hs0] by (by destruct r, s). cbn [length] in Hl. rewrite length_app in Hl. cbn [length] in Hl. rewrite length_app in Hl. cbn in Hl.
    rewrite IsValidSignatureEncoding_tests by lia. cbv zeta. rewrite Nat2Z.id, drop_app_length, (proj2 (integer_tests_spec r _ Hrb) Hr).
    match goal with |- context [drop 2 ?u] => change (drop 2 u) with (s ++ [ht]); change (u !!! 0%nat) with 2; change (u !!! 1%nat) with (Z.of_nat (length s)) end.
    rewrite (proj2 (integer_tests_spec s _ Hsb) Hs), length_app. cbn [length]. rewrite length_app. cbn [length].
    rewrite !andb_true_iff, !negb_true_iff, Z.gtb_ltb, Z.geb_leb, !Z.eqb_eq, !Z.ltb_ge, Z.leb_gt. lia.
Qed.

Lemma IsValidSignatureEncoding_der_witness :
  IsValidSignatureEncoding [0x30; 6; 2; 1; 5; 2; 1; 7; 1] = true /\ (length [0x30; 6; 2; 1; 5; 2; 1; 7; 1] <= 73)%nat.
Proof.
  assert (Hb : Forall is_u8 [0x30; 6; 2; 1; 5; 2; 1; 7; 1]) by (repeat (apply Forall_cons_2; [split; [discriminate|reflexivity]|]); apply Forall_nil_2).
  split; [reflexivity|]. exact (proj1 (proj1 (IsValidSignatureEncoding_der _ Hb) eq_refl)).
Defined.
