(* ===== verification/InterpreterSafe.v ===== *)
(** * The limits of the script interpreter

    [safe P m]: the computation [m] ends with a value for which [P] holds, with a script error or with the exception of a bad script number; it does not
    abort and throws nothing else. What the interpreter asks of a checker is the class [LawfulChecker]; the elements of its stacks are vectors of at most
    520 bytes. The operations are shown safe one by one. *)

From Stdlib Require Import ZifyNat.
From S2P Require Import Prelude Serialize ArithUint256 Chain Params Transaction Script TxVerify Sha256 Sha256Spec Hash Hash160.
From S2P Require Import Interpreter Sighash VerifyScript.
#[local] Open Scope Z_scope.

Definition safe {A : Type} (P : A -> Prop) (m : result A) : Prop :=
  match m with Ret a => P a | Fail _ => True | Throw x => x = scriptnum_error | Abort => False end.

Lemma safe_bind {A B : Type} (P : A -> Prop) (Q : B -> Prop) (m : result A) (k : A -> result B) :
  safe P m -> (forall a, P a -> safe Q (k a)) -> safe Q (m ≫= k).
Proof. intros Hm Hk. destruct m; cbn in *; auto. Qed.

Lemma safe_weaken {A : Type} (P Q : A -> Prop) (m : result A) : (forall a, P a -> Q a) -> safe P m -> safe Q m.
Proof. intros H Hm. destruct m; cbn in *; auto. Qed.

Lemma safe_error {A : Type} (P : A -> Prop) (e : ScriptError) : safe P (set_error e).
Proof. exact I. Qed.

Lemma safe_if {A : Type} (P : A -> Prop) (b : bool) (m n : result A) :
  (b = true -> safe P m) -> (b = false -> safe P n) -> safe P (if b then m else n).
Proof. destruct b; auto. Qed.

(** Without any exception. *)
Definition ended {A : Type} (P : A -> Prop) (m : result A) : Prop := match m with Ret a => P a | Fail _ => True | _ => False end.

Lemma ended_safe {A : Type} (P : A -> Prop) (m : result A) : ended P m -> safe P m.
Proof. by destruct m. Qed.

(** ** Elements *)

Definition vch_ok (v : valtype) : Prop := Forall is_u8 v /\ Z.of_nat (length v) <= MAX_SCRIPT_ELEMENT_SIZE.
Definition stack_ok (s : list valtype) : Prop := Forall vch_ok s.

Lemma bool_vch_ok (b : bool) : vch_ok (bool_vch b).
Proof. destruct b; split; try done; repeat constructor; unfold is_u8; lia. Qed.

Lemma digest_ok (n : nat) (v : valtype) : length v = n /\ Forall is_u8 v -> (n <= 32)%nat -> vch_ok v.
Proof. intros [Hl Hv] Hn. split; [done|]. rewrite Hl. unfold MAX_SCRIPT_ELEMENT_SIZE. lia. Qed.

Lemma hash_vch_ok (opcode : Z) (v : valtype) : vch_ok v -> vch_ok (hash_vch opcode v).
Proof.
  intros [_ Hl]. assert (Hn : 8 * Z.of_nat (length (concat [v])) < 2 ^ 64).
  { cbn [concat]. rewrite app_nil_r. unfold MAX_SCRIPT_ELEMENT_SIZE in Hl. lia. }
  pose proof (CRIPEMD160_hash (repeat 0 64) [v] eq_refl Hn) as E1. pose proof (CSHA1_hash (repeat 0 64) [v] eq_refl Hn) as E2.
  pose proof (Writes_hash (repeat 0 64) [v] eq_refl Hn) as [E3 E4]. cbn [fold_left] in E1, E2, E3, E4. fold new_hasher in E3, E4.
  pose proof (CRIPEMD160_hash (repeat 0 64) [sha256 (concat [v])] eq_refl) as E5. cbn [fold_left] in E5.
  unfold hash_vch. destruct (opcode =? OP_RIPEMD160); [rewrite E1; eapply digest_ok; [apply ripemd160_digest|lia]|].
  destruct (opcode =? OP_SHA1); [rewrite E2; eapply digest_ok; [apply sha1_digest|lia]|].
  destruct (opcode =? OP_SHA256); [rewrite E3; eapply digest_ok; [apply sha256_digest|lia]|].
  destruct (opcode =? OP_HASH160); [|rewrite E4; eapply digest_ok; [apply sha256_digest|lia]].
  unfold CHash160_Finalize. rewrite E3, E5; [eapply digest_ok; [apply ripemd160_digest|lia]|].
  cbn [concat]. rewrite app_nil_r, app_nil_r, (proj1 (sha256_digest v)). lia.
Qed.

(** ** Numbers *)

Lemma getvch_safe (n : Z) : - 2 ^ 63 < n < 2 ^ 63 -> safe vch_ok (getvch n).
Proof.
  intros Hn. unfold getvch. destruct (Z.eq_dec n 0) as [->|Hne]; [by split; [constructor|]|].
  destruct (serialize_spec n Hn Hne) as (body & b & E & Hb & _ & Hv & ->). apply Forall_app in Hb as [Hbody Hb].
  apply Forall_cons in Hb as [Hb _].
  assert (Hl : (length body <= 8)%nat).
  { destruct (abs_bytes_spec 8 (Z.abs n) ltac:(cbn; lia)) as (l & E' & _ & _ & _ & Hl). rewrite E in E'. injection E' as <-. rewrite length_app in Hl. cbn in Hl. lia. }
  unfold is_u8 in *. destruct (Z.ltb_spec b 128); cbn; (split; [apply Forall_app; split; [done|]|rewrite length_app; cbn; unfold MAX_SCRIPT_ELEMENT_SIZE; lia]);
    destruct (n <? 0); repeat constructor; unfold is_u8; lia.
Qed.

Lemma script_num_safe (v : valtype) (fMinimal : bool) (m : Z) :
  1 <= m <= 7 -> Forall is_u8 v -> safe (fun n => - 2 ^ (8 * m - 1) < n < 2 ^ (8 * m - 1)) (script_num v fMinimal m).
Proof.
  intros Hm Hv. unfold script_num. destruct (CScriptNum v fMinimal m) as [n|] eqn:E; [cbn [safe]|done].
  assert (Hp : 0 < 2 ^ (8 * m - 1)) by (apply Z.pow_pos_nonneg; lia).
  destruct v as [|b body _] using rev_ind.
  { unfold CScriptNum in E. cbn [length] in E. destruct (Z.of_nat 0 >? m); [done|]. destruct fMinimal; injection E as <-; cbn; lia. }
  apply Forall_app in Hv as [Hbody Hb]. apply Forall_cons in Hb as [Hb _].
  assert (Hl : Z.of_nat (length body) + 1 <= m).
  { unfold CScriptNum in E. rewrite length_app, Z.gtb_ltb in E. cbn [length] in E.
    destruct (Z.ltb_spec m (Z.of_nat (length body + 1))); [done|lia]. }
  rewrite CScriptNum_snoc in E by (done || lia). destruct (Z.ltb_spec m (Z.of_nat (length body) + 1)); [done|].
  destruct (_ && _ && _); [done|]. injection E as <-. rewrite set_vch_spec by (done || lia).
  pose proof (le_val_bound body Hbody) as Hval. set (p := 8 * Z.of_nat (length body)) in *. unfold is_u8 in Hb.
  assert (2 ^ (p + 7) <= 2 ^ (8 * m - 1)) as Hle by (apply Z.pow_le_mono_r; lia). rewrite Z.pow_add_r in Hle by lia.
  destruct (Z.ltb_spec b 128); nia.
Qed.

Lemma checked_i64_safe (n : Z) : - 2 ^ 63 <= n < 2 ^ 63 -> safe (fun x => x = n) (checked_i64 n).
Proof. intros Hn. unfold checked_i64. destruct (Z.leb_spec (- 2 ^ 63) n), (Z.ltb_spec n (2 ^ 63)); cbn; lia. Qed.

(** ** Stacks *)

Lemma stack_ok_cons (v : valtype) (s : list valtype) : stack_ok (v :: s) <-> vch_ok v /\ stack_ok s.
Proof. apply Forall_cons. Qed.

Lemma stack_ok_erase (s : list valtype) (a b : nat) : stack_ok s -> stack_ok (erase_top s a b).
Proof. intros H. unfold stack_ok, erase_top in *. apply Forall_app. split; [by apply Forall_take|by apply Forall_drop]. Qed.

Lemma stacktop_safe (s : list valtype) (i : nat) : stack_ok s -> (i - 1 < length s)%nat -> safe vch_ok (stacktop s i).
Proof.
  intros Hs Hi. unfold stacktop. destruct (s !! (i - 1)%nat) as [v|] eqn:E; [exact (Forall_lookup_1 _ _ _ _ Hs E)|].
  apply lookup_ge_None in E. lia.
Qed.

Lemma popstack_safe (s : list valtype) : stack_ok s -> s <> [] -> safe (fun s' => stack_ok s' /\ length s = S (length s')) (popstack s).
Proof. intros Hs Hn. destruct s as [|v s]; [done|]. apply stack_ok_cons in Hs as [_ Hs]. by split. Qed.

Lemma need_safe (n : nat) (s : list valtype) (e : ScriptError) : safe (fun _ => (n <= length s)%nat) (need n s e).
Proof. unfold need. destruct (Nat.ltb_spec (length s) n); cbn; [done|lia]. Qed.

(** The cases on the elements an operation looks at. *)
Ltac cells s := destruct s as [|?x1 [|?x2 [|?x3 [|?x4 [|?x5 [|?x6 s]]]]]]; cbn; try done; rewrite ?stack_ok_cons in *; try tauto.

Lemma pick_roll_safe (roll fMinimal : bool) (s a : list valtype) :
  stack_ok s -> stack_ok a ->
  safe (fun r => stack_ok r.1 /\ stack_ok r.2)
    (_ ← need 2 s SCRIPT_ERR_INVALID_STACK_OPERATION;
     top ← stacktop s 1;
     num ← script_num top fMinimal 4;
     let n := getint num in
     s ← popstack s;
     if (n <? 0) || (n >=? Z.of_nat (length s)) then set_error SCRIPT_ERR_INVALID_STACK_OPERATION
     else
     vch ← stacktop s (Z.to_nat n + 1);
     Ret (vch :: (if roll then erase_top s (Z.to_nat n + 1) (Z.to_nat n) else s), a)).
Proof.
  intros Hs Ha. eapply safe_bind; [apply need_safe|]. cbn beta. intros _ Hl.
  eapply safe_bind; [apply stacktop_safe; [done|lia]|]. intros top [Htop _].
  eapply safe_bind; [by apply script_num_safe|]. intros num _. cbv zeta.
  eapply safe_bind; [apply popstack_safe; [done|intros ->; cbn in Hl; lia]|]. intros s' [Hs' _].
  apply safe_if; intros Hr; [done|]. apply orb_false_iff in Hr as [Hr1 Hr2]. rewrite Z.geb_leb in Hr2. apply Z.ltb_ge in Hr1. apply Z.leb_gt in Hr2.
  eapply safe_bind; [apply stacktop_safe; [done|lia]|]. intros v Hv. cbn. rewrite stack_ok_cons.
  split; [split; [done|]|done]. destruct roll; [by apply stack_ok_erase|done].
Qed.

Lemma stack_op_safe (opcode : Z) (fMinimal : bool) (s a : list valtype) :
  stack_ok s -> stack_ok a -> Z.of_nat (length s) < 2 ^ 63 -> safe (fun r => stack_ok r.1 /\ stack_ok r.2) (stack_op opcode fMinimal s a).
Proof.
  intros Hs Ha Hlen. unfold stack_op. apply safe_if; intros _; [cells s|]. apply safe_if; intros _; [cells a|].
  do 6 (apply safe_if; intros _; [cells s|]).
  apply safe_if; intros _; [cells s; destruct (CastToBool x1); rewrite ?stack_ok_cons; tauto|].
  apply safe_if; intros _.
  { eapply safe_bind; [apply getvch_safe; lia|]. intros v Hv. cbn. rewrite stack_ok_cons. tauto. }
  do 4 (apply safe_if; intros _; [cells s|]).
  apply safe_if; intros _; [exact (pick_roll_safe (opcode =? OP_ROLL) fMinimal s a Hs Ha)|].
  do 3 (apply safe_if; intros _; [cells s|]). done.
Qed.

(** ** Arithmetic, comparison and hashes *)

Lemma b2z_i64 (b : bool) : - 2 ^ 63 < Z.b2z b < 2 ^ 63.
Proof. destruct b; cbn; lia. Qed.

Lemma unary_num_safe (opcode n : Z) :
  is_one_of opcode unary_opcodes = true -> - 2 ^ 31 < n < 2 ^ 31 -> safe (fun x => - 2 ^ 63 < x < 2 ^ 63) (unary_num opcode n).
Proof.
  intros Ho Hn. unfold unary_num. do 3 (apply safe_if; intros ?; [eapply safe_weaken; [|apply checked_i64_safe]; cbn beta; lia|]).
  apply safe_if; intros ?; [apply safe_if; intros ?; [eapply safe_weaken; [|apply checked_i64_safe]; cbn beta; lia|cbn; lia]|].
  do 2 (apply safe_if; intros ?; [apply b2z_i64|]). cbn in Ho. by repeat match goal with H : (opcode =? _) = false |- _ => rewrite H in Ho; clear H end.
Qed.

Lemma binary_num_safe (opcode n m : Z) :
  is_one_of opcode binary_opcodes = true -> - 2 ^ 31 < n < 2 ^ 31 -> - 2 ^ 31 < m < 2 ^ 31 ->
  safe (fun x => - 2 ^ 63 < x < 2 ^ 63) (binary_num opcode n m).
Proof.
  intros Ho Hn Hm. unfold binary_num. do 2 (apply safe_if; intros ?; [eapply safe_weaken; [|apply checked_i64_safe]; cbn beta; lia|]).
  do 9 (apply safe_if; intros ?; [apply b2z_i64|]).
  do 2 (apply safe_if; intros ?; [cbn; case_match; lia|]).
  cbn in Ho. by repeat match goal with H : (opcode =? _) = false |- _ => rewrite H in Ho; clear H end.
Qed.

(** The number in an element of the stack. *)
Lemma number_safe (v : valtype) (fMinimal : bool) : vch_ok v -> safe (fun n => - 2 ^ 31 < n < 2 ^ 31) (script_num v fMinimal 4).
Proof. intros [Hv _]. exact (script_num_safe v fMinimal 4 ltac:(lia) Hv). Qed.

Lemma unary_op_safe (opcode : Z) (fMinimal : bool) (s : list valtype) :
  is_one_of opcode unary_opcodes = true -> stack_ok s -> safe stack_ok (unary_op opcode fMinimal s).
Proof.
  intros Ho Hs. unfold unary_op. destruct s as [|x s]; [done|]. cbn [need stacktop popstack length Nat.ltb Nat.leb lookup list_lookup Nat.sub mbind result_bind].
  apply stack_ok_cons in Hs as [Hx Hs]. eapply safe_bind; [by apply number_safe|]. intros n Hn. cbn beta in Hn.
  eapply safe_bind; [by apply unary_num_safe|]. intros r Hr. eapply safe_bind; [by apply getvch_safe|]. intros v Hv. by apply stack_ok_cons.
Qed.

Lemma binary_op_safe (opcode : Z) (fMinimal : bool) (s : list valtype) :
  is_one_of opcode binary_opcodes = true -> stack_ok s -> safe stack_ok (binary_op opcode fMinimal s).
Proof.
  intros Ho Hs. unfold binary_op. destruct s as [|x [|y s]]; [done..|].
  cbn [need stacktop popstack length Nat.ltb Nat.leb lookup list_lookup Nat.sub mbind result_bind].
  rewrite !stack_ok_cons in Hs. destruct Hs as (Hx & Hy & Hs).
  eapply safe_bind; [by apply number_safe|]. intros n Hn. eapply safe_bind; [by apply number_safe|]. intros m Hm.
  eapply safe_bind; [by apply binary_num_safe|]. intros r Hr. eapply safe_bind; [by apply getvch_safe|]. intros v Hv. cbv zeta.
  apply safe_if; intros _; [cbn; destruct (CastToBool v); done|]. by apply stack_ok_cons.
Qed.

Lemma within_op_safe (fMinimal : bool) (s : list valtype) : stack_ok s -> safe stack_ok (within_op fMinimal s).
Proof.
  intros Hs. unfold within_op. destruct s as [|x [|y [|z s]]]; [done..|].
  cbn [need stacktop popstack length Nat.ltb Nat.leb lookup list_lookup Nat.sub mbind result_bind].
  rewrite !stack_ok_cons in Hs. destruct Hs as (Hx & Hy & Hz & Hs).
  do 3 (eapply safe_bind; [by apply number_safe|]; intros ? _). apply stack_ok_cons. split; [apply bool_vch_ok|done].
Qed.

Lemma equal_op_safe (opcode : Z) (s : list valtype) : stack_ok s -> safe stack_ok (equal_op opcode s).
Proof.
  intros Hs. unfold equal_op. destruct s as [|x [|y s]]; [done..|]. cbn. rewrite !stack_ok_cons in Hs.
  apply safe_if; intros _; [destruct (bool_decide _); cbn; tauto|]. apply stack_ok_cons. split; [apply bool_vch_ok|tauto].
Qed.

Lemma size_op_safe (s : list valtype) : stack_ok s -> safe stack_ok (size_op s).
Proof.
  intros Hs. unfold size_op. destruct s as [|x s]; [done|]. cbn. pose proof Hs as [[_ Hx] _]%stack_ok_cons. unfold MAX_SCRIPT_ELEMENT_SIZE in Hx.
  eapply safe_bind; [apply getvch_safe; lia|]. intros v Hv. by apply stack_ok_cons.
Qed.

Lemma hash_op_safe (opcode : Z) (s : list valtype) : stack_ok s -> safe stack_ok (hash_op opcode s).
Proof.
  intros Hs. unfold hash_op. destruct s as [|x s]; [done|]. apply stack_ok_cons in Hs as [Hx Hs].
  cbn [need stacktop popstack length Nat.ltb Nat.leb lookup list_lookup Nat.sub mbind result_bind safe].
  apply stack_ok_cons. split; [by apply hash_vch_ok|done].
Qed.

Lemma verify_op_safe (s : list valtype) : stack_ok s -> safe stack_ok (verify_op s).
Proof. intros Hs. unfold verify_op. destruct s as [|x s]; [done|]. apply stack_ok_cons in Hs as [_ Hs]. cbn. by destruct (CastToBool x). Qed.

(** ** The condition stack *)

Lemma cond_pop_safe (c : ConditionStack) : 0 <= m_stack_size c -> cond_empty c = false -> safe (fun c' => 0 <= m_stack_size c') (cond_pop c).
Proof.
  unfold cond_empty, cond_pop. intros Hc He. apply Z.eqb_neq in He. destruct (Z.gtb_spec (m_stack_size c) 0); [|lia].
  cbn. apply Z.mod_pos_bound. lia.
Qed.

Lemma toggle_top_safe (c : ConditionStack) : 0 <= m_stack_size c -> cond_empty c = false -> safe (fun c' => 0 <= m_stack_size c') (toggle_top c).
Proof.
  unfold cond_empty, toggle_top. intros Hc He. apply Z.eqb_neq in He. destruct (Z.gtb_spec (m_stack_size c) 0); [|lia]. cbn. by repeat case_match.
Qed.

(** ** Deleting signatures *)

Lemma skip_copies_enough (fuel : nat) (b pc : list Z) (n : Z) :
  b <> [] -> (length pc <= fuel)%nat -> exists pc' n', skip_copies fuel b pc n = Some (pc', n') /\ (length pc' <= length pc)%nat /\ (Forall is_u8 pc -> Forall is_u8 pc').
Proof.
  intros Hb. assert (Hl : (0 < length b)%nat) by (destruct b; cbn; [done|lia]). revert pc n. induction fuel as [|fuel IH]; intros pc n Hf; cbn [skip_copies].
  - destruct (Nat.leb_spec (length b) (length pc)); [lia|]. by exists pc, n.
  - destruct (Nat.leb_spec (length b) (length pc)); cbn [andb]; [|by exists pc, n]. destruct (bool_decide _); [|by exists pc, n].
    destruct (IH (drop (length b) pc) (n + 1)) as (pc' & n' & -> & Hle & Hu); [rewrite length_drop; lia|].
    rewrite length_drop in Hle. exists pc', n'. split; [done|]. split; [lia|]. intros Hpc. apply Hu. by apply Forall_drop.
Qed.

Lemma GetScriptOp_bytes (pc : list Z) : Forall is_u8 pc -> Forall is_u8 (op_data (GetScriptOp pc)) /\ Forall is_u8 (op_rest (GetScriptOp pc)).
Proof.
  intros H. destruct pc as [|o pc]; [done|]. apply Forall_cons in H as [Ho H]. cbn [GetScriptOp]. destruct (o <=? OP_PUSHDATA4); [|done].
  assert (Hp : match push_size o pc with Some (_, pc') => Forall is_u8 pc' | None => True end).
  { unfold push_size. repeat case_match; try done; repeat apply Forall_cons in H as [? H]; naive_solver. }
  destruct (push_size o pc) as [[n pc']|]; [|done]. destruct (_ <? n); [done|]. cbn. split; [by apply Forall_take|by apply Forall_drop].
Qed.

Lemma GetScriptOp_shorter (pc : list Z) : op_ok (GetScriptOp pc) = true -> (length (op_rest (GetScriptOp pc)) < length pc)%nat.
Proof. intros H. apply GetScriptOp_rest. by intros ->. Qed.

Lemma FindAndDelete_loop_enough (fuel : nat) (b pc2 pc r : list Z) (n : Z) :
  b <> [] -> (length pc < fuel)%nat -> Forall is_u8 pc2 -> Forall is_u8 pc -> Forall is_u8 r ->
  exists r' pc' n', FindAndDelete_loop fuel b pc2 pc r n = Some (r', pc', n') /\ Forall is_u8 r' /\ Forall is_u8 pc'.
Proof.
  intros Hb. revert pc2 pc r n. induction fuel as [|fuel IH]; intros pc2 pc r n Hf H2 H1 Hr; [lia|]. cbn [FindAndDelete_loop].
  destruct (skip_copies_enough (length pc) b pc n Hb ltac:(lia)) as (pc' & n' & -> & Hle & Hu). cbn.
  assert (Forall is_u8 (r ++ take (length pc2 - length pc) pc2)) by (apply Forall_app; split; [done|by apply Forall_take]).
  destruct (op_ok (GetScriptOp pc')) eqn:E; [|naive_solver]. pose proof (GetScriptOp_shorter _ E). destruct (GetScriptOp_bytes pc' (Hu H1)) as [_ Hrest].
  apply IH; [lia|by apply Hu|done..].
Qed.

Lemma FindAndDelete_enough (script b : CScript) :
  Forall is_u8 script -> exists s n, FindAndDelete script b = Some (s, n) /\ Forall is_u8 s.
Proof.
  intros Hs. unfold FindAndDelete. destruct b as [|x b]; [by exists script, 0|].
  destruct (FindAndDelete_loop_enough (S (length script)) (x :: b) script script [] 0) as (r & pc & n & -> & Hr & Hp); try done; [lia|].
  cbn. destruct (n >? 0); [|by exists script, n]. eexists _, n. split; [done|]. by apply Forall_app.
Qed.

Lemma drop_signature_safe (code : CScript) (sig : valtype) (flags : Z) (sv : SigVersion) :
  Forall is_u8 code -> safe (Forall is_u8) (drop_signature code sig flags sv).
Proof.
  intros Hc. unfold drop_signature. destruct (bool_decide _); [|done].
  destruct (FindAndDelete_enough code (push_data [] sig) Hc) as (s & n & -> & Hs). by destruct (_ && _).
Qed.

Lemma drop_signatures_safe (n k isig : nat) (s : list valtype) (code : CScript) (flags : Z) (sv : SigVersion) :
  stack_ok s -> Forall is_u8 code -> (isig + k + n <= length s + 1)%nat -> (1 <= isig)%nat ->
  safe (Forall is_u8) (drop_signatures n k isig s code flags sv).
Proof.
  intros Hs. revert k code. induction n as [|n IH]; intros k code Hc Hl Hi; cbn [drop_signatures]; [done|].
  eapply safe_bind; [apply stacktop_safe; [done|lia]|]. intros sig _. eapply safe_bind; [by apply drop_signature_safe|]. intros code' Hc'. apply IH; [done|lia|done].
Qed.

(** ** Checkers *)

(** What the execution data must hold for a Schnorr signature to be checked. *)
Definition schnorr_ready (sv : SigVersion) (d : ScriptExecutionData) : Prop :=
  (sv = TAPROOT \/ sv = TAPSCRIPT) /\ m_annex_init d = true /\
  (sv = TAPSCRIPT -> m_tapleaf_hash_init d = true /\ m_codeseparator_pos_init d = true).

(** What the execution data must hold before a tapscript runs. *)
Definition execdata_ok (sv : SigVersion) (d : ScriptExecutionData) : Prop :=
  sv = TAPSCRIPT ->
  m_annex_init d = true /\ m_tapleaf_hash_init d = true /\ m_validation_weight_left_init d = true /\ 0 <= m_validation_weight_left d < 2 ^ 63.

Lemma tapscript_ready (d : ScriptExecutionData) : execdata_ok TAPSCRIPT d -> m_codeseparator_pos_init d = true -> schnorr_ready TAPSCRIPT d.
Proof. intros H Hs. destruct (H eq_refl) as (? & ? & _). split; [by right|]. by split. Qed.

(** A check may only fill in the hash of the output. *)
Definition execdata_kept (d d' : ScriptExecutionData) : Prop := exists h, d' = match h with Some h => set_output_hash d h | None => d end.

Lemma execdata_kept_ok (sv : SigVersion) (d d' : ScriptExecutionData) :
  execdata_kept d d' -> execdata_ok sv d -> execdata_ok sv d' /\ m_codeseparator_pos_init d' = m_codeseparator_pos_init d.
Proof. intros [[h|] ->] H; by split. Qed.

(** What [EvalScript] relies on in a checker: [checker_ok sv c] says that the checker is ready for signatures of version [sv]; it stays ready. *)
Class LawfulChecker (C : Type) {HC : BaseSignatureChecker C} := {
  checker_ok : SigVersion -> C -> Prop;
  ecdsa_safe (c : C) (sig key : valtype) (code : CScript) (sv : SigVersion) :
    checker_ok sv c -> pre_tapscript sv = true ->
    ended (fun r => forall sv', checker_ok sv' c -> checker_ok sv' r.2) (CheckECDSASignature c sig key code sv);
  schnorr_safe (c : C) (sig key : valtype) (sv : SigVersion) (d : ScriptExecutionData) :
    checker_ok sv c -> length key = 32%nat -> schnorr_ready sv d ->
    ended (fun r => (forall sv', checker_ok sv' c -> checker_ok sv' r.2) /\ execdata_kept d r.1) (CheckSchnorrSignature c sig key sv d);
  locktime_safe (c : C) (sv : SigVersion) (n : Z) : checker_ok sv c -> ended (fun _ => True) (CheckLockTime c n);
  sequence_safe (c : C) (sv : SigVersion) (n : Z) : checker_ok sv c -> ended (fun _ => True) (CheckSequence c n)
}.

(** [BaseSignatureChecker] itself: nothing is valid. *)
#[export] Instance base_checker : BaseSignatureChecker unit := {
  CheckECDSASignature c _ _ _ _ := Ret (false, c);
  CheckSchnorrSignature c _ _ _ _ := Fail None;
  CheckLockTime _ _ := Ret false;
  CheckSequence _ _ := Ret false
}.

#[export] Instance base_checker_lawful : LawfulChecker unit.
Proof. by refine {| checker_ok := fun _ _ => True |}. Defined.

Section Safe.
Context (CheckLowS : list Z -> bool).
Context {C : Type} {HC : BaseSignatureChecker C} {HL : LawfulChecker C}.

(** The signature versions that a verification may come to. *)
Context (needs : SigVersion -> Prop).
Definition all_ready (c : C) : Prop := forall sv, needs sv -> checker_ok sv c.

Lemma CheckSignatureEncoding_safe (sig : valtype) (flags : Z) : safe (fun _ => True) (CheckSignatureEncoding CheckLowS sig flags).
Proof. unfold CheckSignatureEncoding, IsLowDERSignature. repeat (case_match; cbn; try done). Qed.

Lemma CheckPubKeyEncoding_safe (key : valtype) (flags : Z) (sv : SigVersion) : safe (fun _ => True) (CheckPubKeyEncoding key flags sv).
Proof. unfold CheckPubKeyEncoding. repeat (case_match; cbn; try done). Qed.

Lemma EvalChecksig_safe (sig key : valtype) (code : CScript) (d : ScriptExecutionData) (flags : Z) (sv : SigVersion) (c : C) :
  sv <> TAPROOT -> needs sv -> Forall is_u8 code -> execdata_ok sv d -> m_codeseparator_pos_init d = true -> all_ready c ->
  safe (fun r => execdata_ok sv r.1.2 /\ m_codeseparator_pos_init r.1.2 = true /\ all_ready r.2) (EvalChecksig CheckLowS sig key code d flags sv c).
Proof.
  intros Hsv Hneed Hcode Hd Hsep Hc. unfold EvalChecksig. destruct sv; try done.
  1,2: eapply (safe_bind (fun r => all_ready r.2)); [|intros [b c'] Hc'; by split_and!];
    eapply (safe_bind (fun _ => True)); [done|]; intros _ _; eapply safe_bind; [by apply drop_signature_safe|]; intros code' Hcode';
    eapply safe_bind; [apply CheckSignatureEncoding_safe|]; intros _ _; eapply safe_bind; [apply CheckPubKeyEncoding_safe|]; intros _ _;
    eapply safe_bind; [apply ended_safe, ecdsa_safe; [by apply Hc|done]|]; intros [b c'] Hc'; case_match; [done|]; intros sv' Hsv'; by apply Hc', Hc.
  unfold EvalChecksigTapscript. destruct (Hd eq_refl) as (Ha & Ht & Hw & Hr).
  eapply (safe_bind (fun d' => execdata_ok TAPSCRIPT d' /\ m_codeseparator_pos_init d' = true)); cbn.
  - apply safe_if; intros _; [|done]. rewrite Hw. cbn. eapply safe_bind; [apply checked_i64_safe; unfold VALIDATION_WEIGHT_PER_SIGOP_PASSED; lia|].
    intros w ->. apply safe_if; intros Hneg; [done|]. apply Z.ltb_ge in Hneg. unfold VALIDATION_WEIGHT_PER_SIGOP_PASSED in *. cbn.
    split; [|done]. intros _. cbn. split_and!; try done; lia.
  - intros d' [Hd' Hsep']. apply safe_if; intros _; [done|].
    apply safe_if; intros Hk; [|apply safe_if; intros _; [done|by split_and!]]. apply Nat.eqb_eq in Hk.
    apply safe_if; intros _; [|by split_and!]. eapply safe_bind; [apply ended_safe, schnorr_safe; [by apply Hc|done|by apply tapscript_ready]|]. intros [d'' c''] [Hc'' Hkept]. cbn in *.
    destruct (execdata_kept_ok TAPSCRIPT _ _ Hkept Hd') as [? ->]. split; [done|]. split; [done|]. intros sv' Hsv'. by apply Hc'', Hc.
Qed.

Lemma multisig_loop_safe (fuel isig ikey nsigs nkeys : nat) (s : list valtype) (code : CScript) (flags : Z) (sv : SigVersion) (c : C) :
  pre_tapscript sv = true -> needs sv -> stack_ok s -> all_ready c -> (nkeys < fuel)%nat -> (nsigs <= nkeys)%nat ->
  (1 <= isig)%nat -> (1 <= ikey)%nat -> (isig + nsigs <= length s + 1)%nat -> (ikey + nkeys <= length s + 1)%nat ->
  safe (fun r => all_ready r.2) (multisig_loop CheckLowS fuel isig ikey nsigs nkeys s code flags sv c).
Proof.
  intros Hsv Hneed Hs. revert isig ikey nsigs nkeys c. induction fuel as [|fuel IH]; intros isig ikey nsigs nkeys c Hc Hf Hn H1 H2 Hi Hk; [lia|].
  cbn [multisig_loop]. destruct nsigs as [|nsigs]; [done|].
  eapply safe_bind; [apply stacktop_safe; [done|lia]|]. intros sig _. eapply safe_bind; [apply stacktop_safe; [done|lia]|]. intros key _.
  eapply safe_bind; [apply CheckSignatureEncoding_safe|]; intros _ _; eapply safe_bind; [apply CheckPubKeyEncoding_safe|]; intros _ _.
  eapply safe_bind; [by apply ended_safe, ecdsa_safe; [apply Hc|]|]. intros [b c'] Hc0. assert (Hc' : all_ready c') by (intros sv' Hsv'; by apply Hc0, Hc). apply safe_if; intros E; [done|]. apply Nat.ltb_ge in E.
  destruct b; apply IH; try done; lia.
Qed.

Lemma multisig_cleanup_safe (n ikey2 : nat) (b : bool) (flags : Z) (s : list valtype) :
  stack_ok s -> (n <= length s)%nat -> safe (fun s' => stack_ok s' /\ (length s = n + length s')%nat) (multisig_cleanup n ikey2 b flags s).
Proof.
  revert ikey2 s. induction n as [|n IH]; intros ikey2 s Hs Hl; cbn [multisig_cleanup]; [done|].
  destruct s as [|v s]; [cbn in Hl; lia|]. pose proof Hs as [_ Hs']%stack_ok_cons. eapply (safe_bind (fun _ => True)).
  - apply safe_if; intros _; [|done]. cbn. by apply safe_if.
  - intros _ _. cbn. eapply safe_weaken; [|apply IH; [done|cbn in Hl; lia]]. cbn. intros s' [? ->]. by split.
Qed.

(** ** Opcodes *)

Definition max_ops (sv : SigVersion) : Z := if pre_tapscript sv then MAX_OPS_PER_SCRIPT else 0.

(** The types of the local variables of [EvalScript]. *)
Record state_ok (sv : SigVersion) (st : eval_state (C := C)) : Prop := {
  ok_stack : stack_ok (stack st);
  ok_altstack : stack_ok (altstack st);
  ok_vfExec : 0 <= m_stack_size (vfExec st);
  ok_ops : 0 <= nOpCount st <= max_ops sv;
  ok_code : Forall is_u8 (pbegincodehash st);
  ok_execdata : execdata_ok sv (execdata st);
  ok_codesep : m_codeseparator_pos_init (execdata st) = true;
  ok_checker : all_ready (checker st)
}.

Lemma set_stack_ok (sv : SigVersion) (st : eval_state) (s : list valtype) : state_ok sv st -> stack_ok s -> state_ok sv (set_stack st s).
Proof. by intros [] ?. Qed.

Lemma on_stack_safe (sv : SigVersion) (st : eval_state) (r : result (list valtype)) :
  state_ok sv st -> safe stack_ok r -> safe (state_ok sv) (s ← r; Ret (set_stack st s)).
Proof. intros Hst Hr. eapply safe_bind; [done|]. intros s Hs. by apply set_stack_ok. Qed.

Lemma locktime_op_safe (opcode flags : Z) (fMinimal : bool) (sv : SigVersion) (st : eval_state) :
  needs sv -> state_ok sv st -> safe (state_ok sv) (locktime_op opcode flags fMinimal st).
Proof.
  intros Hneed Hst. unfold locktime_op. apply safe_if; intros _; [done|]. eapply safe_bind; [apply need_safe|]. cbn beta. intros _ Hl.
  eapply safe_bind; [apply stacktop_safe; [apply Hst|lia]|]. intros top [Htop _]. eapply safe_bind; [by apply script_num_safe|]. intros n _.
  apply safe_if; intros _; [done|]. apply safe_if; intros _.
  - eapply safe_bind; [by apply ended_safe, (locktime_safe _ sv), Hst|]. by intros [] _.
  - apply safe_if; intros _; [done|]. eapply safe_bind; [by apply ended_safe, (sequence_safe _ sv), Hst|]. by intros [] _.
Qed.

Lemma if_op_safe (opcode flags : Z) (fExec : bool) (sv : SigVersion) (st : eval_state) :
  state_ok sv st -> safe (state_ok sv) (if_op opcode flags sv fExec st).
Proof.
  intros Hst. unfold if_op. assert (Hc : forall b, 0 <= m_stack_size (cond_push (vfExec st) b)) by (intros b; apply Z.mod_pos_bound; lia).
  apply safe_if; intros _; [|destruct Hst; split; auto; apply Hc]. unfold need, stacktop, popstack. destruct Hst. destruct (stack st) as [|v s] eqn:E; [done|].
  cbn -[cond_push]. apply stack_ok_cons in ok_stack0 as [_ Hs]. repeat (apply safe_if; intros _; [done|]). split; try done. apply Hc.
Qed.

Lemma checksig_op_safe (opcode flags : Z) (sv : SigVersion) (st : eval_state) :
  sv <> TAPROOT -> needs sv -> state_ok sv st -> safe (state_ok sv) (checksig_op CheckLowS opcode flags sv st).
Proof.
  intros Hsv Hneed Hst. unfold checksig_op. destruct (stack st) as [|key [|sig s]] eqn:E; [done..|]. cbn -[EvalChecksig].
  destruct Hst. rewrite E, !stack_ok_cons in ok_stack0. eapply safe_bind; [by apply EvalChecksig_safe|].
  intros [[b d] c] (Hd & Hsep & Hc). cbn in Hd, Hsep, Hc. eapply (safe_bind stack_ok); cbn.
  - apply safe_if; intros _; [destruct b; cbn; tauto|]. apply stack_ok_cons. split; [apply bool_vch_ok|tauto].
  - by intros s' Hs'.
Qed.

Lemma checksigadd_op_safe (flags : Z) (fMinimal : bool) (sv : SigVersion) (st : eval_state) :
  sv <> TAPROOT -> needs sv -> state_ok sv st -> safe (state_ok sv) (checksigadd_op CheckLowS flags sv fMinimal st).
Proof.
  intros Hsv Hneed Hst. unfold checksigadd_op. apply safe_if; intros _; [done|]. destruct (stack st) as [|key [|num [|sig s]]] eqn:E; [done..|].
  cbn -[EvalChecksig script_num]. destruct Hst. rewrite E, !stack_ok_cons in ok_stack0. destruct ok_stack0 as (Hk & Hn & Hsg & Hs).
  eapply safe_bind; [by apply number_safe|]. intros n Hnum. cbn beta in Hnum. eapply safe_bind; [by apply EvalChecksig_safe|].
  intros [[b d] c] (Hd & Hsep & Hc). cbn in Hd, Hsep, Hc. eapply safe_bind; [apply checked_i64_safe; destruct b; lia|]. intros r ->.
  eapply safe_bind; [apply getvch_safe; destruct b; lia|]. intros v Hv. split; try done. by apply stack_ok_cons.
Qed.

Lemma checkmultisig_op_safe (opcode flags : Z) (fMinimal : bool) (sv : SigVersion) (st : eval_state) :
  sv <> TAPROOT -> needs sv -> state_ok sv st -> safe (state_ok sv) (checkmultisig_op CheckLowS opcode flags sv fMinimal st).
Proof.
  intros Hsv Hneed Hst. unfold checkmultisig_op. apply safe_if; intros Ht; [done|]. apply bool_decide_eq_false in Ht.
  assert (Hp : pre_tapscript sv = true) by (by destruct sv). destruct Hst. unfold max_ops in *. rewrite Hp in ok_ops0. cbv zeta.
  eapply safe_bind; [apply need_safe|]. cbn beta. intros _ Hl. eapply safe_bind; [apply stacktop_safe; [done|lia]|]. intros x Hx.
  eapply safe_bind; [by apply number_safe|]. intros keys _. set (k := getint keys).
  apply safe_if; intros Hk; [done|]. apply orb_false_iff in Hk as [Hk _]. apply Z.ltb_ge in Hk.
  apply safe_if; intros Hops; [done|]. rewrite Z.gtb_ltb in Hops. apply Z.ltb_ge in Hops.
  eapply safe_bind; [apply need_safe|]. cbn beta. intros _ Hl2. eapply safe_bind; [apply stacktop_safe; [done|lia]|]. intros y Hy.
  eapply safe_bind; [by apply number_safe|]. intros sigs _. set (n := getint sigs).
  apply safe_if; intros Hn; [done|]. apply orb_false_iff in Hn as [Hn0 Hnk]. rewrite Z.gtb_ltb in Hnk. apply Z.ltb_ge in Hn0, Hnk.
  eapply safe_bind; [apply need_safe|]. cbn beta. intros _ Hl3.
  eapply safe_bind; [apply drop_signatures_safe; [done..|lia|lia]|]. intros code Hcode.
  eapply safe_bind; [apply multisig_loop_safe; try done; lia|]. intros [b c] Hc. cbn in Hc.
  eapply safe_bind; [apply multisig_cleanup_safe; [done|lia]|]. cbn beta. intros s [Hs Hls].
  destruct s as [|dummy s]; [done|]. apply stack_ok_cons in Hs as [_ Hs]. cbn [need stacktop popstack length Nat.ltb Nat.leb lookup list_lookup Nat.sub mbind result_bind].
  destruct (_ && _); [done|]. cbn [mbind result_bind]. eapply (safe_bind stack_ok).
  - apply safe_if; intros _; [by destruct b|]. apply stack_ok_cons. split; [apply bool_vch_ok|done].
  - intros s' Hs'. split; try done. cbn. unfold max_ops. rewrite Hp. lia.
Qed.

Lemma exec_opcode_safe (opcode flags : Z) (sv : SigVersion) (fExec : bool) (pc : CScript) (st : eval_state) :
  sv <> TAPROOT -> needs sv -> Forall is_u8 pc -> 0 <= opcode < 256 -> Z.of_nat (length (stack st)) < 2 ^ 63 -> state_ok sv st ->
  safe (state_ok sv) (exec_opcode CheckLowS opcode flags sv fExec pc st).
Proof.
  intros Hsv Hneed Hpc Hop Hlen Hst. unfold exec_opcode. cbv zeta. pose proof (ok_stack _ _ Hst) as Hs. pose proof (ok_vfExec _ _ Hst) as Hv.
  apply safe_if; intros _.
  { eapply safe_bind; [apply getvch_safe; unfold OP_1; lia|]. intros v Hvch. apply set_stack_ok; [done|by apply stack_ok_cons]. }
  apply safe_if; intros _; [done|]. apply safe_if; intros _; [by apply locktime_op_safe|].
  apply safe_if; intros _; [by case_match|]. apply safe_if; intros _; [by apply if_op_safe|].
  apply safe_if; intros _.
  { apply safe_if; intros E; [done|]. eapply safe_bind; [by apply toggle_top_safe|]. intros c Hc. by destruct Hst. }
  apply safe_if; intros _.
  { apply safe_if; intros E; [done|]. eapply safe_bind; [by apply cond_pop_safe|]. intros c Hc. by destruct Hst. }
  apply safe_if; intros _; [by apply on_stack_safe, verify_op_safe|]. apply safe_if; intros _; [done|].
  apply safe_if; intros _.
  { eapply safe_bind; [apply stack_op_safe; [done|apply Hst|done]|]. intros [s a] [Hs' Ha']. by destruct Hst. }
  apply safe_if; intros _; [by apply on_stack_safe, size_op_safe|]. apply safe_if; intros _; [by apply on_stack_safe, equal_op_safe|].
  apply safe_if; intros ?; [by apply on_stack_safe, unary_op_safe|]. apply safe_if; intros ?; [by apply on_stack_safe, binary_op_safe|].
  apply safe_if; intros _; [by apply on_stack_safe, within_op_safe|]. apply safe_if; intros _; [by apply on_stack_safe, hash_op_safe|].
  apply safe_if; intros _; [by destruct Hst|]. apply safe_if; intros _; [by apply checksig_op_safe|].
  apply safe_if; intros _; [by apply checksigadd_op_safe|]. apply safe_if; intros _; [by apply checkmultisig_op_safe|]. done.
Qed.

(** ** The loop *)

Definition within_limits (st : eval_state (C := C)) : Prop := Z.of_nat (length (stack st) + length (altstack st)) <= MAX_STACK_SIZE.

Lemma GetScriptOp_code (pc : list Z) : Forall is_u8 pc -> 0 <= op_code (GetScriptOp pc) < 256.
Proof.
  intros H. destruct pc as [|o pc]; [done|]. apply Forall_cons in H as [Ho _]. unfold is_u8 in Ho. cbn [GetScriptOp].
  repeat case_match; cbn; unfold OP_INVALIDOPCODE; lia.
Qed.

Lemma eval_step_safe (flags : Z) (sv : SigVersion) (pc : CScript) (st : eval_state) :
  sv <> TAPROOT -> needs sv -> pc <> [] -> Forall is_u8 pc -> state_ok sv st -> Z.of_nat (length (stack st)) < 2 ^ 63 ->
  safe (fun r => Forall is_u8 r.1 /\ (length r.1 < length pc)%nat /\ state_ok sv r.2 /\ within_limits r.2) (eval_step CheckLowS flags sv pc st).
Proof.
  intros Hsv Hneed Hne Hpc Hst Hlim. unfold eval_step. cbv zeta. destruct (GetScriptOp_bytes pc Hpc) as [Hdata Hrest].
  pose proof (GetScriptOp_code pc Hpc) as Hcode. pose proof (GetScriptOp_rest pc Hne) as Hshort. set (op := GetScriptOp pc) in *.
  apply safe_if; intros _; [done|]. apply safe_if; intros Hpush; [done|]. rewrite Z.gtb_ltb in Hpush. apply Z.ltb_ge in Hpush.
  set (st1 := if pre_tapscript sv && (op_code op >? OP_16) then _ else _). apply safe_if; intros Hops; [done|].
  assert (Hst1 : state_ok sv st1 /\ stack st1 = stack st).
  { unfold st1, max_ops in *. destruct (pre_tapscript sv && (op_code op >? OP_16)) eqn:E; [|done]. split; [|done].
    rewrite andb_true_l, Z.gtb_ltb in Hops. apply Z.ltb_ge in Hops. apply andb_true_iff in E as [E _]. destruct Hst. split; try done.
    unfold max_ops in *. rewrite E in *. cbn in *. lia. }
  destruct Hst1 as [Hst1 Hs1]. clearbody st1. do 2 (apply safe_if; intros _; [done|]).
  assert (Hsmall : Z.of_nat (length (stack st1)) < 2 ^ 63) by (by rewrite Hs1).
  eapply (safe_bind (state_ok sv)).
  - apply safe_if; intros _.
    + apply safe_if; intros _; [done|]. apply set_stack_ok; [done|]. apply stack_ok_cons. split; [by split|apply Hst1].
    + apply safe_if; intros _; [by apply exec_opcode_safe|done].
  - intros st2 Hst2. apply safe_if; intros Hsize; [done|]. rewrite Z.gtb_ltb in Hsize. apply Z.ltb_ge in Hsize.
    split; [done|]. split; [done|]. split; [by destruct Hst2|done].
Qed.

Lemma eval_loop_safe (fuel : nat) (flags : Z) (sv : SigVersion) (pc : CScript) (st : eval_state) :
  sv <> TAPROOT -> needs sv -> (length pc <= fuel)%nat -> Forall is_u8 pc -> state_ok sv st -> Z.of_nat (length (stack st)) < 2 ^ 63 ->
  safe (fun st' => state_ok sv st' /\ (within_limits st' \/ st' = st)) (eval_loop CheckLowS fuel flags sv pc st).
Proof.
  intros Hsv Hneed. revert pc st. induction fuel as [|fuel IH]; intros [|b pc] st Hf Hpc Hst Hlim; cbn [eval_loop]; try (by split; [|right]); [cbn in Hf; lia|].
  eapply safe_bind; [by apply eval_step_safe|]. intros [pc' st'] (Hpc' & Hl & Hst' & Hlim'). cbn in Hpc', Hl, Hst', Hlim'.
  eapply safe_weaken; [|apply IH; try done; [cbn in Hf; lia|unfold within_limits, MAX_STACK_SIZE in Hlim'; lia]]. cbn. intros st'' [? [?| ->]]; auto.
Qed.

(** How [EvalScript] ends: with a value or with a script error. *)
Definition decided {A : Type} (P : A -> Prop) (m : result A) : Prop :=
  match m with Ret a => P a | Fail (Some _) => True | _ => False end.

Lemma EvalScript_decided (s : list valtype) (script : CScript) (flags : Z) (sv : SigVersion) (d : ScriptExecutionData) (c : C) :
  sv <> TAPROOT -> needs sv -> stack_ok s -> Z.of_nat (length s) < 2 ^ 63 -> Forall is_u8 script -> execdata_ok sv d -> all_ready c ->
  decided (fun '(s', d', c') => stack_ok s' /\ (Z.of_nat (length s') <= MAX_STACK_SIZE \/ s' = s) /\ execdata_ok sv d' /\ all_ready c')
    (EvalScript CheckLowS s script flags sv d c).
Proof.
  intros Hsv Hneed Hs Hl Hscript Hd Hc. unfold EvalScript. rewrite bool_decide_false by done. cbn [negb assert_that mbind result_bind].
  destruct (_ && _); [done|]. cbv zeta. set (st := mkEval s [] cond_new 0 script 0 (set_codeseparator d 0xFFFFFFFF) c).
  assert (Hst : state_ok sv st).
  { split; try done; try apply Forall_nil_2; cbn. unfold max_ops, MAX_OPS_PER_SCRIPT. destruct (pre_tapscript sv); lia. }
  pose proof (eval_loop_safe (length script) flags sv script st Hsv Hneed ltac:(lia) Hscript Hst Hl) as H.
  destruct (eval_loop _ _ _ _ _ _) as [st'|[]| |]; cbn; try done. destruct H as [[] Hlim].
  destruct (cond_empty _); [|done]. cbn. split; [done|]. split; [|done]. destruct Hlim as [Hlim| ->]; [left; unfold within_limits in Hlim; lia|by right].
Qed.
End Safe.

(** ** Verification *)

Lemma decided_bind {A B : Type} (P : A -> Prop) (Q : B -> Prop) (m : result A) (k : A -> result B) :
  decided P m -> (forall a, P a -> decided Q (k a)) -> decided Q (m ≫= k).
Proof. intros Hm Hk. destruct m as [|[]| |]; cbn in *; auto. Qed.

Lemma decided_if {A : Type} (P : A -> Prop) (b : bool) (m n : result A) :
  (b = true -> decided P m) -> (b = false -> decided P n) -> decided P (if b then m else n).
Proof. destruct b; auto. Qed.

Lemma decided_ended {A : Type} (P : A -> Prop) (m : result A) : decided P m -> ended P m.
Proof. by destruct m as [|[]| |]. Qed.

Lemma ended_with_serror {A : Type} (P : A -> Prop) (e : ScriptError) (m : result A) : ended P m -> decided P (with_serror e m).
Proof. by destruct m as [|[]| |]. Qed.

Lemma ended_bind {A B : Type} (P : A -> Prop) (Q : B -> Prop) (m : result A) (k : A -> result B) :
  ended P m -> (forall a, P a -> ended Q (k a)) -> ended Q (m ≫= k).
Proof. intros Hm Hk. destruct m as [|[]| |]; cbn in *; auto. Qed.

Lemma ended_if {A : Type} (P : A -> Prop) (b : bool) (m n : result A) :
  (b = true -> ended P m) -> (b = false -> ended P n) -> ended P (if b then m else n).
Proof. destruct b; auto. Qed.

Lemma IsPushOnly_total (s : CScript) : exists b, IsPushOnly s = Some b.
Proof.
  unfold IsPushOnly. assert (H : forall fuel pc, (length pc <= fuel)%nat -> exists b, IsPushOnly_loop fuel pc = Some b); [|by apply H].
  induction fuel as [|fuel IH]; intros [|o pc] Hf; cbn [IsPushOnly_loop]; try (by eexists); [cbn in Hf; lia|].
  destruct (negb _); [by eexists|]. destruct (_ >? _); [by eexists|]. apply IH. pose proof (GetScriptOp_rest (o :: pc) ltac:(done)). cbn [length] in *. lia.
Qed.

Lemma IsWitnessProgram_total (s : CScript) : 
  Forall is_u8 s -> exists p, IsWitnessProgram s = Some p /\ match p with Some (_, program) => Forall is_u8 program /\ (2 <= length program)%nat | None => True end.
Proof.
  intros Hs. unfold IsWitnessProgram. destruct (_ || _) eqn:El; [by exists None|]. destruct (_ && _) eqn:Eo; [by exists None|].
  destruct (s !!! 1%nat + 2 =? Z.of_nat (length s)); [|by exists None]. apply orb_false_iff in El as [El _]. apply Z.ltb_ge in El.
  assert (exists v, DecodeOP_N (s !!! 0%nat) = Some v) as [v ->].
  { unfold DecodeOP_N. destruct (s !!! 0%nat =? OP_0); [by eexists|]. cbn [negb andb] in Eo. apply orb_false_iff in Eo as [E1 E2].
    rewrite Z.gtb_ltb in E2. apply Z.ltb_ge in E1, E2. rewrite (proj2 (Z.leb_le _ _) E1), (proj2 (Z.leb_le _ _) E2). by eexists. }
  cbn. eexists. split; [done|]. split; [by apply Forall_drop|]. rewrite length_drop. lia.
Qed.

Section Verify.
Context (CheckLowS : list Z -> bool) (CheckTapTweak : list Z -> list Z -> uint256 -> bool -> bool).
Context {C : Type} {HC : BaseSignatureChecker C} {HL : LawfulChecker C} (needs : SigVersion -> Prop).

Lemma find_op_success_decided (fuel : nat) (pc : CScript) (flags : Z) : (length pc <= fuel)%nat -> decided (fun _ => True) (find_op_success fuel pc flags).
Proof.
  revert pc. induction fuel as [|fuel IH]; intros [|b pc] Hf; cbn [find_op_success]; try done; [cbn in Hf; lia|].
  destruct (op_ok (GetScriptOp (b :: pc))) eqn:E; cbn [negb]; [|done]. repeat (apply decided_if; intros _; [done|]).
  apply decided_if; intros _; [by case_match|]. apply IH. pose proof (GetScriptOp_shorter _ E). cbn [length] in *. lia.
Qed.

Definition elements_ok (witness : list valtype) : Prop := Forall (Forall is_u8) witness /\ Z.of_nat (length witness) < 2 ^ 63.

Lemma ExecuteWitnessScript_decided (span : list valtype) (script : CScript) (flags : Z) (sv : SigVersion) (d : ScriptExecutionData) (c : C) :
  sv <> TAPROOT -> needs sv -> elements_ok span -> Forall is_u8 script -> execdata_ok sv d -> all_ready needs c ->
  decided (all_ready needs) (ExecuteWitnessScript CheckLowS span script flags sv d c).
Proof.
  intros Hsv Hneed [Hspan Hlen] Hscript Hd Hc. unfold ExecuteWitnessScript. eapply (decided_bind (fun _ => True)).
  { apply decided_if; intros _; [by apply find_op_success_decided|done]. }
  intros b _. apply decided_if; intros _; [done|]. apply decided_if; intros _; [done|]. apply decided_if; intros Hsize; [done|].
  assert (Hs : stack_ok (rev span)).
  { apply Forall_rev. apply Forall_forall. intros v Hv. split; [by apply (proj1 (Forall_forall _ _) Hspan)|]. apply Z.le_ngt. intros Hbig.
    enough (existsb (fun elem => Z.of_nat (length elem) >? MAX_SCRIPT_ELEMENT_SIZE) span = true) by congruence.
    apply existsb_exists. exists v. split; [by apply list_elem_of_In|]. rewrite Z.gtb_ltb. by apply Z.ltb_lt. }
  eapply decided_bind; [apply (EvalScript_decided CheckLowS needs); try done; by rewrite length_rev|].
  intros [[s' d'] c'] (_ & _ & _ & Hc'). destruct s' as [|top [|]]; try done. by destruct (CastToBool top).
Qed.

Lemma SpanPopBack_ok (l : list valtype) : elements_ok l -> l <> [] ->
  exists rest x, SpanPopBack l = Some (rest, x) /\ elements_ok rest /\ Forall is_u8 x /\ length l = S (length rest).
Proof.
  intros [Hl Hn] Hne. destruct l as [|x rest _] using rev_ind; [done|]. apply Forall_app in Hl as [Hr Hx]. apply Forall_cons in Hx as [Hx _].
  rewrite length_app in Hn. cbn in Hn. exists rest, x. unfold SpanPopBack. rewrite last_snoc. cbn. rewrite length_app. cbn [length].
  replace (length rest + 1 - 1)%nat with (length rest) by lia. rewrite take_app_length. split_and!; try done; [split; [done|lia]|lia].
Qed.

Lemma pop_annex_ok (witness : list valtype) : elements_ok witness -> witness <> [] ->
  let '(stack, d) := pop_annex witness in elements_ok stack /\ stack <> [] /\ m_annex_init d = true.
Proof.
  intros Hw Hne. destruct (SpanPopBack_ok witness Hw Hne) as (rest & x & E & Hrest & _ & Hl). unfold pop_annex. rewrite E.
  destruct ((2 <=? length witness)%nat && _ && _) eqn:Ea; [|done]. apply andb_true_iff in Ea as [[E2 _]%andb_true_iff _]. apply Nat.leb_le in E2.
  split; [done|]. split; [|done]. intros ->. cbn in Hl. lia.
Qed.

Lemma VerifyTaproot_ended (witness : list valtype) (program : list Z) (flags : Z) (c : C) :
  elements_ok witness -> Z.of_nat (length (ser fmt_stack witness)) + VALIDATION_WEIGHT_OFFSET < 2 ^ 63 -> length program = 32%nat ->
  (witness <> [] -> needs TAPROOT /\ needs TAPSCRIPT) -> all_ready needs c ->
  ended (all_ready needs) (VerifyTaproot CheckLowS CheckTapTweak witness program flags c).
Proof.
  intros Hw Hsize Hp Hneed Hc. unfold VerifyTaproot. apply ended_if; intros _; [done|].
  destruct witness as [|w0 ws] eqn:Ew; [done|]. rewrite <- Ew in *. destruct (Hneed ltac:(by rewrite Ew)) as [Hn1 Hn2]. rewrite Ew at 1. cbn [length Nat.eqb].
  pose proof (pop_annex_ok witness Hw ltac:(by rewrite Ew)) as Ha. destruct (pop_annex witness) as [stack d]. destruct Ha as (Hstack & Hne & Hinit).
  destruct stack as [|sig [|s2 ss]]; [done| |].
  - eapply ended_bind; [apply schnorr_safe; [by apply Hc|done|by split; [left|split]]|]. intros [d' c'] [Hc' _]. intros sv Hsv. by apply Hc', Hc.
  - destruct (SpanPopBack_ok _ Hstack Hne) as (rest & control & -> & Hrest & _ & Hl). cbn [of_option mbind result_bind].
    destruct (SpanPopBack_ok rest Hrest) as (rest' & script & -> & Hrest' & Hscript & _); [intros ->; cbn in Hl; lia|]. cbn [of_option mbind result_bind].
    destruct (_ || _ || _) eqn:Ec; [done|]. cbv zeta. unfold VerifyTaprootCommitment, ComputeTaprootMerkleRoot. rewrite Ec, Hp.
    apply orb_false_iff in Ec as [[-> _]%orb_false_iff _]. cbn [Nat.ltb Nat.leb orb mbind option_bind of_option result_bind].
    apply ended_if; intros _; [done|]. apply ended_if; intros _; [|by case_match].
    apply decided_ended, ExecuteWitnessScript_decided; try done. intros _. cbn. unfold VALIDATION_WEIGHT_OFFSET in *. split_and!; try done; lia.
Qed.

Lemma p2wpkh_script_bytes (program : list Z) : length program = 20%nat -> Forall is_u8 program -> Forall is_u8 (p2wpkh_script program).
Proof.
  intros Hl Hp. unfold p2wpkh_script, push_data. rewrite Hl. rewrite !Forall_app.
  split_and!; [|by vm_compute; repeat (apply Forall_cons_2; [done|]); apply Forall_nil_2|done|]; repeat (apply Forall_cons_2; [done|]); apply Forall_nil_2.
Qed.

Lemma VerifyWitnessProgram_ended (witness : list valtype) (witversion : Z) (program : list Z) (flags : Z) (is_p2sh : bool) (c : C) :
  elements_ok witness -> Z.of_nat (length (ser fmt_stack witness)) + VALIDATION_WEIGHT_OFFSET < 2 ^ 63 -> Forall is_u8 program -> needs WITNESS_V0 ->
  (witversion = 1 -> length program = 32%nat -> is_p2sh = false -> witness <> [] -> needs TAPROOT /\ needs TAPSCRIPT) -> all_ready needs c ->
  ended (all_ready needs) (VerifyWitnessProgram CheckLowS CheckTapTweak witness witversion program flags is_p2sh c).
Proof.
  intros Hw Hsize Hp Hn0 Hn1 Hc. unfold VerifyWitnessProgram. apply ended_if; intros _.
  - apply ended_if; intros _.
    + destruct (decide (witness = [])) as [->|Hne]; [done|]. destruct (SpanPopBack_ok witness Hw Hne) as (rest & script & -> & Hrest & Hscript & _).
      apply ended_if; intros _; [done|]. by apply decided_ended, ExecuteWitnessScript_decided.
    + apply ended_if; intros Hl; [|done]. apply Z.eqb_eq, (Nat2Z.inj _ 20) in Hl.
      apply ended_if; intros _; [done|]. apply decided_ended, ExecuteWitnessScript_decided; try done. by apply p2wpkh_script_bytes.
  - apply ended_if; intros E; [|by repeat case_match]. apply andb_true_iff in E as [[Ev El]%andb_true_iff E]. apply Z.eqb_eq in Ev. apply Nat.eqb_eq in El.
    apply negb_true_iff in E. apply VerifyTaproot_ended; auto.
Qed.

Context (witness : list valtype) (Hw : elements_ok witness) (Hsize : Z.of_nat (length (ser fmt_stack witness)) + VALIDATION_WEIGHT_OFFSET < 2 ^ 63).
Context (Hbase : needs BASE) (Hv0 : needs WITNESS_V0).

(** The versions that a script may come to as a witness program. *)
Definition taproot_needs (script : CScript) : Prop :=
  forall program, IsWitnessProgram script = Some (Some (1, program)) -> length program = 32%nat -> witness <> [] -> needs TAPROOT /\ needs TAPSCRIPT.

Lemma verify_program_decided (script : CScript) (malleated : bool) (e : ScriptError) (flags : Z) (is_p2sh : bool) (stack : list valtype) (had : bool) (c : C) :
  Forall is_u8 script -> (is_p2sh = false -> taproot_needs script) -> all_ready needs c ->
  decided (fun r => all_ready needs r.2) (verify_program CheckLowS CheckTapTweak script malleated e witness flags is_p2sh stack had c).
Proof.
  intros Hs Ht Hc. unfold verify_program. apply decided_if; intros _; [|done]. destruct (IsWitnessProgram_total script Hs) as (p & E & Hp). rewrite E.
  cbn. destruct p as [[v p]|]; [|done]. destruct Hp as [Hp _]. apply decided_if; intros _; [done|]. eapply decided_bind.
  - apply ended_with_serror, VerifyWitnessProgram_ended; try done. intros -> Hl Hs2 Hne. exact (Ht Hs2 p E Hl Hne).
  - by intros c' Hc'.
Qed.

(** The stacks between the scripts. *)
Definition between_ok (s : list valtype) : Prop := stack_ok s /\ Z.of_nat (length s) <= MAX_STACK_SIZE.

Lemma EvalScript'_decided (s : list valtype) (script : CScript) (flags : Z) (c : C) :
  between_ok s -> Forall is_u8 script -> all_ready needs c ->
  decided (fun r => between_ok r.1 /\ all_ready needs r.2) (EvalScript' CheckLowS s script flags BASE c).
Proof.
  intros [Hs Hl] Hscript Hc. unfold EvalScript'. eapply decided_bind.
  - apply (EvalScript_decided CheckLowS needs); try done. unfold MAX_STACK_SIZE in Hl. lia.
  - intros [[s' d'] c'] (Hs' & Hl' & _ & Hc'). cbn. split; [|done]. split; [done|]. by destruct Hl' as [| ->].
Qed.

Lemma check_top_decided (s : list valtype) : decided (fun _ => s <> []) (check_top s).
Proof. unfold check_top. destruct s as [|v s]; [done|]. by destruct (CastToBool v). Qed.

Lemma verify_p2sh_decided (scriptSig : CScript) (s : list valtype) (flags : Z) (had : bool) (c : C) :
  between_ok s -> s <> [] -> all_ready needs c ->
  decided (fun r => all_ready needs r.2) (verify_p2sh CheckLowS CheckTapTweak scriptSig witness s flags had c).
Proof.
  intros [Hs Hl] Hne Hc. unfold verify_p2sh. destruct (IsPushOnly_total scriptSig) as [b ->]. cbn [of_option mbind result_bind].
  apply decided_if; intros _; [done|]. destruct s as [|key s]; [done|]. cbn [length Nat.eqb negb assert_that stacktop popstack lookup list_lookup Nat.sub mbind result_bind].
  apply stack_ok_cons in Hs as [[Hkey _] Hs]. cbn [length] in Hl. eapply decided_bind; [apply EvalScript'_decided; try done; by split; [|lia]|].
  intros [s' c'] [_ Hc']. eapply decided_bind; [apply check_top_decided|]. intros [] _. by apply verify_program_decided.
Qed.

(** The pattern of a pay-to-script-hash output takes the hash of an element of the stack. *)
Lemma p2sh_needs_element (script : CScript) (flags : Z) (c : C) (r : list valtype * C) :
  IsPayToScriptHash script = true -> EvalScript' CheckLowS [] script flags BASE c <> Ret r.
Proof.
  unfold IsPayToScriptHash. rewrite !andb_true_iff, !Z.eqb_eq. intros [[[Hl H0] _] _]. destruct script as [|o script]; [done|]. cbn in H0. subst o.
  unfold EvalScript', EvalScript. cbn [bool_decide negb assert_that]. 
  replace (pre_tapscript BASE && (Z.of_nat (length (OP_HASH160 :: script)) >? MAX_SCRIPT_SIZE)) with false by (by rewrite Hl).
  cbn [length eval_loop]. done.
Qed.

Lemma final_checks_decided (s : list valtype) (flags : Z) (had : bool) (c : C) :
  (has_flag flags SCRIPT_VERIFY_CLEANSTACK = true -> has_flag flags SCRIPT_VERIFY_WITNESS = true) ->
  (has_flag flags SCRIPT_VERIFY_WITNESS = true -> has_flag flags SCRIPT_VERIFY_P2SH = true) -> all_ready needs c ->
  decided (all_ready needs) (final_checks witness s flags had c).
Proof.
  intros Hcl Hwp Hc. unfold final_checks. eapply (decided_bind (fun _ => True)).
  - apply decided_if; intros E; [|done]. rewrite (Hcl E), (Hwp (Hcl E)). cbn. by case_match.
  - intros _ _. apply decided_if; intros E; [|done]. rewrite (Hwp E). cbn. by case_match.
Qed.

Lemma VerifyScript_decided (scriptSig scriptPubKey : CScript) (flags : Z) (c : C) :
  Forall is_u8 scriptSig -> Forall is_u8 scriptPubKey -> taproot_needs scriptPubKey ->
  (has_flag flags SCRIPT_VERIFY_CLEANSTACK = true -> has_flag flags SCRIPT_VERIFY_WITNESS = true) ->
  (has_flag flags SCRIPT_VERIFY_WITNESS = true -> has_flag flags SCRIPT_VERIFY_P2SH = true) -> all_ready needs c ->
  decided (all_ready needs) (VerifyScript CheckLowS CheckTapTweak scriptSig scriptPubKey witness flags c).
Proof.
  intros Hsig Hpub Ht Hcl Hwp Hc. unfold VerifyScript. destruct (IsPushOnly_total scriptSig) as [b ->]. cbn [of_option mbind result_bind].
  apply decided_if; intros _; [done|]. eapply decided_bind; [apply EvalScript'_decided; try done; by split; [apply Forall_nil_2|]|].
  intros [s c1] [Hs Hc1]. cbn in Hs, Hc1. cbv zeta. destruct (EvalScript' CheckLowS s scriptPubKey flags BASE c1) as [[s' c2]|[]| |] eqn:E2;
    pose proof (EvalScript'_decided s scriptPubKey flags c1 Hs Hpub Hc1) as H2; rewrite E2 in H2; try done.
  destruct H2 as [_ Hc2]. cbn [mbind result_bind]. eapply decided_bind; [apply check_top_decided|]. intros [] _.
  eapply decided_bind; [by apply verify_program_decided|]. intros [[s3 had] c3] Hc3. cbn in Hc3.
  eapply (decided_bind (fun r => all_ready needs r.2)).
  - apply decided_if; intros E; [|done]. apply andb_true_iff in E as [_ E]. apply verify_p2sh_decided; try done.
    intros ->. exact (p2sh_needs_element _ _ _ _ E E2).
  - intros [[s4 had'] c4] Hc4. by apply final_checks_decided.
Qed.
End Verify.

(** C15: the values of the interpreter keep their types. [EvalScript] on a script of bytes and a stack of byte vectors of at most 520 bytes either returns a
    stack of such vectors, of at most 1000 of them unless the script is empty, or sets a script error: no access outside a stack, no failed assertion, no
    overflow of the 64-bit numbers, no exception that escapes. *)
Theorem EvalScript_types (CheckLowS : list Z -> bool) {C : Type} {HC : BaseSignatureChecker C} {HL : LawfulChecker C} (s : list valtype) (script : CScript)
    (flags : Z) (sv : SigVersion) (d : ScriptExecutionData) (c : C) :
  sv <> TAPROOT -> stack_ok s -> Z.of_nat (length s) < 2 ^ 63 -> Forall is_u8 script -> execdata_ok sv d -> checker_ok sv c ->
  decided (fun '(s', d', c') => stack_ok s' /\ (Z.of_nat (length s') <= MAX_STACK_SIZE \/ s' = s) /\ execdata_ok sv d' /\ checker_ok sv c')
    (EvalScript CheckLowS s script flags sv d c).
Proof.
  intros Hsv Hs Hl Hscript Hd Hc.
  pose proof (EvalScript_decided CheckLowS (eq sv) s script flags sv d c Hsv eq_refl Hs Hl Hscript Hd ltac:(by intros ? <-)) as H.
  destruct (EvalScript _ _ _ _ _ _ _) as [[[s' d'] c']|[]| |]; try done. destruct H as (? & ? & ? & Hc'). split_and!; try done. by apply Hc'.
Qed.

Lemma EvalScript_types_witness :
  EvalScript (C := unit) (fun _ => true) [] [OP_1; OP_DUP; OP_ADD] 0 BASE no_execdata tt = Ret ([[2]], set_codeseparator no_execdata 0xFFFFFFFF, tt) /\
  stack_ok [[2]].
Proof.
  assert (H : EvalScript (C := unit) (fun _ => true) [] [OP_1; OP_DUP; OP_ADD] 0 BASE no_execdata tt =
    Ret ([[2]], set_codeseparator no_execdata 0xFFFFFFFF, tt)) by (vm_compute; reflexivity).
  split; [exact H|].
  pose proof (EvalScript_types (C := unit) (fun _ => true) [] [OP_1; OP_DUP; OP_ADD] 0 BASE no_execdata tt ltac:(discriminate) (Forall_nil_2 _)
    ltac:(cbn; lia) ltac:(repeat (apply Forall_cons_2; [split; vm_compute; congruence|]); apply Forall_nil_2) ltac:(discriminate) I) as T.
  rewrite H in T. exact (proj1 T).
Defined.
