(* ===== verification/SighashSpec.v ===== *)
(** * Lemmas about signature hashes

    Signature hashes are defined for every input of a transaction, so [TransactionSignatureChecker] is a [LawfulChecker]. *)

From Stdlib Require Import ZifyNat.
From S2P Require Import Prelude Serialize ArithUint256 Chain Params Transaction Script TxVerify Sha256 Sha256Spec Hash Hash160.
From S2P Require Import Interpreter Sighash VerifyScript InterpreterSafe.
#[local] Open Scope Z_scope.

(** ** Signature hashes are defined *)

Lemma count_codeseparators_total (fuel : nat) (it : CScript) (n : Z) : (length it <= fuel)%nat -> exists n', count_codeseparators fuel it n = Some n'.
Proof.
  revert it n. induction fuel as [|fuel IH]; intros it n Hf; cbn [count_codeseparators]; destruct (op_ok (GetScriptOp it)) eqn:E; try (by eexists);
    pose proof (GetScriptOp_shorter _ E); [lia|]. apply IH. lia.
Qed.

Lemma write_between_total (fuel : nat) (itBegin it acc : list Z) : (length it <= fuel)%nat -> exists r, write_between fuel itBegin it acc = Some r.
Proof.
  revert itBegin it acc. induction fuel as [|fuel IH]; intros itBegin it acc Hf; cbn [write_between]; destruct (op_ok (GetScriptOp it)) eqn:E; try (by eexists);
    pose proof (GetScriptOp_shorter _ E); [lia|]. destruct (_ =? _); apply IH; lia.
Qed.

Lemma SerializeScriptCode_total (code : CScript) : exists r, SerializeScriptCode code = Some r.
Proof.
  unfold SerializeScriptCode. destruct (count_codeseparators_total (length code) code 0 ltac:(lia)) as [n ->]. cbn.
  destruct (write_between_total (length code) code code [] ltac:(lia)) as [[[acc b] it] ->]. by eexists.
Qed.

Lemma mapM_total {A B : Type} (f : A -> option B) (l : list A) : (forall x, In x l -> exists y, f x = Some y) -> exists r, mapM f l = Some r.
Proof.
  induction l as [|x l IH]; intros H; [by exists []|]. destruct (H x (or_introl eq_refl)) as [y Hy]. destruct IH as [r Hr]; [intros; apply H; by right|].
  exists (y :: r). cbn. by rewrite Hy, Hr.
Qed.

Lemma SerializeForSignature_total (tx : CTransaction) (code : CScript) (nIn : nat) (nHashType : Z) :
  (nIn < length (vin tx))%nat -> (fHashSingle nHashType = true -> (nIn < length (vout tx))%nat) ->
  exists b, SerializeForSignature tx code nIn nHashType = Some b.
Proof.
  intros Hn Ho. unfold SerializeForSignature. cbv zeta. set (ins := mapM _ (seq 0 (if fAnyoneCanPay nHashType then _ else _))).
  assert (exists r, ins = Some r) as [r ->].
  { apply mapM_total. intros i Hi. apply in_seq in Hi. unfold SerializeInput. cbv zeta.
    assert (exists x, vin tx !! (if fAnyoneCanPay nHashType then nIn else i) = Some x) as [x ->] by (apply lookup_lt_is_Some_2; destruct (fAnyoneCanPay nHashType); lia).
    cbn. destruct (SerializeScriptCode_total code) as [s ->]. destruct (negb _); by eexists. }
  cbn [mbind option_bind]. match goal with |- context [mapM ?f ?l] => assert (exists r', mapM f l = Some r') as [r' ->]; [|by eexists] end.
  apply mapM_total. intros i Hi. apply in_seq in Hi. unfold SerializeOutput.
  destruct (fHashSingle nHashType) eqn:Es; [specialize (Ho eq_refl)|]; cbn [andb]; [destruct (negb _) eqn:En; [by eexists|]|];
    (assert (exists o, vout tx !! i = Some o) as [o ->]; [|by eexists]); apply lookup_lt_is_Some_2.
  - apply negb_false_iff, Nat.eqb_eq in En. lia.
  - destruct (fHashNone nHashType); lia.
Qed.

Lemma SignatureHash_total (code : CScript) (tx : CTransaction) (nIn : nat) (nHashType amount : Z) (sv : SigVersion) (data : option PrecomputedTransactionData)
    (cache : option SigHashCache) :
  (nIn < length (vin tx))%nat -> exists r, SignatureHash code tx nIn nHashType amount sv data cache = Some r.
Proof.
  intros Hn. unfold SignatureHash. destruct (Nat.leb_spec (length (vin tx)) nIn); [lia|]. destruct (_ && _ && _) eqn:Es; [by eexists|]. cbv zeta.
  destruct (cache ≫= _) as [w|]; [by eexists|]. assert (exists p, signature_pieces code tx nIn nHashType amount sv data = Some p) as [p ->]; [|by eexists].
  unfold signature_pieces. destruct (bool_decide _) eqn:Ev.
  - unfold write_bip143. assert (exists i, vin tx !! nIn = Some i) as [i ->] by (by apply lookup_lt_is_Some_2). by eexists.
  - destruct (SerializeForSignature_total tx code nIn nHashType Hn) as [b ->]; [|by eexists]. intros E. rewrite E in Es. cbn in Es. apply Nat.leb_gt in Es. done.
Qed.

(** ** The checker for transactions *)

(** The precomputed data allow Schnorr signatures. *)
Definition taproot_data (tx : CTransaction) (d : PrecomputedTransactionData) : Prop :=
  m_bip341_taproot_ready d = true /\ m_spent_outputs_ready d = true /\ length (m_spent_outputs d) = length (vin tx).

Definition tx_checker_ok (sv : SigVersion) (c : TransactionSignatureChecker) : Prop :=
  (c_nIn c < length (vin (c_txTo c)))%nat /\
  match sv with
  | BASE => True
  | WITNESS_V0 => 0 <= c_amount c
  | _ => exists d, c_txdata c = Some d /\ taproot_data (c_txTo c) d
  end.

Lemma ecdsa_request_safe (c : TransactionSignatureChecker) (sig key : valtype) (code : CScript) (sv : SigVersion) :
  tx_checker_ok sv c -> ended (fun r => forall sv', tx_checker_ok sv' c -> tx_checker_ok sv' r.2) (ecdsa_request c sig key code sv).
Proof.
  intros [Hn Hok]. unfold ecdsa_request. destruct (CPubKey_of key) as [pk|]; [|by intros ? ?]. destruct (last sig) as [ht|]; [|by intros ? ?]. cbv zeta.
  destruct (bool_decide (sv = WITNESS_V0) && (c_amount c <? 0)) eqn:E.
  { apply andb_true_iff in E as [->%bool_decide_eq_true E%Z.ltb_lt]. lia. }
  edestruct SignatureHash_total as [[h cache] E']; [exact Hn|]. rewrite E'. cbn [of_option mbind result_bind ended]. by intros [].
Qed.

Lemma SignatureHashSchnorr_total (d : ScriptExecutionData) (tx : CTransaction) (nIn : nat) (ht : Z) (sv : SigVersion) (data : PrecomputedTransactionData)
    (mdb : MissingDataBehavior) :
  (nIn < length (vin tx))%nat -> taproot_data tx data -> schnorr_ready sv d ->
  exists r, SignatureHashSchnorr d tx nIn ht sv data mdb = Some r /\ match r with Some (_, d') => execdata_kept d d' | None => True end.
Proof.
  intros Hn (Hr1 & Hr2 & Hl) (Hsv & Ha & Ht). unfold SignatureHashSchnorr. rewrite Hr1, Hr2, Ha.
  assert (exists e, match sv with TAPROOT => Some 0 | TAPSCRIPT => Some 1 | _ => None end = Some e) as [e ->] by (destruct Hsv as [-> | ->]; by eexists).
  assert (exists i, vin tx !! nIn = Some i) as [i ->] by (by apply lookup_lt_is_Some_2).
  assert (exists o, m_spent_outputs data !! nIn = Some o) as [o ->] by (apply lookup_lt_is_Some_2; by rewrite Hl). cbn [mbind option_bind andb negb]. cbv zeta.
  destruct (negb _); [by exists None|]. set (inp := if _ =? SIGHASH_ANYONECANPAY then Some _ else Some _).
  assert (exists x, inp = Some x) as [x ->] by (unfold inp; case_match; by eexists). cbn [mbind option_bind].
  match goal with |- context [match ?m with Some p => _ | None => Some None end] => set (out := m) end.
  assert (Hout : match out with Some (_, d') => execdata_kept d d' | None => True end).
  { unfold out. destruct (_ =? SIGHASH_SINGLE); [|by exists None]. destruct (vout tx !! nIn) as [o'|]; [|done].
    by destruct (m_output_hash d) as [h|]; eexists (Some _). }
  destruct out as [[output d']|]; [|by exists None].
  assert (Hd' : sv = TAPSCRIPT -> m_tapleaf_hash_init d' && m_codeseparator_pos_init d' = true).
  { intros E. destruct (Ht E) as [H1 H2]. destruct Hout as [[h|] ->]; cbn; by rewrite H1, H2. }
  destruct (bool_decide (sv = TAPSCRIPT)) eqn:E; [apply bool_decide_eq_true in E; rewrite (Hd' E)|]; by eexists (Some _).
Qed.

Lemma schnorr_request_safe (c : TransactionSignatureChecker) (sig key : valtype) (sv : SigVersion) (d : ScriptExecutionData) :
  tx_checker_ok sv c -> length key = 32%nat -> schnorr_ready sv d -> ended (fun r => execdata_kept d r.2) (schnorr_request c sig key sv d).
Proof.
  intros [Hn Hok] Hk Hr. unfold schnorr_request. rewrite Hk. pose proof Hr as [Hsv _].
  replace (bool_decide (sv = TAPROOT) || bool_decide (sv = TAPSCRIPT)) with true by (by destruct Hsv as [-> | ->]). cbn [Nat.eqb assert_that mbind result_bind].
  apply ended_if; intros _; [done|]. cbv zeta. apply ended_if; intros _; [done|].
  assert (exists data, c_txdata c = Some data /\ taproot_data (c_txTo c) data) as (data & -> & Hdata) by (by destruct Hsv as [-> | ->]).
  edestruct SignatureHashSchnorr_total as (r & E & Hkept); [exact Hn|exact Hdata|exact Hr|]. rewrite E. cbn [of_option mbind result_bind].
  by destruct r as [[h d']|].
Qed.

Section Lawful.
Context {HS : SignatureVerifier}.

Lemma tx_ecdsa_safe (c : TransactionSignatureChecker) (sig key : valtype) (code : CScript) (sv : SigVersion) :
  tx_checker_ok sv c -> ended (fun r => forall sv', tx_checker_ok sv' c -> tx_checker_ok sv' r.2) (tx_CheckECDSASignature c sig key code sv).
Proof. intros Hc. eapply ended_bind; [by apply ecdsa_request_safe|]. by intros [request c'] H. Qed.

Lemma tx_schnorr_safe (c : TransactionSignatureChecker) (sig key : valtype) (sv : SigVersion) (d : ScriptExecutionData) :
  tx_checker_ok sv c -> length key = 32%nat -> schnorr_ready sv d ->
  ended (fun r => (forall sv', tx_checker_ok sv' c -> tx_checker_ok sv' r.2) /\ execdata_kept d r.1) (tx_CheckSchnorrSignature c sig key sv d).
Proof.
  intros Hc Hk Hr. eapply ended_bind; [by apply schnorr_request_safe|]. intros [[[sig' key'] h] d'] Hd. apply ended_if; intros _; [|done]. by split.
Qed.

#[export] Instance transaction_checker_lawful : LawfulChecker TransactionSignatureChecker.
Proof.
  refine {| checker_ok := tx_checker_ok |}.
  - intros c sig key code sv Hc _. by apply tx_ecdsa_safe.
  - intros. by apply tx_schnorr_safe.
  - intros c sv n [Hn _]. cbn. unfold tx_CheckLockTime. repeat (apply ended_if; intros _; [done|]).
    apply lookup_lt_is_Some_2 in Hn as [i ->]. done.
  - intros c sv n [Hn _]. cbn. unfold tx_CheckSequence. apply lookup_lt_is_Some_2 in Hn as [i ->]. cbn. by repeat (apply ended_if; intros _; [done|]).
Defined.
End Lawful.

(** ** Precomputed data *)

Lemma uses_features_mono (ins : list CTxIn) (spent : list CTxOut) (ready b : bool) : (uses_features ins spent ready b true).2 = true.
Proof.
  revert spent b. induction ins as [|i ins IH]; intros spent b; [done|]. cbn [uses_features]. destruct (b && true); [done|].
  destruct (negb _); [|apply IH]. destruct spent as [|o spent]; [apply IH|]. destruct (_ && _ && _); apply IH.
Qed.

(** An input with a witness that spends a Taproot output is noticed. *)
Lemma uses_features_taproot (ins : list CTxIn) (spent : list CTxOut) (n : nat) (i : CTxIn) (o : CTxOut) (b1 b2 : bool) :
  ins !! n = Some i -> spent !! n = Some o -> scriptWitness i <> [] -> length (scriptPubKey o) = 34%nat -> scriptPubKey o !!! 0%nat = OP_1 ->
  (uses_features ins spent true b1 b2).2 = true.
Proof.
  intros Hi Ho Hw Hl H1. revert ins spent b1 b2 Hi Ho. induction n as [|n IH]; intros [|j ins] [|p spent] b1 b2 Hi Ho; try done; cbn [uses_features].
  - injection Hi as ->. injection Ho as ->. destruct (b1 && b2) eqn:E; [by apply andb_true_iff in E as [_ ->]|]. rewrite bool_decide_false by done.
    cbn [negb drop]. rewrite Hl, H1. cbn. apply uses_features_mono.
  - destruct (b1 && b2) eqn:E; [by apply andb_true_iff in E as [_ ->]|]. cbn [drop]. destruct (negb _); [|by apply IH].
    destruct (_ && _ && _); [by apply IH|by apply IH].
Qed.

Lemma Init_taproot (tx : CTransaction) (spent : list CTxOut) (force : bool) (d : PrecomputedTransactionData) (n : nat) (i : CTxIn) (o : CTxOut) :
  PrecomputedTransactionData_Init tx spent force = Some d -> vin tx !! n = Some i -> spent !! n = Some o -> scriptWitness i <> [] ->
  length (scriptPubKey o) = 34%nat -> scriptPubKey o !!! 0%nat = OP_1 -> taproot_data tx d.
Proof.
  intros Hd Hi Ho Hw Hl H1. unfold PrecomputedTransactionData_Init in Hd. rewrite bool_decide_false in Hd by (by intros ->). cbn [negb andb] in Hd.
  destruct (length spent =? length (vin tx))%nat eqn:El; [|done]. cbn [negb] in Hd. apply Nat.eqb_eq in El.
  pose proof (uses_features_taproot (vin tx) spent n i o force force Hi Ho Hw Hl H1) as Hu.
  destruct (uses_features (vin tx) spent true force force) as [u1 u2]. cbn in Hu. subst u2. injection Hd as <-. by split_and!.
Qed.

Lemma Init_defined (tx : CTransaction) (spent : list CTxOut) (force : bool) :
  length spent = length (vin tx) -> exists d, PrecomputedTransactionData_Init tx spent force = Some d.
Proof.
  intros Hl. unfold PrecomputedTransactionData_Init. rewrite Hl, Nat.eqb_refl, andb_false_r. destruct (uses_features _ _ _ _ _) as [a b]. by eexists.
Qed.

(** ** Sizes *)

Lemma length_WriteCompactSize (n : Z) : (length (WriteCompactSize n) <= 9)%nat.
Proof. unfold WriteCompactSize, ser_writedata. repeat case_match; cbn [length]; rewrite ?length_app, ?length_le_bytes; cbn; lia. Qed.

Lemma length_ser_stack (w : list (list Z)) :
  vector_ok bytes_ok w -> Z.of_nat (length (ser fmt_stack w)) <= 9 + MAX_SIZE * (9 + MAX_SIZE).
Proof.
  intros [Hl Hw]. cbn [ser fmt_stack fmt_vector]. rewrite length_app. pose proof (length_WriteCompactSize (Z.of_nat (length w))).
  enough (Z.of_nat (length (concat (map (ser fmt_bytes) w))) <= Z.of_nat (length w) * (9 + MAX_SIZE)) by (unfold MAX_SIZE in *; nia). clear Hl H.
  induction Hw as [|v w [Hv _] _ IH]; [done|]. cbn [map concat length]. rewrite length_app. cbn [ser fmt_bytes] in *. rewrite length_app.
  pose proof (length_WriteCompactSize (Z.of_nat (length v))). lia.
Qed.

Lemma elements_of_witness (w : list (list Z)) : vector_ok bytes_ok w -> elements_ok w.
Proof. intros [Hl Hw]. split; [|unfold MAX_SIZE in Hl; lia]. eapply Forall_impl; [exact Hw|]. by intros v [_ ?]. Qed.

(** The pattern of a version 1 program of 32 bytes. *)
Lemma taproot_pattern (s program : list Z) :
  IsWitnessProgram s = Some (Some (1, program)) -> length program = 32%nat -> length s = 34%nat /\ s !!! 0%nat = OP_1.
Proof.
  unfold IsWitnessProgram. destruct (_ || _); [done|]. destruct (_ && _); [done|]. destruct (s !!! 1%nat + 2 =? _); [|done].
  unfold DecodeOP_N. destruct (s !!! 0%nat =? OP_0); [done|]. destruct (_ && _); [|done]. cbn. intros [= Hv <-]. rewrite length_drop. unfold OP_1 in *. lia.
Qed.

(** ** The precomputed hashes *)

(** The data change nothing for witness scripts of version 0. *)
Lemma write_bip143_Init (code : CScript) (tx : CTransaction) (nIn : nat) (h amount : Z) (spent : list CTxOut) (force : bool) (d : PrecomputedTransactionData) :
  PrecomputedTransactionData_Init tx spent force = Some d -> write_bip143 code tx nIn h amount (Some d) = write_bip143 code tx nIn h amount None.
Proof.
  unfold PrecomputedTransactionData_Init. destruct (_ && _); [done|]. destruct (uses_features _ _ _ _ _) as [u1 u2]. intros [= <-].
  unfold write_bip143. cbn [m_bip143_segwit_ready]. destruct u1; [|reflexivity]. cbn [hashPrevouts hashSequence hashOutputs orb]. reflexivity.
Qed.

Lemma signature_pieces_Init (code : CScript) (tx : CTransaction) (nIn : nat) (h amount : Z) (sv : SigVersion) (spent : list CTxOut) (force : bool)
    (d : PrecomputedTransactionData) :
  PrecomputedTransactionData_Init tx spent force = Some d ->
  signature_pieces code tx nIn h amount sv (Some d) = signature_pieces code tx nIn h amount sv None.
Proof. intros Hd. unfold signature_pieces. by rewrite (write_bip143_Init _ _ _ _ _ _ _ _ Hd). Qed.

#[local] Opaque writer_GetHash writer_GetSHA256 write_all CSHA256_Write.

(** The hash of an input, from the transaction alone. *)
Lemma SignatureHash_plain (code : CScript) (tx : CTransaction) (nIn : nat) (h amount : Z) (sv : SigVersion) (spent : list CTxOut) (force : bool)
    (d : PrecomputedTransactionData) :
  PrecomputedTransactionData_Init tx spent force = Some d ->
  fst <$> SignatureHash code tx nIn h amount sv (Some d) (Some SigHashCache_new) = fst <$> SignatureHash code tx nIn h amount sv None None.
Proof.
  intros Hd. unfold SignatureHash. destruct (_ <=? _)%nat; [done|]. destruct (_ && _ && _); [done|]. cbv zeta. cbn [mbind option_bind].
  assert (E0 : Load SigHashCache_new h code = None).
  { unfold Load. destruct (CacheIndex h) as [|[|[|[|[|[|k]]]]]]; reflexivity. }
  rewrite E0. rewrite (signature_pieces_Init code tx nIn h amount sv spent force d Hd).
  destruct (signature_pieces code tx nIn h amount sv None) as [pieces|]; [|reflexivity]. cbn [mbind option_bind].
  generalize (writer_GetHash (CSHA256_Write (write_all new_hasher pieces) (ser fmt_i32 h))). intros x. reflexivity.
Qed.
