(* ===== verification/SighashCache.v ===== *)
(** * The cache of signature hash midstates changes nothing

    [EvalScript] is parametric in its checker: runs with two checkers that answer alike end alike ([sim]). The checker for transactions and the same checker
    without its cache answer alike as long as the cache holds midstates of one signature version, and [VerifyScript] reaches signatures of another version
    only with the cache as it was at the start. *)

From Stdlib Require Import ZifyNat.
From S2P Require Import Prelude Serialize ArithUint256 Chain Params Transaction Script TxVerify Sha256 Sha256Spec Hash Hash160.
From S2P Require Import Interpreter Sighash VerifyScript InterpreterSpec InterpreterSafe.
#[local] Open Scope Z_scope.

(** ** Runs that end alike *)

Definition sim {A B : Type} (R : A -> B -> Prop) (m1 : result A) (m2 : result B) : Prop :=
  match m1, m2 with
  | Ret a, Ret b => R a b
  | Fail e1, Fail e2 => e1 = e2
  | Throw x1, Throw x2 => x1 = x2
  | Abort, Abort => True
  | _, _ => False
  end.

Lemma sim_eq {A : Type} (R : A -> A -> Prop) (m : result A) : (forall a, R a a) -> sim R m m.
Proof. intros H. by destruct m; cbn. Qed.

Lemma sim_refl {A : Type} (m : result A) : sim eq m m.
Proof. by apply sim_eq. Qed.

Lemma sim_bind {A B A' B' : Type} (R : A -> B -> Prop) (S : A' -> B' -> Prop) (m1 : result A) (m2 : result B) (k1 : A -> result A') (k2 : B -> result B') :
  sim R m1 m2 -> (forall a b, R a b -> sim S (k1 a) (k2 b)) -> sim S (m1 ≫= k1) (m2 ≫= k2).
Proof. intros Hm Hk. destruct m1, m2; cbn in *; try done. by apply Hk. Qed.

(** The same computation first. *)
Lemma sim_step {A A' B' : Type} (S : A' -> B' -> Prop) (m : result A) (k1 : A -> result A') (k2 : A -> result B') :
  (forall a, sim S (k1 a) (k2 a)) -> sim S (m ≫= k1) (m ≫= k2).
Proof. intros Hk. by destruct m; cbn in *. Qed.

Lemma sim_if {A B : Type} (R : A -> B -> Prop) (b : bool) (m1 n1 : result A) (m2 n2 : result B) :
  sim R m1 m2 -> sim R n1 n2 -> sim R (if b then m1 else n1) (if b then m2 else n2).
Proof. by destruct b. Qed.

Lemma sim_weaken {A B : Type} (R S : A -> B -> Prop) (m1 : result A) (m2 : result B) : (forall a b, R a b -> S a b) -> sim R m1 m2 -> sim S m1 m2.
Proof. intros H. destruct m1, m2; cbn; auto. Qed.

Section Parametric.
Context (CheckLowS : list Z -> bool) {C1 C2 : Type} {H1 : BaseSignatureChecker C1} {H2 : BaseSignatureChecker C2}.

(** Two checkers that answer alike for the signatures of one version. *)
Record checkers_sim (sv : SigVersion) (R : C1 -> C2 -> Prop) : Prop := {
  ecdsa_sim c1 c2 sig key code : R c1 c2 ->
    sim (fun r1 r2 => r1.1 = r2.1 /\ R r1.2 r2.2) (CheckECDSASignature c1 sig key code sv) (CheckECDSASignature c2 sig key code sv);
  schnorr_sim c1 c2 sig key d : R c1 c2 ->
    sim (fun r1 r2 => r1.1 = r2.1 /\ R r1.2 r2.2) (CheckSchnorrSignature c1 sig key sv d) (CheckSchnorrSignature c2 sig key sv d);
  locktime_sim c1 c2 n : R c1 c2 -> CheckLockTime c1 n = CheckLockTime c2 n;
  sequence_sim c1 c2 n : R c1 c2 -> CheckSequence c1 n = CheckSequence c2 n
}.

Context (sv : SigVersion) (R : C1 -> C2 -> Prop) (HR : checkers_sim sv R).

(** States that differ only in the checker. *)
Definition state_sim (st1 : eval_state (C := C1)) (st2 : eval_state (C := C2)) : Prop :=
  stack st1 = stack st2 /\ altstack st1 = altstack st2 /\ vfExec st1 = vfExec st2 /\ nOpCount st1 = nOpCount st2 /\
  pbegincodehash st1 = pbegincodehash st2 /\ opcode_pos st1 = opcode_pos st2 /\ execdata st1 = execdata st2 /\ R (checker st1) (checker st2).

Lemma set_stack_sim (st1 : eval_state) (st2 : eval_state) (s : list valtype) : state_sim st1 st2 -> state_sim (set_stack st1 s) (set_stack st2 s).
Proof. by intros (? & ? & ? & ? & ? & ? & ? & ?). Qed.

Lemma EvalChecksig_sim (sig key : valtype) (code : CScript) (d : ScriptExecutionData) (flags : Z) (c1 : C1) (c2 : C2) :
  R c1 c2 -> sim (fun r1 r2 => r1.1 = r2.1 /\ R r1.2 r2.2) (EvalChecksig CheckLowS sig key code d flags sv c1) (EvalChecksig CheckLowS sig key code d flags sv c2).
Proof.
  intros Hc. unfold EvalChecksig. pose proof (fun code => ecdsa_sim _ _ HR c1 c2 sig key code Hc) as He. pose proof (fun d => schnorr_sim _ _ HR c1 c2 sig key d Hc) as Hs.
  destruct sv; try done.
  1,2: eapply (sim_bind (fun r1 r2 => r1.1 = r2.1 /\ R r1.2 r2.2)); [|intros [b1 c1'] [b2 c2'] [E Hc']; cbn in E; subst b2; by split];
    unfold EvalChecksigPreTapscript; do 4 (apply sim_step; intros ?); eapply sim_bind; [apply He|]; intros [b1 c1'] [b2 c2'] [E Hc']; cbn in E; subst b2;
    by apply sim_if.
  unfold EvalChecksigTapscript. do 2 (apply sim_step; intros ?). apply sim_if; [done|]. apply sim_if; [|by apply sim_if]. apply sim_if; [|done].
  eapply sim_bind; [apply Hs|]. intros [d1 c1'] [d2 c2'] [E Hc']. cbn in E. subst d2. done.
Qed.

Lemma multisig_loop_sim (fuel isig ikey nsigs nkeys : nat) (s : list valtype) (code : CScript) (flags : Z) (c1 : C1) (c2 : C2) :
  R c1 c2 -> sim (fun r1 r2 => r1.1 = r2.1 /\ R r1.2 r2.2)
    (multisig_loop CheckLowS fuel isig ikey nsigs nkeys s code flags sv c1) (multisig_loop CheckLowS fuel isig ikey nsigs nkeys s code flags sv c2).
Proof.
  revert isig ikey nsigs nkeys c1 c2. induction fuel as [|fuel IH]; intros isig ikey [|nsigs] nkeys c1 c2 Hc; cbn [multisig_loop]; try done.
  do 4 (apply sim_step; intros ?). eapply sim_bind; [by apply (ecdsa_sim _ _ HR)|]. intros [b1 c1'] [b2 c2'] [E Hc']. cbn in E, Hc'. subst b2. cbv zeta.
  apply sim_if; [done|]. by apply IH.
Qed.

Lemma locktime_op_sim (opcode flags : Z) (fMinimal : bool) (st1 st2 : eval_state) :
  state_sim st1 st2 -> sim state_sim (locktime_op opcode flags fMinimal st1) (locktime_op opcode flags fMinimal st2).
Proof.
  intros Hst. pose proof Hst as (Es & _ & _ & _ & _ & _ & _ & Hc). unfold locktime_op. rewrite Es. apply sim_if; [done|].
  do 3 (apply sim_step; intros ?). apply sim_if; [done|]. rewrite (locktime_sim _ _ HR _ _ _ Hc), (sequence_sim _ _ HR _ _ _ Hc).
  apply sim_if; [apply sim_step; intros []; done|]. apply sim_if; [done|]. by apply sim_step; intros [].
Qed.

Lemma if_op_sim (opcode flags : Z) (fExec : bool) (st1 st2 : eval_state) :
  state_sim st1 st2 -> sim state_sim (if_op opcode flags sv fExec st1) (if_op opcode flags sv fExec st2).
Proof.
  intros (Es & Ea & Ev & En & Ep & Eo & Ed & Hc). unfold if_op. rewrite Es, Ev. apply sim_if; [|by split_and!].
  do 2 (apply sim_step; intros ?). cbv zeta. do 2 (apply sim_if; [done|]). apply sim_step. intros s. by split_and!.
Qed.

Lemma checksig_op_sim (opcode flags : Z) (st1 st2 : eval_state) :
  state_sim st1 st2 -> sim state_sim (checksig_op CheckLowS opcode flags sv st1) (checksig_op CheckLowS opcode flags sv st2).
Proof.
  intros (Es & Ea & Ev & En & Ep & Eo & Ed & Hc). unfold checksig_op. rewrite Es, Ep, Ed. do 3 (apply sim_step; intros ?).
  eapply sim_bind; [by apply EvalChecksig_sim|]. intros [[b1 d1] c1] [[b2 d2] c2] [E Hc']. cbn in E, Hc'. simplify_eq.
  do 3 (apply sim_step; intros ?). by split_and!.
Qed.

Lemma checksigadd_op_sim (flags : Z) (fMinimal : bool) (st1 st2 : eval_state) :
  state_sim st1 st2 -> sim state_sim (checksigadd_op CheckLowS flags sv fMinimal st1) (checksigadd_op CheckLowS flags sv fMinimal st2).
Proof.
  intros (Es & Ea & Ev & En & Ep & Eo & Ed & Hc). unfold checksigadd_op. rewrite Es, Ep, Ed. apply sim_if; [done|]. do 5 (apply sim_step; intros ?).
  eapply sim_bind; [by apply EvalChecksig_sim|]. intros [[b1 d1] c1] [[b2 d2] c2] [E Hc']. cbn in E, Hc'. simplify_eq.
  do 5 (apply sim_step; intros ?). by split_and!.
Qed.

Lemma checkmultisig_op_sim (opcode flags : Z) (fMinimal : bool) (st1 st2 : eval_state) :
  state_sim st1 st2 -> sim state_sim (checkmultisig_op CheckLowS opcode flags sv fMinimal st1) (checkmultisig_op CheckLowS opcode flags sv fMinimal st2).
Proof.
  intros (Es & Ea & Ev & En & Ep & Eo & Ed & Hc). unfold checkmultisig_op. rewrite Es, Ep, Ed, En. apply sim_if; [done|]. cbv zeta. do 3 (apply sim_step; intros ?).
  do 2 (apply sim_if; [done|]). do 3 (apply sim_step; intros ?). apply sim_if; [done|]. do 2 (apply sim_step; intros ?).
  eapply sim_bind; [by apply multisig_loop_sim|]. intros [b1 c1] [b2 c2] [E Hc']. cbn in E, Hc'. subst b2. do 6 (apply sim_step; intros ?). by split_and!.
Qed.

Lemma on_stack_sim (r : result (list valtype)) (st1 st2 : eval_state) :
  state_sim st1 st2 -> sim state_sim (s ← r; Ret (set_stack st1 s)) (s ← r; Ret (set_stack st2 s)).
Proof. intros Hst. apply sim_step. intros s. by apply set_stack_sim. Qed.

Lemma exec_opcode_sim (opcode flags : Z) (fExec : bool) (pc : CScript) (st1 st2 : eval_state) :
  state_sim st1 st2 -> sim state_sim (exec_opcode CheckLowS opcode flags sv fExec pc st1) (exec_opcode CheckLowS opcode flags sv fExec pc st2).
Proof.
  intros Hst. pose proof Hst as (Es & Ea & Ev & En & Ep & Eo & Ed & Hc). unfold exec_opcode. cbv zeta. rewrite Es, Ea, Ev.
  apply sim_if; [apply sim_step; intros ?; by apply set_stack_sim|]. apply sim_if; [done|]. apply sim_if; [by apply locktime_op_sim|].
  apply sim_if; [by apply sim_if|]. apply sim_if; [by apply if_op_sim|].
  do 2 (apply sim_if; [apply sim_if; [done|]; apply sim_step; intros ?; by split_and!|]).
  apply sim_if; [by apply on_stack_sim|]. apply sim_if; [done|].
  apply sim_if; [apply sim_step; intros [s a]; by split_and!|]. do 6 (apply sim_if; [by apply on_stack_sim|]).
  apply sim_if; [split_and!; try done; cbn; by rewrite Ed, Eo|]. apply sim_if; [by apply checksig_op_sim|]. apply sim_if; [by apply checksigadd_op_sim|].
  by apply sim_if; [apply checkmultisig_op_sim|].
Qed.

Lemma eval_step_sim (flags : Z) (pc : CScript) (st1 st2 : eval_state) :
  state_sim st1 st2 ->
  sim (fun r1 r2 => r1.1 = r2.1 /\ state_sim r1.2 r2.2) (eval_step CheckLowS flags sv pc st1) (eval_step CheckLowS flags sv pc st2).
Proof.
  intros Hst. pose proof Hst as (Es & Ea & Ev & En & Ep & Eo & Ed & Hc). unfold eval_step. cbv zeta. rewrite Ev, En.
  do 2 (apply sim_if; [done|]). set (b := pre_tapscript sv && _).
  set (s1 := if b then set_nOpCount st1 _ else st1). set (s2 := if b then set_nOpCount st2 _ else st2).
  assert (Hs : state_sim s1 s2) by (unfold s1, s2; destruct b; by split_and!).
  pose proof Hs as (_ & _ & _ & En' & _). rewrite En'. clearbody s1 s2. do 3 (apply sim_if; [done|]). eapply sim_bind.
  - apply sim_if; [|by apply sim_if; [apply exec_opcode_sim|]]. apply sim_if; [done|]. rewrite (proj1 Hs). by apply set_stack_sim.
  - intros t1 t2 (Es' & Ea' & Ev' & Enn & Ep' & Eo' & Ed' & Hc'). rewrite Es', Ea', Eo'. apply sim_if; [done|]. split; [done|]. by split_and!.
Qed.

Lemma eval_loop_sim (fuel : nat) (flags : Z) (pc : CScript) (st1 st2 : eval_state) :
  state_sim st1 st2 -> sim state_sim (eval_loop CheckLowS fuel flags sv pc st1) (eval_loop CheckLowS fuel flags sv pc st2).
Proof.
  revert pc st1 st2. induction fuel as [|fuel IH]; intros [|o pc] st1 st2 Hst; cbn [eval_loop]; try done.
  eapply sim_bind; [by apply eval_step_sim|]. intros [pc1 t1] [pc2 t2] [E Ht]. cbn in E. subst pc2. by apply IH.
Qed.

Lemma EvalScript_sim (s : list valtype) (script : CScript) (flags : Z) (d : ScriptExecutionData) (c1 : C1) (c2 : C2) :
  R c1 c2 -> sim (fun r1 r2 => r1.1 = r2.1 /\ R r1.2 r2.2) (EvalScript CheckLowS s script flags sv d c1) (EvalScript CheckLowS s script flags sv d c2).
Proof.
  intros Hc. unfold EvalScript. apply sim_step. intros _. apply sim_if; [done|]. cbv zeta. eapply (sim_bind state_sim).
  - pose proof (eval_loop_sim (length script) flags script (mkEval s [] cond_new 0 script 0 (set_codeseparator d 0xFFFFFFFF) c1)
      (mkEval s [] cond_new 0 script 0 (set_codeseparator d 0xFFFFFFFF) c2) ltac:(by split_and!)) as H.
    destruct (eval_loop _ _ _ _ _ _) as [|[]| |], (eval_loop _ _ _ _ _ _) as [|[]| |]; cbn in *; try done; congruence.
  - intros t1 t2 (Es & Ea & Ev & En & Ep & Eo & Ed & Hc'). rewrite Ev, Es, Ed. by apply sim_if.
Qed.

Lemma EvalScript'_sim (s : list valtype) (script : CScript) (flags : Z) (c1 : C1) (c2 : C2) :
  R c1 c2 -> sim (fun r1 r2 => r1.1 = r2.1 /\ R r1.2 r2.2) (EvalScript' CheckLowS s script flags sv c1) (EvalScript' CheckLowS s script flags sv c2).
Proof.
  intros Hc. unfold EvalScript'. eapply sim_bind; [by apply EvalScript_sim|]. intros [[s1 d1] c1'] [[s2 d2] c2'] [E Hc']. cbn in E, Hc'. by simplify_eq.
Qed.

Lemma ExecuteWitnessScript_sim (span : list valtype) (script : CScript) (flags : Z) (d : ScriptExecutionData) (c1 : C1) (c2 : C2) :
  R c1 c2 -> sim (fun _ _ => True) (ExecuteWitnessScript CheckLowS span script flags sv d c1) (ExecuteWitnessScript CheckLowS span script flags sv d c2).
Proof.
  intros Hc. unfold ExecuteWitnessScript. apply sim_step. intros b. apply sim_if; [done|]. do 2 (apply sim_if; [done|]).
  eapply sim_bind; [by apply EvalScript_sim|]. intros [[s1 d1] c1'] [[s2 d2] c2'] [E _]. cbn in E. simplify_eq. destruct s2 as [|top [|]]; try done. by apply sim_if.
Qed.
End Parametric.

(** ** Scripts without signatures *)

Definition signature_opcodes : list Z := [OP_CHECKSIG; OP_CHECKSIGVERIFY; OP_CHECKSIGADD; OP_CHECKMULTISIG; OP_CHECKMULTISIGVERIFY].

(** No opcode of the script checks a signature. *)
Fixpoint signature_free (fuel : nat) (pc : CScript) : bool :=
  match pc, fuel with
  | [], _ => true
  | _ :: _, O => false
  | _ :: _, S fuel' => let op := GetScriptOp pc in negb (is_one_of (op_code op) signature_opcodes) && signature_free fuel' (op_rest op)
  end.

Section SignatureFree.
Context (CheckLowS : list Z -> bool) {C : Type} {HC : BaseSignatureChecker C}.

(** The result, if there is one, has the checker [c]. *)
Definition keeps (c : C) (m : result (eval_state (C := C))) : Prop := forall st, m = Ret st -> checker st = c.

Lemma keeps_bind {A : Type} (c : C) (m : result A) (k : A -> result eval_state) : (forall a, keeps c (k a)) -> keeps c (m ≫= k).
Proof. intros H st E. apply bind_Ret in E as [a [_ E]]. by apply (H a). Qed.

Lemma keeps_if (c : C) (b : bool) (m n : result eval_state) : keeps c m -> keeps c n -> keeps c (if b then m else n).
Proof. by destruct b. Qed.

Lemma keeps_ret (st : eval_state) (c : C) : checker st = c -> keeps c (Ret st).
Proof. by intros <- ? [= ->]. Qed.

Lemma keeps_fail (e : ScriptError) (c : C) : keeps c (set_error e).
Proof. done. Qed.

Lemma exec_opcode_keeps (opcode flags : Z) (sv : SigVersion) (fExec : bool) (pc : CScript) (st : eval_state) :
  is_one_of opcode signature_opcodes = false -> keeps (checker st) (exec_opcode CheckLowS opcode flags sv fExec pc st).
Proof.
  unfold is_one_of, signature_opcodes. cbn [existsb]. rewrite !orb_false_iff. intros (E1 & E2 & E3 & E4 & E5 & _). unfold exec_opcode. cbv zeta.
  rewrite E1, E2, E3, E4, E5. cbn [orb]. unfold locktime_op, if_op.
  repeat first [apply keeps_if | apply keeps_fail | by apply keeps_ret | apply keeps_bind; intros ?]. destruct a as [s a]. by apply keeps_ret.
Qed.

Lemma eval_loop_keeps (fuel : nat) (flags : Z) (sv : SigVersion) (pc : CScript) (st : eval_state) :
  signature_free fuel pc = true -> keeps (checker st) (eval_loop CheckLowS fuel flags sv pc st).
Proof.
  revert pc st. induction fuel as [|fuel IH]; intros [|o pc] st Hf; cbn [eval_loop]; try (by apply keeps_ret); [done|].
  cbn [signature_free] in Hf. apply andb_true_iff in Hf as [Ho Hrest]. apply negb_true_iff in Ho.
  intros st' H. apply bind_Ret in H as [[pc' st1] [E H]]. unfold eval_step in E. cbv zeta in E. revert E. set (op := GetScriptOp (o :: pc)) in *.
  destruct (negb _); [done|]. destruct (_ >? MAX_SCRIPT_ELEMENT_SIZE); [done|]. set (st0 := if pre_tapscript sv && _ then _ else st).
  destruct (_ && _ && _); [done|]. destruct (is_one_of _ disabled_opcodes); [done|]. destruct (_ && _ && has_flag _ _); [done|]. intros E.
  apply bind_Ret in E as [st2 [E2 E]]. destruct (_ >? MAX_STACK_SIZE); [done|]. injection E as <- <-.
  rewrite (IH _ _ Hrest _ H). cbn. assert (Hst0 : checker st0 = checker st) by (unfold st0; by destruct (pre_tapscript sv && _)).
  rewrite <- Hst0. match type of E2 with ?m = _ => enough (K : keeps (checker st0) m) by exact (K _ E2) end.
  apply keeps_if; [apply keeps_if; [done|by apply keeps_ret]|]. apply keeps_if; [by apply exec_opcode_keeps|by apply keeps_ret].
Qed.

Lemma EvalScript'_keeps (s s' : list valtype) (script : CScript) (flags : Z) (sv : SigVersion) (c c' : C) :
  signature_free (length script) script = true -> EvalScript' CheckLowS s script flags sv c = Ret (s', c') -> c' = c.
Proof.
  intros Hf H. unfold EvalScript', EvalScript in H. apply bind_Ret in H as [[[s1 d1] c1] [H E]]. injection E as <- <-.
  apply bind_Ret in H as [[] [_ H]]. destruct (_ && _); [done|]. cbv zeta in H. apply bind_Ret in H as [st [E H]].
  destruct (negb _); [done|]. injection H as _ _ <-. match type of E with context [eval_loop _ _ _ _ _ ?st0] => set (st0' := st0) in * end.
  pose proof (eval_loop_keeps (length script) flags sv script st0' Hf) as K. unfold keeps in K.
  destruct (eval_loop _ _ _ _ _ _) as [st2|[]| |]; try done. cbn in E. injection E as <-. exact (K st2 eq_refl).
Qed.
End SignatureFree.

(** ** The scripts around a witness program *)

Lemma GetScriptOp_direct (n : Z) (data rest : list Z) :
  n = Z.of_nat (length data) -> n < OP_PUSHDATA1 -> GetScriptOp (n :: data ++ rest) = mkOp true n data rest.
Proof.
  intros -> Hn. cbn [GetScriptOp]. unfold OP_PUSHDATA1, OP_PUSHDATA4 in *. destruct (Z.leb_spec (Z.of_nat (length data)) 78); [|lia].
  unfold push_size, OP_PUSHDATA1. destruct (Z.ltb_spec (Z.of_nat (length data)) 76); [|lia]. rewrite length_app.
  destruct (Z.ltb_spec (Z.of_nat (length data + length rest)) (Z.of_nat (length data))); [lia|]. by rewrite Nat2Z.id, take_app_length, drop_app_length.
Qed.

Lemma GetScriptOp_plain (o : Z) (rest : list Z) : OP_PUSHDATA4 < o -> GetScriptOp (o :: rest) = mkOp true o [] rest.
Proof. intros Ho. cbn [GetScriptOp]. by destruct (Z.leb_spec o OP_PUSHDATA4); [lia|]. Qed.

Lemma small_not_signature (o : Z) : o < OP_CHECKSIG -> is_one_of o signature_opcodes = false.
Proof.
  intros Ho. unfold is_one_of, signature_opcodes, OP_CHECKSIG, OP_CHECKSIGVERIFY, OP_CHECKSIGADD, OP_CHECKMULTISIG, OP_CHECKMULTISIGVERIFY in *. cbn [existsb]. lia.
Qed.

Lemma signature_free_direct (fuel : nat) (n : Z) (data rest : list Z) :
  n = Z.of_nat (length data) -> n < OP_PUSHDATA1 -> signature_free (S fuel) (n :: data ++ rest) = signature_free fuel rest.
Proof.
  intros Hn Hl. cbn [signature_free]. rewrite (GetScriptOp_direct n data rest Hn Hl). cbn [op_code op_rest]. rewrite small_not_signature; [done|].
  unfold OP_PUSHDATA1, OP_CHECKSIG in *. lia.
Qed.

Lemma signature_free_plain (fuel : nat) (o : Z) (rest : list Z) :
  OP_PUSHDATA4 < o < OP_CHECKSIG -> signature_free (S fuel) (o :: rest) = signature_free fuel rest.
Proof. intros [H1 H2]. cbn [signature_free]. rewrite (GetScriptOp_plain o rest H1). cbn [op_code op_rest]. by rewrite small_not_signature. Qed.

Lemma signature_free_nil (fuel : nat) : signature_free fuel [] = true.
Proof. by destruct fuel. Qed.

Lemma witness_program_free (s : CScript) (v : Z) (p : list Z) : IsWitnessProgram s = Some (Some (v, p)) -> signature_free (length s) s = true.
Proof.
  unfold IsWitnessProgram. destruct (_ || _) eqn:El; [done|]. apply orb_false_iff in El as [E1 E2]. rewrite Z.gtb_ltb in E2. apply Z.ltb_ge in E1, E2.
  destruct (_ && _) eqn:Eo; [done|]. destruct s as [|o [|l s]]; [cbn in E1; lia..|]. change ((o :: l :: s) !!! 0%nat) with o in *.
  change ((o :: l :: s) !!! 1%nat) with l. destruct (Z.eqb_spec (l + 2) (Z.of_nat (length (o :: l :: s)))) as [Hl|]; [|done]. intros _.
  cbn [length] in *. assert (Hl' : l = Z.of_nat (length s)) by lia. assert (Hlt : l < OP_PUSHDATA1) by (unfold OP_PUSHDATA1; lia).
  assert (Htail : signature_free (S (length s)) (l :: s) = true).
  { rewrite <- (app_nil_r s) at 2. rewrite (signature_free_direct _ l s []) by done. apply signature_free_nil. }
  destruct (Z.eqb_spec o OP_0) as [->|Hne].
  - by rewrite (signature_free_direct _ 0 [] (l :: s)).
  - cbn [negb andb] in Eo. apply orb_false_iff in Eo as [E3 E4]. rewrite Z.gtb_ltb in E4. apply Z.ltb_ge in E3, E4.
    rewrite signature_free_plain; [done|]. unfold OP_1, OP_16, OP_PUSHDATA4, OP_CHECKSIG in *. lia.
Qed.

Lemma p2sh_free (s : CScript) : IsPayToScriptHash s = true -> signature_free (length s) s = true.
Proof.
  unfold IsPayToScriptHash. rewrite !andb_true_iff, !Z.eqb_eq. intros [[[Hl H0] H1] H22]. destruct s as [|o [|l s]]; [done..|]. cbn in H0, H1. subst o l.
  cbn [length] in Hl. change ((OP_HASH160 :: 20 :: s) !!! 22%nat) with (s !!! 20%nat) in H22.
  assert (Es : s = take 20 s ++ [OP_EQUAL]).
  { rewrite <- (take_drop 20 s) at 1. f_equal. destruct (drop 20 s) as [|x [|y t]] eqn:E.
    - apply (f_equal length) in E. rewrite length_drop in E. cbn in E. lia.
    - rewrite <- H22. f_equal. apply (f_equal (fun l => l !!! 0%nat)) in E. rewrite lookup_total_drop in E. cbn in E. done.
    - apply (f_equal length) in E. rewrite length_drop in E. cbn in E. lia. }
  assert (Ht : length (take 20 s) = 20%nat) by (rewrite length_take; lia).
  cbn [length]. rewrite signature_free_plain by (unfold OP_PUSHDATA4, OP_HASH160, OP_CHECKSIG; lia). rewrite Es at 2.
  rewrite signature_free_direct by (rewrite ?Ht; done). replace (length s) with 21%nat by lia. reflexivity.
Qed.

Lemma push_free (data : list Z) : Z.of_nat (length data) < 2 ^ 32 -> signature_free (length (push_data [] data)) (push_data [] data) = true.
Proof.
  intros Hd. destruct (GetScriptOp_push data [] Hd) as (o & E & Ho & Hh). rewrite app_nil_r in E. destruct (push_data [] data) as [|x l]; [done|].
  cbn [length signature_free]. rewrite E. cbn [op_code op_rest]. rewrite signature_free_nil, small_not_signature; [done|].
  unfold OP_PUSHDATA4, OP_CHECKSIG in *. lia.
Qed.

(** ** Verification with two checkers *)

Section Verify.
Context (CheckLowS : list Z -> bool) (CheckTapTweak : list Z -> list Z -> uint256 -> bool -> bool).
Context {C1 C2 : Type} {H1 : BaseSignatureChecker C1} {H2 : BaseSignatureChecker C2}.
Context (R : SigVersion -> C1 -> C2 -> Prop) (HR : forall sv, checkers_sim sv (R sv)).

Definition all_sim (c1 : C1) (c2 : C2) : Prop := forall sv, R sv c1 c2.

Lemma VerifyTaproot_sim (witness : list valtype) (program : list Z) (flags : Z) (c1 : C1) (c2 : C2) :
  all_sim c1 c2 ->
  sim (fun _ _ => True) (VerifyTaproot CheckLowS CheckTapTweak witness program flags c1) (VerifyTaproot CheckLowS CheckTapTweak witness program flags c2).
Proof.
  intros Hc. unfold VerifyTaproot. do 2 (apply sim_if; [done|]). destruct (pop_annex witness) as [[|sig [|x l]] d].
  - done.
  - eapply sim_bind; [apply (schnorr_sim _ _ (HR TAPROOT)), Hc|]. by intros [] [] _.
  - apply sim_step. intros [rest control]. apply sim_step. intros [rest' script]. cbv zeta. apply sim_if; [done|]. apply sim_step. intros ok.
    do 2 (apply sim_if; [done || by apply (ExecuteWitnessScript_sim CheckLowS TAPSCRIPT (R TAPSCRIPT) (HR TAPSCRIPT))|]). by apply sim_if.
Qed.

Lemma VerifyWitnessProgram_sim (witness : list valtype) (witversion : Z) (program : list Z) (flags : Z) (is_p2sh : bool) (c1 : C1) (c2 : C2) :
  all_sim c1 c2 ->
  sim (fun _ _ => True) (VerifyWitnessProgram CheckLowS CheckTapTweak witness witversion program flags is_p2sh c1)
    (VerifyWitnessProgram CheckLowS CheckTapTweak witness witversion program flags is_p2sh c2).
Proof.
  intros Hc. unfold VerifyWitnessProgram. pose proof (fun s p d => ExecuteWitnessScript_sim CheckLowS WITNESS_V0 (R WITNESS_V0) (HR _) s p flags d c1 c2 (Hc _)) as Hv0.
  apply sim_if.
  - apply sim_if; [|apply sim_if; [|done]; by apply sim_if]. destruct (SpanPopBack witness) as [[s p]|]; [|done]. by apply sim_if.
  - apply sim_if; [by apply VerifyTaproot_sim|]. apply sim_if; [done|]. by apply sim_if.
Qed.

Lemma with_serror_sim {A B : Type} (S : A -> B -> Prop) (e : ScriptError) (m1 : result A) (m2 : result B) : sim S m1 m2 -> sim S (with_serror e m1) (with_serror e m2).
Proof. destruct m1 as [|[]| |], m2 as [|[]| |]; cbn; congruence || done. Qed.

Lemma verify_program_sim (script : CScript) (malleated : bool) (e : ScriptError) (witness : list valtype) (flags : Z) (is_p2sh : bool) (stack : list valtype)
    (had : bool) (c1 : C1) (c2 : C2) :
  (malleated = false -> (exists v p, IsWitnessProgram script = Some (Some (v, p))) -> all_sim c1 c2) ->
  sim (fun r1 r2 => r1.1 = r2.1) (verify_program CheckLowS CheckTapTweak script malleated e witness flags is_p2sh stack had c1)
    (verify_program CheckLowS CheckTapTweak script malleated e witness flags is_p2sh stack had c2).
Proof.
  intros Hc. unfold verify_program. apply sim_if; [|done]. destruct (IsWitnessProgram script) as [[[v p]|]|]; cbn; try done.
  destruct malleated; [done|]. eapply sim_bind; [apply with_serror_sim, VerifyWitnessProgram_sim; apply Hc; [done|by exists v, p]|]. by intros c1' c2' _.
Qed.

(** The scripts that were evaluated before a witness program leave the checkers alone. *)
Lemma EvalScript'_sim_free (s : list valtype) (script : CScript) (flags : Z) (c1 : C1) (c2 : C2) :
  R BASE c1 c2 ->
  sim (fun r1 r2 => r1.1 = r2.1 /\ R BASE r1.2 r2.2 /\ (signature_free (length script) script = true -> r1.2 = c1 /\ r2.2 = c2))
    (EvalScript' CheckLowS s script flags BASE c1) (EvalScript' CheckLowS s script flags BASE c2).
Proof.
  intros Hc. pose proof (EvalScript'_sim CheckLowS BASE (R BASE) (HR BASE) s script flags c1 c2 Hc) as H.
  destruct (EvalScript' _ _ _ _ _ c1) as [[s1 d1]| | |] eqn:E1, (EvalScript' _ _ _ _ _ c2) as [[s2 d2]| | |] eqn:E2; try done.
  destruct H as [Hs Hd]. split; [done|]. split; [done|]. intros Hf. split; by eapply EvalScript'_keeps.
Qed.

Lemma verify_p2sh_sim (scriptSig : CScript) (witness stack : list valtype) (flags : Z) (had : bool) (c1 : C1) (c2 : C2) :
  R BASE c1 c2 -> (forall key, scriptSig = push_data [] key -> all_sim c1 c2) ->
  sim (fun r1 r2 => r1.1 = r2.1) (verify_p2sh CheckLowS CheckTapTweak scriptSig witness stack flags had c1)
    (verify_p2sh CheckLowS CheckTapTweak scriptSig witness stack flags had c2).
Proof.
  intros Hc Hall. unfold verify_p2sh. apply sim_step. intros po. apply sim_if; [done|]. do 3 (apply sim_step; intros ?).
  eapply sim_bind; [by apply EvalScript'_sim_free|]. intros [s1 d1] [s2 d2] (E & Hd & Hf). cbn in E, Hd, Hf. subst s2. apply sim_step. intros _.
  apply verify_program_sim. intros Em [v [p Hp]]. apply negb_false_iff, bool_decide_eq_true in Em.
  destruct (Hf (witness_program_free _ _ _ Hp)) as [-> ->]. by apply (Hall a0).
Qed.

Lemma EvalScript'_size (s : list valtype) (script : CScript) (flags : Z) (c : C1) (r : list valtype * C1) :
  EvalScript' CheckLowS s script flags BASE c = Ret r -> Z.of_nat (length script) <= MAX_SCRIPT_SIZE.
Proof.
  intros H. unfold EvalScript', EvalScript in H. apply bind_Ret in H as [x [H _]]. apply bind_Ret in H as [[] [_ H]].
  change (pre_tapscript BASE) with true in H. cbn [andb] in H. rewrite Z.gtb_ltb in H. destruct (Z.ltb_spec MAX_SCRIPT_SIZE (Z.of_nat (length script))); [done|lia].
Qed.

Lemma VerifyScript_sim (scriptSig scriptPubKey : CScript) (witness : list valtype) (flags : Z) (c1 : C1) (c2 : C2) :
  all_sim c1 c2 ->
  sim (fun _ _ => True) (VerifyScript CheckLowS CheckTapTweak scriptSig scriptPubKey witness flags c1)
    (VerifyScript CheckLowS CheckTapTweak scriptSig scriptPubKey witness flags c2).
Proof.
  intros Hc. unfold VerifyScript. apply sim_step. intros po. apply sim_if; [done|].
  pose proof (EvalScript'_sim_free [] scriptSig flags c1 c2 (Hc BASE)) as Hsig.
  destruct (EvalScript' CheckLowS [] scriptSig flags BASE c1) as [[s a1]| | |] eqn:E1, (EvalScript' CheckLowS [] scriptSig flags BASE c2) as [[s' a2]| | |]; try done.
  destruct Hsig as (Es & Ha & Hfree). cbn in Es, Ha, Hfree. subst s'. apply EvalScript'_size in E1. cbn [mbind result_bind]. cbv zeta.
  eapply sim_bind; [by apply EvalScript'_sim_free|]. intros [t b1] [t' b2] (Et & Hb & Hfree2). cbn in Et, Hb, Hfree2. subst t'. apply sim_step. intros _.
  eapply (sim_bind (fun r1 r2 => r1.1 = r2.1 /\ (IsPayToScriptHash scriptPubKey = true -> r1.2 = b1 /\ r2.2 = b2))).
  - destruct (IsPayToScriptHash scriptPubKey) eqn:Ep.
    + unfold verify_program. rewrite (p2sh_not_witness _ Ep). cbn. by apply sim_if.
    + eapply sim_weaken; [|apply verify_program_sim]; [by intros r1 r2 ->|]. intros Em [v [p Hp]]. apply negb_false_iff, Nat.eqb_eq, nil_length_inv in Em. subst scriptSig.
      destruct (Hfree eq_refl) as [-> ->]. by destruct (Hfree2 (witness_program_free _ _ _ Hp)) as [-> ->].
  - intros [[s1 had1] d1] [[s2 had2] d2] [E Hd]. cbn in E, Hd. simplify_eq. eapply (sim_bind (fun r1 r2 => r1.1 = r2.1)).
    + destruct (IsPayToScriptHash scriptPubKey) eqn:Ep; [|by rewrite andb_false_r]. apply sim_if; [|done]. destruct (Hd eq_refl) as [-> ->].
      destruct (Hfree2 (p2sh_free _ Ep)) as [-> ->]. apply verify_p2sh_sim; [done|]. intros key Hk. destruct Hfree as [-> ->]; [|done]. rewrite Hk.
      apply push_free. rewrite Hk in E1. unfold push_data in E1. rewrite !length_app in E1. unfold MAX_SCRIPT_SIZE in E1. lia.
    + intros [[s3 had3] e1] [[s4 had4] e2] E. cbn in E. simplify_eq. unfold final_checks. apply sim_step. intros _. apply sim_if; [|done].
      apply sim_step. intros _. by apply sim_if.
Qed.
End Verify.

(** ** The cache *)

(** The parts of a hash type that a signature hash looks at before it writes the hash type itself are those that choose the entry of the cache. *)
Lemma CacheIndex_parts (h h' : Z) :
  CacheIndex h = CacheIndex h' -> fAnyoneCanPay h = fAnyoneCanPay h' /\ fHashSingle h = fHashSingle h' /\ fHashNone h = fHashNone h'.
Proof.
  unfold CacheIndex. assert (Hx : forall x, fHashSingle x = true -> fHashNone x = false).
  { intros x. unfold fHashSingle, fHashNone. rewrite Z.eqb_eq. by intros ->. }
  specialize (Hx h) as Hx1. specialize (Hx h') as Hx2. clear Hx.
  destruct (fAnyoneCanPay h), (fHashSingle h), (fHashNone h), (fAnyoneCanPay h'), (fHashSingle h'), (fHashNone h'); cbn; intros E; try done; naive_solver.
Qed.

Lemma signature_pieces_index (code : CScript) (tx : CTransaction) (nIn : nat) (h h' amount : Z) (sv : SigVersion) (d : option PrecomputedTransactionData) :
  CacheIndex h = CacheIndex h' -> signature_pieces code tx nIn h amount sv d = signature_pieces code tx nIn h' amount sv d.
Proof.
  intros (Ea & Es & En)%CacheIndex_parts. unfold signature_pieces, write_bip143, SerializeForSignature, SerializeInput, SerializeOutput. by rewrite Ea, Es, En.
Qed.

(** Every entry is the midstate of what it stands for. *)
Definition cache_ok (sv : SigVersion) (c : TransactionSignatureChecker) (cache : SigHashCache) : Prop :=
  forall k code w, cache !! k = Some (Some (code, w)) ->
  exists h pieces, CacheIndex h = k /\ signature_pieces code (c_txTo c) (c_nIn c) h (c_amount c) sv (c_txdata c) = Some pieces /\ w = write_all new_hasher pieces.

Lemma new_cache_empty (k : nat) (x : CScript * CSHA256) : SigHashCache_new !! k <> Some (Some x).
Proof. by destruct k as [|[|[|[|[|[|k]]]]]]. Qed.

Lemma cache_ok_new (sv : SigVersion) (c : TransactionSignatureChecker) : cache_ok sv c SigHashCache_new.
Proof. intros k code w H. by apply new_cache_empty in H. Qed.

Lemma cache_ok_Store (sv : SigVersion) (c : TransactionSignatureChecker) (cache : SigHashCache) (h : Z) (code : CScript) (pieces : list (list Z)) :
  cache_ok sv c cache -> signature_pieces code (c_txTo c) (c_nIn c) h (c_amount c) sv (c_txdata c) = Some pieces ->
  cache_ok sv c (Store cache h code (write_all new_hasher pieces)).
Proof.
  intros Hok Hp k code' w H. unfold Store in H. apply list_lookup_insert_Some in H as [(<- & E & _)|[_ H]]; [|by apply Hok].
  injection E as <- <-. by exists h, pieces.
Qed.

(** The hash is the one without the cache. *)
Lemma SignatureHash_cached (sv : SigVersion) (c : TransactionSignatureChecker) (cache : SigHashCache) (code : CScript) (h : Z) :
  cache_ok sv c cache ->
  match SignatureHash code (c_txTo c) (c_nIn c) h (c_amount c) sv (c_txdata c) (Some cache),
        SignatureHash code (c_txTo c) (c_nIn c) h (c_amount c) sv (c_txdata c) (Some SigHashCache_new) with
  | Some (x, cache'), Some (y, _) => x = y /\ cache_ok sv c (default cache cache')
  | None, None => True
  | _, _ => False
  end.
Proof.
  intros Hok. unfold SignatureHash. destruct (_ <=? _)%nat; [done|]. destruct (_ && _ && _); [done|]. cbv zeta. cbn [mbind option_bind].
  assert (E0 : Load SigHashCache_new h code = None).
  { unfold Load. destruct (SigHashCache_new !! CacheIndex h) as [[[]|]|] eqn:E; try done. by apply new_cache_empty in E. }
  rewrite E0. destruct (Load cache h code) as [w|] eqn:E.
  - unfold Load in E. destruct (cache !! CacheIndex h) as [[[code' w']|]|] eqn:El; try done. case_bool_decide as Ec; [|done]. injection E as <-. subst code'.
    destruct (Hok _ _ _ El) as (h' & pieces & Hi & Hp & ->). rewrite (signature_pieces_index _ _ _ h h') by done. rewrite Hp. done.
  - destruct (signature_pieces code _ _ h _ _ _) as [pieces|] eqn:Ep; cbn [mbind option_bind]; [|done]. split; [done|]. cbn. by apply cache_ok_Store.
Qed.

Section Cache.
Context {HS : SignatureVerifier}.

(** The checker that starts every signature hash with an empty cache and forgets it afterwards. *)
Definition uncached_checker : BaseSignatureChecker TransactionSignatureChecker := {|
  CheckECDSASignature c sig key code sv :=
    '(ok, _) ← tx_CheckECDSASignature (set_sighash_cache c SigHashCache_new) sig key code sv; Ret (ok, c);
  CheckSchnorrSignature := tx_CheckSchnorrSignature;
  CheckLockTime := tx_CheckLockTime;
  CheckSequence := tx_CheckSequence
|}.

(** The same checker but for a cache that is right for signatures of version [sv]. *)
Definition cache_sim (sv : SigVersion) (c1 c2 : TransactionSignatureChecker) : Prop := exists cache, c1 = set_sighash_cache c2 cache /\ cache_ok sv c2 cache.

Lemma cached_checkers_sim (sv : SigVersion) : checkers_sim (H1 := transaction_checker) (H2 := uncached_checker) sv (cache_sim sv).
Proof.
  split.
  - intros c1 c2 sig key code [cache [-> Hok]].
    cbn [CheckECDSASignature transaction_checker uncached_checker]. unfold tx_CheckECDSASignature, ecdsa_request. cbn [c_txTo c_mdb c_nIn c_amount c_txdata m_sighash_cache set_sighash_cache].
    destruct (CPubKey_of key) as [pk|]; [|by split; [|exists cache]]. destruct (last sig) as [h|]; [|by split; [|exists cache]]. cbv zeta.
    destruct (_ && _).
    { destruct (HandleMissingData (c_mdb c2)); cbn; [|done]. split; [done|by exists cache]. }
    pose proof (SignatureHash_cached sv c2 cache code h Hok) as H.
    destruct (SignatureHash _ _ _ _ _ _ _ (Some cache)) as [[x cache']|], (SignatureHash _ _ _ _ _ _ _ (Some SigHashCache_new)) as [[y cache'']|]; cbn; try done.
    destruct H as [-> H]. split; [done|]. by exists (default cache cache').
  - intros c1 c2 sig key d [cache [-> Hok]]. apply (sim_step _ (schnorr_request c2 sig key sv d)). intros [[[sig' key'] h] d'].
    apply sim_if; [|done]. split; [done|by exists cache].
  - by intros c1 c2 n [cache [-> _]].
  - by intros c1 c2 n [cache [-> _]].
Qed.
End Cache.

(** How a verification ends, without the state of the checker. *)
Definition outcome {A : Type} (m : result A) : result unit := match m with Ret _ => Ret tt | Fail e => Fail e | Throw x => Throw x | Abort => Abort end.

(** C14: the cache of midstates is transparent. [VerifyScript] with [TransactionSignatureChecker] ends, for every input, spent output, witness and set of
    flags, exactly as it ends when every signature hash is computed from scratch, with the same script error if it fails. The entries of the cache
    carry no signature version; they are never read for another version than the one they were made for. *)
Theorem sighash_cache_transparent {HS : SignatureVerifier} (CheckLowS : list Z -> bool) (CheckTapTweak : list Z -> list Z -> uint256 -> bool -> bool)
    (tx : CTransaction) (mdb : MissingDataBehavior) (nIn : nat) (amount : Z) (txdata : option PrecomputedTransactionData)
    (scriptSig scriptPubKey : CScript) (witness : list valtype) (flags : Z) :
  let c := mkChecker tx mdb nIn amount txdata SigHashCache_new in
  outcome (VerifyScript (HC := transaction_checker) CheckLowS CheckTapTweak scriptSig scriptPubKey witness flags c) =
  outcome (VerifyScript (HC := uncached_checker) CheckLowS CheckTapTweak scriptSig scriptPubKey witness flags c).
Proof.
  intros c. assert (Hall : all_sim cache_sim c c) by (intros sv; exists SigHashCache_new; split; [done|apply cache_ok_new]).
  pose proof (VerifyScript_sim (H1 := transaction_checker) (H2 := uncached_checker) CheckLowS CheckTapTweak cache_sim cached_checkers_sim
    scriptSig scriptPubKey witness flags c c Hall) as H.
  destruct (VerifyScript (HC := transaction_checker) _ _ _ _ _ _ _), (VerifyScript (HC := uncached_checker) _ _ _ _ _ _ _); cbn in *; by try congruence.
Qed.
