(* ===== verification/SighashOld.v ===== *)
(** * The signature hash of scripts that are not witness scripts, against the one it replaced

    test/sighash_tests.cpp keeps the old [SignatureHash], which makes a copy of the transaction, changes it and serializes it; the serializer of
    script/interpreter.cpp writes the same bytes without the copy. *)

From Stdlib Require Import ZifyNat.
From S2P Require Import Prelude Serialize ArithUint256 Chain Params Transaction Script TxVerify Sha256 Sha256Spec Hash Hash160.
From S2P Require Import Interpreter Sighash VerifyScript InterpreterSafe SighashSpec.
#[local] Open Scope Z_scope.

(** ** The old function *)

Definition set_scriptSig (x : CTxIn) (s : CScript) : CTxIn := mkTxIn (prevout x) s (nSequence x) (scriptWitness x).
Definition set_nSequence (x : CTxIn) (n : Z) : CTxIn := mkTxIn (prevout x) (scriptSig x) n (scriptWitness x).

(** [SignatureHashOld]; [None] is only a loop of [FindAndDelete] without end. *)
Definition SignatureHashOld (scriptCode : CScript) (txTo : CTransaction) (nIn : nat) (nHashType : Z) : option uint256 :=
  if (length (vin txTo) <=? nIn)%nat then Some 1
  else
  '(scriptCode, _) ← FindAndDelete scriptCode [OP_CODESEPARATOR];
  let ins := imap (fun i x => set_scriptSig x (if (i =? nIn)%nat then scriptCode else [])) (vin txTo) in
  let update l := imap (fun i x => if negb (i =? nIn)%nat then set_nSequence x 0 else x) l in
  let hash ins outs :=
    let ins := if negb (Z.land nHashType SIGHASH_ANYONECANPAY =? 0) then take 1 (drop nIn ins) else ins in
    writer_GetHash (write_all new_hasher [SerializeTransaction false (mkTx ins outs (tx_version txTo) (nLockTime txTo)); ser fmt_i32 nHashType]) in
  if Z.land nHashType 0x1f =? SIGHASH_NONE then Some (hash (update ins) [])
  else if Z.land nHashType 0x1f =? SIGHASH_SINGLE then
    if (length (vout txTo) <=? nIn)%nat then Some 1
    else Some (hash (update ins) (repeat CTxOut_SetNull nIn ++ drop nIn (take (S nIn) (vout txTo))))
  else Some (hash ins (vout txTo)).

(** Every [GetOp] up to the end of the script succeeds. *)
Fixpoint parses (fuel : nat) (pc : CScript) : bool :=
  match pc, fuel with
  | [], _ => true
  | _ :: _, O => false
  | _ :: _, S fuel' => let op := GetScriptOp pc in op_ok op && parses fuel' (op_rest op)
  end.

(** ** Scripts without separators *)

(** The operations of a script, as the bytes of each. *)
Inductive parsed : CScript -> list (list Z) -> Prop :=
  | parsed_nil : parsed [] []
  | parsed_cons pc pre ops : op_ok (GetScriptOp pc) = true -> pc = pre ++ op_rest (GetScriptOp pc) -> parsed (op_rest (GetScriptOp pc)) ops -> parsed pc (pre :: ops).

Lemma GetScriptOp_suffix (pc : list Z) : exists pre, pc = pre ++ op_rest (GetScriptOp pc).
Proof.
  destruct pc as [|o pc]; [by exists []|]. cbn [GetScriptOp]. destruct (o <=? OP_PUSHDATA4); [|by exists [o]].
  assert (Hs : match push_size o pc with Some (_, pc') => exists pre, pc = pre ++ pc' | None => True end).
  { unfold push_size. destruct (o <? OP_PUSHDATA1); [by exists []|]. destruct (o =? OP_PUSHDATA1); [destruct pc as [|a pc]; [done|by exists [a]]|].
    destruct (o =? OP_PUSHDATA2); [destruct pc as [|a [|b pc]]; try done; by exists [a; b]|]. destruct pc as [|a [|b [|c [|d pc]]]]; try done. by exists [a; b; c; d]. }
  destruct (push_size o pc) as [[n pc']|]; [|by exists [o]]. destruct Hs as [pre ->]. destruct (_ <? n); [by exists (o :: pre)|].
  exists (o :: pre ++ take (Z.to_nat n) pc'). cbn. by rewrite <- app_assoc, take_drop.
Qed.

Lemma parses_parsed (fuel : nat) (pc : CScript) : parses fuel pc = true -> exists ops, parsed pc ops.
Proof.
  revert pc. induction fuel as [|fuel IH]; intros [|o pc] H; try done; try (by exists []; constructor). cbn [parses] in H. apply andb_true_iff in H as [Hok H].
  apply IH in H as [ops H]. destruct (GetScriptOp_suffix (o :: pc)) as [pre Hpre]. exists (pre :: ops). by constructor.
Qed.

(** An operation is a separator exactly when its byte is. *)
Definition is_separator (op : list Z) : bool := bool_decide (op = [OP_CODESEPARATOR]).

Lemma separator_op (pc pre : list Z) :
  op_ok (GetScriptOp pc) = true -> pc = pre ++ op_rest (GetScriptOp pc) -> (op_code (GetScriptOp pc) =? OP_CODESEPARATOR) = is_separator pre.
Proof.
  intros Hok Hpre. destruct pc as [|o pc]; [done|].
  assert (Ho : op_code (GetScriptOp (o :: pc)) = o).
  { revert Hok. cbn [GetScriptOp]. destruct (o <=? OP_PUSHDATA4); [|done]. destruct (push_size o pc) as [[n pc']|]; [|done]. by destruct (_ <? n). }
  rewrite Ho. destruct (Z.eqb_spec o OP_CODESEPARATOR) as [->|Hne].
  - change (op_rest (GetScriptOp (OP_CODESEPARATOR :: pc))) with pc in Hpre. change (OP_CODESEPARATOR :: pc) with ([OP_CODESEPARATOR] ++ pc) in Hpre.
    apply app_inv_tail in Hpre. symmetry. by apply bool_decide_eq_true.
  - symmetry. apply bool_decide_eq_false. intros ->. cbn in Hpre. congruence.
Qed.

Lemma separator_pc (pc : list Z) (ops : list (list Z)) : parsed (OP_CODESEPARATOR :: pc) ops -> exists ops', ops = [OP_CODESEPARATOR] :: ops' /\ parsed pc ops'.
Proof.
  intros H. inversion H as [|? pre ops' Hok Hpre Hp]; subst. change (op_rest (GetScriptOp (OP_CODESEPARATOR :: pc))) with pc in Hpre, Hp.
  change (OP_CODESEPARATOR :: pc) with ([OP_CODESEPARATOR] ++ pc) in Hpre. apply app_inv_tail in Hpre. subst pre. by exists ops'.
Qed.

Definition kept (ops : list (list Z)) : list Z := concat (List.filter (fun op => negb (is_separator op)) ops).
Definition separators (ops : list (list Z)) : nat := length (List.filter is_separator ops).

Lemma parsed_length (pc : CScript) (ops : list (list Z)) : parsed pc ops -> length pc = (length (kept ops) + separators ops)%nat.
Proof.
  induction 1 as [|pc pre ops Hok Hpre Hp IH]; [done|]. apply (f_equal length) in Hpre. rewrite Hpre, length_app, IH. unfold kept, separators. cbn [List.filter].
  destruct (is_separator pre) eqn:E; cbn [negb concat length]; [apply bool_decide_eq_true in E; subst pre; cbn; lia|]. rewrite length_app. lia.
Qed.

Lemma count_parsed (fuel : nat) (pc : CScript) (ops : list (list Z)) (n : Z) :
  parsed pc ops -> (length pc <= fuel)%nat -> count_codeseparators fuel pc n = Some (n + Z.of_nat (separators ops)).
Proof.
  intros H. revert fuel n. induction H as [|pc pre ops Hok Hpre Hp IH]; intros fuel n Hf; [destruct fuel; cbn; f_equal; lia|].
  pose proof (GetScriptOp_shorter _ Hok). destruct fuel as [|fuel]; [lia|]. cbn [count_codeseparators]. rewrite Hok, (separator_op pc pre) by done.
  rewrite IH by lia. unfold separators. cbn [List.filter]. destruct (is_separator pre); cbn [length]; f_equal; lia.
Qed.

Lemma write_between_parsed (fuel : nat) (seg pc acc : list Z) (ops : list (list Z)) :
  parsed pc ops -> (length pc <= fuel)%nat ->
  exists acc' tail, write_between fuel (seg ++ pc) pc acc = Some (acc', tail, []) /\ acc' ++ tail = acc ++ seg ++ kept ops.
Proof.
  intros H. revert fuel seg acc. induction H as [|pc pre ops Hok Hpre Hp IH]; intros fuel seg acc Hf.
  - exists acc, seg. rewrite !app_nil_r. by destruct fuel.
  - pose proof (GetScriptOp_shorter _ Hok) as Hsh. destruct fuel as [|fuel]; [lia|]. cbn [write_between]. rewrite Hok, (separator_op pc pre) by done.
    unfold kept. cbn [List.filter]. set (rest := op_rest (GetScriptOp pc)) in *. destruct (is_separator pre) eqn:E.
    + apply bool_decide_eq_true in E. subst pre. cbn [negb].
      replace (take (length (seg ++ pc) - length rest - 1) (seg ++ pc)) with seg.
      2:{ clearbody rest. rewrite Hpre, !length_app. cbn [length]. replace (_ - _ - 1)%nat with (length seg) by lia. by rewrite take_app_length. }
      destruct (IH fuel [] (acc ++ seg) ltac:(lia)) as (acc' & tail & E1 & E2). exists acc', tail. split; [exact E1|]. rewrite E2. by rewrite <- app_assoc.
    + cbn [negb concat]. destruct (IH fuel (seg ++ pre) acc ltac:(lia)) as (acc' & tail & E1 & E2). exists acc', tail.
      rewrite <- app_assoc, <- Hpre in E1. split; [exact E1|]. rewrite E2. by rewrite <- !app_assoc.
Qed.

Lemma SerializeScriptCode_parsed (code : CScript) (ops : list (list Z)) : parsed code ops -> SerializeScriptCode code = Some (ser fmt_bytes (kept ops)).
Proof.
  intros H. unfold SerializeScriptCode. rewrite (count_parsed _ _ ops) by (done || lia). cbn [mbind option_bind].
  destruct (write_between_parsed (length code) [] code [] ops H ltac:(lia)) as (acc & tail & E & Ek). cbn [app] in E, Ek. rewrite E. cbn [mbind option_bind].
  rewrite (parsed_length _ _ H). f_equal. cbn [ser fmt_bytes]. f_equal; [f_equal; lia|]. rewrite <- Ek. f_equal. rewrite Nat.sub_0_r, take_ge by done.
  by destruct tail.
Qed.

Lemma skip_parsed (fuel : nat) (pc : list Z) (ops : list (list Z)) (n : Z) :
  parsed pc ops -> (length pc <= fuel)%nat ->
  exists pc' ops' k, skip_copies fuel [OP_CODESEPARATOR] pc n = Some (pc', n + Z.of_nat k) /\ parsed pc' ops' /\ kept ops = kept ops' /\
    (length pc = k + length pc')%nat /\ (forall r, pc' <> OP_CODESEPARATOR :: r) /\ (k = 0%nat -> pc' = pc).
Proof.
  revert pc ops n. induction fuel as [|fuel IH]; intros [|x pc] ops n Hp Hf; cbn [skip_copies length Nat.leb andb take].
  - exists [], ops, 0%nat. by rewrite Z.add_0_r.
  - cbn in Hf. lia.
  - exists [], ops, 0%nat. by rewrite Z.add_0_r.
  - case_bool_decide as E; [|exists (x :: pc), ops, 0%nat; rewrite Z.add_0_r; split_and!; try done; by intros r [= -> _]].
    injection E as ->. destruct (separator_pc _ _ Hp) as (ops1 & -> & Hp1). cbn [skipn]. rewrite drop_0.
    destruct (IH pc ops1 (n + 1) Hp1 ltac:(cbn in Hf; lia)) as (pc' & ops' & k & -> & Hp' & Hk & Hl & Hne & _). exists pc', ops', (S k).
    split; [do 2 f_equal; lia|]. split_and!; try done. cbn. lia.
Qed.

Lemma FindAndDelete_parsed_loop (fuel : nat) (seg pc r : list Z) (ops : list (list Z)) (n : Z) :
  parsed pc ops -> (length pc < fuel)%nat ->
  exists n', FindAndDelete_loop fuel [OP_CODESEPARATOR] (seg ++ pc) pc r n = Some (r ++ seg ++ kept ops, [], n') /\ n <= n' /\
    (n' = n -> kept ops = pc).
Proof.
  revert seg pc r ops n. induction fuel as [|fuel IH]; intros seg pc r ops n Hp Hf; [lia|]. cbn [FindAndDelete_loop].
  replace (take (length (seg ++ pc) - length pc) (seg ++ pc)) with seg by (rewrite length_app; replace (_ - _)%nat with (length seg) by lia; by rewrite take_app_length).
  destruct (skip_parsed (length pc) pc ops n Hp ltac:(lia)) as (pc' & ops' & k & -> & Hp' & Hk & Hl & Hne & Hz). cbn [mbind option_bind].
  destruct Hp' as [|pc' pre ops' Hok Hpre Hp'].
  - cbn [GetScriptOp op_ok]. exists (n + Z.of_nat k). rewrite Hk. cbn. rewrite app_nil_r. split; [done|]. split; [lia|]. intros E. apply Hz. lia.
  - rewrite Hok. pose proof (GetScriptOp_shorter _ Hok). set (rest := op_rest (GetScriptOp pc')) in *.
    destruct (IH pre rest (r ++ seg) ops' (n + Z.of_nat k) Hp' ltac:(lia)) as (n' & E & Hle & Hz'). rewrite <- Hpre in E. rewrite E. exists n'.
    assert (Hsep : is_separator pre = false).
    { apply bool_decide_eq_false. intros ->. cbn in Hpre. exact (Hne _ Hpre). }
    rewrite Hk. unfold kept at 2. cbn [List.filter]. rewrite Hsep. cbn [negb concat]. rewrite <- !app_assoc. split; [done|]. split; [lia|].
    intros ->. unfold kept. cbn [List.filter]. rewrite Hsep. cbn [negb concat]. fold (kept ops'). rewrite Hz' by lia. rewrite <- Hpre. apply Hz. lia.
Qed.

Lemma FindAndDelete_parsed (code : CScript) (ops : list (list Z)) : parsed code ops -> exists n, FindAndDelete code [OP_CODESEPARATOR] = Some (kept ops, n).
Proof.
  intros Hp. unfold FindAndDelete. destruct (FindAndDelete_parsed_loop (S (length code)) [] code [] ops 0 Hp ltac:(lia)) as (n & E & Hle & Hz).
  cbn [app] in E. rewrite E. cbn [mbind option_bind]. exists n. rewrite app_nil_r. destruct (Z.gtb_spec n 0); [done|]. by rewrite Hz by lia.
Qed.

(** ** Inputs and outputs *)

Lemma mapM_seq {A B : Type} (f : nat -> option B) (g : A -> B) (v : list A) (k : nat) :
  (forall i x, v !! i = Some x -> f (k + i)%nat = Some (g x)) -> mapM f (seq k (length v)) = Some (map g v).
Proof.
  revert k. induction v as [|x v IH]; intros k H; [done|]. cbn [length seq mapM map]. rewrite <- (Nat.add_0_r k) at 1. rewrite (H 0%nat x eq_refl). cbn [mbind option_bind].
  rewrite (IH (S k)); [done|]. intros i y Hi. replace (S k + i)%nat with (k + S i)%nat by lia. by apply H.
Qed.

Section Serializer.
Context (code : CScript) (ops : list (list Z)) (Hops : parsed code ops) (tx : CTransaction) (nIn : nat) (h : Z) (Hn : (nIn < length (vin tx))%nat).

(** The inputs of the changed copy. *)
Definition old_ins : list CTxIn :=
  let ins := imap (fun i x => set_scriptSig x (if (i =? nIn)%nat then kept ops else [])) (vin tx) in
  let ins := if fHashSingle h || fHashNone h then imap (fun i x => if negb (i =? nIn)%nat then set_nSequence x 0 else x) ins else ins in
  if fAnyoneCanPay h then take 1 (drop nIn ins) else ins.
Definition old_outs : list CTxOut :=
  if fHashNone h then [] else if fHashSingle h then repeat CTxOut_SetNull nIn ++ drop nIn (take (S nIn) (vout tx)) else vout tx.

Definition old_in (i : nat) (x : CTxIn) : CTxIn :=
  let y := set_scriptSig x (if (i =? nIn)%nat then kept ops else []) in
  if fHashSingle h || fHashNone h then if negb (i =? nIn)%nat then set_nSequence y 0 else y else y.

Lemma old_ins_imap : old_ins = if fAnyoneCanPay h then take 1 (drop nIn (imap old_in (vin tx))) else imap old_in (vin tx).
Proof.
  unfold old_ins, old_in. cbv zeta. destruct (fHashSingle h || fHashNone h); [|done]. set (l := imap _ (imap _ _)).
  assert (El : l = imap (fun i x => let y := set_scriptSig x (if (i =? nIn)%nat then kept ops else []) in if negb (i =? nIn)%nat then set_nSequence y 0 else y) (vin tx)); [|by rewrite El].
  apply list_eq. intros i. unfold l. rewrite !list_lookup_imap. by destruct (vin tx !! i).
Qed.

Lemma SerializeInput_old (i : nat) (x : CTxIn) :
  vin tx !! (if fAnyoneCanPay h then nIn else i) = Some x ->
  SerializeInput tx code nIn h i = Some (ser fmt_CTxIn (old_in (if fAnyoneCanPay h then nIn else i) x)).
Proof.
  intros Hx. unfold SerializeInput. cbv zeta. rewrite Hx. cbn [mbind option_bind]. set (j := if fAnyoneCanPay h then nIn else i) in *.
  rewrite (SerializeScriptCode_parsed _ _ Hops). unfold old_in. destruct (j =? nIn)%nat; cbn [negb andb]; cbn [mbind option_bind].
  - destruct (fHashSingle h || fHashNone h); cbn; by rewrite <- app_assoc.
  - destruct (fHashSingle h || fHashNone h); cbn; by rewrite <- app_assoc.
Qed.

Lemma SerializeInputs_old :
  mapM (SerializeInput tx code nIn h) (seq 0 (if fAnyoneCanPay h then 1 else length (vin tx))) = Some (map (ser fmt_CTxIn) old_ins).
Proof.
  rewrite old_ins_imap. pose proof SerializeInput_old as H. destruct (fAnyoneCanPay h).
  - apply lookup_lt_is_Some_2 in Hn as [x Hx]. cbn [seq mapM]. rewrite (H 0%nat x Hx). cbn [mbind option_bind].
    assert (E : imap old_in (vin tx) !! nIn = Some (old_in nIn x)) by (by rewrite list_lookup_imap, Hx). by rewrite (drop_S _ _ _ E).
  - rewrite <- (length_imap old_in (vin tx)). apply (mapM_seq _ _ _ 0). intros i y Hy. rewrite list_lookup_imap in Hy.
    destruct (vin tx !! i) as [x|] eqn:Hx; [|done]. injection Hy as <-. by apply H.
Qed.

Context (Hout : fHashSingle h = true -> (nIn < length (vout tx))%nat).

Lemma single_not_none : fHashSingle h = true -> fHashNone h = false.
Proof. unfold fHashSingle, fHashNone. rewrite Z.eqb_eq. by intros ->. Qed.

Lemma SerializeOutputs_old :
  let n := if fHashNone h then 0%nat else if fHashSingle h then S nIn else length (vout tx) in
  length old_outs = n /\ mapM (SerializeOutput tx nIn h) (seq 0 n) = Some (map (ser fmt_CTxOut) old_outs).
Proof.
  cbv zeta. pose proof single_not_none as Hx. unfold old_outs, SerializeOutput. destruct (fHashSingle h) eqn:Es; [rewrite (Hx eq_refl)|]; cbn [andb].
  - specialize (Hout eq_refl). apply lookup_lt_is_Some_2 in Hout as [o Ho].
    assert (Ed : drop nIn (take (S nIn) (vout tx)) = [o]) by (rewrite (take_S_r _ _ _ Ho), drop_app_ge, length_take; [|rewrite length_take; lia]; apply lookup_lt_Some in Ho; by replace (nIn - _)%nat with 0%nat by lia).
    rewrite Ed. assert (El : length (repeat CTxOut_SetNull nIn ++ [o]) = S nIn) by (rewrite length_app, repeat_length; cbn; lia). split; [done|].
    rewrite <- El at 1. apply (mapM_seq _ _ _ 0). intros i y Hy. cbn [Nat.add]. destruct (Nat.eqb_spec i nIn) as [->|Hne]; cbn [negb].
    + rewrite Ho. cbn. rewrite lookup_app_r, repeat_length, Nat.sub_diag in Hy by (by rewrite repeat_length). by injection Hy as <-.
    + apply lookup_app_Some in Hy as [Hy|[Hl Hy]].
      * do 2 f_equal. apply list_elem_of_lookup_2, list_elem_of_In, repeat_spec in Hy. done.
      * rewrite repeat_length in *. destruct (i - nIn)%nat as [|m] eqn:Em; [lia|]. done.
  - destruct (fHashNone h); [done|]. split; [done|]. apply (mapM_seq _ _ _ 0). intros i y Hy. cbn [Nat.add]. by rewrite Hy.
Qed.

Lemma SerializeForSignature_old :
  SerializeForSignature tx code nIn h = Some (SerializeTransaction false (mkTx old_ins old_outs (tx_version tx) (nLockTime tx))).
Proof.
  unfold SerializeForSignature. cbv zeta. rewrite SerializeInputs_old. destruct SerializeOutputs_old as [El Eo]. rewrite Eo, <- El. cbn [mbind option_bind].
  assert (Ei : length old_ins = if fAnyoneCanPay h then 1%nat else length (vin tx)).
  { rewrite old_ins_imap. destruct (fAnyoneCanPay h); [rewrite length_take, length_drop|]; rewrite length_imap; lia. }
  rewrite <- Ei. unfold SerializeTransaction. cbn [andb vin vout tx_version nLockTime Z.eqb Z.land app ser fmt_vin fmt_vout fmt_vector]. by rewrite <- !app_assoc.
Qed.
End Serializer.

(** C19: the signature hash of scripts that are not witness scripts is the one of the function it replaced. For every transaction, every input of it, every hash
    type and every script code that parses to its end, the serializer that writes the changed transaction in place gives, with or without
    precomputed data, the hash that [SignatureHashOld] of the tests computes from a changed copy. *)
Theorem SignatureHash_old (code : CScript) (tx : CTransaction) (nIn : nat) (nHashType amount : Z) (data : option PrecomputedTransactionData) :
  parses (length code) code = true -> (nIn < length (vin tx))%nat ->
  fst <$> SignatureHash code tx nIn nHashType amount BASE data None = SignatureHashOld code tx nIn nHashType.
Proof.
  intros Hcode Hn. apply parses_parsed in Hcode as [ops Hops]. unfold SignatureHash, SignatureHashOld. destruct (Nat.leb_spec (length (vin tx)) nIn); [lia|].
  destruct (FindAndDelete_parsed code ops Hops) as [k ->]. cbn [mbind option_bind]. cbv zeta. change (negb (bool_decide (BASE = WITNESS_V0))) with true. cbn [andb].
  pose proof (single_not_none nHashType) as Hx.
  pose proof (SerializeForSignature_old code ops Hops tx nIn nHashType Hn) as HS.
  fold (fHashNone nHashType) (fHashSingle nHashType) (fAnyoneCanPay nHashType).
  unfold old_ins, old_outs in HS. cbv zeta in HS. destruct (fHashSingle nHashType) eqn:Es; [rewrite (Hx eq_refl) in *|]; cbn [andb orb] in *.
  - destruct (Nat.leb_spec (length (vout tx)) nIn); [done|]. unfold signature_pieces. change (bool_decide (BASE = WITNESS_V0)) with false. cbv iota.
    rewrite HS by done. reflexivity.
  - unfold signature_pieces. change (bool_decide (BASE = WITNESS_V0)) with false. cbv iota. rewrite HS by done. by destruct (fHashNone nHashType).
Qed.

(** A script with a separator, and a transaction with two inputs. *)
Lemma SignatureHash_old_witness :
  let tx := mkTx [mkTxIn (mkOutPoint 1 0) [] 7 []; mkTxIn (mkOutPoint 2 1) [OP_1] 8 []] [mkTxOut 10 [OP_1]] 1 0 in
  fst <$> SignatureHash [OP_DUP; OP_CODESEPARATOR; 2; OP_CODESEPARATOR; 9; OP_CHECKSIG] tx 0 SIGHASH_SINGLE 0 BASE None None =
  SignatureHashOld [OP_DUP; OP_CODESEPARATOR; 2; OP_CODESEPARATOR; 9; OP_CHECKSIG] tx 0 SIGHASH_SINGLE.
Proof. intros tx. apply (SignatureHash_old [OP_DUP; OP_CODESEPARATOR; 2; OP_CODESEPARATOR; 9; OP_CHECKSIG] tx 0 SIGHASH_SINGLE 0 None); [reflexivity|cbn; lia]. Defined.
