(* ===== verification/VerifyScriptProps.v ===== *)
(** * Theorems about script verification

    The verification flags are soft forks, and the verification of a spend always ends with an answer. *)

From Stdlib Require Import ZifyNat.
From S2P Require Import Prelude Serialize ArithUint256 Chain Params Transaction Script TxVerify Sha256 Sha256Spec Hash Hash160.
From S2P Require Import Interpreter Sighash VerifyScript InterpreterSpec InterpreterSafe SighashSpec.
#[local] Open Scope Z_scope.

(** What [VerifyScript] asserts of its flags. *)
Definition flags_ok (flags : Z) : Prop :=
  (has_flag flags SCRIPT_VERIFY_CLEANSTACK = true -> has_flag flags SCRIPT_VERIFY_WITNESS = true) /\
  (has_flag flags SCRIPT_VERIFY_WITNESS = true -> has_flag flags SCRIPT_VERIFY_P2SH = true).

Section SoftFork.
Context (f2 f1 : Z) (Hflags : Z.land f1 f2 = f1).
Context (CheckLowS : list Z -> bool) (CheckTapTweak : list Z -> list Z -> uint256 -> bool -> bool) {C : Type} {HC : BaseSignatureChecker C}.

(** With [SCRIPT_VERIFY_WITNESS] both runs leave the same stack and the same [hadWitness]. *)
Definition same_outcome (x2 x1 : list valtype * bool * C) : Prop := has_flag f1 SCRIPT_VERIFY_WITNESS = true -> x1.1 = x2.1.

Lemma verify_program_outcome (script : CScript) (malleated : bool) (e : ScriptError) (witness stack : list valtype) (is_p2sh had : bool) (c : C)
    (x2 : list valtype * bool * C) :
  verify_program CheckLowS CheckTapTweak script malleated e witness f2 is_p2sh stack had c = Ret x2 ->
  exists x1, verify_program CheckLowS CheckTapTweak script malleated e witness f1 is_p2sh stack had c = Ret x1 /\ same_outcome x2 x1.
Proof.
  intros H. destruct (has_flag f1 SCRIPT_VERIFY_WITNESS) eqn:E.
  - destruct x2 as [[s' h'] c2]. destruct (verify_program_mono _ _ Hflags _ _ _ _ _ _ _ _ _ _ _ _ _ E H) as [c1 H1]. by exists (s', h', c1).
  - exists (stack, had, c). unfold verify_program, same_outcome. rewrite E. done.
Qed.

Lemma verify_p2sh_outcome (scriptSig : CScript) (witness stack : list valtype) (had : bool) (c : C) (x2 : list valtype * bool * C) :
  verify_p2sh CheckLowS CheckTapTweak scriptSig witness stack f2 had c = Ret x2 ->
  exists x1, verify_p2sh CheckLowS CheckTapTweak scriptSig witness stack f1 had c = Ret x1 /\ same_outcome x2 x1.
Proof.
  unfold verify_p2sh. destruct (IsPushOnly scriptSig) as [[]|]; cbn; try done. destruct stack as [|k s]; cbn; [done|].
  intros H. apply bind_Ret in H as [[s' c'] [HE H]]. rewrite (EvalScript'_mono _ _ Hflags _ _ _ _ _ _ HE). cbn.
  apply bind_Ret in H as [[] [-> H]]. cbn. by apply verify_program_outcome.
Qed.

Lemma final_checks_mono (witness : list valtype) (x2 x1 : list valtype * bool * C) :
  flags_ok f1 -> same_outcome x2 x1 -> accepting (final_checks witness x2.1.1 f2 x2.1.2 x2.2) -> accepting (final_checks witness x1.1.1 f1 x1.1.2 x1.2).
Proof.
  intros [Hcw Hwp] Hsame [c Hc]. exists x1.2. revert Hc. unfold final_checks.
  destruct (has_flag f1 SCRIPT_VERIFY_WITNESS) eqn:Hw.
  - rewrite (Hsame Hw), (Hwp eq_refl), (has_flag_mono _ _ Hflags _ Hw), (has_flag_mono _ _ Hflags _ (Hwp eq_refl)).
    destruct (has_flag f1 SCRIPT_VERIFY_CLEANSTACK) eqn:Hcl; [rewrite (has_flag_mono _ _ Hflags _ Hcl)|destruct (has_flag f2 SCRIPT_VERIFY_CLEANSTACK)];
      cbn; repeat case_match; by try discriminate.
  - destruct (has_flag f1 SCRIPT_VERIFY_CLEANSTACK); [discriminate (Hcw eq_refl)|done].
Qed.
End SoftFork.

(** C12: the script verification flags are soft forks, as interpreter.h says of them: whatever [VerifyScript] accepts under a set of flags it also
    accepts under a subset of them, for every checker and every behaviour of libsecp256k1, provided that the subset respects what the code asserts
    ([CLEANSTACK] only with [WITNESS], [WITNESS] only with [P2SH]). *)
Theorem VerifyScript_softfork (f2 f1 : Z) (CheckLowS : list Z -> bool) (CheckTapTweak : list Z -> list Z -> uint256 -> bool -> bool)
    {C : Type} {HC : BaseSignatureChecker C} (scriptSig scriptPubKey : CScript) (witness : list valtype) (c : C) :
  Z.land f1 f2 = f1 -> flags_ok f1 ->
  accepting (VerifyScript CheckLowS CheckTapTweak scriptSig scriptPubKey witness f2 c) ->
  accepting (VerifyScript CheckLowS CheckTapTweak scriptSig scriptPubKey witness f1 c).
Proof.
  intros Hflags Hok [c2 H]. unfold VerifyScript in *. apply bind_Ret in H as [po [-> H]]. cbn.
  destruct (has_flag f2 SCRIPT_VERIFY_SIGPUSHONLY && negb po) eqn:Epo; [discriminate H|].
  replace (has_flag f1 SCRIPT_VERIFY_SIGPUSHONLY && negb po) with false.
  2:{ destruct (has_flag f1 SCRIPT_VERIFY_SIGPUSHONLY) eqn:E; [by rewrite (has_flag_mono _ _ Hflags _ E) in Epo|done]. }
  apply bind_Ret in H as [[s c'] [HE H]]. rewrite (EvalScript'_mono _ _ Hflags _ _ _ _ _ _ HE). cbn [mbind result_bind].
  apply bind_Ret in H as [[s' c''] [HE' H]]. rewrite (EvalScript'_mono _ _ Hflags _ _ _ _ _ _ HE'). cbn [mbind result_bind].
  apply bind_Ret in H as [[] [-> H]]. cbn [mbind result_bind].
  apply bind_Ret in H as [x2 [Hx2 H]]. destruct (verify_program_outcome _ _ Hflags _ _ _ _ _ _ _ _ _ _ _ Hx2) as [x1 [Hx1 Hsame]].
  rewrite Hx1. cbn [mbind result_bind]. destruct (IsPayToScriptHash scriptPubKey) eqn:Ep.
  - unfold verify_program in Hx1, Hx2. rewrite (p2sh_not_witness _ Ep) in Hx1, Hx2.
    assert (x1 = (s', false, c'')) as -> by (destruct (has_flag f1 SCRIPT_VERIFY_WITNESS); by injection Hx1).
    assert (x2 = (s', false, c'')) as -> by (destruct (has_flag f2 SCRIPT_VERIFY_WITNESS); by injection Hx2).
    clear Hx1 Hx2. apply bind_Ret in H as [x2 [Hx2 H]]. rewrite andb_true_r in Hx2 |- *. destruct (has_flag f1 SCRIPT_VERIFY_P2SH) eqn:E1.
    + rewrite (has_flag_mono _ _ Hflags _ E1) in Hx2. apply (verify_p2sh_outcome _ _ Hflags) in Hx2 as [x1 [-> Hs]].
      cbn [mbind result_bind]. destruct x1 as [[a1 h1] d1], x2 as [[a2 h2] d2]. refine (final_checks_mono _ _ Hflags _ _ (a1, h1, d1) Hok Hs _). by exists c2.
    + cbn [mbind result_bind]. destruct x2 as [[a2 h2] d2]. refine (final_checks_mono _ _ Hflags _ (a2, h2, d2) (s', false, c'') Hok _ _); [|by exists c2].
      intros Hw. by rewrite (proj2 Hok Hw) in E1.
  - rewrite andb_false_r in H |- *. cbn [mbind result_bind] in H |- *. destruct x1 as [[a1 h1] d1], x2 as [[a2 h2] d2].
    refine (final_checks_mono _ _ Hflags _ _ (a1, h1, d1) Hok Hsame _). by exists c2.
Qed.

(** A pay-to-script-hash output whose redeem script is [OP_1], spent under more and under fewer flags. *)
Definition p2sh_of (redeem : CScript) : CScript := OP_HASH160 :: 20 :: hash_vch OP_HASH160 redeem ++ [OP_EQUAL].

Lemma VerifyScript_softfork_witness :
  VerifyScript (fun _ => true) (fun _ _ _ _ => true) [1; OP_1] (p2sh_of [OP_1]) [] (2 ^ 21 - 1) tt = Ret tt /\
  accepting (VerifyScript (fun _ => true) (fun _ _ _ _ => true) [1; OP_1] (p2sh_of [OP_1]) [] SCRIPT_VERIFY_P2SH tt).
Proof.
  assert (H : VerifyScript (fun _ => true) (fun _ _ _ _ => true) [1; OP_1] (p2sh_of [OP_1]) [] (2 ^ 21 - 1) tt = Ret tt) by (vm_compute; reflexivity).
  assert (Hok : flags_ok SCRIPT_VERIFY_P2SH) by (split; intros E; vm_compute in E; discriminate E). split; [exact H|].
  exact (VerifyScript_softfork (2 ^ 21 - 1) SCRIPT_VERIFY_P2SH (fun _ => true) (fun _ _ _ _ => true) [1; OP_1] (p2sh_of [OP_1]) [] tt eq_refl Hok
    (ex_intro _ tt H)).
Defined.

(** C13: the verification of a spend never fails an assertion. For every well-formed transaction, every input of it with the output that it spends, and the
    data that [PrecomputedTransactionData::Init] makes of them, [VerifyScript] with the checker that asserts on missing data accepts or sets a script error,
    under all flags that [VerifyScript] allows and for every behaviour of libsecp256k1: what Taproot signatures need is there whenever they are reached. *)
Theorem VerifyScript_total {HS : SignatureVerifier} (CheckLowS : list Z -> bool) (CheckTapTweak : list Z -> list Z -> uint256 -> bool -> bool)
    (tx : CTransaction) (spent : list CTxOut) (txdata : PrecomputedTransactionData) (nIn : nat) (i : CTxIn) (o : CTxOut) (flags : Z) :
  tx_ok tx -> Forall txout_ok spent -> PrecomputedTransactionData_Init tx spent false = Some txdata ->
  vin tx !! nIn = Some i -> spent !! nIn = Some o -> 0 <= nValue o -> flags_ok flags ->
  decided (fun _ => True)
    (VerifyScript CheckLowS CheckTapTweak (scriptSig i) (scriptPubKey o) (scriptWitness i) flags
       (mkChecker tx ASSERT_FAIL nIn (nValue o) (Some txdata) SigHashCache_new)).
Proof.
  intros Htx Hspent Hinit Hi Ho Hval [Hcl Hwp]. destruct (proj1 (Forall_lookup _ _) Hspent nIn o Ho) as [_ [_ Hpub]].
  destruct (proj1 (Forall_lookup _ _) (proj2 (tk_vin _ Htx)) nIn i Hi) as (_ & [_ Hsig] & _).
  pose proof (proj1 (Forall_lookup _ _) (tk_witness _ Htx) nIn i Hi) as Hw.
  set (needs sv := match sv with BASE | WITNESS_V0 => True | _ => taproot_data tx txdata end).
  pose proof (VerifyScript_decided (C := TransactionSignatureChecker) CheckLowS CheckTapTweak needs (scriptWitness i) (elements_of_witness _ Hw)) as H.
  pose proof (length_ser_stack _ Hw) as Hsz. unfold MAX_SIZE in Hsz.
  specialize (H ltac:(unfold VALIDATION_WEIGHT_OFFSET; lia) I I (scriptSig i) (scriptPubKey o) flags
    (mkChecker tx ASSERT_FAIL nIn (nValue o) (Some txdata) SigHashCache_new) Hsig Hpub).
  assert (Hready : all_ready needs (mkChecker tx ASSERT_FAIL nIn (nValue o) (Some txdata) SigHashCache_new)).
  { intros sv Hsv. split; [by eapply lookup_lt_Some|]. destruct sv; try done; by exists txdata. }
  assert (Hneeds : taproot_needs needs (scriptWitness i) (scriptPubKey o)).
  { intros program Hp Hl Hne. destruct (taproot_pattern _ _ Hp Hl) as [Hl' H1].
    pose proof (Init_taproot tx spent false txdata nIn i o Hinit Hi Ho Hne Hl' H1). done. }
  specialize (H Hneeds Hcl Hwp Hready). by destruct (VerifyScript _ _ _ _ _ _ _) as [|[]| |].
Qed.

Lemma bytes_by (l : list Z) : (Z.of_nat (length l) <=? MAX_SIZE) && forallb (fun b => (0 <=? b) && (b <? 256)) l = true -> bytes_ok l.
Proof.
  intros [Hl H]%andb_true_iff. apply Z.leb_le in Hl. split; [done|]. apply Forall_forall. intros b Hb. apply list_elem_of_In in Hb.
  rewrite forallb_forall in H. specialize (H b Hb). unfold is_u8. lia.
Qed.

(** A transaction that spends a Taproot output with a signature, and a verifier that accepts it. *)
Definition taproot_in : CTxIn := mkTxIn (mkOutPoint 5 0) [] 0xffffffff [repeat 7 64].
Definition taproot_tx : CTransaction := mkTx [taproot_in] [mkTxOut 10 [OP_1]] 2 0.
Definition taproot_out : CTxOut := mkTxOut 20 (OP_1 :: 32 :: repeat 9 32).
Definition accept_all : SignatureVerifier := {| VerifyECDSASignature _ _ _ := true; VerifySchnorrSignature _ _ _ := true |}.

Lemma VerifyScript_total_witness :
  exists txdata, PrecomputedTransactionData_Init taproot_tx [taproot_out] false = Some txdata /\
    decided (fun _ => True) (VerifyScript (HC := transaction_checker (HS := accept_all)) (fun _ => true) (fun _ _ _ _ => true)
      (scriptSig taproot_in) (scriptPubKey taproot_out) (scriptWitness taproot_in) (2 ^ 21 - 1)
      (mkChecker taproot_tx ASSERT_FAIL 0 (nValue taproot_out) (Some txdata) SigHashCache_new)).
Proof.
  destruct (Init_defined taproot_tx [taproot_out] false eq_refl) as [d E]. exists d. split; [exact E|].
  assert (Hspent : Forall txout_ok [taproot_out]) by (apply Forall_singleton; split; [split; cbn; lia|by apply bytes_by]).
  assert (Htx : tx_ok taproot_tx).
  { constructor; cbn; try (split; lia).
    - split; [cbn; unfold MAX_SIZE; lia|]. apply Forall_singleton. split; [|split; [by apply bytes_by|split; cbn; lia]]. split; split; cbn; lia.
    - apply Forall_singleton. split; [cbn; unfold MAX_SIZE; lia|]. apply Forall_singleton. by apply bytes_by.
    - split; [cbn; unfold MAX_SIZE; lia|]. apply Forall_singleton. split; [split; cbn; lia|by apply bytes_by].
    - discriminate. }
  assert (Hflags : flags_ok (2 ^ 21 - 1)) by (split; reflexivity).
  exact (VerifyScript_total (HS := accept_all) (fun _ => true) (fun _ _ _ _ => true) taproot_tx [taproot_out] d 0 taproot_in taproot_out (2 ^ 21 - 1)
    Htx Hspent E eq_refl eq_refl ltac:(discriminate) Hflags).
Defined.
