(* ===== verification/Spending.v ===== *)
(** * Who can spend an output

    Runs of the interpreter on the scripts of a pay-to-witness-public-key-hash output, followed symbolically, and the conditions under which
    [VerifyScript] accepts a spend of it. *)

From Stdlib Require Import ZifyNat.
From S2P Require Import Prelude Serialize ArithUint256 Chain Params Transaction Script TxVerify Sha256 Sha256Spec Hash Hash160.
From S2P Require Import Interpreter Sighash VerifyScript InterpreterSpec InterpreterSafe SighashSpec SighashCache.
#[local] Open Scope Z_scope.

Section P2WPKH.
Context (CheckLowS : list Z -> bool) (CheckTapTweak : list Z -> list Z -> uint256 -> bool -> bool) {C : Type} {HC : BaseSignatureChecker C} (flags : Z).

(** One round on a direct push. *)
Lemma step_push (sv : SigVersion) (data rest : list Z) (s : list valtype) (n p : Z) (code : CScript) (d : ScriptExecutionData) (c : C) :
  length data = 20%nat -> Z.of_nat (length s) < MAX_STACK_SIZE ->
  eval_step CheckLowS flags sv (20 :: data ++ rest) (mkEval s [] cond_new n code p d c) = Ret (rest, mkEval (data :: s) [] cond_new n code (u32 (p + 1)) d c).
Proof.
  intros Hl Hs. unfold eval_step. rewrite (GetScriptOp_direct 20 data rest) by (by rewrite ?Hl). cbn [op_ok op_code op_data op_rest negb].
  change (all_true (vfExec (mkEval s [] cond_new n code p d c))) with true. change (20 >? OP_16) with false. rewrite andb_false_r. cbn [andb].
  change (is_one_of 20 disabled_opcodes) with false. change (20 =? OP_CODESEPARATOR) with false. change (0 <=? 20) with true. change (20 <=? OP_PUSHDATA4) with true.
  replace (Z.of_nat (length data) >? MAX_SCRIPT_ELEMENT_SIZE) with false by (by rewrite Hl).
  replace (CheckMinimalPush data 20) with true by (unfold CheckMinimalPush; rewrite Hl; reflexivity). cbn [negb]. rewrite andb_false_r. cbn [andb mbind result_bind].
  cbn [stack altstack set_stack length]. rewrite Z.gtb_ltb. by destruct (Z.ltb_spec MAX_STACK_SIZE (Z.of_nat (S (length s) + 0))); [lia|].
Qed.

Lemma step_dup (sig key : valtype) (rest code : CScript) (d : ScriptExecutionData) (c : C) :
  eval_step CheckLowS flags WITNESS_V0 (OP_DUP :: rest) (mkEval [key; sig] [] cond_new 0 code 0 d c) = Ret (rest, mkEval [key; key; sig] [] cond_new 1 code 1 d c).
Proof. reflexivity. Qed.

Lemma step_hash160 (sig key : valtype) (rest code : CScript) (d : ScriptExecutionData) (c : C) :
  eval_step CheckLowS flags WITNESS_V0 (OP_HASH160 :: rest) (mkEval [key; key; sig] [] cond_new 1 code 1 d c) =
  Ret (rest, mkEval [hash_vch OP_HASH160 key; key; sig] [] cond_new 2 code 2 d c).
Proof. reflexivity. Qed.

Lemma step_equalverify (sig key x y : valtype) (rest code : CScript) (d : ScriptExecutionData) (c : C) :
  eval_step CheckLowS flags WITNESS_V0 (OP_EQUALVERIFY :: rest) (mkEval [x; y; key; sig] [] cond_new 2 code 3 d c) =
  if bool_decide (y = x) then Ret (rest, mkEval [key; sig] [] cond_new 3 code 4 d c) else set_error SCRIPT_ERR_EQUALVERIFY.
Proof.
  transitivity (st ← (s ← equal_op OP_EQUALVERIFY [x; y; key; sig]; Ret (mkEval s [] cond_new 3 code 3 d c));
    if Z.of_nat (length (stack st) + length (altstack st)) >? MAX_STACK_SIZE then set_error SCRIPT_ERR_STACK_SIZE
    else Ret (rest, set_opcode_pos st (u32 (opcode_pos st + 1)))); [reflexivity|]. cbn -[Z.gtb]. by destruct (bool_decide (y = x)).
Qed.

(** What [OP_CHECKSIG] asks of a signature of a version 0 program. *)
Definition checksig_v0 (sig key : valtype) (code : CScript) (c : C) : result (bool * C) :=
  _ ← CheckSignatureEncoding CheckLowS sig flags;
  _ ← CheckPubKeyEncoding key flags WITNESS_V0;
  '(fSuccess, c) ← CheckECDSASignature c sig key code WITNESS_V0;
  if negb fSuccess && has_flag flags SCRIPT_VERIFY_NULLFAIL && negb (length sig =? 0)%nat then set_error SCRIPT_ERR_SIG_NULLFAIL else Ret (fSuccess, c).

Lemma step_checksig (sig key : valtype) (code : CScript) (d : ScriptExecutionData) (c : C) :
  eval_step CheckLowS flags WITNESS_V0 [OP_CHECKSIG] (mkEval [key; sig] [] cond_new 3 code 4 d c) =
  '(b, c) ← checksig_v0 sig key code c; Ret ([], mkEval [bool_vch b] [] cond_new 4 code 5 d c).
Proof.
  transitivity (st ← checksig_op CheckLowS OP_CHECKSIG flags WITNESS_V0 (mkEval [key; sig] [] cond_new 4 code 4 d c);
    if Z.of_nat (length (stack st) + length (altstack st)) >? MAX_STACK_SIZE then set_error SCRIPT_ERR_STACK_SIZE
    else Ret ([] : CScript, set_opcode_pos st (u32 (opcode_pos st + 1)))); [reflexivity|].
  unfold checksig_op. cbn [need stack length Nat.ltb Nat.leb stacktop lookup list_lookup Nat.sub mbind result_bind EvalChecksig pbegincodehash execdata checker].
  unfold EvalChecksigPreTapscript, checksig_v0. change (bool_decide (WITNESS_V0 = BASE) || bool_decide (WITNESS_V0 = WITNESS_V0)) with true.
  unfold drop_signature. change (bool_decide (WITNESS_V0 = BASE)) with false. cbn [assert_that mbind result_bind].
  destruct (CheckSignatureEncoding _ _ _) as [[]| | |]; cbn [mbind result_bind]; try done. destruct (CheckPubKeyEncoding _ _ _) as [[]| | |]; cbn [mbind result_bind]; try done.
  destruct (CheckECDSASignature _ _ _ _ _) as [[b c']| | |]; cbn [mbind result_bind]; try done. by destruct (_ && _ && _).
Qed.

(** A round of the loop. *)
Lemma loop_step (fuel : nat) (sv : SigVersion) (o : Z) (pc pc' : CScript) (st st' : eval_state (C := C)) :
  eval_step CheckLowS flags sv (o :: pc) st = Ret (pc', st') -> eval_loop CheckLowS (S fuel) flags sv (o :: pc) st = eval_loop CheckLowS fuel flags sv pc' st'.
Proof. intros E. cbn [eval_loop]. by rewrite E. Qed.

Lemma loop_last (fuel : nat) (sv : SigVersion) (o : Z) (pc : CScript) (st : eval_state (C := C)) :
  eval_loop CheckLowS (S fuel) flags sv (o :: pc) st = '(pc, st) ← eval_step CheckLowS flags sv (o :: pc) st; eval_loop CheckLowS fuel flags sv pc st.
Proof. reflexivity. Qed.

(** What [EvalScript] makes of its loop. *)
Definition eval_end (m : result (eval_state (C := C))) : result (list valtype * ScriptExecutionData * C) :=
  st ← with_serror SCRIPT_ERR_UNKNOWN_ERROR (catch_all m);
  if negb (cond_empty (vfExec st)) then set_error SCRIPT_ERR_UNBALANCED_CONDITIONAL else Ret (stack st, execdata st, checker st).

Lemma EvalScript_loop (s : list valtype) (script : CScript) (sv : SigVersion) (d : ScriptExecutionData) (c : C) :
  sv <> TAPROOT -> Z.of_nat (length script) <= MAX_SCRIPT_SIZE ->
  EvalScript CheckLowS s script flags sv d c =
  eval_end (eval_loop CheckLowS (length script) flags sv script (mkEval s [] cond_new 0 script 0 (set_codeseparator d 0xFFFFFFFF) c)).
Proof.
  intros Hsv Hl. unfold EvalScript. rewrite bool_decide_false by done. cbn [negb assert_that mbind result_bind]. rewrite Z.gtb_ltb.
  destruct (Z.ltb_spec MAX_SCRIPT_SIZE (Z.of_nat (length script))); [lia|]. by rewrite andb_false_r.
Qed.

(** The script of a version 0 program of 20 bytes, run on a signature and a key. *)
Lemma loop_p2wpkh (h code : list Z) (sig key : valtype) (d : ScriptExecutionData) (c : C) :
  length h = 20%nat ->
  eval_loop CheckLowS 25 flags WITNESS_V0 (OP_DUP :: OP_HASH160 :: 20 :: h ++ [OP_EQUALVERIFY; OP_CHECKSIG]) (mkEval [key; sig] [] cond_new 0 code 0 d c) =
  if bool_decide (hash_vch OP_HASH160 key = h) then '(b, c) ← checksig_v0 sig key code c; Ret (mkEval [bool_vch b] [] cond_new 4 code 5 d c)
  else set_error SCRIPT_ERR_EQUALVERIFY.
Proof.
  intros Hl. rewrite (loop_step _ _ _ _ _ _ _ (step_dup sig key _ code d c)), (loop_step _ _ _ _ _ _ _ (step_hash160 sig key _ code d c)).
  generalize (hash_vch OP_HASH160 key). intros x.
  rewrite (loop_step _ _ _ _ _ _ _ (step_push _ h [OP_EQUALVERIFY; OP_CHECKSIG] [x; key; sig] _ _ code d c Hl eq_refl)). change (u32 (2 + 1)) with 3.
  destruct (bool_decide (x = h)) eqn:E.
  - assert (E' : eval_step CheckLowS flags WITNESS_V0 [OP_EQUALVERIFY; OP_CHECKSIG] (mkEval [h; x; key; sig] [] cond_new 2 code 3 d c) =
      Ret ([OP_CHECKSIG], mkEval [key; sig] [] cond_new 3 code 4 d c)) by (by rewrite step_equalverify, E).
    rewrite (loop_step _ _ _ _ _ _ _ E'), loop_last, step_checksig. destruct (checksig_v0 sig key code c) as [[b c']|[]| |]; reflexivity.
  - rewrite loop_last, step_equalverify, E. reflexivity.
Qed.

Lemma eval_p2wpkh (h : list Z) (sig key : valtype) (d : ScriptExecutionData) (c : C) :
  length h = 20%nat ->
  EvalScript CheckLowS [key; sig] (p2wpkh_script h) flags WITNESS_V0 d c =
  eval_end (if bool_decide (hash_vch OP_HASH160 key = h)
    then '(b, c) ← checksig_v0 sig key (p2wpkh_script h) c; Ret (mkEval [bool_vch b] [] cond_new 4 (p2wpkh_script h) 5 (set_codeseparator d 0xFFFFFFFF) c)
    else set_error SCRIPT_ERR_EQUALVERIFY).
Proof.
  intros Hl. assert (Es : p2wpkh_script h = OP_DUP :: OP_HASH160 :: 20 :: h ++ [OP_EQUALVERIFY; OP_CHECKSIG]).
  { unfold p2wpkh_script, push_data. rewrite Hl. reflexivity. }
  assert (E25 : length (p2wpkh_script h) = 25%nat) by (rewrite Es; cbn [length]; rewrite length_app, Hl; reflexivity).
  rewrite EvalScript_loop by (done || rewrite E25; done). rewrite E25, <- loop_p2wpkh by done. by rewrite Es at 1.
Qed.

(** The pushes of a version 0 program of 20 bytes. *)
Lemma eval_program (h : list Z) (d : ScriptExecutionData) (c : C) :
  length h = 20%nat -> EvalScript CheckLowS [] (OP_0 :: 20 :: h) flags BASE d c = Ret ([h; []], set_codeseparator d 0xFFFFFFFF, c).
Proof.
  intros Hl. assert (E22 : length (OP_0 :: 20 :: h) = 22%nat) by (cbn [length]; by rewrite Hl).
  rewrite EvalScript_loop by (done || rewrite E22; done). rewrite E22. generalize (OP_0 :: 20 :: h) at 2. intros code.
  generalize (set_codeseparator d 0xFFFFFFFF). intros d'.
  assert (E0 : forall rest, eval_step CheckLowS flags BASE (OP_0 :: rest) (mkEval [] [] cond_new 0 code 0 d' c) = Ret (rest, mkEval [[]] [] cond_new 0 code 1 d' c)).
  { intros rest. unfold eval_step. change (OP_0 :: rest) with (0 :: [] ++ rest). rewrite (GetScriptOp_direct 0 [] rest) by done.
    by destruct (has_flag flags SCRIPT_VERIFY_MINIMALDATA). }
  rewrite (loop_step _ _ _ _ _ _ _ (E0 _)). pose proof (step_push BASE h [] [[]] 0 1 code d' c Hl eq_refl) as E1. rewrite app_nil_r in E1.
  rewrite (loop_step _ _ _ _ _ _ _ E1). reflexivity.
Qed.

(** What comes after a witness program that was accepted. *)
Lemma final_checks_program (witness : list valtype) (c : C) :
  has_flag flags SCRIPT_VERIFY_WITNESS = true -> has_flag flags SCRIPT_VERIFY_P2SH = true -> final_checks witness [[]] flags true c = Ret c.
Proof. intros Hw Hp. unfold final_checks. rewrite Hw, Hp. by destruct (has_flag flags SCRIPT_VERIFY_CLEANSTACK). Qed.

Lemma ExecuteWitnessScript_p2wpkh (h : list Z) (sig key : valtype) (c c' : C) :
  length h = 20%nat ->
  with_serror SCRIPT_ERR_OK (ExecuteWitnessScript CheckLowS [sig; key] (p2wpkh_script h) flags WITNESS_V0 no_execdata c) = Ret c' <->
  Z.of_nat (length sig) <= MAX_SCRIPT_ELEMENT_SIZE /\ Z.of_nat (length key) <= MAX_SCRIPT_ELEMENT_SIZE /\
  hash_vch OP_HASH160 key = h /\ checksig_v0 sig key (p2wpkh_script h) c = Ret (true, c').
Proof.
  intros Hl. unfold ExecuteWitnessScript. change (bool_decide (WITNESS_V0 = TAPSCRIPT)) with false. cbn [mbind result_bind andb existsb rev app].
  rewrite orb_false_r, !Z.gtb_ltb, eval_p2wpkh by done. generalize (hash_vch OP_HASH160 key). intros x.
  destruct (Z.ltb_spec MAX_SCRIPT_ELEMENT_SIZE (Z.of_nat (length sig))); [split; [done|lia]|].
  destruct (Z.ltb_spec MAX_SCRIPT_ELEMENT_SIZE (Z.of_nat (length key))); [split; [done|lia]|]. cbn [orb].
  case_bool_decide as Ex; [|split; [done|naive_solver]].
  destruct (checksig_v0 sig key (p2wpkh_script h) c) as [[[] c1]|[]| |]; cbn; (split; [intros H1; try discriminate H1|intros (_ & _ & _ & H1); try discriminate H1]).
  - split_and!; try done. by injection H1 as ->.
  - by injection H1 as ->.
Qed.

(** A spend of a version 0 program of 20 bytes by two witness elements. *)
Lemma VerifyScript_p2wpkh (h : list Z) (sig key : valtype) (c c' : C) :
  length h = 20%nat -> has_flag flags SCRIPT_VERIFY_WITNESS = true -> has_flag flags SCRIPT_VERIFY_P2SH = true ->
  VerifyScript CheckLowS CheckTapTweak [] (OP_0 :: 20 :: h) [sig; key] flags c = Ret c' <->
  CastToBool h = true /\ Z.of_nat (length sig) <= MAX_SCRIPT_ELEMENT_SIZE /\ Z.of_nat (length key) <= MAX_SCRIPT_ELEMENT_SIZE /\
  hash_vch OP_HASH160 key = h /\ checksig_v0 sig key (p2wpkh_script h) c = Ret (true, c').
Proof.
  intros Hl Hw Hp. unfold VerifyScript. change (IsPushOnly []) with (Some true). cbn [of_option mbind result_bind negb]. rewrite andb_false_r.
  change (EvalScript' CheckLowS [] [] flags BASE c) with (Ret ([] : list valtype, c)). cbn [mbind result_bind]. cbv zeta.
  unfold EvalScript'. rewrite eval_program by done. cbn [mbind result_bind check_top].
  destruct (CastToBool h); [|split; [done|by intros []]]. cbn [mbind result_bind]. unfold verify_program. rewrite Hw.
  assert (Ew : IsWitnessProgram (OP_0 :: 20 :: h) = Some (Some (0, h))) by (unfold IsWitnessProgram; cbn [length]; rewrite Hl; reflexivity).
  assert (Es : IsPayToScriptHash (OP_0 :: 20 :: h) = false) by (unfold IsPayToScriptHash; cbn [length]; rewrite Hl; reflexivity).
  rewrite Ew, Es, andb_false_r. cbn [of_option mbind result_bind length Nat.eqb negb]. unfold VerifyWitnessProgram. rewrite Hl.
  cbn [Z.eqb Pos.eqb Z.of_nat Pos.of_succ_nat Pos.succ Nat.eqb WITNESS_V0_SCRIPTHASH_SIZE WITNESS_V0_KEYHASH_SIZE length negb].
  pose proof (ExecuteWitnessScript_p2wpkh h sig key c) as H. destruct (with_serror _ _) as [c1| | |]; cbn [mbind result_bind].
  - change (resize1 [h; []]) with [[] : valtype]. rewrite final_checks_program by done. rewrite <- H by done. naive_solver.
  - split; [done|]. intros (_ & Hr). apply H in Hr; done.
  - split; [done|]. intros (_ & Hr). apply H in Hr; done.
  - split; [done|]. intros (_ & Hr). apply H in Hr; done.
Qed.

(** Everything else in the input script or the witness is refused. *)
Lemma VerifyScript_p2wpkh_shape (h : list Z) (scriptSig : CScript) (witness : list valtype) (c c' : C) :
  length h = 20%nat -> has_flag flags SCRIPT_VERIFY_WITNESS = true ->
  VerifyScript CheckLowS CheckTapTweak scriptSig (OP_0 :: 20 :: h) witness flags c = Ret c' -> scriptSig = [] /\ exists sig key, witness = [sig; key].
Proof.
  intros Hl Hw H. unfold VerifyScript in H. apply bind_Ret in H as [po [_ H]]. destruct (_ && _); [done|]. apply bind_Ret in H as [[s1 c1] [_ H]].
  cbv zeta in H. apply bind_Ret in H as [[s2 c2] [_ H]]. apply bind_Ret in H as [[] [_ H]]. apply bind_Ret in H as [x [H _]].
  assert (Ew : IsWitnessProgram (OP_0 :: 20 :: h) = Some (Some (0, h))) by (unfold IsWitnessProgram; cbn [length]; rewrite Hl; reflexivity).
  unfold verify_program in H. rewrite Hw, Ew in H. cbn [of_option mbind result_bind] in H.
  destruct (length scriptSig =? 0)%nat eqn:E; [|done]. apply Nat.eqb_eq, nil_length_inv in E. split; [done|]. cbn [negb] in H.
  unfold VerifyWitnessProgram in H. rewrite Hl in H. cbn [Z.eqb Pos.eqb Z.of_nat Pos.of_succ_nat Pos.succ Nat.eqb WITNESS_V0_SCRIPTHASH_SIZE WITNESS_V0_KEYHASH_SIZE] in H.
  destruct (length witness =? 2)%nat eqn:E2; [|done]. apply Nat.eqb_eq in E2. destruct witness as [|sig [|key []]]; try done. by exists sig, key.
Qed.

Lemma checksig_v0_true (sig key : valtype) (code : CScript) (c c' : C) :
  checksig_v0 sig key code c = Ret (true, c') <->
  CheckSignatureEncoding CheckLowS sig flags = Ret tt /\ CheckPubKeyEncoding key flags WITNESS_V0 = Ret tt /\
  CheckECDSASignature c sig key code WITNESS_V0 = Ret (true, c').
Proof.
  unfold checksig_v0. destruct (CheckSignatureEncoding _ _ _) as [[]| | |]; cbn [mbind result_bind]; try (by split; [|intros []]).
  destruct (CheckPubKeyEncoding _ _ _) as [[]| | |]; cbn [mbind result_bind]; try (by split; [|intros (_ & H & _)]).
  destruct (CheckECDSASignature _ _ _ _ _) as [[[] c1]| | |]; cbn [mbind result_bind negb andb]; try (by split; [|intros (_ & _ & H)]).
  destruct (_ && _); (split; [done|by intros (_ & _ & H)]).
Qed.

Lemma hash160_reference (key : valtype) : Z.of_nat (length key) <= MAX_SCRIPT_ELEMENT_SIZE -> hash_vch OP_HASH160 key = ripemd160 (sha256 key).
Proof.
  intros Hk. assert (Hn : 8 * Z.of_nat (length (concat [key])) < 2 ^ 64).
  { cbn [concat]. rewrite app_nil_r. unfold MAX_SCRIPT_ELEMENT_SIZE in Hk. lia. }
  pose proof (Writes_hash (repeat 0 64) [key] eq_refl Hn) as [E3 _]. cbn [fold_left concat] in E3. rewrite app_nil_r in E3. fold new_hasher in E3.
  pose proof (CRIPEMD160_hash (repeat 0 64) [sha256 key] eq_refl) as E5. cbn [fold_left concat] in E5. rewrite app_nil_r in E5.
  change (hash_vch OP_HASH160 key) with (CHash160_Finalize (CSHA256_Write new_hasher key) (repeat 0 64)). unfold CHash160_Finalize. rewrite E3. apply E5.
  rewrite (proj1 (sha256_digest key)). lia.
Qed.
End P2WPKH.

(** What the spend of the output locked to the hash [h] has to show: an empty script, and a witness of a signature and a key. *)
Record p2wpkh_spends (CheckLowS : list Z -> bool) {C : Type} {HC : BaseSignatureChecker C} (flags : Z) (h : list Z) (scriptSig : CScript)
    (sig key : valtype) (c c' : C) : Prop := {
  ps_empty : scriptSig = [];
  ps_true : CastToBool h = true;
  ps_sizes : Z.of_nat (length sig) <= MAX_SCRIPT_ELEMENT_SIZE /\ Z.of_nat (length key) <= MAX_SCRIPT_ELEMENT_SIZE;
  ps_hash : ripemd160 (sha256 key) = h;
  ps_encodings : CheckSignatureEncoding CheckLowS sig flags = Ret tt /\ CheckPubKeyEncoding key flags WITNESS_V0 = Ret tt;
  ps_signed : CheckECDSASignature c sig key (p2wpkh_script h) WITNESS_V0 = Ret (true, c')
}.

Lemma VerifyScript_p2wpkh_only (CheckLowS : list Z -> bool) (CheckTapTweak : list Z -> list Z -> uint256 -> bool -> bool) {C : Type} {HC : BaseSignatureChecker C}
    (flags : Z) (h : list Z) (scriptSig : CScript) (witness : list valtype) (c c' : C) :
  length h = 20%nat -> has_flag flags SCRIPT_VERIFY_WITNESS = true -> has_flag flags SCRIPT_VERIFY_P2SH = true ->
  VerifyScript CheckLowS CheckTapTweak scriptSig (OP_0 :: 20 :: h) witness flags c = Ret c' ->
  exists sig key, witness = [sig; key] /\ p2wpkh_spends CheckLowS flags h scriptSig sig key c c'.
Proof.
  intros Hl Hw Hp H. destruct (VerifyScript_p2wpkh_shape _ _ _ _ _ _ _ _ Hl Hw H) as [-> (sig & key & ->)]. exists sig, key. split; [done|].
  apply VerifyScript_p2wpkh in H as (Hb & Hs & Hk & Hh & Hc); try done. apply checksig_v0_true in Hc as (? & ? & ?).
  rewrite hash160_reference in Hh by done. by constructor.
Qed.

(** C18: who can spend a pay-to-witness-public-key-hash output. [VerifyScript] accepts exactly when the input script is empty and the witness is a signature and
    a public key such that the key hashes to the program under RIPEMD-160 of SHA-256, both have the encodings that the flags demand, and the
    checker finds the signature valid for the implied script; no element is longer than 520 bytes, and a program that counts as false is unspendable. *)
Theorem p2wpkh_spend (CheckLowS : list Z -> bool) (CheckTapTweak : list Z -> list Z -> uint256 -> bool -> bool) {C : Type} {HC : BaseSignatureChecker C}
    (flags : Z) (h : list Z) (scriptSig : CScript) (witness : list valtype) (c c' : C) :
  length h = 20%nat -> has_flag flags SCRIPT_VERIFY_WITNESS = true -> has_flag flags SCRIPT_VERIFY_P2SH = true ->
  VerifyScript CheckLowS CheckTapTweak scriptSig (OP_0 :: 20 :: h) witness flags c = Ret c' <->
  exists sig key, witness = [sig; key] /\ p2wpkh_spends CheckLowS flags h scriptSig sig key c c'.
Proof.
  intros Hl Hw Hp. split; [by apply VerifyScript_p2wpkh_only|]. intros (sig & key & -> & [-> Hb [Hs Hk] Hh [Henc1 Henc2] Hok]).
  apply VerifyScript_p2wpkh; try done. split_and!; try done; [by rewrite hash160_reference|by apply checksig_v0_true].
Qed.

(** A checker that knows one signature of one key. *)
Lemma p2wpkh_spend_witness :
  exists c', VerifyScript (HC := toy_checker) (fun _ => true) (fun _ _ _ _ => true) [] (OP_0 :: 20 :: ripemd160 (sha256 [5])) [[5]; [5]]
    (Z.lor SCRIPT_VERIFY_P2SH SCRIPT_VERIFY_WITNESS) tt = Ret c'.
Proof.
  exists tt. apply (p2wpkh_spend (HC := toy_checker) (fun _ => true) (fun _ _ _ _ => true) (Z.lor SCRIPT_VERIFY_P2SH SCRIPT_VERIFY_WITNESS)).
  - exact (proj1 (ripemd160_digest (sha256 [5]))).
  - reflexivity.
  - reflexivity.
  - exists [5], [5]. split; [reflexivity|]. constructor; [reflexivity|vm_compute; reflexivity|split; discriminate|reflexivity|split; reflexivity|reflexivity].
Defined.
