(* ===== verification/CuckooCache.v ===== *)
(** * The cuckoo cache: cuckoocache.h, util/fastrange.h

    A set with eight places for every element, in which old elements are erased lazily: the bit-packed flags of the slots that may be overwritten, the
    two epochs of insertions, insertion with a bounded chain of displacements, and lookup. [None] is an access out of range. The element type and its
    eight hash functions are arguments, and so is [std::log2] on [float], whose rounding the language leaves open. *)

From S2P Require Import Prelude.
#[local] Open Scope Z_scope.

(** ** Garbage collection flags *)

(** [bit_packed_atomic_flags]: bytes, all ones at first; the size is rounded up in 32 bits. *)
Definition flags_new (size : Z) : list Z := replicate (Z.to_nat (u32 (size + 7) / 8)) 0xFF.

Definition bit_set (mem : list Z) (s : Z) : option (list Z) :=
  b ← mem !! Z.to_nat (Z.shiftr s 3);
  Some (<[Z.to_nat (Z.shiftr s 3) := Z.lor b (u8 (Z.shiftl 1 (Z.land s 7)))]> mem).

Definition bit_unset (mem : list Z) (s : Z) : option (list Z) :=
  b ← mem !! Z.to_nat (Z.shiftr s 3);
  Some (<[Z.to_nat (Z.shiftr s 3) := Z.land b (u8 (Z.lnot (Z.shiftl 1 (Z.land s 7))))]> mem).

Definition bit_is_set (mem : list Z) (s : Z) : option bool :=
  b ← mem !! Z.to_nat (Z.shiftr s 3);
  Some (negb (Z.land (Z.shiftl 1 (Z.land s 7)) b =? 0)).

(** [FastRange32] *)
Definition FastRange32 (x n : Z) : Z := u32 (Z.shiftr (u64 (x * n)) 32).

(** ** The cache *)

Module Cuckoo.

Section Cuckoo.
Context {E : Type} {Eeq : EqDecision E} (Element : E) (hash_function : nat -> E -> Z) (log2f : Z -> Z) (sizeof_Element : Z).

(** [cache]; [Element] is the value that a fresh slot holds. *)
Record cuckoo := mkCuckoo {
  table : list E;
  size : Z;
  collection_flags : list Z;
  epoch_flags : list bool;
  epoch_heuristic_counter : Z;
  epoch_size : Z;
  depth_limit : Z
}.

Definition cuckoo_new : cuckoo := mkCuckoo [] 0 (flags_new 0) [] 0 0 0.

Definition set_slots (c : cuckoo) (t : list E) (flags : list Z) (epochs : list bool) : cuckoo :=
  mkCuckoo t (size c) flags epochs (epoch_heuristic_counter c) (epoch_size c) (depth_limit c).
Definition set_counter (c : cuckoo) (n : Z) : cuckoo :=
  mkCuckoo (table c) (size c) (collection_flags c) (epoch_flags c) n (epoch_size c) (depth_limit c).

Definition compute_hashes (c : cuckoo) (e : E) : list Z := map (fun i => FastRange32 (hash_function i e) (size c)) (seq 0 8).

Definition invalid : Z := 2 ^ 32 - 1.

Definition allow_erase (c : cuckoo) (n : Z) : option cuckoo :=
  flags ← bit_set (collection_flags c) n; Some (set_slots c (table c) flags (epoch_flags c)).
Definition please_keep (c : cuckoo) (n : Z) : option cuckoo :=
  flags ← bit_unset (collection_flags c) n; Some (set_slots c (table c) flags (epoch_flags c)).
Definition set_epoch (c : cuckoo) (n : Z) (b : bool) : option cuckoo :=
  _ ← epoch_flags c !! Z.to_nat n; Some (set_slots c (table c) (collection_flags c) (<[Z.to_nat n := b]> (epoch_flags c))).
Definition set_table (c : cuckoo) (n : Z) (e : E) : option cuckoo :=
  _ ← table c !! Z.to_nat n; Some (set_slots c (<[Z.to_nat n := e]> (table c)) (collection_flags c) (epoch_flags c)).

(** The first loop of [epoch_check], over the slots from [i] on. *)
Fixpoint count_unused (n : nat) (i : Z) (c : cuckoo) (count : Z) : option Z :=
  match n with
  | O => Some count
  | S n' =>
      epoch ← epoch_flags c !! Z.to_nat i;
      unused ← (if (epoch : bool) then negb <$> bit_is_set (collection_flags c) i else Some false);
      count_unused n' (i + 1) c (u32 (count + Z.b2z unused))
  end.

(** Its second loop: the current epoch becomes the old one, and what was old may be erased. *)
Fixpoint age_epochs (n : nat) (i : Z) (c : cuckoo) : option cuckoo :=
  match n with
  | O => Some c
  | S n' =>
      epoch ← epoch_flags c !! Z.to_nat i;
      c ← (if (epoch : bool) then set_epoch c i false else allow_erase c i);
      age_epochs n' (i + 1) c
  end.

Definition epoch_check (c : cuckoo) : option cuckoo :=
  if negb (epoch_heuristic_counter c =? 0) then Some (set_counter c (epoch_heuristic_counter c - 1))
  else
  epoch_unused_count ← count_unused (Z.to_nat (size c)) 0 c 0;
  if epoch_unused_count >=? epoch_size c then
    c ← age_epochs (Z.to_nat (size c)) 0 c;
    Some (set_counter c (epoch_size c))
  else Some (set_counter c (Z.max 1 (Z.max (epoch_size c / 16) (epoch_size c - epoch_unused_count)))).

(** [setup] and what it returns. *)
Definition setup (c : cuckoo) (new_size : Z) : cuckoo * Z :=
  let size := Z.max 2 new_size in
  let epoch_size := Z.max 1 (u32 (45 * size) / 100) in
  (mkCuckoo (resize (Z.to_nat size) Element (table c)) size (flags_new size) (resize (Z.to_nat size) false (epoch_flags c)) epoch_size epoch_size
     (u8 (log2f size)), size).

Definition setup_bytes (c : cuckoo) (bytes : Z) : cuckoo * (Z * Z) :=
  let requested_num_elems := u32 (Z.min (bytes / sizeof_Element) (2 ^ 32 - 1)) in
  let '(c, num_elems) := setup c requested_num_elems in
  (c, (num_elems, u64 (num_elems * sizeof_Element))).

(** The first of the places [locs] that holds [e]. *)
Fixpoint find_element (c : cuckoo) (e : E) (locs : list Z) : option (option Z) :=
  match locs with
  | [] => Some None
  | loc :: locs' => x ← table c !! Z.to_nat loc; if bool_decide (x = e) then Some (Some loc) else find_element c e locs'
  end.

(** The first of the places [locs] that may be overwritten. *)
Fixpoint find_free (c : cuckoo) (locs : list Z) : option (option Z) :=
  match locs with
  | [] => Some None
  | loc :: locs' => free ← bit_is_set (collection_flags c) loc; if (free : bool) then Some (Some loc) else find_free c locs'
  end.

(** [std::find(locs.begin(), locs.end(), x) - locs.begin()] *)
Fixpoint find_index (x : Z) (locs : list Z) : Z :=
  match locs with
  | [] => 0
  | loc :: locs' => if loc =? x then 0 else 1 + find_index x locs'
  end.

(** The loop of [insert], for the rounds that are left. *)
Fixpoint insert_loop (n : nat) (c : cuckoo) (e : E) (last_loc : Z) (last_epoch : bool) (locs : list Z) : option cuckoo :=
  match n with
  | O => Some c
  | S n' =>
      free ← find_free c locs;
      match free with
      | Some loc =>
          c ← set_table c loc e;
          c ← please_keep c loc;
          set_epoch c loc last_epoch
      | None =>
          last_loc ← locs !! Z.to_nat (Z.land (1 + find_index last_loc locs) 7);
          evicted ← table c !! Z.to_nat last_loc;
          c ← set_table c last_loc e;
          epoch ← epoch_flags c !! Z.to_nat last_loc;
          c ← set_epoch c last_loc last_epoch;
          insert_loop n' c evicted last_loc epoch (compute_hashes c evicted)
      end
  end.

Definition insert (c : cuckoo) (e : E) : option cuckoo :=
  c ← epoch_check c;
  let locs := compute_hashes c e in
  found ← find_element c e locs;
  match found with
  | Some loc => c ← please_keep c loc; set_epoch c loc true
  | None => insert_loop (Z.to_nat (depth_limit c)) c e invalid true locs
  end.

Definition contains (c : cuckoo) (e : E) (erase : bool) : option (bool * cuckoo) :=
  found ← find_element c e (compute_hashes c e);
  match found with
  | Some loc => c ← (if erase then allow_erase c loc else Some c); Some (true, c)
  | None => Some (false, c)
  end.

End Cuckoo.

Arguments cuckoo : clear implicits.
Arguments mkCuckoo {_}.

End Cuckoo.
Import Cuckoo.

(** ** Flags *)

Lemma bit_is_set_lookup (mem : list Z) (s b : Z) : mem !! Z.to_nat (Z.shiftr s 3) = Some b -> bit_is_set mem s = Some (Z.testbit b (Z.land s 7)).
Proof.
  intros Hb. unfold bit_is_set. rewrite Hb. cbn. f_equal. assert (Hk : 0 <= Z.land s 7) by (apply Z.land_nonneg; lia).
  destruct (Z.testbit b (Z.land s 7)) eqn:Et.
  - apply negb_true_iff, Z.eqb_neq. intros H. apply (f_equal (fun x => Z.testbit x (Z.land s 7))) in H.
    rewrite Z.land_spec, Z.testbit_0_l, Z.shiftl_spec, Z.sub_diag, Et in H by done. done.
  - apply negb_false_iff, Z.eqb_eq, Z.bits_inj'. intros j Hj. rewrite Z.land_spec, Z.testbit_0_l, Z.shiftl_spec by done.
    destruct (decide (j = Z.land s 7)) as [->|Hne]; [by rewrite Et, andb_false_r|]. destruct (Z.lt_ge_cases j (Z.land s 7)); [by rewrite Z.testbit_neg_r by lia|].
    replace (Z.testbit 1 (j - Z.land s 7)) with false; [done|]. symmetry. apply Z.bits_above_log2; [done|]. change (Z.log2 1) with 0. lia.
Qed.


Lemma bit_place (s : Z) : Z.shiftr s 3 = s / 8 /\ Z.land s 7 = s mod 8.
Proof. rewrite Z.shiftr_div_pow2 by lia. change 7 with (Z.ones 3). by rewrite Z.land_ones by lia. Qed.

(** Both updates write the bit at their place and leave the others. *)
Lemma bit_update (f : Z -> Z -> Z) (v : bool) (mem : list Z) (s : Z) :
  (forall b j k, 0 <= j < 8 -> 0 <= k < 8 -> Z.testbit (f b k) j = if j =? k then v else Z.testbit b j) ->
  0 <= s < 8 * Z.of_nat (length mem) ->
  exists b, mem !! Z.to_nat (Z.shiftr s 3) = Some b /\
    let mem' := <[Z.to_nat (Z.shiftr s 3) := f b (Z.land s 7)]> mem in
    length mem' = length mem /\ forall t, 0 <= t < 8 * Z.of_nat (length mem) -> bit_is_set mem' t = if t =? s then Some v else bit_is_set mem t.
Proof.
  intros Hf Hs. destruct (bit_place s) as [Hd Hm]. assert (Hr : (Z.to_nat (Z.shiftr s 3) < length mem)%nat).
  { rewrite Hd. assert (s / 8 < Z.of_nat (length mem)) by (apply Z.div_lt_upper_bound; lia). pose proof (Z.div_pos s 8). lia. }
  destruct (lookup_lt_is_Some_2 mem _ Hr) as [b Hb]. exists b. split; [done|]. cbv zeta. rewrite length_insert. split; [done|]. intros t Ht.
  destruct (bit_place t) as [Hdt Hmt]. pose proof (Z.mod_pos_bound t 8 ltac:(lia)) as Bt. pose proof (Z.mod_pos_bound s 8 ltac:(lia)) as Bs.
  destruct (decide (Z.shiftr t 3 = Z.shiftr s 3)) as [E|E].
  - rewrite (bit_is_set_lookup _ _ (f b (Z.land s 7))) by (rewrite E; by apply list_lookup_insert_eq). rewrite (bit_is_set_lookup mem t b) by by rewrite E.
    rewrite Hf by lia. rewrite Hm, Hmt. pose proof (Z.div_mod t 8). pose proof (Z.div_mod s 8). rewrite Hd, Hdt in E.
    destruct (t =? s) eqn:Ets; destruct (t mod 8 =? s mod 8) eqn:Em; lia || done.
  - assert (t <> s) by congruence. rewrite (proj2 (Z.eqb_neq t s)) by done. unfold bit_is_set. rewrite list_lookup_insert_ne; [done|].
    rewrite Hd, Hdt in *. pose proof (Z.div_pos t 8). pose proof (Z.div_pos s 8). lia.
Qed.

Lemma testbit_one (j k : Z) : 0 <= j -> 0 <= k -> Z.testbit (Z.shiftl 1 k) j = (j =? k).
Proof. intros Hj Hk. rewrite Z.shiftl_1_l, Z.pow2_bits_eqb by done. by rewrite Z.eqb_sym. Qed.

Lemma bit_set_spec (mem : list Z) (s : Z) : 0 <= s < 8 * Z.of_nat (length mem) ->
  exists mem', bit_set mem s = Some mem' /\ length mem' = length mem /\
    forall t, 0 <= t < 8 * Z.of_nat (length mem) -> bit_is_set mem' t = if t =? s then Some true else bit_is_set mem t.
Proof.
  intros Hs. destruct (bit_update (fun b k => Z.lor b (u8 (Z.shiftl 1 k))) true mem s) as (b & Hb & H); [|done|].
  { intros b j k Hj Hk. rewrite Z.lor_spec. unfold u8. rewrite Z.mod_pow2_bits_low by lia. rewrite testbit_one by lia. destruct (j =? k); [apply orb_true_r|apply orb_false_r]. }
  eexists. unfold bit_set. rewrite Hb. cbn [mbind option_bind]. by split.
Qed.

Lemma bit_unset_spec (mem : list Z) (s : Z) : 0 <= s < 8 * Z.of_nat (length mem) ->
  exists mem', bit_unset mem s = Some mem' /\ length mem' = length mem /\
    forall t, 0 <= t < 8 * Z.of_nat (length mem) -> bit_is_set mem' t = if t =? s then Some false else bit_is_set mem t.
Proof.
  intros Hs. destruct (bit_update (fun b k => Z.land b (u8 (Z.lnot (Z.shiftl 1 k)))) false mem s) as (b & Hb & H); [|done|].
  { intros b j k Hj Hk. rewrite Z.land_spec. unfold u8. rewrite Z.mod_pow2_bits_low, Z.lnot_spec by lia. rewrite testbit_one by lia.
    destruct (j =? k); [apply andb_false_r|apply andb_true_r]. }
  eexists. unfold bit_unset. rewrite Hb. cbn [mbind option_bind]. by split.
Qed.

Lemma bit_is_set_total (mem : list Z) (s : Z) : 0 <= s < 8 * Z.of_nat (length mem) -> is_Some (bit_is_set mem s).
Proof.
  intros Hs. destruct (bit_place s) as [Hd _]. destruct (lookup_lt_is_Some_2 mem (Z.to_nat (Z.shiftr s 3))) as [b Hb].
  { rewrite Hd. assert (s / 8 < Z.of_nat (length mem)) by (apply Z.div_lt_upper_bound; lia). pose proof (Z.div_pos s 8). lia. }
  by rewrite (bit_is_set_lookup _ _ _ Hb).
Qed.

Lemma flags_new_set (n s : Z) : 0 <= s < n -> n + 7 < 2 ^ 32 -> bit_is_set (flags_new n) s = Some true /\ n <= 8 * Z.of_nat (length (flags_new n)).
Proof.
  intros Hs Hn. unfold flags_new. rewrite length_replicate. unfold u32. rewrite Z.mod_small by lia. pose proof (Z.div_mod (n + 7) 8) as Hdm.
  pose proof (Z.mod_pos_bound (n + 7) 8 ltac:(lia)). assert (0 <= (n + 7) / 8) by (apply Z.div_pos; lia). rewrite Z2Nat.id by done. split; [|lia].
  destruct (bit_place s) as [Hd Hm]. pose proof (Z.mod_pos_bound s 8 ltac:(lia)) as Hk. rewrite (bit_is_set_lookup _ _ 0xFF).
  - rewrite Hm. f_equal. assert (s mod 8 = 0 \/ s mod 8 = 1 \/ s mod 8 = 2 \/ s mod 8 = 3 \/ s mod 8 = 4 \/ s mod 8 = 5 \/ s mod 8 = 6 \/ s mod 8 = 7) as Hc by lia.
    repeat destruct Hc as [Hc|Hc]; by rewrite Hc.
  - apply lookup_replicate_2. rewrite Hd. apply Z2Nat.inj_lt; [apply Z.div_pos; lia|done|]. apply Z.div_lt_upper_bound; lia.
Qed.

(** ** Slots *)

Lemma FastRange32_range (x n : Z) : is_u32 x -> 0 < n < 2 ^ 32 -> 0 <= FastRange32 x n < n.
Proof.
  unfold is_u32, FastRange32, u32, u64. intros Hx Hn. assert (0 <= x * n < 2 ^ 32 * n) by nia.
  rewrite (Z.mod_small (x * n)) by nia. rewrite Z.shiftr_div_pow2 by lia. assert (0 <= x * n / 2 ^ 32 < n).
  { split; [apply Z.div_pos; lia|]. apply Z.div_lt_upper_bound; lia. }
  rewrite Z.mod_small; lia.
Qed.

(** ** Elements *)

(** What the operations can leave in the table, whatever the state of the cache. *)
Section CuckooElements.
Context {E : Type} {Eeq : EqDecision E} (hash_function : nat -> E -> Z).
#[local] Abbreviation cuckoo := (cuckoo E).

Lemma allow_erase_table (c c' : cuckoo) (n : Z) : allow_erase c n = Some c' -> table c' = table c.
Proof. unfold allow_erase. intros (f & _ & H)%bind_Some. by injection H as <-. Qed.

Lemma please_keep_table (c c' : cuckoo) (n : Z) : please_keep c n = Some c' -> table c' = table c.
Proof. unfold please_keep. intros (f & _ & H)%bind_Some. by injection H as <-. Qed.

Lemma set_epoch_table (c c' : cuckoo) (n : Z) (b : bool) : set_epoch c n b = Some c' -> table c' = table c.
Proof. unfold set_epoch. intros (f & _ & H)%bind_Some. by injection H as <-. Qed.

Lemma set_table_elem (c c' : cuckoo) (n : Z) (e x : E) : set_table c n e = Some c' -> x ∈ table c' -> x ∈ table c \/ x = e.
Proof.
  unfold set_table. intros (f & _ & H)%bind_Some Hx. injection H as <-. cbn [set_slots table] in Hx. apply list_elem_of_lookup in Hx as [i Hi].
  apply list_lookup_insert_Some in Hi as [(_ & <- & _)|[_ Hi]]; [by right|left; by eapply list_elem_of_lookup_2].
Qed.

Lemma age_epochs_table (n : nat) (i : Z) (c c' : cuckoo) : age_epochs n i c = Some c' -> table c' = table c.
Proof.
  revert i c; induction n as [|n IH]; intros i c; cbn [age_epochs]; [by intros [= <-]|]. intros (b & _ & (c1 & H1 & H)%bind_Some)%bind_Some.
  rewrite (IH _ _ H). destruct b; [by eapply set_epoch_table|by eapply allow_erase_table].
Qed.

Lemma epoch_check_table (c c' : cuckoo) : epoch_check c = Some c' -> table c' = table c.
Proof.
  unfold epoch_check. destruct (negb _); [by intros [= <-]|]. intros (n & _ & H)%bind_Some. destruct (_ >=? _); [|by injection H as <-].
  apply bind_Some in H as (c1 & H1 & H). injection H as <-. cbn [set_counter table]. exact (age_epochs_table _ _ _ _ H1).
Qed.

Lemma find_element_elem (c : cuckoo) (e : E) (locs : list Z) (loc : Z) : find_element c e locs = Some (Some loc) -> e ∈ table c.
Proof.
  induction locs as [|l locs IH]; cbn [find_element]; [done|]. intros (x & Hx & H)%bind_Some. case_bool_decide; [|auto]. subst x. by eapply list_elem_of_lookup_2.
Qed.

Lemma insert_loop_elem (n : nat) (c c' : cuckoo) (e x : E) (last_loc : Z) (last_epoch : bool) (locs : list Z) :
  insert_loop hash_function n c e last_loc last_epoch locs = Some c' -> x ∈ table c' -> x ∈ table c \/ x = e.
Proof.
  revert c e last_loc last_epoch locs; induction n as [|n IH]; intros c e last_loc last_epoch locs; cbn [insert_loop]; [intros [= <-]; by left|].
  intros (free & _ & H)%bind_Some Hx. destruct free as [loc|].
  - apply bind_Some in H as (c1 & H1 & (c2 & H2 & H)%bind_Some). apply (set_table_elem c c1 loc); [done|].
    by rewrite <- (please_keep_table _ _ _ H2), <- (set_epoch_table _ _ _ _ H).
  - apply bind_Some in H as (loc & _ & (ev & Hev & (c1 & H1 & (ep & _ & (c2 & H2 & H)%bind_Some)%bind_Some)%bind_Some)%bind_Some).
    destruct (IH _ _ _ _ _ H Hx) as [Hin| ->]; [|left; by eapply list_elem_of_lookup_2]. rewrite (set_epoch_table _ _ _ _ H2) in Hin.
    by apply (set_table_elem c c1 loc).
Qed.

Lemma insert_elem (c c' : cuckoo) (e x : E) : insert hash_function c e = Some c' -> x ∈ table c' -> x ∈ table c \/ x = e.
Proof.
  unfold insert. intros (c1 & H1 & (found & _ & H)%bind_Some)%bind_Some Hx. rewrite <- (epoch_check_table _ _ H1). destruct found as [loc|].
  - apply bind_Some in H as (c2 & H2 & H). left. by rewrite <- (please_keep_table _ _ _ H2), <- (set_epoch_table _ _ _ _ H).
  - by eapply insert_loop_elem.
Qed.

Lemma contains_elem (c c' : cuckoo) (e : E) (erase hit : bool) :
  contains hash_function c e erase = Some (hit, c') -> table c' = table c /\ (hit = true -> e ∈ table c).
Proof.
  unfold contains. intros (found & Hf & H)%bind_Some. destruct found as [loc|]; [|by injection H as <- <-]. apply bind_Some in H as (c1 & H1 & H).
  injection H as <- <-. split; [destruct erase; [by eapply allow_erase_table|by injection H1 as <-]|intros _; by eapply find_element_elem].
Qed.
End CuckooElements.

Section CuckooProofs.
Context {E : Type} {Eeq : EqDecision E} (Element : E) (hash_function : nat -> E -> Z) (log2f : Z -> Z).
Context (Hhash : forall i e, is_u32 (hash_function i e)).
#[local] Abbreviation cuckoo := (cuckoo E).
#[local] Abbreviation hashes := (compute_hashes hash_function).

(** What a slot counts for: nothing when it may be overwritten, otherwise its epoch. *)
Definition slot (c : cuckoo) (i : nat) (epoch : bool) : option bool :=
  if default false (bit_is_set (collection_flags c) (Z.of_nat i)) then None else Some epoch.
Definition slots (c : cuckoo) : list (option bool) := imap (slot c) (epoch_flags c).

Record cuckoo_ok (c : cuckoo) : Prop := {
  ok_size : 2 <= size c < 2 ^ 32;
  ok_table : length (table c) = Z.to_nat (size c);
  ok_epochs : length (epoch_flags c) = Z.to_nat (size c);
  ok_flags : size c <= 8 * Z.of_nat (length (collection_flags c));
  ok_counter : 0 <= epoch_heuristic_counter c;
  ok_epoch_size : 1 <= epoch_size c
}.

Lemma length_slots (c : cuckoo) : length (slots c) = length (epoch_flags c).
Proof. apply length_imap. Qed.

Lemma lookup_slots (c : cuckoo) (i : nat) (b : bool) : epoch_flags c !! i = Some b -> slots c !! i = Some (slot c i b).
Proof. intros H. unfold slots. by rewrite list_lookup_imap, H. Qed.

(** What an operation on one slot keeps. *)
Definition kept (c c' : cuckoo) : Prop :=
  size c' = size c /\ epoch_heuristic_counter c' = epoch_heuristic_counter c /\ epoch_size c' = epoch_size c /\ depth_limit c' = depth_limit c.

Lemma kept_hashes (c c' : cuckoo) (e : E) : kept c c' -> hashes c' e = hashes c e.
Proof. intros (Hs & _). unfold compute_hashes. by rewrite Hs. Qed.

Lemma kept_trans (a b c : cuckoo) : kept a b -> kept b c -> kept a c.
Proof. unfold kept. intuition congruence. Qed.

Lemma hashes_range (c : cuckoo) (e : E) (loc : Z) : cuckoo_ok c -> loc ∈ hashes c e -> 0 <= loc < size c.
Proof.
  intros Hc H. apply list_elem_of_In, in_map_iff in H as (i & <- & _). apply FastRange32_range; [apply Hhash|]. pose proof (ok_size _ Hc). lia.
Qed.

Lemma slots_update (c : cuckoo) (flags : list Z) (epochs : list bool) (t : list E) (n : Z) (free b : bool) :
  cuckoo_ok c -> 0 <= n < size c -> epochs = <[Z.to_nat n := b]> (epoch_flags c) -> length flags = length (collection_flags c) ->
  (forall i, 0 <= i < 8 * Z.of_nat (length (collection_flags c)) -> bit_is_set flags i = if i =? n then Some free else bit_is_set (collection_flags c) i) ->
  slots (set_slots c t flags epochs) = <[Z.to_nat n := if free then None else Some b]> (slots c).
Proof.
  intros Hc Hn -> Hl Hf. pose proof (ok_flags _ Hc) as Hfl. pose proof (ok_epochs _ Hc) as Hel. apply list_eq. intros i. unfold slots at 1. rewrite list_lookup_imap. cbn.
  destruct (decide (i = Z.to_nat n)) as [->|Hne].
  - rewrite !list_lookup_insert_eq by (rewrite ?length_slots; lia). cbn. unfold slot. cbn. rewrite Hf, Z2Nat.id, Z.eqb_refl by lia. done.
  - rewrite !list_lookup_insert_ne by done. unfold slots. rewrite list_lookup_imap. destruct (epoch_flags c !! i) as [e|] eqn:Ei; [|done]. cbn. unfold slot. cbn.
    apply lookup_lt_Some in Ei. rewrite Hf by lia. by rewrite (proj2 (Z.eqb_neq _ _)) by lia.
Qed.

Lemma allow_erase_ok (c : cuckoo) (n : Z) : cuckoo_ok c -> 0 <= n < size c ->
  exists c', allow_erase c n = Some c' /\ cuckoo_ok c' /\ kept c c' /\ table c' = table c /\ epoch_flags c' = epoch_flags c /\ slots c' = <[Z.to_nat n := None]> (slots c).
Proof.
  intros Hc Hn. pose proof Hc as [H1 H2 H3 H4 H5 H6]. destruct (bit_set_spec (collection_flags c) n) as (flags & E1 & Hl & Hf); [lia|]. unfold allow_erase. rewrite E1. cbn.
  eexists. split; [done|]. split; [by constructor; cbn; rewrite ?Hl|]. split_and!; try done.
  destruct (lookup_lt_is_Some_2 (epoch_flags c) (Z.to_nat n)) as [b Hb]; [lia|].
  apply (slots_update c flags (epoch_flags c) (table c) n true b); try done. by rewrite list_insert_id.
Qed.

Lemma keep_epoch_ok (c : cuckoo) (n : Z) (b : bool) : cuckoo_ok c -> 0 <= n < size c ->
  exists c1 c', please_keep c n = Some c1 /\ set_epoch c1 n b = Some c' /\ cuckoo_ok c' /\ kept c c' /\ table c' = table c /\
    slots c' = <[Z.to_nat n := Some b]> (slots c).
Proof.
  intros Hc Hn. pose proof Hc as [H1 H2 H3 H4 H5 H6]. destruct (bit_unset_spec (collection_flags c) n) as (flags & E1 & Hl & Hf); [lia|]. unfold please_keep. rewrite E1. cbn.
  destruct (lookup_lt_is_Some_2 (epoch_flags c) (Z.to_nat n)) as [b0 Hb]; [lia|].
  eexists _, _. split; [done|]. unfold set_epoch. cbn. rewrite Hb. cbn. split; [done|]. split; [by constructor; cbn; rewrite ?length_insert, ?Hl|]. split_and!; try done.
  by apply (slots_update c flags (<[Z.to_nat n := b]> (epoch_flags c)) (table c) n false b).
Qed.

Lemma set_epoch_ok (c : cuckoo) (n : Z) (b b0 : bool) : cuckoo_ok c -> 0 <= n < size c -> epoch_flags c !! Z.to_nat n = Some b0 ->
  exists c', set_epoch c n b = Some c' /\ cuckoo_ok c' /\ kept c c' /\ table c' = table c /\ epoch_flags c' = <[Z.to_nat n := b]> (epoch_flags c) /\
    slots c' = <[Z.to_nat n := (fun _ => b) <$> slot c (Z.to_nat n) b0]> (slots c).
Proof.
  intros Hc Hn Hb. pose proof Hc as [H1 H2 H3 H4 H5 H6]. unfold set_epoch. rewrite Hb. cbn. eexists. split; [done|].
  split; [by constructor; cbn; rewrite ?length_insert|]. split_and!; try done. destruct (bit_is_set_total (collection_flags c) n) as [f Hf]; [lia|].
  rewrite (slots_update c (collection_flags c) (<[Z.to_nat n := b]> (epoch_flags c)) (table c) n f b); try done.
  - f_equal. unfold slot. rewrite Z2Nat.id, Hf by lia. by destruct f.
  - intros i _. destruct (Z.eqb_spec i n) as [->|]; done.
Qed.

Lemma set_table_ok (c : cuckoo) (n : Z) (e : E) : cuckoo_ok c -> 0 <= n < size c ->
  exists c', set_table c n e = Some c' /\ cuckoo_ok c' /\ kept c c' /\ table c' = <[Z.to_nat n := e]> (table c) /\ epoch_flags c' = epoch_flags c /\ slots c' = slots c /\
    collection_flags c' = collection_flags c.
Proof.
  intros Hc Hn. pose proof Hc as [H1 H2 H3 H4 H5 H6]. unfold set_table. destruct (lookup_lt_is_Some_2 (table c) (Z.to_nat n)) as [x Hx]; [lia|]. rewrite Hx. cbn.
  eexists. split; [done|]. split; [by constructor; cbn; rewrite ?length_insert|]. by split_and!.
Qed.

Lemma slot_free (c : cuckoo) (n : Z) : cuckoo_ok c -> 0 <= n < size c ->
  exists f b, bit_is_set (collection_flags c) n = Some f /\ epoch_flags c !! Z.to_nat n = Some b /\ slots c !! Z.to_nat n = Some (if f then None else Some b).
Proof.
  intros Hc Hn. pose proof Hc as [H1 H2 H3 H4 H5 H6]. destruct (bit_is_set_total (collection_flags c) n) as [f Hf]; [lia|].
  destruct (lookup_lt_is_Some_2 (epoch_flags c) (Z.to_nat n)) as [b Hb]; [lia|]. exists f, b. split_and!; try done. rewrite (lookup_slots c _ b) by done.
  unfold slot. rewrite Z2Nat.id, Hf by lia. done.
Qed.

(** The number of slots that may not be overwritten, by epoch. *)
Definition live (b : bool) (c : cuckoo) : nat := length (filter (fun s => s = Some b) (slots c)).

Lemma filter_insert_count (l : list (option bool)) (i : nat) (x y : option bool) (b : bool) : l !! i = Some x ->
  (length (filter (fun s => s = Some b) (<[i := y]> l)) + Nat.b2n (bool_decide (x = Some b)) =
   length (filter (fun s => s = Some b) l) + Nat.b2n (bool_decide (y = Some b)))%nat.
Proof.
  intros Hi. rewrite <- (take_drop_middle l i x Hi) at 2. rewrite insert_take_drop by by eapply lookup_lt_Some.
  rewrite !filter_app, !length_app, !filter_cons. repeat case_decide; repeat case_bool_decide; cbn; simplify_eq; lia.
Qed.

Lemma live_insert (c c' : cuckoo) (i : nat) (x y : option bool) (b : bool) : slots c !! i = Some x -> slots c' = <[i := y]> (slots c) ->
  (live b c' + Nat.b2n (bool_decide (x = Some b)) = live b c + Nat.b2n (bool_decide (y = Some b)))%nat.
Proof. intros Hi E'. unfold live. rewrite E'. by apply filter_insert_count. Qed.

(** ** Epochs *)

Lemma count_unused_spec (c : cuckoo) (n : nat) (i : nat) (count : Z) : cuckoo_ok c -> (i + n = Z.to_nat (size c))%nat -> 0 <= count <= Z.of_nat i ->
  count_unused n (Z.of_nat i) c count = Some (count + Z.of_nat (length (filter (fun s => s = Some true) (drop i (slots c))))).
Proof.
  intros Hc. revert i count; induction n as [|n IH]; intros i count Hi Hcount; cbn [count_unused].
  - rewrite drop_ge; [|by rewrite length_slots, (ok_epochs _ Hc); lia]. cbn. f_equal. lia.
  - pose proof (ok_size _ Hc). destruct (slot_free c (Z.of_nat i) Hc ltac:(lia)) as (f & b & Hf & Hb & Hs). rewrite Nat2Z.id in *. rewrite Hb. cbn [mbind option_bind].
    rewrite (drop_S _ _ _ Hs), filter_cons. replace (Z.of_nat i + 1) with (Z.of_nat (S i)) by lia.
    destruct b; cbn [mbind option_bind fmap option_fmap option_map]; rewrite ?Hf; cbn [mbind option_bind fmap option_fmap option_map]; unfold u32.
    + destruct f; cbn [negb Z.b2z]; rewrite Z.mod_small by lia; (rewrite IH by lia); case_decide; try done; cbn [length]; f_equal; lia.
    + cbn [Z.b2z]. rewrite Z.mod_small by lia. rewrite IH by lia. case_decide; [by destruct f|]. f_equal. lia.
Qed.

Definition aged (s : option bool) : option bool := match s with Some true => Some false | _ => None end.

Lemma age_epochs_spec (n : nat) (i : nat) (c : cuckoo) : cuckoo_ok c -> (i + n = Z.to_nat (size c))%nat ->
  exists c', age_epochs n (Z.of_nat i) c = Some c' /\ cuckoo_ok c' /\ kept c c' /\ table c' = table c /\
    slots c' = take i (slots c) ++ (aged <$> drop i (slots c)).
Proof.
  revert i c; induction n as [|n IH]; intros i c Hc Hi; cbn [age_epochs].
  - exists c. split_and!; try done. rewrite drop_ge, take_ge by (rewrite length_slots, (ok_epochs _ Hc); lia). by rewrite fmap_nil, app_nil_r.
  - pose proof (ok_size _ Hc). destruct (slot_free c (Z.of_nat i) Hc ltac:(lia)) as (f & b & Hf & Hb & Hs). rewrite Hb. cbn [mbind option_bind].
    assert (exists c1, (if b then set_epoch c (Z.of_nat i) false else allow_erase c (Z.of_nat i)) = Some c1 /\ cuckoo_ok c1 /\ kept c c1 /\ table c1 = table c /\
      slots c1 = <[i := aged (if f then None else Some b)]> (slots c)) as (c1 & -> & Hc1 & Hk1 & Ht1 & Hs1).
    { destruct b.
      - destruct (set_epoch_ok c (Z.of_nat i) false true Hc ltac:(lia) Hb) as (c1 & -> & Hc1 & Hk1 & Ht1 & _ & Hs1). exists c1. split_and!; try done.
        rewrite Hs1, Nat2Z.id. f_equal. unfold slot. rewrite Hf. by destruct f.
      - destruct (allow_erase_ok c (Z.of_nat i) Hc ltac:(lia)) as (c1 & -> & Hc1 & Hk1 & Ht1 & _ & Hs1). exists c1. split_and!; try done.
        rewrite Hs1, Nat2Z.id. by destruct f. }
    cbn [mbind option_bind]. replace (Z.of_nat i + 1) with (Z.of_nat (S i)) by lia. pose proof Hk1 as (Hz & _).
    destruct (IH (S i) c1 Hc1 ltac:(rewrite Hz; lia)) as (c' & -> & Hc' & Hk' & Ht' & Hs'). exists c'. split_and!; try done; [by eapply kept_trans|congruence|].
    rewrite Hs', Hs1. rewrite Nat2Z.id in Hs. pose proof (lookup_lt_Some _ _ _ Hs). rewrite drop_insert_lt by lia. rewrite (drop_S _ _ _ Hs), fmap_cons.
    rewrite (take_S_r _ i (aged (if f then None else Some b))) by by apply list_lookup_insert_eq. rewrite take_insert_ge by lia. by rewrite <- app_assoc.
Qed.

Lemma live_aged (c c' : cuckoo) : slots c' = aged <$> slots c -> live true c' = 0%nat /\ live false c' = live true c.
Proof.
  intros E'. unfold live. rewrite E'. generalize (slots c). intros l. induction l as [|[[]|] l [IH1 IH2]]; [done| | |]; rewrite fmap_cons, !filter_cons; cbn [aged];
    repeat case_decide; simplify_eq; cbn [length]; by rewrite ?IH1, ?IH2.
Qed.

(** The most that an epoch may hold. *)
Definition epoch_bound (c : cuckoo) : Z := epoch_size c + Z.max 1 (epoch_size c / 16) + 1.

(** The load of the cache: the counter runs out before an epoch grows past its bound. *)
Record load_ok (c : cuckoo) : Prop := {
  load_current : Z.of_nat (live true c) + epoch_heuristic_counter c <= epoch_bound c;
  load_old : Z.of_nat (live false c) <= epoch_bound c
}.

Lemma live_set_counter (b : bool) (c : cuckoo) (n : Z) : live b (set_counter c n) = live b c.
Proof. done. Qed.

Lemma epoch_check_ok (c : cuckoo) : cuckoo_ok c ->
  exists c', epoch_check c = Some c' /\ cuckoo_ok c' /\ size c' = size c /\ epoch_size c' = epoch_size c /\ depth_limit c' = depth_limit c /\ table c' = table c /\
    (load_ok c -> Z.of_nat (live true c') + 1 + epoch_heuristic_counter c' <= epoch_bound c /\ Z.of_nat (live false c') <= epoch_bound c).
Proof.
  intros Hc. pose proof Hc as [H1 H2 H3 H4 H5 H6]. unfold epoch_check. destruct (Z.eqb_spec (epoch_heuristic_counter c) 0) as [Hz|Hz]; cbn [negb].
  - pose proof (count_unused_spec c (Z.to_nat (size c)) 0 0 Hc ltac:(lia) ltac:(lia)) as Hcount. change (Z.of_nat 0) with 0 in Hcount. rewrite Hcount. cbn [mbind option_bind]. rewrite drop_0, Z.add_0_l. fold (live true c). destruct (_ >=? _) eqn:Eage.
    + destruct (age_epochs_spec (Z.to_nat (size c)) 0 c) as (c1 & Hage & Hc1 & (Ks & Kc & Ke & Kd) & Ht & Hs); [done|lia|]. change (Z.of_nat 0) with 0 in Hage. rewrite Hage. cbn [mbind option_bind].
      eexists. split; [done|]. rewrite take_0, drop_0 in Hs. destruct (live_aged c c1 Hs) as [La Lb]. pose proof Hc1 as [G1 G2 G3 G4 G5 G6].
      split_and!; try done; [constructor; cbn; try done; lia|]. intros [L1 L2]. rewrite !live_set_counter, La, Lb. cbn [set_counter epoch_heuristic_counter]. rewrite Ke. unfold epoch_bound in *. lia.
    + eexists. split; [done|]. split_and!; try done; [constructor; cbn; try done; lia|]. intros [L1 L2]. rewrite !live_set_counter. cbn [set_counter epoch_heuristic_counter]. unfold epoch_bound in *. lia.
  - eexists. split; [done|]. split_and!; try done; [constructor; cbn; try done; lia|]. intros [L1 L2]. rewrite !live_set_counter. cbn [set_counter epoch_heuristic_counter]. unfold epoch_bound in *. lia.
Qed.

(** ** Places *)

Lemma find_element_ok (c : cuckoo) (e : E) (locs : list Z) : cuckoo_ok c -> (forall loc, loc ∈ locs -> 0 <= loc < size c) ->
  exists r, find_element c e locs = Some r /\
    match r with
    | Some loc => loc ∈ locs /\ table c !! Z.to_nat loc = Some e
    | None => forall loc, loc ∈ locs -> table c !! Z.to_nat loc <> Some e
    end.
Proof.
  intros Hc. induction locs as [|loc locs IH]; intros Hl; cbn [find_element].
  - exists None. split; [done|]. intros loc H. by apply elem_of_nil in H.
  - destruct (lookup_lt_is_Some_2 (table c) (Z.to_nat loc)) as [x Hx]; [rewrite (ok_table _ Hc); specialize (Hl loc ltac:(left)); lia|].
    rewrite Hx. cbn [mbind option_bind]. case_bool_decide as Ex.
    + exists (Some loc). split; [done|]. split; [left|by subst].
    + destruct IH as (r & -> & Hr); [intros l' Hl'; apply Hl; by right|]. exists r. split; [done|]. destruct r as [l'|].
      * destruct Hr. split; [by right|done].
      * intros l' Hl'. apply elem_of_cons in Hl' as [->|Hl']; [congruence|by apply Hr].
Qed.

Lemma find_free_ok (c : cuckoo) (locs : list Z) : cuckoo_ok c -> (forall loc, loc ∈ locs -> 0 <= loc < size c) ->
  exists r, find_free c locs = Some r /\
    match r with
    | Some loc => loc ∈ locs /\ slots c !! Z.to_nat loc = Some None
    | None => forall loc, loc ∈ locs -> exists b, epoch_flags c !! Z.to_nat loc = Some b /\ slots c !! Z.to_nat loc = Some (Some b)
    end.
Proof.
  intros Hc. induction locs as [|loc locs IH]; intros Hl; cbn [find_free].
  - exists None. split; [done|]. intros loc H. by apply elem_of_nil in H.
  - destruct (slot_free c loc Hc (Hl loc ltac:(left))) as (f & b & -> & Hb & Hs). cbn [mbind option_bind]. destruct f.
    + exists (Some loc). split; [done|]. split; [left|done].
    + destruct IH as (r & -> & Hr); [intros l' Hl'; apply Hl; by right|]. exists r. split; [done|]. destruct r as [l'|].
      * destruct Hr. split; [by right|done].
      * intros l' Hl'. apply elem_of_cons in Hl' as [->|Hl']; [by exists b|by apply Hr].
Qed.

Lemma find_index_range (x : Z) (locs : list Z) : 0 <= find_index x locs <= Z.of_nat (length locs).
Proof. induction locs as [|y locs IH]; cbn [find_index length]; [lia|]. destruct (y =? x); lia. Qed.

Lemma swap_perm (t : list E) (i : nat) (x e : E) : t !! i = Some x -> <[i := e]> t ++ [x] ≡ₚ t ++ [e].
Proof.
  intros Hi. rewrite <- (take_drop_middle t i x Hi) at 2. rewrite insert_take_drop by by eapply lookup_lt_Some.
  rewrite <- !app_assoc. apply Permutation_app_head. cbn [app]. rewrite Permutation_cons_append, <- app_assoc. cbn [app].
  rewrite (Permutation_cons_append (drop (S i) t ++ [e]) x), <- app_assoc. apply Permutation_app_head, Permutation_swap.
Qed.

(** Every element is at one of its places, except in slots that were never used. *)
Definition placed (c : cuckoo) : Prop := forall i y, table c !! i = Some y -> y = Element \/ Z.of_nat i ∈ hashes c y.

(** ** Insertion and lookup *)

(** What an insertion does: at most one element drops out, everything is at its place, and the new element is in no epoch but the current one. *)
Definition inserted (c c' : cuckoo) (e : E) (epoch : bool) : Prop :=
  cuckoo_ok c' /\ kept c c' /\ (exists x, table c' ++ [x] ≡ₚ table c ++ [e]) /\ (placed c -> placed c') /\
  forall b, (live b c' <= live b c + Nat.b2n (bool_decide (b = epoch)))%nat.

Lemma insert_place (c : cuckoo) (n : Z) (e : E) (i : nat) (y : E) : 0 <= n -> n ∈ hashes c e -> placed c -> <[Z.to_nat n := e]> (table c) !! i = Some y ->
  y = Element \/ Z.of_nat i ∈ hashes c y.
Proof.
  intros Hn He Hp Hi. destruct (decide (i = Z.to_nat n)) as [->|Hne].
  - rewrite list_lookup_insert_eq in Hi by (apply lookup_lt_Some in Hi; by rewrite length_insert in Hi). simplify_eq. right. by rewrite Z2Nat.id.
  - rewrite list_lookup_insert_ne in Hi by done. by apply Hp.
Qed.

Lemma insert_loop_ok (n : nat) (c : cuckoo) (e : E) (last_loc : Z) (last_epoch : bool) : cuckoo_ok c ->
  exists c', insert_loop hash_function n c e last_loc last_epoch (hashes c e) = Some c' /\ inserted c c' e last_epoch.
Proof.
  revert c e last_loc last_epoch; induction n as [|n IH]; intros c e last_loc last_epoch Hc; cbn [insert_loop].
  { exists c. split; [done|]. split_and!; try done; [by exists e|]. intros b. lia. }
  assert (Hlocs : forall loc, loc ∈ hashes c e -> 0 <= loc < size c) by (intros loc; by apply hashes_range).
  destruct (find_free_ok c (hashes c e) Hc Hlocs) as (r & -> & Hr). cbn [mbind option_bind]. destruct r as [loc|].
  - destruct Hr as [Hin Hs]. destruct (set_table_ok c loc e Hc (Hlocs _ Hin)) as (c1 & -> & Hc1 & Hk1 & Ht1 & _ & Hs1 & _). cbn [mbind option_bind]. pose proof Hk1 as (Kz & _).
    destruct (keep_epoch_ok c1 loc last_epoch Hc1 ltac:(rewrite Kz; by apply Hlocs)) as (c2 & c' & -> & E2 & Hc' & Hk' & Ht' & Hs'). cbn [mbind option_bind]. rewrite E2.
    exists c'. split; [done|]. assert (Hk : kept c c') by by eapply kept_trans. split_and!; try done.
    + destruct (lookup_lt_is_Some_2 (table c) (Z.to_nat loc)) as [x Hx]; [rewrite (ok_table _ Hc); specialize (Hlocs loc Hin); lia|].
      exists x. rewrite Ht', Ht1. by apply swap_perm.
    + intros Hp i y Hi. rewrite (kept_hashes c c') by done. rewrite Ht', Ht1 in Hi. apply (insert_place c loc e); try done. by destruct (Hlocs loc Hin).
    + intros b. pose proof (live_insert c c' (Z.to_nat loc) None (Some last_epoch) b Hs ltac:(by rewrite Hs', Hs1)) as Hlive.
      rewrite (bool_decide_eq_false_2 (None = Some b)) in Hlive by done. cbn [Nat.b2n] in Hlive.
      rewrite (bool_decide_ext (Some last_epoch = Some b) (b = last_epoch)) in Hlive by (split; congruence). lia.
  - pose proof (find_index_range last_loc (hashes c e)). destruct (lookup_lt_is_Some_2 (hashes c e) (Z.to_nat (Z.land (1 + find_index last_loc (hashes c e)) 7))) as [loc Hloc].
    { assert (length (hashes c e) = 8%nat) as -> by (unfold compute_hashes; by rewrite length_map, length_seq). change 7 with (Z.ones 3). rewrite Z.land_ones by lia. pose proof (Z.mod_pos_bound (1 + find_index last_loc (hashes c e)) (2 ^ 3) ltac:(lia)). lia. }
    rewrite Hloc. cbn [mbind option_bind]. assert (Hin : loc ∈ hashes c e) by by eapply list_elem_of_lookup_2.
    destruct (lookup_lt_is_Some_2 (table c) (Z.to_nat loc)) as [x Hx]; [rewrite (ok_table _ Hc); specialize (Hlocs loc Hin); lia|]. rewrite Hx. cbn [mbind option_bind].
    destruct (set_table_ok c loc e Hc (Hlocs _ Hin)) as (c1 & -> & Hc1 & Hk1 & Ht1 & He1 & Hs1 & Hf1). cbn [mbind option_bind]. pose proof Hk1 as (Kz & _).
    destruct (Hr loc Hin) as (b0 & Hb0 & Hs0). rewrite He1, Hb0. cbn [mbind option_bind].
    destruct (set_epoch_ok c1 loc last_epoch b0 Hc1 ltac:(rewrite Kz; by apply Hlocs)) as (c2 & -> & Hc2 & Hk2 & Ht2 & _ & Hs2); [by rewrite He1|]. cbn [mbind option_bind].
    destruct (IH c2 x loc b0 Hc2) as (c' & -> & Hc' & Hk' & (z & Hz) & Hp' & Hl'). exists c'. split; [done|].
    assert (Hk : kept c c2) by by eapply kept_trans. split_and!; try done; [by eapply kept_trans| | |].
    + exists z. rewrite Hz, Ht2, Ht1. by apply swap_perm.
    + intros Hp. apply Hp'. intros i y Hi. rewrite (kept_hashes c c2) by done. rewrite Ht2, Ht1 in Hi. apply (insert_place c loc e); try done. by destruct (Hlocs loc Hin).
    + intros b. assert (Hslot : slot c1 (Z.to_nat loc) b0 = Some b0).
      { assert (slots c1 !! Z.to_nat loc = Some (slot c1 (Z.to_nat loc) b0)) as Hq by (apply lookup_slots; by rewrite He1). rewrite Hs1 in Hq. congruence. }
      rewrite Hslot in Hs2. cbn in Hs2. pose proof (live_insert c c2 (Z.to_nat loc) (Some b0) (Some last_epoch) b Hs0 ltac:(by rewrite Hs2, Hs1)) as Hlive.
      rewrite (bool_decide_ext (Some last_epoch = Some b) (b = last_epoch)), (bool_decide_ext (Some b0 = Some b) (b = b0)) in Hlive by (split; congruence). specialize (Hl' b). lia.
Qed.

Lemma insert_ok (c : cuckoo) (e : E) : cuckoo_ok c ->
  exists c', insert hash_function c e = Some c' /\ cuckoo_ok c' /\ size c' = size c /\ epoch_size c' = epoch_size c /\ depth_limit c' = depth_limit c /\
    (exists x, table c' ++ [x] ≡ₚ table c ++ [e]) /\ (placed c -> placed c') /\ (load_ok c -> load_ok c').
Proof.
  intros Hc. unfold insert. destruct (epoch_check_ok c Hc) as (c0 & -> & Hc0 & Hz & He & Hd & Ht & Hload). cbn [mbind option_bind].
  assert (Hlocs : forall loc, loc ∈ hashes c0 e -> 0 <= loc < size c0) by (intros loc; by apply hashes_range).
  assert (exists c', (found ← find_element c0 e (hashes c0 e);
      match found with Some loc => c ← please_keep c0 loc; set_epoch c loc true | None => insert_loop hash_function (Z.to_nat (depth_limit c0)) c0 e invalid true (hashes c0 e) end)
      = Some c' /\ inserted c0 c' e true) as (c' & -> & Hc' & (Kz & Kc & Ke & Kd) & (x & Hx) & Hp & Hl).
  { destruct (find_element_ok c0 e (hashes c0 e) Hc0 Hlocs) as (r & -> & Hr). cbn [mbind option_bind]. destruct r as [loc|]; [|by apply insert_loop_ok].
    destruct Hr as [Hin Hloc]. destruct (keep_epoch_ok c0 loc true Hc0 (Hlocs _ Hin)) as (c1 & c' & -> & E2 & Hc' & Hk & Ht' & Hs'). cbn [mbind option_bind]. rewrite E2.
    exists c'. split; [done|]. split_and!; try done; [exists e; by rewrite Ht'| |].
    - intros Hp i y Hi. rewrite (kept_hashes c0 c') by done. rewrite Ht' in Hi. by apply Hp.
    - intros b. destruct (slot_free c0 loc Hc0 (Hlocs _ Hin)) as (f & b0 & _ & _ & Hs0). pose proof (live_insert c0 c' _ _ _ b Hs0 Hs') as Hlive.
      rewrite (bool_decide_ext (Some true = Some b) (b = true)) in Hlive by (split; congruence). lia. }
  exists c'. split; [done|]. split_and!; try done; try congruence.
  - exists x. by rewrite Hx, Ht.
  - intros Hp0. apply Hp. intros i y Hi. unfold compute_hashes. rewrite Hz. apply Hp0. by rewrite Ht in Hi.
  - intros L. destruct (Hload L) as [L1 L2]. pose proof (Hl true) as Ht1. pose proof (Hl false) as Ht2. rewrite bool_decide_eq_true_2 in Ht1 by done. rewrite bool_decide_eq_false_2 in Ht2 by done. cbn [Nat.b2n] in Ht1, Ht2. constructor; unfold epoch_bound in *; rewrite ?Kc, ?Ke, ?He; lia.
Qed.

Lemma contains_ok (c : cuckoo) (e : E) (erase : bool) : cuckoo_ok c ->
  exists hit c', contains hash_function c e erase = Some (hit, c') /\ cuckoo_ok c' /\ kept c c' /\ table c' = table c /\ (placed c -> placed c') /\ (load_ok c -> load_ok c') /\
    (hit = true -> e ∈ table c) /\ (e ∈ table c -> e <> Element -> placed c -> hit = true).
Proof.
  intros Hc. unfold contains. assert (Hlocs : forall loc, loc ∈ hashes c e -> 0 <= loc < size c) by (intros loc; by apply hashes_range).
  destruct (find_element_ok c e (hashes c e) Hc Hlocs) as (r & -> & Hr). cbn [mbind option_bind]. destruct r as [loc|].
  - destruct Hr as [Hin Hloc]. exists true. assert (Ht : e ∈ table c) by by eapply list_elem_of_lookup_2. destruct erase; cbn [mbind option_bind]; [|by exists c].
    destruct (allow_erase_ok c loc Hc (Hlocs _ Hin)) as (c' & -> & Hc' & Hk & Ht' & _ & Hs'). cbn [mbind option_bind]. exists c'. split_and!; try done.
    + intros Hp i y Hi. rewrite (kept_hashes c c') by done. rewrite Ht' in Hi. by apply Hp.
    + intros [L1 L2]. destruct Hk as (Kz & Kc & Ke & Kd). destruct (slot_free c loc Hc (Hlocs _ Hin)) as (f & b0 & _ & _ & Hs0).
      pose proof (live_insert c c' _ _ _ true Hs0 Hs') as La. pose proof (live_insert c c' _ _ _ false Hs0 Hs') as Lb.
      rewrite (bool_decide_eq_false_2 (None = Some true)) in La by done. rewrite (bool_decide_eq_false_2 (None = Some false)) in Lb by done. cbn [Nat.b2n] in La, Lb. constructor; unfold epoch_bound in *; rewrite ?Kc, ?Ke; lia.
  - exists false, c. split_and!; try done. intros Ht Hne Hp. exfalso. apply list_elem_of_lookup in Ht as [i Hi]. destruct (Hp i e Hi) as [|Hin]; [done|].
    apply (Hr _ Hin). by rewrite Nat2Z.id.
Qed.

Lemma setup_ok (n : Z) : 0 <= n -> n + 7 < 2 ^ 32 ->
  let c := fst (setup Element log2f cuckoo_new n) in
  cuckoo_ok c /\ placed c /\ load_ok c /\ size c = Z.max 2 n /\ table c = replicate (Z.to_nat (Z.max 2 n)) Element.
Proof.
  intros Hn Hmax c. assert (Ht : table c = replicate (Z.to_nat (Z.max 2 n)) Element) by (cbn; apply resize_nil).
  assert (Hok : cuckoo_ok c).
  { destruct (flags_new_set (Z.max 2 n) 0 ltac:(lia) ltac:(lia)) as [_ Hl]. constructor; cbn -[Z.mul Z.div]; rewrite ?length_resize; try done; unfold u32; lia. }
  assert (Hlive : forall b, live b c = 0%nat).
  { intros b. unfold live. destruct (filter _ (slots c)) as [|x l] eqn:Ef; [done|]. exfalso. assert (Hx : x ∈ filter (fun s => s = Some b) (slots c)) by (rewrite Ef; left).
    apply list_elem_of_filter in Hx as [-> Hx]. apply list_elem_of_lookup in Hx as [i Hi]. pose proof (lookup_lt_Some _ _ _ Hi) as Hlt. rewrite length_slots, (ok_epochs _ Hok) in Hlt.
    cbn in Hlt. destruct (slot_free c (Z.of_nat i) Hok ltac:(cbn; lia)) as (f & b0 & Hf & _ & Hs). rewrite Nat2Z.id in Hs. rewrite Hi in Hs.
    change (collection_flags c) with (flags_new (Z.max 2 n)) in Hf. rewrite (proj1 (flags_new_set (Z.max 2 n) (Z.of_nat i) ltac:(lia) ltac:(lia))) in Hf. by simplify_eq. }
  split_and!; try done.
  - intros i y Hi. left. rewrite Ht in Hi. by apply lookup_replicate_1 in Hi as [-> _].
  - constructor; rewrite Hlive; unfold epoch_bound; cbn -[Z.mul Z.div]; pose proof (ok_epoch_size _ Hok) as He; cbn -[Z.mul Z.div] in He; lia.
Qed.

(** ** Sequences of operations *)

Inductive cache_op := Insert (e : E) | Contains (e : E) (erase : bool).

(** An insertion answers nothing; [false] stands for it. *)
Definition cache_step (c : cuckoo) (op : cache_op) : option (bool * cuckoo) :=
  match op with
  | Insert e => c ← insert hash_function c e; Some (false, c)
  | Contains e erase => contains hash_function c e erase
  end.

Fixpoint cache_run (c : cuckoo) (ops : list cache_op) : option (list bool * cuckoo) :=
  match ops with
  | [] => Some ([], c)
  | op :: ops' => '(hit, c) ← cache_step c op; '(hits, c) ← cache_run c ops'; Some (hit :: hits, c)
  end.

(** A set that forgets: an insertion may drop one element, and a lookup tells exactly what is there; of the value of unused slots it may say anything true. *)
Inductive lossy_step : list E -> cache_op -> bool -> list E -> Prop :=
  | lossy_insert S e x S' : S' ++ [x] ≡ₚ S ++ [e] -> lossy_step S (Insert e) false S'
  | lossy_contains S e erase hit : (hit = true -> e ∈ S) -> (e ∈ S -> e <> Element -> hit = true) -> lossy_step S (Contains e erase) hit S.

Inductive lossy_run : list E -> list cache_op -> list bool -> list E -> Prop :=
  | lossy_nil S : lossy_run S [] [] S
  | lossy_cons S op hit S1 ops hits S2 : lossy_step S op hit S1 -> lossy_run S1 ops hits S2 -> lossy_run S (op :: ops) (hit :: hits) S2.

Lemma cache_run_ok (c : cuckoo) (ops : list cache_op) : cuckoo_ok c -> placed c -> load_ok c ->
  exists hits c', cache_run c ops = Some (hits, c') /\ cuckoo_ok c' /\ placed c' /\ load_ok c' /\ size c' = size c /\ epoch_size c' = epoch_size c /\
    lossy_run (table c) ops hits (table c').
Proof.
  revert c; induction ops as [|op ops IH]; intros c Hc Hp Hl; cbn [cache_run].
  - exists [], c. split_and!; try done. constructor.
  - assert (exists hit c1, cache_step c op = Some (hit, c1) /\ cuckoo_ok c1 /\ placed c1 /\ load_ok c1 /\ size c1 = size c /\ epoch_size c1 = epoch_size c /\
      lossy_step (table c) op hit (table c1)) as (hit & c1 & -> & Hc1 & Hp1 & Hl1 & Hz1 & He1 & Hs1).
    { destruct op as [e|e erase]; cbn [cache_step].
      - destruct (insert_ok c e Hc) as (c1 & -> & Hc1 & Hz1 & He1 & _ & (x & Hx) & Hp1 & Hl1). cbn [mbind option_bind]. exists false, c1. split_and!; auto. by apply (lossy_insert _ _ x).
      - destruct (contains_ok c e erase Hc) as (hit & c1 & -> & Hc1 & (Hz1 & _ & He1 & _) & Ht & Hp1 & Hl1 & H1 & H2). exists hit, c1. split_and!; auto.
        rewrite Ht. constructor; auto. }
    cbn [mbind option_bind]. destruct (IH c1 Hc1 Hp1 Hl1) as (hits & c' & -> & Hc' & Hp' & Hl' & Hz' & He' & Hs'). cbn [mbind option_bind].
    exists (hit :: hits), c'. split_and!; try done; try congruence. by econstructor.
Qed.

(** Nothing is ever found that was not inserted. *)
Lemma lossy_run_elem (S S' : list E) (ops : list cache_op) (hits : list bool) (e : E) : lossy_run S ops hits S' -> e ∈ S' -> e ∈ S \/ Insert e ∈ ops.
Proof.
  induction 1 as [S|S op hit S1 ops hits S2 Hstep _ IH]; intros He; [by left|]. destruct (IH He) as [H1|H1]; [|by right; right].
  destruct Hstep as [S e' x S1 Hx|S e' erase hit _ _]; [|by left].
  assert (e ∈ S ++ [e']) as [H2|H2]%elem_of_app by (rewrite <- Hx; apply elem_of_app; by left); [by left|]. apply list_elem_of_singleton in H2 as ->. right. left.
Qed.

(** C38: the cuckoo cache refines a set that forgets. After [setup], in every sequence of insertions and lookups no access is out of range, an insertion
    drops at most one element (an old one or the new one), and a lookup finds exactly the elements that are still there. *)
Theorem cuckoo_refines_lossy_set (n : Z) (ops : list cache_op) : 0 <= n -> n + 7 < 2 ^ 32 ->
  exists hits c', cache_run (fst (setup Element log2f cuckoo_new n)) ops = Some (hits, c') /\
    lossy_run (replicate (Z.to_nat (Z.max 2 n)) Element) ops hits (table c').
Proof.
  intros Hn Hmax. destruct (setup_ok n Hn Hmax) as (Hc & Hp & Hl & _ & Ht). destruct (cache_run_ok _ ops Hc Hp Hl) as (hits & c' & E' & _ & _ & _ & _ & _ & Hrun).
  exists hits, c'. by rewrite <- Ht.
Qed.

(** The load of the cuckoo cache stays bounded. As long as the size of an epoch is computed without overflow, the heuristic counter ages the epochs in
    time: after any sequence of insertions and lookups at most 96 percent of the slots (and a constant) are protected from being overwritten. *)
Theorem cuckoo_load (n : Z) (ops : list cache_op) (hits : list bool) (c : cuckoo) : 0 <= n -> 45 * n < 2 ^ 32 ->
  cache_run (fst (setup Element log2f cuckoo_new n)) ops = Some (hits, c) ->
  100 * Z.of_nat (live true c + live false c) <= 96 * size c + 600.
Proof.
  intros Hn Hmax Hrun. destruct (setup_ok n Hn ltac:(lia)) as (Hc & Hp & Hl & Hz & Ht).
  destruct (cache_run_ok _ ops Hc Hp Hl) as (hits' & c' & E' & Hc' & _ & [L1 L2] & Hz' & He' & _). rewrite Hrun in E'. injection E' as <- <-.
  pose proof (ok_counter _ Hc'). unfold epoch_bound in *. rewrite He' in *. rewrite Hz', Hz. cbn [setup fst epoch_size] in *. unfold u32 in *.
  rewrite (Z.mod_small (45 * Z.max 2 n)) in L1, L2 by lia. clear -Hn L1 L2 H. set (es := Z.max 1 (45 * Z.max 2 n / 100)) in *.
  assert (100 * es <= 45 * Z.max 2 n \/ es = 1) by (pose proof (Z.mul_div_le (45 * Z.max 2 n) 100); lia). pose proof (Z.mul_div_le es 16). lia.
Qed.
End CuckooProofs.

(** The size of an epoch is computed in 32 bits: for a cache of 95443718 elements it is one. *)
Lemma setup_epoch_wraps {E : Type} (Element : E) (log2f : Z -> Z) : epoch_size (fst (setup Element log2f cuckoo_new 95443718)) = 1.
Proof. done. Qed.

(** The flags of the largest cache that the class promises have no room. *)
Lemma flags_wrap : flags_new (2 ^ 32 - 2) = [].
Proof. done. Qed.

(** ** An example *)

Definition word_hash (i : nat) (e : Z) : Z := u32 (Z.shiftr e (32 * Z.of_nat i)).
Definition example_ops : list (cache_op (E := Z)) := [Insert 7; Contains 7 false; Contains 8 false; Insert (2 ^ 31); Contains (2 ^ 31) true; Contains 7 false].
Definition example_cache : cuckoo Z := fst (setup 0 (fun _ => 1) cuckoo_new 4).

Lemma cuckoo_refines_lossy_set_witness :
  4 + 7 < 2 ^ 32 /\ exists hits c', cache_run word_hash example_cache example_ops = Some (hits, c') /\ hits = [false; true; false; false; true; true] /\
    lossy_run 0 (replicate 4 0) example_ops hits (table c').
Proof.
  split; [lia|]. destruct (cuckoo_refines_lossy_set 0 word_hash (fun _ => 1) (fun i e => u32_range _) 4 example_ops ltac:(lia) ltac:(lia)) as (hits & c' & Hrun & Hl).
  exists hits, c'. split; [exact Hrun|]. split; [|exact Hl].
  assert (fst <$> cache_run word_hash example_cache example_ops = Some [false; true; false; false; true; true]) as Hq by (vm_compute; reflexivity).
  unfold example_cache in Hq. rewrite Hrun in Hq. by injection Hq.
Defined.

Lemma cuckoo_load_witness : exists hits c, cache_run word_hash example_cache example_ops = Some (hits, c) /\ 100 * Z.of_nat (live true c + live false c) <= 96 * size c + 600.
Proof.
  destruct (cache_run word_hash example_cache example_ops) as [[hits c]|] eqn:E; [|vm_compute in E; discriminate E]. exists hits, c. split; [done|].
  exact (cuckoo_load 0 word_hash (fun _ => 1) (fun i e => u32_range _) 4 example_ops hits c ltac:(lia) ltac:(lia) E).
Defined.
