(* ===== verification/SigCache.v ===== *)
(** * The signature cache: script/sigcache.cpp, script/sigcache.h, util/hasher.h

    [SignatureCache] keeps salted hashes of signatures that were found valid in a cuckoo cache; [CachingTransactionSignatureChecker] asks it before it
    verifies a signature. The nonce is an argument. Here a [uint256] is read as four-byte words in the order of its bytes. *)

From S2P Require Import Prelude Serialize ArithUint256 Chain Params Transaction Script TxVerify Sha256 Sha256Spec Hash Hash160 Interpreter Sighash VerifyScript InterpreterSpec InterpreterSafe SighashSpec SighashCache CuckooCache.
#[local] Open Scope Z_scope.

(** [SignatureCacheHasher] *)
Definition SignatureCacheHasher (hash_select : nat) (key : uint256) : Z := u32 (Z.shiftr key (32 * Z.of_nat hash_select)).

(** [SignatureCache] *)
Record SignatureCache := mkSignatureCache {
  m_salted_hasher_ecdsa : CSHA256;
  m_salted_hasher_schnorr : CSHA256;
  setValid : Cuckoo.cuckoo uint256
}.

Definition PADDING_ECDSA : list Z := 69 :: repeat 0 31.
Definition PADDING_SCHNORR : list Z := 83 :: repeat 0 31.

Definition SignatureCache_new (log2f : Z -> Z) (nonce : uint256) (max_size_bytes : Z) : SignatureCache :=
  mkSignatureCache (write_all new_hasher [ser fmt_uint256 nonce; PADDING_ECDSA]) (write_all new_hasher [ser fmt_uint256 nonce; PADDING_SCHNORR])
    (fst (Cuckoo.setup_bytes 0 log2f 32 Cuckoo.cuckoo_new max_size_bytes)).

Definition ComputeEntryECDSA (sc : SignatureCache) (hash : uint256) (vchSig pubkey : valtype) : uint256 :=
  writer_GetSHA256 (write_all (m_salted_hasher_ecdsa sc) [ser fmt_uint256 hash; pubkey; vchSig]).
Definition ComputeEntrySchnorr (sc : SignatureCache) (hash : uint256) (sig pubkey : valtype) : uint256 :=
  writer_GetSHA256 (write_all (m_salted_hasher_schnorr sc) [ser fmt_uint256 hash; pubkey; sig]).

Definition set_setValid (sc : SignatureCache) (c : Cuckoo.cuckoo uint256) : SignatureCache :=
  mkSignatureCache (m_salted_hasher_ecdsa sc) (m_salted_hasher_schnorr sc) c.

(** [Get] and [Set] *)
Definition cache_Get (sc : SignatureCache) (entry : uint256) (erase : bool) : option (bool * SignatureCache) :=
  '(hit, c) ← Cuckoo.contains SignatureCacheHasher (setValid sc) entry erase; Some (hit, set_setValid sc c).
Definition cache_Set (sc : SignatureCache) (entry : uint256) : option SignatureCache :=
  c ← Cuckoo.insert SignatureCacheHasher (setValid sc) entry; Some (set_setValid sc c).

Section Caching.
Context {HS : SignatureVerifier}.

(** Both virtual functions of [CachingTransactionSignatureChecker], for the entry and the answer of the function that they override. *)
Definition caching_verify (store : bool) (sc : SignatureCache) (entry : uint256) (verify : bool) : option (bool * SignatureCache) :=
  '(hit, sc) ← cache_Get sc entry (negb store);
  if (hit : bool) then Some (true, sc)
  else if negb verify then Some (false, sc)
  else if store then sc ← cache_Set sc entry; Some (true, sc)
  else Some (true, sc).

Definition caching_VerifyECDSASignature (store : bool) (sc : SignatureCache) (vchSig pubkey : valtype) (sighash : uint256) : option (bool * SignatureCache) :=
  caching_verify store sc (ComputeEntryECDSA sc sighash vchSig pubkey) (VerifyECDSASignature vchSig pubkey sighash).
Definition caching_VerifySchnorrSignature (store : bool) (sc : SignatureCache) (sig pubkey : valtype) (sighash : uint256) : option (bool * SignatureCache) :=
  caching_verify store sc (ComputeEntrySchnorr sc sighash sig pubkey) (VerifySchnorrSignature sig pubkey sighash).

(** [CachingTransactionSignatureChecker] *)
Record CachingTransactionSignatureChecker := mkCaching {
  caching_base : TransactionSignatureChecker;
  caching_store : bool;
  m_signature_cache : SignatureCache
}.

Definition caching_CheckECDSASignature (c : CachingTransactionSignatureChecker) (vchSigIn vchPubKey : valtype) (scriptCode : CScript) (sigversion : SigVersion) :
    result (bool * CachingTransactionSignatureChecker) :=
  '(request, base) ← ecdsa_request (caching_base c) vchSigIn vchPubKey scriptCode sigversion;
  match request with
  | None => Ret (false, mkCaching base (caching_store c) (m_signature_cache c))
  | Some (vchSig, pubkey, sighash) =>
      '(ok, sc) ← of_option (caching_VerifyECDSASignature (caching_store c) (m_signature_cache c) vchSig pubkey sighash);
      Ret (ok, mkCaching base (caching_store c) sc)
  end.

Definition caching_CheckSchnorrSignature (c : CachingTransactionSignatureChecker) (sig pubkey_in : valtype) (sigversion : SigVersion) (execdata : ScriptExecutionData) :
    result (ScriptExecutionData * CachingTransactionSignatureChecker) :=
  '(sig, pubkey, sighash, execdata) ← schnorr_request (caching_base c) sig pubkey_in sigversion execdata;
  '(ok, sc) ← of_option (caching_VerifySchnorrSignature (caching_store c) (m_signature_cache c) sig pubkey sighash);
  if (ok : bool) then Ret (execdata, mkCaching (caching_base c) (caching_store c) sc) else set_error SCRIPT_ERR_SCHNORR_SIG.

#[export] Instance caching_checker : BaseSignatureChecker CachingTransactionSignatureChecker := {
  CheckECDSASignature := caching_CheckECDSASignature;
  CheckSchnorrSignature := caching_CheckSchnorrSignature;
  CheckLockTime c := tx_CheckLockTime (caching_base c);
  CheckSequence c := tx_CheckSequence (caching_base c)
}.

(** ** The cache by itself *)

(** A signature check. *)
Inductive sig_request := ECDSA (vchSig pubkey : valtype) (sighash : uint256) | Schnorr (sig pubkey : valtype) (sighash : uint256).

Definition verify (r : sig_request) : bool :=
  match r with ECDSA sig key h => VerifyECDSASignature sig key h | Schnorr sig key h => VerifySchnorrSignature sig key h end.
Definition entry_of (sc : SignatureCache) (r : sig_request) : uint256 :=
  match r with ECDSA sig key h => ComputeEntryECDSA sc h sig key | Schnorr sig key h => ComputeEntrySchnorr sc h sig key end.

(** What the cache needs of its parts: the salt of the nonce, and a table in order. *)
Record sigcache_ok (nonce : uint256) (sc : SignatureCache) : Prop := {
  sc_ecdsa : m_salted_hasher_ecdsa sc = write_all new_hasher [ser fmt_uint256 nonce; PADDING_ECDSA];
  sc_schnorr : m_salted_hasher_schnorr sc = write_all new_hasher [ser fmt_uint256 nonce; PADDING_SCHNORR];
  sc_table : cuckoo_ok (setValid sc);
  sc_placed : placed 0 SignatureCacheHasher (setValid sc)
}.

Lemma hasher_u32 (i : nat) (key : uint256) : is_u32 (SignatureCacheHasher i key).
Proof. apply u32_range. Qed.

Lemma caching_verify_ok (nonce : uint256) (store : bool) (sc : SignatureCache) (entry : uint256) (v : bool) : sigcache_ok nonce sc ->
  exists ok sc', caching_verify store sc entry v = Some (ok, sc') /\ sigcache_ok nonce sc' /\ (ok = v \/ ok = true /\ entry ∈ Cuckoo.table (setValid sc)) /\
    (forall e, e ∈ Cuckoo.table (setValid sc') -> e ∈ Cuckoo.table (setValid sc) \/ store = true /\ v = true /\ e = entry) /\
    (store = false -> Cuckoo.table (setValid sc') = Cuckoo.table (setValid sc) /\ Cuckoo.size (setValid sc') = Cuckoo.size (setValid sc)).
Proof.
  intros [He Hs Ht Hp]. unfold caching_verify, cache_Get.
  destruct (contains_ok 0 SignatureCacheHasher hasher_u32 (setValid sc) entry (negb store) Ht) as (hit & c & -> & Hc & Hk & Et & Hp' & _ & Hhit & _).
  cbn [mbind option_bind]. destruct hit; [|destruct v; cbn [negb]; [destruct store|]].
  - eexists _, _. split; [done|]. split_and!; [constructor; cbn; auto|right; auto|intros e; cbn [set_setValid setValid]; rewrite Et; auto|intros _; split; [done|apply Hk]].
  - unfold cache_Set. cbn [set_setValid setValid].
    destruct (insert_ok 0 SignatureCacheHasher hasher_u32 c entry Hc) as (c' & -> & Hc' & _ & _ & _ & (x & Hx) & Hp'' & _). cbn [mbind option_bind].
    eexists _, _. split; [done|]. split_and!; [constructor; cbn; auto|by left| |done]. intros e Hin. cbn in Hin.
    assert (e ∈ Cuckoo.table c ++ [entry]) as [H|H%list_elem_of_singleton]%elem_of_app by (rewrite <- Hx; apply elem_of_app; by left); [left; by rewrite <- Et|by right].
  - eexists _, _. split; [done|]. split_and!; [constructor; cbn; auto|by left|intros e; cbn [set_setValid setValid]; rewrite Et; auto|intros _; split; [done|apply Hk]].
  - eexists _, _. split; [done|]. split_and!; [constructor; cbn; auto|by left|intros e; cbn [set_setValid setValid]; rewrite Et; auto|intros _; split; [done|apply Hk]].
Qed.

(** ** Entries *)

Definition padding (r : sig_request) : list Z := match r with ECDSA _ _ _ => PADDING_ECDSA | Schnorr _ _ _ => PADDING_SCHNORR end.
Definition signed_data (r : sig_request) : uint256 * list Z := match r with ECDSA sig key h => (h, key ++ sig) | Schnorr sig key h => (h, key ++ sig) end.

(** What the entry of a signature check is the hash of. *)
Definition preimage (nonce : uint256) (r : sig_request) : list Z :=
  ser fmt_uint256 nonce ++ padding r ++ ser fmt_uint256 (signed_data r).1 ++ (signed_data r).2.

Definition request_ok (r : sig_request) : Prop :=
  match r with
  | ECDSA sig key h => CPubKey_of key = Some key /\ 0 <= h < 2 ^ 256 /\ Z.of_nat (length sig) < 2 ^ 32
  | Schnorr sig key h => length key = 32%nat /\ 0 <= h < 2 ^ 256 /\ Z.of_nat (length sig) < 2 ^ 32
  end.

Lemma CPubKey_length (key : valtype) : CPubKey_of key = Some key -> exists b l, key = b :: l /\ length key = GetLen b /\ (length key <= 65)%nat.
Proof.
  unfold CPubKey_of. destruct key as [|b l]; [done|]. destruct (_ && _) eqn:E; [|done]. intros _. apply andb_true_iff in E as [_ E%Nat.eqb_eq]. exists b, l.
  split; [done|]. split; [done|]. rewrite <- E. unfold GetLen, COMPRESSED_SIZE, PUBKEY_SIZE. repeat case_match; lia.
Qed.

Lemma entry_preimage (nonce : uint256) (sc : SignatureCache) (r : sig_request) : sigcache_ok nonce sc -> request_ok r ->
  entry_of sc r = le_val (sha256 (preimage nonce r)).
Proof.
  intros [He Hs _ _] Hr.
  assert (Hwrite : forall p h key sig, length p = 32%nat -> Z.of_nat (length sig) < 2 ^ 32 -> (length key <= 65)%nat ->
    writer_GetSHA256 (write_all (write_all new_hasher [ser fmt_uint256 nonce; p]) [ser fmt_uint256 h; key; sig]) =
    le_val (sha256 (ser fmt_uint256 nonce ++ p ++ ser fmt_uint256 h ++ key ++ sig))).
  { intros p h key sig Hp Hsig Hkey. unfold writer_GetSHA256, write_all. rewrite <- fold_left_app. unfold new_hasher.
    rewrite (proj1 (Writes_hash (repeat 0 64) ([ser fmt_uint256 nonce; p] ++ [ser fmt_uint256 h; key; sig]) eq_refl ltac:(
      cbn [app concat]; rewrite !length_app, !length_uint256; cbn [length]; lia))).
    cbn [app concat]. by rewrite app_nil_r. }
  destruct r as [sig key h|sig key h]; cbn [entry_of preimage padding signed_data fst snd]; unfold ComputeEntryECDSA, ComputeEntrySchnorr.
  - destruct Hr as (Hk & Hh & Hl). apply CPubKey_length in Hk as (b & l & _ & _ & Hk). rewrite He. by apply Hwrite.
  - destruct Hr as (Hk & Hh & Hl). rewrite Hs. apply Hwrite; [done|done|lia].
Qed.

Lemma ser_uint256_inj (x y : Z) : 0 <= x < 2 ^ 256 -> 0 <= y < 2 ^ 256 -> ser fmt_uint256 x = ser fmt_uint256 y -> x = y.
Proof. intros Hx Hy E. apply (f_equal le_val) in E. change (le_val (le_bytes 32 x) = le_val (le_bytes 32 y)) in E. by rewrite !le_val_le_bytes in E. Qed.

(** Different checks have different preimages. *)
Lemma preimage_inj (nonce : uint256) (r1 r2 : sig_request) : request_ok r1 -> request_ok r2 -> preimage nonce r1 = preimage nonce r2 -> r1 = r2.
Proof.
  intros H1 H2 E. unfold preimage in E. apply app_inj_1 in E as [_ E]; [|done].
  assert (Hpad : forall r, length (padding r) = 32%nat) by by intros [].
  apply app_inj_1 in E as [Ep E]; [|by rewrite !Hpad]. apply app_inj_1 in E as [Eh Ed]; [|by rewrite !length_uint256].
  destruct r1 as [s1 k1 h1|s1 k1 h1], r2 as [s2 k2 h2|s2 k2 h2]; try discriminate Ep; cbn in Eh, Ed; destruct H1 as (K1 & B1 & _), H2 as (K2 & B2 & _);
    apply ser_uint256_inj in Eh as ->; try done.
  - apply CPubKey_length in K1 as (b1 & l1 & -> & L1 & _), K2 as (b2 & l2 & -> & L2 & _). cbn [app] in Ed. injection Ed as -> Ed.
    assert (length l1 = length l2) as Hl by (cbn [length] in L1, L2; lia). by apply app_inj_1 in Ed as [-> ->].
  - by apply app_inj_1 in Ed as [-> ->]; [|congruence].
Qed.

Lemma sha256_le_val_inj (m1 m2 : list Z) : le_val (sha256 m1) = le_val (sha256 m2) -> sha256 m1 = sha256 m2.
Proof. intros E. destruct (sha256_digest m1), (sha256_digest m2). apply le_val_inj; congruence || done. Qed.

Lemma sha256_zero (m : list Z) : le_val (sha256 m) = 0 -> sha256 m = repeat 0 32.
Proof.
  intros H. destruct (sha256_digest m) as [Hl Hu]. apply le_val_inj; [done|by apply List.Forall_forall; intros x ->%repeat_spec|by rewrite Hl|]. by rewrite H.
Qed.

(** ** Sequences of signature checks *)

Definition sig_step (store : bool) (sc : SignatureCache) (r : sig_request) : option (bool * SignatureCache) :=
  match r with
  | ECDSA sig key h => caching_VerifyECDSASignature store sc sig key h
  | Schnorr sig key h => caching_VerifySchnorrSignature store sc sig key h
  end.

Fixpoint sig_run (sc : SignatureCache) (l : list (bool * sig_request)) : option (list bool * SignatureCache) :=
  match l with
  | [] => Some ([], sc)
  | (store, r) :: l' => '(ok, sc) ← sig_step store sc r; '(oks, sc) ← sig_run sc l'; Some (ok :: oks, sc)
  end.

(** A check whose entry collides: with the value of unused slots, or with a valid check that was stored before. *)
Definition collides (nonce : uint256) (past : list (bool * sig_request)) (r : sig_request) : Prop :=
  sha256 (preimage nonce r) = repeat 0 32 \/
  exists r', (true, r') ∈ past /\ verify r' = true /\ preimage nonce r' <> preimage nonce r /\ sha256 (preimage nonce r') = sha256 (preimage nonce r).

(** Every entry of the table was made for a valid check. *)
Definition table_valid (nonce : uint256) (past : list (bool * sig_request)) (sc : SignatureCache) : Prop :=
  forall e, e ∈ Cuckoo.table (setValid sc) ->
    e = 0 \/ exists r, (true, r) ∈ past /\ verify r = true /\ request_ok r /\ e = le_val (sha256 (preimage nonce r)).

Lemma hit_collides (nonce : uint256) (past : list (bool * sig_request)) (sc : SignatureCache) (r : sig_request) :
  sigcache_ok nonce sc -> table_valid nonce past sc -> request_ok r -> entry_of sc r ∈ Cuckoo.table (setValid sc) -> verify r = true \/ collides nonce past r.
Proof.
  intros Hsc Ht Hr Hin. rewrite (entry_preimage nonce) in Hin by done. destruct (verify r) eqn:Ev; [by left|]. right. destruct (Ht _ Hin) as [H|(r' & Hp & Hv & Hr' & H)].
  - left. by apply sha256_zero.
  - right. exists r'. split_and!; [done..| |].
    + intros E. apply preimage_inj in E; [congruence|done..].
    + by apply sha256_le_val_inj.
Qed.

Lemma sig_step_ok (nonce : uint256) (past : list (bool * sig_request)) (store : bool) (sc : SignatureCache) (r : sig_request) :
  sigcache_ok nonce sc -> table_valid nonce past sc -> request_ok r ->
  exists ok sc', sig_step store sc r = Some (ok, sc') /\ sigcache_ok nonce sc' /\ table_valid nonce (past ++ [(store, r)]) sc' /\ (ok = verify r \/ collides nonce past r).
Proof.
  intros Hsc Ht Hr. destruct (caching_verify_ok nonce store sc (entry_of sc r) (verify r) Hsc) as (ok & sc' & E & Hsc' & Ha & He & _).
  exists ok, sc'. split; [by destruct r|]. split; [done|]. split.
  - intros e Hin. destruct (He e Hin) as [H|(-> & Hv & ->)].
    + destruct (Ht e H) as [->|(r' & Hp & Hr')]; [by left|]. right. exists r'. split; [by apply elem_of_app; left|done].
    + right. exists r. split_and!; [apply elem_of_app; right; by left|done|done|by apply entry_preimage].
  - destruct Ha as [->|[-> Hin]]; [by left|]. destruct (hit_collides nonce past sc r) as [<-|]; auto.
Qed.

Lemma sig_run_ok (nonce : uint256) (past l : list (bool * sig_request)) (sc : SignatureCache) :
  sigcache_ok nonce sc -> table_valid nonce past sc -> Forall (fun x => request_ok x.2) l ->
  exists oks sc', sig_run sc l = Some (oks, sc') /\ sigcache_ok nonce sc' /\ table_valid nonce (past ++ l) sc' /\ length oks = length l /\
    forall i store r ok, l !! i = Some (store, r) -> oks !! i = Some ok -> ok = verify r \/ collides nonce (past ++ take i l) r.
Proof.
  revert past sc; induction l as [|[store r] l IH]; intros past sc Hsc Ht Hl; cbn [sig_run].
  { exists [], sc. rewrite app_nil_r. by split_and!. }
  apply Forall_cons in Hl as [Hr Hl]. destruct (sig_step_ok nonce past store sc r Hsc Ht Hr) as (ok & sc1 & -> & Hsc1 & Ht1 & Hok). cbn [mbind option_bind].
  destruct (IH _ sc1 Hsc1 Ht1 Hl) as (oks & sc' & -> & Hsc' & Ht' & Hlen & Hall). cbn [mbind option_bind]. exists (ok :: oks), sc'. split; [done|]. split; [done|].
  split; [by rewrite <- app_assoc in Ht'|]. split; [cbn; by rewrite Hlen|]. intros [|i] store' r' ok' Hi Ho; cbn in Hi, Ho.
  - simplify_eq. cbn. by rewrite app_nil_r.
  - specialize (Hall i store' r' ok' Hi Ho). by rewrite <- app_assoc in Hall.
Qed.

Lemma SignatureCache_new_ok (log2f : Z -> Z) (nonce : uint256) (bytes : Z) : 0 <= bytes < 2 ^ 36 ->
  let sc := SignatureCache_new log2f nonce bytes in sigcache_ok nonce sc /\ table_valid nonce [] sc.
Proof.
  intros Hb. unfold SignatureCache_new, Cuckoo.setup_bytes. assert (0 <= bytes / 32 < 2 ^ 31) by (split; [apply Z.div_pos; lia|apply Z.div_lt_upper_bound; lia]).
  rewrite Z.min_l by lia. unfold u32. rewrite Z.mod_small by lia.
  destruct (setup_ok 0 SignatureCacheHasher log2f (bytes / 32) ltac:(lia) ltac:(lia)) as (Hc & Hp & _ & _ & Ht).
  destruct (Cuckoo.setup 0 log2f Cuckoo.cuckoo_new (bytes / 32)) as [c n]. cbn [fst] in *. split; [by constructor|].
  intros e Hin. left. cbn [setValid] in Hin. rewrite Ht in Hin. apply list_elem_of_lookup in Hin as [i Hi]. by apply lookup_replicate_1 in Hi as [-> _].
Qed.

(** C39: the signature cache answers for signatures that were verified. On a new cache (of less than 64 GiB), in every sequence of signature checks, with
    results stored or not, the answer to each check is that of the verification itself, whatever was evicted, unless SHA-256 maps the data of the check
    to the same entry as that of an earlier, different and valid check, or to zero. *)
Theorem signature_cache_sound (log2f : Z -> Z) (nonce : uint256) (bytes : Z) (l : list (bool * sig_request)) :
  0 <= bytes < 2 ^ 36 -> Forall (fun x => request_ok x.2) l ->
  exists oks sc, sig_run (SignatureCache_new log2f nonce bytes) l = Some (oks, sc) /\ length oks = length l /\
    forall i store r ok, l !! i = Some (store, r) -> oks !! i = Some ok -> ok = verify r \/ collides nonce (take i l) r.
Proof.
  intros Hb Hl. destruct (SignatureCache_new_ok log2f nonce bytes Hb) as [Hsc Ht].
  destruct (sig_run_ok nonce [] l _ Hsc Ht Hl) as (oks & sc & E & _ & _ & Hlen & Hall). by exists oks, sc.
Qed.

(** ** Checks that store nothing *)

(** What the cache finds without changing anything. *)
Definition in_table (sc : SignatureCache) (entry : uint256) : bool :=
  match Cuckoo.find_element (setValid sc) entry (Cuckoo.compute_hashes SignatureCacheHasher (setValid sc) entry) with Some (Some _) => true | _ => false end.

(** The verifier that a cache amounts to as long as nothing is stored. *)
Definition cached_verifier (sc : SignatureCache) : SignatureVerifier := {|
  VerifyECDSASignature sig key h := in_table sc (ComputeEntryECDSA sc h sig key) || VerifyECDSASignature sig key h;
  VerifySchnorrSignature sig key h := in_table sc (ComputeEntrySchnorr sc h sig key) || VerifySchnorrSignature sig key h
|}.

(** Caches with the same salt and elements. *)
Definition same_elements (sc sc' : SignatureCache) : Prop :=
  m_salted_hasher_ecdsa sc' = m_salted_hasher_ecdsa sc /\ m_salted_hasher_schnorr sc' = m_salted_hasher_schnorr sc /\
  Cuckoo.table (setValid sc') = Cuckoo.table (setValid sc) /\ Cuckoo.size (setValid sc') = Cuckoo.size (setValid sc).

Lemma same_elements_trans (sc1 sc2 sc3 : SignatureCache) : same_elements sc1 sc2 -> same_elements sc2 sc3 -> same_elements sc1 sc3.
Proof. intros (? & ? & ? & ?) (? & ? & ? & ?). unfold same_elements. split_and!; congruence. Qed.

Lemma find_element_table (c c' : Cuckoo.cuckoo uint256) (e : uint256) (locs : list Z) :
  Cuckoo.table c' = Cuckoo.table c -> Cuckoo.find_element c' e locs = Cuckoo.find_element c e locs.
Proof. intros E. induction locs as [|loc locs IH]; cbn [Cuckoo.find_element]; [done|]. by rewrite E, IH. Qed.

Lemma same_in_table (sc sc' : SignatureCache) (e : uint256) : same_elements sc sc' -> in_table sc' e = in_table sc e.
Proof. intros (_ & _ & Ht & Hs). unfold in_table. rewrite (find_element_table _ _ _ _ Ht). unfold Cuckoo.compute_hashes. by rewrite Hs. Qed.

Lemma in_table_elem (sc : SignatureCache) (e : uint256) : in_table sc e = true -> e ∈ Cuckoo.table (setValid sc).
Proof. unfold in_table. destruct (Cuckoo.find_element _ _ _) as [[loc|]|] eqn:Ef; try done. intros _. by eapply find_element_elem. Qed.

Lemma cached_verifier_ok (nonce : uint256) (past : list (bool * sig_request)) (sc : SignatureCache) (r : sig_request) :
  sigcache_ok nonce sc -> table_valid nonce past sc -> request_ok r ->
  match r with ECDSA sig key h => in_table sc (ComputeEntryECDSA sc h sig key) | Schnorr sig key h => in_table sc (ComputeEntrySchnorr sc h sig key) end || verify r = true ->
  verify r = true \/ collides nonce past r.
Proof. intros Hsc Ht Hr [H|H]%orb_true_iff; [|by left]. apply (hit_collides nonce past sc); try done. by destruct r; apply in_table_elem in H. Qed.

Lemma caching_verify_reads (nonce : uint256) (sc : SignatureCache) (entry : uint256) (v : bool) : sigcache_ok nonce sc ->
  exists sc', caching_verify false sc entry v = Some (in_table sc entry || v, sc') /\ sigcache_ok nonce sc' /\ same_elements sc sc'.
Proof.
  intros Hsc. pose proof Hsc as [He Hs Ht Hp]. unfold caching_verify, cache_Get, in_table, Cuckoo.contains.
  assert (Hlocs : forall loc, loc ∈ Cuckoo.compute_hashes SignatureCacheHasher (setValid sc) entry -> 0 <= loc < Cuckoo.size (setValid sc))
    by (intros loc; apply (hashes_range _ hasher_u32); exact Ht).
  destruct (find_element_ok (setValid sc) entry _ Ht Hlocs) as (r & -> & Hr). cbn [mbind option_bind negb]. destruct r as [loc|].
  - destruct Hr as [Hin _]. destruct (allow_erase_ok (setValid sc) loc Ht (Hlocs loc Hin)) as (c & -> & Hc & Hk & Et & _ & _). cbn [mbind option_bind orb].
    eexists. split; [done|]. destruct Hk as (Kz & _). split; [constructor; cbn; try done|by split_and!].
    intros i y Hi. unfold Cuckoo.compute_hashes. rewrite Kz. apply Hp. by rewrite <- Et.
  - cbn [mbind option_bind orb]. exists sc. destruct sc. by destruct v.
Qed.

(** The checker with the cache, and the plain checker with the verifier that the cache amounts to. *)
Definition caching_sim (nonce : uint256) (sc : SignatureCache) (c1 : CachingTransactionSignatureChecker) (c2 : TransactionSignatureChecker) : Prop :=
  caching_base c1 = c2 /\ caching_store c1 = false /\ sigcache_ok nonce (m_signature_cache c1) /\ same_elements sc (m_signature_cache c1).

Lemma caching_checkers_sim (nonce : uint256) (sc : SignatureCache) (sv : SigVersion) :
  checkers_sim (H1 := caching_checker) (H2 := transaction_checker (HS := cached_verifier sc)) sv (caching_sim nonce sc).
Proof.
  split.
  - intros [base store sc1] c2 sig key code (Eb & Es & Hsc & Hsame). cbn [caching_base caching_store m_signature_cache] in *. subst c2 store.
    apply sim_step. intros [[[[sig' key'] h]|] c']; [|by split]. destruct (caching_verify_reads nonce sc1 (ComputeEntryECDSA sc1 h sig' key') (VerifyECDSASignature sig' key' h) Hsc)
      as (sc2 & E & Hsc2 & Hsame2). unfold caching_VerifyECDSASignature. cbn [caching_store m_signature_cache]. rewrite E. cbn [of_option mbind result_bind sim fst snd].
    pose proof Hsame as (S1 & S2 & _). split; [|split; [done|]; split; [done|]; split; [done|]; by apply (same_elements_trans _ sc1)].
    rewrite (same_in_table sc sc1) by done. cbn [cached_verifier]. cbn. unfold ComputeEntryECDSA. by rewrite S1.
  - intros [base store sc1] c2 sig key d (Eb & Es & Hsc & Hsame). cbn [caching_base caching_store m_signature_cache] in *. subst c2 store.
    apply sim_step. intros [[[sig' key'] h] d']. destruct (caching_verify_reads nonce sc1 (ComputeEntrySchnorr sc1 h sig' key') (VerifySchnorrSignature sig' key' h) Hsc)
      as (sc2 & E & Hsc2 & Hsame2). unfold caching_VerifySchnorrSignature. cbn [caching_store m_signature_cache]. rewrite E. cbn [of_option mbind result_bind].
    pose proof Hsame as (S1 & S2 & _). rewrite (same_in_table sc sc1) by done.
    replace (ComputeEntrySchnorr sc1 h sig' key') with (ComputeEntrySchnorr sc h sig' key') by (unfold ComputeEntrySchnorr; by rewrite S2).
    apply (sim_if _ (in_table sc (ComputeEntrySchnorr sc h sig' key') || VerifySchnorrSignature sig' key' h)); [|done]. split; [done|]. split; [done|]; split; [done|]; split; [done|]; by apply (same_elements_trans _ sc1).
  - by intros c1 c2 n (<- & _).
  - by intros c1 c2 n (<- & _).
Qed.

(** A verification that stores nothing ends as the verification with that verifier. *)
Lemma VerifyScript_caching (CheckLowS : list Z -> bool) (CheckTapTweak : list Z -> list Z -> uint256 -> bool -> bool) (nonce : uint256) (sc : SignatureCache)
    (scriptSig scriptPubKey : CScript) (witness : list valtype) (flags : Z) (c : TransactionSignatureChecker) : sigcache_ok nonce sc ->
  outcome (VerifyScript (HC := caching_checker) CheckLowS CheckTapTweak scriptSig scriptPubKey witness flags (mkCaching c false sc)) =
  outcome (VerifyScript (HC := transaction_checker (HS := cached_verifier sc)) CheckLowS CheckTapTweak scriptSig scriptPubKey witness flags c).
Proof.
  intros Hsc. pose proof (VerifyScript_sim (H1 := caching_checker) (H2 := transaction_checker (HS := cached_verifier sc)) CheckLowS CheckTapTweak
    (fun _ => caching_sim nonce sc) (caching_checkers_sim nonce sc) scriptSig scriptPubKey witness flags (mkCaching c false sc) c) as H.
  specialize (H ltac:(intros sv; by split_and!)).
  destruct (VerifyScript (HC := caching_checker) _ _ _ _ _ _ _), (VerifyScript (HC := transaction_checker) _ _ _ _ _ _ _); cbn in *; by try congruence.
Qed.
End Caching.

(** ** An example *)

(** A verifier that accepts signatures of one byte. *)
Definition byte_verifier : SignatureVerifier :=
  {| VerifyECDSASignature sig _ _ := (length sig =? 1)%nat; VerifySchnorrSignature sig _ _ := (length sig =? 1)%nat |}.
Definition example_requests : list (bool * sig_request) :=
  [(true, ECDSA [1] (2 :: repeat 7 32) 5); (false, ECDSA [1] (2 :: repeat 7 32) 5); (true, Schnorr [1] (repeat 7 32) 5); (true, ECDSA [] (2 :: repeat 7 32) 5)].

Lemma signature_cache_sound_witness :
  Forall (fun x => request_ok x.2) example_requests /\
  exists oks sc, sig_run (HS := byte_verifier) (SignatureCache_new (fun _ => 2) 9 128) example_requests = Some (oks, sc) /\ oks = [true; true; true; false] /\
    forall ok, oks !! 1%nat = Some ok -> ok = true \/ collides (HS := byte_verifier) 9 (take 1 example_requests) (ECDSA [1] (2 :: repeat 7 32) 5).
Proof.
  assert (H : Forall (fun x => request_ok x.2) example_requests) by (repeat constructor; cbn; lia). split; [exact H|].
  destruct (signature_cache_sound (HS := byte_verifier) (fun _ => 2) 9 128 example_requests ltac:(lia) H) as (oks & sc & Hrun & _ & Hall). exists oks, sc.
  split; [exact Hrun|]. split; [|intros ok; exact (Hall 1%nat false _ ok eq_refl)].
  assert (fst <$> sig_run (HS := byte_verifier) (SignatureCache_new (fun _ => 2) 9 128) example_requests = Some [true; true; true; false]) as Hq by (vm_compute; reflexivity).
  rewrite Hrun in Hq. by injection Hq.
Defined.
