(* ===== verification/ConnectBlock.v ===== *)
(** * Connecting and disconnecting blocks: the chain state part of validation.cpp, and undo.h

    [ConnectBlock] applies a block to the coins cache with all the checks that need the coins, and [DisconnectBlock] takes it back with the
    undo data. Script execution is a parameter ([VerifyScript], which BlockScripts.v instantiates), and so are the script execution cache and the disk ([undo_written]). The
    pointer [pindex] is the hash of the block in the index. [None] is a failed assertion, an exception or a null dereference. *)

From stdpp Require Import pretty.
From S2P Require Import Prelude ValidationState Serialize ArithUint256 Chain Params Pow Subsidy Transaction Script.
From S2P Require Import TxCheck Coins TxVerify Merkle Sha256 Sha256Spec Hash Block.
#[local] Open Scope Z_scope.

(** ** Constants *)

Definition BLOCK_VALID_SCRIPTS : Z := 5.
Definition BLOCK_HAVE_UNDO : Z := 16.
Definition BIP34_IMPLIES_BIP30_LIMIT : Z := 1983702.
Definition TWO_WEEKS_IN_SECONDS : Z := 60 * 60 * 24 * 7 * 2.

(** [STANDARD_NOT_MANDATORY_VERIFY_FLAGS] (policy/policy.h): the standard flags that are not mandatory. *)
Definition MANDATORY_SCRIPT_VERIFY_FLAGS : Z :=
  foldr Z.lor 0 [SCRIPT_VERIFY_P2SH; SCRIPT_VERIFY_DERSIG; SCRIPT_VERIFY_NULLDUMMY; SCRIPT_VERIFY_CHECKLOCKTIMEVERIFY;
                 SCRIPT_VERIFY_CHECKSEQUENCEVERIFY; SCRIPT_VERIFY_WITNESS; SCRIPT_VERIFY_TAPROOT].
Definition STANDARD_SCRIPT_VERIFY_FLAGS : Z :=
  Z.lor MANDATORY_SCRIPT_VERIFY_FLAGS (foldr (fun bit acc => Z.lor (Z.shiftl 1 bit) acc) 0 [1; 6; 7; 8; 13; 14; 3; 12; 15; 16; 18; 19; 20]).
Definition STANDARD_NOT_MANDATORY_VERIFY_FLAGS : Z := Z.ldiff STANDARD_SCRIPT_VERIFY_FLAGS MANDATORY_SCRIPT_VERIFY_FLAGS.

(** [DeploymentActiveAt] for buried deployments (deploymentstatus.h). *)
Definition DeploymentActiveAt (index : CBlockIndex) (p : Params) (dep : BuriedDeployment) : bool := DeploymentHeight p dep <=? nHeight index.

(** The blocks of Bitcoin that repeat a coinbase, and those they overwrite. *)
Definition IsBIP30Repeat (index : CBlockIndex) (hash : uint256) : bool :=
  ((nHeight index =? 91842) && (hash =? 0x00000000000a4d0a398161ffc163c503763b1f4360639393e0e4c8e300e0caec)) ||
  ((nHeight index =? 91880) && (hash =? 0x00000000000743f190a18c5577a3c2d2a1f610ae9601ac046a38084ccb7cd721)).
Definition IsBIP30Unspendable (hash : uint256) (height : Z) : bool :=
  ((height =? 91722) && (hash =? 0x00000000000271a2dc26e7667f8419f2e15416dc6955e5a6c6cdf3f2574dd08e)) ||
  ((height =? 91812) && (hash =? 0x00000000000af0aed4792b1acee3d966af36cf5def14935db8de83d6f9306f2f)).

Definition GetBlockScriptFlags (index : CBlockIndex) (hash : uint256) (p : Params) : Z :=
  let flags := Z.lor (Z.lor SCRIPT_VERIFY_P2SH SCRIPT_VERIFY_WITNESS) SCRIPT_VERIFY_TAPROOT in
  let flags := default flags (script_flag_exceptions p !! hash) in
  let flags := if DeploymentActiveAt index p DEPLOYMENT_DERSIG then Z.lor flags SCRIPT_VERIFY_DERSIG else flags in
  let flags := if DeploymentActiveAt index p DEPLOYMENT_CLTV then Z.lor flags SCRIPT_VERIFY_CHECKLOCKTIMEVERIFY else flags in
  let flags := if DeploymentActiveAt index p DEPLOYMENT_CSV then Z.lor flags SCRIPT_VERIFY_CHECKSEQUENCEVERIFY else flags in
  if DeploymentActiveAt index p DEPLOYMENT_SEGWIT then Z.lor flags SCRIPT_VERIFY_NULLDUMMY else flags.

(** Undo data: the coins that each transaction but the coinbase spent. *)
Definition CTxUndo : Type := list Coin.
Definition CBlockUndo : Type := list CTxUndo.

Inductive DisconnectResult := DISCONNECT_OK | DISCONNECT_UNCLEAN | DISCONNECT_FAILED.

#[export] Instance DisconnectResult_eq_dec : EqDecision DisconnectResult.
Proof. solve_decision. Defined.

(** A script check: the output, the transaction and the input that spends it, the flags, whether signatures are cached, and the outputs that
    the whole transaction spends ([txdata]). *)
Record CScriptCheck := mkCheck {
  m_tx_out : CTxOut;
  ptxTo : CTransaction;
  nIn : nat;
  m_flags : Z;
  cacheStore : bool;
  txdata : list CTxOut
}.

(** The script execution cache ([CuckooCache::cache]): [contains] may mark an entry for removal. *)
Class ScriptCache (K : Type) := {
  contains : K -> uint256 -> bool -> bool * K;
  insert_entry : K -> uint256 -> K
}.

(** [known] bounds what a cache finds: a lookup finds only what is known, and afterwards no more is known; an insertion adds no more than its entry. *)
Record cache_knows {K : Type} {HK : ScriptCache K} (known : K -> uint256 -> Prop) : Prop := {
  contains_known : forall k e erase, fst (contains k e erase) = true -> known k e;
  contains_keeps : forall k e erase e', known (snd (contains k e erase)) e' -> known k e';
  insert_keeps : forall k e e', known (insert_entry k e) e' -> known k e' \/ e' = e
}.

Record ValidationCache (K : Type) := mkValidationCache {
  m_script_execution_cache_hasher : CSHA256;
  m_script_execution_cache : K
}.
Arguments mkValidationCache {_}.
Arguments m_script_execution_cache_hasher {_}.
Arguments m_script_execution_cache {_}.

(** The constructor: the hasher starts with one block of salt. *)
Definition new_ValidationCache {K : Type} (nonce : uint256) (empty : K) : ValidationCache K :=
  mkValidationCache (CSHA256_Write (CSHA256_Write new_hasher (ser fmt_uint256 nonce)) (ser fmt_uint256 nonce)) empty.

Definition set_script_cache {K : Type} (vc : ValidationCache K) (k : K) : ValidationCache K :=
  mkValidationCache (m_script_execution_cache_hasher vc) k.

(** The key of a transaction in the cache. *)
Definition hashCacheEntry {K : Type} (vc : ValidationCache K) (tx : CTransaction) (flags : Z) : uint256 :=
  le_val (snd (CSHA256_Finalize (CSHA256_Write (CSHA256_Write (m_script_execution_cache_hasher vc) (ser fmt_uint256 (ComputeWitnessHash tx)))
    (ser fmt_u64 flags)))).

(** What the configuration and the environment of a chain state provide. *)
Record ChainstateOptions := mkOptions {
  AssumedValidBlock : uint256;
  MinimumChainWork : arith_uint256;
  HasThreads : bool
}.

Section ConnectBlock.
Context {B : Type} {HV : CoinsView B}.
#[local] Abbreviation cache := (CCoinsViewCache B).

(** ** Transactions *)

(** The inputs of [UpdateCoins]. *)
Fixpoint spend_inputs (inputs : cache) (ins : list CTxIn) : option (cache * CTxUndo) :=
  match ins with
  | [] => Some (inputs, [])
  | i :: ins' =>
      let '(inputs, r) := SpendCoin inputs (prevout i) in
      undo ← r;
      '(inputs, undos) ← spend_inputs inputs ins';
      Some (inputs, undo :: undos)
  end.

Definition UpdateCoins (tx : CTransaction) (inputs : cache) (nHeight : Z) : option (cache * CTxUndo) :=
  '(inputs, txundo) ← (if IsCoinBase tx then Some (inputs, []) else spend_inputs inputs (vin tx));
  inputs ← AddCoins inputs (ComputeHash tx) tx nHeight false;
  Some (inputs, txundo).

(** [ApplyTxInUndo]: restores one coin. *)
Definition ApplyTxInUndo (undo : Coin) (view : cache) (o : COutPoint) : option (cache * DisconnectResult) :=
  let '(view, have) := HaveCoin view o in
  let fClean := negb have in
  let '(view, undo) :=
    if coin_nHeight undo =? 0 then
      let '(view, alternate) := AccessByTxid view (op_hash o) in
      (view, if IsSpent alternate then None else Some (mkCoin (out undo) (fCoinBase alternate) (coin_nHeight alternate)))
    else (view, Some undo) in
  match undo with
  | None => Some (view, DISCONNECT_FAILED)
  | Some undo => view ← AddCoin view o undo (negb fClean); Some (view, if fClean then DISCONNECT_OK else DISCONNECT_UNCLEAN)
  end.

(** The outputs of a transaction that is taken back; whether all matched. *)
Fixpoint remove_outputs (view : cache) (txid : uint256) (is_coinbase is_bip30_exception : bool) (height : Z) (o : nat) (outs : list CTxOut)
    (fClean : bool) : cache * bool :=
  match outs with
  | [] => (view, fClean)
  | x :: outs' =>
      if IsUnspendable (scriptPubKey x) then remove_outputs view txid is_coinbase is_bip30_exception height (S o) outs' fClean
      else
        let '(view, r) := SpendCoin view (mkOutPoint txid (Z.of_nat o)) in
        let matches := match r with
                       | None => false
                       | Some coin => bool_decide (x = out coin) && (height =? coin_nHeight coin) && Bool.eqb is_coinbase (fCoinBase coin)
                       end in
        remove_outputs view txid is_coinbase is_bip30_exception height (S o) outs' (fClean && (matches || is_bip30_exception))
  end.

(** The inputs of a transaction that is taken back, last first: the lists come reversed. *)
Fixpoint restore_inputs (view : cache) (ins : list CTxIn) (undos : list Coin) (fClean : bool) : option (cache * option bool) :=
  match ins, undos with
  | i :: ins', undo :: undos' =>
      '(view, res) ← ApplyTxInUndo undo view (prevout i);
      match res with
      | DISCONNECT_FAILED => Some (view, None)
      | _ => restore_inputs view ins' undos' (fClean && negb (bool_decide (res = DISCONNECT_UNCLEAN)))
      end
  | [], _ => Some (view, Some fClean)
  | _ :: _, [] => None
  end.

(** The transactions of a block in reverse order, each but the coinbase with its undo data; [None] for the flag is a failure. *)
Fixpoint disconnect_loop (view : cache) (fEnforceBIP30 : bool) (height : Z) (txs : list (CTransaction * option CTxUndo)) (fClean : bool)
  : option (cache * option bool) :=
  match txs with
  | [] => Some (view, Some fClean)
  | (tx, undo) :: txs' =>
      let is_coinbase := IsCoinBase tx in
      let '(view, fClean) :=
        remove_outputs view (ComputeHash tx) is_coinbase (is_coinbase && negb fEnforceBIP30) height 0 (vout tx) fClean in
      '(view, clean) ←
        (match undo with
         | None => Some (view, Some fClean)
         | Some txundo =>
             if negb (length txundo =? length (vin tx))%nat then Some (view, None)
             else restore_inputs view (rev (vin tx)) (rev txundo) fClean
         end);
      match clean with
      | None => Some (view, None)
      | Some fClean => disconnect_loop view fEnforceBIP30 height txs' fClean
      end
  end.

(** [DisconnectBlock]; [undo] is what [ReadBlockUndo] read. *)
Definition DisconnectBlock (m : BlockMap) (b : CBlock) (pindex : uint256) (undo : option CBlockUndo) (view : cache)
  : option (cache * DisconnectResult) :=
  index ← m !! pindex;
  match undo with
  | None => Some (view, DISCONNECT_FAILED)
  | Some vtxundo =>
      if negb (length vtxundo + 1 =? length (vtx b))%nat then Some (view, DISCONNECT_FAILED)
      else
        let fEnforceBIP30 := negb (IsBIP30Unspendable pindex (nHeight index)) in
        '(view, clean) ← disconnect_loop view fEnforceBIP30 (nHeight index) (rev (zip (vtx b) (None :: map Some vtxundo))) true;
        match clean with
        | None => Some (view, DISCONNECT_FAILED)
        | Some fClean =>
            prev ← pprev index;
            Some (SetBestBlock view prev, if (fClean : bool) then DISCONNECT_OK else DISCONNECT_UNCLEAN)
        end
  end.

(** ** Scripts *)

Context {K : Type} {HK : ScriptCache K}.

(** [VerifyScript] of script/interpreter.cpp with the caching signature checker: [None] on success, otherwise the text of the error. The
    checker sees the transaction, the input, the amount and the outputs that the transaction spends. *)
Context (VerifyScript : CScript -> CScript -> list (list Z) -> Z -> CTransaction -> nat -> Z -> bool -> list CTxOut -> option string).

(** [CScriptCheck::operator()]: the error and the debug text, if the check fails. *)
Definition run_check (check : CScriptCheck) : option (option (string * string)) :=
  i ← vin (ptxTo check) !! nIn check;
  match VerifyScript (scriptSig i) (scriptPubKey (m_tx_out check)) (scriptWitness i) (m_flags check)
          (ptxTo check) (nIn check) (nValue (m_tx_out check)) (cacheStore check) (txdata check) with
  | None => Some None
  | Some error =>
      Some (Some (error, "input " +:+ pretty (nIn check) +:+ " of " +:+ uint256_ToString (ComputeHash (ptxTo check)) +:+
        " (wtxid " +:+ uint256_ToString (ComputeWitnessHash (ptxTo check)) +:+ "), spending " +:+
        uint256_ToString (op_hash (prevout i)) +:+ ":" +:+ pretty (op_n (prevout i))))
  end.

(** The outputs that a transaction spends, as [CheckInputScripts] looks them up. *)
Fixpoint spent_outputs (inputs : cache) (ins : list CTxIn) : option (cache * list CTxOut) :=
  match ins with
  | [] => Some (inputs, [])
  | i :: ins' =>
      let '(inputs, coin) := AccessCoin inputs (prevout i) in
      if IsSpent coin then None
      else '(inputs, outs) ← spent_outputs inputs ins'; Some (inputs, out coin :: outs)
  end.

Definition script_checks (tx : CTransaction) (flags : Z) (cacheSigStore : bool) (outs : list CTxOut) : list CScriptCheck :=
  imap (fun i o => mkCheck o tx i flags cacheSigStore outs) outs.

(** The checks in order, up to the first that fails. *)
Fixpoint run_checks (checks : list CScriptCheck) : option (option (string * string)) :=
  match checks with
  | [] => Some None
  | check :: checks' => r ← run_check check; match r with None => run_checks checks' | Some e => Some (Some e) end
  end.

(** [CheckInputScripts]. With [deferred] ([pvChecks] is not null) the checks are returned instead of run. *)
Definition CheckInputScripts (tx : CTransaction) (state : TxValidationState) (inputs : cache) (flags : Z) (cacheSigStore cacheFullScriptStore : bool)
    (vc : ValidationCache K) (deferred : bool) : option (bool * TxValidationState * cache * ValidationCache K * list CScriptCheck) :=
  if IsCoinBase tx then Some (true, state, inputs, vc, [])
  else
  let entry := hashCacheEntry vc tx flags in
  let '(hit, k) := contains (m_script_execution_cache vc) entry (negb cacheFullScriptStore) in
  let vc := set_script_cache vc k in
  if hit then Some (true, state, inputs, vc, [])
  else
  '(inputs, outs) ← spent_outputs inputs (vin tx);
  let checks := script_checks tx flags cacheSigStore outs in
  if deferred then Some (true, state, inputs, vc, checks)
  else
  r ← run_checks checks;
  match r with
  | Some (error, debug) =>
      let '(ok, state) :=
        if negb (Z.land flags STANDARD_NOT_MANDATORY_VERIFY_FLAGS =? 0) then
          Invalid state TX_NOT_STANDARD ("mempool-script-verify-flag-failed (" +:+ error +:+ ")") debug
        else Invalid state TX_CONSENSUS ("block-script-verify-flag-failed (" +:+ error +:+ ")") debug in
      Some (ok, state, inputs, vc, [])
  | None =>
      Some (true, state, inputs, if cacheFullScriptStore then set_script_cache vc (insert_entry (m_script_execution_cache vc) entry) else vc, [])
  end.

(** [CCheckQueueControl::Complete]: one of the failures, if any check fails; the scheduling of the worker threads decides which. *)
Context (pick_failure : list (string * string) -> nat).
Definition Complete (checks : list CScriptCheck) : option (option (string * string)) :=
  results ← mapM run_check checks;
  let failures := omap id results in
  Some (match failures with [] => None | e :: _ => Some (nth (pick_failure failures) failures e) end).

(** ** Blocks *)

(** Why the scripts of a block are checked; [Some None] when they are assumed valid. *)
Definition script_check_reason (opts : ChainstateOptions) (params : Params) (bm : BlockManager) (pindex : uint256) : option (option string) :=
  let m := m_block_index bm in
  index ← m !! pindex;
  if AssumedValidBlock opts =? 0 then Some (Some "assumevalid=0 (always verify)")
  else
  match m !! AssumedValidBlock opts with
  | None => Some (Some "assumevalid hash not in headers")
  | Some av =>
      a ← GetAncestor m (AssumedValidBlock opts) (nHeight index);
      if negb (bool_decide (a = Some pindex)) then
        Some (Some (if nHeight index >? nHeight av then "block height above assumevalid height" else "block not in assumevalid chain"))
      else
      best ← m_best_header bm;
      best_index ← m !! best;
      a ← GetAncestor m best (nHeight index);
      if negb (bool_decide (a = Some pindex)) then Some (Some "block not in best header chain")
      else if uint_ltb (nChainWork best_index) (MinimumChainWork opts) then Some (Some "best header chainwork below minimumchainwork")
      else
      t ← GetBlockProofEquivalentTime best_index index best_index (nPowTargetSpacing params);
      if t <=? TWO_WEEKS_IN_SECONDS then Some (Some "block too recent relative to best header") else Some None
  end.

(** Whether [ConnectBlock] looks for coins that the block would overwrite. *)
Definition bip30_checked (params : Params) (m : BlockMap) (pindex : uint256) : option bool :=
  index ← m !! pindex;
  prev ← pprev index;
  pindexBIP34height ← GetAncestor m prev (BIP34Height params);
  let fEnforceBIP30 :=
    negb (IsBIP30Repeat index pindex) && negb (match pindexBIP34height with None => false | Some h => h =? BIP34Hash params end) in
  Some (fEnforceBIP30 || (BIP34_IMPLIES_BIP30_LIMIT <=? nHeight index)).

(** The outputs of one transaction. *)
Fixpoint bip30_outputs (view : cache) (state : BlockValidationState) (txid : uint256) (o : nat) (outs : list CTxOut) : cache * BlockValidationState :=
  match outs with
  | [] => (view, state)
  | _ :: outs' =>
      let '(view, have) := HaveCoin view (mkOutPoint txid (Z.of_nat o)) in
      let state := if (have : bool) then snd (Invalid state BLOCK_CONSENSUS "bad-txns-BIP30" "tried to overwrite transaction") else state in
      bip30_outputs view state txid (S o) outs'
  end.
Fixpoint bip30_loop (view : cache) (state : BlockValidationState) (txs : list CTransaction) : cache * BlockValidationState :=
  match txs with
  | [] => (view, state)
  | tx :: txs' => let '(view, state) := bip30_outputs view state (ComputeHash tx) 0 (vout tx) in bip30_loop view state txs'
  end.

(** The variables of the transaction loop. *)
Record connecting := mkConnecting {
  cn_view : cache;
  cn_state : BlockValidationState;
  cn_scripts : ValidationCache K;
  nFees : Z;
  nSigOpsCost : Z;
  vtxundo : CBlockUndo;
  control : list CScriptCheck
}.

Definition prev_heights (view : cache) (ins : list CTxIn) : cache * list Z :=
  fold_left (fun acc i => let '(view, coin) := AccessCoin (fst acc) (prevout i) in (view, snd acc ++ [coin_nHeight coin])) ins (view, []).

(** The checks of the inputs of a transaction that is not a coinbase; [false] leaves the loop. *)
Definition connect_inputs (m : BlockMap) (pindex : uint256) (height nLockTimeFlags : Z) (tx : CTransaction) (st : connecting)
  : option (bool * connecting) :=
  let fail view nFees reason debug :=
    Some (false, mkConnecting view (snd (Invalid (cn_state st) BLOCK_CONSENSUS reason debug)) (cn_scripts st) nFees (nSigOpsCost st)
                   (vtxundo st) (control st)) in
  '(view, r) ← CheckTxInputs tx tx_state (cn_view st) height;
  match r with
  | inl tx_state =>
      fail view (nFees st) (m_reject_reason tx_state) (m_debug_message tx_state +:+ " in transaction " +:+ uint256_ToString (ComputeHash tx))
  | inr txfee =>
      let fees := i64 (nFees st + txfee) in
      if negb (MoneyRange fees) then fail view fees "bad-txns-accumulated-fee-outofrange" "accumulated fee in the block out of range"
      else
      let '(view, prevheights) := prev_heights view (vin tx) in
      ok ← SequenceLocks m tx nLockTimeFlags prevheights pindex;
      if (ok : bool) then Some (true, mkConnecting view (cn_state st) (cn_scripts st) fees (nSigOpsCost st) (vtxundo st) (control st))
      else fail view fees "bad-txns-nonfinal" ("contains a non-BIP68-final transaction " +:+ uint256_ToString (ComputeHash tx))
  end.

(** The script checks of a transaction that is not a coinbase. *)
Definition connect_scripts (flags : Z) (fCacheResults deferred : bool) (tx : CTransaction) (st : connecting) : option (bool * connecting) :=
  '(tx_ok, txst, view, vc, checks) ← CheckInputScripts tx tx_state (cn_view st) flags fCacheResults fCacheResults (cn_scripts st) deferred;
  if (tx_ok : bool) then
    Some (true, mkConnecting view (cn_state st) vc (nFees st) (nSigOpsCost st) (vtxundo st) (control st ++ checks))
  else
    Some (false, mkConnecting view (snd (Invalid (cn_state st) BLOCK_CONSENSUS (m_reject_reason txst) (m_debug_message txst))) vc
                   (nFees st) (nSigOpsCost st) (vtxundo st) (control st)).

(** One round of the transaction loop; [first] is [i == 0]. *)
Definition connect_tx (m : BlockMap) (pindex : uint256) (height nLockTimeFlags flags : Z) (fScriptChecks fCacheResults deferred first : bool)
    (tx : CTransaction) (st : connecting) : option (bool * connecting) :=
  '(ok, st) ← (if IsCoinBase tx then Some (true, st) else connect_inputs m pindex height nLockTimeFlags tx st);
  if negb ok then Some (false, st)
  else
  '(view, cost) ← GetTransactionSigOpCost tx (cn_view st) flags;
  let sigops := i64 (nSigOpsCost st + cost) in
  if sigops >? MAX_BLOCK_SIGOPS_COST then
    Some (false, mkConnecting view (snd (Invalid (cn_state st) BLOCK_CONSENSUS "bad-blk-sigops" "too many sigops")) (cn_scripts st) (nFees st)
                   sigops (vtxundo st) (control st))
  else
  let st := mkConnecting view (cn_state st) (cn_scripts st) (nFees st) sigops (vtxundo st) (control st) in
  '(ok, st) ← (if negb (IsCoinBase tx) && fScriptChecks then connect_scripts flags fCacheResults deferred tx st else Some (true, st));
  if negb ok then Some (false, st)
  else
  '(view, txundo) ← UpdateCoins tx (cn_view st) height;
  Some (true, mkConnecting view (cn_state st) (cn_scripts st) (nFees st) (nSigOpsCost st)
                (if (first : bool) then vtxundo st else vtxundo st ++ [txundo]) (control st)).

Fixpoint connect_loop (m : BlockMap) (pindex : uint256) (height nLockTimeFlags flags : Z) (fScriptChecks fCacheResults deferred first : bool)
    (txs : list CTransaction) (st : connecting) : option connecting :=
  match txs with
  | [] => Some st
  | tx :: txs' =>
      if negb (IsValidState (cn_state st)) then Some st
      else
      '(continue, st) ← connect_tx m pindex height nLockTimeFlags flags fScriptChecks fCacheResults deferred first tx st;
      if (continue : bool) then connect_loop m pindex height nLockTimeFlags flags fScriptChecks fCacheResults deferred false txs' st
      else Some st
  end.

(** [WriteBlockUndo] of node/blockstorage.cpp: the index entry afterwards and what was written, which is nothing when the block has undo data
    already; [disk_error] is the fatal error of a file operation, if any. *)
Definition WriteBlockUndo (blockundo : CBlockUndo) (bm : BlockManager) (pindex : uint256) (state : BlockValidationState)
    (disk_error : option string) : option (bool * BlockValidationState * BlockManager * option CBlockUndo) :=
  index ← m_block_index bm !! pindex;
  if negb (Z.land (nStatus index) BLOCK_HAVE_UNDO =? 0) then Some (true, state, bm, None)
  else
  match disk_error with
  | Some message => Some (Error state message, bm, None)
  | None =>
      Some (true, state, mkBlockManager (<[pindex := set_status index (Z.lor (nStatus index) BLOCK_HAVE_UNDO)]> (m_block_index bm))
                           (m_best_header bm) ({[ pindex ]} ∪ m_dirty_blockindex bm), Some blockundo)
  end.

(** The index entry of a connected block. *)
Definition raise_scripts (bm : BlockManager) (pindex : uint256) : option BlockManager :=
  index ← m_block_index bm !! pindex;
  if IsValid index BLOCK_VALID_SCRIPTS then Some bm
  else Some (mkBlockManager (<[pindex := fst (RaiseValidity index BLOCK_VALID_SCRIPTS)]> (m_block_index bm)) (m_best_header bm)
               ({[ pindex ]} ∪ m_dirty_blockindex bm)).

(** What [ConnectBlock] leaves behind; [r_undo] is the undo data it wrote. *)
Record connect_result := mkResult {
  r_ok : bool;
  r_state : BlockValidationState;
  r_block : CBlock;
  r_view : cache;
  r_scripts : ValidationCache K;
  r_index : BlockManager;
  r_undo : option CBlockUndo
}.

Context (CheckSignetBlockSolution : CBlock -> bool) (params : Params) (opts : ChainstateOptions).

(** [ConnectBlock] after the transactions: the amount of the coinbase and the queued script checks. *)
Definition check_reward (height : Z) (deferred : bool) (txs : list CTransaction) (st : connecting) : option BlockValidationState :=
  subsidy ← GetBlockSubsidy height params;
  let blockReward := i64 (nFees st + subsidy) in
  coinbase ← head txs;
  value_out ← GetValueOut coinbase;
  let state := cn_state st in
  let state :=
    if (value_out >? blockReward) && IsValidState state then
      snd (Invalid state BLOCK_CONSENSUS "bad-cb-amount"
             ("coinbase pays too much (actual=" +:+ pretty value_out +:+ " vs limit=" +:+ pretty blockReward +:+ ")"))
    else state in
  if (deferred : bool) then
    r ← Complete (control st);
    Some (match r with
          | Some (error, debug) =>
              if IsValidState state then
                snd (Invalid state BLOCK_CONSENSUS ("block-script-verify-flag-failed (" +:+ error +:+ ")") debug)
              else state
          | None => state
          end)
  else Some state.

Definition ConnectBlock (b : CBlock) (state : BlockValidationState) (bm : BlockManager) (pindex : uint256) (view : cache)
    (vc : ValidationCache K) (fJustCheck : bool) (disk_error : option string) : option connect_result :=
  index ← m_block_index bm !! pindex;
  let m := m_block_index bm in
  let block_hash := CBlockHeader_GetHash (header b) in
  if negb (pindex =? block_hash) then None
  else
  '(ok, state, b) ← CheckBlock CheckSignetBlockSolution params b state (negb fJustCheck) (negb fJustCheck);
  if negb ok then
    let state :=
      if bool_decide (m_result state = BLOCK_MUTATED) then snd (Error state "Corrupt block found indicating potential hardware failure.")
      else state in
    Some (mkResult false state b view vc bm None)
  else
  let hashPrev := default 0 (pprev index) in
  let '(view, best) := GetBestBlock view in
  if negb (hashPrev =? best) then None
  else if block_hash =? hashGenesisBlock params then
    Some (mkResult true state b (if fJustCheck then view else SetBestBlock view pindex) vc bm None)
  else
  reason ← script_check_reason opts params bm pindex;
  check_overwrites ← bip30_checked params m pindex;
  let '(view, state) := if (check_overwrites : bool) then bip30_loop view state (vtx b) else (view, state) in
  let nLockTimeFlags := if DeploymentActiveAt index params DEPLOYMENT_CSV then LOCKTIME_VERIFY_SEQUENCE else 0 in
  let flags := GetBlockScriptFlags index pindex params in
  let fScriptChecks := bool_decide (is_Some reason) in
  let deferred := HasThreads opts && fScriptChecks in
  st ← connect_loop m pindex (nHeight index) nLockTimeFlags flags fScriptChecks fJustCheck deferred true (vtx b)
         (mkConnecting view state vc 0 0 [] []);
  state ← check_reward (nHeight index) deferred (vtx b) st;
  let view := cn_view st in
  let vc := cn_scripts st in
  if negb (IsValidState state) then Some (mkResult false state b view vc bm None)
  else if fJustCheck then Some (mkResult true state b view vc bm None)
  else
  '(ok, state, bm, written) ← WriteBlockUndo (vtxundo st) bm pindex state disk_error;
  if negb ok then Some (mkResult false state b view vc bm None)
  else
  bm ← raise_scripts bm pindex;
  Some (mkResult true state b (SetBestBlock view pindex) vc bm written).

End ConnectBlock.
