(* ===== verification/ConnectBlockSpec.v ===== *)
(** * Correctness of connecting and disconnecting blocks

    [connects] says what a block does to a plain set of coins. An accepted block does just that ([ConnectBlock_refines]), so it creates no
    more money than the subsidy, and [DisconnectBlock] with the undo data that was written takes it back. Script checks that run
    in worker threads accept the same blocks as checks that run in place. *)

From stdpp Require Import pretty.
From S2P Require Import Prelude ValidationState Serialize ArithUint256 Chain Params Pow Subsidy Transaction Script.
From S2P Require Import TxCheck Coins TxVerify Merkle Sha256 Sha256Spec Hash Block ConnectBlock.
#[local] Open Scope Z_scope.

Lemma hashCacheEntry_ext {K : Type} (vc vc' : ValidationCache K) (tx : CTransaction) (flags : Z) :
  m_script_execution_cache_hasher vc' = m_script_execution_cache_hasher vc -> hashCacheEntry vc' tx flags = hashCacheEntry vc tx flags.
Proof. intros E. unfold hashCacheEntry. by rewrite E. Qed.

#[local] Opaque ComputeHash ComputeWitnessHash CBlockHeader_GetHash hash_node SerializeTransaction hashCacheEntry.

Lemma Invalid_not_valid {R : Type} (st : ValidationState R) (r : R) (reason debug : string) : IsValidState (snd (Invalid st r reason debug)) = false.
Proof. unfold IsValidState, Invalid. cbn [snd m_mode]. by destruct (m_mode st). Qed.

(** ** Coins *)

Abbreviation coins := (gmap COutPoint Coin).

Definition coin_value (cn : Coin) : Z := nValue (out cn).
Definition total_value (m : coins) : Z := map_fold (fun _ cn acc => coin_value cn + acc) 0 m.

(** The coins after the inputs [ins] were spent. *)
Definition spend_all (m : coins) (ins : list CTxIn) : coins := fold_left (fun m i => delete (prevout i) m) ins m.

(** The coins after the outputs of [tx] were added. *)
Definition add_outputs (m : coins) (height : Z) (tx : CTransaction) : coins :=
  cs_add_outputs m (ComputeHash tx) (IsCoinBase tx) height 0 (vout tx).

(** No coin has the name of an output of [tx]. *)
Definition unnamed (m : coins) (tx : CTransaction) : Prop :=
  forall n, (n < length (vout tx))%nat -> m !! mkOutPoint (ComputeHash tx) (Z.of_nat n) = None.

(** The inputs of a transaction find the coins [undo]. *)
Definition finds (m : coins) (ins : list CTxIn) (undo : CTxUndo) : Prop := Forall2 (fun i cn => m !! prevout i = Some cn) ins undo.

(** What one transaction does: the coins it spends and its fee. *)
Inductive connects_tx (height : Z) (m : coins) (tx : CTransaction) : CTxUndo -> Z -> coins -> Prop :=
| connects_coinbase :
    IsCoinBase tx = true -> unnamed m tx -> connects_tx height m tx [] 0 (add_outputs m height tx)
| connects_spend (undo : CTxUndo) (fee : Z) :
    IsCoinBase tx = false -> finds m (vin tx) undo -> NoDup (map prevout (vin tx)) ->
    Forall (input_ok (fun o => m !! o) height) (vin tx) -> unnamed (spend_all m (vin tx)) tx ->
    fee = zsum coin_value undo - sum_values (vout tx) -> 0 <= fee ->
    connects_tx height m tx undo fee (add_outputs (spend_all m (vin tx)) height tx).

(** What the transactions of a block do, one after the other. *)
Inductive connects (height : Z) : coins -> list CTransaction -> list CTxUndo -> Z -> coins -> Prop :=
| connects_nil (m : coins) : connects height m [] [] 0 m
| connects_cons (m m1 m2 : coins) (tx : CTransaction) (txs : list CTransaction) (undo : CTxUndo) (undos : list CTxUndo) (fee fees : Z) :
    connects_tx height m tx undo fee m1 -> tx_checked tx -> connects height m1 txs undos fees m2 ->
    connects height m (tx :: txs) (undo :: undos) (fee + fees) m2.

Lemma spend_all_lookup (ins : list CTxIn) (m : coins) (o : COutPoint) :
  spend_all m ins !! o = if decide (o ∈ map prevout ins) then None else m !! o.
Proof.
  revert m; induction ins as [|i ins IH]; intros m; cbn [spend_all fold_left map]; [done|].
  change (fold_left _ ins ?x) with (spend_all x ins). rewrite IH.
  destruct (decide (o = prevout i)) as [->|Hne].
  - rewrite lookup_delete_eq, (decide_True (P := prevout i ∈ prevout i :: map prevout ins)) by apply elem_of_cons, or_introl, eq_refl.
    by destruct (decide _).
  - rewrite lookup_delete_ne by congruence. destruct (decide (o ∈ map prevout ins)) as [H|H].
    + rewrite decide_True; [done|]. apply elem_of_cons. by right.
    + rewrite decide_False; [done|]. rewrite elem_of_cons. tauto.
Qed.

(** *** Their value *)

Lemma total_value_insert (m : coins) (o : COutPoint) (cn : Coin) :
  m !! o = None -> total_value (<[o := cn]> m) = coin_value cn + total_value m.
Proof.
  intros H. unfold total_value. rewrite (map_fold_insert_L (fun _ cn acc => coin_value cn + acc)); [done| |done]. intros; lia.
Qed.

Lemma total_value_delete (m : coins) (o : COutPoint) (cn : Coin) :
  m !! o = Some cn -> total_value (delete o m) = total_value m - coin_value cn.
Proof.
  intros H. rewrite <- (insert_delete_id m o cn H) at 2. rewrite total_value_insert by apply lookup_delete_eq. lia.
Qed.

Lemma finds_delete (m : coins) (ins : list CTxIn) (undo : CTxUndo) (o : COutPoint) :
  finds m ins undo -> o ∉ map prevout ins -> finds (delete o m) ins undo.
Proof.
  induction 1 as [|i cn ins undo Hi _ IH]; intros Hn; [constructor|]. cbn [map] in Hn. apply not_elem_of_cons in Hn as [Hne Hn].
  constructor; [|by apply IH]. by rewrite lookup_delete_ne.
Qed.

Lemma total_value_spend (ins : list CTxIn) (undo : CTxUndo) (m : coins) :
  finds m ins undo -> NoDup (map prevout ins) -> total_value (spend_all m ins) = total_value m - zsum coin_value undo.
Proof.
  revert undo m; induction ins as [|i ins IH]; intros undo m H Hn; inversion H as [|? cn ? undo' Hi Hu]; subst; [cbn; lia|].
  cbn [map] in Hn. apply NoDup_cons in Hn as [Hni Hn]. cbn [spend_all fold_left]. change (fold_left _ ins ?x) with (spend_all x ins).
  rewrite (IH undo'); [|by apply finds_delete|done]. rewrite zsum_cons, (total_value_delete m _ cn Hi). lia.
Qed.

Lemma total_value_add (outs : list CTxOut) (m : coins) (txid : uint256) (cb : bool) (h : Z) (i : nat) :
  (forall n, (i <= n < i + length outs)%nat -> m !! mkOutPoint txid (Z.of_nat n) = None) -> Forall (fun o => 0 <= nValue o) outs ->
  total_value (cs_add_outputs m txid cb h i outs) <= total_value m + sum_values outs.
Proof.
  intros Hm Hv. revert i Hm. induction Hv as [|x outs Hx _ IH]; intros i Hm; [cbn; lia|].
  change (sum_values (x :: outs)) with (nValue x + sum_values outs). cbn [cs_add_outputs].
  specialize (IH (S i)). cbn [length] in Hm. specialize (IH ltac:(intros; apply Hm; lia)).
  destruct (IsUnspendable _); [lia|]. rewrite total_value_insert; [unfold coin_value; cbn [out]; lia|].
  rewrite cs_add_outputs_lookup. unfold lookup_out. cbn [op_n op_hash]. rewrite decide_False by lia. apply Hm. lia.
Qed.

(** A coin as the blocks above genesis create them. *)
Definition coin_ok (cn : Coin) : Prop := 0 <= coin_value cn /\ 1 <= coin_nHeight cn /\ IsUnspendable (scriptPubKey (out cn)) = false.
Definition coins_ok (m : coins) : Prop := forall o cn, m !! o = Some cn -> coin_ok cn.

Lemma spend_all_ok (m : coins) (ins : list CTxIn) : coins_ok m -> coins_ok (spend_all m ins).
Proof. intros H o cn. rewrite spend_all_lookup. destruct (decide _); [done|]. apply H. Qed.

Lemma add_outputs_ok (m : coins) (h : Z) (tx : CTransaction) : 1 <= h -> tx_checked tx -> coins_ok m -> coins_ok (add_outputs m h tx).
Proof.
  intros Hh Hck H o cn. unfold add_outputs. rewrite cs_add_outputs_lookup. unfold lookup_out. destruct (decide _); [|apply H].
  destruct (vout tx !! _) as [x|] eqn:E; [|apply H]. destruct (IsUnspendable _) eqn:Eu; [apply H|]. intros [= <-]. split; [|done].
  destruct (ck_values tx Hck) as [Hv _]. rewrite Forall_forall in Hv. apply Hv. by eapply list_elem_of_lookup_2.
Qed.

(** A transaction moves value: what it spends, less its fee, bounds what it creates. *)
Lemma connects_tx_value (h : Z) (m m' : coins) (tx : CTransaction) (undo : CTxUndo) (fee : Z) :
  connects_tx h m tx undo fee m' -> tx_checked tx ->
  total_value m' <= total_value m + (if IsCoinBase tx then sum_values (vout tx) else - fee).
Proof.
  intros H Hck. destruct (ck_values tx Hck) as [Hv _]. destruct H as [Hcb Hu|undo fee Hcb Hf Hn Hok Hu Hfee _]; rewrite Hcb.
  - apply total_value_add; [|done]. intros n Hn. apply Hu. lia.
  - etrans; [apply total_value_add; [|done]|].
    + intros n Hl. apply Hu. lia.
    + rewrite (total_value_spend _ _ _ Hf Hn). lia.
Qed.

Lemma connects_spends_value (h : Z) (m m' : coins) (txs : list CTransaction) (undos : list CTxUndo) (fees : Z) :
  connects h m txs undos fees m' -> Forall (fun tx => IsCoinBase tx = false) txs -> total_value m' <= total_value m - fees.
Proof.
  induction 1 as [|m m1 m2 tx txs undo undos fee fees Htx Hck _ IH]; intros Hcb; [lia|].
  apply Forall_cons in Hcb as [Hcb Hcbs]. apply connects_tx_value in Htx; [|done]. rewrite Hcb in Htx. specialize (IH Hcbs). lia.
Qed.

(** ** Reading and changing a cache *)

Section Caches.
Context {B : Type} {HV : CoinsView B} {HL : LawfulView B}.
#[local] Abbreviation cache := (CCoinsViewCache B).

Lemma HaveCoin_reads (c : cache) (s : coin_set) (o : COutPoint) :
  represents c s -> represents (HaveCoin c o).1 s /\ (HaveCoin c o).2 = bool_decide (is_Some (cs_coins s !! o)).
Proof.
  intros Hrep. pose proof Hrep as (Hc & Hm & _). pose proof (HaveCoin_spec c o Hc) as H. pose proof (HaveCoin_hashBlock c o) as Hh.
  destruct (HaveCoin c o) as [c' r]. destruct H as (Hc' & -> & H1 & H2). rewrite Hm. split; [|done]. by apply (represents_same c).
Qed.

Lemma AccessCoin_reads (c : cache) (s : coin_set) (o : COutPoint) :
  represents c s -> represents (AccessCoin c o).1 s /\ unspent (AccessCoin c o).2 = cs_coins s !! o.
Proof.
  intros Hrep. pose proof Hrep as (Hc & Hm & _). pose proof (AccessCoin_spec c o Hc) as H.
  assert (Hh : hashBlock (AccessCoin c o).1 = hashBlock c).
  { unfold AccessCoin. pose proof (FetchCoin_hashBlock c o) as Hf. by destruct (FetchCoin c o). }
  destruct (AccessCoin c o) as [c' r]. destruct H as (Hc' & Hu & H1 & H2). cbn [fst snd]. rewrite Hu, Hm. split; [|done].
  by apply (represents_same c).
Qed.

Lemma SpendCoin_represents (c : cache) (s : coin_set) (o : COutPoint) :
  represents c s -> represents (SpendCoin c o).1 (cs_update s (delete o (cs_coins s))) /\ (SpendCoin c o).2 ≫= unspent = cs_coins s !! o.
Proof.
  intros Hrep. destruct (run_OpSpend c s o Hrep) as (c' & E & H). cbn [run_op] in E. destruct (SpendCoin c o) as [c1 r].
  injection E as -> E. by split.
Qed.

Lemma bind_unspent (r : option Coin) (cn : Coin) : r ≫= unspent = Some cn -> r = Some cn.
Proof. destruct r as [cn'|]; [|done]. cbn. intros H. by apply unspent_not_spent in H as [_ ->]. Qed.

Lemma spend_inputs_represents (ins : list CTxIn) (undo : CTxUndo) (c : cache) (s : coin_set) :
  represents c s -> finds (cs_coins s) ins undo -> NoDup (map prevout ins) ->
  exists c', spend_inputs c ins = Some (c', undo) /\ represents c' (cs_update s (spend_all (cs_coins s) ins)).
Proof.
  revert undo c s; induction ins as [|i ins IH]; intros undo c s Hrep H Hn; inversion H as [|? cn ? undo' Hi Hu]; subst.
  { exists c. split; [done|]. by destruct s. }
  cbn [map] in Hn. apply NoDup_cons in Hn as [Hni Hn]. cbn [spend_inputs].
  destruct (SpendCoin_represents c s (prevout i) Hrep) as [Hrep1 Hr]. destruct (SpendCoin c (prevout i)) as [c1 r]. cbn [fst snd] in *.
  rewrite Hi in Hr. apply bind_unspent in Hr as ->. cbn [mbind option_bind].
  destruct (IH undo' c1 _ Hrep1) as (c2 & -> & Hrep2); [by apply finds_delete|done|]. exists c2. by split.
Qed.

Lemma tx_checked_outputs (tx : CTransaction) : tx_checked tx -> existsb (fun x => nValue x =? -1) (vout tx) = false.
Proof.
  intros Hck. destruct (ck_values tx Hck) as [Hv _]. apply existsb_false_Forall. eapply Forall_impl; [exact Hv|].
  cbn. intros x Hx. apply Z.eqb_neq. lia.
Qed.

Lemma AddCoins_represents (c : cache) (s : coin_set) (tx : CTransaction) (h : Z) :
  represents c s -> tx_checked tx -> unnamed (cs_coins s) tx ->
  exists c', AddCoins c (ComputeHash tx) tx h false = Some c' /\ represents c' (cs_update s (add_outputs (cs_coins s) h tx)).
Proof.
  intros Hrep Hck Hu. destruct (run_OpAddTx c s (cs_update s (add_outputs (cs_coins s) h tx)) ObsNone (ComputeHash tx) tx h false Hrep)
    as (c' & E & H).
  - cbn [spec_op]. rewrite tx_checked_outputs by done. cbn [negb orb andb].
    assert (Ha : existsb (fun j => bool_decide (is_Some (cs_coins s !! mkOutPoint (ComputeHash tx) (Z.of_nat j)))) (seq 0 (length (vout tx))) = false).
    { apply existsb_false_Forall, Forall_forall. intros j Hj. apply elem_of_seq in Hj. apply bool_decide_eq_false_2. rewrite Hu by lia. by intros []. }
    by rewrite Ha, andb_false_r.
  - cbn [run_op] in E. apply bind_Some in E as (c1 & E & [= ->]). by exists c'.
Qed.

Lemma UpdateCoins_represents (c : cache) (s : coin_set) (tx : CTransaction) (h fee : Z) (undo : CTxUndo) (m : coins) :
  represents c s -> tx_checked tx -> connects_tx h (cs_coins s) tx undo fee m ->
  exists c', UpdateCoins tx c h = Some (c', undo) /\ represents c' (cs_update s m).
Proof.
  intros Hrep Hck H. unfold UpdateCoins. destruct H as [Hcb Hu|undo fee Hcb Hf Hn Hok Hu _ _]; rewrite Hcb; cbn [mbind option_bind].
  - destruct (AddCoins_represents c s tx h Hrep Hck Hu) as (c' & -> & H). by exists c'.
  - destruct (spend_inputs_represents _ _ c s Hrep Hf Hn) as (c1 & -> & H1). cbn [mbind option_bind].
    destruct (AddCoins_represents c1 _ tx h H1 Hck Hu) as (c' & -> & H). by exists c'.
Qed.

(** *** The checks only read *)

Lemma CheckTxInputs_loop_reads (ins : list CTxIn) (c c' : cache) (s : coin_set) (h v : Z) (st : TxValidationState) (r : TxValidationState + Z) :
  represents c s -> CheckTxInputs_loop c ins h v st = Some (c', r) -> represents c' s.
Proof.
  revert c v; induction ins as [|i ins IH]; intros c v Hrep; cbn [CheckTxInputs_loop]; [by intros [= <- _]|].
  pose proof (proj1 (AccessCoin_reads c s (prevout i) Hrep)) as H1. destruct (AccessCoin c (prevout i)) as [c1 cn]. cbn [fst] in H1.
  destruct (IsSpent cn); [done|]. destruct (_ && _); [by intros [= <- _]|]. destruct (_ || _); [by intros [= <- _]|]. by apply IH.
Qed.

Lemma CheckTxInputs_reads (tx : CTransaction) (c c' : cache) (s : coin_set) (h : Z) (st : TxValidationState) (r : TxValidationState + Z) :
  represents c s -> CheckTxInputs tx st c h = Some (c', r) -> represents c' s.
Proof.
  intros Hrep. unfold CheckTxInputs. destruct (run_OpHaveInputs c s tx Hrep) as (c1 & E & H1). cbn [run_op] in E.
  destruct (HaveInputs c tx) as [c1' have]. injection E as -> ->. destruct (negb _); [by intros [= <- _]|].
  intros ([c2 r2] & E & H2)%bind_Some. apply (CheckTxInputs_loop_reads _ _ _ s) in E; [|done].
  destruct r2 as [st2|v]; [by injection H2 as <- _|]. apply bind_Some in H2 as (o & _ & H2).
  destruct (v <? o); [by injection H2 as <- _|]. destruct (negb _); by injection H2 as <- _.
Qed.

Lemma prev_heights_reads (ins : list CTxIn) (c : cache) (s : coin_set) : represents c s -> represents (prev_heights c ins).1 s.
Proof.
  intros Hrep. unfold prev_heights. set (acc := (c, [])). change c with (fst acc) in Hrep. clearbody acc.
  revert acc Hrep; induction ins as [|i ins IH]; intros acc Hrep; [done|]. cbn [fold_left]. apply IH.
  pose proof (proj1 (AccessCoin_reads acc.1 s (prevout i) Hrep)) as H1. by destruct (AccessCoin acc.1 (prevout i)).
Qed.

Lemma GetP2SHSigOpCount_loop_reads (ins : list CTxIn) (c c' : cache) (s : coin_set) (n n' : Z) :
  represents c s -> GetP2SHSigOpCount_loop c ins n = Some (c', n') -> represents c' s.
Proof.
  revert c n; induction ins as [|i ins IH]; intros c n Hrep; cbn [GetP2SHSigOpCount_loop]; [by intros [= <- _]|].
  pose proof (proj1 (AccessCoin_reads c s (prevout i) Hrep)) as H1. destruct (AccessCoin c (prevout i)) as [c1 cn].
  destruct (IsSpent cn); [done|]. intros (k & _ & H)%bind_Some. by eapply IH.
Qed.

Lemma witness_sigops_loop_reads (ins : list CTxIn) (c c' : cache) (s : coin_set) (flags n n' : Z) :
  represents c s -> witness_sigops_loop c ins flags n = Some (c', n') -> represents c' s.
Proof.
  revert c n; induction ins as [|i ins IH]; intros c n Hrep; cbn [witness_sigops_loop]; [by intros [= <- _]|].
  pose proof (proj1 (AccessCoin_reads c s (prevout i) Hrep)) as H1. destruct (AccessCoin c (prevout i)) as [c1 cn].
  destruct (IsSpent cn); [done|]. intros (k & _ & H)%bind_Some. by eapply IH.
Qed.

Lemma GetTransactionSigOpCost_reads (tx : CTransaction) (c c' : cache) (s : coin_set) (flags n : Z) :
  represents c s -> GetTransactionSigOpCost tx c flags = Some (c', n) -> represents c' s.
Proof.
  intros Hrep. unfold GetTransactionSigOpCost, GetP2SHSigOpCount. intros (k & _ & H)%bind_Some. destruct (IsCoinBase tx); [by injection H as <- _|].
  apply bind_Some in H as ([c1 n1] & H1 & H2). apply (witness_sigops_loop_reads (vin tx) c1 _ s flags n1 n); [|done].
  destruct (negb _) in H1; [|by injection H1 as <- _]. apply bind_Some in H1 as ([c2 n2] & H3 & [= <- _]).
  by apply (GetP2SHSigOpCount_loop_reads _ _ _ s) in H3.
Qed.

Lemma spent_outputs_reads (ins : list CTxIn) (c c' : cache) (s : coin_set) (outs : list CTxOut) :
  represents c s -> spent_outputs c ins = Some (c', outs) ->
  represents c' s /\ Forall2 (fun i o => exists cn, cs_coins s !! prevout i = Some cn /\ o = out cn) ins outs.
Proof.
  revert c outs; induction ins as [|i ins IH]; intros c outs Hrep; cbn [spent_outputs]; [intros [= <- <-]; by split|].
  destruct (AccessCoin_reads c s (prevout i) Hrep) as [H1 Hu]. destruct (AccessCoin c (prevout i)) as [c1 cn]. cbn [fst snd] in *.
  destruct (IsSpent cn) eqn:Es; [done|]. intros ([c2 outs'] & E & [= <- <-])%bind_Some. apply IH in E as [H2 Hf]; [|done]. split; [done|].
  constructor; [|done]. exists cn. split; [|done]. rewrite <- Hu. unfold unspent. by rewrite Es.
Qed.

Lemma bip30_outputs_reads (outs : list CTxOut) (c : cache) (s : coin_set) (state : BlockValidationState) (txid : uint256) (i : nat) :
  represents c s ->
  let r := bip30_outputs c state txid i outs in
  represents r.1 s /\
  (IsValidState r.2 = true ->
     r.2 = state /\ forall n, (i <= n < i + length outs)%nat -> cs_coins s !! mkOutPoint txid (Z.of_nat n) = None).
Proof.
  revert c state i; induction outs as [|x outs IH]; intros c state i Hrep; cbn [bip30_outputs]; [split; [done|]; intros; split; [done|]; cbn; lia|].
  destruct (HaveCoin_reads c s (mkOutPoint txid (Z.of_nat i)) Hrep) as [H1 H2]. destruct (HaveCoin c _) as [c1 have]. cbn [fst snd] in *.
  destruct (IH c1 (if have then snd (Invalid state BLOCK_CONSENSUS "bad-txns-BIP30" "tried to overwrite transaction") else state) (S i) H1)
    as [H3 H4]. cbn zeta in *. split; [done|]. intros Hv. specialize (H4 Hv) as [H4 H5]. rewrite H4 in Hv.
  destruct have; [by rewrite Invalid_not_valid in Hv|]. split; [done|]. intros n Hn. destruct (decide (n = i)) as [->|].
  - symmetry in H2. apply bool_decide_eq_false_1 in H2. by apply eq_None_not_Some.
  - apply H5. cbn [length] in Hn. lia.
Qed.

Lemma bip30_loop_reads (txs : list CTransaction) (c : cache) (s : coin_set) (state : BlockValidationState) :
  represents c s ->
  let r := bip30_loop c state txs in
  represents r.1 s /\ (IsValidState r.2 = true -> r.2 = state /\ Forall (unnamed (cs_coins s)) txs).
Proof.
  revert c state; induction txs as [|tx txs IH]; intros c state Hrep; cbn [bip30_loop]; [split; [done|]; by split|].
  destruct (bip30_outputs_reads (vout tx) c s state (ComputeHash tx) 0 Hrep) as [H1 H2].
  destruct (bip30_outputs c state (ComputeHash tx) 0 (vout tx)) as [c1 st1]. cbn [fst snd] in *.
  destruct (IH c1 st1 H1) as [H3 H4]. cbn zeta in *. split; [done|]. intros Hv. destruct (H4 Hv) as [H5 H6]. rewrite H5 in Hv.
  destruct (H2 Hv) as [H7 H8]. split; [congruence|]. constructor; [|done]. intros n Hn. apply H8. lia.
Qed.

End Caches.

(** ** No transaction of a block overwrites another *)

(** The name of a transaction commits to what it spends: no two transactions of [txs] collide. *)
Definition txids_commit (txs : list CTransaction) : Prop :=
  forall t1 t2, t1 ∈ txs -> t2 ∈ txs -> ComputeHash t1 = ComputeHash t2 -> map prevout (vin t1) = map prevout (vin t2).

(** After the transactions [done] of a block that started with the coins [m0]: every coin is an old one or one of theirs, and what they
    spent is gone. *)
Record progress (m0 : coins) (done : list CTransaction) (m : coins) : Prop := mkProgress {
  pr_origin : forall o cn, m !! o = Some cn -> is_Some (m0 !! o) \/ exists t, t ∈ done /\ op_hash o = ComputeHash t;
  pr_spent : forall t i, t ∈ done -> IsCoinBase t = false -> i ∈ vin t ->
    m !! prevout i = None /\ (is_Some (m0 !! prevout i) \/ exists t', t' ∈ done /\ op_hash (prevout i) = ComputeHash t')
}.

Lemma progress_start (m : coins) : progress m [] m.
Proof. split; [eauto|]. intros t i Ht. by apply elem_of_nil in Ht. Qed.

Lemma IsCoinBase_prevouts (t1 t2 : CTransaction) : map prevout (vin t1) = map prevout (vin t2) -> IsCoinBase t1 = IsCoinBase t2.
Proof.
  unfold IsCoinBase. destruct (vin t1) as [|i1 [|j1 l1]], (vin t2) as [|i2 [|j2 l2]]; try done. cbn. by intros [= ->].
Qed.

Lemma elem_of_prevouts (i : CTxIn) (ins ins' : list CTxIn) :
  map prevout ins = map prevout ins' -> i ∈ ins -> exists j, j ∈ ins' /\ prevout j = prevout i.
Proof.
  intros E Hi. assert (H : prevout i ∈ map prevout ins') by (rewrite <- E; by apply list_elem_of_fmap_2).
  apply list_elem_of_fmap in H as (j & H1 & H2). by exists j.
Qed.

(** A transaction whose inputs are there is new. *)
Lemma progress_new (m0 m : coins) (done all : list CTransaction) (tx : CTransaction) :
  progress m0 done m -> txids_commit all -> Forall (fun t => t ∈ all) done -> tx ∈ all ->
  IsCoinBase tx = false -> tx_checked tx -> Forall (fun i => is_Some (m !! prevout i)) (vin tx) ->
  forall t, t ∈ done -> ComputeHash t <> ComputeHash tx.
Proof.
  intros Hp Hc Hd Htx Hcb Hck Hin t Ht E. rewrite Forall_forall in Hd. rewrite Forall_forall in Hin. specialize (Hc t tx (Hd t Ht) Htx E).
  pose proof (ck_vin tx Hck) as Hv. destruct (vin tx) as [|i ins] eqn:Ev; [done|].
  destruct (elem_of_prevouts i (vin tx) (vin t)) as (j & Hj & Ej); [by rewrite Ev|rewrite Ev; by left|].
  assert (Hcbt : IsCoinBase t = false) by (rewrite <- Hcb; apply IsCoinBase_prevouts; by rewrite Ev).
  destruct (pr_spent m0 done m Hp t j Ht Hcbt Hj) as [H _]. destruct (Hin i ltac:(by left)) as [cn Hcn]. congruence.
Qed.

Lemma spend_all_unnamed (m : coins) (ins : list CTxIn) (tx : CTransaction) : unnamed m tx -> unnamed (spend_all m ins) tx.
Proof. intros H n Hn. rewrite spend_all_lookup. destruct (decide _); [done|]. by apply H. Qed.

Lemma progress_unnamed (m0 m : coins) (done : list CTransaction) (tx : CTransaction) :
  progress m0 done m -> unnamed m0 tx -> (forall t, t ∈ done -> ComputeHash t <> ComputeHash tx) -> unnamed m tx.
Proof.
  intros Hp Hu Hn n Hl. destruct (m !! _) as [cn|] eqn:E; [|done]. exfalso. apply (pr_origin _ _ _ Hp) in E as [E|(t & Ht & E)].
  - rewrite (Hu n Hl) in E. by destruct E.
  - by apply (Hn t).
Qed.

(** A coin is one of the outputs that were added, or was there. *)
Lemma add_outputs_lookup (m : coins) (h : Z) (tx : CTransaction) (o : COutPoint) :
  add_outputs m h tx !! o = m !! o \/
  exists n, (n < length (vout tx))%nat /\ o = mkOutPoint (ComputeHash tx) (Z.of_nat n) /\ is_Some (add_outputs m h tx !! o).
Proof.
  unfold add_outputs. rewrite cs_add_outputs_lookup. unfold lookup_out. destruct (decide _) as [[H1 H2]|]; [|by left].
  destruct (vout tx !! _) as [x|] eqn:E; [|by left]. destruct (IsUnspendable _); [by left|]. right.
  exists (Z.to_nat (op_n o)). rewrite Nat.sub_0_r in E. split; [by apply lookup_lt_Some in E|]. split; [|done].
  destruct o as [a k]. cbn in *. f_equal; [done|lia].
Qed.

Lemma progress_add (m0 m : coins) (done : list CTransaction) (tx : CTransaction) (h : Z) (ins : list CTxIn) :
  progress m0 done m -> unnamed m0 tx -> (forall t, t ∈ done -> ComputeHash t <> ComputeHash tx) ->
  (IsCoinBase tx = false -> ins = vin tx /\ Forall (fun i => is_Some (m !! prevout i)) ins) ->
  progress m0 (done ++ [tx]) (add_outputs (spend_all m ins) h tx).
Proof.
  intros Hp Hu Hnew Hins.
  assert (Hout : forall n p, (n < length (vout tx))%nat -> p = mkOutPoint (ComputeHash tx) (Z.of_nat n) ->
    is_Some (m0 !! p) \/ (exists t, t ∈ done /\ op_hash p = ComputeHash t) -> False).
  { intros n p Hn -> [H|(t & Ht & E)]; [rewrite (Hu n Hn) in H; by destruct H|]. by apply (Hnew t). }
  assert (Hmore : forall p, is_Some (m0 !! p) \/ (exists t, t ∈ done /\ op_hash p = ComputeHash t) ->
    is_Some (m0 !! p) \/ (exists t, t ∈ done ++ [tx] /\ op_hash p = ComputeHash t)).
  { intros p [H|(t & Ht & E)]; [by left|right]. exists t. split; [|done]. apply elem_of_app. by left. }
  split.
  - intros o cn Ho. destruct (add_outputs_lookup (spend_all m ins) h tx o) as [E|(n & Hn & -> & _)].
    + rewrite E, spend_all_lookup in Ho. destruct (decide _); [done|]. by apply Hmore, (pr_origin _ _ _ Hp o cn).
    + right. exists tx. split; [|done]. apply elem_of_app. right. by apply list_elem_of_singleton.
  - intros t i Ht Hcb Hi.
    assert (Hold : spend_all m ins !! prevout i = None /\
      (is_Some (m0 !! prevout i) \/ exists t', t' ∈ done /\ op_hash (prevout i) = ComputeHash t')).
    { apply elem_of_app in Ht as [Ht|Ht%list_elem_of_singleton].
      - destruct (pr_spent _ _ _ Hp t i Ht Hcb Hi) as [H1 H2]. split; [|done]. rewrite spend_all_lookup, H1. by destruct (decide _).
      - subst t. destruct (Hins Hcb) as [-> Hf]. rewrite spend_all_lookup, decide_True by (by apply list_elem_of_fmap_2).
        split; [done|]. rewrite Forall_forall in Hf. destruct (Hf i Hi) as [cn Hcn]. by apply (pr_origin _ _ _ Hp _ cn). }
    destruct Hold as [H1 H2]. split; [|by apply Hmore].
    destruct (add_outputs_lookup (spend_all m ins) h tx (prevout i)) as [->|(n & Hn & E & _)]; [done|]. by destruct (Hout n _ Hn E H2).
Qed.

(** ** The transaction loop *)

Lemma inputs_found (m : coins) (h : Z) (ins : list CTxIn) :
  Forall (input_ok (fun o => m !! o) h) ins ->
  exists undo, finds m ins undo /\ inputs_value (fun o => m !! o) ins = zsum coin_value undo.
Proof.
  induction 1 as [|i ins (cn & E & _) _ (undo & Hf & Hs)]; [exists []; split; [constructor|done]|]. exists (cn :: undo). split; [by constructor|].
  cbn [inputs_value foldr]. fold (inputs_value (fun o => m !! o) ins). rewrite zsum_cons, Hs. unfold input_value. by rewrite E.
Qed.

Lemma finds_some (m : coins) (ins : list CTxIn) (undo : CTxUndo) : finds m ins undo -> Forall (fun i => is_Some (m !! prevout i)) ins.
Proof. induction 1 as [|i cn ins undo Hi _ IH]; constructor; [by exists cn|done]. Qed.

Lemma spent_outputs_undo (m : coins) (ins : list CTxIn) (outs : list CTxOut) (undo : CTxUndo) :
  Forall2 (fun i o => exists cn, m !! prevout i = Some cn /\ o = out cn) ins outs -> finds m ins undo -> outs = map out undo.
Proof.
  intros Ho. revert undo. induction Ho as [|i o ins outs (cn & E & ->) _ IH]; intros undo Hf; inversion Hf as [|? cn' ? undo' E' Hf']; subst; [done|].
  cbn [map]. f_equal; [congruence|by apply IH].
Qed.

Section Loop.
Context {B : Type} {HV : CoinsView B} {HL : LawfulView B} {K : Type} {HK : ScriptCache K}.
Context (VerifyScript : CScript -> CScript -> list (list Z) -> Z -> CTransaction -> nat -> Z -> bool -> list CTxOut -> option string).
Context (m : BlockMap) (pindex : uint256) (height nLockTimeFlags flags : Z) (fScriptChecks fCacheResults deferred : bool) (known : K -> uint256 -> Prop).
#[local] Abbreviation state := (connecting (B := B) (K := K)).

(** The script checks of a transaction that spends the coins [undo]. *)
Definition checks_of (tx : CTransaction) (undo : CTxUndo) : list CScriptCheck :=
  if IsCoinBase tx then [] else script_checks tx flags fCacheResults (map out undo).

(** All script checks are queued, but for those of transactions that the cache knows: they are wanted and there are worker threads. *)
Definition all_queued : Prop := fScriptChecks = true /\ deferred = true /\ cache_knows known.

Definition in_cache (vc : ValidationCache K) (tx : CTransaction) : Prop := known (m_script_execution_cache vc) (hashCacheEntry vc tx flags).
Definition cache_shrinks (vc vc' : ValidationCache K) : Prop :=
  m_script_execution_cache_hasher vc' = m_script_execution_cache_hasher vc /\
  forall e, known (m_script_execution_cache vc') e -> known (m_script_execution_cache vc) e.

(** From [st] to [st'] the checks of the transactions [txs] are queued, or the cache knows them. *)
Definition queues (st st' : state) (txs : list CTransaction) (undos : list CTxUndo) : Prop :=
  cache_shrinks (cn_scripts st) (cn_scripts st') /\
  exists l, control st' = control st ++ l /\ Forall2 (fun tx undo => checks_of tx undo ⊆ l \/ in_cache (cn_scripts st) tx) txs undos.

Lemma in_cache_shrinks (vc vc' : ValidationCache K) (tx : CTransaction) : cache_shrinks vc vc' -> in_cache vc' tx -> in_cache vc tx.
Proof.
  unfold in_cache. intros [Hh Hk] H. apply Hk. by rewrite <- (hashCacheEntry_ext vc vc').
Qed.

Lemma queues_nil (st : state) : queues st st [] [].
Proof. split; [done|]. exists []. split; [by rewrite app_nil_r|constructor]. Qed.

Lemma queues_app (st st1 st2 : state) (txs1 txs2 : list CTransaction) (undos1 undos2 : list CTxUndo) :
  queues st st1 txs1 undos1 -> queues st1 st2 txs2 undos2 -> queues st st2 (txs1 ++ txs2) (undos1 ++ undos2).
Proof.
  intros [Hc1 (l1 & E1 & H1)] [Hc2 (l2 & E2 & H2)]. split.
  - destruct Hc1, Hc2. split; [congruence|]. eauto.
  - exists (l1 ++ l2). rewrite E2, E1, app_assoc. split; [done|]. apply Forall2_app.
    + eapply Forall2_impl; [exact H1|]. intros tx undo [H|H]; [left; set_solver|by right].
    + eapply Forall2_impl; [exact H2|]. intros tx undo [H|H]; [left; set_solver|right; by eapply in_cache_shrinks].
Qed.

Lemma connect_inputs_spec (tx : CTransaction) (st st' : state) (s : coin_set) (ok : bool) :
  represents (cn_view st) s -> IsCoinBase tx = false -> tx_checked tx -> 0 <= nFees st <= MAX_MONEY ->
  connect_inputs m pindex height nLockTimeFlags tx st = Some (ok, st') ->
  if ok then
    (exists undo fee, finds (cs_coins s) (vin tx) undo /\ Forall (input_ok (fun o => cs_coins s !! o) height) (vin tx) /\
       fee = zsum coin_value undo - sum_values (vout tx) /\ 0 <= fee /\ nFees st' = nFees st + fee /\ nFees st' <= MAX_MONEY) /\
    represents (cn_view st') s /\ cn_state st' = cn_state st /\ vtxundo st' = vtxundo st /\ control st' = control st /\ cn_scripts st' = cn_scripts st
  else IsValidState (cn_state st') = false.
Proof.
  intros Hrep Hcb Hck Hfees. unfold connect_inputs. intros ([c1 r] & E & H)%bind_Some. pose proof Hrep as (Hc & Hm & _).
  pose proof (CheckTxInputs_reads tx _ _ s _ _ _ Hrep E) as Hrep1.
  destruct (CheckTxInputs_spec tx tx_state (cn_view st) height (sum_values (vout tx)) Hc Hcb) as (c1' & r' & E' & _ & _ & _ & Hr & _);
    [by apply tx_checked_value|].
  rewrite E in E'. injection E' as <- <-. destruct r as [txst|fee].
  { injection H as <- <-. apply Invalid_not_valid. }
  destruct (proj1 (Hr fee) eq_refl) as (Hok & Hmax & Hpos & Hfee). clear Hr E.
  rewrite (input_ok_ext _ _ _ _ Hm) in Hok. rewrite (inputs_value_ext _ _ _ Hm) in Hmax, Hfee.
  destruct (inputs_found _ _ _ Hok) as (undo & Hu & Hv). rewrite Hv in Hmax, Hfee.
  pose proof (sum_values_nonneg _ (proj1 (ck_values tx Hck))). unfold MAX_MONEY, COIN in *.
  rewrite i64_small in H by (unfold is_i64; lia). destruct (MoneyRange (nFees st + fee)) eqn:Em; cbn [negb] in H.
  2: { injection H as <- <-. apply Invalid_not_valid. }
  apply MoneyRange_iff in Em. unfold MAX_MONEY, COIN in Em. pose proof (prev_heights_reads (vin tx) c1 s Hrep1) as Hrep2.
  destruct (prev_heights c1 (vin tx)) as [c2 hs]. apply bind_Some in H as ([] & _ & H); injection H as <- <-; [|apply Invalid_not_valid].
  split; [|done]. exists undo, fee. cbn [nFees]. split_and!; [done..|lia].
Qed.

Lemma connect_scripts_reads (tx : CTransaction) (st st' : state) (s : coin_set) (ok : bool) :
  represents (cn_view st) s -> connect_scripts VerifyScript flags fCacheResults deferred tx st = Some (ok, st') ->
  if ok then
    represents (cn_view st') s /\ cn_state st' = cn_state st /\ nFees st' = nFees st /\ vtxundo st' = vtxundo st /\
    (all_queued -> forall undo, finds (cs_coins s) (vin tx) undo -> queues st st' [tx] [undo])
  else IsValidState (cn_state st') = false.
Proof.
  intros Hrep. unfold connect_scripts. intros ([[[[tx_ok txst] view] vc] checks] & E & H)%bind_Some.
  destruct tx_ok; injection H as <- <-; [|apply Invalid_not_valid]. cbn [cn_view cn_state nFees vtxundo control].
  enough (represents view s /\ (all_queued -> forall undo, finds (cs_coins s) (vin tx) undo ->
    cache_shrinks (cn_scripts st) vc /\ (checks_of tx undo ⊆ checks \/ in_cache (cn_scripts st) tx))) as [H1 H2].
  { split_and!; [done..|]. intros Hq undo Hf. destruct (H2 Hq undo Hf). split; [done|]. exists checks. split; [done|]. by constructor. }
  unfold CheckInputScripts in E. unfold checks_of, all_queued. destruct (IsCoinBase tx); [injection E as _ <- <- <-; split; [done|]; intros _ undo _; split; [done|by left]|].
  assert (Hkn : cache_knows known -> (fst (contains (m_script_execution_cache (cn_scripts st)) (hashCacheEntry (cn_scripts st) tx flags) (negb fCacheResults)) = true ->
      in_cache (cn_scripts st) tx) /\ forall e, known (snd (contains (m_script_execution_cache (cn_scripts st)) (hashCacheEntry (cn_scripts st) tx flags) (negb fCacheResults))) e ->
      known (m_script_execution_cache (cn_scripts st)) e) by (intros Hkn; split; [apply (contains_known _ Hkn)|apply (contains_keeps _ Hkn)]).
  destruct (contains _ _ _) as [[] k] eqn:Ek; cbn [fst snd] in *.
  { injection E as _ <- <- _. split; [done|]. intros (_ & _ & Hc) undo _. destruct (Hkn Hc). split; [by split|]. right. auto. }
  apply bind_Some in E as ([c1 outs] & E1 & E). apply (spent_outputs_reads _ _ _ s) in E1 as [H1 Ho]; [|done].
  destruct deferred.
  - injection E as _ <- <- <-. split; [done|]. intros (_ & _ & Hc) undo Hf. destruct (Hkn Hc). split; [by split|]. left. by rewrite (spent_outputs_undo (cs_coins s) (vin tx) outs undo Ho Hf).
  - apply bind_Some in E as ([[error debug]|] & _ & E); [destruct (negb _) in E; cbn in E; discriminate|].
    injection E as _ <- _ _. split; [done|]. by intros (_ & ? & _).
Qed.

(** One transaction that passes does what [connects_tx] says. *)
Lemma connect_tx_spec (first : bool) (tx : CTransaction) (st st' : state) (s : coin_set) (ok : bool) :
  represents (cn_view st) s -> tx_checked tx -> 0 <= nFees st <= MAX_MONEY ->
  (if IsCoinBase tx then unnamed (cs_coins s) tx
   else Forall (fun i => is_Some (cs_coins s !! prevout i)) (vin tx) -> unnamed (spend_all (cs_coins s) (vin tx)) tx) ->
  connect_tx VerifyScript m pindex height nLockTimeFlags flags fScriptChecks fCacheResults deferred first tx st = Some (ok, st') ->
  if ok then
    exists undo fee m', connects_tx height (cs_coins s) tx undo fee m' /\ represents (cn_view st') (cs_update s m') /\
      nFees st' = nFees st + fee /\ 0 <= nFees st' <= MAX_MONEY /\ cn_state st' = cn_state st /\
      vtxundo st' = (if first then vtxundo st else vtxundo st ++ [undo]) /\
      (all_queued -> queues st st' [tx] [undo])
  else IsValidState (cn_state st') = false.
Proof.
  intros Hrep Hck Hfees Hun. unfold connect_tx. intros ([ok1 st1] & E1 & H)%bind_Some.
  assert (H1 : if ok1 then
    (exists undo fee m', connects_tx height (cs_coins s) tx undo fee m' /\ nFees st1 = nFees st + fee /\ 0 <= nFees st1 <= MAX_MONEY) /\
    represents (cn_view st1) s /\ cn_state st1 = cn_state st /\ vtxundo st1 = vtxundo st /\ control st1 = control st /\ cn_scripts st1 = cn_scripts st
    else IsValidState (cn_state st1) = false).
  { destruct (IsCoinBase tx) eqn:Hcb.
    - injection E1 as <- <-. split; [|done]. do 3 eexists. split; [by apply connects_coinbase|]. lia.
    - apply (connect_inputs_spec tx st st1 s ok1 Hrep Hcb Hck Hfees) in E1. destruct ok1; [|done].
      destruct E1 as ((undo & fee & Hf & Hok & Hfee & Hpos & Hsum & Hmax) & Hr & Hs & Hu & Hctl). split; [|done].
      exists undo, fee. eexists. split; [|lia]. apply connects_spend; try done; [apply (ck_inputs tx Hck)|].
      eapply Hun, finds_some, Hf. }
  destruct ok1; cbn [negb] in H; [|by injection H as <- <-]. destruct H1 as ((undo & fee & m' & Hc & Hsum & Hmax) & Hrep1 & Hst1 & Hun1 & Hctl1 & Hsc1).
  apply bind_Some in H as ([c2 cost] & E2 & H). apply (GetTransactionSigOpCost_reads _ _ _ s) in E2; [|done].
  destruct (_ >? _); [injection H as <- <-; apply Invalid_not_valid|]. apply bind_Some in H as ([ok3 st3] & E3 & H).
  assert (H3 : if ok3 then
      represents (cn_view st3) s /\ cn_state st3 = cn_state st1 /\ nFees st3 = nFees st1 /\ vtxundo st3 = vtxundo st1 /\
      (all_queued -> queues st st3 [tx] [undo])
    else IsValidState (cn_state st3) = false).
  { destruct (negb (IsCoinBase tx) && fScriptChecks) eqn:Esc.
    - apply (connect_scripts_reads _ _ _ s) in E3; [|done]. destruct ok3; [|done]. destruct E3 as (? & ? & ? & ? & Hctl). split_and!; [done..|].
      intros Hq. destruct (Hctl Hq undo) as [Q1 Q2]; [destruct Hc as [Hcb|]; [by rewrite Hcb in Esc|done]|]. cbn [cn_scripts control] in Q1, Q2.
      rewrite Hsc1 in Q1, Q2. rewrite Hctl1 in Q2. by split.
    - injection E3 as <- <-. split_and!; [done..|]. intros (Hs & _). rewrite Hs, andb_true_r in Esc. apply negb_false_iff in Esc.
      split; cbn [control cn_scripts]; [by rewrite Hsc1|]. exists []. rewrite Hctl1, app_nil_r. split; [done|]. constructor; [|done]. left. unfold checks_of. by rewrite Esc. }
  destruct ok3; cbn [negb] in H; [|by injection H as <- <-]. destruct H3 as (Hrep3 & Hst3 & Hf3 & Hu3 & Hctl3).
  destruct (UpdateCoins_represents (cn_view st3) s tx height fee undo m' Hrep3 Hck Hc) as (c4 & E4 & Hrep4). rewrite E4 in H.
  injection H as <- <-. exists undo, fee, m'. cbn [cn_view nFees cn_state vtxundo control].
  rewrite Hf3, Hst3, Hu3, Hun1, Hst1. split_and!; [done..|lia|lia|done|done|exact Hctl3].
Qed.

(** The rest of a block after its coinbase. *)
Lemma connect_loop_spends (all done txs : list CTransaction) (m0 : coins) (st st' : state) (s : coin_set) :
  progress m0 done (cs_coins s) -> txids_commit all -> Forall (fun t => t ∈ all) done -> Forall (fun t => t ∈ all) txs ->
  Forall (unnamed m0) txs -> Forall tx_checked txs -> Forall (fun tx => IsCoinBase tx = false) txs ->
  represents (cn_view st) s -> 0 <= nFees st <= MAX_MONEY ->
  connect_loop VerifyScript m pindex height nLockTimeFlags flags fScriptChecks fCacheResults deferred false txs st = Some st' ->
  IsValidState (cn_state st') = true ->
  exists undos fees m', connects height (cs_coins s) txs undos fees m' /\ represents (cn_view st') (cs_update s m') /\
    nFees st' = nFees st + fees /\ 0 <= nFees st' <= MAX_MONEY /\ vtxundo st' = vtxundo st ++ undos /\
    (all_queued -> queues st st' txs undos).
Proof.
  revert done st s; induction txs as [|tx txs IH]; intros done st s Hp Hcm Hd Ha Hu Hck Hcb Hrep Hfees; cbn [connect_loop].
  { intros [= <-] _. exists [], 0, (cs_coins s). split; [constructor|]. rewrite app_nil_r.
    split_and!; [by destruct s|lia..|done|]. intros _. apply queues_nil. }
  apply Forall_cons in Ha as [Htx Ha], Hu as [Hu1 Hu], Hck as [Hck1 Hck], Hcb as [Hcb1 Hcb].
  destruct (IsValidState (cn_state st)) eqn:Hv; cbn [negb]; [|intros [= <-] ?; congruence].
  intros ([ok st1] & E & H)%bind_Some Hv'.
  assert (Hnew : Forall (fun i => is_Some (cs_coins s !! prevout i)) (vin tx) -> forall t, t ∈ done -> ComputeHash t <> ComputeHash tx)
    by (intros; by eapply progress_new).
  apply (connect_tx_spec false tx st st1 s ok Hrep Hck1 Hfees) in E.
  2: { rewrite Hcb1. intros Hin. apply spend_all_unnamed. eapply progress_unnamed; [done..|]. by apply Hnew. }
  destruct ok; [|injection H as <-; congruence]. destruct E as (undo & fee & m1 & Hc & Hrep1 & Hsum & Hmax & Hst & Hun & Hctl).
  assert (Hin : Forall (fun i => is_Some (cs_coins s !! prevout i)) (vin tx) /\ m1 = add_outputs (spend_all (cs_coins s) (vin tx)) height tx).
  { destruct Hc as [?|undo fee _ Hf]; [congruence|]. split; [|done]. by eapply finds_some. }
  destruct Hin as [Hin Hm1].
  destruct (IH (done ++ [tx]) st1 (cs_update s m1)) as (undos & fees & m' & Hcs & Hrep2 & Hsum2 & Hmax2 & Hun2 & Hctl2); try done.
  - cbn [cs_update cs_coins]. rewrite Hm1. apply progress_add; [done..|by apply Hnew|by split].
  - apply Forall_app. split; [done|by apply Forall_singleton].
  - exists (undo :: undos), (fee + fees), m'. split; [by econstructor|]. rewrite Hun2, Hun, <- app_assoc. split_and!; [done|lia..|done|].
    intros Hq. exact (queues_app st st1 st' [tx] txs [undo] undos (Hctl Hq) (Hctl2 Hq)).
Qed.

(** All of a block. *)
Lemma connect_loop_spec (coinbase : CTransaction) (txs : list CTransaction) (st st' : state) (s : coin_set) :
  txids_commit (coinbase :: txs) -> Forall (unnamed (cs_coins s)) (coinbase :: txs) -> Forall tx_checked (coinbase :: txs) ->
  IsCoinBase coinbase = true -> Forall (fun tx => IsCoinBase tx = false) txs ->
  represents (cn_view st) s -> nFees st = 0 -> vtxundo st = [] ->
  connect_loop VerifyScript m pindex height nLockTimeFlags flags fScriptChecks fCacheResults deferred true (coinbase :: txs) st = Some st' ->
  IsValidState (cn_state st') = true ->
  exists m', connects height (cs_coins s) (coinbase :: txs) ([] :: vtxundo st') (nFees st') m' /\
    represents (cn_view st') (cs_update s m') /\ 0 <= nFees st' <= MAX_MONEY /\
    (all_queued -> queues st st' (coinbase :: txs) ([] :: vtxundo st')).
Proof.
  intros Hcm Hu Hck Hcb Hcbs Hrep Hf0 Hu0. cbn [connect_loop].
  destruct (IsValidState (cn_state st)) eqn:Hv; cbn [negb]; [|intros [= <-] ?; congruence].
  pose proof Hu as Hu'. pose proof Hck as Hck'. apply Forall_cons in Hu' as [Hu1 Hu2], Hck' as [Hck1 Hck2].
  intros ([ok st1] & E & H)%bind_Some Hv'. apply (connect_tx_spec true coinbase st st1 s ok Hrep Hck1) in E; [|by rewrite Hf0|by rewrite Hcb].
  destruct ok; [|injection H as <-; congruence]. destruct E as (undo & fee & m1 & Hc & Hrep1 & Hsum & Hmax & Hst & Hun & Hctl).
  assert (Hin : undo = [] /\ fee = 0 /\ m1 = add_outputs (spend_all (cs_coins s) []) height coinbase) by (destruct Hc; [done|congruence]).
  destruct Hin as (-> & -> & ->).
  eapply (connect_loop_spends (coinbase :: txs) [coinbase] txs (cs_coins s)) in H as (undos & fees & m' & Hcs & Hrep2 & Hsum2 & Hmax2 & Hun2 & Hctl2);
    [| |done| | |done..].
  - exists m'. rewrite Hun2, Hun, Hu0. split_and!; [|done|lia..|].
    + replace (nFees st') with (0 + fees) by lia. by econstructor.
    + intros Hq. exact (queues_app st st1 st' [coinbase] txs [[]] undos (Hctl Hq) (Hctl2 Hq)).
  - cbn [cs_update cs_coins]. apply (progress_add _ _ []); [apply progress_start|done|intros t Ht; by apply elem_of_nil in Ht|congruence].
  - apply Forall_singleton. by left.
  - apply Forall_forall. intros t Ht. by right.
Qed.

End Loop.

(** ** Blocks *)

(** One coinbase in front, and well-formed transactions. *)
Definition block_shape (txs : list CTransaction) : Prop :=
  Forall tx_checked txs /\ exists coinbase rest, txs = coinbase :: rest /\ IsCoinBase coinbase = true /\ Forall (fun tx => IsCoinBase tx = false) rest.

(** A block creates at most the subsidy, when its coinbase takes at most the fees and the subsidy. *)
Lemma connects_value (h subsidy : Z) (m m' : coins) (txs : list CTransaction) (undos : list CTxUndo) (fees : Z) :
  block_shape txs -> connects h m txs undos fees m' -> (forall coinbase, head txs = Some coinbase -> sum_values (vout coinbase) <= fees + subsidy) ->
  total_value m' <= total_value m + subsidy.
Proof.
  intros [_ (cb & rest & -> & Hcb & Hcbs)] Hcs Hle. specialize (Hle cb eq_refl).
  inversion Hcs as [|? m1 ? ? ? ? ? fee fees' Htx Hck Hrest]; subst. apply connects_spends_value in Hrest; [|done].
  assert (fee = 0) by (inversion Htx; congruence). apply connects_tx_value in Htx; [|done]. rewrite Hcb in Htx. lia.
Qed.

Lemma CheckMerkleRoot_keeps (b b' : CBlock) (state state' : BlockValidationState) :
  CheckMerkleRoot b state = Some (true, state', b') -> state' = state /\ vtx b' = vtx b /\ header b' = header b /\ fChecked b' = fChecked b.
Proof.
  unfold CheckMerkleRoot. destruct (m_checked_merkle_root b); [by intros [= -> ->]|]. intros ([root mutated] & _ & H)%bind_Some.
  destruct (negb _); [discriminate|]. destruct mutated; [discriminate|]. by injection H as <- <-.
Qed.

Lemma CheckBlock_shape (signet : CBlock -> bool) (params : Params) (b b' : CBlock) (state state' : BlockValidationState) (pow root : bool) :
  (fChecked b = true -> block_shape (vtx b)) -> CheckBlock signet params b state pow root = Some (true, state', b') ->
  state' = state /\ vtx b' = vtx b /\ block_shape (vtx b).
Proof.
  intros Hf. unfold CheckBlock. destruct (fChecked b); [intros [= -> ->]; auto|]. destruct (_ && _ && _); [discriminate|].
  intros ([[ok st1] b1] & E1 & H)%bind_Some. destruct ok; cbn [negb] in H; [|discriminate].
  assert (Hk : st1 = state /\ vtx b1 = vtx b).
  { destruct root; [|by injection E1 as <- <-]. by apply CheckMerkleRoot_keeps in E1 as (? & ? & _). }
  destruct Hk as [-> Hv]. rewrite Hv in H. destruct (_ || _); [discriminate|]. destruct (vtx b) as [|cb txs] eqn:Evtx; [discriminate|].
  destruct (IsCoinBase cb) eqn:Ecb; cbn [negb tail] in H; [|discriminate]. destruct (existsb IsCoinBase txs) eqn:Etx; [discriminate|].
  destruct (check_transactions_spec (cb :: txs) state) as [[Htx E]|[_ (r & d & E)]]; rewrite E in H; cbn [mbind option_bind negb] in H; [|discriminate].
  apply bind_Some in H as (n & _ & H). destruct (_ >? _); [discriminate|].
  assert (Hb' : state' = state /\ vtx b' = vtx b1) by (injection H as <- <-; split; [done|]; by destruct (pow && root)).
  destruct Hb' as [-> ->]. split; [done|]. split; [done|]. split; [done|]. exists cb, txs. split_and!; [done|done|]. by apply existsb_false_Forall.
Qed.

Section Connect.
Context {B : Type} {HV : CoinsView B} {HL : LawfulView B} {K : Type} {HK : ScriptCache K}.
Context (VerifyScript : CScript -> CScript -> list (list Z) -> Z -> CTransaction -> nat -> Z -> bool -> list CTxOut -> option string).
Context (pick_failure : list (string * string) -> nat) (signet : CBlock -> bool) (params : Params) (opts : ChainstateOptions).
#[local] Abbreviation cache := (CCoinsViewCache B).

Lemma check_reward_valid (h : Z) (deferred : bool) (txs : list CTransaction) (st : connecting (B := B) (K := K)) (state : BlockValidationState) :
  check_reward VerifyScript pick_failure params h deferred txs st = Some state -> IsValidState state = true ->
  cn_state st = state /\ exists subsidy coinbase value_out, GetBlockSubsidy h params = Some subsidy /\ head txs = Some coinbase /\
    GetValueOut coinbase = Some value_out /\ value_out <= i64 (nFees st + subsidy) /\
    (deferred = true -> Complete VerifyScript pick_failure (control st) = Some None).
Proof.
  unfold check_reward. intros (subsidy & Es & H)%bind_Some Hv. apply bind_Some in H as (coinbase & Ec & H).
  apply bind_Some in H as (value_out & Ev & H). cbv zeta in H. rewrite Z.gtb_ltb in H.
  set (st1 := if (i64 (nFees st + subsidy) <? value_out) && IsValidState (cn_state st) then _ else _) in H.
  assert (E1 : st1 = state /\ (deferred = true -> Complete VerifyScript pick_failure (control st) = Some None)).
  { destruct deferred; [|by injection H]. apply bind_Some in H as ([[error debug]|] & Er & H); [|by injection H].
    destruct (IsValidState st1) eqn:Ev1; apply (inj Some) in H; [by rewrite <- H, Invalid_not_valid in Hv|congruence]. }
  clear H. destruct E1 as [E1 Hd]. rewrite <- E1 in Hv. subst st1.
  destruct (Z.ltb_spec (i64 (nFees st + subsidy)) value_out) as [Hlt|Hge]; cbn [andb] in E1, Hv.
  - exfalso. destruct (IsValidState (cn_state st)) eqn:Ev'; [by rewrite Invalid_not_valid in Hv|congruence].
  - split; [done|]. exists subsidy, coinbase, value_out. by split_and!.
Qed.

Lemma subsidy_range (h subsidy : Z) :
  0 < nSubsidyHalvingInterval params -> 0 <= h -> GetBlockSubsidy h params = Some subsidy -> 0 <= subsidy <= 50 * COIN.
Proof.
  intros Hint Hh. rewrite (GetBlockSubsidy_epoch params Hint h Hh). intros [= <-]. split; [apply epoch_subsidy_nonneg|].
  assert (Hq : 0 <= h / nSubsidyHalvingInterval params) by (apply Z.div_pos; lia).
  unfold epoch_subsidy. destruct (64 <=? _); [done|]. rewrite Z.shiftr_div_pow2 by done. pose proof (Z.pow_pos_nonneg 2 _ ltac:(lia) Hq).
  apply Z.div_le_upper_bound; unfold COIN; lia.
Qed.

(** The queue reports nothing exactly when every check passes. *)
Definition passes (check : CScriptCheck) : Prop := run_check VerifyScript check = Some None.

Lemma Complete_none (checks : list CScriptCheck) : Complete VerifyScript pick_failure checks = Some None <-> Forall passes checks.
Proof.
  unfold Complete. split.
  - intros (results & E & H)%bind_Some. apply mapM_Some_1 in E. destruct (omap id results) as [|e l] eqn:Eo; [|discriminate].
    induction E as [|check r checks results Er _ IH]; [constructor|]. cbn in Eo. destruct r as [e|]; [discriminate|].
    constructor; [exact Er|by apply IH].
  - intros Hf. assert (E : mapM (run_check VerifyScript) checks = Some (map (fun _ => None) checks)).
    { apply mapM_Some_2. induction Hf; constructor; done. }
    rewrite E. cbn [mbind option_bind]. assert (Eo : omap id (map (fun _ : CScriptCheck => @None (string * string)) checks) = []).
    { clear. by induction checks. }
    by rewrite Eo.
Qed.

(** Writing undo data and raising the validity change the status of the entry only. *)
Lemma WriteBlockUndo_keeps (undo : CBlockUndo) (bm bm' : BlockManager) (pindex : uint256) (state state' : BlockValidationState) (index : CBlockIndex)
    (disk : option string) (written : option CBlockUndo) :
  m_block_index bm !! pindex = Some index -> WriteBlockUndo undo bm pindex state disk = Some (true, state', bm', written) ->
  (exists index', m_block_index bm' !! pindex = Some index' /\ nHeight index' = nHeight index /\ pprev index' = pprev index) /\
  (forall u, written = Some u -> u = undo).
Proof.
  intros Hix. unfold WriteBlockUndo. rewrite Hix. cbn [mbind option_bind]. destruct (negb _); [intros [= _ <- <-]; split; [by exists index|done]|].
  destruct disk; [discriminate|]. intros [= _ <- <-]. cbn [m_block_index]. rewrite lookup_insert_eq. split; [by eexists|]. by intros u [= <-].
Qed.

Lemma raise_scripts_keeps (bm bm' : BlockManager) (pindex : uint256) (index : CBlockIndex) :
  m_block_index bm !! pindex = Some index -> raise_scripts bm pindex = Some bm' ->
  exists index', m_block_index bm' !! pindex = Some index' /\ nHeight index' = nHeight index /\ pprev index' = pprev index.
Proof.
  intros Hix. unfold raise_scripts. rewrite Hix. cbn [mbind option_bind]. destruct (IsValid index _); [intros [= <-]; by exists index|].
  intros [= <-]. cbn [m_block_index]. rewrite lookup_insert_eq. eexists. split; [done|]. unfold RaiseValidity.
  destruct (negb _); [done|]. by destruct (_ <? _).
Qed.

(** An accepted block does what [connects] says, and its coinbase takes no more than the fees and the subsidy. *)
Lemma ConnectBlock_connects (b : CBlock) (state : BlockValidationState) (bm : BlockManager) (pindex : uint256) (index : CBlockIndex)
    (view : cache) (vc : ValidationCache K) (disk : option string) (s : coin_set) (r : connect_result) :
  represents view s -> (fChecked b = true -> block_shape (vtx b)) -> txids_commit (vtx b) ->
  m_block_index bm !! pindex = Some index -> 0 <= nHeight index -> pindex <> 0 -> pindex <> hashGenesisBlock params ->
  0 < nSubsidyHalvingInterval params -> bip30_checked params (m_block_index bm) pindex = Some true ->
  ConnectBlock VerifyScript pick_failure signet params opts b state bm pindex view vc false disk = Some r -> r_ok r = true ->
  block_shape (vtx b) /\ pprev index = Some (cs_best s) /\
  exists undos fees m' subsidy, connects (nHeight index) (cs_coins s) (vtx b) ([] :: undos) fees m' /\
    represents (r_view r) (mkCoinSet m' pindex true) /\ (forall u, r_undo r = Some u -> u = undos) /\
    (exists index', m_block_index (r_index r) !! pindex = Some index' /\ nHeight index' = nHeight index /\ pprev index' = pprev index) /\
    GetBlockSubsidy (nHeight index) params = Some subsidy /\
    (forall reason known, script_check_reason opts params bm pindex = Some (Some reason) -> HasThreads opts = true -> cache_knows known ->
       Forall2 (fun tx undo => Forall passes (checks_of (GetBlockScriptFlags index pindex params) false tx undo) \/
                               in_cache (GetBlockScriptFlags index pindex params) known vc tx) (tail (vtx b)) undos) /\
    forall coinbase, head (vtx b) = Some coinbase -> sum_values (vout coinbase) <= fees + subsidy.
Proof.
  intros Hrep Hshape Hcm Hix Hh Hnz Hgen Hint Hbip. unfold ConnectBlock. rewrite Hix. cbn [mbind option_bind negb].
  destruct (Z.eqb_spec pindex (CBlockHeader_GetHash (header b))) as [Ehash|]; cbn [negb]; [|done].
  intros ([[ok st0] b0] & E0 & H)%bind_Some Hok. destruct ok; cbn [negb] in H; [|injection H as <-; discriminate].
  apply CheckBlock_shape in E0 as (-> & Hv & Hsh); [|done]. rewrite Hv in H.
  destruct (run_op_refines view s (mkCoinSet (cs_coins s) (cs_best s) (cs_known s || negb (cs_best s =? 0))) OpBest (ObsHash (cs_best s)) Hrep eq_refl)
    as (c1 & E1 & Hrep1). cbn [run_op] in E1. destruct (GetBestBlock view) as [c1' best]. injection E1 as -> ->.
  destruct (Z.eqb_spec (default 0 (pprev index)) (cs_best s)) as [Ebest|]; cbn [negb] in H; [|done].
  rewrite <- Ehash, (proj2 (Z.eqb_neq _ _) Hgen) in H. apply bind_Some in H as (reason & Ereason & H). rewrite Hbip in H. cbn [mbind option_bind] in H.
  match type of Hrep1 with represents _ ?x => set (s1 := x) in Hrep1 end.
  destruct (bip30_loop_reads (vtx b) c1 s1 state Hrep1) as [Hrep2 Hun]. destruct (bip30_loop c1 state (vtx b)) as [c2 st2]. cbn [fst snd] in *.
  apply bind_Some in H as (st3 & E3 & H). apply bind_Some in H as (st4 & E4 & H).
  destruct (IsValidState st4) eqn:Hv4; cbn [negb] in H; [|injection H as <-; discriminate].
  pose proof Hsh as [Hck (cb & rest & Evtx & Hcb & Hcbs)]. rewrite Evtx in *. pose proof (Forall_inv Hck) as Hck1.
  apply check_reward_valid in E4 as [E4 (subsidy & cb' & value_out & Hsub & Ecb & Hval & Hle & Hdone)]; [|done]. injection Ecb as <-.
  assert (Hv2 : IsValidState st2 = true).
  { destruct (IsValidState st2) eqn:Hv2; [done|]. cbn [connect_loop cn_state] in E3. rewrite Hv2 in E3. injection E3 as <-. cbn in E4. congruence. }
  destruct (Hun Hv2) as [-> Hun'].
  pose proof E3 as Eloop. apply connect_loop_spec with (s := s1) (known := fun _ _ => True) in E3 as (m' & Hcs & Hrep3 & Hfees & _); [|done..|by rewrite E4].
  rewrite (tx_checked_value cb Hck1) in Hval. injection Hval as <-. pose proof (subsidy_range _ _ Hint Hh Hsub) as Hr.
  unfold MAX_MONEY, COIN in *. rewrite i64_small in Hle by (unfold is_i64; lia).
  apply bind_Some in H as ([[[ok5 st5] bm5] written] & E5 & H). destruct ok5; cbn [negb] in H; [|injection H as <-; discriminate].
  apply bind_Some in H as (bm6 & E6 & H). injection H as <-. cbn [r_view r_undo r_index].
  apply WriteBlockUndo_keeps with (index := index) in E5 as ((index5 & Hix5 & Hk5) & Hu5); [|done].
  apply raise_scripts_keeps with (index := index5) in E6 as (index6 & Hix6 & Hk6); [|done]. split; [done|]. split.
  { unfold bip30_checked in Hbip. rewrite Hix in Hbip. cbn [mbind option_bind] in Hbip. apply bind_Some in Hbip as (prev & Ep & _).
    rewrite Ep in Ebest |- *. cbn in Ebest. by rewrite Ebest. }
  exists (vtxundo st3), (nFees st3), m', subsidy. split; [exact Hcs|]. split; [|split; [done|split; [|split; [done|split; [|by intros ? [= <-]]]]]].
  - destruct (run_op_refines (cn_view st3) (cs_update s1 m') (mkCoinSet m' pindex true) (OpSetBest pindex) ObsNone Hrep3) as (c & E & Hrep6).
    { cbn [spec_op]. by rewrite (proj2 (Z.eqb_neq pindex 0) Hnz). }
    cbn [run_op] in E. by injection E as <-.
  - exists index6. split; [done|]. destruct Hk5, Hk6. split; congruence.
  - intros reason' known Er Ht Hkn. rewrite Er in Ereason. injection Ereason as <-. rewrite Ht in Hdone, Eloop. specialize (Hdone eq_refl).
    apply Complete_none in Hdone. apply connect_loop_spec with (s := s1) (known := known) in Eloop as (_ & _ & _ & _ & Hctl); [|done..|by rewrite E4]. destruct (Hctl (conj eq_refl (conj eq_refl Hkn))) as [_ (l & El & Hl)]. rewrite El in Hdone. apply Forall2_cons in Hl as [_ Hl]. eapply Forall2_impl; [exact Hl|].
    intros tx undo [H|H]; [left|by right]. apply Forall_forall. intros check Hcheck. rewrite Forall_forall in Hdone. apply Hdone. apply elem_of_app. right. by apply H.
Qed.

End Connect.

(** ** Taking a block back *)

Section Disconnect.
Context {B : Type} {HV : CoinsView B} {HL : LawfulView B}.
#[local] Abbreviation cache := (CCoinsViewCache B).

Lemma ApplyTxInUndo_represents (c : cache) (s : coin_set) (o : COutPoint) (cn : Coin) :
  represents c s -> cs_coins s !! o = None -> coin_ok cn ->
  exists c', ApplyTxInUndo cn c o = Some (c', DISCONNECT_OK) /\ represents c' (cs_update s (<[o := cn]> (cs_coins s))).
Proof.
  intros Hrep Hn (Hval & Hh & Hsp). unfold ApplyTxInUndo. destruct (HaveCoin_reads c s o Hrep) as [H1 H2].
  destruct (HaveCoin c o) as [c1 have]. cbn [fst snd] in *. rewrite Hn in H2. subst have.
  rewrite (proj2 (Z.eqb_neq (coin_nHeight cn) 0)) by lia.
  destruct (run_OpAdd c1 s (cs_update s (<[o := cn]> (cs_coins s))) ObsNone o cn false H1) as (c2 & E & H3).
  - cbn [spec_op]. rewrite Hn, Hsp. unfold IsSpent, CTxOut_IsNull. by rewrite (proj2 (Z.eqb_neq (nValue (out cn)) (-1))) by (unfold coin_value in Hval; lia).
  - cbn [run_op] in E. apply bind_Some in E as (c3 & E & [= ->]). exists c2. split; [|done].
    change (negb (negb (bool_decide (is_Some (None : option Coin))))) with false. by rewrite E.
Qed.

(** The outputs of a transaction are all found again. *)
Lemma remove_outputs_represents (outs : list CTxOut) (c : cache) (s : coin_set) (m : coins) (txid : uint256) (cb ex : bool) (h : Z) (i : nat)
    (clean : bool) :
  represents c s -> cs_coins s = cs_add_outputs m txid cb h i outs -> Forall (fun x => 0 <= nValue x) outs ->
  (forall n, (i <= n < i + length outs)%nat -> m !! mkOutPoint txid (Z.of_nat n) = None) ->
  exists c', remove_outputs c txid cb ex h i outs clean = (c', clean) /\ represents c' (cs_update s m).
Proof.
  intros Hrep Hm Hv. revert c s i Hrep Hm. induction Hv as [|x outs Hx _ IH]; intros c s i Hrep Hm Hn; cbn [remove_outputs cs_add_outputs] in *.
  { exists c. split; [done|]. rewrite <- Hm. by destruct s. }
  assert (Hn' : forall n, (S i <= n < S i + length outs)%nat -> m !! mkOutPoint txid (Z.of_nat n) = None) by (intros; apply Hn; cbn [length]; lia).
  destruct (IsUnspendable (scriptPubKey x)); [by apply IH|]. set (o := mkOutPoint txid (Z.of_nat i)) in *.
  destruct (SpendCoin_represents c s o Hrep) as [H1 H2]. destruct (SpendCoin c o) as [c1 r]. cbn [fst snd] in *.
  rewrite Hm, lookup_insert_eq in H2. apply bind_unspent in H2 as ->. cbn [out coin_nHeight fCoinBase].
  rewrite bool_decide_true, Z.eqb_refl, Bool.eqb_reflx, orb_true_l, andb_true_r by done.
  rewrite Hm, delete_insert_id in H1.
  - by apply (IH c1 _ (S i)) in H1.
  - rewrite cs_add_outputs_lookup. unfold lookup_out, o. cbn [op_n op_hash]. rewrite decide_False by lia. apply Hn. cbn [length]. lia.
Qed.

Lemma restore_inputs_app (ins1 ins2 : list CTxIn) (u1 u2 : list Coin) (c : cache) (clean : bool) :
  length ins1 = length u1 ->
  restore_inputs c (ins1 ++ ins2) (u1 ++ u2) clean =
    '(c1, r) ← restore_inputs c ins1 u1 clean; match r with None => Some (c1, None) | Some clean1 => restore_inputs c1 ins2 u2 clean1 end.
Proof.
  revert u1 c clean; induction ins1 as [|i ins1 IH]; intros [|u u1] c clean Hl; try done. cbn [app restore_inputs]. injection Hl as Hl.
  destruct (ApplyTxInUndo u c (prevout i)) as [[c1 []]|]; cbn [mbind option_bind]; [by apply IH..|done|done].
Qed.

(** The inputs of a transaction come back. *)
Lemma restore_inputs_represents (ins : list CTxIn) (undo : CTxUndo) (c : cache) (s : coin_set) (m : coins) (clean : bool) :
  represents c s -> finds m ins undo -> NoDup (map prevout ins) -> coins_ok m -> cs_coins s = spend_all m ins ->
  exists c', restore_inputs c (rev ins) (rev undo) clean = Some (c', Some clean) /\ represents c' (cs_update s m).
Proof.
  intros Hrep Hf. revert c s m Hrep Hf. induction ins as [|i ins IH] in undo |- *; intros c s m Hrep Hf Hnd Hok Hm;
    inversion Hf as [|? cn ? undo' Hi Hu]; subst.
  { exists c. split; [done|]. cbn in Hm. rewrite <- Hm. by destruct s. }
  cbn [map] in Hnd. apply NoDup_cons in Hnd as [Hni Hnd]. cbn [rev]. rewrite restore_inputs_app.
  2: { rewrite !length_rev. by apply (Forall2_length _ _ _ Hu). }
  destruct (IH undo' c s (delete (prevout i) m) Hrep) as (c1 & -> & H1); [by apply finds_delete|done| |done|].
  { intros o cn' Ho. apply lookup_delete_Some in Ho as [_ Ho]. by apply (Hok o). }
  cbn [mbind option_bind restore_inputs].
  destruct (ApplyTxInUndo_represents c1 _ (prevout i) cn H1) as (c2 & -> & H2); [apply lookup_delete_eq|by apply (Hok (prevout i))|].
  cbn [mbind option_bind]. rewrite bool_decide_eq_false_2, andb_true_r by done. exists c2. split; [done|].
  cbn [cs_update cs_coins] in H2. by rewrite insert_delete_id in H2.
Qed.

(** One transaction comes back. *)
Lemma disconnect_tx_represents (c : cache) (s : coin_set) (m : coins) (h : Z) (tx : CTransaction) (undo : CTxUndo) (fee : Z) (e clean : bool) :
  represents c s -> connects_tx h m tx undo fee (cs_coins s) -> tx_checked tx -> coins_ok m ->
  exists c', disconnect_loop c e h [(tx, if IsCoinBase tx then None else Some undo)] clean = Some (c', Some clean) /\ represents c' (cs_update s m).
Proof.
  intros Hrep Hc Hck Hok. cbn [disconnect_loop]. destruct (ck_values tx Hck) as [Hv _]. remember (cs_coins s) as m1 eqn:Em.
  destruct Hc as [Hcb Hu|undo fee Hcb Hf Hn Hin Hu _ _]; rewrite Hcb.
  - destruct (remove_outputs_represents (vout tx) c s m (ComputeHash tx) true (true && negb e) h 0 clean Hrep) as (c1 & -> & H1);
      [rewrite <- Em; unfold add_outputs; by rewrite Hcb|done|intros n Hl; apply Hu; lia|]. cbn [mbind option_bind]. by exists c1.
  - destruct (remove_outputs_represents (vout tx) c s (spend_all m (vin tx)) (ComputeHash tx) false (false && negb e) h 0 clean Hrep)
      as (c1 & -> & H1); [rewrite <- Em; unfold add_outputs; by rewrite Hcb|done|intros n Hl; apply Hu; lia|].
    rewrite (Forall2_length _ _ _ Hf), Nat.eqb_refl. cbn [negb].
    destruct (restore_inputs_represents (vin tx) undo c1 _ m clean H1 Hf Hn Hok) as (c2 & -> & H2); [done|]. cbn [mbind option_bind]. by exists c2.
Qed.

Lemma disconnect_loop_app (c : cache) (e clean : bool) (h : Z) (l1 l2 : list (CTransaction * option CTxUndo)) :
  disconnect_loop c e h (l1 ++ l2) clean =
    '(c1, r) ← disconnect_loop c e h l1 clean; match r with None => Some (c1, None) | Some clean1 => disconnect_loop c1 e h l2 clean1 end.
Proof.
  revert c clean; induction l1 as [|[tx undo] l1 IH]; intros c clean; [done|]. cbn [app disconnect_loop].
  destruct (remove_outputs _ _ _ _ _ _ _ _) as [c1 clean1].
  destruct (match undo with None => _ | Some txundo => _ end) as [[c2 [clean2|]]|]; cbn [mbind option_bind]; [apply IH|done|done].
Qed.

(** The undo data of a block with its transactions: none for the coinbase. *)
Definition undo_of (tx : CTransaction) (undo : CTxUndo) : option CTxUndo := if IsCoinBase tx then None else Some undo.

Lemma disconnect_loop_represents (h : Z) (m m' : coins) (txs : list CTransaction) (undos : list CTxUndo) (fees : Z) :
  connects h m txs undos fees m' -> 1 <= h -> coins_ok m ->
  forall (c : cache) (s : coin_set) (e clean : bool), represents c s -> cs_coins s = m' ->
  exists c', disconnect_loop c e h (rev (zip txs (zip_with undo_of txs undos))) clean = Some (c', Some clean) /\ represents c' (cs_update s m).
Proof.
  induction 1 as [m|m m1 m2 tx txs undo undos fee fees Htx Hck Hcs IH]; intros Hh Hok c s e clean Hrep Hm.
  { exists c. split; [done|]. rewrite <- Hm. by destruct s. }
  assert (Hok1 : coins_ok m1) by (destruct Htx; apply add_outputs_ok; try done; by apply spend_all_ok).
  destruct (IH Hh Hok1 c s e clean Hrep Hm) as (c1 & E1 & H1). cbn [zip_with rev]. rewrite disconnect_loop_app, E1. cbn [mbind option_bind].
  destruct (disconnect_tx_represents c1 (cs_update s m1) m h tx undo fee e clean H1 Htx Hck Hok) as (c2 & E2 & H2). by exists c2.
Qed.

Lemma zip_undo_of (coinbase : CTransaction) (txs : list CTransaction) (undos : list CTxUndo) :
  IsCoinBase coinbase = true -> Forall (fun tx => IsCoinBase tx = false) txs -> length txs = length undos ->
  zip_with undo_of (coinbase :: txs) ([] :: undos) = None :: map Some undos.
Proof.
  intros Hcb Hcbs Hl. cbn [zip_with]. unfold undo_of at 1. rewrite Hcb. f_equal. revert undos Hl.
  induction Hcbs as [|tx txs Htx _ IH]; intros [|u undos] Hl; try done. cbn [zip_with map]. unfold undo_of at 1. rewrite Htx, IH by (by injection Hl). done.
Qed.

Lemma connects_length (h : Z) (m m' : coins) (txs : list CTransaction) (undos : list CTxUndo) (fees : Z) :
  connects h m txs undos fees m' -> length txs = length undos.
Proof. induction 1; cbn; congruence. Qed.

(** A connected block comes back clean. *)
Lemma DisconnectBlock_represents (bm : BlockMap) (b : CBlock) (pindex prev : uint256) (index : CBlockIndex) (c : cache) (s : coin_set) (m : coins)
    (undos : list CTxUndo) (fees : Z) :
  bm !! pindex = Some index -> pprev index = Some prev -> prev <> 0 -> 1 <= nHeight index -> coins_ok m -> block_shape (vtx b) ->
  connects (nHeight index) m (vtx b) ([] :: undos) fees (cs_coins s) -> represents c s ->
  exists c', DisconnectBlock bm b pindex (Some undos) c = Some (c', DISCONNECT_OK) /\ represents c' (mkCoinSet m prev true).
Proof.
  intros Hix Hp Hnz Hh Hok [_ (cb & txs & Ev & Hcb & Hcbs)] Hcs Hrep. unfold DisconnectBlock. rewrite Hix. cbn [mbind option_bind].
  pose proof (connects_length _ _ _ _ _ _ Hcs) as Hl. rewrite Ev in *. cbn [length] in *. injection Hl as Hl.
  assert (El : (length undos + 1 =? S (length txs))%nat = true) by (apply Nat.eqb_eq; lia). rewrite El. cbn [negb].
  rewrite <- (zip_undo_of cb txs undos) by done.
  destruct (disconnect_loop_represents _ _ _ _ _ _ Hcs Hh Hok c s (negb (IsBIP30Unspendable pindex (nHeight index))) true Hrep eq_refl)
    as (c1 & -> & H1). cbn [mbind option_bind]. rewrite Hp. cbn [mbind option_bind].
  destruct (run_op_refines c1 (cs_update s m) (mkCoinSet m prev true) (OpSetBest prev) ObsNone H1) as (c2 & E & H2).
  { cbn [spec_op]. by rewrite (proj2 (Z.eqb_neq prev 0) Hnz). }
  cbn [run_op] in E. injection E as <-. by eexists.
Qed.

End Disconnect.

(** ** Worker threads *)

Definition with_threads (opts : ChainstateOptions) (b : bool) : ChainstateOptions := mkOptions (AssumedValidBlock opts) (MinimumChainWork opts) b.

Section Threads.
Context {B : Type} {HV : CoinsView B} {K : Type} {HK : ScriptCache K}.
Context (VerifyScript : CScript -> CScript -> list (list Z) -> Z -> CTransaction -> nat -> Z -> bool -> list CTxOut -> option string).
Context (pick_failure : list (string * string) -> nat) (signet : CBlock -> bool) (params : Params) (opts : ChainstateOptions).
#[local] Abbreviation state := (connecting (B := B) (K := K)).

Definition with_control (st : state) (l : list CScriptCheck) : state :=
  mkConnecting (cn_view st) (cn_state st) (cn_scripts st) (nFees st) (nSigOpsCost st) (vtxundo st) l.

Lemma run_checks_passes (checks : list CScriptCheck) : run_checks VerifyScript checks = Some None <-> Forall (passes VerifyScript) checks.
Proof.
  induction checks as [|check checks IH]; [by split|]. cbn [run_checks]. rewrite Forall_cons, <- IH. unfold passes.
  destruct (run_check VerifyScript check) as [[e|]|]; cbn [mbind option_bind]; split; intros H; try tauto; try discriminate; by destruct H.
Qed.

(** Running the checks in place is queueing them and running the queue of the transaction. *)
Lemma CheckInputScripts_deferred (tx : CTransaction) (ts : TxValidationState) (c : CCoinsViewCache B) (flags : Z) (sig : bool) (vc : ValidationCache K) :
  CheckInputScripts VerifyScript tx ts c flags sig false vc false =
    '(ok, ts', c', vc', checks) ← CheckInputScripts VerifyScript tx ts c flags sig false vc true;
    r ← run_checks VerifyScript checks;
    match r with
    | None => Some (ok, ts', c', vc', [])
    | Some (error, debug) =>
        Some (if negb (Z.land flags STANDARD_NOT_MANDATORY_VERIFY_FLAGS =? 0) then
                Invalid ts' TX_NOT_STANDARD ("mempool-script-verify-flag-failed (" +:+ error +:+ ")") debug
              else Invalid ts' TX_CONSENSUS ("block-script-verify-flag-failed (" +:+ error +:+ ")") debug, c', vc', [])
    end.
Proof.
  unfold CheckInputScripts. destruct (IsCoinBase tx); [done|]. destruct (contains _ _ _) as [[] k]; [done|].
  destruct (spent_outputs c (vin tx)) as [[c' outs]|]; [|done]. cbn [mbind option_bind].
  destruct (run_checks VerifyScript _) as [[[error debug]|]|]; cbn [mbind option_bind]; [|done|done]. by destruct (negb _).
Qed.

Lemma CheckInputScripts_queues (tx : CTransaction) (ts ts' : TxValidationState) (c c' : CCoinsViewCache B) (flags : Z) (sig ok : bool)
    (vc vc' : ValidationCache K) (checks : list CScriptCheck) :
  CheckInputScripts VerifyScript tx ts c flags sig false vc true = Some (ok, ts', c', vc', checks) -> ok = true.
Proof.
  unfold CheckInputScripts. destruct (IsCoinBase tx); [by intros [= <-]|]. destruct (contains _ _ _) as [[] k]; [by intros [= <-]|].
  intros ([c1 outs] & _ & [= <-])%bind_Some. done.
Qed.

Context (m : BlockMap) (pindex : uint256) (height nLockTimeFlags flags : Z) (fScriptChecks : bool).

(** A step that queues its checks, and the same step with the checks in place: when the first goes on, so does the second, to the same state,
    exactly if the queued checks pass. *)
Definition agree (l : list CScriptCheck) (queued in_place : option (bool * state)) : Prop :=
  (exists st' checks, queued = Some (true, with_control st' (l ++ checks)) /\ control st' = [] /\
     forall st2, in_place = Some (true, st2) <-> Forall (passes VerifyScript) checks /\ st2 = st') \/
  ((forall st2, queued <> Some (true, st2)) /\ (forall st2, in_place <> Some (true, st2))).

Lemma agree_none (l : list CScriptCheck) : agree l None None.
Proof. right. by split. Qed.

Lemma agree_same (l : list CScriptCheck) (ok : bool) (st st' : state) :
  control st' = [] -> (ok = true -> st = with_control st' l) -> agree l (Some (ok, st)) (Some (ok, st')).
Proof.
  intros Hc Hst. destruct ok; [|right; by split]. left. exists st', []. rewrite app_nil_r, (Hst eq_refl). split; [done|]. split; [done|].
  intros st2. split; [intros [= <-]; by split|]. by intros [_ ->].
Qed.

Lemma agree_bind (l : list CScriptCheck) (q p : option (bool * state)) (f g : state -> option (bool * state)) :
  agree l q p -> (forall st l', control st = [] -> agree l' (f (with_control st l')) (g st)) ->
  agree l ('(ok, st) ← q; if negb ok then Some (false, st) else f st) ('(ok, st) ← p; if negb ok then Some (false, st) else g st).
Proof.
  intros [(st1 & c1 & -> & Hc1 & Hp)|[Hq Hp]] Hf; cbn [mbind option_bind negb].
  - destruct (Hf st1 (l ++ c1) Hc1) as [(st2 & c2 & E2 & Hc2 & Hp2)|[Hq2 Hp2]].
    + left. exists st2, (c1 ++ c2). rewrite E2, app_assoc. split; [done|]. split; [done|]. intros st3. rewrite Forall_app. split.
      * intros ([ok st] & E & H)%bind_Some. destruct ok; cbn [negb] in H; [|discriminate]. apply Hp in E as [H1 ->]. apply Hp2 in H as [H2 ->]. done.
      * intros [[H1 H2] ->]. rewrite (proj2 (Hp st1)) by done. cbn [mbind option_bind negb]. by apply Hp2.
    + right. split; [done|]. intros st3 ([ok st] & E & H)%bind_Some. destruct ok; cbn [negb] in H; [|discriminate].
      apply Hp in E as [_ ->]. by apply (Hp2 st3).
  - right. split; intros st3 ([ok st] & E & H)%bind_Some; (destruct ok; cbn [negb] in H; [|discriminate]); [by apply (Hq st)|by apply (Hp st)].
Qed.

Lemma connect_scripts_agree (tx : CTransaction) (st : state) (l : list CScriptCheck) :
  control st = [] -> agree l (connect_scripts VerifyScript flags false true tx (with_control st l)) (connect_scripts VerifyScript flags false false tx st).
Proof.
  intros Hc. unfold connect_scripts. rewrite CheckInputScripts_deferred. cbn [with_control cn_view cn_state cn_scripts nFees nSigOpsCost vtxundo control].
  destruct (CheckInputScripts _ _ _ _ _ _ _ _ true) as [[[[[ok ts] c'] vc'] checks]|] eqn:E; [|apply agree_none].
  apply CheckInputScripts_queues in E as ->. cbn [mbind option_bind].
  left. exists (mkConnecting c' (cn_state st) vc' (nFees st) (nSigOpsCost st) (vtxundo st) []), checks. split; [done|]. split; [done|].
  intros st2. rewrite <- run_checks_passes. destruct (run_checks VerifyScript checks) as [[[error debug]|]|]; cbn [mbind option_bind].
  - split; [|by intros [? _]]. destruct (negb _); cbn; discriminate.
  - rewrite Hc. split; [intros [= <-]; by split|]. by intros [_ ->].
  - split; [done|]. by intros [? _].
Qed.

Lemma connect_inputs_agree (tx : CTransaction) (st : state) (l : list CScriptCheck) :
  control st = [] -> agree l (connect_inputs m pindex height nLockTimeFlags tx (with_control st l)) (connect_inputs m pindex height nLockTimeFlags tx st).
Proof.
  intros Hc. unfold connect_inputs. cbn [with_control cn_view cn_state cn_scripts nFees nSigOpsCost vtxundo control].
  destruct (CheckTxInputs tx tx_state (cn_view st) height) as [[c1 [ts|fee]]|]; cbn [mbind option_bind]; [by apply agree_same| |apply agree_none].
  destruct (negb _); [by apply agree_same|]. destruct (prev_heights c1 (vin tx)) as [c2 hs].
  destruct (SequenceLocks m tx nLockTimeFlags hs pindex) as [[]|]; cbn [mbind option_bind]; [by apply agree_same..|apply agree_none].
Qed.

Lemma connect_tx_agree (first : bool) (tx : CTransaction) (st : state) (l : list CScriptCheck) :
  control st = [] ->
  agree l (connect_tx VerifyScript m pindex height nLockTimeFlags flags fScriptChecks false true first tx (with_control st l))
          (connect_tx VerifyScript m pindex height nLockTimeFlags flags fScriptChecks false false first tx st).
Proof.
  intros Hc. unfold connect_tx. apply agree_bind.
  { destruct (IsCoinBase tx); [by apply agree_same|by apply connect_inputs_agree]. }
  clear st l Hc. intros st l Hc. cbn [with_control cn_view cn_state cn_scripts nFees nSigOpsCost vtxundo control].
  destruct (GetTransactionSigOpCost tx (cn_view st) flags) as [[c cost]|]; cbn [mbind option_bind]; [|apply agree_none].
  destruct (_ >? _); [by apply agree_same|].
  set (st1 := mkConnecting c (cn_state st) (cn_scripts st) (nFees st) (i64 (nSigOpsCost st + cost)) (vtxundo st) (control st)).
  change (mkConnecting c _ _ _ _ _ l) with (with_control st1 l). apply agree_bind.
  { destruct (_ && _); [by apply connect_scripts_agree|by apply agree_same]. }
  clear st l Hc st1. intros st l Hc. cbn [with_control cn_view cn_state cn_scripts nFees nSigOpsCost vtxundo control].
  destruct (UpdateCoins tx (cn_view st) height) as [[c2 undo]|]; cbn [mbind option_bind]; [by apply agree_same|apply agree_none].
Qed.

(** A step that stops leaves an invalid state. *)
Lemma connect_tx_stops (deferred first : bool) (tx : CTransaction) (st st' : state) :
  connect_tx VerifyScript m pindex height nLockTimeFlags flags fScriptChecks false deferred first tx st = Some (false, st') ->
  IsValidState (cn_state st') = false.
Proof.
  unfold connect_tx. intros ([ok1 st1] & E1 & H)%bind_Some. destruct ok1; cbn [negb] in H.
  2: { injection H as <-. destruct (IsCoinBase tx); [discriminate|]. revert E1. unfold connect_inputs. intros ([c r] & _ & H)%bind_Some.
       destruct r as [ts|fee]; [injection H as <-; apply Invalid_not_valid|]. destruct (negb _) in H; [injection H as <-; apply Invalid_not_valid|].
       destruct (prev_heights c (vin tx)) as [c2 hs]. apply bind_Some in H as ([] & _ & H); [discriminate|]. injection H as <-. apply Invalid_not_valid. }
  apply bind_Some in H as ([c cost] & _ & H). destruct (_ >? _); [injection H as <-; apply Invalid_not_valid|].
  apply bind_Some in H as ([ok3 st3] & E3 & H). destruct ok3; cbn [negb] in H.
  { apply bind_Some in H as ([c4 undo] & _ & H). discriminate. }
  injection H as <-. destruct (_ && _) in E3; [|discriminate]. revert E3. unfold connect_scripts. intros ([[[[ok ts] c'] vc'] checks] & _ & H)%bind_Some.
  destruct ok; [discriminate|]. injection H as <-. apply Invalid_not_valid.
Qed.

(** The two loops. *)
Definition loops_agree (l : list CScriptCheck) (queued in_place : option state) : Prop :=
  (exists st' checks, queued = Some (with_control st' (l ++ checks)) /\ IsValidState (cn_state st') = true /\ control st' = [] /\
     forall st2, (in_place = Some st2 /\ IsValidState (cn_state st2) = true) <-> Forall (passes VerifyScript) checks /\ st2 = st') \/
  ((forall st2, queued = Some st2 -> IsValidState (cn_state st2) = false) /\ (forall st2, in_place = Some st2 -> IsValidState (cn_state st2) = false)).

Lemma connect_loop_agree (first : bool) (txs : list CTransaction) (st : state) (l : list CScriptCheck) :
  control st = [] ->
  loops_agree l (connect_loop VerifyScript m pindex height nLockTimeFlags flags fScriptChecks false true first txs (with_control st l))
                (connect_loop VerifyScript m pindex height nLockTimeFlags flags fScriptChecks false false first txs st).
Proof.
  revert first st l; induction txs as [|tx txs IH]; intros first st l Hc; cbn [connect_loop].
  { destruct (IsValidState (cn_state st)) eqn:Hv; [left|right; split; by intros st2 [= <-]].
    exists st, []. rewrite app_nil_r. split_and!; [done..|]. intros st2. split; [intros [[= <-] _]; by split|]. by intros [_ ->]. }
  cbn [with_control cn_state]. destruct (IsValidState (cn_state st)) eqn:Hv; cbn [negb]; [|right; split; by intros st2 [= <-]].
  fold (with_control st l). pose proof (connect_tx_agree first tx st l Hc) as Ha.
  assert (Hstop : forall d st0 st2, ('(continue, st1) ← connect_tx VerifyScript m pindex height nLockTimeFlags flags fScriptChecks false d first tx st0;
      if (continue : bool) then connect_loop VerifyScript m pindex height nLockTimeFlags flags fScriptChecks false d false txs st1 else Some st1) = Some st2 ->
    IsValidState (cn_state st2) = true -> exists st1, connect_tx VerifyScript m pindex height nLockTimeFlags flags fScriptChecks false d first tx st0
      = Some (true, st1) /\ connect_loop VerifyScript m pindex height nLockTimeFlags flags fScriptChecks false d false txs st1 = Some st2).
  { intros d st0 st2 ([[] st1] & E & H)%bind_Some Hv2; [by exists st1|]. injection H as <-. apply connect_tx_stops in E. congruence. }
  destruct Ha as [(st1 & c1 & E1 & Hc1 & Hp)|[Hq Hp]].
  - rewrite E1. cbn [mbind option_bind]. destruct (IH false st1 (l ++ c1) Hc1) as [(st2 & c2 & E2 & Hv2 & Hc2 & Hp2)|[Hq2 Hp2]].
    + left. exists st2, (c1 ++ c2). rewrite E2, app_assoc. split_and!; [done..|]. intros st3. rewrite Forall_app. split.
      * intros [E Hv3]. destruct (Hstop _ _ _ E Hv3) as (st4 & E4 & E5). apply Hp in E4 as [H1 ->].
        destruct (proj1 (Hp2 st3) (conj E5 Hv3)) as [H2 ->]. done.
      * intros [[H1 H2] ->]. rewrite (proj2 (Hp st1)) by done. cbn [mbind option_bind]. by apply Hp2.
    + right. split; [done|]. intros st3 E. destruct (IsValidState (cn_state st3)) eqn:Hv3; [|done].
      destruct (Hstop _ _ _ E Hv3) as (st4 & E4 & E5). apply Hp in E4 as [_ ->]. apply Hp2 in E5. congruence.
  - right. split; intros st3 E; (destruct (IsValidState (cn_state st3)) eqn:Hv3; [|done]);
      destruct (Hstop _ _ _ E Hv3) as (st4 & E4 & _); [by apply Hq in E4|by apply Hp in E4].
Qed.

End Threads.

Section ThreadsBlock.
Context {B : Type} {HV : CoinsView B} {K : Type} {HK : ScriptCache K}.
Context (VerifyScript : CScript -> CScript -> list (list Z) -> Z -> CTransaction -> nat -> Z -> bool -> list CTxOut -> option string).
Context (pick_failure : list (string * string) -> nat) (signet : CBlock -> bool) (params : Params) (opts : ChainstateOptions).

Lemma check_reward_agree (h : Z) (txs : list CTransaction) (st : connecting (B := B) (K := K)) (state : BlockValidationState) (checks : list CScriptCheck) :
  IsValidState state = true ->
  check_reward VerifyScript pick_failure params h true txs (with_control st checks) = Some state <->
  Forall (passes VerifyScript) checks /\ check_reward VerifyScript pick_failure params h false txs st = Some state.
Proof.
  intros Hv. rewrite <- (Complete_none VerifyScript pick_failure). split.
  - intros E. pose proof (proj2 (check_reward_valid _ _ _ _ _ _ _ _ E Hv)) as (_ & _ & _ & _ & _ & _ & _ & Hd). specialize (Hd eq_refl). split; [exact Hd|].
    revert E. unfold check_reward. cbn [with_control cn_state nFees control] in *. rewrite Hd.
    by destruct (GetBlockSubsidy h params), (head txs).
  - intros [Hd E]. revert E. unfold check_reward. cbn [with_control cn_state nFees control]. rewrite Hd.
    by destruct (GetBlockSubsidy h params), (head txs).
Qed.

(** Accepting a block does not depend on the worker threads. *)
Lemma ConnectBlock_threads (b : CBlock) (state : BlockValidationState) (bm : BlockManager) (pindex : uint256) (view : CCoinsViewCache B)
    (vc : ValidationCache K) (disk : option string) (r : connect_result) :
  r_ok r = true ->
  ConnectBlock VerifyScript pick_failure signet params (with_threads opts true) b state bm pindex view vc false disk = Some r <->
  ConnectBlock VerifyScript pick_failure signet params (with_threads opts false) b state bm pindex view vc false disk = Some r.
Proof.
  intros Hok. unfold ConnectBlock. destruct (m_block_index bm !! pindex) as [index|]; [|done]. cbn [mbind option_bind negb].
  destruct (negb _); [done|]. destruct (CheckBlock _ _ _ _ _ _) as [[[ok st0] b0]|]; [|done]. cbn [mbind option_bind].
  destruct ok; [|done]. cbn [negb]. destruct (GetBestBlock view) as [c1 best]. destruct (negb _); [done|]. destruct (_ =? _); [done|].
  change (script_check_reason (with_threads opts true) params bm pindex) with (script_check_reason (with_threads opts false) params bm pindex).
  destruct (script_check_reason _ _ _ _) as [reason|]; [|done]. cbn [mbind option_bind].
  destruct (bip30_checked _ _ _) as [check|]; [|done]. cbn [mbind option_bind]. cbn [HasThreads with_threads andb].
  destruct (if check then bip30_loop c1 st0 (vtx b0) else (c1, st0)) as [c2 st2].
  destruct (bool_decide (is_Some reason)); [|done].
  set (st3 := mkConnecting c2 st2 vc 0 0 [] []).
  assert (Hvalid : forall d st state4 rest, (state ← check_reward VerifyScript pick_failure params (nHeight index) d (vtx b0) st;
      if negb (IsValidState state) then Some (mkResult false state b0 (cn_view st) (cn_scripts st) bm None) else rest state) = Some r ->
      check_reward VerifyScript pick_failure params (nHeight index) d (vtx b0) st = Some state4 ->
      IsValidState state4 = true /\ cn_state st = state4 /\ rest state4 = Some r).
  { intros d st state4 rest H E. rewrite E in H. cbn [mbind option_bind] in H. destruct (IsValidState state4) eqn:Hv4; cbn [negb] in H.
    - split_and!; [done| |done]. apply (check_reward_valid _ _ _ _ _ _ _ _ E Hv4).
    - injection H as <-. discriminate. }
  match goal with |- _ <-> (st ← connect_loop _ _ _ ?h ?t ?f _ _ _ _ _ _; _) = _ =>
    destruct (connect_loop_agree VerifyScript (m_block_index bm) pindex h t f true true (vtx b0) st3 [] eq_refl)
      as [(st' & checks & E & Hv' & Hc' & Hp)|[Hq Hp]] end; change (with_control st3 []) with st3 in *; cbn [app] in *.
  - rewrite E. cbn [mbind option_bind]. cbn [with_control cn_view cn_scripts vtxundo]. fold (with_control st' checks). split.
    + intros H. apply bind_Some in H as Hb. destruct Hb as (state4 & E4 & _). pose proof (Hvalid _ _ _ _ H E4) as (Hv4 & Hst & Hrest).
      apply check_reward_agree in E4 as [Hpass E4]; [|done]. destruct (proj2 (Hp st') (conj Hpass eq_refl)) as [-> _].
      cbn [mbind option_bind]. rewrite E4. cbn [mbind option_bind]. by rewrite Hv4.
    + intros (st & El & H)%bind_Some. apply bind_Some in H as Hb. destruct Hb as (state4 & E4 & _). pose proof (Hvalid _ _ _ _ H E4) as (Hv4 & Hst & Hrest).
      assert (Hvs : IsValidState (cn_state st) = true) by congruence. destruct (proj1 (Hp st) (conj El Hvs)) as [Hpass ->].
      rewrite (proj2 (check_reward_agree _ _ _ _ _ Hv4) (conj Hpass E4)). cbn [mbind option_bind]. by rewrite Hv4.
  - split; intros (st & El & H)%bind_Some; apply bind_Some in H as Hb; destruct Hb as (state4 & E4 & _);
      pose proof (Hvalid _ _ _ _ H E4) as (Hv4 & Hst & _); [apply Hq in El|apply Hp in El]; congruence.
Qed.

End ThreadsBlock.
