(* ===== verification/ChainstateProps.v ===== *)
(** * What connecting and disconnecting blocks guarantees

    The theorems about [ConnectBlock] and [DisconnectBlock], on the lemmas of ConnectBlockSpec.v, and an example chain of three blocks. *)

From stdpp Require Import pretty.
From S2P Require Import Prelude ValidationState Serialize ArithUint256 Chain Params Pow Subsidy Transaction Script.
From S2P Require Import TxCheck Coins TxVerify Merkle Sha256 Sha256Spec Hash Block ConnectBlock ConnectBlockSpec.
#[local] Open Scope Z_scope.

(** ** Script checks by input *)

Lemma passes_input (VerifyScript : CScript -> CScript -> list (list Z) -> Z -> CTransaction -> nat -> Z -> bool -> list CTxOut -> option string)
    (flags : Z) (sig : bool) (i : nat) (tx : CTransaction) (spent : CTxUndo) (input : CTxIn) (cn : Coin) :
  Forall (passes VerifyScript) (checks_of flags sig tx spent) -> IsCoinBase tx = false -> vin tx !! i = Some input -> spent !! i = Some cn ->
  VerifyScript (scriptSig input) (scriptPubKey (out cn)) (scriptWitness input) flags tx i (nValue (out cn)) sig (map out spent) = None.
Proof.
  intros Hf Hcb Hi Hcn. rewrite Forall_forall in Hf. set (check := mkCheck (out cn) tx i flags sig (map out spent)).
  assert (Hin : check ∈ checks_of flags sig tx spent).
  { unfold checks_of. rewrite Hcb. unfold script_checks. apply elem_of_lookup_imap. exists i, (out cn). split; [done|].
    change (map out spent) with (out <$> spent). unfold CTxUndo in *. by rewrite list_lookup_fmap, Hcn. }
  specialize (Hf check Hin). unfold passes, run_check in Hf. cbn [ptxTo nIn check m_tx_out m_flags cacheStore txdata] in Hf.
  rewrite Hi in Hf. cbn [mbind option_bind] in Hf. by destruct (VerifyScript _ _ _ _ _ _ _ _ _).
Qed.

(** ** Properties *)

Section Properties.
Context {B : Type} {HV : CoinsView B} {HL : LawfulView B} {K : Type} {HK : ScriptCache K}.
Context (VerifyScript : CScript -> CScript -> list (list Z) -> Z -> CTransaction -> nat -> Z -> bool -> list CTxOut -> option string).
Context (pick_failure : list (string * string) -> nat) (signet : CBlock -> bool) (params : Params) (opts : ChainstateOptions).
Context (b : CBlock) (state : BlockValidationState) (bm : BlockManager) (pindex : uint256) (index : CBlockIndex) (view : CCoinsViewCache B)
  (vc : ValidationCache K) (disk : option string) (s : coin_set) (r : connect_result (B := B) (K := K)).

(** A block above genesis is connected to the coins [s]; its identifiers do not collide and BIP30 is enforced. *)
Record connected : Prop := mkConnected {
  c_view : represents view s;
  c_checked : fChecked b = true -> block_shape (vtx b);
  c_txids : txids_commit (vtx b);
  c_index : m_block_index bm !! pindex = Some index;
  c_height : 1 <= nHeight index;
  c_hash : pindex <> 0 /\ pindex <> hashGenesisBlock params;
  c_interval : 0 < nSubsidyHalvingInterval params;
  c_bip30 : bip30_checked params (m_block_index bm) pindex = Some true;
  c_run : ConnectBlock VerifyScript pick_failure signet params opts b state bm pindex view vc false disk = Some r;
  c_ok : r_ok r = true
}.

Lemma connected_connects :
  connected ->
  block_shape (vtx b) /\ pprev index = Some (cs_best s) /\
  exists undos fees m' subsidy, connects (nHeight index) (cs_coins s) (vtx b) ([] :: undos) fees m' /\
    represents (r_view r) (mkCoinSet m' pindex true) /\ (forall u, r_undo r = Some u -> u = undos) /\
    (exists index', m_block_index (r_index r) !! pindex = Some index' /\ nHeight index' = nHeight index /\ pprev index' = pprev index) /\
    GetBlockSubsidy (nHeight index) params = Some subsidy /\
    (forall reason known, script_check_reason opts params bm pindex = Some (Some reason) -> HasThreads opts = true -> cache_knows known ->
       Forall2 (fun tx undo => Forall (passes VerifyScript) (checks_of (GetBlockScriptFlags index pindex params) false tx undo) \/
                               in_cache (GetBlockScriptFlags index pindex params) known vc tx) (tail (vtx b)) undos) /\
    forall coinbase, head (vtx b) = Some coinbase -> sum_values (vout coinbase) <= fees + subsidy.
Proof.
  intros [Hrep Hsh Hcm Hix Hh [Hnz Hg] Hint Hbip Hrun Hok].
  exact (ConnectBlock_connects _ _ _ _ _ _ _ _ _ index _ _ _ _ _ Hrep Hsh Hcm Hix ltac:(lia) Hnz Hg Hint Hbip Hrun Hok).
Qed.

(** C4: a block that [ConnectBlock] accepts creates no money beyond the subsidy of its height: the coins of the new view are worth at most those of the old
    view plus the subsidy, whatever the transactions spend, including outputs of the same block, and the view moves to the block. *)
Theorem ConnectBlock_no_inflation :
  connected ->
  exists s' subsidy, represents (r_view r) s' /\ cs_best s' = pindex /\ GetBlockSubsidy (nHeight index) params = Some subsidy /\
    total_value (cs_coins s') <= total_value (cs_coins s) + subsidy.
Proof.
  intros Hc. destruct (connected_connects Hc) as (Hsh & _ & undos & fees & m' & subsidy & Hcs & Hrep' & _ & _ & Hsub & _ & Hle).
  exists (mkCoinSet m' pindex true), subsidy. split; [done|]. split; [done|]. split; [done|]. by apply (connects_value (nHeight index) subsidy _ _ (vtx b) ([] :: undos) fees).
Qed.

(** C16: [ConnectBlock] refines the plain reading of a block: the accepted block's transactions are applied one after the other to a set of coins; every input spends
    an existing, mature coin that is spent once, no output overwrites a coin, no transaction creates value, the coinbase takes at most fees and
    subsidy, and the undo data that is written is exactly what was spent. *)
Theorem ConnectBlock_refines_connects :
  connected ->
  exists undos fees m' subsidy coinbase rest, vtx b = coinbase :: rest /\ connects (nHeight index) (cs_coins s) (vtx b) ([] :: undos) fees m' /\
    represents (r_view r) (mkCoinSet m' pindex true) /\ (forall u, r_undo r = Some u -> u = undos) /\
    pprev index = Some (cs_best s) /\ GetBlockSubsidy (nHeight index) params = Some subsidy /\ sum_values (vout coinbase) <= fees + subsidy.
Proof.
  intros Hc. destruct (connected_connects Hc)
    as ([_ (cb & rest & Ev & Hcb & Hcbs)] & Hp & undos & fees & m' & subsidy & Hcs & Hrep' & Hu & _ & Hsub & _ & Hle).
  exists undos, fees, m', subsidy, cb, rest. split_and!; try done. apply Hle. by rewrite Ev.
Qed.

(** C9: [DisconnectBlock] takes back what [ConnectBlock] did: with the undo data that was written, on any stack of caches that holds the coins after the
    block, it reports a clean disconnect and restores every coin, with its height and coinbase flag, and the best block. *)
Theorem DisconnectBlock_undoes_ConnectBlock {B' : Type} {HV' : CoinsView B'} {HL' : LawfulView B'} (view' : CCoinsViewCache B') (s' : coin_set) (u : CBlockUndo) :
  connected -> coins_ok (cs_coins s) -> cs_best s <> 0 -> r_undo r = Some u -> represents (r_view r) s' -> represents view' s' ->
  exists view'', DisconnectBlock (m_block_index (r_index r)) b pindex (Some u) view' = Some (view'', DISCONNECT_OK) /\
    represents view'' (mkCoinSet (cs_coins s) (cs_best s) true).
Proof.
  intros Hc Hcoins Hbest Hu Hr' Hview'. pose proof (c_height Hc) as Hh. destruct (connected_connects Hc)
    as (Hshape & Hp & undos & fees & m' & subsidy & Hcs & Hrep' & Hundo & (index' & Hix' & Hh' & Hp') & _).
  apply Hundo in Hu as ->.
  assert (Em : cs_coins s' = m').
  { apply map_eq. intros o. destruct Hr' as (_ & H1 & _), Hrep' as (_ & H2 & _). rewrite <- H1, H2. done. }
  rewrite Hp in Hp'. rewrite <- Hh' in Hh, Hcs. rewrite <- Em in Hcs. by apply (DisconnectBlock_represents _ b pindex (cs_best s) index' view' s' (cs_coins s) undos fees).
Qed.

(** No script is skipped: when the block is not assumed valid, every input of an accepted block passed [VerifyScript] against the output it spends, with the
    flags of the block and all outputs that its transaction spends, unless the script cache knows the transaction. *)
Lemma ConnectBlock_verifies_scripts (reason : string) (known : K -> uint256 -> Prop) :
  connected -> script_check_reason opts params bm pindex = Some (Some reason) -> cache_knows known ->
  exists undos fees m', connects (nHeight index) (cs_coins s) (vtx b) ([] :: undos) fees m' /\
    forall j tx spent, tail (vtx b) !! j = Some tx -> undos !! j = Some spent ->
      known (m_script_execution_cache vc) (hashCacheEntry vc tx (GetBlockScriptFlags index pindex params)) \/
      forall i input cn, vin tx !! i = Some input -> spent !! i = Some cn ->
        VerifyScript (scriptSig input) (scriptPubKey (out cn)) (scriptWitness input) (GetBlockScriptFlags index pindex params)
          tx i (nValue (out cn)) false (map out spent) = None.
Proof.
  intros [Hrep Hsh Hcm Hix Hh [Hnz Hg] Hint Hbip Hrun Hok] Hreason Hk.
  assert (Hrun' : ConnectBlock VerifyScript pick_failure signet params (with_threads opts true) b state bm pindex view vc false disk = Some r).
  { destruct opts as [a w t]. destruct t; [done|]. by apply (ConnectBlock_threads VerifyScript pick_failure signet params (mkOptions a w false)). }
  destruct (ConnectBlock_connects _ _ _ _ _ _ _ _ _ index _ _ _ _ _ Hrep Hsh Hcm Hix ltac:(lia) Hnz Hg Hint Hbip Hrun' Hok)
    as ([_ (cb & rest & Ev & Hcb & Hcbs)] & _ & undos & fees & m' & subsidy & Hcs & _ & _ & _ & _ & Hscripts & _).
  exists undos, fees, m'. split; [done|]. intros j tx spent Hj Hu. specialize (Hscripts reason known Hreason eq_refl Hk).
  destruct (Forall2_lookup_lr _ _ _ j tx spent Hscripts Hj Hu) as [H|H]; [right|by left]. intros i input cn Hi Hcn.
  apply passes_input; try done. rewrite Ev in Hj. rewrite Forall_lookup in Hcbs. by apply (Hcbs j).
Qed.

(** The block is accepted with this outcome, with or without worker threads. *)
Definition accepts (threads : bool) : Prop :=
  r_ok r = true /\
  ConnectBlock VerifyScript pick_failure signet params (with_threads opts threads) b state bm pindex view vc false disk = Some r.

(** C17: checking scripts in worker threads is only faster: for every schedule of the workers, a block is accepted with them exactly when it is
    accepted with the checks in place, with the same view, undo data, index and state. *)
Theorem worker_threads_agree : accepts true <-> accepts false.
Proof.
  unfold accepts. split; intros [Hok H]; (split; [exact Hok|]);
    [exact (proj1 (ConnectBlock_threads _ _ _ _ _ _ _ _ _ _ _ _ _ Hok) H)|exact (proj2 (ConnectBlock_threads _ _ _ _ _ _ _ _ _ _ _ _ _ Hok) H)].
Qed.

End Properties.

(** ** Examples *)

(** A script cache that remembers nothing, and a script language in which only [OP_1] can be spent. *)
#[export] Instance no_cache : ScriptCache unit := { contains _ _ _ := (false, tt); insert_entry _ _ := tt }.

Lemma no_cache_knows : cache_knows (K := unit) (fun _ _ => False).
Proof. constructor; [done|done|by intros; left]. Qed.

Definition example_VerifyScript (scriptSig scriptPubKey : CScript) (witness : list (list Z)) (flags : Z) (tx : CTransaction) (nIn : nat) (amount : Z)
    (store : bool) (spent : list CTxOut) : option string :=
  if bool_decide (scriptPubKey = [OP_1]) then None else Some "Script evaluated without error but finished with a false/empty top stack element".

(** A block at height two: its coinbase takes the subsidy and a fee of 1000, and its second transaction spends a coin of height one. *)
Definition example_spent : Coin := mkCoin (mkTxOut 5000 [OP_1]) false 1.
Definition example_reward : CTransaction :=
  mkTx [mkTxIn (mkOutPoint 0 NULL_INDEX) [OP_1 + 1; 0] SEQUENCE_FINAL []] [mkTxOut (50 * COIN + 1000) [OP_1]] 1 0.
Definition example_spend : CTransaction := mkTx [mkTxIn example_out [] SEQUENCE_FINAL []] [mkTxOut 4000 [OP_1]] 1 0.
Definition example_root : uint256 := 57509103605879316032150915308820457857132589470432731004364135639423058297817.
Definition example_connect : CBlock := new_block (mkHeader 4 2 example_root 0 0 0) [example_reward; example_spend].
Definition example_pindex : uint256 := 59590017052628170734236645324782689802554705516119455180800126748232645010077.
Definition example_index : BlockManager :=
  mkBlockManager (<[example_pindex := even_block 600 0x1f0fffff 2]> (even_chain 1 600 0x1f0fffff)) (Some example_pindex) ∅.
Definition example_coins : coin_set := mkCoinSet {[example_out := example_spent]} 2 false.
Definition example_view : CCoinsViewCache MapView := new_cache (mkMapView {[example_out := example_spent]} 2).
Definition example_opts : ChainstateOptions := mkOptions 0 uint_zero true.

Definition example_run (threads : bool) : option (connect_result (B := MapView) (K := unit)) :=
  ConnectBlock example_VerifyScript (fun _ => 0%nat) (fun _ => true) CMainParams (with_threads example_opts threads) example_connect block_state
    example_index example_pindex example_view (new_ValidationCache 1 tt) false None.

Lemma example_view_represents : represents example_view example_coins.
Proof.
  assert (Hi : view_inv (base example_view)).
  { intros o cn. cbn. intros H. apply lookup_singleton_Some in H as [_ <-]. reflexivity. }
  split; [by apply (new_cache_inv (base example_view))|]. split; [|done]. intros o. unfold cache_coin. cbn. by rewrite lookup_empty.
Qed.

(** The names of the two transactions differ. *)
Lemma example_txids : txids_commit [example_reward; example_spend].
Proof.
  assert (Hne : ComputeHash example_reward <> ComputeHash example_spend) by (vm_compute; discriminate).
  unfold txids_commit. revert Hne. generalize ComputeHash. intros hash Hne t1 t2 H1 H2 E.
  apply elem_of_cons in H1 as [->|H1%list_elem_of_singleton], H2 as [->|H2%list_elem_of_singleton]; subst; congruence.
Qed.

(** What the run on the example gives. *)
Lemma example_run_result : (fun r => (r_ok r, r_undo r)) <$> example_run true = Some (true, Some [[example_spent]]).
Proof. vm_compute. reflexivity. Qed.

Abbreviation example_connected r :=
  (connected example_VerifyScript (fun _ => 0%nat) (fun _ => true) CMainParams (with_threads example_opts true) example_connect block_state
    example_index example_pindex (even_block 600 0x1f0fffff 2) example_view (new_ValidationCache 1 tt) None example_coins r).

Lemma example_is_connected : exists r, example_connected r /\ r_undo r = Some [[example_spent]].
Proof.
  destruct (example_run true) as [r|] eqn:E; [|by pose proof example_run_result as H; rewrite E in H].
  pose proof example_run_result as H. rewrite E in H. cbn [fmap option_fmap option_map] in H. injection H as Hok Hu.
  exists r. split; [|done].
  constructor; [apply example_view_represents|done|apply example_txids|apply lookup_insert_eq|done|by split; vm_compute|done|by vm_compute|exact E|done].
Qed.

Lemma example_coins_ok : coins_ok (cs_coins example_coins).
Proof. intros o cn H. cbn [cs_coins example_coins] in H. apply lookup_singleton_Some in H as [_ <-]. split; [done|]. by split. Qed.

Lemma ConnectBlock_no_inflation_witness :
  exists r s', example_connected r /\ represents (r_view r) s' /\ cs_best s' = example_pindex /\ total_value (cs_coins s') <= 5000 + 50 * COIN.
Proof.
  destruct example_is_connected as (r & Hc & _). destruct (ConnectBlock_no_inflation _ _ _ _ _ _ _ _ _ _ _ _ _ _ _ Hc) as (s' & subsidy & H1 & H2 & H3 & H4).
  exists r, s'. split; [exact Hc|]. split; [exact H1|]. split; [exact H2|].
  assert (E : GetBlockSubsidy 2 CMainParams = Some (50 * COIN)) by reflexivity. cbn [nHeight even_block] in H3. rewrite E in H3. injection H3 as <-.
  exact H4.
Defined.

Lemma ConnectBlock_refines_connects_witness :
  exists r undos fees m', example_connected r /\ connects 2 (cs_coins example_coins) [example_reward; example_spend] ([] :: undos) fees m' /\
    [[example_spent]] = undos /\ represents (r_view r) (mkCoinSet m' example_pindex true).
Proof.
  destruct example_is_connected as (r & Hc & Hu).
  destruct (ConnectBlock_refines_connects _ _ _ _ _ _ _ _ _ _ _ _ _ _ _ Hc) as (undos & fees & m' & subsidy & cb & rest & _ & H1 & H2 & H3 & _).
  exists r, undos, fees, m'. split; [exact Hc|]. split; [exact H1|]. split; [by apply H3|exact H2].
Defined.

Lemma DisconnectBlock_undoes_ConnectBlock_witness :
  exists r view'', example_connected r /\
    DisconnectBlock (m_block_index (r_index r)) example_connect example_pindex (Some [[example_spent]]) (r_view r) = Some (view'', DISCONNECT_OK) /\
    represents view'' (mkCoinSet {[example_out := example_spent]} 2 true).
Proof.
  destruct example_is_connected as (r & Hc & Hu).
  destruct (connected_connects _ _ _ _ _ _ _ _ _ _ _ _ _ _ _ Hc) as (_ & _ & undos & fees & m' & subsidy & _ & Hs' & _).
  destruct (DisconnectBlock_undoes_ConnectBlock _ _ _ _ _ _ _ _ _ _ _ _ _ _ _ (r_view r) (mkCoinSet m' example_pindex true) [[example_spent]] Hc example_coins_ok)
    as (view'' & H1 & H2); [done|exact Hu|exact Hs'|exact Hs'|]. exists r, view''. split; [exact Hc|]. split; [exact H1|exact H2].
Defined.

Lemma worker_threads_agree_witness : exists r, r_ok r = true /\ example_run false = Some r.
Proof.
  destruct example_is_connected as (r & Hc & _). exists r.
  exact (proj1 (worker_threads_agree example_VerifyScript (fun _ => 0%nat) (fun _ => true) CMainParams example_opts example_connect block_state
    example_index example_pindex example_view (new_ValidationCache 1 tt) None r)
    (conj (c_ok _ _ _ _ _ _ _ _ _ _ _ _ _ _ _ Hc) (c_run _ _ _ _ _ _ _ _ _ _ _ _ _ _ _ Hc))).
Defined.
