(* ===== verification/ConnectIsolation.v ===== *)
(** * Connecting and disconnecting a block leave the view below alone

    A property of a coins cache that its single operations keep is kept by [ConnectBlock] and [DisconnectBlock], whether they succeed or fail. With "the view below
    holds the coins it held" for the property, a cache that is dropped after a failure leaves no trace. *)

From S2P Require Import Prelude ValidationState Serialize ArithUint256 Chain Params Transaction Script.
From S2P Require Import TxCheck Coins TxVerify Sha256 Hash Block ConnectBlock ConnectBlockSpec.
#[local] Open Scope Z_scope.

#[local] Opaque ComputeHash ComputeWitnessHash CBlockHeader_GetHash SerializeTransaction hashCacheEntry.

Section Kept.
Context {B : Type} {HV : CoinsView B} {K : Type} {HK : ScriptCache K}.
#[local] Abbreviation cache := (CCoinsViewCache B).

Context (P : cache -> Prop).
Context (P_Fetch : forall c o, P c -> P (FetchCoin c o).1) (P_Spend : forall c o, P c -> P (SpendCoin c o).1)
  (P_Add : forall c c' o cn ow, P c -> AddCoin c o cn ow = Some c' -> P c') (P_Best : forall c, P c -> P (GetBestBlock c).1)
  (P_SetBest : forall c h, P c -> P (SetBestBlock c h)).

Lemma HaveCoin_kept (c : cache) (o : COutPoint) : P c -> P (HaveCoin c o).1.
Proof. intros H. unfold HaveCoin. apply (P_Fetch c o) in H. by destruct (FetchCoin c o). Qed.
Lemma AccessCoin_kept (c : cache) (o : COutPoint) : P c -> P (AccessCoin c o).1.
Proof. intros H. unfold AccessCoin. apply (P_Fetch c o) in H. by destruct (FetchCoin c o). Qed.


Lemma HaveInputs_kept (c : cache) (tx : CTransaction) : P c -> P (HaveInputs c tx).1.
Proof.
  intros H. unfold HaveInputs. destruct (negb _); [|done]. revert c H. induction (vin tx) as [|i ins IH]; intros c H; [done|]. cbn [HaveInputs_loop].
  pose proof (HaveCoin_kept c (prevout i) H) as H1. destruct (HaveCoin c (prevout i)) as [c1 []]; cbn [negb fst] in *; [by apply IH|done].
Qed.

Lemma CheckTxInputs_loop_kept (ins : list CTxIn) (c c' : cache) (h v : Z) (st : TxValidationState) (r : TxValidationState + Z) :
  P c -> CheckTxInputs_loop c ins h v st = Some (c', r) -> P c'.
Proof.
  revert c v; induction ins as [|i ins IH]; intros c v H; cbn [CheckTxInputs_loop]; [by intros [= <- _]|].
  pose proof (AccessCoin_kept c (prevout i) H) as H1. destruct (AccessCoin c (prevout i)) as [c1 cn]. cbn [fst] in H1.
  destruct (IsSpent cn); [done|]. destruct (_ && _); [by intros [= <- _]|]. destruct (_ || _); [by intros [= <- _]|]. by apply IH.
Qed.

Lemma CheckTxInputs_kept (tx : CTransaction) (c c' : cache) (h : Z) (st : TxValidationState) (r : TxValidationState + Z) :
  P c -> CheckTxInputs tx st c h = Some (c', r) -> P c'.
Proof.
  intros H. unfold CheckTxInputs. pose proof (HaveInputs_kept c tx H) as H1. destruct (HaveInputs c tx) as [c1 have]. cbn [fst] in H1.
  destruct (negb _); [by intros [= <- _]|]. intros ([c2 r2] & E & H2)%bind_Some. apply CheckTxInputs_loop_kept in E; [|done].
  destruct r2 as [st2|v]; [by injection H2 as <- _|]. apply bind_Some in H2 as (o & _ & H2).
  destruct (v <? o); [by injection H2 as <- _|]. destruct (negb _); by injection H2 as <- _.
Qed.

Lemma prev_heights_kept (ins : list CTxIn) (c : cache) : P c -> P (prev_heights c ins).1.
Proof.
  intros H. unfold prev_heights. set (acc := (c, [])). change c with (fst acc) in H. clearbody acc.
  revert acc H; induction ins as [|i ins IH]; intros acc H; [done|]. cbn [fold_left]. apply IH.
  pose proof (AccessCoin_kept acc.1 (prevout i) H) as H1. by destruct (AccessCoin acc.1 (prevout i)).
Qed.

Lemma GetP2SHSigOpCount_loop_kept (ins : list CTxIn) (c c' : cache) (n n' : Z) : P c -> GetP2SHSigOpCount_loop c ins n = Some (c', n') -> P c'.
Proof.
  revert c n; induction ins as [|i ins IH]; intros c n H; cbn [GetP2SHSigOpCount_loop]; [by intros [= <- _]|].
  pose proof (AccessCoin_kept c (prevout i) H) as H1. destruct (AccessCoin c (prevout i)) as [c1 cn].
  destruct (IsSpent cn); [done|]. intros (k & _ & H2)%bind_Some. by eapply IH.
Qed.

Lemma witness_sigops_loop_kept (ins : list CTxIn) (c c' : cache) (flags n n' : Z) : P c -> witness_sigops_loop c ins flags n = Some (c', n') -> P c'.
Proof.
  revert c n; induction ins as [|i ins IH]; intros c n H; cbn [witness_sigops_loop]; [by intros [= <- _]|].
  pose proof (AccessCoin_kept c (prevout i) H) as H1. destruct (AccessCoin c (prevout i)) as [c1 cn].
  destruct (IsSpent cn); [done|]. intros (k & _ & H2)%bind_Some. by eapply IH.
Qed.

Lemma GetTransactionSigOpCost_kept (tx : CTransaction) (c c' : cache) (flags n : Z) : P c -> GetTransactionSigOpCost tx c flags = Some (c', n) -> P c'.
Proof.
  intros Hc. unfold GetTransactionSigOpCost, GetP2SHSigOpCount. intros (k & _ & H)%bind_Some. destruct (IsCoinBase tx); [by injection H as <- _|].
  apply bind_Some in H as ([c1 n1] & H1 & H2). apply (witness_sigops_loop_kept (vin tx) c1 _ flags n1 n); [|done].
  destruct (negb _) in H1; [|by injection H1 as <- _]. apply bind_Some in H1 as ([c2 n2] & H3 & [= <- _]). by apply GetP2SHSigOpCount_loop_kept in H3.
Qed.

Lemma spent_outputs_kept (ins : list CTxIn) (c c' : cache) (outs : list CTxOut) : P c -> spent_outputs c ins = Some (c', outs) -> P c'.
Proof.
  revert c outs; induction ins as [|i ins IH]; intros c outs H; cbn [spent_outputs]; [by intros [= <- _]|].
  pose proof (AccessCoin_kept c (prevout i) H) as H1. destruct (AccessCoin c (prevout i)) as [c1 cn].
  destruct (IsSpent cn); [done|]. intros ([c2 outs'] & E & [= <- _])%bind_Some. by eapply IH.
Qed.

Lemma bip30_loop_kept (txs : list CTransaction) (c : cache) (state : BlockValidationState) : P c -> P (bip30_loop c state txs).1.
Proof.
  revert c state; induction txs as [|tx txs IH]; intros c state H; cbn [bip30_loop]; [done|].
  assert (H1 : P (bip30_outputs c state (ComputeHash tx) 0 (vout tx)).1).
  { generalize 0%nat. revert c state H. induction (vout tx) as [|x outs IHo]; intros c state H n; [done|]. cbn [bip30_outputs].
    pose proof (HaveCoin_kept c (mkOutPoint (ComputeHash tx) (Z.of_nat n)) H) as H1. destruct (HaveCoin c _) as [c1 have]. by apply IHo. }
  destruct (bip30_outputs c state (ComputeHash tx) 0 (vout tx)) as [c1 st1]. by apply IH.
Qed.

Lemma spend_inputs_kept (ins : list CTxIn) (c c' : cache) (undo : CTxUndo) : P c -> spend_inputs c ins = Some (c', undo) -> P c'.
Proof.
  revert c undo. induction ins as [|i ins IH]; intros c undo H; cbn [spend_inputs]; [by intros [= <- _]|].
  pose proof (P_Spend c (prevout i) H) as H1. destruct (SpendCoin c (prevout i)) as [c1 r]. intros (u & _ & E)%bind_Some.
  apply bind_Some in E as ([c2 us] & E2 & [= <- _]). by eapply IH.
Qed.

Lemma AddCoins_loop_kept (outs : list CTxOut) (c c' : cache) (txid : uint256) (cb : bool) (h : Z) (n : nat) :
  P c -> AddCoins_loop c txid cb false h n outs = Some c' -> P c'.
Proof.
  revert c n. induction outs as [|x outs IH]; intros c n H; cbn [AddCoins_loop]; [by intros [= <-]|]. intros (c1 & E & H1)%bind_Some.
  apply P_Add in E; [|done]. by eapply IH.
Qed.

Lemma UpdateCoins_kept (tx : CTransaction) (c c' : cache) (h : Z) (undo : CTxUndo) : P c -> UpdateCoins tx c h = Some (c', undo) -> P c'.
Proof.
  intros H. unfold UpdateCoins. intros ([c1 u1] & E1 & H2)%bind_Some. apply bind_Some in H2 as (c2 & E2 & [= <- _]).
  eapply AddCoins_loop_kept; [|exact E2]. destruct (IsCoinBase tx); [by injection E1 as <- _|by eapply spend_inputs_kept].
Qed.

Context (VerifyScript : CScript -> CScript -> list (list Z) -> Z -> CTransaction -> nat -> Z -> bool -> list CTxOut -> option string).
Context (pick_failure : list (string * string) -> nat) (signet : CBlock -> bool) (params : Params) (opts : ChainstateOptions).
#[local] Abbreviation state := (connecting (B := B) (K := K)).

Lemma CheckInputScripts_kept (tx : CTransaction) (st st' : TxValidationState) (c c' : cache) (flags : Z) (a b d ok : bool) (vc vc' : ValidationCache K) (l : list CScriptCheck) :
  P c -> CheckInputScripts VerifyScript tx st c flags a b vc d = Some (ok, st', c', vc', l) -> P c'.
Proof.
  intros H. unfold CheckInputScripts. destruct (IsCoinBase tx); [by intros [= _ _ <- _ _]|].
  destruct (contains _ _ _) as [hit k]. destruct hit; [by intros [= _ _ <- _ _]|]. intros ([c1 outs] & E & H1)%bind_Some. apply spent_outputs_kept in E; [|done].
  destruct d; [by injection H1 as _ _ <- _ _|]. apply bind_Some in H1 as ([[error debug]|] & _ & H1); [|by injection H1 as _ _ <- _ _].
  destruct (if negb _ then _ else _) as [ok1 st1]. by injection H1 as _ _ <- _ _.
Qed.

Lemma connect_inputs_kept (m : BlockMap) (p : uint256) (h f : Z) (tx : CTransaction) (st st' : state) (ok : bool) :
  P (cn_view st) -> connect_inputs m p h f tx st = Some (ok, st') -> P (cn_view st').
Proof.
  intros H. unfold connect_inputs. intros ([c1 r] & E & H1)%bind_Some. apply CheckTxInputs_kept in E; [|done]. destruct r as [e|fee]; [by injection H1 as _ <-|].
  destruct (negb _); [by injection H1 as _ <-|]. pose proof (prev_heights_kept (vin tx) c1 E) as H2. destruct (prev_heights c1 (vin tx)) as [c2 hs].
  apply bind_Some in H1 as ([|] & _ & H1); by injection H1 as _ <-.
Qed.

Lemma connect_tx_kept (m : BlockMap) (p : uint256) (h f flags : Z) (s r d first : bool) (tx : CTransaction) (st st' : state) (ok : bool) :
  P (cn_view st) -> connect_tx VerifyScript m p h f flags s r d first tx st = Some (ok, st') -> P (cn_view st').
Proof.
  intros H. unfold connect_tx. intros ([ok1 st1] & E1 & H1)%bind_Some. assert (K1 : P (cn_view st1)).
  { destruct (IsCoinBase tx); [by injection E1 as _ <-|by eapply connect_inputs_kept]. }
  destruct ok1; cbn [negb] in H1; [|by injection H1 as _ <-]. apply bind_Some in H1 as ([c2 cost] & E2 & H1). apply GetTransactionSigOpCost_kept in E2; [|done].
  destruct (_ >? _); [by injection H1 as _ <-|]. apply bind_Some in H1 as ([ok3 st3] & E3 & H1). assert (K3 : P (cn_view st3)).
  { destruct (_ && _); [|by injection E3 as _ <-]. unfold connect_scripts in E3. apply bind_Some in E3 as ([[[[a b] c3] vc] l] & E4 & E3).
    apply CheckInputScripts_kept in E4; [|done]. destruct a; by injection E3 as _ <-. }
  destruct ok3; cbn [negb] in H1; [|by injection H1 as _ <-]. apply bind_Some in H1 as ([c4 u] & E4 & H1). apply UpdateCoins_kept in E4; [|done]. by injection H1 as _ <-.
Qed.

Lemma connect_loop_kept (m : BlockMap) (p : uint256) (h f flags : Z) (s r d first : bool) (txs : list CTransaction) (st st' : state) :
  P (cn_view st) -> connect_loop VerifyScript m p h f flags s r d first txs st = Some st' -> P (cn_view st').
Proof.
  revert first st. induction txs as [|tx txs IH]; intros first st H; cbn [connect_loop]; [by intros [= <-]|]. destruct (negb _); [by intros [= <-]|].
  intros ([go st1] & E & H1)%bind_Some. apply connect_tx_kept in E; [|done]. destruct go; [by eapply IH|by injection H1 as <-].
Qed.

Lemma ConnectBlock_kept (b : CBlock) (st : BlockValidationState) (bm : BlockManager) (p : uint256) (c : cache) (vc : ValidationCache K) (j : bool) (disk : option string)
    (r : connect_result) :
  P c -> ConnectBlock VerifyScript pick_failure signet params opts b st bm p c vc j disk = Some r -> P (r_view r).
Proof.
  intros H. unfold ConnectBlock. intros (index & _ & H1)%bind_Some. destruct (negb _); [done|]. apply bind_Some in H1 as ([[ok st1] b1] & _ & H1).
  destruct (negb ok); [by injection H1 as <-|]. pose proof (P_Best c H) as H2. destruct (GetBestBlock c) as [c1 best]. cbn [fst] in H2. destruct (negb _); [done|].
  destruct (_ =? _); [injection H1 as <-; destruct j; cbn [r_view]; auto|]. apply bind_Some in H1 as (reason & _ & H1). apply bind_Some in H1 as (ov & _ & H1).
  assert (H3 : P (if ov then bip30_loop c1 st1 (vtx b1) else (c1, st1)).1) by (destruct ov; [by apply bip30_loop_kept|done]).
  destruct (if ov then _ else _) as [c2 st2]. cbn [fst] in H3. apply bind_Some in H1 as (st3 & E3 & H1). apply connect_loop_kept in E3; [|done].
  apply bind_Some in H1 as (st4 & _ & H1). destruct (negb _); [by injection H1 as <-|]. destruct j; [by injection H1 as <-|].
  apply bind_Some in H1 as ([[[ok5 st5] bm5] w5] & _ & H1). destruct (negb ok5); [by injection H1 as <-|]. apply bind_Some in H1 as (bm6 & _ & H1).
  injection H1 as <-. cbn [r_view]. auto.
Qed.
End Kept.

(** ** The view below *)

Section SameBase.
Context {B : Type} {HV : CoinsView B} {HL : LawfulView B} {K : Type} {HK : ScriptCache K}.
#[local] Abbreviation cache := (CCoinsViewCache B).
Context (VerifyScript : CScript -> CScript -> list (list Z) -> Z -> CTransaction -> nat -> Z -> bool -> list CTxOut -> option string).
Context (pick_failure : list (string * string) -> nat) (signet : CBlock -> bool) (params : Params) (opts : ChainstateOptions).

Lemma same_base_op (c0 c c' : cache) (op : coin_op) (x : coin_obs) : writes_back op = false -> same_base c0 c -> run_op c op = Some (c', x) -> same_base c0 c'.
Proof. intros Hw H E. apply run_op_base in E; [|by apply H|done]. destruct H as (_ & H1 & H2), E as (H3 & H4 & H5). split; [done|]. split; [|congruence]. intros; by rewrite H4. Qed.

Lemma ConnectBlock_isolated (b : CBlock) (st : BlockValidationState) (bm : BlockManager) (p : uint256) (c : cache) (vc : ValidationCache K) (j : bool) (disk : option string)
    (r : connect_result) :
  view_inv (base c) -> ConnectBlock VerifyScript pick_failure signet params opts b st bm p c vc j disk = Some r -> same_base c (r_view r).
Proof.
  intros Hb. apply (ConnectBlock_kept (same_base c)); [..|done].
  - intros c1 o H. assert (H1 := FetchCoin_base c1 o (proj1 H)). destruct H as (_ & H & E), H1 as (? & H1 & E1). split; [done|]. split; [|congruence]. intros; by rewrite H1.
  - intros c1 o H. destruct (SpendCoin c1 o) as [c2 r2] eqn:E. apply (same_base_op c c1 c2 (OpSpend o) (ObsCoin (r2 ≫= unspent))); [done..|]. cbn [run_op]. by rewrite E.
  - intros c1 c2 o cn ow H E%AddCoin_base. unfold same_base in *. by rewrite E.
  - intros c1 H. destruct (GetBestBlock c1) as [c2 h] eqn:E. apply (same_base_op c c1 c2 OpBest (ObsHash h)); [done..|]. cbn [run_op]. by rewrite E.
  - intros c1 h H. by destruct H.
Qed.
End SameBase.
