(* ===== verification/Activation.v ===== *)
(** * Activation of the best chain: the chain state part of validation.cpp, and the block index of node/blockstorage.cpp

    A node with one chain state: the block index, the active chain, the candidates for its tip, the coins cache over a database, the validation caches, and the
    block and undo files. [ProcessNewBlock] stores a block and [ActivateBestChain] moves the tip to the candidate with the most work, disconnecting and connecting
    blocks on the way. What the operating system answers is an environment that is asked again at every [tick]. There is no memory pool, no pruning and no
    snapshot; listeners and log are left out. [None] is a failed assertion, an exception or a null dereference. *)

From stdpp Require Import pretty.
From S2P Require Import Prelude ValidationState Serialize ArithUint256 Chain Params Pow HeaderValidation Subsidy Transaction Script.
From S2P Require Import TxCheck Coins TxVerify Merkle Sha256 Sha256Spec Hash Block ConnectBlock.
#[local] Open Scope Z_scope.

Definition BLOCK_VALID_TRANSACTIONS : Z := 3.
Definition BLOCK_HAVE_DATA : Z := 8.
Definition BLOCK_FAILED_VALID : Z := 32.
Definition BLOCK_FAILED_CHILD : Z := 64.
Definition BLOCK_OPT_WITNESS : Z := 128.
Definition MIN_BLOCKS_TO_KEEP : Z := 288.

(** ** Index entries *)

Definition HaveNumChainTxs (b : CBlockIndex) : bool := negb (m_chain_tx_count b =? 0).
Definition is_failed (b : CBlockIndex) : bool := negb (Z.land (nStatus b) BLOCK_FAILED_MASK =? 0).
Definition have_data (b : CBlockIndex) : bool := negb (Z.land (nStatus b) BLOCK_HAVE_DATA =? 0).

Definition set_nTx (b : CBlockIndex) (n : Z) : CBlockIndex := {|
  pprev := pprev b; pskip := pskip b; nHeight := nHeight b; nChainWork := nChainWork b; nTx := n; m_chain_tx_count := m_chain_tx_count b; nStatus := nStatus b;
  bi_nVersion := bi_nVersion b; bi_hashMerkleRoot := bi_hashMerkleRoot b; bi_nTime := bi_nTime b; bi_nBits := bi_nBits b; bi_nNonce := bi_nNonce b;
  nSequenceId := nSequenceId b; nTimeMax := nTimeMax b |}.
Definition set_chain_tx (b : CBlockIndex) (n : Z) : CBlockIndex := {|
  pprev := pprev b; pskip := pskip b; nHeight := nHeight b; nChainWork := nChainWork b; nTx := nTx b; m_chain_tx_count := n; nStatus := nStatus b;
  bi_nVersion := bi_nVersion b; bi_hashMerkleRoot := bi_hashMerkleRoot b; bi_nTime := bi_nTime b; bi_nBits := bi_nBits b; bi_nNonce := bi_nNonce b;
  nSequenceId := nSequenceId b; nTimeMax := nTimeMax b |}.
Definition set_sequence (b : CBlockIndex) (n : Z) : CBlockIndex := {|
  pprev := pprev b; pskip := pskip b; nHeight := nHeight b; nChainWork := nChainWork b; nTx := nTx b; m_chain_tx_count := m_chain_tx_count b; nStatus := nStatus b;
  bi_nVersion := bi_nVersion b; bi_hashMerkleRoot := bi_hashMerkleRoot b; bi_nTime := bi_nTime b; bi_nBits := bi_nBits b; bi_nNonce := bi_nNonce b;
  nSequenceId := n; nTimeMax := nTimeMax b |}.

(** A changed entry, which is then dirty. *)
Definition put_index (bm : BlockManager) (p : uint256) (b : CBlockIndex) : BlockManager :=
  mkBlockManager (<[p := b]> (m_block_index bm)) (m_best_header bm) ({[ p ]} ∪ m_dirty_blockindex bm).

(** ** The environment *)

(** [FlushStateToDisk]: it does not write; it writes, and empties the coins cache or not; or it reports an error before the coins are written, with the block
    index written or not. *)
Inductive flush_outcome := FlushSkip | FlushDisk (empty_cache : bool) | FlushFatal (index_written : bool) (message : string).
(** [WriteBlock]: it succeeds, finds no position, or throws. *)
Inductive write_outcome := WriteDone | WriteNull | WriteThrows (message : string).

Record environment := mkEnvironment {
  read_block_fails : nat -> bool;
  read_undo_fails : nat -> bool;
  write_block : nat -> write_outcome;
  undo_error : nat -> option string;
  flush : nat -> flush_outcome;
  interrupted : nat -> bool;
  pick_failure : nat -> list (string * string) -> nat;
  clock : nat -> Z
}.

(** ** The node *)

Record ChainstateManager (B K : Type) := mkManager {
  m_blockman : BlockManager;
  m_blocks_unlinked : list (uint256 * uint256);
  nBlockSequenceId : Z;
  m_best_invalid : option uint256;
  large_work_invalid_chain : bool;
  m_chain : CChain;
  setBlockIndexCandidates : gset Z;
  CoinsTip : CCoinsViewCache B;
  m_validation_cache : ValidationCache K;
  block_files : gmap Z CBlock;
  undo_files : gmap Z CBlockUndo;
  fatal_error : bool;
  tick : nat
}.
Arguments mkManager {B K}.
Arguments m_blockman {B K}.
Arguments m_blocks_unlinked {B K}.
Arguments nBlockSequenceId {B K}.
Arguments m_best_invalid {B K}.
Arguments large_work_invalid_chain {B K}.
Arguments m_chain {B K}.
Arguments setBlockIndexCandidates {B K}.
Arguments CoinsTip {B K}.
Arguments m_validation_cache {B K}.
Arguments block_files {B K}.
Arguments undo_files {B K}.
Arguments fatal_error {B K}.
Arguments tick {B K}.

Section Setters.
Context {B K : Type}.
#[local] Abbreviation node := (ChainstateManager B K).

Definition set_blockman (st : node) (x : BlockManager) : node :=
  mkManager x (m_blocks_unlinked st) (nBlockSequenceId st) (m_best_invalid st) (large_work_invalid_chain st) (m_chain st) (setBlockIndexCandidates st) (CoinsTip st)
    (m_validation_cache st) (block_files st) (undo_files st) (fatal_error st) (tick st).
Definition set_unlinked (st : node) (x : list (uint256 * uint256)) : node :=
  mkManager (m_blockman st) x (nBlockSequenceId st) (m_best_invalid st) (large_work_invalid_chain st) (m_chain st) (setBlockIndexCandidates st) (CoinsTip st)
    (m_validation_cache st) (block_files st) (undo_files st) (fatal_error st) (tick st).
Definition set_sequence_id (st : node) (x : Z) : node :=
  mkManager (m_blockman st) (m_blocks_unlinked st) x (m_best_invalid st) (large_work_invalid_chain st) (m_chain st) (setBlockIndexCandidates st) (CoinsTip st)
    (m_validation_cache st) (block_files st) (undo_files st) (fatal_error st) (tick st).
Definition set_best_invalid (st : node) (x : option uint256) : node :=
  mkManager (m_blockman st) (m_blocks_unlinked st) (nBlockSequenceId st) x (large_work_invalid_chain st) (m_chain st) (setBlockIndexCandidates st) (CoinsTip st)
    (m_validation_cache st) (block_files st) (undo_files st) (fatal_error st) (tick st).
Definition set_warning (st : node) (x : bool) : node :=
  mkManager (m_blockman st) (m_blocks_unlinked st) (nBlockSequenceId st) (m_best_invalid st) x (m_chain st) (setBlockIndexCandidates st) (CoinsTip st)
    (m_validation_cache st) (block_files st) (undo_files st) (fatal_error st) (tick st).
Definition set_m_chain (st : node) (x : CChain) : node :=
  mkManager (m_blockman st) (m_blocks_unlinked st) (nBlockSequenceId st) (m_best_invalid st) (large_work_invalid_chain st) x (setBlockIndexCandidates st) (CoinsTip st)
    (m_validation_cache st) (block_files st) (undo_files st) (fatal_error st) (tick st).
Definition set_candidates (st : node) (x : gset Z) : node :=
  mkManager (m_blockman st) (m_blocks_unlinked st) (nBlockSequenceId st) (m_best_invalid st) (large_work_invalid_chain st) (m_chain st) x (CoinsTip st)
    (m_validation_cache st) (block_files st) (undo_files st) (fatal_error st) (tick st).
Definition set_CoinsTip (st : node) (x : CCoinsViewCache B) : node :=
  mkManager (m_blockman st) (m_blocks_unlinked st) (nBlockSequenceId st) (m_best_invalid st) (large_work_invalid_chain st) (m_chain st) (setBlockIndexCandidates st) x
    (m_validation_cache st) (block_files st) (undo_files st) (fatal_error st) (tick st).
Definition set_validation_cache (st : node) (x : ValidationCache K) : node :=
  mkManager (m_blockman st) (m_blocks_unlinked st) (nBlockSequenceId st) (m_best_invalid st) (large_work_invalid_chain st) (m_chain st) (setBlockIndexCandidates st)
    (CoinsTip st) x (block_files st) (undo_files st) (fatal_error st) (tick st).
Definition set_block_files (st : node) (x : gmap Z CBlock) : node :=
  mkManager (m_blockman st) (m_blocks_unlinked st) (nBlockSequenceId st) (m_best_invalid st) (large_work_invalid_chain st) (m_chain st) (setBlockIndexCandidates st)
    (CoinsTip st) (m_validation_cache st) x (undo_files st) (fatal_error st) (tick st).
Definition set_undo_files (st : node) (x : gmap Z CBlockUndo) : node :=
  mkManager (m_blockman st) (m_blocks_unlinked st) (nBlockSequenceId st) (m_best_invalid st) (large_work_invalid_chain st) (m_chain st) (setBlockIndexCandidates st)
    (CoinsTip st) (m_validation_cache st) (block_files st) x (fatal_error st) (tick st).

(** [notifications.fatalError]: the node is asked to shut down. *)
Definition set_fatal (st : node) (x : bool) : node :=
  mkManager (m_blockman st) (m_blocks_unlinked st) (nBlockSequenceId st) (m_best_invalid st) (large_work_invalid_chain st) (m_chain st) (setBlockIndexCandidates st)
    (CoinsTip st) (m_validation_cache st) (block_files st) (undo_files st) x (tick st).

(** The environment is asked the next time. *)
Definition next_tick (st : node) : node :=
  mkManager (m_blockman st) (m_blocks_unlinked st) (nBlockSequenceId st) (m_best_invalid st) (large_work_invalid_chain st) (m_chain st) (setBlockIndexCandidates st)
    (CoinsTip st) (m_validation_cache st) (block_files st) (undo_files st) (fatal_error st) (S (tick st)).

Definition index_of (st : node) : BlockMap := m_block_index (m_blockman st).
Definition set_entry (st : node) (p : uint256) (b : CBlockIndex) : node := set_blockman st (put_index (m_blockman st) p b).

Definition FatalError (st : node) (state : BlockValidationState) (message : string) : bool * BlockValidationState * node :=
  (Error state message, set_fatal st true).

(** [WriteBlockIndexDB]: no entry is dirty afterwards. *)
Definition WriteBlockIndexDB (st : node) : node := set_blockman st (mkBlockManager (index_of st) (m_best_header (m_blockman st)) ∅).
End Setters.

(** ** Candidates *)

Section Activation.
Context {B : Type} {HV : CoinsView B} {K : Type} {HK : ScriptCache K}.
#[local] Abbreviation node := (ChainstateManager B K).

(** The address of an index entry, and the order in which the hash table of the index is traversed. *)
Context (address : uint256 -> Z) (index_order : BlockMap -> list uint256).

(** [CBlockIndexWorkComparator] *)
Definition CBlockIndexWorkComparator (m : BlockMap) (pa pb : uint256) : option bool :=
  a ← m !! pa;
  b ← m !! pb;
  Some (if uint_gtb (nChainWork a) (nChainWork b) then false
        else if uint_ltb (nChainWork a) (nChainWork b) then true
        else if nSequenceId a <? nSequenceId b then false
        else if nSequenceId a >? nSequenceId b then true
        else if address pa <? address pb then false
        else address pa >? address pb).

(** The greatest of [best] and the list. *)
Fixpoint greatest (m : BlockMap) (best : uint256) (l : list uint256) : option uint256 :=
  match l with
  | [] => Some best
  | p :: l' => less ← CBlockIndexWorkComparator m best p; greatest m (if (less : bool) then p else best) l'
  end.

(** [setBlockIndexCandidates.rbegin()] *)
Definition last_candidate (m : BlockMap) (s : gset Z) : option (option uint256) :=
  match elements s with
  | [] => Some None
  | p :: l => best ← greatest m p l; Some (Some best)
  end.

(** The candidates that are not less than the tip. *)
Fixpoint not_less (m : BlockMap) (tip : uint256) (l : list uint256) : option (list uint256) :=
  match l with
  | [] => Some []
  | p :: l' => less ← CBlockIndexWorkComparator m p tip; rest ← not_less m tip l'; Some (if (less : bool) then rest else p :: rest)
  end.

Definition PruneBlockIndexCandidates (st : node) : option node :=
  if bool_decide (setBlockIndexCandidates st = ∅) then None
  else
  tip ← chain_Tip (m_chain st);
  l ← not_less (index_of st) tip (elements (setBlockIndexCandidates st));
  if bool_decide (l = []) then None else Some (set_candidates st (list_to_set l)).

(** [TryAddBlockIndexCandidate] of a chain state without target. *)
Definition TryAddBlockIndexCandidate (st : node) (pindex : uint256) : option node :=
  worse ← (match chain_Tip (m_chain st) with None => Some false | Some tip => CBlockIndexWorkComparator (index_of st) pindex tip end);
  Some (if (worse : bool) then st else set_candidates st ({[ pindex ]} ∪ setBlockIndexCandidates st)).

(** The walk of [FindMostWorkChain] from a candidate to the active chain: the first block that is failed or has no data, and whether it is failed. *)
Fixpoint find_unusable (fuel : nat) (m : BlockMap) (v : CChain) (pindexTest : option uint256) : option (option (uint256 * bool)) :=
  match pindexTest with
  | None => Some None
  | Some p =>
      active ← chain_Contains m v p;
      if (active : bool) then Some None
      else
      b ← m !! p;
      if negb (HaveNumChainTxs b || (nHeight b =? 0)) then None
      else if is_failed b || negb (have_data b) then Some (Some (p, is_failed b))
      else match fuel with O => None | S fuel' => find_unusable fuel' m v (pprev b) end
  end.

(** Its inner loop, from the candidate down to [pindexTest]. *)
Fixpoint remove_chain (fuel : nat) (st : node) (pindexTest : uint256) (fFailedChain : bool) (pindexFailed : uint256) : option node :=
  if pindexTest =? pindexFailed then Some st
  else
  b ← index_of st !! pindexFailed;
  prev ← pprev b;
  let st :=
    if fFailedChain then set_entry st pindexFailed (set_status b (Z.lor (nStatus b) BLOCK_FAILED_CHILD))
    else set_unlinked st (m_blocks_unlinked st ++ [(prev, pindexFailed)]) in
  let st := set_candidates st (setBlockIndexCandidates st ∖ {[ pindexFailed ]}) in
  match fuel with O => None | S fuel' => remove_chain fuel' st pindexTest fFailedChain prev end.

(** [m_best_invalid] after an invalid chain that ends in [p]. *)
Definition note_invalid (st : node) (p : uint256) : option node :=
  match m_best_invalid st with
  | None => Some (set_best_invalid st (Some p))
  | Some q =>
      b ← index_of st !! p;
      c ← index_of st !! q;
      Some (if uint_gtb (nChainWork b) (nChainWork c) then set_best_invalid st (Some p) else st)
  end.

(** [FindMostWorkChain]; the fuel bounds the candidates. *)
Fixpoint FindMostWorkChain (fuel : nat) (st : node) : option (option uint256 * node) :=
  best ← last_candidate (index_of st) (setBlockIndexCandidates st);
  match best with
  | None => Some (None, st)
  | Some pindexNew =>
      let depth := S (size (index_of st)) in
      unusable ← find_unusable depth (index_of st) (m_chain st) (Some pindexNew);
      match unusable with
      | None => Some (Some pindexNew, st)
      | Some (pindexTest, fFailedChain) =>
          st ← (if (fFailedChain : bool) then note_invalid st pindexNew else Some st);
          st ← remove_chain depth st pindexTest fFailedChain pindexNew;
          let st := set_candidates st (setBlockIndexCandidates st ∖ {[ pindexTest ]}) in
          match fuel with O => None | S fuel' => FindMostWorkChain fuel' st end
      end
  end.

(** ** Invalid blocks *)

(** The loop of [SetBlockFailureFlags]. *)
Fixpoint set_failure_flags (bm : BlockManager) (invalid_block : uint256) (height : Z) (l : list uint256) : option BlockManager :=
  match l with
  | [] => Some bm
  | p :: l' =>
      b ← m_block_index bm !! p;
      descends ← (if invalid_block =? p then Some false else a ← GetAncestor (m_block_index bm) p height; Some (bool_decide (a = Some invalid_block)));
      let bm :=
        if (descends : bool) then put_index bm p (set_status b (Z.lor (Z.land (nStatus b) (u32 (Z.lnot BLOCK_FAILED_VALID))) BLOCK_FAILED_CHILD)) else bm in
      set_failure_flags bm invalid_block height l'
  end.

Definition SetBlockFailureFlags (st : node) (invalid_block : uint256) : option node :=
  b ← index_of st !! invalid_block;
  bm ← set_failure_flags (m_blockman st) invalid_block (nHeight b) (index_order (index_of st));
  Some (set_blockman st bm).

(** The loop of [RecalculateBestHeader]. *)
Fixpoint best_header_loop (m : BlockMap) (best : option uint256) (l : list uint256) : option (option uint256) :=
  match l with
  | [] => Some best
  | p :: l' =>
      b ← m !! p;
      if is_failed b then best_header_loop m best l'
      else
      q ← best;
      c ← m !! q;
      best_header_loop m (if uint_ltb (nChainWork c) (nChainWork b) then Some p else best) l'
  end.

Definition RecalculateBestHeader (st : node) : option node :=
  best ← best_header_loop (index_of st) (chain_Tip (m_chain st)) (index_order (index_of st));
  Some (set_blockman st (mkBlockManager (index_of st) best (m_dirty_blockindex (m_blockman st)))).

(** [CheckForkWarningConditions]: the warning that it sets or unsets. *)
Definition CheckForkWarningConditions (st : node) : option node :=
  match m_best_invalid st with
  | None => Some (set_warning st false)
  | Some p =>
      b ← index_of st !! p;
      tip ← chain_Tip (m_chain st);
      t ← index_of st !! tip;
      proof ← GetBlockProof (bi_nBits t);
      Some (set_warning st (uint_gtb (nChainWork b) (uint_add (nChainWork t) (uint_mul32 proof 6))))
  end.

Definition InvalidChainFound (st : node) (pindexNew : uint256) : option node :=
  b ← index_of st !! pindexNew;
  st ← note_invalid st pindexNew;
  st ← SetBlockFailureFlags st pindexNew;
  st ← (match m_best_header (m_blockman st) with
        | None => Some st
        | Some best => a ← GetAncestor (index_of st) best (nHeight b); if bool_decide (a = Some pindexNew) then RecalculateBestHeader st else Some st
        end);
  _ ← chain_Tip (m_chain st);
  CheckForkWarningConditions st.

Definition InvalidBlockFound (st : node) (pindex : uint256) (state : BlockValidationState) : option node :=
  if bool_decide (m_result state = BLOCK_MUTATED) then Some st
  else
  b ← index_of st !! pindex;
  let st := set_entry st pindex (set_status b (Z.lor (nStatus b) BLOCK_FAILED_VALID)) in
  InvalidChainFound (set_candidates st (setBlockIndexCandidates st ∖ {[ pindex ]})) pindex.

(** ** Files *)

Context (env : environment).
Context (VerifyScript : CScript -> CScript -> list (list Z) -> Z -> CTransaction -> nat -> Z -> bool -> list CTxOut -> option string).
Context (CheckSignetBlockSolution : CBlock -> bool) (params : Params) (opts : ChainstateOptions).

(** [ReadBlock]; [None] when it returns false. *)
Definition ReadBlock (st : node) (p : uint256) : option CBlock :=
  if read_block_fails env (tick st) then None
  else
  b ← block_files st !! p;
  if signet_blocks params && negb (CheckSignetBlockSolution b) then None
  else if negb (CBlockHeader_GetHash (header b) =? p) then None
  else Some b.

(** [ReadBlockUndo]; [None] when it returns false. *)
Definition ReadBlockUndo (st : node) (p : uint256) : option CBlockUndo :=
  if read_undo_fails env (tick st) then None else undo_files st !! p.

Definition FlushStateToDisk (st : node) (state : BlockValidationState) : option (bool * BlockValidationState * node) :=
  let st' := next_tick st in
  match flush env (tick st) with
  | FlushSkip => Some (true, state, st')
  | FlushFatal written message => Some (FatalError (if (written : bool) then WriteBlockIndexDB st' else st') state message)
  | FlushDisk empty_cache =>
      let st' := WriteBlockIndexDB st' in
      let '(tip, best) := GetBestBlock (CoinsTip st') in
      if best =? 0 then Some (true, state, set_CoinsTip st' tip)
      else
      '(written, tip) ← (if (empty_cache : bool) then Flush tip else Sync tip);
      let st' := set_CoinsTip st' tip in
      Some (if (written : bool) then (true, state, st') else FatalError st' state "Failed to write to coin database.")
  end.

(** ** The tip *)

Definition DisconnectTip (st : node) (state : BlockValidationState) : option (bool * BlockValidationState * node) :=
  pindexDelete ← chain_Tip (m_chain st);
  index ← index_of st !! pindexDelete;
  prev ← pprev index;
  match ReadBlock st pindexDelete with
  | None => Some (false, state, next_tick st)
  | Some block =>
      let st := next_tick st in
      let '(view, best) := GetBestBlock (new_cache (CoinsTip st)) in
      if negb (best =? pindexDelete) then None
      else
      '(view, result) ← DisconnectBlock (index_of st) block pindexDelete (ReadBlockUndo st pindexDelete) view;
      let st := next_tick st in
      if negb (bool_decide (result = DISCONNECT_OK)) then Some (false, state, set_CoinsTip st (base view))
      else
      '(flushed, view) ← Flush view;
      if negb flushed then None
      else
      '(ok, state, st) ← FlushStateToDisk (set_CoinsTip st (base view)) state;
      if negb ok then Some (false, state, st)
      else
      chain ← SetTip (index_of st) (m_chain st) prev;
      Some (true, state, set_m_chain st chain)
  end.

(** What [ConnectBlock] leaves in the node, the coins apart. *)
Definition after_connect (st : node) (pindex : uint256) (r : connect_result (B := CCoinsViewCache B) (K := K)) : node :=
  let st := set_validation_cache (set_blockman (next_tick st) (r_index r)) (r_scripts r) in
  let st := set_fatal st (fatal_error st || IsError (r_state r)) in
  match r_undo r with None => st | Some u => set_undo_files st (<[pindex := u]> (undo_files st)) end.

Definition ConnectTip (st : node) (state : BlockValidationState) (pindexNew : uint256) (block_to_connect : option CBlock)
  : option (bool * BlockValidationState * node) :=
  index ← index_of st !! pindexNew;
  if negb (bool_decide (pprev index = chain_Tip (m_chain st))) then None
  else
  let '(st, block) := match block_to_connect with Some b => (st, Some b) | None => (next_tick st, ReadBlock st pindexNew) end in
  match block with
  | None => Some (FatalError st state "Failed to read block.")
  | Some block =>
      r ← ConnectBlock VerifyScript (pick_failure env (tick st)) CheckSignetBlockSolution params opts block state (m_blockman st) pindexNew (new_cache (CoinsTip st))
            (m_validation_cache st) false (undo_error env (tick st));
      let state := r_state r in
      let st := after_connect st pindexNew r in
      if negb (r_ok r) then
        let st := set_CoinsTip st (base (r_view r)) in
        st ← (if IsInvalid state then InvalidBlockFound st pindexNew state else Some st);
        Some (false, state, st)
      else
      '(flushed, view) ← Flush (r_view r);
      if negb flushed then None
      else
      '(ok, state, st) ← FlushStateToDisk (set_CoinsTip st (base view)) state;
      if negb ok then Some (false, state, st)
      else
      chain ← SetTip (index_of st) (m_chain st) pindexNew;
      Some (true, state, set_m_chain st chain)
  end.

(** ** Towards the best chain *)

(** The first loop of [ActivateBestChainStep]: the tip goes back to the fork. *)
Fixpoint disconnect_to (fuel : nat) (st : node) (state : BlockValidationState) (pindexFork : option uint256) : option (bool * BlockValidationState * node) :=
  match chain_Tip (m_chain st) with
  | None => Some (true, state, st)
  | Some tip =>
      if bool_decide (Some tip = pindexFork) then Some (true, state, st)
      else
      '(ok, state, st) ← DisconnectTip st state;
      if negb ok then Some (FatalError st state "Failed to disconnect block.")
      else match fuel with O => None | S fuel' => disconnect_to fuel' st state pindexFork end
  end.

(** [vpindexToConnect], from its back: the blocks above [nHeight] up to [pindexIter], lowest first. *)
Fixpoint to_connect (fuel : nat) (m : BlockMap) (pindexIter : option uint256) (nHeight : Z) (above : list uint256) : option (list uint256) :=
  match pindexIter with
  | None => Some above
  | Some p =>
      b ← m !! p;
      if Chain.nHeight b =? nHeight then Some above
      else match fuel with O => None | S fuel' => to_connect fuel' m (pprev b) nHeight (p :: above) end
  end.

(** How a round of connections ends: a system error, an invalid block, a better tip, or none of these. *)
Inductive round := RoundError | RoundInvalid | RoundBetter | RoundMore.

(** The connections of one round; [front] is its highest block. *)
Fixpoint connect_round (st : node) (state : BlockValidationState) (pindexMostWork : uint256) (pblock : option CBlock) (pindexOldTip : option uint256)
    (front : uint256) (l : list uint256) : option (round * BlockValidationState * node) :=
  match l with
  | [] => Some (RoundMore, state, st)
  | p :: l' =>
      '(ok, state, st) ← ConnectTip st state p (if p =? pindexMostWork then pblock else None);
      if negb ok then
        if IsInvalid state then
          st ← (if bool_decide (m_result state = BLOCK_MUTATED) then Some st else InvalidChainFound st front);
          Some (RoundInvalid, block_state, st)
        else Some (RoundError, state, st)
      else
      st ← PruneBlockIndexCandidates st;
      better ← (match pindexOldTip with
                | None => Some true
                | Some old => tip ← chain_Tip (m_chain st); t ← index_of st !! tip; o ← index_of st !! old; Some (uint_gtb (nChainWork t) (nChainWork o))
                end);
      if (better : bool) then Some (RoundBetter, state, st) else connect_round st state pindexMostWork pblock pindexOldTip front l'
  end.

(** The second loop: rounds of at most 32 blocks up to [pindexMostWork]. *)
Fixpoint connect_rounds (fuel : nat) (st : node) (state : BlockValidationState) (pindexMostWork : uint256) (pblock : option CBlock) (pindexOldTip : option uint256)
    (nHeight : Z) : option (round * BlockValidationState * node) :=
  b ← index_of st !! pindexMostWork;
  if nHeight =? Chain.nHeight b then Some (RoundMore, state, st)
  else
  let nTargetHeight := Z.min (nHeight + 32) (Chain.nHeight b) in
  pindexIter ← GetAncestor (index_of st) pindexMostWork nTargetHeight;
  l ← to_connect 32 (index_of st) pindexIter nHeight [];
  '(r, state, st) ← (match last l with
                     | None => Some (RoundMore, state, st)
                     | Some front => connect_round st state pindexMostWork pblock pindexOldTip front l
                     end);
  match r with
  | RoundMore => match fuel with O => None | S fuel' => connect_rounds fuel' st state pindexMostWork pblock pindexOldTip nTargetHeight end
  | _ => Some (r, state, st)
  end.

(** [ActivateBestChainStep]: whether it succeeds, and whether it found an invalid block. *)
Definition ActivateBestChainStep (st : node) (state : BlockValidationState) (pindexMostWork : uint256) (pblock : option CBlock)
  : option (bool * bool * BlockValidationState * node) :=
  let pindexOldTip := chain_Tip (m_chain st) in
  pindexFork ← FindFork (index_of st) (m_chain st) (Some pindexMostWork);
  '(ok, state, st) ← disconnect_to (length (m_chain st)) st state pindexFork;
  if negb ok then Some (false, false, state, st)
  else
  nHeight ← (match pindexFork with None => Some (-1) | Some f => b ← index_of st !! f; Some (Chain.nHeight b) end);
  '(r, state, st) ← connect_rounds (S (size (index_of st))) st state pindexMostWork pblock pindexOldTip nHeight;
  match r with
  | RoundError => Some (false, false, state, st)
  | _ =>
      st ← CheckForkWarningConditions st;
      Some (true, match r with RoundInvalid => true | _ => false end, state, st)
  end.

(** How the inner loop of [ActivateBestChain] ends, under one lock: with a system error, or with the candidate in view and whether a step was taken. *)
Inductive activation := ActivationFails | ActivationStops (pindexMostWork : option uint256) (blocks_connected : bool).

(** The inner loop: steps until the tip is not worse than [starting_tip]. *)
Fixpoint activate_inner (fuel : nat) (st : node) (state : BlockValidationState) (pblock : option CBlock) (starting_tip pindexMostWork : option uint256)
    (blocks_connected : bool) : option (activation * BlockValidationState * node) :=
  '(pindexMostWork, st) ← (match pindexMostWork with None => FindMostWorkChain (size (setBlockIndexCandidates st)) st | Some p => Some (Some p, st) end);
  match pindexMostWork with
  | None => Some (ActivationStops None blocks_connected, state, st)
  | Some p =>
      if bool_decide (Some p = chain_Tip (m_chain st)) then Some (ActivationStops (Some p) blocks_connected, state, st)
      else
      '(ok, fInvalidFound, state, st) ← ActivateBestChainStep st state p (b ← pblock; if CBlockHeader_GetHash (header b) =? p then Some b else None);
      if negb ok then Some (ActivationFails, state, st)
      else
      let pindexMostWork := if (fInvalidFound : bool) then None else Some p in
      again ← (match chain_Tip (m_chain st), starting_tip with
               | None, _ => Some true
               | Some tip, Some start => CBlockIndexWorkComparator (index_of st) tip start
               | Some _, None => Some false
               end);
      if (again : bool) then
        match fuel with O => None | S fuel' => activate_inner fuel' st state pblock starting_tip pindexMostWork true end
      else Some (ActivationStops pindexMostWork true, state, st)
  end.

(** The outer loop. *)
Fixpoint activate_outer (fuel inner : nat) (st : node) (state : BlockValidationState) (pblock : option CBlock) (pindexMostWork : option uint256)
  : option (bool * BlockValidationState * node) :=
  let starting_tip := chain_Tip (m_chain st) in
  '(r, state, st) ← activate_inner inner st state pblock starting_tip pindexMostWork false;
  match r with
  | ActivationFails => Some (false, state, st)
  | ActivationStops _ false => Some (true, state, st)
  | ActivationStops pindexMostWork true =>
      let pindexNewTip := chain_Tip (m_chain st) in
      pindexFork ← FindFork (index_of st) (m_chain st) starting_tip;
      let st := next_tick st in
      if negb (bool_decide (pindexFork = pindexNewTip)) && interrupted env (tick st) then Some (true, state, st)
      else
      '(ok, state, st) ← FlushStateToDisk st state;
      if negb ok then Some (false, state, st)
      else
      let st := next_tick st in
      if interrupted env (tick st) then Some (true, state, st)
      else if bool_decide (pindexNewTip = pindexMostWork) then Some (true, state, st)
      else match fuel with O => None | S fuel' => activate_outer fuel' inner st state pblock pindexMostWork end
  end.

(** [ActivateBestChain]: an iteration of either loop has a better tip than the one before, or one more failed block. *)
Definition ActivateBestChain (st : node) (state : BlockValidationState) (pblock : option CBlock) : option (bool * BlockValidationState * node) :=
  let fuel := (S (size (index_of st)) * S (size (index_of st)))%nat in activate_outer fuel fuel st state pblock None.

(** ** New blocks *)

(** [prev_tx_sum] *)
Definition prev_tx_sum (m : BlockMap) (b : CBlockIndex) : option Z :=
  before ← (match pprev b with None => Some 0 | Some q => c ← m !! q; Some (m_chain_tx_count c) end);
  Some (u64 (nTx b + before)).

(** The queue of [ReceivedBlockTransactions]. *)
Fixpoint link_blocks (fuel : nat) (st : node) (queue : list uint256) : option node :=
  match queue with
  | [] => Some st
  | pindex :: queue =>
      b ← index_of st !! pindex;
      sum ← prev_tx_sum (index_of st) b;
      let st := set_blockman st (mkBlockManager (<[pindex := set_sequence (set_chain_tx b sum) (nBlockSequenceId st)]> (index_of st))
                                   (m_best_header (m_blockman st)) (m_dirty_blockindex (m_blockman st))) in
      let st := set_sequence_id st (nBlockSequenceId st + 1) in
      st ← TryAddBlockIndexCandidate st pindex;
      let linked := filter (fun x => x.1 = pindex) (m_blocks_unlinked st) in
      let st := set_unlinked st (filter (fun x => x.1 <> pindex) (m_blocks_unlinked st)) in
      match fuel with O => None | S fuel' => link_blocks fuel' st (queue ++ map snd linked) end
  end.

Definition ReceivedBlockTransactions (st : node) (block : CBlock) (pindexNew : uint256) : option node :=
  b ← index_of st !! pindexNew;
  let b := set_nTx b (u32 (Z.of_nat (length (vtx block)))) in
  sum ← prev_tx_sum (<[pindexNew := b]> (index_of st)) b;
  let b := if (m_chain_tx_count b =? 0) || (m_chain_tx_count b =? sum) then b else set_chain_tx b 0 in
  let b := set_status b (Z.lor (nStatus b) BLOCK_HAVE_DATA) in
  let b := if DeploymentActiveAt b params DEPLOYMENT_SEGWIT then set_status b (Z.lor (nStatus b) BLOCK_OPT_WITNESS) else b in
  let b := fst (RaiseValidity b BLOCK_VALID_TRANSACTIONS) in
  let st := set_entry st pindexNew b in
  match pprev b with
  | None => link_blocks (S (length (m_blocks_unlinked st))) st [pindexNew]
  | Some q =>
      prev ← index_of st !! q;
      if HaveNumChainTxs prev then link_blocks (S (length (m_blocks_unlinked st))) st [pindexNew]
      else if IsValid prev BLOCK_VALID_TREE then Some (set_unlinked st (m_blocks_unlinked st ++ [(q, pindexNew)]))
      else Some st
  end.

(** [WriteBlock] and [ReceivedBlockTransactions]: what [AcceptBlock] does under its exception handler. *)
Definition store_block (st : node) (state : BlockValidationState) (block : CBlock) (pindex : uint256) : option (bool * BlockValidationState * node) :=
  let st' := next_tick st in
  match write_block env (tick st) with
  | WriteNull => Some (Error state "AcceptBlock: Failed to find position to write new block to disk", st')
  | WriteThrows message => Some (FatalError st' state ("System error while saving block to disk: " +:+ message))
  | WriteDone =>
      st ← ReceivedBlockTransactions (set_block_files st' (<[pindex := new_block (header block) (vtx block)]> (block_files st'))) block pindex;
      Some (true, state, st)
  end.

Context (GetPoWHash : CBlockHeader -> uint256 -> uint256) (fuzz : bool).

(** Whether [AcceptBlock] stores a block that is not stored yet and was not asked for. *)
Definition wanted (st : node) (b : CBlockIndex) : option bool :=
  more ← (match chain_Tip (m_chain st) with None => Some true | Some tip => t ← index_of st !! tip; Some (uint_geb (nChainWork b) (nChainWork t)) end);
  Some ((nTx b =? 0) && more && negb (nHeight b >? chain_Height (m_chain st) + MIN_BLOCKS_TO_KEEP) && negb (uint_ltb (nChainWork b) (MinimumChainWork opts))).

(** [AcceptBlock] of a block that is not on disk yet; the block with what was remembered of its checks. *)
Definition AcceptBlock (st : node) (state : BlockValidationState) (block : CBlock) (fRequested min_pow_checked : bool)
  : option (bool * BlockValidationState * CBlock * node) :=
  a ← AcceptBlockHeader CBlockHeader_GetHash GetPoWHash fuzz params (m_blockman st) (clock env (tick st)) (header block) state min_pow_checked;
  let st := set_blockman (next_tick st) (ar_manager a) in
  let state := ar_state a in
  if negb (ar_ok a) then Some (false, state, block, st)
  else
  pindex ← ar_index a;
  b ← index_of st !! pindex;
  store ← (if have_data b then Some false else if fRequested then Some true else wanted st b);
  if negb store then Some (true, state, block, st)
  else
  '(ok, state, block) ← CheckBlock CheckSignetBlockSolution params block state true true;
  '(ok, state, block) ← (if (ok : bool) then ContextualCheckBlock params (index_of st) block state (pprev b) else Some (false, state, block));
  if negb ok then
    st ← (if IsInvalid state then InvalidBlockFound st pindex state else Some st);
    Some (false, state, block, st)
  else
  '(ok, state, st) ← store_block st state block pindex;
  Some (ok, state, block, st).

(** [ProcessNewBlock] *)
Definition ProcessNewBlock (st : node) (block : CBlock) (force_processing min_pow_checked : bool) : option (bool * node) :=
  '(ok, state, block) ← CheckBlock CheckSignetBlockSolution params block block_state true true;
  if negb ok then Some (false, st)
  else
  '(ok, state, block, st) ← AcceptBlock st state block force_processing min_pow_checked;
  if negb ok then Some (false, st)
  else
  '(ok, state, st) ← ActivateBestChain st block_state (Some block);
  Some (ok, st).

(** A node at its first start: an empty index and an empty chain over the coins database [db]. *)
Definition new_node (db : B) (vc : ValidationCache K) : node :=
  mkManager (mkBlockManager ∅ None ∅) [] (SEQ_ID_INIT_FROM_DISK + 1) None false [] ∅ (new_cache db) vc ∅ ∅ false 0.

(** [LoadGenesisBlock] *)
Definition LoadGenesisBlock (st : node) (genesis : CBlock) : option (bool * node) :=
  if bool_decide (is_Some (index_of st !! CBlockHeader_GetHash (header genesis))) then Some (true, st)
  else
  let st' := next_tick st in
  match write_block env (tick st) with
  | WriteNull | WriteThrows _ => Some (false, st')
  | WriteDone =>
      '(bm, pindex) ← AddToBlockIndex CBlockHeader_GetHash (m_blockman st') (header genesis);
      let st := set_blockman (set_block_files st' (<[pindex := new_block (header genesis) (vtx genesis)]> (block_files st'))) bm in
      st ← ReceivedBlockTransactions st genesis pindex;
      Some (true, st)
  end.

End Activation.
