(* ===== verification/ActivationSpec.v ===== *)
(** * Lemmas on the activation of the best chain

    Transactions up to their witnesses, the coins that a chain of blocks leads to, and the parts of the block index that no operation of a node changes. *)

From S2P Require Import Prelude ValidationState Serialize ArithUint256 Chain Params Pow HeaderValidation Subsidy Transaction Script.
From S2P Require Import TxCheck Coins TxVerify Merkle Sha256 Sha256Spec Hash Block ConnectBlock ConnectBlockSpec Activation.
#[local] Open Scope Z_scope.

#[local] Opaque ComputeHash ComputeWitnessHash CBlockHeader_GetHash hash_node SerializeTransaction hashCacheEntry.

(** ** Transactions up to witnesses *)

(** What the identifier of a transaction commits to. *)
#[export] Instance txin_equiv : Equiv CTxIn := fun i j => prevout i = prevout j /\ scriptSig i = scriptSig j /\ nSequence i = nSequence j.
#[export] Instance tx_equiv : Equiv CTransaction := fun t u => vin t ≡ vin u /\ vout t = vout u /\ tx_version t = tx_version u /\ nLockTime t = nLockTime u.

#[export] Instance txin_equivalence : Equivalence (≡@{CTxIn}).
Proof.
  split; [by intros i|by intros i j (? & ? & ?)|]. intros i j k (? & ? & ?) (? & ? & ?). unfold equiv, txin_equiv. by split_and!; etrans.
Qed.

#[export] Instance tx_equivalence : Equivalence (≡@{CTransaction}).
Proof.
  split; [by intros t|by intros t u (? & ? & ? & ?)|]. intros t u v (? & ? & ? & ?) (? & ? & ? & ?). unfold equiv, tx_equiv. by split_and!; etrans.
Qed.

Lemma prevouts_equiv (l k : list CTxIn) : l ≡ k -> map prevout l = map prevout k.
Proof. induction 1 as [|i j l k (Hp & _) _ IH]; [done|]. cbn. by rewrite Hp, IH. Qed.

#[export] Instance IsCoinBase_proper : Proper ((≡) ==> (=)) IsCoinBase.
Proof.
  intros t u (Hv & _). unfold IsCoinBase. destruct Hv as [|i j l k (Hp & _) Hl]; [done|]. destruct Hl; [by rewrite Hp|done].
Qed.

Transparent SerializeTransaction ComputeHash.
Lemma ser_vin_equiv (l k : list CTxIn) : l ≡ k -> ser fmt_vin l = ser fmt_vin k.
Proof.
  intros H. assert (Hl : length l = length k) by by eapply Forall2_length, list_equiv_Forall2.
  assert (Hc : concat (map (ser fmt_CTxIn) l) = concat (map (ser fmt_CTxIn) k)).
  { induction H as [|i j l k (Hp & Hs & Hn) _ IH]; [done|]. cbn [map concat]. rewrite IH by (cbn in Hl; lia). f_equal. cbn. by rewrite Hp, Hs, Hn. }
  change (WriteCompactSize (Z.of_nat (length l)) ++ concat (map (ser fmt_CTxIn) l) = WriteCompactSize (Z.of_nat (length k)) ++ concat (map (ser fmt_CTxIn) k)).
  by rewrite Hl, Hc.
Qed.

#[export] Instance GetSerializeSize_proper : Proper ((≡) ==> (=)) (GetSerializeSize false).
Proof.
  intros t u (Hv & Ho & Hver & Hlock). unfold GetSerializeSize, SerializeTransaction. cbn [andb]. by rewrite (ser_vin_equiv _ _ Hv), Ho, Hver, Hlock.
Qed.

#[export] Instance ComputeHash_proper : Proper ((≡) ==> (=)) ComputeHash.
Proof.
  intros t u (Hv & Ho & Hver & Hlock). unfold ComputeHash. replace (SerializeTransaction false t) with (SerializeTransaction false u); [done|].
  unfold SerializeTransaction. cbn [andb]. by rewrite (ser_vin_equiv _ _ Hv), Ho, Hver, Hlock.
Qed.
Opaque SerializeTransaction ComputeHash.

Lemma Forall_equiv (P : CTxIn -> Prop) (l k : list CTxIn) : (forall i j, i ≡ j -> P i -> P j) -> l ≡ k -> Forall P l -> Forall P k.
Proof. intros HP. induction 1 as [|i j l k Hi _ IH]; [done|]. intros [Hp Hf]%Forall_cons. constructor; [by apply (HP i)|auto]. Qed.

Lemma tx_checked_equiv (t u : CTransaction) : t ≡ u -> tx_checked t -> tx_checked u.
Proof.
  intros E [Hi Ho Hs Hv Hn Hc Hp]. pose proof E as (Ev & Eo & _). constructor.
  - intros E0. rewrite E0 in Ev. by inversion Ev; subst.
  - by rewrite <- Eo.
  - by rewrite <- (GetSerializeSize_proper _ _ E).
  - by rewrite <- Eo.
  - by rewrite <- (prevouts_equiv _ _ Ev).
  - rewrite <- (IsCoinBase_proper _ _ E). intros H. eapply Forall_equiv; [|exact Ev|auto]. by intros i j (_ & <- & _).
  - rewrite <- (IsCoinBase_proper _ _ E). intros H. eapply Forall_equiv; [|exact Ev|auto]. by intros i j (<- & _).
Qed.

(** What a transaction does depends on it only up to witnesses. *)
Lemma spend_all_equiv (m : coins) (l k : list CTxIn) : l ≡ k -> spend_all m l = spend_all m k.
Proof.
  intros H. revert m. induction H as [|i j l k (Hp & _) _ IH]; intros m; [done|]. unfold spend_all in *. cbn [fold_left]. by rewrite Hp, IH.
Qed.

Lemma connects_tx_equiv (height : Z) (m m' : coins) (t u : CTransaction) (undo : CTxUndo) (fee : Z) :
  t ≡ u -> connects_tx height m t undo fee m' -> connects_tx height m u undo fee m'.
Proof.
  intros E H. pose proof E as (Ev & Eo & _). pose proof (ComputeHash_proper _ _ E) as Eh. pose proof (IsCoinBase_proper _ _ E) as Ec.
  assert (Hu : forall m, unnamed m t -> unnamed m u) by (intros m1 Hn n; rewrite <- Eo, <- Eh; apply Hn).
  assert (Ha : forall m, add_outputs m height t = add_outputs m height u) by (intros m1; unfold add_outputs; by rewrite Eo, Eh, Ec).
  destruct H as [Hc Hn|undo fee Hc Hf Hnd Hok Hn Hfee Hpos].
  - rewrite Ha. apply connects_coinbase; [congruence|auto].
  - rewrite Ha, (spend_all_equiv _ _ _ Ev). apply connects_spend.
    + congruence.
    + clear -Hf Ev. unfold finds in *. revert undo Hf. induction Ev as [|i j l k (Hp & _) _ IH]; intros undo Hf; inversion Hf; subst; constructor; [congruence|auto].
    + by rewrite <- (prevouts_equiv _ _ Ev).
    + eapply Forall_equiv; [|exact Ev|done]. intros i j (Hp & _). unfold input_ok. by rewrite Hp.
    + rewrite <- (spend_all_equiv _ _ _ Ev). auto.
    + by rewrite <- Eo.
    + done.
Qed.

Lemma connects_equiv (height : Z) (m m' : coins) (ts us : list CTransaction) (undos : list CTxUndo) (fees : Z) :
  ts ≡ us -> connects height m ts undos fees m' -> connects height m us undos fees m'.
Proof.
  intros E H. revert us E. induction H as [m|m m1 m2 t ts undo undos fee fees Ht Hc _ IH]; intros us E; inversion E; subst; [constructor|].
  econstructor; [by eapply connects_tx_equiv|by eapply tx_checked_equiv|auto].
Qed.

Lemma block_shape_equiv (ts us : list CTransaction) : ts ≡ us -> block_shape ts -> block_shape us.
Proof.
  intros E [Hc (cb & rest & -> & Hcb & Hr)]. inversion E as [|? u ? us' Eu Er]; subst. split.
  - clear -E Hc. induction E as [|x y xs ys Et _ IH]; [done|]. apply Forall_cons in Hc as [? ?]. constructor; [by eapply tx_checked_equiv|auto].
  - exists u, us'. split; [done|]. split; [by rewrite <- (IsCoinBase_proper _ _ Eu)|].
    clear -Er Hr. induction Er as [|x y xs ys Et _ IH]; [done|]. apply Forall_cons in Hr as [? ?]. constructor; [by rewrite <- (IsCoinBase_proper _ _ Et)|auto].
Qed.

Lemma txids_commit_equiv (ts us : list CTransaction) : ts ≡ us -> txids_commit ts -> txids_commit us.
Proof.
  intros E Hc. assert (H : forall u, u ∈ us -> exists t, t ∈ ts /\ t ≡ u).
  { clear -E. induction E as [|t u ts us Et _ IH]; intros x Hx; [by apply elem_of_nil in Hx|]. apply elem_of_cons in Hx as [->|Hx].
    - exists t. split; [by left|done].
    - destruct (IH x Hx) as (y & ? & ?). exists y. split; [by right|done]. }
  intros u1 u2 (t1 & H1 & E1)%H (t2 & H2 & E2)%H Eh. rewrite <- (ComputeHash_proper _ _ E1), <- (ComputeHash_proper _ _ E2) in Eh.
  destruct E1 as (V1 & _), E2 as (V2 & _). rewrite <- (prevouts_equiv _ _ V1), <- (prevouts_equiv _ _ V2). by apply Hc.
Qed.

(** ** What no operation changes in the block index *)

(** An entry without its status, transaction counts and sequence number. *)
Definition core (b : CBlockIndex) : CBlockIndex := set_sequence (set_chain_tx (set_nTx (set_status b 0) 0) 0) 0.

Lemma core_pprev (b b' : CBlockIndex) : core b = core b' -> pprev b = pprev b'.
Proof. intros H. exact (f_equal pprev H). Qed.
Lemma core_nHeight (b b' : CBlockIndex) : core b = core b' -> nHeight b = nHeight b'.
Proof. intros H. exact (f_equal nHeight H). Qed.
Lemma core_nChainWork (b b' : CBlockIndex) : core b = core b' -> nChainWork b = nChainWork b'.
Proof. intros H. exact (f_equal nChainWork H). Qed.
Lemma core_header (b b' : CBlockIndex) : core b = core b' -> GetBlockHeader b = GetBlockHeader b'.
Proof. intros H. exact (f_equal GetBlockHeader H). Qed.

(** Entries are never removed and keep their core. *)
Definition grows (m m' : BlockMap) : Prop := forall p b, m !! p = Some b -> exists b', m' !! p = Some b' /\ core b = core b'.

Lemma grows_refl (m : BlockMap) : grows m m.
Proof. intros p b H. by exists b. Qed.
Lemma grows_trans (m1 m2 m3 : BlockMap) : grows m1 m2 -> grows m2 m3 -> grows m1 m3.
Proof. intros H1 H2 p b (b1 & Hb1 & E1)%H1. destruct (H2 p b1 Hb1) as (b2 & Hb2 & E2). exists b2. split; [done|]. by rewrite E1. Qed.

Lemma grows_update (m : BlockMap) (p : uint256) (b b' : CBlockIndex) : m !! p = Some b -> core b = core b' -> grows m (<[p := b']> m).
Proof.
  intros Hp E q c Hq. destruct (decide (p = q)) as [->|Hne].
  - rewrite Hp in Hq. injection Hq as <-. exists b'. by rewrite lookup_insert_eq.
  - exists c. by rewrite lookup_insert_ne.
Qed.

Lemma shrinks_update (m : BlockMap) (p : uint256) (b b' : CBlockIndex) : m !! p = Some b -> core b = core b' -> grows (<[p := b']> m) m.
Proof.
  intros Hp E q c. destruct (decide (p = q)) as [->|Hne].
  - rewrite lookup_insert_eq. intros [= <-]. by exists b.
  - rewrite lookup_insert_ne by done. intros Hc. by exists c.
Qed.

Lemma grows_fresh (m : BlockMap) (p : uint256) (b : CBlockIndex) : m !! p = None -> grows m (<[p := b]> m).
Proof. intros Hp q c Hq. exists c. rewrite lookup_insert_ne by congruence. done. Qed.

Section Grows.
Context (m m' : BlockMap) (Hok : tree_ok m) (Hg : grows m m').

Lemma walk_back_grows (n : nat) (p : uint256) : is_Some (m !! p) -> walk_back m' n p = walk_back m n p.
Proof.
  revert p; induction n as [|n IH]; intros p [b Hp]; [done|]. cbn [walk_back]. destruct (Hg p b Hp) as (b' & Hp' & E). rewrite Hp, Hp'. cbn [mbind option_bind].
  rewrite <- (core_pprev _ _ E). destruct (tree_ok_lookup m p b Hok Hp) as [_ Hpp]. destruct (pprev b) as [q|]; [|done]. destruct Hpp as (bq & Hq & _).
  cbn. apply IH. by exists bq.
Qed.

Lemma ancestor_at_grows (p : uint256) (h : Z) : is_Some (m !! p) -> ancestor_at m' p h = ancestor_at m p h.
Proof.
  intros [b Hp]. destruct (Hg p b Hp) as (b' & Hp' & E). unfold ancestor_at. rewrite Hp, Hp'. cbn [mbind option_bind]. rewrite (core_nHeight _ _ E).
  apply walk_back_grows. by exists b.
Qed.

Lemma chain_of_grows (p : uint256) (v : CChain) : chain_of m p v -> chain_of m' p v.
Proof.
  intros (b & Hp & Hl & Hv). destruct (Hg p b Hp) as (b' & Hp' & E). exists b'. split; [done|]. split; [by rewrite <- (core_nHeight _ _ E)|].
  intros i Hi. rewrite Hv by done. by rewrite ancestor_at_grows by by exists b.
Qed.

(** When nothing is new either, the tree stays a tree. *)
Lemma tree_ok_same : grows m' m -> tree_ok m'.
Proof.
  intros Hs p b' Hp'. destruct (Hs p b' Hp') as (b & Hp & E). destruct (tree_ok_lookup m p b Hok Hp) as [Hh Hpp].
  pose proof (f_equal pskip E : pskip b' = pskip b) as Es. unfold index_ok. rewrite (core_nHeight _ _ E), (core_pprev _ _ E), Es. split; [done|].
  destruct (pprev b) as [q|]; [|done]. destruct Hpp as (bq & Hq & Hhq & Hsk). destruct (Hg q bq Hq) as (bq' & Hq' & Eq). exists bq'. split; [done|].
  split; [by rewrite <- (core_nHeight _ _ Eq)|]. rewrite walk_back_grows by by exists b. done.
Qed.
End Grows.

Lemma works_ok_same (m m' : BlockMap) : works_ok m -> grows m' m -> works_ok m'.
Proof.
  intros Hw Hs p b' Hp'. destruct (Hs p b' Hp') as (b & Hp & E). specialize (Hw p b Hp). cbn beta in Hw. rewrite (core_nChainWork _ _ E).
  by rewrite (f_equal bi_nBits E : bi_nBits b' = bi_nBits b).
Qed.

(** ** The coins of a chain *)

Section CoinsAfter.
Context (params : Params) (body : uint256 -> list CTransaction).

(** The coins after the block [p], when every block below it applies the transactions that its hash commits to: the genesis block creates none. *)
Inductive coins_after (m : BlockMap) : uint256 -> coins -> Prop :=
| after_genesis (p : uint256) (b : CBlockIndex) : m !! p = Some b -> pprev b = None -> coins_after m p ∅
| after_block (p q : uint256) (b : CBlockIndex) (c c' : coins) (undos : list CTxUndo) (fees subsidy : Z) :
    m !! p = Some b -> pprev b = Some q -> coins_after m q c -> block_shape (body p) ->
    connects (nHeight b) c (body p) ([] :: undos) fees c' -> GetBlockSubsidy (nHeight b) params = Some subsidy ->
    (forall coinbase, head (body p) = Some coinbase -> sum_values (vout coinbase) <= fees + subsidy) -> coins_after m p c'.

Lemma coins_after_grows (m m' : BlockMap) (p : uint256) (c : coins) : grows m m' -> coins_after m p c -> coins_after m' p c.
Proof.
  intros Hg. induction 1 as [p b Hp Hr|p q b c c' undos fees subsidy Hp Hq _ IH Hs Hc Hsub Hcb]; destruct (Hg p b Hp) as (b' & Hp' & E).
  - apply (after_genesis m' p b'); [done|]. by rewrite <- (core_pprev _ _ E).
  - rewrite (core_pprev _ _ E) in Hq. rewrite (core_nHeight _ _ E) in Hc, Hsub. by apply (after_block m' p q b' c c' undos fees subsidy).
Qed.

Lemma finds_fun (m : coins) (ins : list CTxIn) (u1 u2 : CTxUndo) : finds m ins u1 -> finds m ins u2 -> u1 = u2.
Proof.
  unfold finds. intros H1. revert u2. induction H1 as [|i c ins u1 Hi _ IH]; intros u2 H2; inversion H2; subst; [done|]. f_equal; [congruence|auto].
Qed.

Lemma connects_fun (h : Z) (m m1 m2 : coins) (txs : list CTransaction) (u1 u2 : list CTxUndo) (f1 f2 : Z) :
  connects h m txs u1 f1 m1 -> connects h m txs u2 f2 m2 -> u1 = u2 /\ f1 = f2 /\ m1 = m2.
Proof.
  intros H1. revert u2 f2 m2. induction H1 as [m|m ma m1 t txs undo undos fee fees Ht _ _ IH]; intros u2 f2 m2 H2; inversion H2 as [|? mb ? ? ? undo' undos' fee' fees' Ht' _ Hr];
    subst; [done|].
  assert (undo = undo' /\ fee = fee' /\ ma = mb) as (-> & -> & ->).
  { destruct Ht as [Hc _|undo fee Hc Hf _ _ _ Hfee _]; inversion Ht' as [Hc' _|undo1 fee1 Hc' Hf' _ _ _ Hfee' _]; subst; try congruence; [done|].
    by rewrite (finds_fun _ _ _ _ Hf Hf'). }
  by destruct (IH _ _ _ Hr) as (-> & -> & ->).
Qed.

(** A block has one set of coins, in every index that knows its ancestors. *)
Lemma coins_after_fun (m m' : BlockMap) (p : uint256) (c c' : coins) :
  (forall q b b', m !! q = Some b -> m' !! q = Some b' -> pprev b = pprev b' /\ nHeight b = nHeight b') ->
  coins_after m p c -> coins_after m' p c' -> c = c'.
Proof.
  intros Hsame H. revert c'. induction H as [p b Hp Hr|p q b c1 c2 undos fees subsidy Hp Hq _ IH Hs Hc Hsub Hcb]; intros c' H'; inversion H' as
    [? b' Hp' Hr'|? q' b' c1' c2' undos' fees' subsidy' Hp' Hq' Ha' Hs' Hc' Hsub' Hcb']; subst; destruct (Hsame p b b' Hp Hp') as [E Eh]; try congruence.
  rewrite E, Hq' in Hq. injection Hq as <-. rewrite (IH _ Ha') in Hc. rewrite Eh in Hc. by destruct (connects_fun _ _ _ _ _ _ _ _ _ Hc Hc') as (_ & _ & ->).
Qed.

Lemma connects_ok (h : Z) (m m' : coins) (txs : list CTransaction) (undos : list CTxUndo) (fees : Z) :
  connects h m txs undos fees m' -> 1 <= h -> coins_ok m -> coins_ok m'.
Proof.
  induction 1 as [|m m1 m2 tx txs undo undos fee fees Htx Hck _ IH]; intros Hh Hm; [done|]. apply IH; [done|].
  destruct Htx; apply add_outputs_ok; try done. by apply spend_all_ok.
Qed.

Lemma coins_after_ok (m : BlockMap) (p : uint256) (c : coins) : tree_ok m -> coins_after m p c -> coins_ok c.
Proof.
  intros Hok. induction 1 as [p b Hp Hr|p q b c c' undos fees subsidy Hp Hq _ IH Hs Hc Hsub Hcb]; [by intros o cn|].
  apply (connects_ok _ _ _ _ _ _ Hc); [|done]. destruct (tree_ok_lookup m p b Hok Hp) as [_ Hpp]. rewrite Hq in Hpp. destruct Hpp as (bq & Hbq & E & _).
  destruct (tree_ok_lookup m q bq Hok Hbq) as [? _]. lia.
Qed.

(** The coins of a chain are worth at most the subsidies of its blocks; nobody gets that of the genesis block. *)
Lemma coins_after_supply (m : BlockMap) (p : uint256) (c : coins) :
  0 < nSubsidyHalvingInterval params -> tree_ok m -> coins_after m p c ->
  exists b t, m !! p = Some b /\ total_subsidy params (S (Z.to_nat (nHeight b))) = Some t /\ total_value c <= t - 50 * COIN.
Proof.
  intros Hi Hok. induction 1 as [p b Hp Hr|p q b c c' undos fees subsidy Hp Hq _ IH Hs Hc Hsub Hcb]; exists b; destruct (tree_ok_lookup m p b Hok Hp) as [Hh Hpp].
  - rewrite Hr in Hpp. destruct Hpp as [-> _]. exists (50 * COIN). split; [done|]. split; [|by vm_compute]. cbn [Z.to_nat total_subsidy mbind option_bind].
    rewrite (GetBlockSubsidy_epoch params Hi) by done. rewrite Z.div_0_l by lia. reflexivity.
  - destruct IH as (bq & t & Hbq & Ht & Hle). rewrite Hq in Hpp. destruct Hpp as (bq' & Hbq' & E & _). rewrite Hbq in Hbq'. injection Hbq' as <-.
    destruct (tree_ok_lookup m q bq Hok Hbq) as [Hhq _]. exists (t + subsidy). split; [done|]. split.
    + rewrite E. replace (Z.to_nat (nHeight bq + 1)) with (S (Z.to_nat (nHeight bq))) by lia. cbn [total_subsidy] in Ht |- *. rewrite Ht. cbn [mbind option_bind].
      rewrite Nat2Z.inj_succ, Z2Nat.id by lia. unfold Z.succ. rewrite <- E, Hsub. done.
    + apply (connects_value _ subsidy) in Hc; [lia|done..].
Qed.
End CoinsAfter.
