(* ===== verification/ActivationNode.v ===== *)
(** * The state of a node across the activation of the best chain

    What the bookkeeping of [Activation] leaves alone, the invariant of a node, and that every operation keeps it, whatever the environment answers. *)

From S2P Require Import Prelude ValidationState Serialize ArithUint256 Chain Params Pow HeaderValidation Subsidy Transaction Script.
From S2P Require Import TxCheck Coins TxVerify Merkle Sha256 Sha256Spec Hash Block ConnectBlock ConnectBlockSpec ConnectIsolation Activation ActivationSpec.
#[local] Open Scope Z_scope.

#[local] Opaque ComputeHash ComputeWitnessHash CBlockHeader_GetHash hash_node SerializeTransaction hashCacheEntry.

(** ** Bookkeeping *)

(** Two indexes with the same entries up to status, transaction counts and sequence numbers. *)
Definition same_index (m m' : BlockMap) : Prop := grows m m' /\ grows m' m.

#[export] Instance same_index_equivalence : Equivalence same_index.
Proof.
  split; [intros m; split; apply grows_refl|by intros m m' [? ?]|]. intros m1 m2 m3 [? ?] [? ?]. split; by eapply grows_trans.
Qed.

Lemma same_index_update (m : BlockMap) (p : uint256) (b b' : CBlockIndex) : m !! p = Some b -> core b = core b' -> same_index m (<[p := b']> m).
Proof. split; [by eapply grows_update|by eapply shrinks_update]. Qed.

Definition known_header (bm : BlockManager) : Prop := exists p, m_best_header bm = Some p /\ is_Some (m_block_index bm !! p).

(** The order of the candidates: no sequence number changes. *)
Definition order_kept (m m' : BlockMap) : Prop := forall p, nSequenceId <$> m' !! p = nSequenceId <$> m !! p.

#[export] Instance order_kept_preorder : PreOrder order_kept.
Proof. split; [by intros m p|]. intros m1 m2 m3 H1 H2 p. by rewrite H2, H1. Qed.

Lemma order_kept_update (m : BlockMap) (p : uint256) (b b' : CBlockIndex) : m !! p = Some b -> nSequenceId b' = nSequenceId b -> order_kept m (<[p := b']> m).
Proof.
  intros Hp E q. destruct (decide (p = q)) as [->|Hne]; [|by rewrite lookup_insert_ne]. rewrite lookup_insert_eq, Hp. cbn. by rewrite E.
Qed.

(** Changes of a block manager that concern the status of entries only. *)
Definition bm_books (bm bm' : BlockManager) : Prop :=
  same_index (m_block_index bm) (m_block_index bm') /\ (known_header bm -> known_header bm') /\ order_kept (m_block_index bm) (m_block_index bm').

Lemma known_header_same (bm bm' : BlockManager) :
  same_index (m_block_index bm) (m_block_index bm') -> m_best_header bm' = m_best_header bm -> known_header bm -> known_header bm'.
Proof. intros Hs Hb (p & Hp & b & Hi). destruct (proj1 Hs p b Hi) as (b' & Hi' & _). exists p. split; [congruence|by exists b']. Qed.

#[export] Instance bm_books_preorder : PreOrder bm_books.
Proof. split; [intros bm; by split_and!|]. intros b1 b2 b3 (H1 & K1 & L1) (H2 & K2 & L2). split; [by etrans|]. split; [tauto|by etrans]. Qed.

Lemma put_index_books (bm : BlockManager) (p : uint256) (b b' : CBlockIndex) :
  m_block_index bm !! p = Some b -> core b = core b' -> nSequenceId b' = nSequenceId b -> bm_books bm (put_index bm p b').
Proof.
  intros Hp E Es. assert (Hs : same_index (m_block_index bm) (m_block_index (put_index bm p b'))) by by apply (same_index_update _ p b).
  split; [done|]. split; [by apply known_header_same|by apply (order_kept_update _ p b)].
Qed.

Section Books.
Context {B : Type} {HV : CoinsView B} {K : Type} {HK : ScriptCache K}.
#[local] Abbreviation node := (ChainstateManager B K).

(** Changes of a node that concern the index entries and the candidates only. *)
Record books (st st' : node) : Prop := mkBooks {
  bk_index : same_index (index_of st) (index_of st');
  bk_header : known_header (m_blockman st) -> known_header (m_blockman st');
  bk_counter : nBlockSequenceId st <= nBlockSequenceId st';
  bk_order : nBlockSequenceId st' = nBlockSequenceId st -> order_kept (index_of st) (index_of st');
  bk_chain : m_chain st' = m_chain st;
  bk_coins : CoinsTip st' = CoinsTip st;
  bk_blocks : block_files st' = block_files st;
  bk_undo : undo_files st' = undo_files st;
  bk_fatal : fatal_error st' = fatal_error st
}.

#[export] Instance books_preorder : PreOrder books.
Proof.
  split; [intros st; by split|]. intros s1 s2 s3 [H1 H2 H3 H4 ? ? ? ? ?] [K1 K2 K3 K4 ? ? ? ? ?]. split; try congruence; [by etrans|tauto|lia|].
  intros E. etrans; [apply H4|apply K4]; lia.
Qed.

Lemma books_manager (st : node) (bm : BlockManager) : bm_books (m_blockman st) bm -> books st (set_blockman st bm).
Proof. by intros (? & ? & ?). Qed.

Lemma books_entry (st : node) (p : uint256) (b b' : CBlockIndex) :
  index_of st !! p = Some b -> core b = core b' -> nSequenceId b' = nSequenceId b -> books st (set_entry st p b').
Proof. intros Hp E Es. by apply books_manager, (put_index_books _ _ b). Qed.

(** Setters outside the index. *)
Lemma books_candidates (st : node) (s : gset Z) : books st (set_candidates st s).
Proof. by split. Qed.
Lemma books_unlinked (st : node) (l : list (uint256 * uint256)) : books st (set_unlinked st l).
Proof. by split. Qed.
Lemma books_warning (st : node) (b : bool) : books st (set_warning st b).
Proof. by split. Qed.
Lemma books_best_invalid (st : node) (p : option uint256) : books st (set_best_invalid st p).
Proof. by split. Qed.
Lemma books_tick (st : node) : books st (next_tick st).
Proof. by split. Qed.
End Books.

Create HintDb books.
#[export] Hint Resolve books_candidates books_unlinked books_warning books_best_invalid books_tick : books.

Section Operations.
Context {B : Type} {HV : CoinsView B} {K : Type} {HK : ScriptCache K}.
#[local] Abbreviation node := (ChainstateManager B K).
Context (address : uint256 -> Z) (index_order : BlockMap -> list uint256).

Lemma PruneBlockIndexCandidates_books (st st' : node) : PruneBlockIndexCandidates address st = Some st' -> books st st'.
Proof.
  unfold PruneBlockIndexCandidates. case_bool_decide; [done|]. intros (tip & _ & H1)%bind_Some. apply bind_Some in H1 as (l & _ & H1).
  case_bool_decide; [done|]. injection H1 as <-. auto with books.
Qed.

Lemma TryAddBlockIndexCandidate_books (st st' : node) (p : uint256) : TryAddBlockIndexCandidate address st p = Some st' -> books st st'.
Proof. unfold TryAddBlockIndexCandidate. intros ([|] & _ & [= <-])%bind_Some; [done|auto with books]. Qed.

Lemma note_invalid_books (st st' : node) (p : uint256) : note_invalid st p = Some st' -> books st st'.
Proof.
  unfold note_invalid. destruct (m_best_invalid st); [|intros [= <-]; auto with books]. intros (b & _ & H)%bind_Some. apply bind_Some in H as (c & _ & [= <-]).
  destruct (uint_gtb _ _); [auto with books|done].
Qed.

Lemma remove_chain_books (fuel : nat) (st st' : node) (p q : uint256) (failed : bool) : remove_chain fuel st p failed q = Some st' -> books st st'.
Proof.
  revert st q. induction fuel as [|fuel IH]; intros st q; cbn [remove_chain]; (destruct (p =? q); [by intros [= <-]|]); intros (b & Hb & H)%bind_Some;
    apply bind_Some in H as (prev & _ & H); [done|].
  apply IH in H. etrans; [|exact H]. etrans; [|apply books_candidates]. destruct failed; [by apply (books_entry _ _ b)|apply books_unlinked].
Qed.

Lemma FindMostWorkChain_books (fuel : nat) (st st' : node) (p : option uint256) : FindMostWorkChain address fuel st = Some (p, st') -> books st st'.
Proof.
  revert st. induction fuel as [|fuel IH]; intros st; cbn [FindMostWorkChain]; intros (best & _ & H)%bind_Some; (destruct best as [best|]; [|by injection H as _ <-]);
    apply bind_Some in H as (u & _ & H); (destruct u as [[t failed]|]; [|by injection H as _ <-]);
    apply bind_Some in H as (st1 & E1 & H); apply bind_Some in H as (st2 & E2 & H); [done|].
  apply IH in H. apply remove_chain_books in E2. etrans; [|exact H]. etrans; [|apply books_candidates]. etrans; [|exact E2].
  destruct failed; [by apply note_invalid_books in E1|by injection E1 as <-].
Qed.

Lemma set_failure_flags_books (l : list uint256) (bm bm' : BlockManager) (p : uint256) (h : Z) : set_failure_flags bm p h l = Some bm' -> bm_books bm bm'.
Proof.
  revert bm. induction l as [|q l IH]; intros bm; cbn [set_failure_flags]; [by intros [= <-]|]. intros (b & Hb & H)%bind_Some. apply bind_Some in H as (d & _ & H).
  apply IH in H. destruct d; [|done]. etrans; [|exact H]. by apply (put_index_books _ _ b).
Qed.

Lemma SetBlockFailureFlags_books (st st' : node) (p : uint256) : SetBlockFailureFlags index_order st p = Some st' -> books st st'.
Proof. unfold SetBlockFailureFlags. intros (b & _ & H)%bind_Some. apply bind_Some in H as (bm & E%set_failure_flags_books & [= <-]). by apply books_manager. Qed.

Lemma best_header_loop_known (m : BlockMap) (l : list uint256) (p : uint256) (best : option uint256) :
  is_Some (m !! p) -> best_header_loop m (Some p) l = Some best -> exists q, best = Some q /\ is_Some (m !! q).
Proof.
  revert p. induction l as [|q l IH]; intros p Hp; cbn [best_header_loop]; [intros [= <-]; by exists p|]. intros (b & Hb & H)%bind_Some.
  destruct (is_failed b); [by apply (IH p)|]. cbn [mbind option_bind] in H. apply bind_Some in H as (c & Hc & H). destruct (uint_ltb _ _); [|by apply (IH p)].
  apply (IH q); [by exists b|done].
Qed.

(** The tip of the active chain, if there is one, is in the index. *)
Definition tip_known (st : node) : Prop := forall tip, chain_Tip (m_chain st) = Some tip -> is_Some (index_of st !! tip).

Lemma tip_known_books (st st' : node) : books st st' -> tip_known st -> tip_known st'.
Proof.
  intros Hb Ht tip. rewrite (bk_chain _ _ Hb). intros (b & Hi)%Ht. destruct (proj1 (bk_index _ _ Hb) tip b Hi) as (b' & Hi' & _). by exists b'.
Qed.

Lemma RecalculateBestHeader_books (st st' : node) : tip_known st -> is_Some (chain_Tip (m_chain st)) -> RecalculateBestHeader index_order st = Some st' -> books st st'.
Proof.
  intros Ht [tip Etip]. unfold RecalculateBestHeader. intros (best & E & [= <-])%bind_Some. split; try done. intros _. rewrite Etip in E.
  destruct (best_header_loop_known _ _ _ _ (Ht tip Etip) E) as (q & -> & Hq). by exists q.
Qed.

Lemma CheckForkWarningConditions_books (st st' : node) : CheckForkWarningConditions st = Some st' -> books st st'.
Proof.
  unfold CheckForkWarningConditions. destruct (m_best_invalid st); [|intros [= <-]; auto with books]. intros (b & _ & H)%bind_Some. apply bind_Some in H as (tip & _ & H).
  apply bind_Some in H as (t & _ & H). apply bind_Some in H as (proof & _ & [= <-]). auto with books.
Qed.

Lemma InvalidChainFound_books (st st' : node) (p : uint256) : tip_known st -> InvalidChainFound index_order st p = Some st' -> books st st'.
Proof.
  intros Ht. unfold InvalidChainFound. intros (b & _ & H)%bind_Some. apply bind_Some in H as (st1 & E1%note_invalid_books & H).
  apply bind_Some in H as (st2 & E2%SetBlockFailureFlags_books & H). apply bind_Some in H as (st3 & E3 & H). apply bind_Some in H as (tip & Etip & H).
  apply CheckForkWarningConditions_books in H. assert (H2 : books st st2) by by etrans. etrans; [exact H2|]. etrans; [|exact H].
  destruct (m_best_header (m_blockman st2)) as [best|]; [|by injection E3 as <-]. apply bind_Some in E3 as (a & _ & E3). case_bool_decide; [|by injection E3 as <-].
  pose proof E3 as E4. unfold RecalculateBestHeader in E4. apply bind_Some in E4 as (x & _ & E4). injection E4 as <-. cbn in Etip.
  apply RecalculateBestHeader_books; [by apply (tip_known_books st)|by exists tip|done].
Qed.

Lemma InvalidBlockFound_books (st st' : node) (p : uint256) (state : BlockValidationState) :
  tip_known st -> InvalidBlockFound index_order st p state = Some st' -> books st st'.
Proof.
  intros Ht. unfold InvalidBlockFound. case_bool_decide as Em; [by intros [= <-]|]. intros (b & Hb & H)%bind_Some.
  match type of H with InvalidChainFound _ ?s _ = _ => assert (Hs : books st s) end.
  { etrans; [|apply books_candidates]. by apply (books_entry _ _ b). }
  etrans; [exact Hs|]. apply InvalidChainFound_books in H; [done|]. by apply (tip_known_books st).
Qed.

Lemma link_blocks_books (fuel : nat) (st st' : node) (queue : list uint256) : link_blocks address fuel st queue = Some st' -> books st st'.
Proof.
  revert st queue. induction fuel as [|fuel IH]; intros st [|p queue]; cbn [link_blocks]; try (by intros [= <-]); intros (b & Hb & H)%bind_Some;
    apply bind_Some in H as (sum & _ & H); apply bind_Some in H as (st1 & E1%TryAddBlockIndexCandidate_books & H); [done|].
  apply IH in H. etrans; [|exact H]. etrans; [|apply books_unlinked]. etrans; [|exact E1].
  match goal with |- books ?s ?s' => assert (Hs : same_index (index_of s) (index_of s')) by by apply (same_index_update _ _ b) end.
  split; try done; cbn; [|lia..]. by apply known_header_same.
Qed.

(** The candidates, the sequence counter and the unlinked blocks stay. *)
Record quiet (st st' : node) : Prop := mkQuiet {
  qt_candidates : setBlockIndexCandidates st' = setBlockIndexCandidates st;
  qt_counter : nBlockSequenceId st' = nBlockSequenceId st;
  qt_unlinked : m_blocks_unlinked st' = m_blocks_unlinked st
}.

#[export] Instance quiet_preorder : PreOrder quiet.
Proof. split; [by intros st|]. intros s1 s2 s3 [] []. split; congruence. Qed.

Lemma CheckForkWarningConditions_quiet (st st' : node) : CheckForkWarningConditions st = Some st' -> quiet st st'.
Proof.
  unfold CheckForkWarningConditions. destruct (m_best_invalid st); [|by intros [= <-]]. intros (b & _ & H)%bind_Some. apply bind_Some in H as (tip & _ & H).
  apply bind_Some in H as (t & _ & H). by apply bind_Some in H as (proof & _ & [= <-]).
Qed.

Lemma note_invalid_quiet (st st' : node) (p : uint256) : note_invalid st p = Some st' -> quiet st st'.
Proof.
  unfold note_invalid. destruct (m_best_invalid st); [|by intros [= <-]]. intros (b & _ & H)%bind_Some. apply bind_Some in H as (c & _ & [= <-]). by destruct (uint_gtb _ _).
Qed.

Lemma InvalidChainFound_quiet (st st' : node) (p : uint256) : InvalidChainFound index_order st p = Some st' -> quiet st st'.
Proof.
  unfold InvalidChainFound. intros (b & _ & H)%bind_Some. apply bind_Some in H as (st1 & E1%note_invalid_quiet & H).
  apply bind_Some in H as (st2 & E2 & H). apply bind_Some in H as (st3 & E3 & H). apply bind_Some in H as (tip & Etip & H).
  apply CheckForkWarningConditions_quiet in H. etrans; [exact E1|]. etrans; [|exact H]. unfold SetBlockFailureFlags in E2. apply bind_Some in E2 as (x & _ & E2).
  apply bind_Some in E2 as (bm & _ & [= <-]). cbn [m_blockman set_blockman] in E3. destruct (m_best_header bm); [|by injection E3 as <-].
  apply bind_Some in E3 as (a & _ & E3). case_bool_decide; [|by injection E3 as <-]. unfold RecalculateBestHeader in E3. by apply bind_Some in E3 as (y & _ & [= <-]).
Qed.

Lemma InvalidBlockFound_quiet (st st' : node) (p : uint256) (state : BlockValidationState) :
  InvalidBlockFound index_order st p state = Some st' ->
  setBlockIndexCandidates st' ⊆ setBlockIndexCandidates st /\ nBlockSequenceId st' = nBlockSequenceId st /\ m_blocks_unlinked st' = m_blocks_unlinked st.
Proof.
  clear address. unfold InvalidBlockFound. case_bool_decide as Em; [by intros [= <-]|]. intros (b & Hb & H)%bind_Some. apply InvalidChainFound_quiet in H as [-> -> ->].
  cbn. set_solver.
Qed.

Lemma core_RaiseValidity (b : CBlockIndex) (n : Z) : core (fst (RaiseValidity b n)) = core b.
Proof. unfold RaiseValidity. destruct (negb _); [done|]. by destruct (_ <? _). Qed.

Lemma RaiseValidity_sequence (b : CBlockIndex) (n : Z) : nSequenceId (fst (RaiseValidity b n)) = nSequenceId b.
Proof. unfold RaiseValidity. destruct (negb _); [done|]. by destruct (_ <? _). Qed.

Lemma ReceivedBlockTransactions_books (params : Params) (st st' : node) (block : CBlock) (p : uint256) :
  ReceivedBlockTransactions address params st block p = Some st' -> books st st'.
Proof.
  unfold ReceivedBlockTransactions. intros (b & Hb & H)%bind_Some. apply bind_Some in H as (sum & _ & H).
  match type of H with context [set_entry st p ?b'] => assert (E : books st (set_entry st p b')) end.
  { apply (books_entry _ _ b); [done|rewrite core_RaiseValidity|rewrite RaiseValidity_sequence]; destruct (DeploymentActiveAt _ _ _), (_ || _); reflexivity. }
  destruct (pprev _) as [q|]; [|etrans; [exact E|by eapply link_blocks_books]]. apply bind_Some in H as (prev & _ & H).
  destruct (HaveNumChainTxs prev); [etrans; [exact E|by eapply link_blocks_books]|]. destruct (IsValid _ _); injection H as <-; [|done].
  etrans; [exact E|apply books_unlinked].
Qed.
End Operations.

(** ** Coins *)

Section Views.
Context {B : Type} {HV : CoinsView B} {HL : LawfulView B}.

(** The coins and the best block of a cache, without regard to what it remembers. *)
Definition holds (c : CCoinsViewCache B) (m : coins) (best : uint256) : Prop := represents c (mkCoinSet m best false).

Lemma represents_holds (c : CCoinsViewCache B) (m : coins) (best : uint256) (known : bool) : represents c (mkCoinSet m best known) -> holds c m best.
Proof. by intros (H1 & H2 & H3 & _). Qed.

Lemma GetBestBlock_holds (c : CCoinsViewCache B) (m : coins) (best : uint256) :
  holds c m best -> exists c', GetBestBlock c = (c', best) /\ represents c' (mkCoinSet m best (negb (best =? 0))).
Proof.
  intros H. destruct (run_op_refines c _ (mkCoinSet m best (negb (best =? 0))) OpBest (ObsHash best) H eq_refl) as (c' & E & H'). cbn [run_op] in E.
  destruct (GetBestBlock c) as [c1 h]. injection E as -> ->. by exists c'.
Qed.
End Views.

Section Layers.
Context {B : Type} {HV : CoinsView B} {HL : LawfulView B}.

Lemma new_cache_holds (c : CCoinsViewCache B) (m : coins) (best : uint256) : holds c m best -> holds (new_cache c) m best.
Proof. intros (H1 & H2 & H3 & _). split; [by apply new_cache_inv|]. split; [done|]. by split. Qed.

(** A view that is dropped leaves the cache below as it was. *)
Lemma dropped_holds (c : CCoinsViewCache B) (view : CCoinsViewCache (CCoinsViewCache B)) (m : coins) (best : uint256) :
  holds c m best -> same_base (new_cache c) view -> holds (base view) m best.
Proof. intros (H1 & H2 & H3 & _) (K1 & K2 & K3). split; [done|]. split; [intros o; etrans; [apply K2|apply H2]|]. split; [etrans; [apply K3|apply H3]|done]. Qed.

(** A view that is flushed hands its coins to the cache below. *)
Lemma flushed_holds (view : CCoinsViewCache (CCoinsViewCache B)) (m : coins) (best : uint256) :
  represents view (mkCoinSet m best true) -> exists view', Flush view = Some (true, view') /\ holds (base view') m best.
Proof.
  intros (H1 & H2 & H3 & H4). destruct (Flush_spec view H1 (H4 eq_refl)) as (view' & E & K1 & _ & _ & K2 & K3). exists view'. split; [done|].
  split; [apply (ci_base _ K1)|]. split; [intros o; etrans; [apply (K3 o)|apply H2]|]. split; [etrans; [exact K2|done]|done].
Qed.
End Layers.

(** ** The active chain *)

Lemma chain_of_tip (m : BlockMap) (p : uint256) (v : CChain) : tree_ok m -> chain_of m p v -> chain_Tip v = Some p.
Proof.
  intros Hok (b & Hb & Hl & Hv). destruct (tree_ok_lookup m p b Hok Hb) as [Hh _]. unfold chain_Tip. rewrite (proj2 (Nat.ltb_lt _ _)) by lia.
  rewrite list_lookup_total_alt, Hv by lia. cbn. replace (Z.of_nat (length v - 1)) with (nHeight b) by lia. by rewrite ancestor_at_self.
Qed.

(** A chain that ends in a block of the index, or none yet. *)
Definition chain_good (m : BlockMap) (v : CChain) : Prop := v = [] \/ exists tip, chain_of m tip v.

Lemma chain_good_tip (m : BlockMap) (v : CChain) (tip : uint256) : tree_ok m -> chain_good m v -> chain_Tip v = Some tip -> chain_of m tip v.
Proof. intros Hok [->|(t & Hc)]; [done|]. rewrite (chain_of_tip m t v Hok Hc). by intros [= ->]. Qed.

Lemma chain_good_grows (m m' : BlockMap) (v : CChain) : tree_ok m -> grows m m' -> chain_good m v -> chain_good m' v.
Proof. intros Hok Hg [->|(t & Hc)]; [by left|]. right. exists t. by apply (chain_of_grows m). Qed.

(** ** Moves of the tip *)

Section Moves.
Context {B : Type} {HV : CoinsView B} {HL : LawfulView B} {K : Type} {HK : ScriptCache K}.
#[local] Abbreviation node := (ChainstateManager B K).

(** Changes that leave everything but the active chain, the coins and the validation cache. *)
Record same_but_tip (st st' : node) : Prop := mkSameButTip {
  sb_index : index_of st' = index_of st;
  sb_header : m_best_header (m_blockman st') = m_best_header (m_blockman st);
  sb_candidates : setBlockIndexCandidates st' = setBlockIndexCandidates st;
  sb_unlinked : m_blocks_unlinked st' = m_blocks_unlinked st;
  sb_sequence : nBlockSequenceId st' = nBlockSequenceId st;
  sb_invalid : m_best_invalid st' = m_best_invalid st;
  sb_blocks : block_files st' = block_files st;
  sb_undo : undo_files st' = undo_files st
}.

#[export] Instance same_but_tip_preorder : PreOrder same_but_tip.
Proof. split; [by intros st|]. intros s1 s2 s3 [] []. split; congruence. Qed.

(** The block whose coins the node holds. *)
Definition coins_block (st : node) : uint256 := cache_best (CoinsTip st).

(** The coins are those of the tip. *)
Definition synced (st : node) : Prop := coins_block st = default 0 (chain_Tip (m_chain st)).

(** As long as no fatal error was reported, the coins stay those of the tip. *)
Definition sync_kept (st st' : node) : Prop := fatal_error st' = false -> fatal_error st = false /\ (synced st -> synced st').

#[export] Instance sync_kept_preorder : PreOrder sync_kept.
Proof. split; [by intros st|]. intros s1 s2 s3 H1 H2 Hf. destruct (H2 Hf) as [Hf2 H2']. destruct (H1 Hf2) as [Hf1 H1']. auto. Qed.

Lemma sync_kept_same (st st' : node) : fatal_error st' = fatal_error st -> CoinsTip st' = CoinsTip st -> m_chain st' = m_chain st -> sync_kept st st'.
Proof. intros Ef Ec Em Hf. unfold synced, coins_block. by rewrite <- Ef, Ec, Em. Qed.

Lemma books_sync (st st' : node) : books st st' -> sync_kept st st'.
Proof. intros []. by apply sync_kept_same. Qed.

Lemma sync_kept_fatal (st st' : node) : fatal_error st' = true -> sync_kept st st'.
Proof. intros E Hf. congruence. Qed.

(** The index keeps its entries and their order, and the candidates can only become fewer. *)
Record keeps_index (st st' : node) : Prop := mkKeepsIndex {
  ki_index : same_index (index_of st) (index_of st');
  ki_order : order_kept (index_of st) (index_of st');
  ki_candidates : setBlockIndexCandidates st' ⊆ setBlockIndexCandidates st
}.

#[export] Instance keeps_index_preorder : PreOrder keeps_index.
Proof. split; [intros st; by split|]. intros s1 s2 s3 [H1 H2 H3] [K1 K2 K3]. split; [by etrans|by etrans|set_solver]. Qed.

Lemma same_but_tip_keeps (st st' : node) : same_but_tip st st' -> keeps_index st st'.
Proof. intros [E1 _ E2 _ _ _ _ _]. split; by rewrite ?E1, ?E2. Qed.

Lemma books_keeps (st st' : node) : books st st' -> quiet st st' -> keeps_index st st'.
Proof. intros Hb [Hc Hn _]. split; [apply Hb|by apply Hb|by rewrite Hc]. Qed.

Lemma holds_best (c : CCoinsViewCache B) (m : coins) (best : uint256) : holds c m best -> cache_best c = best.
Proof. by intros (_ & _ & H & _). Qed.
End Moves.

(** ** The invariant *)

(** Hashes that are not null and not those of the two blocks that may overwrite coins. *)
Definition good_hash (p : uint256) : Prop := p <> 0 /\ forall b, IsBIP30Repeat b p = false.

Section Invariant.
Context (params : Params) (body : uint256 -> list CTransaction).

(** The index is a tree of known headers with the genesis block as its root. *)
Record index_good (bm : BlockManager) : Prop := mkIndexGood {
  ig_tree : tree_ok (m_block_index bm);
  ig_works : works_ok (m_block_index bm);
  ig_best : known_header bm;
  ig_keys : forall p b, m_block_index bm !! p = Some b -> good_hash p /\ CBlockHeader_GetHash (GetBlockHeader b) = p;
  ig_root : forall p b, m_block_index bm !! p = Some b -> pprev b = None <-> p = hashGenesisBlock params;
  ig_genesis : is_Some (m_block_index bm !! hashGenesisBlock params)
}.

Lemma index_good_same (bm bm' : BlockManager) :
  same_index (m_block_index bm) (m_block_index bm') -> (known_header bm -> known_header bm') -> index_good bm -> index_good bm'.
Proof.
  intros [Hg Hs] Hb [H1 H2 H3 H4 H5 (g & H6)]. split.
  - by apply (tree_ok_same _ _ H1 Hg).
  - by apply (works_ok_same (m_block_index bm)).
  - auto.
  - intros p b' Hp'. destruct (Hs p b' Hp') as (b & Hp & E). rewrite (core_header _ _ E). by apply H4.
  - intros p b' Hp'. destruct (Hs p b' Hp') as (b & Hp & E). rewrite (core_pprev _ _ E). by apply H5.
  - destruct (Hg _ g H6) as (g' & ? & _). by exists g'.
Qed.

Lemma index_good_insert (bm bm' : BlockManager) (k q : uint256) (b : CBlockIndex) :
  index_good bm -> m_block_index bm !! k = None -> m_block_index bm' = <[k := b]> (m_block_index bm) -> tree_ok (m_block_index bm') -> works_ok (m_block_index bm') ->
  known_header bm' -> good_hash k -> CBlockHeader_GetHash (GetBlockHeader b) = k -> pprev b = Some q -> index_good bm'.
Proof.
  intros [_ _ _ H4 H5 (g & H6)] Hf Hm Hok Hwk Hb Hgood Hk Hq. assert (Hg : hashGenesisBlock params <> k) by (intros E; rewrite E, Hf in H6; discriminate H6).
  assert (Hcase : forall p c, m_block_index bm' !! p = Some c -> p = k /\ c = b \/ m_block_index bm !! p = Some c).
  { clear Hk. intros p c. rewrite Hm. destruct (decide (p = k)) as [->|Hne]; [rewrite lookup_insert_eq; intros [= <-]; by left|]. rewrite lookup_insert_ne by done. by right. }
  split; [exact Hok|exact Hwk|exact Hb| | |].
  - intros p c [[-> ->]|Hc]%Hcase; [split; [exact Hgood|exact Hk]|exact (H4 p c Hc)].
  - clear Hk. intros p c [[-> ->]|Hc]%Hcase; [|exact (H5 p c Hc)]. rewrite Hq. split; [discriminate|]. intros E. by symmetry in E.
  - clear Hk. rewrite Hm, lookup_insert_ne by done. by exists g.
Qed.

(** BIP 30 is enforced for every block when no block has the hash that would waive it. *)
Lemma bip30_enforced (bm : BlockManager) (p : uint256) (b : CBlockIndex) :
  index_good bm -> BIP34Hash params = 0 -> m_block_index bm !! p = Some b -> p <> hashGenesisBlock params -> bip30_checked params (m_block_index bm) p = Some true.
Proof.
  intros Hi H34 Hp Hg. unfold bip30_checked. rewrite Hp. cbn [mbind option_bind].
  destruct (pprev b) as [q|] eqn:Eq; [|by apply (ig_root _ Hi p b Hp) in Eq]. cbn [mbind option_bind].
  destruct (tree_ok_lookup _ p b (ig_tree _ Hi) Hp) as [_ Hpp]. rewrite Eq in Hpp. destruct Hpp as (bq & Hq & _).
  rewrite (GetAncestor_correct _ q bq (BIP34Height params) (ig_tree _ Hi) Hq).
  assert (Ha : forall a, ancestor_at (m_block_index bm) q (BIP34Height params) = Some a -> a <> 0).
  { intros a. unfold ancestor_at. rewrite Hq. cbn [mbind option_bind]. intros Hw. destruct (walk_back_height _ _ _ _ _ (ig_tree _ Hi) Hq Hw) as (ba & Hba & _).
    apply (ig_keys _ Hi a ba Hba). }
  destruct (ig_keys _ Hi p b Hp) as [[_ Hr] _]. rewrite Hr, H34. cbn [negb andb].
  destruct (_ && _); cbn [mbind option_bind]; [|done]. destruct (ancestor_at _ _ _) as [a|] eqn:Ea; [|done].
  rewrite (proj2 (Z.eqb_neq a 0)) by by apply Ha. done.
Qed.

(** The coins of a node are those of the chain that ends in the block the coins view names, or none before the genesis block. *)
Definition coins_at (m : BlockMap) (best : uint256) (c : coins) : Prop := best = 0 /\ c = ∅ \/ coins_after params body m best c.

Context {B : Type} {HV : CoinsView B} {HL : LawfulView B} {K : Type} {HK : ScriptCache K}.
#[local] Abbreviation node := (ChainstateManager B K).

Definition coins_good (m : BlockMap) (tip : CCoinsViewCache B) : Prop := exists c best, holds tip c best /\ coins_at m best c.

(** Stored blocks have the transactions that their hash commits to. *)
Definition block_good (p : uint256) (b : CBlock) : Prop := p <> hashGenesisBlock params -> vtx b ≡ body p /\ (fChecked b = true -> block_shape (vtx b)).
Definition blocks_good (files : gmap Z CBlock) : Prop := forall p b, files !! p = Some b -> block_good p b.

(** Stored undo data is what the block spent of the coins of its predecessor. *)
Definition undo_good (m : BlockMap) (files : gmap Z CBlockUndo) : Prop :=
  forall p u, files !! p = Some u -> exists b q c c' fees, m !! p = Some b /\ pprev b = Some q /\ coins_after params body m q c /\ block_shape (body p) /\
    connects (nHeight b) c (body p) ([] :: u) fees c'.

Record node_ok (st : node) : Prop := mkNodeOk {
  ok_index : index_good (m_blockman st);
  ok_chain : chain_good (index_of st) (m_chain st);
  ok_coins : coins_good (index_of st) (CoinsTip st);
  ok_blocks : blocks_good (block_files st);
  ok_undo : undo_good (index_of st) (undo_files st)
}.

Lemma coins_at_grows (m m' : BlockMap) (best : uint256) (c : coins) : grows m m' -> coins_at m best c -> coins_at m' best c.
Proof. intros Hg [H|H]; [by left|right]. by apply (coins_after_grows params body m). Qed.

Lemma coins_good_grows (m m' : BlockMap) (tip : CCoinsViewCache B) : grows m m' -> coins_good m tip -> coins_good m' tip.
Proof. intros Hg (c & best & H & Ha). exists c, best. split; [done|]. by apply (coins_at_grows m). Qed.

Lemma undo_good_grows (m m' : BlockMap) (files : gmap Z CBlockUndo) : grows m m' -> undo_good m files -> undo_good m' files.
Proof.
  intros Hg Hu p u Hp. destruct (Hu p u Hp) as (b & q & c & c' & fees & Hb & Hq & Ha & Hs & Hc). destruct (Hg p b Hb) as (b' & Hb' & E).
  exists b', q, c, c', fees. rewrite <- (core_pprev _ _ E), <- (core_nHeight _ _ E). split_and!; try done. by apply (coins_after_grows params body m).
Qed.

Lemma node_ok_grows (st st' : node) :
  index_good (m_blockman st') -> grows (index_of st) (index_of st') -> m_chain st' = m_chain st -> CoinsTip st' = CoinsTip st -> blocks_good (block_files st') ->
  undo_files st' = undo_files st -> node_ok st -> node_ok st'.
Proof.
  intros Hi Hg Hc Hco Hb Hu [H1 H2 H3 H4 H5]. split; [done| | |done|].
  - rewrite Hc. apply (chain_good_grows (index_of st)); [apply (ig_tree _ H1)|done..].
  - rewrite Hco. by apply (coins_good_grows (index_of st)).
  - rewrite Hu. by apply (undo_good_grows (index_of st)).
Qed.

Lemma node_ok_books (st st' : node) : books st st' -> node_ok st -> node_ok st'.
Proof.
  intros [Hm Hk _ _ Hc Hco Hb Hu _] H. apply (node_ok_grows st); try done; [|apply Hm|rewrite Hb; apply H].
  apply (index_good_same (m_blockman st)); [done..|apply H].
Qed.

Lemma node_ok_tip_known (st : node) : node_ok st -> tip_known st.
Proof. intros H tip E. destruct (chain_good_tip _ _ _ (ig_tree _ (ok_index _ H)) (ok_chain _ H) E) as (b & Hb & _). by exists b. Qed.

(** A node may get other coins and another chain. *)
Lemma node_ok_moved (st st' : node) :
  same_but_tip st st' -> chain_good (index_of st) (m_chain st') -> coins_good (index_of st) (CoinsTip st') -> node_ok st -> node_ok st'.
Proof.
  intros [E1 E2 _ _ _ _ E7 E8] Hc Hco [H1 H2 H3 H4 H5]. split; rewrite ?E1, ?E7, ?E8; try done.
  apply (index_good_same (m_blockman st)); [unfold index_of in E1; by rewrite E1|apply known_header_same; [unfold index_of in E1; by rewrite E1|done]|done].
Qed.
End Invariant.
