(* ===== verification/ActivationTip.v ===== *)
(** * The operations that move the tip keep the invariant of the node

    Whatever the environment answers, [DisconnectTip], [ConnectTip], [ActivateBestChain] and [ProcessNewBlock] leave a node whose coins are those of a chain of
    its index; as long as no fatal error was reported, of the active one. *)

From S2P Require Import Prelude ValidationState Serialize ArithUint256 Chain Params Pow HeaderValidation Subsidy Transaction Script.
From S2P Require Import TxCheck Coins TxVerify Merkle Sha256 Sha256Spec Hash Block ConnectBlock ConnectBlockSpec ConnectIsolation Activation ActivationSpec ActivationNode.
#[local] Open Scope Z_scope.

#[local] Opaque ComputeHash ComputeWitnessHash CBlockHeader_GetHash hash_node SerializeTransaction hashCacheEntry.

(** ** Headers *)

(** A header either leaves the index alone or adds its entry. *)
Lemma AcceptBlockHeader_manager (GetHash : CBlockHeader -> uint256) (GetPoWHash : CBlockHeader -> uint256 -> uint256) (fuzz : bool) (params : Params) (bm : BlockManager)
    (now : Z) (h : CBlockHeader) (state : BlockValidationState) (mp : bool) (a : accept_result) :
  is_Some (m_block_index bm !! hashGenesisBlock params) -> AcceptBlockHeader GetHash GetPoWHash fuzz params bm now h state mp = Some a ->
  (ar_ok a = true -> ar_index a = Some (GetHash h)) /\
  (ar_manager a = bm \/
   m_block_index bm !! GetHash h = None /\ is_Some (m_block_index bm !! hashPrevBlock h) /\ AddToBlockIndex GetHash bm h = Some (ar_manager a, GetHash h)).
Proof.
  intros [g Hg]. unfold AcceptBlockHeader. destruct (Z.eqb_spec (GetHash h) (hashGenesisBlock params)) as [Eg|Eg].
  - destruct (negb mp); [intros [= <-]; cbn; split; [done|by left]|]. unfold AddToBlockIndex. rewrite Eg, Hg. cbn. intros [= <-]. cbn. split; [done|by left].
  - destruct (m_block_index bm !! GetHash h) as [b|] eqn:Eh.
    { destruct (negb _); intros [= <-]; cbn; split; try done; by left. }
    destruct (CheckBlockHeader h state) as [ok0 st0]. destruct (negb ok0); [intros [= <-]; cbn; split; [done|by left]|].
    destruct (m_block_index bm !! hashPrevBlock h) as [prev|] eqn:Ep; [|intros [= <-]; cbn; split; [done|by left]].
    destruct (negb _); [intros [= <-]; cbn; split; [done|by left]|]. intros ([ok1 st1] & _ & H)%bind_Some. destruct (negb ok1); [injection H as <-; cbn; split; [done|by left]|].
    destruct (negb mp); [injection H as <-; cbn; split; [done|by left]|]. apply bind_Some in H as ([bm' p] & E & [= <-]). cbn.
    assert (p = GetHash h) as ->.
    { clear -E. unfold AddToBlockIndex in E. destruct (m_block_index bm !! GetHash h); [by injection E as _ <-|]. apply bind_Some in E as (x & _ & E).
      apply bind_Some in E as (y & _ & E). apply bind_Some in E as (z & _ & E). by apply bind_Some in E as (w & _ & [= _ <-]). }
    split; [done|]. right. split; [done|]. split; [by exists prev|done].
Qed.

(** ** Writing to disk *)

Section Flushing.
Context {B : Type} {HV : CoinsView B} {HL : LawfulView B} {K : Type} {HK : ScriptCache K}.
#[local] Abbreviation node := (ChainstateManager B K).
Context (env : environment).

(** [FlushStateToDisk] returns, and keeps everything but where the coins are stored; when it fails, it has reported a fatal error. *)
Lemma FlushStateToDisk_keeps (st : node) (state : BlockValidationState) (m : coins) (best : uint256) :
  holds (CoinsTip st) m best ->
  exists ok state' st', FlushStateToDisk env st state = Some (ok, state', st') /\ holds (CoinsTip st') m best /\ same_but_tip st st' /\ m_chain st' = m_chain st /\
    if ok then state' = state /\ fatal_error st' = fatal_error st else IsError state' = true /\ fatal_error st' = true.
Proof.
  intros H. unfold FlushStateToDisk. destruct (flush env (tick st)) as [|empty|written message].
  - by eexists true, state, _.
  - destruct (GetBestBlock_holds (CoinsTip st) m best H) as (c1 & E & H1). change (CoinsTip (WriteBlockIndexDB (next_tick st))) with (CoinsTip st). rewrite E.
    destruct (Z.eqb_spec best 0) as [->|Hne]; cbn [negb] in H1; [eexists true, state, _; split; [done|]; split; [by apply (represents_holds _ _ _ false)|done]|].
    assert (exists c2, (if empty then Flush c1 else Sync c1) = Some (true, c2) /\ holds c2 m best) as (c2 & E2 & H2).
    { destruct empty.
      - destruct (run_op_refines c1 _ (mkCoinSet m best true) OpFlush (ObsBool true) H1 eq_refl) as (c2 & E2 & H2). cbn [run_op] in E2.
        apply bind_Some in E2 as ([ok c3] & E3 & [= -> ->]). exists c2. split; [done|]. by eapply represents_holds.
      - destruct (run_op_refines c1 _ (mkCoinSet m best true) OpSync (ObsBool true) H1 eq_refl) as (c2 & E2 & H2). cbn [run_op] in E2.
        apply bind_Some in E2 as ([ok c3] & E3 & [= -> ->]). exists c2. split; [done|]. by eapply represents_holds. }
    rewrite E2. cbn [mbind option_bind]. by eexists true, state, _.
  - eexists false, _, _. split; [reflexivity|]. by destruct written.
Qed.
End Flushing.

(** ** Moving the tip *)

Section Tip.
Context {B : Type} {HV : CoinsView B} {HL : LawfulView B} {K : Type} {HK : ScriptCache K}.
#[local] Abbreviation node := (ChainstateManager B K).
Context (address : uint256 -> Z) (index_order : BlockMap -> list uint256) (env : environment).
Context (VerifyScript : CScript -> CScript -> list (list Z) -> Z -> CTransaction -> nat -> Z -> bool -> list CTxOut -> option string).
Context (CheckSignetBlockSolution : CBlock -> bool) (params : Params) (opts : ChainstateOptions) (body : uint256 -> list CTransaction).

(** Transactions of one block with the same identifier spend the same; coins are created by a schedule of halvings; BIP 30 is not waived. *)
Context (Hbody : forall p, txids_commit (body p)) (Hint : 0 < nSubsidyHalvingInterval params) (H34 : BIP34Hash params = 0).

#[local] Abbreviation ok := (node_ok params body).

Lemma ReadBlock_good (st : node) (p : uint256) (b : CBlock) :
  ok st -> ReadBlock env CheckSignetBlockSolution params st p = Some b -> block_good params body p b /\ CBlockHeader_GetHash (header b) = p.
Proof.
  intros H. unfold ReadBlock. destruct (read_block_fails _ _); [done|]. intros (b' & Hb & H1)%bind_Some. destruct (_ && _); [done|].
  destruct (Z.eqb_spec (CBlockHeader_GetHash (header b')) p) as [E|]; cbn [negb] in H1; [|done]. injection H1 as ->. split; [|done]. by apply (ok_blocks _ _ _ H).
Qed.

(** The coins before the tip, when its undo data is at hand. *)
Lemma undo_inverts (m : BlockMap) (p : uint256) (c : coins) (files : gmap Z CBlockUndo) (u : CBlockUndo) :
  undo_good params body m files -> files !! p = Some u -> coins_after params body m p c ->
  exists b q c0 fees, m !! p = Some b /\ pprev b = Some q /\ coins_after params body m q c0 /\ block_shape (body p) /\ connects (nHeight b) c0 (body p) ([] :: u) fees c.
Proof.
  intros Hu Hp Ha. destruct (Hu p u Hp) as (b & q & c0 & c' & fees & Hb & Hq & Ha0 & Hs & Hc). exists b, q, c0, fees. split_and!; try done.
  inversion Ha as [? b1 Hb1 Hr|? q1 b1 c1 c2 undos fees1 subsidy Hb1 Hq1 Ha1 Hs1 Hc1 _ _]; subst; rewrite Hb in Hb1; injection Hb1 as <-; [congruence|].
  rewrite Hq in Hq1. injection Hq1 as <-. assert (c0 = c1) as <- by (apply (coins_after_fun params body m m q); [|done..]; intros x y z E1 E2; rewrite E1 in E2; by injection E2 as <-).
  by destruct (connects_fun _ _ _ _ _ _ _ _ _ Hc Hc1) as (_ & _ & <-).
Qed.

(** What [DisconnectBlock] does to the tip, with its undo data or without. *)
Lemma DisconnectBlock_tip (st : node) (block : CBlock) (tip q : uint256) (b : CBlockIndex) (c : coins) (undo : option CBlockUndo) (view : CCoinsViewCache (CCoinsViewCache B)) :
  ok st -> index_of st !! tip = Some b -> pprev b = Some q -> coins_after params body (index_of st) tip c -> block_good params body tip block ->
  represents view (mkCoinSet c tip true) -> (forall u, undo = Some u -> undo_files st !! tip = Some u) ->
  match undo with
  | None => DisconnectBlock (index_of st) block tip undo view = Some (view, DISCONNECT_FAILED)
  | Some _ => exists view' c0, DisconnectBlock (index_of st) block tip undo view = Some (view', DISCONNECT_OK) /\ represents view' (mkCoinSet c0 q true) /\
      coins_after params body (index_of st) q c0
  end.
Proof.
  intros H Hb Hq Ha Hblock Hview Hu. pose proof (ok_index _ _ _ H) as Hi. destruct undo as [u|].
  2: { unfold DisconnectBlock. by rewrite Hb. }
  destruct (undo_inverts _ _ _ _ _ (ok_undo _ _ _ H) (Hu u eq_refl) Ha) as (b' & q' & c0 & fees & Hb' & Hq' & Ha0 & Hs & Hc).
  rewrite Hb in Hb'. injection Hb' as <-. rewrite Hq in Hq'. injection Hq' as <-. destruct (tree_ok_lookup _ tip b (ig_tree _ _ Hi) Hb) as [Hh0 Hpp].
  rewrite Hq in Hpp. destruct Hpp as (bq & Hbq & Hhq & _). destruct (tree_ok_lookup _ q bq (ig_tree _ _ Hi) Hbq) as [Hhq0 _].
  destruct Hblock as [Hv _]. { intros E. apply (ig_root _ _ Hi tip b Hb) in E. congruence. }
  assert (Hqnz : q <> 0) by apply (ig_keys _ _ Hi q bq Hbq). symmetry in Hv.
  destruct (DisconnectBlock_represents (index_of st) block tip q b view (mkCoinSet c tip true) c0 u fees Hb Hq Hqnz ltac:(lia)
    (coins_after_ok params body _ q c0 (ig_tree _ _ Hi) Ha0) (block_shape_equiv _ _ Hv Hs) (connects_equiv _ _ _ _ _ _ _ Hv Hc) Hview) as (view' & Ed & Hview').
  by exists view', c0.
Qed.

(** The coins are handed down and perhaps written to disk; then the tip is moved to [q]. *)
Lemma finish_tip (st st' : node) (state state' : BlockValidationState) (c : coins) (q : uint256) (view : CCoinsViewCache (CCoinsViewCache B)) (r : bool) :
  ok st -> represents view (mkCoinSet c q true) -> coins_after params body (index_of st) q c ->
  ('(flushed, view) ← Flush view;
   if negb flushed then None
   else
   '(ok, state, st) ← FlushStateToDisk env (set_CoinsTip st (base view)) state;
   if negb ok then Some (false, state, st)
   else
   chain ← SetTip (index_of st) (m_chain st) q;
   Some (true, state, set_m_chain st chain)) = Some (r, state', st') ->
  ok st' /\ same_but_tip st st' /\ sync_kept st st' /\
  if r then chain_of (index_of st) q (m_chain st') /\ coins_block st' = q /\ state' = state
  else m_chain st' = m_chain st /\ IsError state' = true /\ fatal_error st' = true.
Proof.
  intros H Hview Ha H1. destruct (flushed_holds view c q Hview) as (view' & Ef & Hf). rewrite Ef in H1. cbn [mbind option_bind negb] in H1.
  set (s1 := set_CoinsTip st (base view')) in H1.
  destruct (FlushStateToDisk_keeps env s1 state c q Hf) as (fl & state1 & s2 & Efl & Hf2 & Hsb & Hch & Hok). rewrite Efl in H1. cbn [mbind option_bind] in H1.
  assert (Hsb2 : same_but_tip st s2) by by destruct Hsb. assert (Hco : coins_good params body (index_of st) (CoinsTip s2)) by (exists c, q; split; [done|by right]).
  destruct fl; cbn [negb] in H1; destruct Hok as [Es Eft].
  2: { injection H1 as <- <- <-. split; [apply (node_ok_moved _ _ st); try done; rewrite Hch; apply H|]. split; [done|]. split; [by apply sync_kept_fatal|done]. }
  assert (Hq : is_Some (index_of st !! q)) by (by inversion Ha; eexists). destruct Hq as [bq Hq]. pose proof (ig_tree _ _ (ok_index _ _ _ H)) as Ht.
  destruct (SetTip_correct (index_of st) (m_chain st) q bq Ht (ok_chain _ _ _ H) Hq) as (v & Ev & Hcv). rewrite (sb_index _ _ Hsb2), Hch in H1.
  change (m_chain s1) with (m_chain st) in H1. rewrite Ev in H1. cbn [mbind option_bind] in H1. injection H1 as <- <- <-.
  assert (Hcb : coins_block (set_m_chain s2 v) = q) by by eapply holds_best. split; [|split; [by destruct Hsb2|split; [|done]]].
  - apply (node_ok_moved _ _ st); [by destruct Hsb2|right; by exists q|done..].
  - intros E. split; [etrans; [symmetry; exact Eft|exact E]|]. intros _. unfold synced. rewrite Hcb. cbn [m_chain set_m_chain]. by rewrite (chain_of_tip (index_of st) q v).
Qed.

Lemma tick_ok (st : node) : ok st -> ok (next_tick st).
Proof. intros H. by apply (node_ok_books _ _ st); [apply books_tick|]. Qed.

Lemma DisconnectTip_keeps (st st' : node) (state state' : BlockValidationState) (r : bool) :
  ok st -> DisconnectTip env CheckSignetBlockSolution params st state = Some (r, state', st') ->
  ok st' /\ same_but_tip st st' /\ sync_kept st st' /\
  if r then state' = state /\ exists tip b q, chain_Tip (m_chain st) = Some tip /\ index_of st !! tip = Some b /\ pprev b = Some q /\ coins_block st = tip /\
    chain_of (index_of st) q (m_chain st') /\ coins_block st' = q
  else m_chain st' = m_chain st.
Proof.
  intros H. unfold DisconnectTip. intros (tip & Etip & H1)%bind_Some. apply bind_Some in H1 as (b & Hb & H1). apply bind_Some in H1 as (q & Hq & H1).
  destruct (ReadBlock _ _ _ st tip) as [block|] eqn:Er.
  2: { injection H1 as <- <- <-. split; [by apply tick_ok|]. split; [done|]. by split; [apply books_sync, books_tick|]. }
  destruct (ReadBlock_good st tip block H Er) as [Hblock _]. destruct (ok_coins _ _ _ H) as (c & best & Hh & Ha).
  destruct (GetBestBlock_holds (new_cache (CoinsTip st)) c best (new_cache_holds _ _ _ Hh)) as (view & Eb & Hview). change (CoinsTip (next_tick st)) with (CoinsTip st) in H1.
  rewrite Eb in H1. destruct (Z.eqb_spec best tip) as [->|]; cbn [negb] in H1; [|done].
  destruct (ig_keys _ _ (ok_index _ _ _ H) tip b Hb) as [[Hnz _] _]. destruct Ha as [[? _]|Ha]; [done|]. rewrite (proj2 (Z.eqb_neq tip 0) Hnz) in Hview. cbn [negb] in Hview.
  assert (H2 : ok (next_tick (next_tick st))) by by apply tick_ok, tick_ok.
  assert (Hu : forall u, ReadBlockUndo env (next_tick st) tip = Some u -> undo_files st !! tip = Some u).
  { intros u. unfold ReadBlockUndo. cbn [undo_files next_tick]. by destruct (read_undo_fails _ _). }
  pose proof (DisconnectBlock_tip st block tip q b c _ view H Hb Hq Ha Hblock Hview Hu) as Hd. change (index_of (next_tick st)) with (index_of st) in H1.
  destruct (ReadBlockUndo env (next_tick st) tip) as [u|].
  - destruct Hd as (view' & c0 & Ed & Hview' & Ha0). match type of H1 with ?x ≫= _ = _ => change x with (DisconnectBlock (index_of st) block tip (Some u) view) in H1 end.
    rewrite Ed in H1. cbn [mbind option_bind] in H1. rewrite bool_decide_eq_true_2 in H1 by done. cbn [negb] in H1.
    destruct (finish_tip _ _ _ _ c0 q view' r H2 Hview' Ha0 H1) as (K1 & [] & K3 & K4). split; [done|]. split; [done|]. split; [done|].
    destruct r; [|by destruct K4]. destruct K4 as (K4 & K5 & K6). split; [done|]. exists tip, b, q. split_and!; try done. by eapply holds_best.
  - match type of H1 with ?x ≫= _ = _ => change x with (DisconnectBlock (index_of st) block tip None view) in H1 end. rewrite Hd in H1. cbn [mbind option_bind] in H1.
    injection H1 as <- <- <-. assert (Hdrop : holds (base view) c tip).
    { apply (dropped_holds (CoinsTip st)); [done|]. apply (run_op_base (new_cache (CoinsTip st)) view OpBest (ObsHash tip)); [apply Hh|done|]. cbn [run_op]. by rewrite Eb. }
    split; [|split; [done|split; [|done]]].
    + apply (node_ok_moved _ _ st); [done|apply H| |done]. exists c, tip. split; [done|by right].
    + intros Hf. split; [done|]. unfold synced, coins_block. cbn. by rewrite (holds_best _ _ _ Hdrop), (holds_best _ _ _ Hh).
Qed.

(** ** Connecting *)

Lemma WriteBlockUndo_books (undo : CBlockUndo) (bm bm' : BlockManager) (p : uint256) (state state' : BlockValidationState) (disk : option string) (r : bool)
    (written : option CBlockUndo) :
  WriteBlockUndo undo bm p state disk = Some (r, state', bm', written) -> bm_books bm bm' /\ (r = false -> written = None).
Proof.
  unfold WriteBlockUndo. intros (b & Hb & H)%bind_Some. destruct (negb _); [by injection H as <- _ <- <-|]. destruct disk; [by injection H as <- _ <- <-|].
  injection H as <- _ <- <-. split; [|done]. by apply (put_index_books bm p b).
Qed.

Lemma raise_scripts_books (bm bm' : BlockManager) (p : uint256) : raise_scripts bm p = Some bm' -> bm_books bm bm'.
Proof.
  unfold raise_scripts. intros (b & Hb & H)%bind_Some. destruct (IsValid _ _); injection H as <-; [done|].
  apply (put_index_books bm p b); [done|by rewrite core_RaiseValidity|by rewrite RaiseValidity_sequence].
Qed.

(** A branch of [ConnectBlock] that leaves the index alone and writes no undo data. *)
Ltac unchanged H := injection H as <-; split; [reflexivity|split; reflexivity].

(** What [ConnectBlock] does to the index, and that it writes undo data only for a block that it accepts. *)
Lemma ConnectBlock_books (pick : list (string * string) -> nat) (b : CBlock) (state : BlockValidationState) (bm : BlockManager) (p : uint256)
    (view : CCoinsViewCache (CCoinsViewCache B)) (vc : ValidationCache K) (disk : option string) (r : connect_result) :
  ConnectBlock VerifyScript pick CheckSignetBlockSolution params opts b state bm p view vc false disk = Some r ->
  bm_books bm (r_index r) /\ (r_ok r = false -> r_undo r = None) /\ (p = hashGenesisBlock params -> r_undo r = None).
Proof.
  unfold ConnectBlock. intros (index & Hp & H)%bind_Some. destruct (Z.eqb_spec p (CBlockHeader_GetHash (header b))) as [Eh|]; cbn [negb] in H; [|discriminate].
  rewrite <- Eh in H. clear Eh. apply bind_Some in H as ([[ok0 st0] b0] & _ & H). destruct ok0; cbn [negb] in H; [|unchanged H].
  destruct (GetBestBlock view) as [v1 best].
  destruct (negb _); [discriminate|]. destruct (Z.eqb_spec p (hashGenesisBlock params)) as [Eg|Eg]; [unchanged H|].
  apply bind_Some in H as (reason & _ & H). apply bind_Some in H as (ov & _ & H). destruct (if ov then _ else _) as [v2 st2].
  apply bind_Some in H as (st3 & _ & H). apply bind_Some in H as (st4 & _ & H). destruct (negb _); [unchanged H|].
  apply bind_Some in H as ([[[ok5 st5] bm5] w5] & E5 & H). apply WriteBlockUndo_books in E5 as [E5 Ew]. destruct ok5; cbn [negb] in H.
  2: { injection H as <-. split; [exact E5|]. split; reflexivity. }
  apply bind_Some in H as (bm6 & E6%raise_scripts_books & H). injection H as <-. cbn [r_index r_ok r_undo]. split; [by etrans|]. split; [discriminate|contradiction].
Qed.

Lemma coins_at_index (bm : BlockManager) (best : uint256) (c : coins) :
  index_good params bm -> coins_at params body (m_block_index bm) best c -> if best =? 0 then c = ∅ else coins_after params body (m_block_index bm) best c.
Proof.
  intros Hi [[-> ->]|Ha]; [done|]. assert (Hb : is_Some (m_block_index bm !! best)) by (by inversion Ha; eexists). destruct Hb as [b Hb].
  destruct (ig_keys _ _ Hi best b Hb) as [[Hnz _] _]. by rewrite (proj2 (Z.eqb_neq best 0) Hnz).
Qed.

(** The genesis block only becomes the best block. *)
Lemma ConnectBlock_genesis (pick : list (string * string) -> nat) (b : CBlock) (state : BlockValidationState) (bm : BlockManager) (p best : uint256) (index : CBlockIndex)
    (c : coins) (view : CCoinsViewCache (CCoinsViewCache B)) (vc : ValidationCache K) (disk : option string) (r : connect_result) :
  m_block_index bm !! p = Some index -> p = hashGenesisBlock params -> p <> 0 -> holds view c best ->
  ConnectBlock VerifyScript pick CheckSignetBlockSolution params opts b state bm p view vc false disk = Some r -> r_ok r = true ->
  default 0 (pprev index) = best /\ represents (r_view r) (mkCoinSet c p true).
Proof.
  intros Hp Eg Hnz Hview. unfold ConnectBlock. rewrite Hp. cbn [mbind option_bind negb].
  destruct (Z.eqb_spec p (CBlockHeader_GetHash (header b))) as [Eh|]; cbn [negb]; [|discriminate].
  rewrite <- Eh. clear Eh. intros ([[ok0 st0] b0] & _ & H)%bind_Some Hok. destruct ok0; cbn [negb] in H; [|injection H as <-; discriminate].
  destruct (GetBestBlock_holds view c best Hview) as (v1 & E1 & H1). rewrite E1 in H. destruct (Z.eqb_spec (default 0 (pprev index)) best) as [Eb|]; cbn [negb] in H; [|discriminate].
  rewrite Eg, Z.eqb_refl, <- Eg in H. injection H as <-. cbn [r_view]. split; [exact Eb|].
  destruct (run_op_refines v1 _ (mkCoinSet c p true) (OpSetBest p) ObsNone H1) as (v2 & E & H2).
  { cbn [spec_op]. by rewrite (proj2 (Z.eqb_neq p 0) Hnz). }
  cbn [run_op] in E. by injection E as <-.
Qed.

(** An accepted block takes the coins of its predecessor to its own. *)
Lemma ConnectBlock_accepts (pick : list (string * string) -> nat) (b : CBlock) (state : BlockValidationState) (bm : BlockManager) (p best : uint256) (index : CBlockIndex)
    (c : coins) (view : CCoinsViewCache (CCoinsViewCache B)) (vc : ValidationCache K) (disk : option string) (r : connect_result) :
  index_good params bm -> m_block_index bm !! p = Some index -> block_good params body p b -> holds view c best -> coins_at params body (m_block_index bm) best c ->
  ConnectBlock VerifyScript pick CheckSignetBlockSolution params opts b state bm p view vc false disk = Some r -> r_ok r = true ->
  default 0 (pprev index) = best /\ exists c', represents (r_view r) (mkCoinSet c' p true) /\ coins_after params body (m_block_index bm) p c' /\
    forall u, r_undo r = Some u -> exists q fees, pprev index = Some q /\ coins_after params body (m_block_index bm) q c /\ block_shape (body p) /\
      connects (nHeight index) c (body p) ([] :: u) fees c'.
Proof.
  intros Hi Hp Hblock Hview Ha Hrun Hok. destruct (ig_keys _ _ Hi p index Hp) as [[Hnz Hrep] _]. apply coins_at_index in Ha; [|done].
  destruct (decide (p = hashGenesisBlock params)) as [Eg|Eg].
  - pose proof (proj2 (ig_root _ _ Hi p index Hp) Eg) as Hr. destruct (ConnectBlock_genesis _ _ _ _ _ _ _ _ _ _ _ _ Hp Eg Hnz Hview Hrun Hok) as [Eb Hv]. split; [exact Eb|].
    rewrite Hr in Eb. cbn in Eb. subst best. cbn [Z.eqb] in Ha. subst c. exists ∅. split; [exact Hv|]. split; [by apply (after_genesis _ _ _ p index)|].
    intros u Hu. rewrite (proj2 (proj2 (ConnectBlock_books _ _ _ _ _ _ _ _ _ Hrun)) Eg) in Hu. discriminate.
  - destruct (Hblock Eg) as [Hv Hsh]. symmetry in Hv. destruct (tree_ok_lookup _ p index (ig_tree _ _ Hi) Hp) as [Hh _].
    destruct (ConnectBlock_connects VerifyScript pick CheckSignetBlockSolution params opts b state bm p index view vc disk (mkCoinSet c best false) r Hview Hsh
      (txids_commit_equiv _ _ Hv (Hbody p)) Hp Hh Hnz Eg Hint (bip30_enforced params bm p index Hi H34 Hp Eg) Hrun Hok)
      as (Hs & Hq & undos & fees & c' & subsidy & Hcs & Hrep' & Hu & _ & Hsub & _ & Hcb). cbn [cs_best cs_coins] in Hq, Hcs. rewrite Hq. split; [done|]. symmetry in Hv.
    assert (Ea : (best =? 0) = false).
    { destruct (tree_ok_lookup _ p index (ig_tree _ _ Hi) Hp) as [_ Hpp]. rewrite Hq in Hpp. destruct Hpp as (bq & Hbq & _). apply Z.eqb_neq, (ig_keys _ _ Hi best bq Hbq). }
    rewrite Ea in Ha. exists c'. split; [exact Hrep'|]. pose proof (block_shape_equiv _ _ Hv Hs) as Hs'. pose proof (connects_equiv _ _ _ _ _ _ _ Hv Hcs) as Hcs'. split.
    + apply (after_block _ _ _ p best index c c' undos fees subsidy); try done. intros cb Hcb'. destruct Hv as [|t t' ts ts' (_ & Ev & _) _]; [done|].
      injection Hcb' as <-. rewrite <- Ev. by apply Hcb.
    + intros u Eu. apply Hu in Eu as ->. by exists best, fees.
Qed.

Lemma after_connect_ok (st : node) (p : uint256) (r : connect_result (B := CCoinsViewCache B) (K := K)) :
  ok st -> bm_books (m_blockman st) (r_index r) ->
  (forall u, r_undo r = Some u -> exists b q c c' fees, index_of st !! p = Some b /\ pprev b = Some q /\ coins_after params body (index_of st) q c /\ block_shape (body p) /\
     connects (nHeight b) c (body p) ([] :: u) fees c') ->
  ok (after_connect st p r).
Proof.
  intros H Hbm Hu. assert (H1 : ok (set_fatal (set_validation_cache (set_blockman (next_tick st) (r_index r)) (r_scripts r)) (fatal_error st || IsError (r_state r)))).
  { apply (node_ok_moved _ _ (set_blockman st (r_index r))); [done| | |by apply (node_ok_books _ _ st); [apply books_manager|]].
    - apply (chain_good_grows (index_of st)); [apply (ig_tree _ _ (ok_index _ _ _ H))|apply Hbm|apply H].
    - apply (coins_good_grows _ _ (index_of st)); [apply Hbm|apply H]. }
  unfold after_connect. destruct (r_undo r) as [u|]; [|done]. destruct H1 as [K1 K2 K3 K4 K5]. split; try done. cbn [undo_files set_undo_files].
  intros p' u'. destruct (decide (p' = p)) as [->|Hne].
  - cbn. rewrite lookup_insert_eq. intros [= <-]. destruct (Hu u eq_refl) as (b & q & c & c' & fees & Hb & Hq & Ha & Hs & Hc).
    destruct (proj1 (proj1 Hbm) p b Hb) as (b' & Hb' & E). exists b', q, c, c', fees. rewrite <- (core_pprev _ _ E), <- (core_nHeight _ _ E). split_and!; try done.
    by apply (coins_after_grows params body (index_of st)); [apply Hbm|].
  - cbn. rewrite lookup_insert_ne by done. apply K5.
Qed.

Lemma after_connect_same (st : node) (p : uint256) (r : connect_result (B := CCoinsViewCache B) (K := K)) :
  m_blockman (after_connect st p r) = r_index r /\ m_chain (after_connect st p r) = m_chain st /\ CoinsTip (after_connect st p r) = CoinsTip st /\
  setBlockIndexCandidates (after_connect st p r) = setBlockIndexCandidates st /\ fatal_error (after_connect st p r) = fatal_error st || IsError (r_state r).
Proof. unfold after_connect. by destruct (r_undo r). Qed.

(** [ConnectTip] once it has the block. *)
Lemma connect_keeps (st st' : node) (state state' : BlockValidationState) (p : uint256) (index : CBlockIndex) (b : CBlock) (c : connect_result) (r : bool) :
  ok st -> index_of st !! p = Some index -> block_good params body p b ->
  ConnectBlock VerifyScript (pick_failure env (tick st)) CheckSignetBlockSolution params opts b state (m_blockman st) p (new_cache (CoinsTip st))
    (m_validation_cache st) false (undo_error env (tick st)) = Some c ->
  (let st := after_connect st p c in
   if negb (r_ok c) then
     st ← (if IsInvalid (r_state c) then InvalidBlockFound index_order (set_CoinsTip st (base (r_view c))) p (r_state c) else Some (set_CoinsTip st (base (r_view c))));
     Some (false, r_state c, st)
   else
   '(flushed, view) ← Flush (r_view c);
   if negb flushed then None
   else
   '(ok, state, st) ← FlushStateToDisk env (set_CoinsTip st (base view)) (r_state c);
   if negb ok then Some (false, state, st)
   else
   chain ← SetTip (index_of st) (m_chain st) p;
   Some (true, state, set_m_chain st chain)) = Some (r, state', st') ->
  ok st' /\ keeps_index st st' /\ sync_kept st st' /\
  if r then chain_of (index_of st') p (m_chain st') /\ coins_block st' = p /\ setBlockIndexCandidates st' = setBlockIndexCandidates st else m_chain st' = m_chain st.
Proof.
  intros H Hp Hb Hrun H1. cbn zeta in H1. pose proof (ok_index _ _ _ H) as Hi. destruct (ok_coins _ _ _ H) as (cs & best & Hh & Ha).
  destruct (ConnectBlock_books _ _ _ _ _ _ _ _ _ Hrun) as (Hbm & Hno & _). destruct (after_connect_same st p c) as (Em & Ec & Eco & Ecand & Ef).
  set (st1 := after_connect st p c) in *. assert (Hidx : index_of st1 = m_block_index (r_index c)) by (unfold index_of; by rewrite Em).
  assert (Hk1 : keeps_index st st1) by (split; [rewrite Hidx; apply Hbm..|by rewrite Ecand]).
  assert (Hs1 : sync_kept st st1).
  { intros Hf. rewrite Ef in Hf. apply orb_false_iff in Hf as [Hf _]. split; [done|]. unfold synced, coins_block. by rewrite Eco, Ec. }
  destruct (r_ok c) eqn:Eok; cbn [negb] in H1.
  - destruct (ConnectBlock_accepts _ _ _ _ _ best index cs _ _ _ _ Hi Hp Hb (new_cache_holds _ _ _ Hh) Ha Hrun Eok) as (_ & c' & Hrep & Ha' & Hu).
    assert (Hst1 : ok st1). { apply after_connect_ok; [done..|]. intros u Eu. destruct (Hu u Eu) as (q & fees & ? & ? & ? & ?). by exists index, q, cs, c', fees. }
    assert (Ha1 : coins_after params body (index_of st1) p c') by (rewrite Hidx; by apply (coins_after_grows _ _ (index_of st)); [apply Hbm|]).
    destruct (finish_tip st1 st' _ _ c' p (r_view c) r Hst1 Hrep Ha1 H1) as (K1 & K2 & K3 & K4). split; [done|]. split; [etrans; [exact Hk1|by apply same_but_tip_keeps]|].
    split; [by etrans|]. destruct r; [|destruct K4 as [-> _]; done]. destruct K4 as (K4 & K5 & _). rewrite (sb_index _ _ K2). split; [done|]. split; [done|].
    by rewrite (sb_candidates _ _ K2).
  - specialize (Hno eq_refl). assert (Hst1 : ok st1) by (apply after_connect_ok; [done..|]; by rewrite Hno).
    assert (Hbase : holds (base (r_view c)) cs best).
    { apply (dropped_holds (CoinsTip st)); [done|]. eapply ConnectBlock_isolated; [|exact Hrun]. apply Hh. }
    set (st2 := set_CoinsTip st1 (base (r_view c))) in *.
    assert (Hst2 : ok st2). { apply (node_ok_moved _ _ st1); [done|apply Hst1| |done]. exists cs, best. split; [done|]. apply (coins_at_grows _ _ (index_of st)); [apply Hk1|done]. }
    assert (Hk2 : keeps_index st st2) by by destruct Hk1.
    assert (Hs2 : sync_kept st st2).
    { intros Hf. destruct (Hs1 Hf) as [Hf' _]. split; [done|]. unfold synced, coins_block. cbn. by rewrite (holds_best _ _ _ Hbase), (holds_best _ _ _ Hh), Ec. }
    apply bind_Some in H1 as (st3 & E3 & [= <- <- <-]). destruct (IsInvalid (r_state c)); [|by injection E3 as <-].
    pose proof (InvalidBlockFound_quiet _ _ _ _ _ E3) as (Hc3 & Hn3 & _). apply InvalidBlockFound_books in E3; [|by eapply node_ok_tip_known].
    split; [by apply (node_ok_books _ _ st2)|]. split; [etrans; [exact Hk2|]; split; [apply E3|by apply E3|done]|]. split; [etrans; [exact Hs2|by apply books_sync]|].
    by rewrite (bk_chain _ _ E3).
Qed.

Lemma ConnectTip_keeps (st st' : node) (state state' : BlockValidationState) (p : uint256) (block : option CBlock) (r : bool) :
  ok st -> (forall b, block = Some b -> block_good params body p b) ->
  ConnectTip index_order env VerifyScript CheckSignetBlockSolution params opts st state p block = Some (r, state', st') ->
  ok st' /\ keeps_index st st' /\ sync_kept st st' /\
  if r then chain_of (index_of st') p (m_chain st') /\ coins_block st' = p /\ setBlockIndexCandidates st' = setBlockIndexCandidates st else m_chain st' = m_chain st.
Proof.
  intros H Hblock. unfold ConnectTip. intros (index & Hp & H1)%bind_Some. destruct (negb _); [done|]. destruct block as [b|].
  - apply bind_Some in H1 as (c & Hrun & H1). exact (connect_keeps st st' state state' p index b c r H Hp (Hblock b eq_refl) Hrun H1).
  - pose proof (tick_ok st H) as H0. destruct (ReadBlock _ _ _ st p) as [b|] eqn:Er.
    + apply bind_Some in H1 as (c & Hrun & H1). destruct (ReadBlock_good st p b H Er) as [Hb _].
      destruct (connect_keeps (next_tick st) st' state state' p index b c r H0 Hp Hb Hrun H1) as (K1 & [K2 K3 K4] & K5 & K6). split; [done|]. by split.
    + injection H1 as <- <- <-. split; [by apply (node_ok_moved _ _ st); [|apply H..|]|]. split; [done|]. split; [by apply sync_kept_fatal|done].
Qed.

(** ** The loops of the activation *)

Lemma disconnect_to_keeps (fuel : nat) (st st' : node) (state state' : BlockValidationState) (fork : option uint256) (r : bool) :
  ok st -> disconnect_to env CheckSignetBlockSolution params fuel st state fork = Some (r, state', st') -> ok st' /\ same_but_tip st st' /\ sync_kept st st'.
Proof.
  revert st state. induction fuel as [|fuel IH]; intros st state H; cbn [disconnect_to]; (destruct (chain_Tip (m_chain st)) as [tip|] eqn:Et; [|by intros [= <- <- <-]]);
    (case_bool_decide; [by intros [= <- <- <-]|]); intros ([[ok1 state1] st1] & E1 & H1)%bind_Some;
    pose proof (DisconnectTip_keeps _ _ _ _ _ H E1) as (K1 & K2 & K3 & _);
    (destruct ok1; cbn [negb] in H1; [|injection H1 as <- _ <-; split; [by apply (node_ok_moved _ _ st1); [|apply K1..|]|split; [by destruct K2|by apply sync_kept_fatal]]]); [done|].
  apply IH in H1 as (L1 & L2 & L3); [|done]. split; [done|]. split; by etrans.
Qed.

(** Blocks that came from outside have the transactions their hash commits to. *)
Definition offered (pblock : option CBlock) : Prop := forall b, pblock = Some b -> block_good params body (CBlockHeader_GetHash (header b)) b.

Lemma PruneBlockIndexCandidates_keeps (st st' : node) : PruneBlockIndexCandidates address st = Some st' -> keeps_index st st'.
Proof.
  intros H. unfold PruneBlockIndexCandidates in H. case_bool_decide; [done|]. apply bind_Some in H as (tip & _ & H1). apply bind_Some in H1 as (l & El & H1).
  case_bool_decide; [done|]. injection H1 as <-. split; [done..|]. cbn. assert (Hl : l ⊆ elements (setBlockIndexCandidates st)); [|set_solver]. clear -El.
  revert l El. induction (elements _) as [|p l0 IH]; intros l El; cbn [not_less] in El; [by injection El as <-|]. apply bind_Some in El as (less & _ & El).
  apply bind_Some in El as (rest & Er & [= <-]). specialize (IH _ Er). destruct less; set_solver.
Qed.

Lemma connect_round_keeps (l : list uint256) (st st' : node) (state state' : BlockValidationState) (most : uint256) (pblock : option CBlock) (old : option uint256)
    (front : uint256) (r : round) :
  ok st -> (forall b, pblock = Some b -> block_good params body most b) ->
  connect_round address index_order env VerifyScript CheckSignetBlockSolution params opts st state most pblock old front l = Some (r, state', st') ->
  ok st' /\ keeps_index st st' /\ sync_kept st st'.
Proof.
  intros H Hb. revert st state H. induction l as [|p l IH]; intros st state H; cbn [connect_round]; [by intros [= <- <- <-]|].
  intros ([[ok1 state1] st1] & E1 & H1)%bind_Some.
  assert (Hpb : forall b, (if p =? most then pblock else None) = Some b -> block_good params body p b) by (intros b; destruct (Z.eqb_spec p most) as [->|]; [apply Hb|done]).
  pose proof (ConnectTip_keeps _ _ _ _ _ _ _ H Hpb E1) as (K1 & K2 & K3 & _). destruct ok1; cbn [negb] in H1.
  - apply bind_Some in H1 as (st2 & E2 & H1). pose proof (PruneBlockIndexCandidates_books _ _ _ E2) as B2. pose proof (PruneBlockIndexCandidates_keeps _ _ E2) as B3.
    assert (Hst2 : ok st2) by by apply (node_ok_books _ _ st1). assert (Hki : keeps_index st st2) by by etrans.
    assert (Hsy : sync_kept st st2) by (etrans; [done|by apply books_sync]).
    apply bind_Some in H1 as ([|] & _ & H1); [by injection H1 as <- <- <-|]. apply IH in H1 as (L1 & L2 & L3); [|done]. split; [done|]. split; by etrans.
  - destruct (IsInvalid state1); [|by injection H1 as <- <- <-]. apply bind_Some in H1 as (st2 & E2 & [= <- <- <-]). case_bool_decide; [by injection E2 as <-|].
    pose proof (InvalidChainFound_quiet _ _ _ _ E2) as B3. apply InvalidChainFound_books in E2; [|by eapply node_ok_tip_known].
    split; [by apply (node_ok_books _ _ st1)|]. split; [etrans; [done|by apply books_keeps]|etrans; [done|by apply books_sync]].
Qed.

Lemma connect_rounds_keeps (fuel : nat) (st st' : node) (state state' : BlockValidationState) (most : uint256) (pblock : option CBlock) (old : option uint256)
    (height : Z) (r : round) :
  ok st -> (forall b, pblock = Some b -> block_good params body most b) ->
  connect_rounds address index_order env VerifyScript CheckSignetBlockSolution params opts fuel st state most pblock old height = Some (r, state', st') ->
  ok st' /\ keeps_index st st' /\ sync_kept st st'.
Proof.
  intros H Hb. revert st state height H. induction fuel as [|fuel IH]; intros st state height H; cbn [connect_rounds]; intros (b & _ & H1)%bind_Some;
    (destruct (height =? _); [by injection H1 as <- <- <-|]); apply bind_Some in H1 as (it & _ & H1); apply bind_Some in H1 as (l & _ & H1);
    apply bind_Some in H1 as ([[r1 state1] st1] & E1 & H1);
    (assert (KK : ok st1 /\ keeps_index st st1 /\ sync_kept st st1) by (destruct (last l); [by eapply connect_round_keeps|by injection E1 as <- <- <-])); destruct KK as (K1 & K2 & K3).
  all: destruct r1; try (injection H1 as <- <- <-; done). 1: discriminate.
  apply IH in H1 as (L1 & L2 & L3); [|done]. split; [done|]. split; by etrans.
Qed.

Lemma ActivateBestChainStep_keeps (st st' : node) (state state' : BlockValidationState) (most : uint256) (pblock : option CBlock) (r invalid : bool) :
  ok st -> (forall b, pblock = Some b -> block_good params body most b) ->
  ActivateBestChainStep address index_order env VerifyScript CheckSignetBlockSolution params opts st state most pblock = Some (r, invalid, state', st') ->
  ok st' /\ keeps_index st st' /\ sync_kept st st'.
Proof.
  intros H Hb. unfold ActivateBestChainStep. intros (fork & _ & H1)%bind_Some. apply bind_Some in H1 as ([[ok1 state1] st1] & E1 & H1).
  apply disconnect_to_keeps in E1 as (K1 & K2%same_but_tip_keeps & K3); [|done]. destruct ok1; cbn [negb] in H1; [|by injection H1 as _ _ _ <-].
  apply bind_Some in H1 as (h & _ & H1). apply bind_Some in H1 as ([[r2 state2] st2] & E2 & H1). apply connect_rounds_keeps in E2 as (L1 & L2 & L3); [|done..].
  assert (Hki : keeps_index st st2) by (by etrans). assert (Hsy : sync_kept st st2) by (by etrans).
  destruct r2; [injection H1 as _ _ _ <-; done|..]; apply bind_Some in H1 as (st3 & E3 & [= _ _ _ <-]);
    (pose proof (CheckForkWarningConditions_books _ _ E3) as B3; pose proof (CheckForkWarningConditions_quiet _ _ E3) as Q);
    (split; [by apply (node_ok_books _ _ st2)|split; [etrans; [done|by apply books_keeps]|etrans; [done|by apply books_sync]]]).
Qed.

Lemma remove_chain_keeps (fuel : nat) (st st' : node) (p q : uint256) (failed : bool) : remove_chain fuel st p failed q = Some st' -> keeps_index st st'.
Proof.
  revert st q. induction fuel as [|fuel IH]; intros st q; cbn [remove_chain]; (destruct (p =? q); [by intros [= <-]|]); intros (b & Hb & H)%bind_Some;
    apply bind_Some in H as (prev & _ & H); [done|].
  apply IH in H. etrans; [|exact H]. destruct failed; (split; cbn; [|..|set_solver]); try done; [by apply (same_index_update _ _ b)|by apply (order_kept_update _ _ b)].
Qed.

Lemma FindMostWorkChain_keeps (fuel : nat) (st st' : node) (p : option uint256) : FindMostWorkChain address fuel st = Some (p, st') -> keeps_index st st'.
Proof.
  revert st. induction fuel as [|fuel IH]; intros st; cbn [FindMostWorkChain]; intros (best & _ & H)%bind_Some; (destruct best as [best|]; [|by injection H as _ <-]);
    apply bind_Some in H as (u & _ & H); (destruct u as [[t failed]|]; [|by injection H as _ <-]);
    apply bind_Some in H as (st1 & E1 & H); apply bind_Some in H as (st2 & E2 & H); [done|].
  apply IH in H. apply remove_chain_keeps in E2. etrans; [|exact H]. assert (H1 : keeps_index st st1).
  { destruct failed; [|by injection E1 as <-]. apply books_keeps; [by eapply note_invalid_books|by eapply note_invalid_quiet]. }
  assert (H2 : keeps_index st st2) by by etrans. destruct H2 as [? ? ?]. split; [done..|]. cbn. set_solver.
Qed.

Lemma FlushStateToDisk_ok (st st' : node) (state state' : BlockValidationState) (r : bool) :
  ok st -> FlushStateToDisk env st state = Some (r, state', st') -> ok st' /\ keeps_index st st' /\ sync_kept st st' /\ m_chain st' = m_chain st.
Proof.
  intros H E. destruct (ok_coins _ _ _ H) as (c & best & Hh & Ha). destruct (FlushStateToDisk_keeps env st state c best Hh) as (r1 & state1 & st1 & E1 & Ht & Hsb & Hch & Hr).
  rewrite E1 in E. injection E as <- <- <-. split; [apply (node_ok_moved _ _ st); try done; [rewrite Hch; apply H|by exists c, best]|].
  split; [by apply same_but_tip_keeps|]. split; [|done]. destruct r1; destruct Hr as [_ Hf]; [|by apply sync_kept_fatal].
  intros Hf1. split; [congruence|]. unfold synced, coins_block. by rewrite (holds_best _ _ _ Ht), (holds_best _ _ _ Hh), Hch.
Qed.

Lemma activate_inner_keeps (fuel : nat) (st st' : node) (state state' : BlockValidationState) (pblock : option CBlock) (start most : option uint256) (connected : bool)
    (r : activation) :
  ok st -> offered pblock ->
  activate_inner address index_order env VerifyScript CheckSignetBlockSolution params opts fuel st state pblock start most connected = Some (r, state', st') ->
  ok st' /\ keeps_index st st' /\ sync_kept st st'.
Proof.
  intros H Hoff. revert st state most connected H. induction fuel as [|fuel IH]; intros st state most connected H; cbn [activate_inner];
    intros ([most1 st1] & E1 & H1)%bind_Some;
    (assert (KK : ok st1 /\ keeps_index st st1 /\ sync_kept st st1) by
      (destruct most as [p|]; [by injection E1 as _ <-|]; pose proof (FindMostWorkChain_books _ _ _ _ _ E1) as B1; pose proof (FindMostWorkChain_keeps _ _ _ _ E1);
       split; [by apply (node_ok_books _ _ st)|split; [done|by apply books_sync]])); destruct KK as (K1 & K2 & K3);
    (destruct most1 as [p|]; [|by injection H1 as <- <- <-]); (case_bool_decide; [by injection H1 as <- <- <-|]); apply bind_Some in H1 as ([[[r1 inv] state2] st2] & E2 & H1);
    (assert (Hpb : forall b, (b ← pblock; if CBlockHeader_GetHash (header b) =? p then Some b else None) = Some b -> block_good params body p b) by
      (intros b (b' & Hb' & Eb)%bind_Some; destruct (Z.eqb_spec (CBlockHeader_GetHash (header b')) p) as [<-|]; [|discriminate]; injection Eb as <-; by apply Hoff));
    pose proof (ActivateBestChainStep_keeps _ _ _ _ _ _ _ _ K1 Hpb E2) as (L1 & L2 & L3);
    assert (Hki : keeps_index st st2) by (by etrans); assert (Hsy : sync_kept st st2) by (by etrans); (destruct r1; cbn [negb] in H1; [|by injection H1 as <- <- <-]);
    apply bind_Some in H1 as (again & _ & H1); (destruct again; [|by injection H1 as <- <- <-]); [discriminate|].
  apply IH in H1 as (M1 & M2 & M3); [|done]. split; [done|]. split; by etrans.
Qed.

Lemma activate_outer_keeps (fuel inner : nat) (st st' : node) (state state' : BlockValidationState) (pblock : option CBlock) (most : option uint256) (r : bool) :
  ok st -> offered pblock ->
  activate_outer address index_order env VerifyScript CheckSignetBlockSolution params opts fuel inner st state pblock most = Some (r, state', st') ->
  ok st' /\ keeps_index st st' /\ sync_kept st st'.
Proof.
  intros H Hoff. revert st state most H. induction fuel as [|fuel IH]; intros st state most H; cbn [activate_outer]; intros ([[r1 state1] st1] & E1 & H1)%bind_Some;
    pose proof (activate_inner_keeps _ _ _ _ _ _ _ _ _ _ H Hoff E1) as (K1 & K2 & K3); (destruct r1 as [|most1 conn]; [by injection H1 as <- <- <-|]);
    (destruct conn; [|by injection H1 as <- <- <-]); apply bind_Some in H1 as (fork & _ & H1); pose proof (tick_ok st1 K1) as Hst2;
    (assert (Hki1 : keeps_index st (next_tick st1)) by (by destruct K2)); assert (Hsy1 : sync_kept st (next_tick st1)) by (etrans; [exact K3|apply books_sync, books_tick]);
    (destruct (_ && _); [by injection H1 as <- <- <-|]);
    apply bind_Some in H1 as ([[r3 state3] st3] & E3 & H1); pose proof (FlushStateToDisk_ok _ _ _ _ _ Hst2 E3) as (L1 & L2 & L3 & _);
    (assert (Hki : keeps_index st st3) by (by etrans; [exact Hki1|])); assert (Hsy3 : sync_kept st st3) by (by etrans; [exact Hsy1|]);
    (destruct r3; cbn [negb] in H1; [|by injection H1 as <- <- <-]);
    (assert (Hki3 : keeps_index st (next_tick st3)) by (by destruct Hki)); assert (Hsy4 : sync_kept st (next_tick st3)) by (etrans; [exact Hsy3|apply books_sync, books_tick]);
    pose proof (tick_ok st3 L1) as Hst4;
    (destruct (interrupted _ _); [by injection H1 as <- <- <-|]); (case_bool_decide; [by injection H1 as <- <- <-|]); [discriminate|].
  apply IH in H1 as (M1 & M2 & M3); [|done]. split; [done|]. split; [by etrans; [exact Hki3|]|by etrans; [exact Hsy4|]].
Qed.

Lemma ActivateBestChain_keeps (st st' : node) (state state' : BlockValidationState) (pblock : option CBlock) (r : bool) :
  ok st -> offered pblock ->
  ActivateBestChain address index_order env VerifyScript CheckSignetBlockSolution params opts st state pblock = Some (r, state', st') ->
  ok st' /\ keeps_index st st' /\ sync_kept st st'.
Proof. apply activate_outer_keeps. Qed.

(** ** New blocks *)

Context (GetPoWHash : CBlockHeader -> uint256 -> uint256) (fuzz : bool).

(** A header from outside: its hash is none of the exceptional ones. *)
Definition header_delivered (h : CBlockHeader) : Prop := good_hash (CBlockHeader_GetHash h) /\ is_u32 (nBits h).

(** A block from outside, not checked yet: when its transactions make an unmutated tree with the root of its header, they are those its hash commits to. *)
Record delivered (b : CBlock) : Prop := mkDelivered {
  dv_header : header_delivered (header b);
  dv_fresh : b = new_block (header b) (vtx b);
  dv_commits : BlockMerkleRoot b = Some (hashMerkleRoot (header b), false) -> vtx b ≡ body (CBlockHeader_GetHash (header b))
}.

(** A block that passed [CheckBlock]: the same header and transactions, in the shape of a block. *)
Record checked (b b' : CBlock) : Prop := mkChecked {
  cb_header : header b' = header b;
  cb_vtx : vtx b' = vtx b;
  cb_shape : block_shape (vtx b);
  cb_body : vtx b ≡ body (CBlockHeader_GetHash (header b))
}.

Lemma CheckMerkleRoot_root (b b' : CBlock) (state state' : BlockValidationState) :
  m_checked_merkle_root b = false -> CheckMerkleRoot b state = Some (true, state', b') -> BlockMerkleRoot b = Some (hashMerkleRoot (header b), false).
Proof.
  intros E. unfold CheckMerkleRoot. rewrite E. intros ([root mutated] & -> & H)%bind_Some.
  destruct (Z.eqb_spec (hashMerkleRoot (header b)) root) as [->|]; cbn [negb] in H; [|discriminate]. destruct mutated; [discriminate|done].
Qed.

Lemma CheckBlock_header (b b' : CBlock) (state state' : BlockValidationState) (pow root r : bool) :
  CheckBlock CheckSignetBlockSolution params b state pow root = Some (r, state', b') -> header b' = header b /\ vtx b' = vtx b.
Proof.
  unfold CheckBlock. destruct (fChecked b); [by intros [= _ _ <-]|]. destruct (_ && _ && _); [by intros [= _ _ <-]|]. intros ([[ok1 st1] b1] & E1 & H)%bind_Some.
  assert (Hk : header b1 = header b /\ vtx b1 = vtx b).
  { destruct root; [|by injection E1 as _ _ <-]. unfold CheckMerkleRoot in E1. destruct (m_checked_merkle_root b); [by injection E1 as _ _ <-|].
    apply bind_Some in E1 as ([rt mut] & _ & E1). destruct (negb _); [by injection E1 as _ _ <-|]. destruct mut; by injection E1 as _ _ <-. }
  destruct (negb ok1); [by injection H as _ _ <-|]. destruct (_ || _); [by injection H as _ _ <-|]. destruct (negb _); [by injection H as _ _ <-|].
  destruct (existsb _ _); [by injection H as _ _ <-|]. apply bind_Some in H as ([ok2 st2] & _ & H). destruct (negb ok2); [by injection H as _ _ <-|].
  apply bind_Some in H as (n & _ & H). destruct (_ >? _); [by injection H as _ _ <-|]. injection H as _ _ <-. by destruct (pow && root).
Qed.

Lemma CheckBlock_checked (b b' : CBlock) (state state' : BlockValidationState) :
  delivered b -> CheckBlock CheckSignetBlockSolution params b state true true = Some (true, state', b') -> checked b b'.
Proof.
  intros [_ Hf Hc] E. pose proof (CheckBlock_header _ _ _ _ _ _ _ E) as [? ?]. assert (Hf1 : fChecked b = false) by by rewrite Hf.
  pose proof (CheckBlock_shape _ _ _ _ _ _ _ _ ltac:(by rewrite Hf1) E) as (_ & _ & Hs). split; [done..|]. apply Hc. unfold CheckBlock in E. rewrite Hf1 in E.
  destruct (_ && _ && _); [discriminate|]. apply bind_Some in E as ([[ok1 st1] b1] & E1 & E). destruct ok1; [|discriminate].
  apply (CheckMerkleRoot_root b b1 state st1); [by rewrite Hf|done].
Qed.

Lemma ContextualCheckBlock_header (m : BlockMap) (b b' : CBlock) (state state' : BlockValidationState) (prev : option uint256) (r : bool) :
  ContextualCheckBlock params m b state prev = Some (r, state', b') -> header b' = header b /\ vtx b' = vtx b.
Proof.
  unfold ContextualCheckBlock. intros (pi & _ & H)%bind_Some. apply bind_Some in H as (cut & _ & H). destruct (negb _); [by injection H as _ _ <-|].
  apply bind_Some in H as (hok & _ & H). destruct (negb hok); [by injection H as _ _ <-|]. apply bind_Some in H as ([[ok1 st1] b1] & E1 & H).
  assert (Hk : header b1 = header b /\ vtx b1 = vtx b).
  { unfold CheckWitnessMalleation, check_no_witness in E1. clear H. destruct (DeploymentActiveAfter _ _ _); [|destruct (existsb _ _); by injection E1 as _ _ <-].
    destruct (m_checked_witness_commitment b); [by injection E1 as _ _ <-|]. destruct (negb _); [|destruct (existsb _ _); by injection E1 as _ _ <-].
    apply bind_Some in E1 as (cb & _ & E1). apply bind_Some in E1 as (i & _ & E1). destruct (scriptWitness i) as [|x [|y l]]; [by injection E1 as _ _ <-| |by injection E1 as _ _ <-].
    destruct (negb _); [by injection E1 as _ _ <-|]. apply bind_Some in E1 as (rt & _ & E1). apply bind_Some in E1 as (o & _ & E1).
    destruct (negb _); by injection E1 as _ _ <-. }
  destruct (negb ok1); [by injection H as _ _ <-|]. destruct (_ >? _); by injection H as _ _ <-.
Qed.

Lemma header_keeps_index (bm : BlockManager) (now : Z) (h : CBlockHeader) (state : BlockValidationState) (mp : bool) (a : accept_result) :
  index_good params bm -> header_delivered h -> AcceptBlockHeader CBlockHeader_GetHash GetPoWHash fuzz params bm now h state mp = Some a ->
  index_good params (ar_manager a) /\ grows (m_block_index bm) (m_block_index (ar_manager a)).
Proof.
  intros Hi [Hgood Hbits] E. destruct (AcceptBlockHeader_manager _ _ _ _ _ _ _ _ _ _ (ig_genesis _ _ Hi) E) as [_ [->|(Hf & (prev & Hp) & Ha)]]; [split; [done|apply grows_refl]|].
  clear E. destruct (ig_best _ _ Hi) as (best & Hb & Hbb).
  destruct (AddToBlockIndex_new CBlockHeader_GetHash bm h prev best (ig_tree _ _ Hi) (ig_works _ _ Hi) Hb Hbb Hbits Hf Hp)
    as (bm' & b & Ha' & Hm & Hpp & _ & _ & _ & _ & _ & _ & _ & Hhd & Hok & Hwk & best' & bb & Hb' & Hbb' & _).
  assert (Em : ar_manager a = bm') by exact (f_equal (fun o => match o with Some x => fst x | None => bm end) (eq_trans (eq_sym Ha) Ha')). rewrite Em. clear Ha Ha' Em.
  split; [|rewrite Hm; by apply grows_fresh]. apply (index_good_insert params bm bm' _ (hashPrevBlock h) b Hi Hf Hm); try done.
  - exists best'. split; [exact Hb'|]. by exists bb.
  - exact (f_equal CBlockHeader_GetHash Hhd).
Qed.

(** A block that may be stored. *)
Record storable (b : CBlock) : Prop := mkStorable {
  sr_header : header_delivered (header b);
  sr_body : vtx b ≡ body (CBlockHeader_GetHash (header b));
  sr_shape : block_shape (vtx b)
}.

Lemma storable_same (b b' : CBlock) : header b' = header b -> vtx b' = vtx b -> storable b -> storable b'.
Proof. intros Eh Ev [H1 H2 H3]. split; rewrite ?Eh, ?Ev; [exact H1|exact H2|exact H3]. Qed.

Lemma store_block_keeps (st st' : node) (state state' : BlockValidationState) (block : CBlock) (p : uint256) (r : bool) :
  ok st -> block_good params body p (new_block (header block) (vtx block)) -> store_block address env params st state block p = Some (r, state', st') ->
  ok st' /\ grows (index_of st) (index_of st') /\ sync_kept st st'.
Proof.
  intros H Hb. unfold store_block. pose proof (tick_ok st H) as H1. destruct (write_block env (tick st)) as [| |message].
  2: { intros [= <- <- <-]. split; [done|]. split; [apply grows_refl|apply books_sync, books_tick]. }
  2: { intros [= <- <- <-]. split; [by apply (node_ok_moved _ _ st); [|apply H..|]|]. split; [apply grows_refl|by apply sync_kept_fatal]. }
  intros (st1 & E & [= <- <- <-])%bind_Some. apply ReceivedBlockTransactions_books in E.
  match type of E with books ?s _ => assert (Hs : ok s) end.
  { destruct H1 as [K1 K2 K3 K4 K5]. split; try done. cbn [block_files set_block_files next_tick]. intros q c. destruct (decide (q = p)) as [->|Hne].
    - rewrite lookup_insert_eq. intros [= <-]. exact Hb.
    - rewrite lookup_insert_ne by done. apply K4. }
  split; [by eapply node_ok_books|]. split; [apply E|]. by apply books_sync in E.
Qed.

Lemma AcceptBlock_keeps (st st' : node) (state state' : BlockValidationState) (block block' : CBlock) (requested mp r : bool) :
  ok st -> storable block ->
  AcceptBlock address index_order env CheckSignetBlockSolution params opts GetPoWHash fuzz st state block requested mp = Some (r, state', block', st') ->
  ok st' /\ grows (index_of st) (index_of st') /\ sync_kept st st' /\ storable block'.
Proof.
  intros H Hb. unfold AcceptBlock. intros (a & Ea & H1)%bind_Some. pose proof (sr_header _ Hb) as Hh.
  pose proof (proj1 (AcceptBlockHeader_manager _ _ _ _ _ _ _ _ _ _ (ig_genesis _ _ (ok_index _ _ _ H)) Ea)) as Hidx.
  destruct (header_keeps_index _ _ _ _ _ _ (ok_index _ _ _ H) Hh Ea) as [Hi Hg]. clear Ea. set (st1 := set_blockman (next_tick st) (ar_manager a)) in *.
  assert (Hst1 : ok st1) by (apply (node_ok_grows _ _ st); try done; apply H). assert (Hsy1 : sync_kept st st1) by by apply sync_kept_same.
  destruct (ar_ok a); cbn [negb] in H1; [|by injection H1 as _ _ <- <-]. rewrite (Hidx eq_refl) in H1. cbn [mbind option_bind] in H1. clear Hidx.
  apply bind_Some in H1 as (b & Hp & H1). apply bind_Some in H1 as (store & _ & H1). destruct (negb store); [by injection H1 as _ _ <- <-|].
  apply bind_Some in H1 as ([[ok2 state2] block2] & E2 & H1). apply CheckBlock_header in E2 as [Eh2 Ev2].
  apply bind_Some in H1 as ([[ok3 state3] block3] & E3 & H1). assert (Hb3 : header block3 = header block /\ vtx block3 = vtx block).
  { destruct ok2; [apply ContextualCheckBlock_header in E3 as [-> ->]; by split|]. by injection E3 as _ _ <-. }
  destruct Hb3 as [Eh3 Ev3]. pose proof (storable_same block block3 Eh3 Ev3 Hb) as Hb3. destruct (negb ok3).
  - apply bind_Some in H1 as (st2 & E4 & [= _ _ <- <-]). assert (B2 : books st1 st2).
    { destruct (IsInvalid state3); [|by injection E4 as <-]. eapply InvalidBlockFound_books; [|done]. by eapply node_ok_tip_known. }
    split; [by apply (node_ok_books _ _ st1)|]. split; [eapply grows_trans; [exact Hg|apply B2]|]. split; [|exact Hb3]. etrans; [exact Hsy1|by apply books_sync].
  - apply bind_Some in H1 as ([[ok4 state4] st2] & E4 & [= _ _ <- <-]). assert (Hgood : block_good params body (CBlockHeader_GetHash (header block)) (new_block (header block3) (vtx block3))).
    { intros _. split; [cbn; rewrite Ev3; apply Hb|discriminate]. }
    destruct (store_block_keeps _ _ _ _ _ _ _ Hst1 Hgood E4) as (K1 & K2 & K3). split; [exact K1|]. split; [eapply grows_trans; [exact Hg|exact K2]|]. split; [by etrans|exact Hb3].
Qed.

Lemma ProcessNewBlock_keeps (st st' : node) (block : CBlock) (force mp r : bool) :
  ok st -> delivered block ->
  ProcessNewBlock address index_order env VerifyScript CheckSignetBlockSolution params opts GetPoWHash fuzz st block force mp = Some (r, st') ->
  ok st' /\ grows (index_of st) (index_of st') /\ sync_kept st st'.
Proof.
  intros H Hd. unfold ProcessNewBlock. intros ([[ok1 state1] b1] & E1 & H1)%bind_Some. destruct ok1; cbn [negb] in H1; [|injection H1 as <- <-; split; [done|]; split; [apply grows_refl|done]].
  destruct (CheckBlock_checked _ _ _ _ Hd E1) as [Eh Ev Hs Hbody1]. apply bind_Some in H1 as ([[[ok2 state2] b2] st2] & E2 & H1).
  assert (Hb1 : storable b1). { split; rewrite ?Eh, ?Ev; [apply (dv_header _ Hd)|exact Hbody1|exact Hs]. }
  destruct (AcceptBlock_keeps _ _ _ _ _ _ _ _ _ H Hb1 E2) as (K1 & K2 & K3 & Hb2).
  destruct ok2; cbn [negb] in H1; [|injection H1 as <- <-; split; [exact K1|split; [exact K2|exact K3]]]. apply bind_Some in H1 as ([[ok3 state3] st3] & E3 & [= <- <-]).
  assert (Hoff : offered (Some b2)) by (intros b [= <-] _; split; [apply Hb2|intros _; apply Hb2]).
  destruct (ActivateBestChain_keeps _ _ _ _ _ _ K1 Hoff E3) as (L1 & [L2 _ _] & L3). split; [exact L1|]. split; [eapply grows_trans; [exact K2|apply L2]|]. by etrans.
Qed.
End Tip.
