(* ===== verification/ActivationProps.v ===== *)
(** * Properties of the activation of the best chain

    In every state that a node can reach from its first start by blocks, headers and activations, whatever the environment answers: the chain and the coins agree,
    no money is created beyond the schedule, and two nodes at the same block have the same coins. *)

From S2P Require Import Prelude ValidationState Serialize ArithUint256 Chain Params Pow HeaderValidation Subsidy Transaction Script.
From S2P Require Import TxCheck Coins TxVerify Merkle Sha256 Sha256Spec Hash Block ConnectBlock ConnectBlockSpec Activation ActivationSpec ActivationNode ActivationTip.
#[local] Open Scope Z_scope.

#[local] Opaque ComputeHash ComputeWitnessHash CBlockHeader_GetHash hash_node SerializeTransaction hashCacheEntry.

(** The first entry of an index. *)
Lemma AddToBlockIndex_first (GetHash : CBlockHeader -> uint256) (h : CBlockHeader) :
  hashPrevBlock h = 0 -> GetHash h <> 0 -> is_u32 (nBits h) ->
  exists bm b, AddToBlockIndex GetHash (mkBlockManager ∅ None ∅) h = Some (bm, GetHash h) /\ m_block_index bm = {[GetHash h := b]} /\ m_best_header bm = Some (GetHash h) /\
    pprev b = None /\ pskip b = None /\ nHeight b = 0 /\ uint_wf (nChainWork b) /\ bi_nBits b = nBits h /\ GetBlockHeader b = h.
Proof.
  intros Hp Hnz Hbits. unfold AddToBlockIndex. cbn [m_block_index m_best_header]. rewrite lookup_empty, Hp, lookup_insert_ne, lookup_empty by done.
  cbn [mbind option_bind pprev CBlockIndex_of_header bi_nBits]. destruct (GetBlockProof_spec (nBits h) Hbits) as (w & -> & Hw & _). cbn [mbind option_bind].
  eexists _, _. split; [reflexivity|]. cbn [m_block_index m_best_header]. rewrite insert_insert_eq. split; [reflexivity|]. split; [done|].
  do 3 (split; [reflexivity|]). split; [change (uint_wf (uint_add (of_u64 0) w)); auto with words|]. split; [reflexivity|]. destruct h. cbn in Hp. subst. reflexivity.
Qed.

Section Reach.
Context {B : Type} {HV : CoinsView B} {HL : LawfulView B} {K : Type} {HK : ScriptCache K}.
#[local] Abbreviation node := (ChainstateManager B K).
Context (address : uint256 -> Z) (index_order : BlockMap -> list uint256) (env : environment).
Context (VerifyScript : CScript -> CScript -> list (list Z) -> Z -> CTransaction -> nat -> Z -> bool -> list CTxOut -> option string).
Context (CheckSignetBlockSolution : CBlock -> bool) (params : Params) (opts : ChainstateOptions) (GetPoWHash : CBlockHeader -> uint256 -> uint256) (fuzz : bool).

(** The transactions that a block hash commits to, and the genesis block. *)
Context (body : uint256 -> list CTransaction) (genesis : CBlock).

(** What the development assumes of the network: halvings, no waiver of BIP 30, a genesis block without predecessor, and transaction identifiers that commit to
    what a transaction spends. *)
Record network_ok : Prop := mkNetwork {
  nw_interval : 0 < nSubsidyHalvingInterval params;
  nw_bip34 : BIP34Hash params = 0;
  nw_body : forall p, txids_commit (body p);
  nw_genesis : CBlockHeader_GetHash (header genesis) = hashGenesisBlock params;
  nw_header : header_delivered (header genesis);
  nw_root : hashPrevBlock (header genesis) = 0
}.

Definition empty_database (db : B) : Prop := view_inv db /\ (forall o, view_coin db o = None) /\ view_best db = 0.

(** The states of a node: it starts with the genesis block, and then receives blocks and headers and activates chains in any order. *)
Inductive reachable : node -> Prop :=
| reach_start (db : B) (vc : ValidationCache K) (st : node) :
    empty_database db -> LoadGenesisBlock address env params (new_node db vc) genesis = Some (true, st) -> reachable st
| reach_block (st st' : node) (block : CBlock) (force_processing min_pow_checked r : bool) :
    reachable st -> delivered body block ->
    ProcessNewBlock address index_order env VerifyScript CheckSignetBlockSolution params opts GetPoWHash fuzz st block force_processing min_pow_checked = Some (r, st') ->
    reachable st'
| reach_header (st : node) (now : Z) (h : CBlockHeader) (state : BlockValidationState) (min_pow_checked : bool) (a : accept_result) :
    reachable st -> header_delivered h ->
    AcceptBlockHeader CBlockHeader_GetHash GetPoWHash fuzz params (m_blockman st) now h state min_pow_checked = Some a -> reachable (set_blockman st (ar_manager a))
| reach_activate (st st' : node) (state state' : BlockValidationState) (r : bool) :
    reachable st -> ActivateBestChain address index_order env VerifyScript CheckSignetBlockSolution params opts st state None = Some (r, state', st') -> reachable st'.

#[local] Abbreviation ok := (node_ok params body).

Lemma LoadGenesisBlock_ok (db : B) (vc : ValidationCache K) (st : node) :
  network_ok -> empty_database db -> LoadGenesisBlock address env params (new_node db vc) genesis = Some (true, st) -> ok st /\ (fatal_error st = false -> synced st).
Proof.
  intros [_ _ _ Hg [Hgood Hbits] Hroot] (Hdb & Hcoin & Hbest). unfold LoadGenesisBlock. change (index_of (new_node db vc)) with (∅ : BlockMap). rewrite lookup_empty.
  rewrite bool_decide_eq_false_2 by by intros []. destruct (write_block env _); [|discriminate..].
  destruct (AddToBlockIndex_first CBlockHeader_GetHash (header genesis) Hroot (proj1 Hgood) Hbits) as (bm & b & Ea & Hm & Hbh & Hp & Hsk & Hh & Hw & Hnb & Hhd).
  change (m_blockman (next_tick (new_node db vc))) with (mkBlockManager ∅ None ∅). rewrite Ea. cbn [mbind option_bind]. clear Ea.
  intros (st1 & E & [= <-])%bind_Some. apply ReceivedBlockTransactions_books in E.
  assert (Hhash : CBlockHeader_GetHash (GetBlockHeader b) = hashGenesisBlock params) by exact (eq_trans (f_equal CBlockHeader_GetHash Hhd) Hg). clear Hhd.
  rewrite Hg in *. clear Hg. match type of E with books ?s _ => assert (Hs : ok s) end.
  { split; cbn [m_blockman set_blockman set_block_files next_tick new_node m_chain CoinsTip block_files undo_files].
    - split.
      + clear Hhash. rewrite Hm. intros p c Hc. apply lookup_singleton_Some in Hc as [<- <-]. unfold index_ok. rewrite Hp, Hh, Hsk. done.
      + clear Hhash. rewrite Hm. intros p c Hc. apply lookup_singleton_Some in Hc as [<- <-]. by rewrite Hnb.
      + clear Hhash. exists (hashGenesisBlock params). split; [done|]. rewrite Hm, lookup_singleton_eq. by exists b.
      + intros p c. rewrite Hm. intros Hc. apply lookup_singleton_Some in Hc as [<- <-]. split; [exact Hgood|exact Hhash].
      + clear Hhash. intros p c. rewrite Hm. intros Hc. by apply lookup_singleton_Some in Hc as [<- <-].
      + clear Hhash. rewrite Hm, lookup_singleton_eq. by exists b.
    - by left.
    - clear Hhash. exists ∅, 0. split; [|by left]. split; [by apply new_cache_inv|]. split; [done|]. by split.
    - clear Hhash. intros p c. rewrite lookup_insert_Some, lookup_empty. by intros [[<- _]|[_ ?]] Hne.
    - clear Hhash. by intros p u. }
  clear Hhash. split; [by eapply node_ok_books|]. apply books_sync in E. intros Hf. apply E in Hf as [_ Hsy]. apply Hsy. unfold synced, coins_block. cbn.
  unfold cache_best. cbn. done.
Qed.

Lemma reachable_ok (st : node) : network_ok -> reachable st -> ok st /\ (fatal_error st = false -> synced st).
Proof.
  intros Hn. induction 1 as [db vc st Hdb E|st st' block f mp r _ [IH1 IH2] Hd E|st now h state mp a _ [IH1 IH2] Hh E|st st' state state' r _ [IH1 IH2] E].
  - by eapply LoadGenesisBlock_ok.
  - destruct (ProcessNewBlock_keeps _ _ _ _ _ _ _ _ (nw_body Hn) (nw_interval Hn) (nw_bip34 Hn) _ _ _ _ _ _ _ _ IH1 Hd E) as (K1 & _ & K3). split; [done|]. intros Hf. apply K3 in Hf as [? Hs]. auto.
  - destruct (header_keeps_index _ _ _ _ _ _ _ _ _ (ok_index _ _ _ IH1) Hh E) as [Hi Hg]. clear E Hh. split; [|exact IH2].
    apply (node_ok_grows _ _ st); [exact Hi|exact Hg|reflexivity..|apply IH1|reflexivity|exact IH1].
  - assert (Hoff : offered params body None) by (intros b Hb; discriminate Hb).
    destruct (ActivateBestChain_keeps _ _ _ _ _ _ _ _ (nw_body Hn) (nw_interval Hn) (nw_bip34 Hn) _ _ _ _ None _ IH1 Hoff E) as (K1 & _ & K3). split; [done|].
    intros Hf. apply K3 in Hf as [? Hs]. auto.
Qed.

(** C1: in every reachable state, whatever the environment answered and however blocks and headers were interleaved: the active chain is the ancestry of its tip in the
    index, and the coins are exactly what the transactions of the blocks up to some block of the index leave, each applied to the coins of its predecessor. As long as
    no fatal error was reported, that block is the tip. *)
Theorem chain_and_coins_agree (st : node) :
  network_ok -> reachable st ->
  (m_chain st = [] \/ exists tip, chain_of (index_of st) tip (m_chain st)) /\
  exists c best, represents (CoinsTip st) (mkCoinSet c best false) /\ (best = 0 /\ c = ∅ \/ coins_after params body (index_of st) best c) /\
    (fatal_error st = false -> best = default 0 (chain_Tip (m_chain st))).
Proof.
  intros Hn Hr. destruct (reachable_ok st Hn Hr) as [Hok Hs]. split; [apply Hok|]. destruct (ok_coins _ _ _ Hok) as (c & best & Hh & Ha). exists c, best.
  split; [exact Hh|]. split; [exact Ha|]. intros Hf. specialize (Hs Hf). unfold synced, coins_block in Hs. by rewrite (holds_best _ _ _ Hh) in Hs.
Qed.

(** C3: no node ever holds more money than the schedule allows: in every reachable state the coins are worth at most the subsidies of the blocks of the chain that they come from, of
    which nobody gets that of the genesis block, and no coin is negative; with the halving interval of the main network the sum is within [MAX_MONEY]. *)
Theorem money_supply_capped (st : node) :
  network_ok -> reachable st ->
  exists c best, represents (CoinsTip st) (mkCoinSet c best false) /\ coins_ok c /\
    (nSubsidyHalvingInterval params = nSubsidyHalvingInterval CMainParams -> total_value c <= MAX_MONEY) /\
    (c = ∅ \/ exists b t, index_of st !! best = Some b /\ total_subsidy params (S (Z.to_nat (nHeight b))) = Some t /\ total_value c <= t - 50 * COIN).
Proof.
  intros Hn Hr. destruct (reachable_ok st Hn Hr) as [Hok _]. pose proof (ig_tree _ _ (ok_index _ _ _ Hok)) as Ht. destruct (ok_coins _ _ _ Hok) as (c & best & Hh & Ha). exists c, best.
  split; [exact Hh|]. destruct Ha as [[_ ->]|Ha]; [split; [by intros o cn|]; split; [by vm_compute|by left]|].
  pose proof (nw_interval Hn) as Hi. destruct (coins_after_supply params body (index_of st) best c Hi Ht Ha) as (b & t & Hb & E & Hle).
  split; [by apply (coins_after_ok params body (index_of st) best)|]. split; [|by right; exists b, t]. intros Ei.
  destruct (total_subsidy_bounds params (S (Z.to_nat (nHeight b))) Hi) as (t' & E' & Hb'). rewrite E in E'. injection E' as <-. rewrite Ei in Hb'.
  change (nSubsidyHalvingInterval CMainParams) with 210000 in Hb'. unfold MAX_MONEY, COIN in *. lia.
Qed.
End Reach.

(** ** Two nodes *)

(** No two headers of the indexes have the same hash. *)
Definition no_collisions (m m' : BlockMap) : Prop :=
  forall p p' b b', m !! p = Some b -> m' !! p' = Some b' -> CBlockHeader_GetHash (GetBlockHeader b) = CBlockHeader_GetHash (GetBlockHeader b') ->
    GetBlockHeader b = GetBlockHeader b'.

Lemma indexes_agree (params : Params) (bm bm' : BlockManager) :
  index_good params bm -> index_good params bm' -> no_collisions (m_block_index bm) (m_block_index bm') ->
  forall p b b', m_block_index bm !! p = Some b -> m_block_index bm' !! p = Some b' -> pprev b = pprev b' /\ nHeight b = nHeight b'.
Proof.
  intros Hi Hi' Hnc. assert (Hprev : forall p b b', m_block_index bm !! p = Some b -> m_block_index bm' !! p = Some b' -> pprev b = pprev b').
  { intros p b b' Hb Hb'. pose proof (f_equal hashPrevBlock (Hnc p p b b' Hb Hb' (eq_trans (proj2 (ig_keys _ _ Hi p b Hb)) (eq_sym (proj2 (ig_keys _ _ Hi' p b' Hb')))))) as E.
    clear Hnc. cbn [GetBlockHeader hashPrevBlock] in E.
    assert (Hq : forall bm q c, index_good params bm -> m_block_index bm !! p = Some c -> pprev c = Some q -> q <> 0).
    { intros bm0 q c H0 Hc Eq. destruct (tree_ok_lookup _ p c (ig_tree _ _ H0) Hc) as [_ Hpp]. rewrite Eq in Hpp. destruct Hpp as (bq & Hbq & _). apply (ig_keys _ _ H0 q bq Hbq). }
    destruct (pprev b) as [q|] eqn:Eq, (pprev b') as [q'|] eqn:Eq'; cbn in E; try congruence.
    - by destruct (Hq bm q b Hi Hb Eq).
    - symmetry in E. by destruct (Hq bm' q' b' Hi' Hb' Eq'). }
  clear Hnc. intros p b b' Hb Hb'. split; [by apply (Hprev p)|]. destruct (tree_ok_lookup _ p b (ig_tree _ _ Hi) Hb) as [Hh _].
  remember (Z.to_nat (nHeight b)) as n eqn:En. revert p b b' Hb Hb' Hh En. induction n as [|n IH]; intros p b b' Hb Hb' Hh En;
    destruct (tree_ok_lookup _ p b (ig_tree _ _ Hi) Hb) as [_ Hpp], (tree_ok_lookup _ p b' (ig_tree _ _ Hi') Hb') as [Hh' Hpp'];
    rewrite <- (Hprev p b b' Hb Hb') in Hpp'; destruct (pprev b) as [q|].
  - destruct Hpp as (c & Hc & E & _), (tree_ok_lookup _ q c (ig_tree _ _ Hi) Hc) as [? _]. lia.
  - destruct Hpp, Hpp'. lia.
  - destruct Hpp as (c & Hc & E & _), Hpp' as (c' & Hc' & E' & _), (tree_ok_lookup _ q c (ig_tree _ _ Hi) Hc) as [? _]. rewrite E, E', (IH q c c'); lia || done.
  - destruct Hpp, Hpp'. lia.
Qed.

(** C10: consensus. Two nodes that run the same network, each with its own database, options, environment, script checks and history, and that hold the coins of the same
    block, hold the same coins, provided no two of their headers have the same hash. *)
Theorem same_block_same_coins (params : Params) (body : uint256 -> list CTransaction) (genesis : CBlock)
    {B : Type} {HV : CoinsView B} {HL : LawfulView B} {K : Type} {HK : ScriptCache K} (st : ChainstateManager B K) address order env VerifyScript signet opts pow fuzz
    {B' : Type} {HV' : CoinsView B'} {HL' : LawfulView B'} {K' : Type} {HK' : ScriptCache K'} (st' : ChainstateManager B' K') address' order' env' VerifyScript' signet' opts' pow' fuzz' :
  network_ok params body genesis ->
  reachable address order env VerifyScript signet params opts pow fuzz body genesis st ->
  reachable address' order' env' VerifyScript' signet' params opts' pow' fuzz' body genesis st' ->
  no_collisions (index_of st) (index_of st') -> coins_block st = coins_block st' ->
  forall o, cache_coin (CoinsTip st) o = cache_coin (CoinsTip st') o.
Proof.
  intros Hn Hr Hr' Hnc Hb. destruct (reachable_ok _ _ _ _ _ _ _ _ _ _ _ st Hn Hr) as [Hok _]. destruct (reachable_ok _ _ _ _ _ _ _ _ _ _ _ st' Hn Hr') as [Hok' _].
  destruct (ok_coins _ _ _ Hok) as (c & best & Hh & Ha), (ok_coins _ _ _ Hok') as (c' & best' & Hh' & Ha'). unfold coins_block in Hb.
  rewrite (holds_best _ _ _ Hh), (holds_best _ _ _ Hh') in Hb. subst best'. destruct Hh as (_ & Hc & _), Hh' as (_ & Hc' & _). intros o. rewrite Hc, Hc'. cbn [cs_coins].
  enough (c = c') as -> by done. apply (coins_at_index _ _ _ _ _ (ok_index _ _ _ Hok)) in Ha. apply (coins_at_index _ _ _ _ _ (ok_index _ _ _ Hok')) in Ha'.
  destruct (best =? 0); [congruence|]. apply (coins_after_fun params body (index_of st) (index_of st') best); [|done..].
  by apply (indexes_agree params); [apply Hok|apply Hok'|].
Qed.
