(* ===== verification/ActivationExample.v ===== *)
(** * A node of the main network that starts, takes a block and reorganizes

    The model runs: the witnesses of the properties of the activation. Block hashes are checked by evaluation, with a proof of work that always passes. *)

From S2P Require Import Prelude ValidationState Serialize ArithUint256 Chain Params Pow HeaderValidation Subsidy Transaction Script.
From S2P Require Import TxCheck Coins TxVerify Merkle Sha256 Sha256Spec Hash Block Genesis ConnectBlock ConnectBlockSpec ChainstateProps.
From S2P Require Import Activation ActivationSpec ActivationNode ActivationTip ActivationProps.
#[local] Open Scope Z_scope.

#[local] Opaque ComputeHash ComputeWitnessHash CBlockHeader_GetHash hash_node SerializeTransaction hashCacheEntry.

(** An environment without failures that writes the coins every time. *)
Definition calm : environment :=
  mkEnvironment (fun _ => false) (fun _ => false) (fun _ => WriteDone) (fun _ => None) (fun _ => FlushDisk false) (fun _ => false) (fun _ _ => 0%nat)
    (fun _ => 1766980000 * 10 ^ 9).

Definition main_block : CBlock := Eval vm_compute in match main_genesis with Some b => b | None => new_block (mkHeader 0 0 0 0 0 0) [] end.

(** Blocks with one coinbase: one on the genesis block, and two of another branch. *)
Definition reward (height : Z) : CTransaction :=
  mkTx [mkTxIn (mkOutPoint 0 NULL_INDEX) [0x50 + height; 0] SEQUENCE_FINAL []] [mkTxOut (50 * COIN) [OP_1]] 1 0.
Definition mined (height : Z) (prev : uint256) (time : Z) : CBlock :=
  new_block (mkHeader 4 prev (ComputeHash (reward height)) time 521142271 0) [reward height].
Definition block_a : CBlock := Eval vm_compute in mined 1 (hashGenesisBlock CMainParams) 1766972200.
Definition block_b : CBlock := Eval vm_compute in mined 1 (hashGenesisBlock CMainParams) 1766972201.
Definition hash_b : uint256 := Eval vm_compute in CBlockHeader_GetHash (header block_b).
Definition block_c : CBlock := Eval vm_compute in mined 2 hash_b 1766972802.

Definition main_body (p : uint256) : list CTransaction :=
  if p =? CBlockHeader_GetHash (header block_a) then vtx block_a
  else if p =? CBlockHeader_GetHash (header block_b) then vtx block_b
  else if p =? CBlockHeader_GetHash (header block_c) then vtx block_c else [].

Abbreviation example_node := (ChainstateManager MapView unit).

Definition start : option (bool * example_node) :=
  LoadGenesisBlock (fun p => p) calm CMainParams (new_node (mkMapView ∅ 0) (new_ValidationCache 1 tt)) main_block.
Definition process (st : example_node) (b : CBlock) : option (bool * example_node) :=
  ProcessNewBlock (fun p => p) (fun m => map fst (map_to_list m)) calm (fun _ _ _ _ _ _ _ _ _ => None) (fun _ => true) CMainParams example_opts (fun _ _ => 0) false
    st b true true.
Definition history : option example_node :=
  '(_, st) ← start; '(_, st) ← process st block_a; '(_, st) ← process st block_b; '(_, st) ← process st block_c; Some st.

(** The second branch wins: the first block is disconnected, and the two others are connected. *)
Lemma history_result :
  (fun st => (m_chain st, fatal_error st, coins_block st)) <$> history =
  Some ([Some (hashGenesisBlock CMainParams); Some (CBlockHeader_GetHash (header block_b)); Some (CBlockHeader_GetHash (header block_c))], false,
        CBlockHeader_GetHash (header block_c)).
Proof. vm_compute. reflexivity. Qed.

Abbreviation example_reachable :=
  (reachable (fun p => p) (fun m => map fst (map_to_list m)) calm (fun _ _ _ _ _ _ _ _ _ => None) (fun _ => true) CMainParams example_opts (fun _ _ => 0) false main_body main_block
     (B := MapView) (K := unit)).

Lemma good_hash_literal (p q : uint256) :
  p = q -> q <> 0 -> (q =? 0x00000000000a4d0a398161ffc163c503763b1f4360639393e0e4c8e300e0caec) = false ->
  (q =? 0x00000000000743f190a18c5577a3c2d2a1f610ae9601ac046a38084ccb7cd721) = false -> good_hash p.
Proof. intros -> Hnz H1 H2. split; [done|]. intros b. unfold IsBIP30Repeat. by rewrite H1, H2, !andb_false_r. Qed.

(** The header of a block whose hash evaluates to [q]. *)
Ltac good_header q := split; [apply (good_hash_literal _ q); vm_compute; (reflexivity || discriminate)|vm_compute; split; (discriminate || reflexivity)].

Lemma delivered_a : delivered main_body block_a.
Proof. split; [good_header ltac:(eval vm_compute in (CBlockHeader_GetHash (header block_a)))|reflexivity|]. intros _. replace (main_body _) with (vtx block_a) by (vm_compute; reflexivity). reflexivity. Qed.
Lemma delivered_b : delivered main_body block_b.
Proof. split; [good_header ltac:(eval vm_compute in (CBlockHeader_GetHash (header block_b)))|reflexivity|]. intros _. replace (main_body _) with (vtx block_b) by (vm_compute; reflexivity). reflexivity. Qed.
Lemma delivered_c : delivered main_body block_c.
Proof. split; [good_header ltac:(eval vm_compute in (CBlockHeader_GetHash (header block_c)))|reflexivity|]. intros _. replace (main_body _) with (vtx block_c) by (vm_compute; reflexivity). reflexivity. Qed.

Lemma txids_commit_single (t : CTransaction) : txids_commit [t].
Proof. intros t1 t2 ->%list_elem_of_singleton ->%list_elem_of_singleton _. reflexivity. Qed.

Lemma main_network : network_ok CMainParams main_body main_block.
Proof.
  split; [reflexivity|reflexivity| |vm_compute; reflexivity|good_header ltac:(eval vm_compute in (CBlockHeader_GetHash (header main_block)))|reflexivity].
  intros p. unfold main_body. generalize (CBlockHeader_GetHash (header block_a)) (CBlockHeader_GetHash (header block_b)) (CBlockHeader_GetHash (header block_c)).
  intros a b c. destruct (p =? a); [apply txids_commit_single|]. destruct (p =? b); [apply txids_commit_single|]. destruct (p =? c); [apply txids_commit_single|].
  intros t1 t2 H. by apply elem_of_nil in H.
Qed.

Lemma empty_map_database : empty_database (mkMapView ∅ 0).
Proof. split; [|done]. intros o c Hc. cbn in Hc. by rewrite lookup_empty in Hc. Qed.

Lemma start_result : fst <$> start = Some true.
Proof. vm_compute. reflexivity. Qed.

Lemma history_reachable (st : example_node) : history = Some st -> example_reachable st.
Proof.
  unfold history. intros ([r0 st0] & E0 & H)%bind_Some. pose proof start_result as Hr0. rewrite E0 in Hr0. injection Hr0 as ->. apply bind_Some in H as ([r1 st1] & E1 & H).
  apply bind_Some in H as ([r2 st2] & E2 & H). apply bind_Some in H as ([r3 st3] & E3 & [= <-]).
  apply (reach_block _ _ _ _ _ _ _ _ _ _ _ st2 _ block_c true true r3); [|exact delivered_c|exact E3].
  apply (reach_block _ _ _ _ _ _ _ _ _ _ _ st1 _ block_b true true r2); [|exact delivered_b|exact E2].
  apply (reach_block _ _ _ _ _ _ _ _ _ _ _ st0 _ block_a true true r1); [|exact delivered_a|exact E1].
  exact (reach_start _ _ _ _ _ _ _ _ _ _ _ _ _ st0 empty_map_database E0).
Qed.

(** A second node that never sees the first block, and does not write its coins. *)
Definition lazy : environment :=
  mkEnvironment (fun _ => false) (fun _ => false) (fun _ => WriteDone) (fun _ => None) (fun _ => FlushSkip) (fun _ => false) (fun _ _ => 0%nat) (fun _ => 1766990000 * 10 ^ 9).
Definition start' : option (bool * example_node) :=
  LoadGenesisBlock (fun p => - p) lazy CMainParams (new_node (mkMapView ∅ 0) (new_ValidationCache 2 tt)) main_block.
Definition process' (st : example_node) (b : CBlock) : option (bool * example_node) :=
  ProcessNewBlock (fun p => - p) (fun m => map fst (map_to_list m)) lazy example_VerifyScript (fun _ => true) CMainParams example_opts (fun _ _ => 1) false st b true true.
Definition history' : option example_node := '(_, st) ← start'; '(_, st) ← process' st block_b; '(_, st) ← process' st block_c; Some st.

Abbreviation example_reachable' :=
  (reachable (fun p => - p) (fun m => map fst (map_to_list m)) lazy example_VerifyScript (fun _ => true) CMainParams example_opts (fun _ _ => 1) false main_body main_block
     (B := MapView) (K := unit)).

Lemma start_result' : fst <$> start' = Some true.
Proof. vm_compute. reflexivity. Qed.

Lemma history_reachable' (st : example_node) : history' = Some st -> example_reachable' st.
Proof.
  unfold history'. intros ([r0 st0] & E0 & H)%bind_Some. pose proof start_result' as Hr0. rewrite E0 in Hr0. injection Hr0 as ->.
  apply bind_Some in H as ([r2 st2] & E2 & H). apply bind_Some in H as ([r3 st3] & E3 & [= <-]).
  apply (reach_block _ _ _ _ _ _ _ _ _ _ _ st2 _ block_c true true r3); [|exact delivered_c|exact E3].
  apply (reach_block _ _ _ _ _ _ _ _ _ _ _ st0 _ block_b true true r2); [|exact delivered_b|exact E2].
  exact (reach_start _ _ _ _ _ _ _ _ _ _ _ _ _ st0 empty_map_database E0).
Qed.

(** Equal hashes of two indexes are hashes of equal headers. *)
Definition header_fields (h : CBlockHeader) : Z * Z * Z * Z * Z * Z := (nVersion h, hashPrevBlock h, hashMerkleRoot h, nTime h, nBits h, nNonce h).
Definition headers_differ (m m' : BlockMap) : bool :=
  forallb (fun x => forallb (fun y => negb (CBlockHeader_GetHash (GetBlockHeader x.2) =? CBlockHeader_GetHash (GetBlockHeader y.2)) ||
    bool_decide (header_fields (GetBlockHeader x.2) = header_fields (GetBlockHeader y.2))) (map_to_list m')) (map_to_list m).

Lemma headers_differ_no_collisions (m m' : BlockMap) : headers_differ m m' = true -> no_collisions m m'.
Proof.
  unfold headers_differ, no_collisions. generalize CBlockHeader_GetHash. intros hash. rewrite forallb_forall. intros H p p' b b' Hb Hb' E.
  assert (Hin : In (p, b) (map_to_list m)) by by apply list_elem_of_In, elem_of_map_to_list. apply H in Hin. rewrite forallb_forall in Hin.
  assert (Hin' : In (p', b') (map_to_list m')) by by apply list_elem_of_In, elem_of_map_to_list. apply Hin in Hin'. cbn [snd] in Hin'. rewrite E, Z.eqb_refl in Hin'. cbn in Hin'.
  apply bool_decide_eq_true_1 in Hin'. destruct (GetBlockHeader b), (GetBlockHeader b'). unfold header_fields in Hin'. cbn in Hin'. congruence.
Qed.

Lemma histories_meet :
  (st ← history; st' ← history'; Some (headers_differ (index_of st) (index_of st') && (coins_block st =? coins_block st'), length (m_chain st'))) = Some (true, 3%nat).
Proof. vm_compute. reflexivity. Qed.

Lemma history_runs : exists st, history = Some st /\ fatal_error st = false /\ chain_Tip (m_chain st) = Some (CBlockHeader_GetHash (header block_c)).
Proof.
  pose proof history_result as H. revert H.
  generalize history (hashGenesisBlock CMainParams) (CBlockHeader_GetHash (header block_b)) (CBlockHeader_GetHash (header block_c)). intros [st|] g hb hc H; [|discriminate H].
  exists st. split; [reflexivity|]. cbn [fmap option_fmap option_map] in H. injection H as Hc Hf _. split; [exact Hf|]. by rewrite Hc.
Qed.

Lemma chain_and_coins_agree_witness :
  exists st c, history = Some st /\ represents (CoinsTip st) (mkCoinSet c (CBlockHeader_GetHash (header block_c)) false) /\
    exists tip, chain_of (index_of st) tip (m_chain st).
Proof.
  destruct history_runs as (st & E & Hf & Ht).
  destruct (chain_and_coins_agree _ _ _ _ _ _ _ _ _ _ _ st main_network (history_reachable st E)) as (Hc & c & best & Hr & _ & Hb).
  exists st, c. rewrite (Hb Hf), Ht in Hr. split; [exact E|]. split; [exact Hr|]. destruct Hc as [Hc|Hc]; [|exact Hc]. rewrite Hc in Ht. discriminate Ht.
Defined.

Lemma money_supply_capped_witness : exists st c best, history = Some st /\ represents (CoinsTip st) (mkCoinSet c best false) /\ total_value c <= MAX_MONEY.
Proof.
  destruct history_runs as (st & E & _).
  destruct (money_supply_capped _ _ _ _ _ _ _ _ _ _ _ st main_network (history_reachable st E)) as (c & best & Hr & _ & Hm & _).
  exists st, c, best. split; [exact E|]. split; [exact Hr|]. exact (Hm eq_refl).
Defined.

Lemma same_block_same_coins_witness :
  exists st st', history = Some st /\ history' = Some st' /\ forall o, cache_coin (CoinsTip st) o = cache_coin (CoinsTip st') o.
Proof.
  pose proof histories_meet as H. apply bind_Some in H as (st & E & H). apply bind_Some in H as (st' & E' & H).
  injection H as H _. apply andb_true_iff in H as [Hd Hb]. apply Z.eqb_eq in Hb.
  exists st, st'. split; [exact E|]. split; [exact E'|].
  exact (same_block_same_coins CMainParams main_body main_block st _ _ _ _ _ _ _ _ st' _ _ _ _ _ _ _ _ main_network (history_reachable st E) (history_reachable' st' E')
    (headers_differ_no_collisions _ _ Hd) Hb).
Defined.
