(* ===== verification/ScriptCache.v ===== *)
(** * The script execution cache: CheckInputScripts of validation.cpp

    [ValidationCache] keeps, in a cuckoo cache, salted hashes of transactions and flags whose scripts all passed; [CheckInputScripts] trusts what it finds
    there. Here are the cache, the calls that share it in any order, and what its answers mean. *)

From S2P Require Import Prelude ValidationState Serialize Chain Transaction Script TxCheck Coins Sha256 Sha256Spec Hash.
From S2P Require Import ConnectBlock ConnectBlockSpec Sighash CuckooCache SigCache.
#[local] Open Scope Z_scope.

(** The script execution cache of [ValidationCache]. The accesses are in range in every cache that [setup_bytes] made. *)
#[export] Instance cuckoo_script_cache : ScriptCache (Cuckoo.cuckoo uint256) := {
  contains c e erase := default (false, c) (Cuckoo.contains SignatureCacheHasher c e erase);
  insert_entry c e := default c (Cuckoo.insert SignatureCacheHasher c e)
}.

Lemma cuckoo_knows : cache_knows (K := Cuckoo.cuckoo uint256) (fun c e => e ∈ Cuckoo.table c).
Proof.
  split; cbn [contains insert_entry cuckoo_script_cache].
  - intros c e erase. destruct (Cuckoo.contains _ c e erase) as [[hit c']|] eqn:E; [|done]. cbn. by apply contains_elem in E as [_ ?].
  - intros c e erase e'. destruct (Cuckoo.contains _ c e erase) as [[hit c']|] eqn:E; [|done]. cbn. by apply contains_elem in E as [-> _].
  - intros c e e'. destruct (Cuckoo.insert _ c e) as [c'|] eqn:E; [|by left]. cbn. by apply (insert_elem SignatureCacheHasher).
Qed.

(** ** Hashes *)

Lemma length_sha_state (c : CSHA256) (data : list Z) : length (sha_s c) = 8%nat -> length (sha_s (CSHA256_Write c data)) = 8%nat.
Proof.
  assert (Ht : forall s chunk n, length s = 8%nat -> length (Transform s chunk n) = 8%nat).
  { intros s chunk n Hs. rewrite Transform_fips by done. by apply length_fips_blocks. }
  intros Hc. unfold CSHA256_Write, fill_buffer, process_blocks. repeat case_match; simplify_eq; cbn [sha_s]; auto.
Qed.

Lemma CHash256_range (w : CSHA256) : 0 <= le_val (snd (CHash256_Finalize w)) < 2 ^ 256.
Proof.
  unfold CHash256_Finalize. destruct (CSHA256_Finalize w) as [c buf]. unfold CSHA256_Finalize. cbn [snd].
  match goal with |- context [sha_s ?c] => set (l := sha_s c) end.
  assert (Hl : length l = 8%nat) by (do 3 apply length_sha_state; done). clearbody l.
  replace (2 ^ 256) with (2 ^ (8 * Z.of_nat (length (concat (map WriteBE32 l))))) by by rewrite length_digest. apply le_val_bound.
  apply Forall_concat, Forall_map, Forall_true. intros x. apply Forall_rev, le_bytes_u8.
Qed.

#[local] Opaque CHash256_Finalize CSHA256_Write.

Lemma writer_GetHash_range (w : CSHA256) : 0 <= writer_GetHash w < 2 ^ 256.
Proof. exact (CHash256_range w). Qed.

Lemma HashWriter_range (pieces : list (list Z)) : 0 <= HashWriter_GetHash pieces < 2 ^ 256.
Proof. exact (CHash256_range (fold_left CSHA256_Write pieces new_hasher)). Qed.

Lemma ComputeWitnessHash_range (tx : CTransaction) : 0 <= ComputeWitnessHash tx < 2 ^ 256.
Proof. unfold ComputeWitnessHash. destruct (HasWitness tx); [apply HashWriter_range|]. unfold ComputeHash. apply HashWriter_range. Qed.

(** What the entry of a transaction and flags is the hash of. *)
Definition script_preimage (nonce : uint256) (tx : CTransaction) (flags : Z) : list Z :=
  ser fmt_uint256 nonce ++ ser fmt_uint256 nonce ++ ser fmt_uint256 (ComputeWitnessHash tx) ++ ser fmt_u64 flags.

(** The constructor of [ValidationCache]. *)
Definition ValidationCache_new (log2f : Z -> Z) (nonce : uint256) (bytes : Z) : ValidationCache (Cuckoo.cuckoo uint256) :=
  new_ValidationCache nonce (fst (Cuckoo.setup_bytes 0 log2f 32 Cuckoo.cuckoo_new bytes)).

Lemma hashCacheEntry_preimage {K : Type} (nonce : uint256) (vc : ValidationCache K) (k : K) (tx : CTransaction) (flags : Z) :
  m_script_execution_cache_hasher vc = m_script_execution_cache_hasher (new_ValidationCache nonce k) ->
  hashCacheEntry vc tx flags = le_val (sha256 (script_preimage nonce tx flags)).
Proof.
  intros E. unfold hashCacheEntry. rewrite E. unfold new_ValidationCache. cbn [m_script_execution_cache_hasher].
  pose proof (proj1 (Writes_hash (repeat 0 64) [ser fmt_uint256 nonce; ser fmt_uint256 nonce; ser fmt_uint256 (ComputeWitnessHash tx); ser fmt_u64 flags] eq_refl
    ltac:(cbn [concat]; rewrite !length_app, !length_uint256; cbn [length]; change (length (ser fmt_u64 flags)) with 8%nat; lia))) as H.
  cbn [fold_left concat] in H. rewrite app_nil_r in H. f_equal. exact H.
Qed.

Lemma script_preimage_inj (nonce : uint256) (tx tx' : CTransaction) (flags flags' : Z) : is_u64 flags -> is_u64 flags' ->
  script_preimage nonce tx flags = script_preimage nonce tx' flags' -> ComputeWitnessHash tx = ComputeWitnessHash tx' /\ flags = flags'.
Proof.
  unfold script_preimage. intros Hf Hf' E. do 2 (apply app_inj_1 in E as [_ E]; [|done]). apply app_inj_1 in E as [Eh Ef]; [|by rewrite !length_uint256]. split.
  - apply ser_uint256_inj; [apply ComputeWitnessHash_range..|exact Eh].
  - apply (f_equal le_val) in Ef. change (le_val (le_bytes 8 flags) = le_val (le_bytes 8 flags')) in Ef. by rewrite !le_val_le_bytes in Ef.
Qed.

#[local] Opaque sha256 script_preimage hashCacheEntry ComputeWitnessHash.

(** ** Calls that share the cache *)

Section ScriptCache.
Context {B : Type} {HV : CoinsView B}.
Context (VerifyScript : CScript -> CScript -> list (list Z) -> Z -> CTransaction -> nat -> Z -> bool -> list CTxOut -> option string).
#[local] Abbreviation vcache := (ValidationCache (Cuckoo.cuckoo uint256)).

(** The arguments of a call, the cache apart. *)
Record script_call := mkCall {
  call_tx : CTransaction;
  call_state : TxValidationState;
  call_inputs : CCoinsViewCache B;
  call_flags : Z;
  call_sig : bool;
  call_full : bool;
  call_deferred : bool
}.

Definition call_run (vc : vcache) (c : script_call) : option (bool * vcache) :=
  '(ok, _, _, vc, _) ← CheckInputScripts VerifyScript (call_tx c) (call_state c) (call_inputs c) (call_flags c) (call_sig c) (call_full c) vc (call_deferred c);
  Some (ok, vc).

(** The calls in order; [None] when an assertion fails. *)
Fixpoint calls_run (vc : vcache) (l : list script_call) : option (list bool * vcache) :=
  match l with
  | [] => Some ([], vc)
  | c :: l' => '(ok, vc) ← call_run vc c; '(oks, vc) ← calls_run vc l'; Some (ok :: oks, vc)
  end.

(** The scripts of all inputs pass, against the outputs that the view of the call holds. *)
Definition scripts_pass (c : script_call) : Prop :=
  exists view outs, spent_outputs (call_inputs c) (vin (call_tx c)) = Some (view, outs) /\
    run_checks VerifyScript (script_checks (call_tx c) (call_flags c) (call_sig c) outs) = Some None.

(** The calls that add to the cache. *)
Definition stored (past : list script_call) (c : script_call) : Prop := c ∈ past /\ call_full c = true /\ call_deferred c = false /\ scripts_pass c.

Definition entries_valid (nonce : uint256) (past : list script_call) (vc : vcache) : Prop :=
  m_script_execution_cache_hasher vc = m_script_execution_cache_hasher (new_ValidationCache nonce tt) /\
  forall e, e ∈ Cuckoo.table (m_script_execution_cache vc) -> e = 0 \/ exists c, stored past c /\ e = le_val (sha256 (script_preimage nonce (call_tx c) (call_flags c))).

(** What a call found: its scripts passed now, or those of an earlier call with the same transaction and flags did, or hashes collide. *)
Definition answered (nonce : uint256) (past : list script_call) (c : script_call) : Prop :=
  scripts_pass c \/
  (exists c', stored past c' /\ ComputeWitnessHash (call_tx c') = ComputeWitnessHash (call_tx c) /\ call_flags c' = call_flags c) \/
  sha256 (script_preimage nonce (call_tx c) (call_flags c)) = repeat 0 32 \/
  (exists c', stored past c' /\ script_preimage nonce (call_tx c') (call_flags c') <> script_preimage nonce (call_tx c) (call_flags c) /\
    sha256 (script_preimage nonce (call_tx c') (call_flags c')) = sha256 (script_preimage nonce (call_tx c) (call_flags c))).

Lemma stored_app (past l : list script_call) (c : script_call) : stored past c -> stored (past ++ l) c.
Proof. intros (H & ?). split; [|done]. apply elem_of_app. by left. Qed.

Lemma hit_answered (nonce : uint256) (past : list script_call) (vc : vcache) (c : script_call) :
  entries_valid nonce past vc -> (forall c', c' ∈ past -> is_u64 (call_flags c')) -> is_u64 (call_flags c) ->
  hashCacheEntry vc (call_tx c) (call_flags c) ∈ Cuckoo.table (m_script_execution_cache vc) -> answered nonce past c.
Proof.
  intros [Hh Hv] Hp Hc Hin. rewrite (hashCacheEntry_preimage nonce vc (m_script_execution_cache vc)) in Hin by exact Hh. right.
  destruct (Hv _ Hin) as [H|(c' & Hst & H)].
  - right. left. by apply sha256_zero.
  - apply sha256_le_val_inj in H. destruct (decide (script_preimage nonce (call_tx c') (call_flags c') = script_preimage nonce (call_tx c) (call_flags c))) as [E|E].
    + left. exists c'. split; [done|]. apply (script_preimage_inj nonce); [apply Hp, Hst|done..].
    + right. right. exists c'. split; [exact Hst|]. split; [exact E|exact (eq_sym H)].
Qed.

Lemma insert_valid (nonce : uint256) (past : list script_call) (vc : vcache) (c : script_call) :
  entries_valid nonce past vc -> stored past c ->
  entries_valid nonce past (set_script_cache vc (insert_entry (m_script_execution_cache vc) (hashCacheEntry vc (call_tx c) (call_flags c)))).
Proof.
  intros [Hh Hv] Hc. split; [done|]. cbn [m_script_execution_cache set_script_cache]. intros e He. apply (insert_keeps _ cuckoo_knows) in He as [He| ->]; [auto|].
  right. exists c. split; [done|]. exact (hashCacheEntry_preimage nonce vc (m_script_execution_cache vc) _ _ Hh).
Qed.

Lemma call_answered (nonce : uint256) (past : list script_call) (vc vc' : vcache) (c : script_call) (ok : bool) :
  entries_valid nonce past vc -> (forall c', c' ∈ past -> is_u64 (call_flags c')) -> is_u64 (call_flags c) -> call_run vc c = Some (ok, vc') ->
  entries_valid nonce (past ++ [c]) vc' /\ (ok = true -> call_deferred c = false -> IsCoinBase (call_tx c) = false -> answered nonce past c).
Proof.
  intros Hv Hp Hc Hrun. assert (Happ : forall vc, entries_valid nonce past vc -> entries_valid nonce (past ++ [c]) vc).
  { intros vc1 [Hh He]. split; [done|]. intros e [?|(c1 & ? & ?)]%He; [by left|right]. exists c1. split; [by apply stored_app|done]. }
  unfold call_run, CheckInputScripts in Hrun. destruct (IsCoinBase (call_tx c)); [injection Hrun as <- <-; split; [auto|done]|].
  destruct (contains _ _ _) as [hit k] eqn:Ek. 
  pose proof (contains_known _ cuckoo_knows (m_script_execution_cache vc) (hashCacheEntry vc (call_tx c) (call_flags c)) (negb (call_full c))) as Hhit.
  rewrite Ek in Hhit. cbn [fst] in Hhit.
  assert (Hk : entries_valid nonce past (set_script_cache vc k)).
  { destruct Hv as [Hh He]. split; [done|]. intros e H. apply He. eapply (contains_keeps _ cuckoo_knows). rewrite Ek. exact H. }
  destruct hit; [injection Hrun as <- <-; split; [auto|intros _ _ _; exact (hit_answered nonce past vc c Hv Hp Hc (Hhit eq_refl))]|].
  destruct (spent_outputs (call_inputs c) (vin (call_tx c))) as [[view outs]|] eqn:Es; [|done]. cbn [mbind option_bind] in Hrun.
  destruct (call_deferred c) eqn:Ed; [injection Hrun as <- <-; split; [auto|done]|].
  destruct (run_checks _ _) as [[[error debug]|]|] eqn:Er; [| |done]; cbn [mbind option_bind] in Hrun.
  - unfold Invalid in Hrun. destruct (negb (Z.land (call_flags c) STANDARD_NOT_MANDATORY_VERIFY_FLAGS =? 0)); cbn [mbind option_bind] in Hrun; injection Hrun as <- <-; (split; [auto|intros [=]]).
  - assert (Hpass : scripts_pass c) by by exists view, outs. destruct (call_full c) eqn:Ef; injection Hrun as <- <-; (split; [|intros _ _ _; by left]); [|auto].
    apply (insert_valid nonce (past ++ [c]) (set_script_cache vc k) c); [auto|]. split; [apply elem_of_app; right; by apply list_elem_of_singleton|done].
Qed.

Lemma calls_answered (nonce : uint256) (past l : list script_call) (vc vc' : vcache) (oks : list bool) :
  entries_valid nonce past vc -> (forall c', c' ∈ past ++ l -> is_u64 (call_flags c')) -> calls_run vc l = Some (oks, vc') ->
  forall i c, l !! i = Some c -> oks !! i = Some true -> call_deferred c = false -> IsCoinBase (call_tx c) = false -> answered nonce (past ++ take i l) c.
Proof.
  revert past vc oks; induction l as [|c l IH]; intros past vc oks Hv Hp; cbn [calls_run]; [done|].
  intros ([ok vc1] & Hc & ([oks' vc2] & Hl & H)%bind_Some)%bind_Some. injection H as <- <-.
  destruct (call_answered nonce past vc vc1 c ok Hv) as [Hv1 Ha]; [intros c' H; apply Hp, elem_of_app; by left|apply Hp, elem_of_app; right; by left|done|].
  intros [|i] c' Hi Ho Hd Hcb; cbn in Hi, Ho.
  - simplify_eq. cbn. rewrite app_nil_r. auto.
  - specialize (IH (past ++ [c]) vc1 oks' Hv1 ltac:(by rewrite <- app_assoc) Hl i c' Hi Ho Hd Hcb). by rewrite <- app_assoc in IH.
Qed.

(** C40: the script execution cache answers for scripts that were run. On a new cache, in every sequence of calls of [CheckInputScripts], with any views,
    flags and modes, a call that succeeds (and does not defer its checks) has run all scripts of the transaction successfully, or an earlier call did so
    for a transaction with the same witness hash under the same flags, unless SHA-256 maps this transaction and flags to zero or to
    the entry of another stored pair. *)
Theorem script_cache_sound (log2f : Z -> Z) (nonce : uint256) (bytes : Z) (l : list script_call) (oks : list bool) (vc : vcache) (i : nat) (c : script_call) :
  (forall c', c' ∈ l -> is_u64 (call_flags c')) -> calls_run (ValidationCache_new log2f nonce bytes) l = Some (oks, vc) ->
  l !! i = Some c -> oks !! i = Some true -> call_deferred c = false -> IsCoinBase (call_tx c) = false -> answered nonce (take i l) c.
Proof.
  intros Hf Hrun. refine (calls_answered nonce [] l _ vc oks _ Hf Hrun i c). split; [done|]. intros e He. left. unfold ValidationCache_new, Cuckoo.setup_bytes, Cuckoo.setup in He.
  cbn in He. rewrite resize_nil in He. apply list_elem_of_lookup in He as [j Hj]. by apply lookup_replicate_1 in Hj as [-> _].
Qed.
End ScriptCache.

(** ** An example *)

(** A transaction is checked, its entry is found, and then found for other flags it is checked again. *)
Definition call_out : COutPoint := mkOutPoint 3 0.
Definition call_view : CCoinsViewCache MapView := new_cache (mkMapView {[call_out := mkCoin (mkTxOut 5000 [81]) false 1]} 2).
Definition example_call (flags : Z) : script_call (B := MapView) :=
  mkCall (mkTx [mkTxIn call_out [] 0 []] [mkTxOut 4000 [81]] 1 0) tx_state call_view flags true true false.
Definition accept_scripts (scriptSig scriptPubKey : CScript) (witness : list (list Z)) (flags : Z) (tx : CTransaction) (nIn : nat) (amount : Z) (store : bool)
    (spent : list CTxOut) : option string := None.

Lemma example_flags (c : script_call (B := MapView)) : c ∈ [example_call 5; example_call 5; example_call 7] -> is_u64 (call_flags c).
Proof. intros H. repeat (apply elem_of_cons in H as [->|H]; [split; vm_compute; congruence|]). by apply elem_of_nil in H. Qed.

Definition example_calls : option (list bool * ValidationCache (Cuckoo.cuckoo uint256)) :=
  calls_run accept_scripts (ValidationCache_new (fun _ => 2) 9 128) [example_call 5; example_call 5; example_call 7].

Lemma example_calls_result : fst <$> example_calls = Some [true; true; true].
Proof. vm_compute. reflexivity. Qed.

Lemma script_cache_sound_witness : exists vc, example_calls = Some ([true; true; true], vc) /\ answered accept_scripts 9 [example_call 5] (example_call 5).
Proof.
  destruct example_calls as [[oks vc]|] eqn:E; pose proof example_calls_result as Hoks; rewrite E in Hoks; [|discriminate Hoks]. injection Hoks as ->.
  exists vc. split; [exact eq_refl|]. unfold example_calls in E.
  exact (script_cache_sound accept_scripts (fun _ => 2) 9 128 _ _ vc 1 _ example_flags E eq_refl eq_refl eq_refl eq_refl).
Defined.
