(* ===== verification/BlockScripts.v ===== *)
(** * Blocks whose scripts are run by the interpreter

    [ConnectBlock] and the chain state take the verification of a script as an argument; here it is [VerifyScript] with the checker for transactions, as
    [CScriptCheck] calls it, with the signature cache and the script execution cache, so that what is known of the interpreter becomes a fact about accepted
    blocks. The verification of a signature against a hash is libsecp256k1. *)

From stdpp Require Import pretty.
From S2P Require Import Prelude ValidationState Serialize ArithUint256 Chain Params Pow Subsidy Transaction Script.
From S2P Require Import TxCheck Coins TxVerify Merkle Sha256 Sha256Spec Hash Hash160 Block ConnectBlock ConnectBlockSpec ChainstateProps.
From S2P Require Import Interpreter Sighash VerifyScript InterpreterSpec SighashSpec SighashCache Spending CuckooCache SigCache ScriptCache.
#[local] Open Scope Z_scope.

(** [ScriptErrorString] *)
Definition ScriptErrorString (serror : ScriptError) : string :=
  match serror with
  | SCRIPT_ERR_OK => "No error"
  | SCRIPT_ERR_EVAL_FALSE => "Script evaluated without error but finished with a false/empty top stack element"
  | SCRIPT_ERR_VERIFY => "Script failed an OP_VERIFY operation"
  | SCRIPT_ERR_EQUALVERIFY => "Script failed an OP_EQUALVERIFY operation"
  | SCRIPT_ERR_CHECKMULTISIGVERIFY => "Script failed an OP_CHECKMULTISIGVERIFY operation"
  | SCRIPT_ERR_CHECKSIGVERIFY => "Script failed an OP_CHECKSIGVERIFY operation"
  | SCRIPT_ERR_NUMEQUALVERIFY => "Script failed an OP_NUMEQUALVERIFY operation"
  | SCRIPT_ERR_SCRIPT_SIZE => "Script is too big"
  | SCRIPT_ERR_PUSH_SIZE => "Push value size limit exceeded"
  | SCRIPT_ERR_OP_COUNT => "Operation limit exceeded"
  | SCRIPT_ERR_STACK_SIZE => "Stack size limit exceeded"
  | SCRIPT_ERR_SIG_COUNT => "Signature count negative or greater than pubkey count"
  | SCRIPT_ERR_PUBKEY_COUNT => "Pubkey count negative or limit exceeded"
  | SCRIPT_ERR_BAD_OPCODE => "Opcode missing or not understood"
  | SCRIPT_ERR_DISABLED_OPCODE => "Attempted to use a disabled opcode"
  | SCRIPT_ERR_INVALID_STACK_OPERATION => "Operation not valid with the current stack size"
  | SCRIPT_ERR_INVALID_ALTSTACK_OPERATION => "Operation not valid with the current altstack size"
  | SCRIPT_ERR_OP_RETURN => "OP_RETURN was encountered"
  | SCRIPT_ERR_UNBALANCED_CONDITIONAL => "Invalid OP_IF construction"
  | SCRIPT_ERR_NEGATIVE_LOCKTIME => "Negative locktime"
  | SCRIPT_ERR_UNSATISFIED_LOCKTIME => "Locktime requirement not satisfied"
  | SCRIPT_ERR_SIG_HASHTYPE => "Signature hash type missing or not understood"
  | SCRIPT_ERR_SIG_DER => "Non-canonical DER signature"
  | SCRIPT_ERR_MINIMALDATA => "Data push larger than necessary"
  | SCRIPT_ERR_SIG_PUSHONLY => "Only push operators allowed in signatures"
  | SCRIPT_ERR_SIG_HIGH_S => "Non-canonical signature: S value is unnecessarily high"
  | SCRIPT_ERR_SIG_NULLDUMMY => "Dummy CHECKMULTISIG argument must be zero"
  | SCRIPT_ERR_MINIMALIF => "OP_IF/NOTIF argument must be minimal"
  | SCRIPT_ERR_SIG_NULLFAIL => "Signature must be zero for failed CHECK(MULTI)SIG operation"
  | SCRIPT_ERR_DISCOURAGE_UPGRADABLE_NOPS => "NOPx reserved for soft-fork upgrades"
  | SCRIPT_ERR_DISCOURAGE_UPGRADABLE_WITNESS_PROGRAM => "Witness version reserved for soft-fork upgrades"
  | SCRIPT_ERR_DISCOURAGE_UPGRADABLE_TAPROOT_VERSION => "Taproot version reserved for soft-fork upgrades"
  | SCRIPT_ERR_DISCOURAGE_OP_SUCCESS => "OP_SUCCESSx reserved for soft-fork upgrades"
  | SCRIPT_ERR_DISCOURAGE_UPGRADABLE_PUBKEYTYPE => "Public key version reserved for soft-fork upgrades"
  | SCRIPT_ERR_PUBKEYTYPE => "Public key is neither compressed or uncompressed"
  | SCRIPT_ERR_CLEANSTACK => "Stack size must be exactly one after execution"
  | SCRIPT_ERR_WITNESS_PROGRAM_WRONG_LENGTH => "Witness program has incorrect length"
  | SCRIPT_ERR_WITNESS_PROGRAM_WITNESS_EMPTY => "Witness program was passed an empty witness"
  | SCRIPT_ERR_WITNESS_PROGRAM_MISMATCH => "Witness program hash mismatch"
  | SCRIPT_ERR_WITNESS_MALLEATED => "Witness requires empty scriptSig"
  | SCRIPT_ERR_WITNESS_MALLEATED_P2SH => "Witness requires only-redeemscript scriptSig"
  | SCRIPT_ERR_WITNESS_UNEXPECTED => "Witness provided for non-witness script"
  | SCRIPT_ERR_WITNESS_PUBKEYTYPE => "Using non-compressed keys in segwit"
  | SCRIPT_ERR_SCHNORR_SIG_SIZE => "Invalid Schnorr signature size"
  | SCRIPT_ERR_SCHNORR_SIG_HASHTYPE => "Invalid Schnorr signature hash type"
  | SCRIPT_ERR_SCHNORR_SIG => "Invalid Schnorr signature"
  | SCRIPT_ERR_TAPROOT_WRONG_CONTROL_SIZE => "Invalid Taproot control block size"
  | SCRIPT_ERR_TAPSCRIPT_VALIDATION_WEIGHT => "Too much signature validation relative to witness weight"
  | SCRIPT_ERR_TAPSCRIPT_CHECKMULTISIG => "OP_CHECKMULTISIG(VERIFY) is not available in tapscript"
  | SCRIPT_ERR_TAPSCRIPT_MINIMALIF => "OP_IF/NOTIF argument must be minimal in tapscript"
  | SCRIPT_ERR_TAPSCRIPT_EMPTY_PUBKEY => "Empty public key in tapscript"
  | SCRIPT_ERR_OP_CODESEPARATOR => "Using OP_CODESEPARATOR in non-witness script"
  | SCRIPT_ERR_SIG_FINDANDDELETE => "Signature is found in scriptCode"
  | SCRIPT_ERR_UNKNOWN_ERROR => "unknown error"
  end.

(** ** Flags of blocks *)

Lemma has_flag_lor (a b flag : Z) : has_flag a flag = true -> has_flag (Z.lor a b) flag = true.
Proof.
  unfold has_flag. rewrite !negb_true_iff, !Z.eqb_neq, Z.land_lor_distr_l. intros H E. apply Z.lor_eq_0_iff in E as [E _]. done.
Qed.

Lemma GetBlockScriptFlags_base (index : CBlockIndex) (hash : uint256) (p : Params) (flag : Z) :
  script_flag_exceptions p !! hash = None -> has_flag (Z.lor (Z.lor SCRIPT_VERIFY_P2SH SCRIPT_VERIFY_WITNESS) SCRIPT_VERIFY_TAPROOT) flag = true ->
  has_flag (GetBlockScriptFlags index hash p) flag = true.
Proof. intros He H. unfold GetBlockScriptFlags. rewrite He. cbn [default]. repeat case_match; repeat first [exact H|apply has_flag_lor]. Qed.

(** ** What the checker asks of a signature *)

Lemma SignatureHash_range (code : CScript) (tx : CTransaction) (nIn : nat) (h amount : Z) (sv : SigVersion) (cache : option PrecomputedTransactionData)
    (sighash_cache : option SigHashCache) (sighash : uint256) :
  fst <$> SignatureHash code tx nIn h amount sv cache sighash_cache = Some sighash -> 0 <= sighash < 2 ^ 256.
Proof.
  unfold SignatureHash. destruct (_ <=? _)%nat; [done|]. destruct (_ && _ && _); [intros [= <-]; lia|]. cbv zeta.
  destruct (sighash_cache ≫= _) as [w|]; [|destruct (signature_pieces _ _ _ _ _ _ _) as [p|]; [|done]]; cbn [mbind option_bind fmap option_fmap option_map fst];
    intros [= <-]; apply writer_GetHash_range.
Qed.

Lemma tx_CheckECDSASignature_true {HS : SignatureVerifier} (c c' : TransactionSignatureChecker) (sig key : valtype) (code : CScript) (sv : SigVersion) :
  tx_CheckECDSASignature c sig key code sv = Ret (true, c') ->
  exists body hashtype sighash, sig = body ++ [hashtype] /\ CPubKey_of key = Some key /\
    fst <$> SignatureHash code (c_txTo c) (c_nIn c) hashtype (c_amount c) sv (c_txdata c) (Some (m_sighash_cache c)) = Some sighash /\
    VerifyECDSASignature body key sighash = true.
Proof.
  unfold tx_CheckECDSASignature, ecdsa_request. assert (Hk : CPubKey_of key = None \/ CPubKey_of key = Some key).
  { unfold CPubKey_of. destruct key; [by left|]. case_match; [by right|by left]. }
  destruct Hk as [-> | ->]; [done|]. destruct sig as [|hashtype body _] using rev_ind; [done|]. rewrite last_snoc, length_app. cbn [length]. cbv zeta.
  replace (length body + 1 - 1)%nat with (length body) by lia. rewrite take_app_length.
  destruct (_ && _); [by destruct (c_mdb c)|].
  destruct (SignatureHash code _ _ hashtype _ _ _ _) as [[h cache]|] eqn:E; [|done]. cbn [of_option mbind result_bind]. intros H. injection H as Hv _.
  exists body, hashtype, h. rewrite E. done.
Qed.

(** ** Checks of scripts *)

Section BlockScripts.
Context {HS : SignatureVerifier} (CheckLowS : list Z -> bool) (CheckTapTweak : list Z -> list Z -> uint256 -> bool -> bool).

(** The script verification of [CScriptCheck::operator()] on the data that [CheckInputScripts] precomputes, with the signature cache [sc]; [None] on
    success, otherwise the text of the error. An assertion never fails here for transactions that can be serialized. What the check leaves in the
    signature cache is not passed on: without [store], as in the blocks of the chain, its elements stay the same. *)
Definition script_check (sc : SignatureCache) (scriptSig scriptPubKey : CScript) (witness : list (list Z)) (flags : Z) (tx : CTransaction) (nIn : nat)
    (amount : Z) (store : bool) (spent : list CTxOut) : option string :=
  match PrecomputedTransactionData_Init tx spent false with
  | None => Some "Assertion failed"
  | Some txdata =>
      match VerifyScript CheckLowS CheckTapTweak scriptSig scriptPubKey witness flags
              (mkCaching (mkChecker tx ASSERT_FAIL nIn amount (Some txdata) SigHashCache_new) store sc) with
      | Ret _ => None
      | Fail e => Some (ScriptErrorString (default SCRIPT_ERR_UNKNOWN_ERROR e))
      | Throw _ | Abort => Some "Assertion failed"
      end
  end.

Lemma script_check_passes (nonce : uint256) (sc : SignatureCache) (scriptSig scriptPubKey : CScript) (witness : list (list Z)) (flags : Z) (tx : CTransaction)
    (nIn : nat) (amount : Z) (spent : list CTxOut) : sigcache_ok nonce sc ->
  script_check sc scriptSig scriptPubKey witness flags tx nIn amount false spent = None ->
  exists txdata c, PrecomputedTransactionData_Init tx spent false = Some txdata /\
    VerifyScript (HC := transaction_checker (HS := cached_verifier sc)) CheckLowS CheckTapTweak scriptSig scriptPubKey witness flags
      (mkChecker tx ASSERT_FAIL nIn amount (Some txdata) SigHashCache_new) = Ret c.
Proof.
  intros Hsc. unfold script_check. destruct (PrecomputedTransactionData_Init tx spent false) as [txdata|]; [|done]. intros H. exists txdata.
  pose proof (VerifyScript_caching CheckLowS CheckTapTweak nonce sc scriptSig scriptPubKey witness flags
    (mkChecker tx ASSERT_FAIL nIn amount (Some txdata) SigHashCache_new) Hsc) as Ho.
  destruct (VerifyScript (HC := caching_checker) _ _ _ _ _ _ _) as [c| | |]; try discriminate H.
  destruct (VerifyScript (HC := transaction_checker) _ _ _ _ _ _ _) as [c'| | |]; try discriminate Ho. by exists c'.
Qed.

(** ** Accepted blocks *)

Context {B : Type} {HV : CoinsView B} {HL : LawfulView B}.
Context (pick_failure : list (string * string) -> nat) (signet : CBlock -> bool) (params : Params) (opts : ChainstateOptions).
Context (b : CBlock) (state : BlockValidationState) (bm : BlockManager) (pindex : uint256) (index : CBlockIndex) (view : CCoinsViewCache B)
  (vc : ValidationCache (Cuckoo.cuckoo uint256)) (disk : option string) (s : coin_set) (r : connect_result (B := B) (K := Cuckoo.cuckoo uint256)).

(** C11: coins locked to the hash of a key move only with a signature of that key. In a block that is accepted with the interpreter checking its scripts (it is
    neither assumed valid nor an exception to the script flags), with the caches in any state that checks of signatures [past] led to, for every transaction
    that the script execution cache does not hold, every input that spends a pay-to-witness-public-key-hash output has an empty script and a
    witness of a signature and a valid public key with that hash, and libsecp256k1 accepts the signature for the signature hash (BIP143) of that input, amount
    and hash type, computed from the transaction alone, unless the salted SHA-256 of this check collides with that of a valid check of [past] or is zero. *)
Theorem ConnectBlock_p2wpkh_signed (log2f : Z -> Z) (nonce : uint256) (bytes : Z) (past : list (bool * sig_request)) (oks : list bool) (sc : SignatureCache)
    (reason : string) :
  0 <= bytes < 2 ^ 36 -> Forall (fun x => request_ok x.2) past -> sig_run (SignatureCache_new log2f nonce bytes) past = Some (oks, sc) ->
  connected (script_check sc) pick_failure signet params opts b state bm pindex index view vc disk s r ->
  script_check_reason opts params bm pindex = Some (Some reason) -> script_flag_exceptions params !! pindex = None ->
  exists undos fees m', connects (nHeight index) (cs_coins s) (vtx b) ([] :: undos) fees m' /\
    forall j i tx spent input cn h, tail (vtx b) !! j = Some tx -> undos !! j = Some spent -> vin tx !! i = Some input -> spent !! i = Some cn ->
      scriptPubKey (out cn) = OP_0 :: 20 :: h -> length h = 20%nat ->
      hashCacheEntry vc tx (GetBlockScriptFlags index pindex params) ∈ Cuckoo.table (m_script_execution_cache vc) \/
      exists body hashtype key sighash, scriptSig input = [] /\ scriptWitness input = [body ++ [hashtype]; key] /\ ripemd160 (sha256 key) = h /\
        CPubKey_of key = Some key /\ fst <$> SignatureHash (p2wpkh_script h) tx i hashtype (nValue (out cn)) WITNESS_V0 None None = Some sighash /\
        (VerifyECDSASignature body key sighash = true \/ collides nonce past (ECDSA body key sighash)).
Proof.
  intros Hb Hp Hsig Hc Hr He. destruct (SignatureCache_new_ok log2f nonce bytes Hb) as [Hsc0 Ht0].
  destruct (sig_run_ok nonce [] past _ Hsc0 Ht0 Hp) as (oks' & sc' & Hsig' & Hsc & Ht & _). rewrite Hsig in Hsig'. injection Hsig' as <- <-.
  destruct (ConnectBlock_verifies_scripts _ _ _ _ _ _ _ _ _ _ _ _ _ _ _ reason _ Hc Hr cuckoo_knows) as (undos & fees & m' & Hcs & Hall).
  exists undos, fees, m'. split; [exact Hcs|]. intros j i tx spent input cn h Hj Hu Hi Hcn Hspk Hl.
  destruct (Hall j tx spent Hj Hu) as [Hin|Hv]; [by left|right]. specialize (Hv i input cn Hi Hcn).
  apply (script_check_passes nonce) in Hv as (txdata & c & Hd & Hv); [|exact Hsc]. rewrite Hspk in Hv.
  apply VerifyScript_p2wpkh_only in Hv as (sig & key & Hw & [Hs _ [Hlen _] Hh _ Hok]); [|exact Hl|by apply GetBlockScriptFlags_base..].
  apply (tx_CheckECDSASignature_true (HS := cached_verifier sc)) in Hok as (body & hashtype & sighash & -> & Hkey & Hhash & Hok).
  exists body, hashtype, key, sighash. do 4 (split; [done|]). cbn [c_txTo c_nIn c_amount c_txdata m_sighash_cache] in Hhash. split.
  - rewrite <- Hhash. symmetry. exact (SignatureHash_plain _ _ _ _ _ _ _ _ _ Hd).
  - apply (cached_verifier_ok nonce past sc (ECDSA body key sighash)); [exact Hsc|exact Ht| |exact Hok].
    split; [exact Hkey|]. split; [by eapply SignatureHash_range|]. rewrite length_app in Hlen. unfold MAX_SCRIPT_ELEMENT_SIZE in Hlen. lia.
Qed.
End BlockScripts.

(** ** Example *)

(** The block of the example chain, with a spent output that is locked to the hash of a key. *)
Definition signed_key : list Z := 2 :: repeat 7 32.
Definition signed_hash : list Z := [183; 40; 226; 0; 223; 77; 241; 130; 165; 103; 226; 128; 40; 48; 169; 244; 207; 178; 28; 202].
Definition signed_sig : list Z := [0x30; 6; 2; 1; 5; 2; 1; 7; 1].
Definition signed_spent : Coin := mkCoin (mkTxOut 5000 (OP_0 :: 20 :: signed_hash)) false 1.
Definition signed_spend : CTransaction := mkTx [mkTxIn example_out [] SEQUENCE_FINAL [signed_sig; signed_key]] [mkTxOut 4000 [OP_1]] 1 0.
Definition signed_block : CBlock := new_block (mkHeader 4 2 example_root 0 0 0) [example_reward; signed_spend].
Definition signed_coins : coin_set := mkCoinSet {[example_out := signed_spent]} 2 false.
Definition signed_view : CCoinsViewCache MapView := new_cache (mkMapView {[example_out := signed_spent]} 2).

(** A verifier that accepts. *)
Definition accepting_verifier : SignatureVerifier := {| VerifyECDSASignature _ _ _ := true; VerifySchnorrSignature _ _ _ := true |}.
Definition signed_cache : SignatureCache := SignatureCache_new (fun _ => 1) 7 64.
Definition signed_scripts : ValidationCache (Cuckoo.cuckoo uint256) :=
  new_ValidationCache 1 (fst (Cuckoo.setup_bytes 0 (fun _ => 1) 32 Cuckoo.cuckoo_new 64)).
Definition signed_check := script_check (HS := accepting_verifier) (fun _ => true) (fun _ _ _ _ => true) signed_cache.

Definition signed_run : option (connect_result (B := MapView) (K := Cuckoo.cuckoo uint256)) :=
  ConnectBlock signed_check (fun _ => 0%nat) (fun _ => true) CMainParams (with_threads example_opts true) signed_block block_state
    example_index example_pindex signed_view signed_scripts false None.

Lemma signed_run_result : (fun r => (r_ok r, r_undo r)) <$> signed_run = Some (true, Some [[signed_spent]]).
Proof. vm_compute. reflexivity. Qed.

Lemma signed_view_represents : represents signed_view signed_coins.
Proof.
  assert (Hi : view_inv (base signed_view)).
  { intros o cn. cbn. intros H. apply lookup_singleton_Some in H as [_ <-]. reflexivity. }
  split; [by apply (new_cache_inv (base signed_view))|]. split; [|done]. intros o. unfold cache_coin. cbn. by rewrite lookup_empty.
Qed.

Lemma signed_txids : txids_commit [example_reward; signed_spend].
Proof.
  assert (Hne : ComputeHash example_reward <> ComputeHash signed_spend) by (vm_compute; discriminate).
  unfold txids_commit. revert Hne. generalize ComputeHash. intros hash Hne t1 t2 H1 H2 E.
  apply elem_of_cons in H1 as [->|H1%list_elem_of_singleton], H2 as [->|H2%list_elem_of_singleton]; subst; congruence.
Qed.

Lemma signed_connected : exists r,
  connected signed_check (fun _ => 0%nat) (fun _ => true) CMainParams (with_threads example_opts true) signed_block block_state
    example_index example_pindex (even_block 600 0x1f0fffff 2) signed_view signed_scripts None signed_coins r.
Proof.
  destruct signed_run as [r|] eqn:E; [|by pose proof signed_run_result as H; rewrite E in H].
  pose proof signed_run_result as H. rewrite E in H. cbn [fmap option_fmap option_map] in H. injection H as Hok Hu. exists r.
  constructor; [apply signed_view_represents|done|apply signed_txids|apply lookup_insert_eq|done|by split; vm_compute|done|by vm_compute|exact E|done].
Qed.

Lemma ConnectBlock_p2wpkh_signed_witness :
  exists undos fees m', connects 2 (cs_coins signed_coins) [example_reward; signed_spend] ([] :: undos) fees m' /\
    forall spent cn h, undos !! 0%nat = Some spent -> spent !! 0%nat = Some cn -> scriptPubKey (out cn) = OP_0 :: 20 :: h -> length h = 20%nat ->
      ripemd160 (sha256 signed_key) = h.
Proof.
  destruct signed_connected as [r Hc].
  destruct (ConnectBlock_p2wpkh_signed (HS := accepting_verifier) (fun _ => true) (fun _ _ _ _ => true) _ _ _ _ _ _ _ _ _ _ _ _ _ _
    (fun _ => 1) 7 64 [] [] signed_cache "assumevalid=0 (always verify)" ltac:(lia) (List.Forall_nil _) eq_refl Hc)
    as (undos & fees & m' & H & Hall); [by vm_compute|by vm_compute|]. exists undos, fees, m'. split; [exact H|].
  intros spent cn h Hu Hcn Hspk Hl.
  destruct (Hall 0%nat 0%nat signed_spend spent _ cn h eq_refl Hu eq_refl Hcn Hspk Hl) as [Hin|(body & ht & key & sighash & _ & Hw & Hh & _)].
  - exfalso. assert (E : Cuckoo.table (m_script_execution_cache signed_scripts) = [0; 0]) by (vm_compute; reflexivity). rewrite E in Hin.
    revert Hin. match goal with |- ?e ∈ _ -> _ => assert (He : e <> 0) by (vm_compute; discriminate); generalize dependent e end. intros e He Hin.
    apply elem_of_cons in Hin as [H0|H0%list_elem_of_singleton]; exact (He H0).
  - injection Hw as _ <-. exact Hh.
Defined.
