(* ===== verification/Website.v ===== *)
(** * The project website (website/script.js)

    The script registers event listeners once and then reacts to the browser. A page is the mutable part of the document together
    with the listeners, the pending clipboard writes and the pending timers; a closure of the script is a [handler] and the element it was registered
    on ([this]). The browser is a parameter, the class [Document]: selectors, attributes, text and the serialization of style values are
    its functions. Every turn of its event loop is an [event]; a trace of events is any list of them.

    Style values read back are those the browser serializes ([css]); each value the script writes is a valid declaration, so that a write
    replaces the value. JavaScript numbers are dyadic fractions printed by their decimal expansion, which is the shortest
    decimal as long as it has at most 15 digits and lies between 1e-6 and 1e21: the scroll offsets of a page do. *)

From stdpp Require Import strings pretty.
From S2P Require Import Prelude.
#[local] Open Scope Z_scope.

(** ** The browser *)

Abbreviation element := nat (only parsing).

Inductive target := Element (e : element) | Window.

#[export] Instance target_eq_dec : EqDecision target.
Proof. solve_decision. Defined.

(** The outcome of [document.querySelector]: an invalid selector throws. *)
Inductive query := Throws (err : string) | Null | Node (e : element).

Class Document := {
  querySelectorAll : string -> list element;
  querySelector : string -> query;
  getAttribute : element -> string -> option string;
  textContent : element -> string;
  css : string -> string -> string
}.

(** What the script relies on: a node list has no duplicates, and a serialized value is serialized as itself. *)
Class LawfulDocument `{Document} : Prop := {
  querySelectorAll_NoDup : forall s, NoDup (querySelectorAll s);
  css_idem : forall p v, css p (css p v) = css p v
}.

(** The number [num / 2 ^ scale]. *)
Record number := mkNumber { num : Z; scale : nat }.

Definition half (n : number) : number := mkNumber (num n) (S (scale n)).

Fixpoint strip_zeros (l : list Z) : list Z :=
  match l with
  | [] => []
  | d :: l' => match strip_zeros l' with [] => if d =? 0 then [] else [d] | t => d :: t end
  end.
Fixpoint decimals (n : nat) (r : Z) : list Z :=
  match n with O => [] | S n' => decimals n' (r / 10) ++ [r mod 10] end.

Definition toString (n : number) : string :=
  let d := Z.abs (num n) * 5 ^ Z.of_nat (scale n) in
  let q := 10 ^ Z.of_nat (scale n) in
  let frac := strip_zeros (decimals (scale n) (d mod q)) in
  (if num n <? 0 then "-" else EmptyString) +:+ pretty (d / q) +:+
  match frac with [] => EmptyString | _ => "." +:+ foldr (fun x s => pretty x +:+ s) EmptyString frac end.

(** ** The page *)

Inductive handler := on_anchor_click | on_scroll | on_mouseenter | on_mouseleave | on_code_click.

Record listener := mkListener { l_target : target; l_type : string; l_handler : handler }.

(** A restore scheduled by [setTimeout]: when it is due, and what the closure captured. *)
Record timer := mkTimer { due : nat; t_this : element; originalBg : string }.

(** An [await] on the clipboard: the element and the text being written. *)
Record write := mkWrite { w_this : element; w_text : string }.

Record scroll_options := mkScroll { behavior : string; block : string }.
Record observer_options := mkOptions { threshold : Z * Z; rootMargin : string }.

Record page := mkPage {
  style : gmap (element * string) string;
  title : gmap element string;
  listeners : list listener;
  observed : list (element * observer_options);
  timers : list timer;
  writes : list write;
  has_clipboard : bool;
  clipboard : option string;
  pageYOffset : number;
  now : nat;
  defaultPrevented : bool;
  scrolls : list (element * scroll_options);
  console : list (string * string);
  uncaught : list string
}.

Definition get_style (p : page) (e : element) (prop : string) : string := default EmptyString (style p !! (e, prop)).
Abbreviation background p e := (get_style p e "background").

Section script.
Context {HD : Document}.

Definition set_style (e : element) (prop v : string) (p : page) : page :=
  mkPage (<[(e, prop) := css prop v]> (style p)) (title p) (listeners p) (observed p) (timers p) (writes p) (has_clipboard p) (clipboard p)
    (pageYOffset p) (now p) (defaultPrevented p) (scrolls p) (console p) (uncaught p).
Definition set_title (e : element) (v : string) (p : page) : page :=
  mkPage (style p) (<[e := v]> (title p)) (listeners p) (observed p) (timers p) (writes p) (has_clipboard p) (clipboard p)
    (pageYOffset p) (now p) (defaultPrevented p) (scrolls p) (console p) (uncaught p).
Definition addEventListener (t : target) (type : string) (h : handler) (p : page) : page :=
  mkPage (style p) (title p) (listeners p ++ [mkListener t type h]) (observed p) (timers p) (writes p) (has_clipboard p) (clipboard p)
    (pageYOffset p) (now p) (defaultPrevented p) (scrolls p) (console p) (uncaught p).
Definition observe (e : element) (o : observer_options) (p : page) : page :=
  mkPage (style p) (title p) (listeners p) (observed p ++ [(e, o)]) (timers p) (writes p) (has_clipboard p) (clipboard p)
    (pageYOffset p) (now p) (defaultPrevented p) (scrolls p) (console p) (uncaught p).
Definition set_timers (ts : list timer) (p : page) : page :=
  mkPage (style p) (title p) (listeners p) (observed p) ts (writes p) (has_clipboard p) (clipboard p)
    (pageYOffset p) (now p) (defaultPrevented p) (scrolls p) (console p) (uncaught p).
Definition set_writes (ws : list write) (p : page) : page :=
  mkPage (style p) (title p) (listeners p) (observed p) (timers p) ws (has_clipboard p) (clipboard p)
    (pageYOffset p) (now p) (defaultPrevented p) (scrolls p) (console p) (uncaught p).
Definition set_clipboard (s : string) (p : page) : page :=
  mkPage (style p) (title p) (listeners p) (observed p) (timers p) (writes p) (has_clipboard p) (Some s)
    (pageYOffset p) (now p) (defaultPrevented p) (scrolls p) (console p) (uncaught p).
Definition set_prevented (b : bool) (p : page) : page :=
  mkPage (style p) (title p) (listeners p) (observed p) (timers p) (writes p) (has_clipboard p) (clipboard p)
    (pageYOffset p) (now p) b (scrolls p) (console p) (uncaught p).
Definition scrollIntoView (e : element) (o : scroll_options) (p : page) : page :=
  mkPage (style p) (title p) (listeners p) (observed p) (timers p) (writes p) (has_clipboard p) (clipboard p)
    (pageYOffset p) (now p) (defaultPrevented p) (scrolls p ++ [(e, o)]) (console p) (uncaught p).
Definition console_error (msg err : string) (p : page) : page :=
  mkPage (style p) (title p) (listeners p) (observed p) (timers p) (writes p) (has_clipboard p) (clipboard p)
    (pageYOffset p) (now p) (defaultPrevented p) (scrolls p) (console p ++ [(msg, err)]) (uncaught p).
Definition report (err : string) (p : page) : page :=
  mkPage (style p) (title p) (listeners p) (observed p) (timers p) (writes p) (has_clipboard p) (clipboard p)
    (pageYOffset p) (now p) (defaultPrevented p) (scrolls p) (console p) (uncaught p ++ [err]).
Definition set_view (y : number) (t : nat) (p : page) : page :=
  mkPage (style p) (title p) (listeners p) (observed p) (timers p) (writes p) (has_clipboard p) (clipboard p)
    y t (defaultPrevented p) (scrolls p) (console p) (uncaught p).

Definition setTimeout (e : element) (bg : string) (delay : nat) (p : page) : page :=
  set_timers (timers p ++ [mkTimer (now p + delay) e bg]) p.

(** ** The script *)

Definition quote : string := String (Ascii.ascii_of_nat 34) EmptyString.
Definition anchors : string := "a[href^=" +:+ quote +:+ "#" +:+ quote +:+ "]".
Definition highlight : string := "rgba(0, 212, 255, 0.2)".
Definition fade_in : string := "fadeInUp 0.8s ease-out forwards".
Definition lifted : string := "translateY(-10px) scale(1.02)".
Definition lowered : string := "translateY(0) scale(1)".

(** The click on an anchor; [getAttribute] of a missing attribute is [null], which [querySelector] reads as the selector null. *)
Definition anchor_click (this : element) (p : page) : page :=
  let p := set_prevented true p in
  match querySelector (default "null" (getAttribute this "href")) with
  | Throws err => report err p
  | Null => p
  | Node e => scrollIntoView e (mkScroll "smooth" "start") p
  end.

Definition observerOptions : observer_options := mkOptions (1, 10) "0px 0px -100px 0px".

(** The callback of the observer. *)
Definition observer_callback (entries : list (element * bool)) (p : page) : page :=
  fold_left (fun p '(e, isIntersecting) => if (isIntersecting : bool) then set_style e "animation" fade_in p else p) entries p.

Definition parallax (p : page) : page :=
  let scrolled := pageYOffset p in
  match querySelector ".hero-bg" with
  | Throws err => report err p
  | Null => p
  | Node heroBg => set_style heroBg "transform" ("translateY(" +:+ toString (half scrolled) +:+ "px)") p
  end.

Definition card_enter (this : element) (p : page) : page := set_style this "transform" lifted p.
Definition card_leave (this : element) (p : page) : page := set_style this "transform" lowered p.

(** [catch (err)] of the copy handler. *)
Definition copy_failed (err : string) (p : page) : page := console_error "Failed to copy:" err p.

(** The click on a code block up to its [await]. Without a clipboard (a page that is not served securely) the member access throws. *)
Definition code_click (this : element) (p : page) : page :=
  let text := textContent this in
  if has_clipboard p then set_writes (writes p ++ [mkWrite this text]) p else copy_failed "TypeError" p.

(** The continuation of the [await]. *)
Definition copy_done (this : element) (p : page) : page :=
  let bg := get_style p this "background" in
  let p := set_style this "background" highlight p in
  setTimeout this bg 200 p.

(** The closure given to [setTimeout]. *)
Definition restore (t : timer) (p : page) : page := set_style (t_this t) "background" (originalBg t) p.

Definition register_anchors (p : page) : page :=
  fold_left (fun p e => addEventListener (Element e) "click" on_anchor_click p) (querySelectorAll anchors) p.
Definition observe_sections (p : page) : page := fold_left (fun p e => observe e observerOptions p) (querySelectorAll "section") p.
Definition register_parallax (p : page) : page := addEventListener Window "scroll" on_scroll p.
Definition register_cards (p : page) : page :=
  fold_left (fun p e => addEventListener (Element e) "mouseleave" on_mouseleave
                          (addEventListener (Element e) "mouseenter" on_mouseenter p)) (querySelectorAll ".feature-card") p.
Definition register_code (p : page) : page :=
  fold_left (fun p e => addEventListener (Element e) "click" on_code_click
                          (set_title e "Click to copy" (set_style e "cursor" "pointer" p))) (querySelectorAll "code") p.

(** The whole script, run once when the page loads. *)
Definition script (p : page) : page :=
  register_code (register_cards (register_parallax (observe_sections (register_anchors p)))).

(** ** The event loop *)

Definition call (h : handler) (t : target) (p : page) : page :=
  match h, t with
  | on_anchor_click, Element e => anchor_click e p
  | on_scroll, _ => parallax p
  | on_mouseenter, Element e => card_enter e p
  | on_mouseleave, Element e => card_leave e p
  | on_code_click, Element e => code_click e p
  | _, Window => p
  end.

(** The listeners of a target for a type, in the order of registration. *)
Definition listeners_of (p : page) (t : target) (type : string) : list handler :=
  l_handler <$> filter (fun l => l_target l = t /\ l_type l = type) (listeners p).

(** An event runs the listeners of every target of its path, from the innermost out. *)
Definition dispatch (type : string) (path : list target) (p : page) : page :=
  fold_left (fun p t => fold_left (fun p h => call h t p) (listeners_of p t type) p) path (set_prevented false p).

Inductive event :=
  | Dispatch (type : string) (path : list target)
  | Intersections (entries : list (element * bool))
  | Resolved (i : nat)
  | Rejected (i : nat) (err : string)
  | Scroll (y : number)
  | Wait (ms : nat)
  | TimerTask.

Definition step (p : page) (ev : event) : page :=
  match ev with
  | Dispatch type path => dispatch type path p
  | Intersections entries => observer_callback entries p
  | Resolved i =>
      match writes p !! i with
      | Some w => copy_done (w_this w) (set_clipboard (w_text w) (set_writes (delete i (writes p)) p))
      | None => p
      end
  | Rejected i err =>
      match writes p !! i with
      | Some w => copy_failed err (set_writes (delete i (writes p)) p)
      | None => p
      end
  | Scroll y => set_view y (now p) p
  | Wait ms => set_view (pageYOffset p) (now p + ms) p
  | TimerTask =>
      match timers p with
      | t :: ts => if (due t <=? now p)%nat then restore t (set_timers ts p) else p
      | [] => p
      end
  end.

Definition run (p : page) (evs : list event) : page := fold_left step evs p.

(** ** Frames

    Handlers write only the styles and queues of their own feature. *)

(** The part of a page that no listener changes. *)
Definition frame (p : page) : list timer * list listener * bool * option string * nat * number :=
  (timers p, listeners p, has_clipboard p, clipboard p, now p, pageYOffset p).

Lemma get_set_style (e e' : element) (prop prop' v : string) (p : page) :
  get_style (set_style e prop v p) e' prop' = if decide (e = e' /\ prop = prop') then css prop v else get_style p e' prop'.
Proof.
  unfold get_style, set_style; cbn [style]. case_decide as D; [destruct D as [-> ->]; by rewrite lookup_insert_eq|].
  rewrite lookup_insert_ne; [done|]. intros [=]. tauto.
Qed.

Lemma call_frame (h : handler) (t : target) (p : page) : frame (call h t p) = frame p.
Proof.
  destruct h, t; cbn; try done; unfold anchor_click, parallax, code_click; repeat case_match; done.
Qed.

Lemma call_style (h : handler) (t : target) (p : page) (e : element) (prop : string) :
  prop <> "transform" -> get_style (call h t p) e prop = get_style p e prop.
Proof.
  intros Hp. destruct h, t; cbn; try done; unfold anchor_click, parallax, card_enter, card_leave, code_click;
    repeat case_match; try done; rewrite get_set_style; by rewrite decide_False by naive_solver.
Qed.

(** What every listener preserves, an event preserves. *)
Lemma dispatch_ind (P : page -> Prop) (type : string) (path : list target) (p : page) :
  P (set_prevented false p) -> (forall h t q, P q -> P (call h t q)) -> P (dispatch type path p).
Proof.
  intros H0 Hc. unfold dispatch. revert H0. generalize (set_prevented false p). induction path as [|t path IH]; intros q Hq; [done|].
  cbn. apply IH. generalize (listeners_of q t type). intros hs. revert q Hq.
  induction hs as [|h hs IHh]; intros q Hq; [done|]. cbn. apply IHh. by apply Hc.
Qed.

Lemma dispatch_frame (type : string) (path : list target) (p : page) : frame (dispatch type path p) = frame p.
Proof. apply (dispatch_ind (fun q => frame q = frame p)); [done|]. intros h t q <-. apply call_frame. Qed.

Lemma dispatch_style (type : string) (path : list target) (p : page) (e : element) (prop : string) :
  prop <> "transform" -> get_style (dispatch type path p) e prop = get_style p e prop.
Proof.
  intros Hp. apply (dispatch_ind (fun q => get_style q e prop = get_style p e prop)); [done|]. intros h t q <-. by apply call_style.
Qed.

Lemma callback_frame (entries : list (element * bool)) (p : page) : frame (observer_callback entries p) = frame p.
Proof.
  unfold observer_callback. revert p. induction entries as [|[e []] es IH]; intros p; cbn; [done|rewrite IH; done|apply IH].
Qed.

(** The observer writes the animation of the elements that came into view, and nothing else. *)
Lemma callback_style (entries : list (element * bool)) (p : page) (e : element) (prop : string) :
  get_style (observer_callback entries p) e prop
  = if decide (prop = "animation" /\ (e, true) ∈ entries) then css "animation" fade_in else get_style p e prop.
Proof.
  unfold observer_callback. revert p. induction entries as [|[e' b] es IH]; intros p; cbn.
  - rewrite decide_False; [done|]. set_solver.
  - rewrite IH. destruct b; [rewrite get_set_style|]; repeat case_decide; try done; set_solver.
Qed.

(** No event removes or adds a listener. *)
Lemma step_listeners (p : page) (ev : event) : listeners (step p ev) = listeners p.
Proof.
  destruct ev; cbn; try done.
  - pose proof (dispatch_frame type path p) as E. by injection E.
  - pose proof (callback_frame entries p) as E. by injection E.
  - by case_match.
  - by case_match.
  - repeat case_match; done.
Qed.

Lemma run_listeners (p : page) (evs : list event) : listeners (run p evs) = listeners p.
Proof.
  revert p. induction evs as [|ev evs IH]; intros p; [done|]. change (run p (ev :: evs)) with (run (step p ev) evs).
  by rewrite IH, step_listeners.
Qed.


Lemma run_app (p : page) (l1 l2 : list event) : run p (l1 ++ l2) = run (run p l1) l2.
Proof. apply fold_left_app. Qed.

(** ** The listeners of the script *)

Lemma fold_listeners {A : Type} (f : page -> A -> page) (g : A -> list listener) (l : list A) (p : page) :
  (forall q a, listeners (f q a) = listeners q ++ g a) -> listeners (fold_left f l p) = listeners p ++ concat (map g l).
Proof.
  intros Hf. revert p. induction l as [|a l IH]; intros p; cbn; [by rewrite app_nil_r|]. by rewrite IH, Hf, app_assoc.
Qed.

Definition on (type : string) (h : handler) (e : element) : list listener := [mkListener (Element e) type h].

Lemma script_listeners (p : page) :
  listeners (script p) = listeners p ++ concat (map (on "click" on_anchor_click) (querySelectorAll anchors))
    ++ [mkListener Window "scroll" on_scroll]
    ++ concat (map (fun e => on "mouseenter" on_mouseenter e ++ on "mouseleave" on_mouseleave e) (querySelectorAll ".feature-card"))
    ++ concat (map (on "click" on_code_click) (querySelectorAll "code")).
Proof.
  unfold script, register_code. rewrite (fold_listeners _ (on "click" on_code_click)) by done.
  unfold register_cards.
  rewrite (fold_listeners _ (fun e => on "mouseenter" on_mouseenter e ++ on "mouseleave" on_mouseleave e))
    by (intros; cbn; by rewrite <- app_assoc).
  unfold register_parallax, addEventListener, observe_sections; cbn [listeners].
  rewrite (fold_listeners _ (fun _ => [])) by (intros; cbn; by rewrite app_nil_r).
  unfold register_anchors. rewrite (fold_listeners _ (on "click" on_anchor_click)) by done.
  assert (Hn : forall l : list element, concat (map (fun _ => [] : list listener) l) = []) by (by intros l; induction l).
  by rewrite Hn, app_nil_r, <- !app_assoc.
Qed.

(** When a handler runs. *)
Definition registered (t : target) (type : string) (h : handler) : Prop :=
  match h with
  | on_anchor_click => type = "click" /\ exists e, t = Element e /\ e ∈ querySelectorAll anchors
  | on_scroll => type = "scroll" /\ t = Window
  | on_mouseenter => type = "mouseenter" /\ exists e, t = Element e /\ e ∈ querySelectorAll ".feature-card"
  | on_mouseleave => type = "mouseleave" /\ exists e, t = Element e /\ e ∈ querySelectorAll ".feature-card"
  | on_code_click => type = "click" /\ exists e, t = Element e /\ e ∈ querySelectorAll "code"
  end.

Lemma elem_of_concat_map {A B : Type} (f : A -> list B) (l : list A) (x : B) :
  x ∈ concat (map f l) <-> exists a, a ∈ l /\ x ∈ f a.
Proof.
  induction l as [|a l IH]; cbn; [set_solver|]. rewrite elem_of_app, IH. set_solver.
Qed.

Lemma elem_of_listeners (p0 : page) (evs : list event) (t : target) (type : string) (h : handler) :
  listeners p0 = [] -> h ∈ listeners_of (run (script p0) evs) t type <-> registered t type h.
Proof.
  intros H0. unfold listeners_of. rewrite run_listeners, script_listeners, H0, app_nil_l, list_elem_of_fmap.
  setoid_rewrite list_elem_of_filter. repeat setoid_rewrite elem_of_app. repeat setoid_rewrite elem_of_concat_map. unfold on.
  repeat setoid_rewrite elem_of_app. repeat setoid_rewrite list_elem_of_singleton.
  split.
  - intros (l & -> & [Ht Hty] & [(e & He & ->)|[->|[(e & He & [-> | ->])|(e & He & ->)]]]); cbn in *; subst; eauto.
  - destruct h; cbn; [intros [-> (e & -> & He)]|intros [-> ->]|intros [-> (e & -> & He)]..];
      [eexists (mkListener (Element e) "click" on_anchor_click)|eexists (mkListener Window "scroll" on_scroll)
      |eexists (mkListener (Element e) "mouseenter" on_mouseenter)|eexists (mkListener (Element e) "mouseleave" on_mouseleave)
      |eexists (mkListener (Element e) "click" on_code_click)]; cbn; naive_solver.
Qed.

(** An event is one pass over the listeners of its path. *)
Definition calls (p : page) (type : string) (path : list target) : list (target * handler) :=
  concat (map (fun t => pair t <$> listeners_of p t type) path).

Lemma dispatch_calls (type : string) (path : list target) (p : page) :
  dispatch type path p = fold_left (fun q '(t, h) => call h t q) (calls p type path) (set_prevented false p).
Proof.
  unfold dispatch, calls. change (listeners_of p) with (listeners_of (set_prevented false p)).
  generalize (set_prevented false p). clear p. intros p. induction path as [|t path IH] in p |- *; [done|].
  cbn. rewrite fold_left_app.
  assert (E : forall hs q, fold_left (fun q '(t, h) => call h t q) (pair t <$> hs) q = fold_left (fun q h => call h t q) hs q)
    by (intros hs; induction hs as [|h hs IHh]; intros q; [done|apply IHh]).
  rewrite E, IH. f_equal. f_equal. apply map_ext. intros t'. unfold listeners_of.
  assert (L : forall hs q, listeners (fold_left (fun q h => call h t q) hs q) = listeners q).
  { intros hs; induction hs as [|h hs IHh]; intros q; cbn; [done|]. rewrite IHh. by injection (call_frame h t q). }
  by rewrite L.
Qed.

Lemma elem_of_calls (p0 : page) (evs : list event) (type : string) (path : list target) (t : target) (h : handler) :
  listeners p0 = [] -> (t, h) ∈ calls (run (script p0) evs) type path <-> t ∈ path /\ registered t type h.
Proof.
  intros H0. unfold calls. rewrite elem_of_concat_map. setoid_rewrite list_elem_of_fmap. split.
  - intros (t' & Ht & h' & [= <- <-] & Hh). split; [done|]. by apply (elem_of_listeners p0 evs t type h H0).
  - intros [Ht Hr]. exists t. split; [done|]. exists h. split; [done|]. by apply (elem_of_listeners p0 evs t type h H0).
Qed.

(** ** What the visitor sees

    The look of one element as a function of the events alone: its transform follows the last hover or scroll, its animation
    starts when it first comes into view. *)

Record view := mkView { v_offset : number; v_transform : string; v_animation : string }.

Definition shift (y : number) : string := css "transform" ("translateY(" +:+ toString (half y) +:+ "px)").

Definition new_transform (e : element) (y : number) (type : string) (path : list target) : option string :=
  if decide (type = "mouseenter" /\ Element e ∈ path /\ e ∈ querySelectorAll ".feature-card") then Some (css "transform" lifted)
  else if decide (type = "mouseleave" /\ Element e ∈ path /\ e ∈ querySelectorAll ".feature-card") then Some (css "transform" lowered)
  else if decide (type = "scroll" /\ Window ∈ path) then
    match querySelector ".hero-bg" with Node e' => if decide (e' = e) then Some (shift y) else None | _ => None end
  else None.

Definition view_step (e : element) (v : view) (ev : event) : view :=
  match ev with
  | Dispatch type path =>
      mkView (v_offset v) (default (v_transform v) (new_transform e (v_offset v) type path)) (v_animation v)
  | Intersections entries =>
      mkView (v_offset v) (v_transform v) (if decide ((e, true) ∈ entries) then css "animation" fade_in else v_animation v)
  | Scroll y => mkView y (v_transform v) (v_animation v)
  | _ => v
  end.

Definition look (e : element) (p : page) : view := mkView (pageYOffset p) (get_style p e "transform") (get_style p e "animation").

(** The transform that one call writes. *)
Definition call_writes (e : element) (y : number) (c : target * handler) : option string :=
  match c with
  | (_, on_scroll) => match querySelector ".hero-bg" with Node e' => if decide (e' = e) then Some (shift y) else None | _ => None end
  | (t, on_mouseenter) => if decide (t = Element e) then Some (css "transform" lifted) else None
  | (t, on_mouseleave) => if decide (t = Element e) then Some (css "transform" lowered) else None
  | _ => None
  end.

Lemma call_transform (e : element) (c : target * handler) (p : page) :
  get_style (call (snd c) (fst c) p) e "transform" = default (get_style p e "transform") (call_writes e (pageYOffset p) c).
Proof.
  destruct c as [t h]. destruct h, t; cbn; try done; unfold anchor_click, parallax, card_enter, card_leave, code_click, shift;
    [by destruct (querySelector _)|destruct (querySelector _)..|rewrite get_set_style|rewrite get_set_style|by destruct (has_clipboard p)];
    try done; try rewrite get_set_style; repeat case_decide; naive_solver.
Qed.

Lemma last_unique {A : Type} (l : list A) (o : option A) : (forall x, x ∈ l <-> o = Some x) -> last l = o.
Proof.
  intros Hl. destruct (last l) as [x|] eqn:E.
  - symmetry. apply Hl. apply last_Some in E as [l' ->]. set_solver.
  - apply last_None in E as ->. destruct o as [x|]; [|done]. exfalso. apply (not_elem_of_nil x), Hl. done.
Qed.

Lemma calls_transform (e : element) (cs : list (target * handler)) (p : page) :
  get_style (fold_left (fun q '(t, h) => call h t q) cs p) e "transform"
  = default (get_style p e "transform") (last (omap (call_writes e (pageYOffset p)) cs)).
Proof.
  induction cs as [|c cs IH] using rev_ind; [done|]. rewrite fold_left_app, omap_app. cbn [fold_left].
  destruct c as [t h] eqn:Ec. rewrite <- Ec.
  assert (Y : forall l, pageYOffset (fold_left (fun q '(t, h) => call h t q) l p) = pageYOffset p).
  { intros l. induction l as [|[t' h'] l IHl] using rev_ind; [done|]. rewrite fold_left_app. cbn [fold_left].
    pose proof (call_frame h' t' (fold_left (fun q '(t, h) => call h t q) l p)) as F. injection F as _ _ _ _ _ F. by rewrite F. }
  pose proof (call_transform e c (fold_left (fun q '(t, h) => call h t q) cs p)) as Hc. subst c. cbn [fst snd] in Hc.
  rewrite Hc, IH, Y. unfold omap at 3; cbn [list_omap].
  destruct (call_writes e (pageYOffset p) (t, h)); [by rewrite last_snoc|by rewrite app_nil_r].
Qed.

Lemma new_transform_calls (p0 : page) (evs : list event) (e : element) (y : number) (type : string) (path : list target) :
  listeners p0 = [] ->
  last (omap (call_writes e y) (calls (run (script p0) evs) type path)) = new_transform e y type path.
Proof.
  intros H0. apply last_unique. intros x. rewrite list_elem_of_omap. split.
  - intros ([t h] & Hc & Hw). apply (elem_of_calls p0 evs _ _ _ _ H0) in Hc as [Ht Hr]. unfold new_transform.
    destruct h; cbn in Hr, Hw; destruct Hr as [-> Hr]; try discriminate.
    + subst t. rewrite (decide_False (P := "scroll" = "mouseenter" /\ _)), (decide_False (P := "scroll" = "mouseleave" /\ _)) by naive_solver.
      by rewrite decide_True.
    + destruct Hr as (e' & -> & He). case_decide; [|discriminate]. rewrite decide_True by naive_solver. done.
    + destruct Hr as (e' & -> & He). case_decide; [|discriminate].
      rewrite (decide_False (P := "mouseleave" = "mouseenter" /\ _)), decide_True by naive_solver. done.
  - unfold new_transform. intros E. repeat case_decide; try discriminate.
    + exists (Element e, on_mouseenter). split; [apply (elem_of_calls p0 evs _ _ _ _ H0); cbn; naive_solver|]. cbn. by rewrite decide_True.
    + exists (Element e, on_mouseleave). split; [apply (elem_of_calls p0 evs _ _ _ _ H0); cbn; naive_solver|]. cbn. by rewrite decide_True.
    + exists (Window, on_scroll). split; [apply (elem_of_calls p0 evs _ _ _ _ H0); cbn; naive_solver|]. done.
Qed.

Lemma look_step (p0 : page) (evs : list event) (e : element) (ev : event) :
  listeners p0 = [] -> look e (step (run (script p0) evs) ev) = view_step e (look e (run (script p0) evs)) ev.
Proof.
  intros H0. set (p := run (script p0) evs). destruct ev; cbn [step view_step]; unfold look; cbn [v_offset v_transform v_animation].
  - pose proof (dispatch_frame type path p) as F. injection F as _ _ _ _ _ ->. rewrite (dispatch_style _ _ _ _ "animation") by done.
    rewrite dispatch_calls, calls_transform. cbn [pageYOffset set_prevented].
    unfold p at 2. rewrite (new_transform_calls p0 evs) by done. done.
  - pose proof (callback_frame entries p) as F. injection F as _ _ _ _ _ ->. rewrite !callback_style.
    rewrite (decide_False (P := "transform" = _ /\ _)) by naive_solver.
    destruct (decide ((e, true) ∈ entries)); [by rewrite decide_True|rewrite decide_False by naive_solver; done].
  - case_match; [|done]. unfold copy_done, setTimeout. cbn. unfold get_style; cbn. by rewrite !lookup_insert_ne by naive_solver.
  - by case_match.
  - done.
  - done.
  - repeat case_match; try done. cbn. unfold get_style; cbn. by rewrite !lookup_insert_ne by naive_solver.
Qed.

Lemma look_run (p0 : page) (evs : list event) (e : element) :
  listeners p0 = [] -> look e (run (script p0) evs) = fold_left (view_step e) evs (look e (script p0)).
Proof.
  intros H0. induction evs as [|ev evs IH] using rev_ind; [done|]. rewrite run_app, fold_left_app. cbn [fold_left].
  change (run ?q [ev]) with (step q ev). by rewrite look_step, IH.
Qed.

(** What registration leaves alone, the script leaves alone. *)
Lemma fold_obs {A B : Type} (obs : page -> B) (f : page -> A -> page) (l : list A) (p : page) :
  (forall q a, obs (f q a) = obs q) -> obs (fold_left f l p) = obs p.
Proof. intros Hf. revert p. induction l as [|a l IH]; intros p; cbn; [done|]. by rewrite IH, Hf. Qed.

Lemma script_obs {B : Type} (obs : page -> B) (p : page) :
  (forall t type h q, obs (addEventListener t type h q) = obs q) -> (forall e o q, obs (observe e o q) = obs q) ->
  (forall e v q, obs (set_title e v q) = obs q) -> (forall e q, obs (set_style e "cursor" "pointer" q) = obs q) ->
  obs (script p) = obs p.
Proof.
  intros H1 H2 H3 H4. unfold script, register_code, register_cards, register_parallax, observe_sections, register_anchors.
  rewrite (fold_obs obs) by (intros; by rewrite H1, H3, H4). rewrite (fold_obs obs) by (intros; by rewrite !H1).
  rewrite H1, (fold_obs obs) by (intros; apply H2). by rewrite (fold_obs obs) by (intros; apply H1).
Qed.

Lemma script_style (p : page) (e : element) (prop : string) : prop <> "cursor" -> get_style (script p) e prop = get_style p e prop.
Proof.
  intros Hp. apply (script_obs (fun q => get_style q e prop)); try done. intros a q. rewrite get_set_style. by rewrite decide_False by naive_solver.
Qed.

Lemma look_script (p : page) (e : element) : look e (script p) = look e p.
Proof. unfold look. rewrite !script_style by done. f_equal. by apply (script_obs pageYOffset). Qed.

(** ** Copying *)

Lemma filter_on (type type' : string) (h : handler) (l : list element) (e : element) :
  NoDup l -> filter (fun x => l_target x = Element e /\ l_type x = type) (concat (map (on type' h) l))
             = if decide (type = type' /\ e ∈ l) then on type h e else [].
Proof.
  induction 1 as [|a l Ha _ IH]; cbn [map concat]; [rewrite decide_False by set_solver; done|].
  unfold on at 1. rewrite filter_app, IH. destruct (decide (type = type' /\ a = e)) as [[-> ->]|Hne].
  - rewrite filter_cons_True, filter_nil by done. rewrite decide_False by tauto. rewrite decide_True by (split; [done|left]). done.
  - rewrite filter_cons_False by (cbn; naive_solver). rewrite filter_nil, app_nil_l. repeat case_decide; set_solver.
Qed.

(** The listeners that a click on an element runs, each at most once. *)
Lemma click_listeners {HL : LawfulDocument} (p0 : page) (evs : list event) (e : element) :
  listeners p0 = [] ->
  listeners_of (run (script p0) evs) (Element e) "click"
  = (if decide (e ∈ querySelectorAll anchors) then [on_anchor_click] else [])
    ++ (if decide (e ∈ querySelectorAll "code") then [on_code_click] else []).
Proof.
  intros H0. unfold listeners_of. rewrite run_listeners, script_listeners, H0, app_nil_l, !filter_app.
  rewrite !filter_on by apply querySelectorAll_NoDup. rewrite (filter_none _ [_]) by (repeat constructor; cbn; naive_solver).
  rewrite (filter_none _ (concat (map (fun e => _ ++ _) _))).
  2: { apply Forall_forall. intros l Hl. apply elem_of_concat_map in Hl as (a & _ & Hl). unfold on in Hl. cbn in Hl.
       intros [_ E]. rewrite !elem_of_cons, elem_of_nil in Hl. naive_solver. }
  rewrite !app_nil_l, fmap_app. f_equal; repeat case_decide; try done; tauto.
Qed.

Definition click (e : element) : event := Dispatch "click" [Element e].

Lemma click_calls (p : page) (e : element) :
  step p (click e) = fold_left (fun q h => call h (Element e) q) (listeners_of p (Element e) "click") (set_prevented false p).
Proof. done. Qed.

Lemma step_has_clipboard (p : page) (ev : event) : has_clipboard (step p ev) = has_clipboard p.
Proof.
  destruct ev; cbn; try done.
  - pose proof (dispatch_frame type path p) as E. by injection E.
  - pose proof (callback_frame entries p) as E. by injection E.
  - by case_match.
  - by case_match.
  - repeat case_match; done.
Qed.

Lemma run_has_clipboard (p : page) (evs : list event) : has_clipboard (run p evs) = has_clipboard p.
Proof.
  induction evs as [|ev evs IH] using rev_ind; [done|]. rewrite run_app. change (run ?q [ev]) with (step q ev).
  by rewrite step_has_clipboard.
Qed.

(** The values that the pending timers of an element will restore, first to last. *)
Definition restores (p : page) (e : element) : list string := originalBg <$> filter (fun t => t_this t = e) (timers p).

(** The background and the pending restores of an element under one event. *)
Definition copy_step (e : element) (p : page) (ev : event) : list string * string :=
  match ev with
  | Resolved i =>
      match writes p !! i with
      | Some w => if decide (w_this w = e) then (restores p e ++ [background p e], css "background" highlight)
                  else (restores p e, background p e)
      | None => (restores p e, background p e)
      end
  | TimerTask =>
      match timers p with
      | t :: ts => if decide ((due t <= now p)%nat /\ t_this t = e) then (tail (restores p e), css "background" (originalBg t))
                   else (restores p e, background p e)
      | [] => (restores p e, background p e)
      end
  | _ => (restores p e, background p e)
  end.

Lemma step_copy (e : element) (p : page) (ev : event) :
  (restores (step p ev) e, background (step p ev) e) = copy_step e p ev.
Proof.
  unfold restores. destruct ev; cbn [step copy_step]; try done.
  - pose proof (dispatch_frame type path p) as F. injection F as -> _ _ _ _ _. by rewrite dispatch_style.
  - pose proof (callback_frame entries p) as F. injection F as -> _ _ _ _ _.
    rewrite callback_style, decide_False by naive_solver. done.
  - destruct (writes p !! i) as [w|]; [|done]. unfold copy_done, setTimeout. cbn [timers set_timers set_style set_clipboard set_writes].
    change (get_style (set_timers _ (set_style ?a ?b ?c ?q)) e "background") with (get_style (set_style a b c q) e "background").
    rewrite get_set_style, filter_app. unfold restores. case_decide as D.
    + destruct D as [-> _]. rewrite filter_cons_True, decide_True by done. by rewrite filter_nil, fmap_app.
    + rewrite filter_cons_False, filter_nil, app_nil_r, decide_False by (cbn; tauto). done.
  - by case_match.
  - destruct (timers p) as [|t ts] eqn:E; [unfold restores; by rewrite ?E|]. destruct (Nat.leb_spec (due t) (now p)) as [Hd|Hd].
    + unfold restore. rewrite get_set_style. cbn [timers set_style set_timers]. unfold restores. rewrite E. case_decide as D.
      * destruct D as [<- _]. rewrite decide_True, filter_cons_True by done. done.
      * rewrite decide_False, filter_cons_False by tauto. done.
    + rewrite decide_False by lia. unfold restores. by rewrite ?E.
Qed.



(** A copy of the element completes while an earlier highlight is still to be taken back. *)
Definition overlaps (e : element) (p : page) (ev : event) : bool :=
  match ev with
  | Resolved i => match writes p !! i with Some w => bool_decide (w_this w = e) && negb (bool_decide (restores p e = [])) | None => false end
  | _ => false
  end.

Fixpoint spaced (e : element) (p : page) (evs : list event) : bool :=
  match evs with [] => true | ev :: evs' => negb (overlaps e p ev) && spaced e (step p ev) evs' end.

(** Spaced copies alternate between the two looks of the element. *)
Lemma spaced_two_states (e : element) (b0 : string) (p : page) (evs : list event) :
  css "background" b0 = b0 -> spaced e p evs = true ->
  let ok q := (restores q e = [] /\ background q e = b0) \/ (restores q e = [b0] /\ background q e = css "background" highlight) in
  ok p -> ok (run p evs).
Proof.
  intros Hb Hs ok. revert p Hs. induction evs as [|ev evs IH]; intros p Hs Hok; [done|].
  cbn [spaced] in Hs. apply andb_prop in Hs as [Ho Hs]. apply IH; [done|]. clear IH Hs evs.
  pose proof (step_copy e p ev) as E. unfold ok in *.
  pose proof (f_equal fst E) as E1. pose proof (f_equal snd E) as E2. cbn [fst snd] in E1, E2. revert E1 E2.
  destruct ev; cbn [copy_step fst snd overlaps] in *; try (intros -> ->; done).
  - destruct (writes p !! i) as [w|]; [|intros -> ->; done]. case_decide; [|intros -> ->; done].
    rewrite bool_decide_true in Ho by done. case_bool_decide as Hn; [|done]. rewrite Hn. intros -> ->. cbn.
    destruct Hok as [[_ ->]|[Hc _]]; [by right|congruence].
  - destruct (timers p) as [|t ts] eqn:Et; [intros -> ->; done|]. case_decide as D; [|intros -> ->; done].
    destruct D as [_ D]. assert (Hr : restores p e = originalBg t :: (originalBg <$> filter (fun t => t_this t = e) ts))
      by (unfold restores; by rewrite Et, filter_cons_True).
    intros -> ->. destruct Hok as [[Hc _]|[Hc _]]; rewrite Hc in Hr; [done|]. injection Hr as <- _. rewrite Hc, Hb. by left.
Qed.

(** When all timers are due, running them leaves each element with the value of its last restore. *)
Lemma run_timers (e : element) (p : page) :
  Forall (fun t => due t <= now p)%nat (timers p) ->
  let q := run p (repeat TimerTask (length (timers p))) in
  timers q = [] /\ background q e = default (background p e) (css "background" <$> last (restores p e)).
Proof.
  remember (timers p) as ts eqn:Ets. revert p Ets. induction ts as [|t ts IH]; intros p Ets Hd.
  - split; [done|]. unfold restores. by rewrite <- Ets.
  - apply Forall_cons in Hd as [Hdt Hd]. cbn [length repeat].
    change (run p (TimerTask :: ?l)) with (run (step p TimerTask) l). unfold step. rewrite <- Ets, (proj2 (Nat.leb_le _ _)) by done.
    destruct (IH (restore t (set_timers ts p)) eq_refl Hd) as [-> ->]. split; [done|].
    unfold restores. rewrite <- Ets. cbn [restore set_style set_timers timers]. unfold restore. rewrite get_set_style.
    destruct (decide (t_this t = e)) as [D|D].
    + rewrite filter_cons_True, (decide_True (P := _ /\ _)) by done. cbn [fmap list_fmap].
      rewrite last_cons. by destruct (last _).
    + rewrite filter_cons_False, decide_False by tauto. done.
Qed.

(** Timers are due at most 200 ms from now. *)
Lemma timers_due (p : page) (evs : list event) :
  timers p = [] -> Forall (fun t => due t <= now (run p evs) + 200)%nat (timers (run p evs)).
Proof.
  intros H0. induction evs as [|ev evs IH] using rev_ind; [cbn; by rewrite H0|]. rewrite run_app. change (run ?q [ev]) with (step q ev).
  revert IH. generalize (run p evs). clear p H0 evs. intros p IH. destruct ev; cbn; try done.
  - pose proof (dispatch_frame type path p) as F. injection F as -> _ _ _ -> _. done.
  - pose proof (callback_frame entries p) as F. injection F as -> _ _ _ -> _. done.
  - case_match; [|done]. cbn. apply Forall_app. split; [done|]. by repeat constructor.
  - by case_match.
  - eapply Forall_impl; [exact IH|]. cbn. lia.
  - destruct (timers p) as [|t ts] eqn:Et; [by rewrite Et|]. apply Forall_cons in IH as [Ht IH].
    case_match; cbn; [done|rewrite Et; by constructor].
Qed.

Lemma script_queues (p : page) : timers (script p) = timers p /\ writes (script p) = writes p /\ has_clipboard (script p) = has_clipboard p.
Proof. split; [|split]; [apply (script_obs timers)|apply (script_obs writes)|apply (script_obs has_clipboard)]; done. Qed.

Lemma restores_script (p : page) (e : element) : restores (script p) e = restores p e.
Proof. unfold restores. by rewrite (proj1 (script_queues p)). Qed.

(** A click on a code block, on the queues and the style. *)
Lemma click_code {HL : LawfulDocument} (p0 : page) (evs : list event) (e : element) :
  listeners p0 = [] -> e ∈ querySelectorAll "code" ->
  let p := run (script p0) evs in
  let q := step p (click e) in
  style q = style p /\ timers q = timers p /\ clipboard q = clipboard p /\
  if has_clipboard p0 then writes q = writes p ++ [mkWrite e (textContent e)] /\ console q = console p
  else writes q = writes p /\ console q = console p ++ [("Failed to copy:", "TypeError")].
Proof.
  intros H0 He p q. unfold q. pose proof (click_listeners p0 evs e H0) as L. fold p in L.
  rewrite click_calls, L, (decide_True (P := e ∈ querySelectorAll "code")) by done.
  assert (Hc : has_clipboard p = has_clipboard p0) by (unfold p; by rewrite run_has_clipboard, (proj2 (proj2 (script_queues p0)))).
  clearbody p. case_decide; cbn; unfold code_click, anchor_click; [destruct (querySelector _)|]; cbn; rewrite Hc; by destruct (has_clipboard p0).
Qed.



End script.

(** ** Properties *)

(** A page before the script has run. *)
Definition fresh (p : page) : Prop := listeners p = [] /\ timers p = [] /\ writes p = [].

(** C6: at every moment after loading, whatever the browser does, each element looks as the events say: the transform is the one of the last
    hover of a card or the last scroll of the hero background (half the scroll offset), and the animation is set exactly by coming into view. *)
Theorem script_refines_view {HD : Document} (p0 : page) (evs : list event) (e : element) :
  listeners p0 = [] -> look e (run (script p0) evs) = fold_left (view_step e) evs (look e p0).
Proof. intros H0. by rewrite look_run, look_script. Qed.

(** C34: as long as no copy of a code block completes while its highlight is shown, the highlight is always taken back: once
    200 ms have passed and the timers have run, none is pending and the block has its original background. *)
Theorem spaced_copies_restore {HD : Document} (p0 : page) (evs : list event) (e : element) :
  fresh p0 -> css "background" (background p0 e) = background p0 e -> spaced e (script p0) evs = true ->
  let p := run (script p0) evs in
  let q := run p (Wait 200 :: repeat TimerTask (length (timers p))) in
  timers q = [] /\ background q e = background p0 e.
Proof.
  intros (Hl & Ht & Hw) Hb Hs p q.
  assert (H0 : restores (script p0) e = [] /\ background (script p0) e = background p0 e)
    by (rewrite restores_script, script_style by done; unfold restores; by rewrite Ht).
  pose proof (spaced_two_states e _ (script p0) evs Hb Hs (or_introl H0)) as Hok. fold p in Hok.
  pose proof (timers_due (script p0) evs (eq_trans (proj1 (script_queues p0)) Ht)) as Hd. fold p in Hd.
  destruct (run_timers e (step p (Wait 200)) Hd) as [E1 E2]. unfold q. change (run p (?x :: ?l)) with (run (step p x) l).
  split; [done|]. change (timers (step p (Wait 200))) with (timers p) in E2. rewrite E2. change (restores (step p (Wait 200)) e) with (restores p e).
  change (background (step p (Wait 200)) e) with (background p e). by destruct Hok as [[-> ->]|[-> ->]].
Qed.


(** Clicking a code block starts one write of its text and changes nothing else; when the write succeeds the clipboard holds the text, and when
    it fails, or the page has no clipboard, the page is left as it was and the failure is logged once. *)
Theorem code_click_copies {HD : Document} {HL : LawfulDocument} (p0 : page) (evs : list event) (e : element) :
  listeners p0 = [] -> e ∈ querySelectorAll "code" ->
  let p := run (script p0) evs in
  let q := step p (click e) in
  if has_clipboard p0 then
    writes q = writes p ++ [mkWrite e (textContent e)] /\ style q = style p /\ clipboard q = clipboard p /\
    clipboard (step q (Resolved (length (writes p)))) = Some (textContent e) /\
    forall err, let r := step q (Rejected (length (writes p)) err) in
      writes r = writes p /\ style r = style p /\ timers r = timers p /\ clipboard r = clipboard p /\
      console r = console p ++ [("Failed to copy:", err)]
  else writes q = writes p /\ style q = style p /\ timers q = timers p /\ clipboard q = clipboard p /\
       console q = console p ++ [("Failed to copy:", "TypeError")].
Proof.
  intros H0 He p q. destruct (click_code p0 evs e H0 He) as (Hs & Ht & Hb & Hw). fold p in Hs, Ht, Hb, Hw. fold q in Hs, Ht, Hb, Hw.
  destruct (has_clipboard p0); destruct Hw as [Hw Hk]; [|done].
  assert (L : writes q !! length (writes p) = Some (mkWrite e (textContent e)))
    by (rewrite Hw, lookup_app_r, Nat.sub_diag by lia; done).
  do 3 (split; [done|]). split; [unfold step; by rewrite L|].
  intros err r. assert (Hr : r = copy_failed err (set_writes (delete (length (writes p)) (writes q)) q)) by (unfold r, step; by rewrite L).
  clearbody r q p. rewrite Hr, Hw, delete_middle, app_nil_r. cbn. by rewrite Hk.
Qed.

(** Clicking an anchor always suppresses the jump of the browser; it scrolls smoothly to the element its reference selects, does nothing when there is
    none, and reports an error when the reference is no selector. *)
Theorem anchor_click_scrolls {HD : Document} {HL : LawfulDocument} (p0 : page) (evs : list event) (e : element) :
  listeners p0 = [] -> e ∈ querySelectorAll anchors ->
  let p := run (script p0) evs in
  let q := step p (click e) in
  defaultPrevented q = true /\
  match querySelector (default "null" (getAttribute e "href")) with
  | Throws err => scrolls q = scrolls p /\ uncaught q = uncaught p ++ [err]
  | Null => scrolls q = scrolls p /\ uncaught q = uncaught p
  | Node t => scrolls q = scrolls p ++ [(t, mkScroll "smooth" "start")] /\ uncaught q = uncaught p
  end.
Proof.
  intros H0 He p q. unfold q. pose proof (click_listeners p0 evs e H0) as L. fold p in L. rewrite click_calls, L, decide_True by done.
  clear L. clearbody p. cbn. unfold anchor_click.
  destruct (querySelector (default "null" (getAttribute e "href"))); case_decide; cbn; unfold code_click; cbn; destruct (has_clipboard p); done.
Qed.

(** ** The page of the project

    The elements of website/index.html that the script selects, in document order. *)

Inductive content := Text (s : string) | Br.

(** The text of an element is that of its text nodes; a line break has none. *)
Definition text_of (body : list content) : string :=
  foldr (fun c s => match c with Text t => t +:+ s | Br => s end) EmptyString body.

Record markup := mkMarkup { m_tag : string; m_id : string; m_class : string; m_href : option string; m_body : list content }.

Definition createwallet : string := "./bin/btc3-cli createwallet " +:+ quote +:+ "miner" +:+ quote.

Definition index_html : list markup :=
  let section id c := mkMarkup "section" id c None [] in
  let card := mkMarkup "div" EmptyString "feature-card" None [] in
  let code body := mkMarkup "code" EmptyString EmptyString None body in
  [section EmptyString "hero"; mkMarkup "a" EmptyString "btn btn-primary" (Some "#get-started") [Text "Start Mining"];
   mkMarkup "div" EmptyString "hero-bg" None []; section EmptyString "mission"; section EmptyString "features";
   card; card; card; card; card; card; section EmptyString "network-info"; section "get-started" "get-started";
   code [Text "./bin/btc3d -daemon"; Br; Text createwallet];
   code [Text "./bin/btc3-cli generatetoaddress 1 $(./bin/btc3-cli getnewaddress)"]; section EmptyString "community"].

Definition matches (selector : string) (m : markup) : bool :=
  if bool_decide (selector = anchors) then
    bool_decide (m_tag m = "a") && match m_href m with Some (String c _) => bool_decide (String c EmptyString = "#") | _ => false end
  else bool_decide (selector = m_tag m \/ selector = "." +:+ m_class m \/ selector = "#" +:+ m_id m /\ m_id m <> EmptyString).

Definition select (selector : string) : list element :=
  filter (fun e => (matches selector <$> index_html !! e) = Some true) (seq 0 (length index_html)).

#[export] Instance index_document : Document := {
  querySelectorAll := select;
  querySelector s := if bool_decide (s = "#") then Throws "SyntaxError" else match select s with e :: _ => Node e | [] => Null end;
  getAttribute e a := m ← index_html !! e; if bool_decide (a = "href") then m_href m else None;
  textContent e := match index_html !! e with Some m => text_of (m_body m) | None => EmptyString end;
  css _ v := v
}.

#[export] Instance index_lawful : LawfulDocument.
Proof. split; [|done]. intros s. change (NoDup (select s)). apply NoDup_filter, NoDup_seq. Qed.

Definition page0 (secure : bool) : page := mkPage ∅ ∅ [] [] [] [] secure None (mkNumber 0 0) 0 false [] [] [].

(** On the project page, a click on the first code block copies its two commands as one line: the line break between them has no text. *)
Theorem copied_commands_run_together :
  clipboard (run (script (page0 true)) [click 13; Resolved 0]) = Some ("./bin/btc3d -daemon" +:+ createwallet).
Proof. vm_compute. reflexivity. Qed.

Lemma script_refines_view_witness :
  look 2 (run (script (page0 true)) [Scroll (mkNumber 25 1); Dispatch "scroll" [Window]])
  = mkView (mkNumber 25 1) "translateY(6.25px)" EmptyString.
Proof. rewrite (script_refines_view (page0 true) _ 2 eq_refl). vm_compute. reflexivity. Defined.

Lemma spaced_copies_restore_witness :
  let p := run (script (page0 true)) [click 13; Resolved 0] in
  let q := run p (Wait 200 :: repeat TimerTask (length (timers p))) in
  timers q = [] /\ background q 13 = EmptyString.
Proof.
  apply (spaced_copies_restore (page0 true) [click 13; Resolved 0] 13); [by split_and!|done|vm_compute; reflexivity].
Defined.


Lemma code_click_copies_witness :
  let p := run (script (page0 false)) [] in
  let q := step p (click 14) in
  writes q = writes p /\ style q = style p /\ timers q = timers p /\ clipboard q = clipboard p /\
  console q = console p ++ [("Failed to copy:", "TypeError")].
Proof.
  apply (code_click_copies (page0 false) [] 14); [done|]. apply (bool_decide_unpack _). vm_compute. exact I.
Defined.

Lemma anchor_click_scrolls_witness :
  let q := step (script (page0 true)) (click 1) in
  defaultPrevented q = true /\ scrolls q = [(12%nat, mkScroll "smooth" "start")] /\ uncaught q = [].
Proof.
  refine (_ (anchor_click_scrolls (page0 true) [] 1 eq_refl _)); [vm_compute; exact (fun H => H)|].
  apply (bool_decide_unpack _). vm_compute. exact I.
Defined.
